(* ===== verification/_CoqProject ===== *)
-Q . S2P
Prelude.v
Steps.v
GoStd.v
Sha256.v
External.v
SecurePeer.v
SecurePeerFacts.v
Session.v
Reorder.v
Engine.v
EngineFacts.v
SessionTheorems.v
Client.v
ClientFacts.v
ClientTheorems.v
Codec.v
Frame.v
Binstore.v
Records.v
Contacts.v
MultiMsg.v
MultiStore.v
MultiStoreTheorems.v
Fanout.v
FanoutTheorems.v
GroupDelivery.v
Mailbox.v
MailboxTheorems.v
MailboxSaved.v
Dispatch.v
DispatchTheorems.v
FileTransfer.v
Registry.v
Rpc.v
RpcTheorems.v
Process.v
ProcessTheorems.v
Manager.v
ManagerTheorems.v
Shell.v
Utf8.v
ShellTheorems.v
Transport.v
Wasm.v
Worker.v
WorkerTheorems.v
Ops.v
OpsFrames.v
OpsXfer.v
OpsFacts.v
OpsTheorems.v
OpsMessages.v
RelayExample.v
RelayExampleTheorems.v
Host.v
HostTheorems.v
HostOps.v
WasmTheorems.v
Front.v
FrontFacts.v
GroupChat.v
GroupChatTheorems.v
Completion.v
CompletionTheorems.v
Offline.v
OfflineTheorems.v
OfflineLoop.v
