(* ===== verification/Prelude.v ===== *)
(** * NexTalk: a verification development

    NexTalk is an end-to-end encrypted messenger.  A client holds an identity
    (Ed25519 and Dilithium keys), opens sessions with peers by a signed
    offer/answer handshake (X25519 with Kyber), and talks over each session with a
    double ratchet.  Messages, group messages and files are built on the
    sessions; relays and transport programs, which are not trusted, carry the
    frames.

    ** Parts of the program and the files that model them

    - [GoStd.v], [Sha256.v]: what the sources use of Go's standard library
      (big-endian integers, varints, base64, hex, [strings], SHA-256, HMAC).
    - [External.v]: the third-party modules (nanopack, [x/crypto], circl,
      base58) as operational classes [Nanopack] and [Prims] with classes of laws,
      and one interpretation [ref_nanopack], [ref_prims] that satisfies all of
      the laws, used by the concrete runs.
    - [SecurePeer.v] models [crypto/kex_hybrid.go], [kex_hybrid_nanopack.go],
      [ratchet.go], [utils.go]: the session object, its handshake, [Encrypt] and
      [Decrypt].  [SecurePeerFacts.v], [Session.v] (sessions in step,
      invariants of two communicating sessions) and [Reorder.v] (frames out of
      order) hold the lemmas.
    - [Engine.v] models [core/engine.go], [core/models.go]: offers and answers.
      [EngineFacts.v] and [SessionTheorems.v] hold the lemmas and the theorems on
      handshakes and sessions.
    - [Client.v] models [client/client.go]: the session manager.  Sessions are
      pointers, so the model keeps a heap of session objects beside the map of
      names, and the file a client is saved to.  [ClientFacts.v],
      [ClientTheorems.v].
    - [Codec.v] ([internal/codec], [crypto/encoding_proquint.go]), [Frame.v]
      ([internal/relay/relay.go], [internal/frame/frame.go]), [Binstore.v]
      ([internal/binstore]: record files with atomic replacement), [Records.v]
      (the record codecs the stores share), [Contacts.v] ([internal/contacts]).
    - [MultiMsg.v], [MultiStore.v], [Fanout.v] model [internal/multimsg]:
      group data and wire format, the stores in memory and on disk, and the
      fan-out that sends and receives group messages; [MultiStoreTheorems.v],
      [FanoutTheorems.v], [GroupDelivery.v] hold their theorems.
    - [Mailbox.v], [MailboxTheorems.v] model [internal/mailbox/store.go];
      [MailboxSaved.v] says when the file holds what is in memory, and what a
      failed write leaves.
    - [Dispatch.v], [DispatchTheorems.v] model [internal/dispatch/dispatch.go],
      the receive path that composes client, mailbox and fan-out.
    - [FileTransfer.v] models [internal/filetransfer]: encryption, chunks,
      manifests and tickets.
    - [Registry.v] models the known peers and the resolution of a typed peer
      ([internal/registry/peers.go] and parts of [state.go]).
    - [Rpc.v], [RpcTheorems.v] model [internal/transport/rpc.go] and
      [rpc_file.go], the messages exchanged with a transport process;
      [Process.v], [ProcessTheorems.v] model [process.go]: the calls over one
      pipe, as a state machine over their interleavings; [Manager.v],
      [ManagerTheorems.v] model [manager.go] and [manifest.go]: installed
      packages, their integrity pins, starting and removing them, and a new
      manager over the state an earlier one saved.
    - [Shell.v], [ShellTheorems.v] model [internal/shellcmd] (lexer, parameters,
      session, command tree, suggestions) and the execution of a line and of a
      script ([cmd/shell/unified.go]).  [Utf8.v]: decoding runes undoes
      encoding them.
    - [Transport.v] models the transports as the core uses them
      ([internal/transport/frame.go], [file.go]: two classes) and the process
      transport ([process_transport.go]).
    - [Worker.v], [WorkerTheorems.v] model [internal/relay/worker/adapter.go]:
      the client of a router with its caches, and the adapter to the shards.
    - [Ops.v], [OpsFrames.v], [OpsXfer.v] model [internal/transportops], the
      operations behind the front ends, which compose everything above: a
      state-and-error monad over a [World] (manager, network, files, profiles,
      session, standard output).  The profiles [<id>.json], which [SaveClient]
      rewrites whenever a session moves, are kept apart from the other files of
      the disk; [fileAt] reads a path from whichever part holds it, and the theorems
      that say what an operation leaves alone speak of [fileAt].  [OpsFacts.v] holds how runs decompose and what
      steps leave alone, [OpsTheorems.v] the theorems on files, [OpsMessages.v]
      those on polling and messages.
    - [RelayExample.v] models the transport that comes with the repository
      ([example-transports/relay-example]): its codec, its queue of files and its
      service loop, as a child of [Transport.ProcessTransport];
      [RelayExampleTheorems.v] shows what it promises.
    - [Host.v] models [internal/ntxhost], the registry of transports in a browser
      tab: packages and their pins, installing and starting, mailboxes, polling,
      sending, export and import, files.  [HostTheorems.v] holds the theorems on
      the registry and on documents, [HostOps.v] those on polling and files.
    - [Steps.v]: the state-and-error monad of the last two parts, generic in the
      state and the errors.  [Wasm.v] models [internal/transport/wasm.go], the host
      of a WebAssembly transport, over a linear memory of bytes and the module's
      exported functions; [WasmTheorems.v].
    - [Front.v] models the state behind the command groups
      ([internal/registry/state.go]): the client, the mailbox and the fan-out are
      pointers, so the [World] has a heap for each, beside the profiles, what is
      typed, what is printed and what goes out.  [FrontFacts.v] holds how its
      accessors run.  [GroupChat.v] models [internal/groupchat] (the group commands
      of the shell and of the command line, what is pasted, the views of the
      mailbox); [GroupChatTheorems.v].
    - [Completion.v] models the descriptions of commands
      ([internal/registry/completion.go]), what completes in each slot of a
      command, and the completer of the classic shell ([cmd/shell/completer.go]);
      [CompletionTheorems.v].
    - [Offline.v] models [cmd/offline], which carries everything by hand: the
      commands [init], [offer], [accept], [finish], [encrypt], [decrypt] with their
      flags and encodings ([internal/errors.go] reports their errors), the offline
      shell under [runSubShell] ([cmd/shell/shell.go]) and the stand-alone loop
      [RunOffline].  [OfflineTheorems.v] holds the theorems on the commands,
      [OfflineLoop.v] those on the loops.

    ** How the code is rendered

    Go strings and byte slices are lists of bytes, integers are [Z] with the
    wrap-around of their width written out ([u16], [u32], [u64], [i64]).  A
    function that can fail returns [res]: a value, an error or a panic.  State is
    passed explicitly; a method returns the object it leaves behind also when it
    fails.  Maps are [gmap]; where Go ranges over a map, the order is an argument
    ([storeIO], the [order] of a save) and theorems hold for every order.  The
    outcome of the environment is an argument as well: the bytes drawn from the
    random source, the clock, whether a write succeeds ([faults]).  Locks are not
    modelled where every operation holds its lock throughout (the stores): such
    operations are atomic steps.  Where they are not ([process.go]), the lock is
    part of the state.

    Components meet at interfaces: [RecordStore] (what the stores need of record
    files), [ContextStore] and [DeliveryStore] (what the fan-out needs of the
    stores) and [BinRecord] are classes with laws; the clients' theorems are
    proved against the laws and both implementations of each store discharge
    them.  The relays are outside the repository: [FrameTransport],
    [FileTransport], [Http] say which calls there are, [HonestMail] and
    [HonestRelay] what a relay promises.  A relay in memory keeps each promise in
    the concrete runs, and the repository's own transport is shown to keep those of
    [HonestMail].

    Loops that are not structural take fuel: varints ten rounds (any [uint64]
    fits), [skipUntil] the distance to the target, the chunk loop of
    [EncryptFile] one round per ciphertext byte (the loop is shown to end earlier
    and at which round), the capability loop one round per byte
    ([capsLoop_fuel] shows that more changes nothing), [strings.Fields] and the
    rune decoder one round per byte (each consumes at least one), the frames of a
    poll one round per byte (each takes five or more; the host of a WebAssembly
    module likewise).  The loops over typed lines take one round more than there
    are lines: every round consumes one ([offline_loop_ends]).

    A theorem that allows an operation to fail says which fault of the environment
    that takes (a write of the mailbox file, say) and what is then left.

    The outcomes the environment decides during one operation of a tab are a record,
    [Host.hostEnv], as [Ops] has one: a theorem holds for every such record.

    ** What is shown

    - Handshake and sessions: two honest parties end with sessions in step
      ([honest_handshake_establishes], over the receive path
      [handshake_over_dispatch]); in-order traffic stays in step and decrypts to
      what was sent ([ordered_delivery_faithful]) and is the newest message of its
      conversation, in memory and as the file is read ([direct_message_received]);
      within a chain, loss, reordering and duplication refine exactly-once
      delivery ([exactly_once_within_epoch]); forged frames have no effect
      ([unauthentic_frame_no_effect]); [encrypt_total].
    - Authentication and replay of handshakes ([accepted_offer_authentic],
      [finished_handshake_authentic], [accepted_offer_not_replayable]).
    - Clients: pointers stay valid, saving and loading ([session_pointers_valid],
      [save_then_load]).
    - Groups: a group message arrives as sent ([group_delivery_faithful]), at
      most once, from the session that decrypted it, and not bound to anyone else
      than its sender and recipient ([received_once_and_bound]),
      every recipient is reported ([send_reports_every_recipient]), policies
      ([effective_recipients_spec]), descriptors never go back
      ([descriptor_versions_monotone]).
    - Stores: contacts, contexts, policies, deliveries and conversations survive
      saving and loading, saves are atomic; the indices of the deliveries are exact
      in the file store, and in memory list an ID as often as it was saved
      ([delivery_indices_exact]).
    - Files: a file arrives as sent ([file_transfer_faithful]), chunking ends
      ([encrypt_file_terminates]).
    - End to end, over the operations: what [MessageSend] sent is in the mailbox
      after [Poll] ([message_sent_is_polled]), what [XferSend] sent is on disk after
      [XferRecv] ([file_sent_is_received]), both over any relay that keeps its
      promises; over any relay at all, only the file asked for and the receiver's
      own profile are written ([received_file_is_the_manifests]).  A poll asks for
      one's own mailboxes ([poll_selects]), dispatches their frames as a batch and
      sends each reply of the batch once ([poll_is_dispatch]); a question answered with no changes nothing
      ([unconfirmed_changes_nothing]).
    - The repository's transport: over the wire it loses no frame, whatever is asked
      of it and whichever system calls fail, and repeats none unless a removal
      failed ([relay_keeps_every_frame], [unremoved_frame_repeats]), and it keeps what [message_sent_is_polled] asks
      of a relay ([example_relay_is_honest]).
    - Transports in a tab: the registry stays well formed under every
      interleaving of the operations with the start of a runtime
      ([registry_invariant]); a package replaced while it is being started runs
      under the new manifest ([replaced_while_starting]); an import takes effect
      as a whole or not at all ([import_all_or_nothing]) and undoes an export
      ([export_import_roundtrip]); a poll leaves the mailboxes of other identities
      alone, whether the transport runs or has to be started first
      ([poll_reads_only_own]), and splits exactly the blob it is given
      ([poll_blob_exact]); a ticket cannot ask for more than a tab holds
      ([received_within_limits]).
    - Transports as WebAssembly modules: over a module that keeps a queue, what is
      sent is polled, once and whole ([wasm_queue_is_honest]); the arguments of a
      call reach the module unharmed by one another ([wasm_send_args_intact]), both
      with the scratch memory the host takes and with an allocator the module
      exports, of which [WasmAllocLaws] and [QueueABI] say what it has to keep apart.
      The two ways to poll agree and keep every frame ([wasm_poll_agrees]), and the limit given to a poll is
      not enforced by the host ([poll_limit_not_enforced]).
    - Group commands: the copy the shell prints for a member of a group is taken in
      by the member ([exported_copy_is_received]); pasting has the effect of
      receiving ([ingest_is_dispatch]); the policy commands decide who is sent to
      ([policy_decides_delivery]); how a group is named ([context_ref_spec]).
    - Offline: the three commands of a handshake, handing the envelope on in any
      encoding, leave sessions that agree ([offline_handshake_establishes]); what
      [encrypt] printed [decrypt] prints back ([offline_message_received]); the
      loops end ([offline_loop_ends], [offline_shell_ends]).
    - Completion: a suffix that is offered completes the word to a candidate, in
      any alphabet ([completion_inserts_candidate]); the words offered for a command
      are the commands there are ([command_names_found]).
    - Routers and shards: a message goes to the replicas in order until one
      accepts it ([send_stops_at_first_acceptance]), a registration proves the key
      ([registration_proves_key]), a routing table is always served
      ([routing_table_always_served]).
    - Peers: what the user typed is never resolved by guesswork
      ([resolve_peer_never_guesses]).
    - Transports: every RPC message decodes to what was encoded, or is refused for
      a reason that is stated ([rpc_roundtrip]) and calls do not mix up their answers
      ([process_calls_correlated]); a started transport is the package that was
      last pinned, through failed installations, changed files and restarts
      ([start_runs_what_was_installed]).
    - The shell: a typed command reaches its handler with the words that were
      typed ([typed_command_reaches_handler]), suggestions rank by the edit
      distance ([levenshtein_edit_distance]).
    - What the code does against its intention is stated and proved as well:
      a reload ends key rotation ([reload_disables_rotation]), a frame of a past
      epoch rotates the chain ([past_epoch_frame_rotates]), finishing a handshake
      forgets the accepted offers ([finish_forgets_accepted_offers]), a stray
      answer is completed on the shared pending object
      ([stray_answer_shares_pending_object]), any identity can take a group's
      descriptor over ([foreign_creator_takes_over]), pending deliveries are lost
      ([pending_deliveries_lost]), the number of skipped keys is not bounded
      ([skipped_keys_unbounded]), one unread request blocks a transport
      ([unread_request_blocks_transport]), removing a transport does not check
      its ID ([remove_deletes_what_id_names]), an installation that reports an error
      may have changed what runs (the witness of
      [start_runs_what_was_installed]), a frame that cannot be removed is handed
      out again ([unremoved_frame_repeats]), words of a message are taken as
      shell syntax ([text_words_taken_as_syntax]), showing an empty conversation
      panics ([render_empty_thread_panics]), loading an identity in the offline
      shell keeps the mailbox of the one before ([load_keeps_mailbox],
      [init_keeps_stores]), the base64 of a frame is not taken in as a frame
      ([base64_frame_not_ingested]), a blank package ends the offline loop with a
      panic ([blank_package_panics]), [decrypt] of a container ignores [--output]
      ([container_output_ignored]).

    The cryptographic primitives are assumed correct (decryption undoes
    encryption, signatures verify), not secure: no theorem says that a signature
    cannot be forged.  Authenticity theorems say which checks have passed.

    ** Not modelled

    The adapter to the proxy service ([internal/relay/proxy]), which does not
    implement the interface it is meant for; spawning processes and the
    WebAssembly runtime; the browser bridge ([internal/wasmbridge], [web]); the helper commands of the sample
    transport; the front ends other than [cmd/offline] and the handlers of the
    unified shell ([cmd], [internal/ui]), which parse arguments and print around
    the modelled operations; registration with the command-line library and the
    line editor; text of error messages, except those of the worker adapter. *)
From Stdlib Require Export ZArith Lia.
From Corelib Require Export Init.Byte.
From Stdlib Require Strings.Byte Strings.String.
From stdpp Require Export base tactics list gmap sets sorting option.
Export Stdlib.Strings.String.StringSyntax.
#[local] Open Scope Z_scope.

(** ** Bytes

    Go's [byte] is the 256-constructor type of the standard library.  Go strings
    are byte sequences, so [string] and [[]byte] are both [bytes]. *)
Abbreviation bytes := (list byte).

#[export] Instance byte_eq_decision : EqDecision byte := Strings.Byte.byte_eq_dec.

#[export] Instance byte_countable : Countable byte :=
  inj_countable Strings.Byte.to_N Strings.Byte.of_N Strings.Byte.of_to_N.

(** The value of a byte and Go's conversion [byte(z)]. *)
Definition Zb (b : byte) : Z := Z.of_N (Strings.Byte.to_N b).

Definition byteZ (z : Z) : byte := default x00 (Strings.Byte.of_N (Z.to_N (z mod 256))).

(** A Go string literal. *)
Definition str (s : String.string) : bytes := String.list_byte_of_string s.

Arguments str _%_string_scope.

Definition len {A} (l : list A) : Z := Z.of_nat (length l).

Lemma Zb_range b : 0 <= Zb b < 256.
Proof. unfold Zb. pose proof (Strings.Byte.to_N_bounded b). lia. Qed.

Lemma byteZ_Zb b : byteZ (Zb b) = b.
Proof.
  unfold byteZ. rewrite Z.mod_small by apply Zb_range. unfold Zb.
  rewrite N2Z.id, Strings.Byte.of_to_N. done.
Qed.

Lemma Zb_byteZ z : Zb (byteZ z) = z mod 256.
Proof.
  unfold byteZ, Zb. pose proof (Z.mod_pos_bound z 256 eq_refl) as Hz.
  destruct (Strings.Byte.of_N (Z.to_N (z mod 256))) as [b|] eqn:Hb; simpl.
  - apply Strings.Byte.to_of_N in Hb. lia.
  - apply Strings.Byte.of_N_None_iff in Hb. lia.
Qed.

Lemma Zb_inj a b : Zb a = Zb b -> a = b.
Proof. intros H. by rewrite <- (byteZ_Zb a), H, byteZ_Zb. Qed.

Lemma byteZ_mod z : byteZ (z mod 256) = byteZ z.
Proof. unfold byteZ. by rewrite Z.mod_mod by lia. Qed.

Lemma byteZ_inj a b : 0 <= a < 256 -> 0 <= b < 256 -> byteZ a = byteZ b -> a = b.
Proof.
  intros Ha Hb H. apply (f_equal Zb) in H. rewrite !Zb_byteZ in H.
  by rewrite !Z.mod_small in H.
Qed.


(** ** Machine integers *)
Definition u16 (z : Z) : Z := z mod 2 ^ 16.
Definition u32 (z : Z) : Z := z mod 2 ^ 32.
Definition u64 (z : Z) : Z := z mod 2 ^ 64.

(** Go's [int] and [int64] on a 64-bit target: two's complement. *)
Definition i64 (z : Z) : Z := (z + 2 ^ 63) mod 2 ^ 64 - 2 ^ 63.

Lemma u64_small z : 0 <= z < 2 ^ 64 -> u64 z = z.
Proof. apply Z.mod_small. Qed.

Lemma u16_small z : 0 <= z < 2 ^ 16 -> u16 z = z.
Proof. apply Z.mod_small. Qed.

Lemma u32_small z : 0 <= z < 2 ^ 32 -> u32 z = z.
Proof. apply Z.mod_small. Qed.

Lemma i64_small z : - 2 ^ 63 <= z < 2 ^ 63 -> i64 z = z.
Proof. intros H. unfold i64. rewrite Z.mod_small; lia. Qed.

Lemma i64_wrap z : 2 ^ 63 <= z < 2 ^ 64 -> i64 z = z - 2 ^ 64.
Proof.
  intros H. unfold i64. assert ((z + 2 ^ 63) mod 2 ^ 64 = z + 2 ^ 63 - 2 ^ 64) as ->; [|lia].
  symmetry. apply (Z.mod_unique _ _ 1); lia.
Qed.

Lemma i64_range z : - 2 ^ 63 <= i64 z < 2 ^ 63.
Proof. unfold i64. pose proof (Z.mod_pos_bound (z + 2 ^ 63) (2 ^ 64) eq_refl). lia. Qed.

Lemma u64_range z : 0 <= u64 z < 2 ^ 64.
Proof. by apply Z.mod_pos_bound. Qed.

(** Storing an [int64] as [uint64] and reading it back is the identity. *)
Lemma i64_u64 z : - 2 ^ 63 <= z < 2 ^ 63 -> i64 (u64 z) = z.
Proof.
  intros H. unfold i64, u64. rewrite Z.add_mod_idemp_l by lia.
  by apply i64_small.
Qed.

(** ** Results

    A Go function that can fail returns [Ok], an error value, or panics. *)
Inductive res (E A : Type) : Type :=
| Ok (a : A)
| Err (e : E)
| Panic.
Arguments Ok {E A} _.
Arguments Err {E A} _.
Arguments Panic {E A}.

#[export] Instance res_ret E : MRet (res E) := fun A a => Ok a.
#[export] Instance res_bind E : MBind (res E) := fun A B f m =>
  match m with Ok a => f a | Err e => Err e | Panic => Panic end.
#[export] Instance res_fmap E : FMap (res E) := fun A B f m =>
  match m with Ok a => Ok (f a) | Err e => Err e | Panic => Panic end.

(** [fmt.Errorf("...: %w", err)]: rewrap the error of a call. *)
Definition wrapErr {E F A} (f : E -> F) (m : res E A) : res F A :=
  match m with Ok a => Ok a | Err e => Err (f e) | Panic => Panic end.

(** [if cond { return err }]. *)
Definition check {E} (fails : bool) (e : E) : res E unit :=
  if fails then Err e else Ok tt.

Definition ofOption {E A} (e : E) (o : option A) : res E A :=
  match o with Some a => Ok a | None => Err e end.

Definition isOk {E A} (m : res E A) : bool :=
  match m with Ok _ => true | _ => false end.

Lemma bind_Ok {E A B} (m : res E A) (f : A -> res E B) b :
  (m ≫= f) = Ok b <-> exists a, m = Ok a /\ f a = Ok b.
Proof. destruct m; simpl; naive_solver. Qed.

Lemma ok_bind {E A B} (m : res E A) (f : A -> res E B) a : m = Ok a -> (m ≫= f) = f a.
Proof. by intros ->. Qed.

Lemma wrapErr_Ok {E F A} (f : E -> F) (m : res E A) a :
  wrapErr f m = Ok a <-> m = Ok a.
Proof. destruct m; simpl; naive_solver. Qed.

Lemma check_Ok {E} c (e : E) u : check c e = Ok u <-> c = false.
Proof. unfold check; destruct c, u; naive_solver. Qed.

Lemma ofOption_Ok {E A} (e : E) (o : option A) a : ofOption e o = Ok a <-> o = Some a.
Proof. destruct o; simpl; naive_solver. Qed.

(** ** Orders: Go's [bytes.Compare] and [<] on strings *)
Fixpoint bytes_cmp (a b : bytes) : comparison :=
  match a, b with
  | [], [] => Eq
  | [], _ :: _ => Lt
  | _ :: _, [] => Gt
  | x :: a', y :: b' =>
      match Z.compare (Zb x) (Zb y) with Eq => bytes_cmp a' b' | c => c end
  end.

Definition bytes_ltb (a b : bytes) : bool :=
  match bytes_cmp a b with Lt => true | _ => false end.

Definition bytes_eqb (a b : bytes) : bool := bool_decide (a = b).

Lemma bytes_cmp_eq a b : bytes_cmp a b = Eq <-> a = b.
Proof.
  revert b. induction a as [|x a IH]; intros [|y b]; simpl; try done.
  destruct (Z.compare_spec (Zb x) (Zb y)) as [H|H|H].
  - apply Zb_inj in H as ->. rewrite IH. naive_solver.
  - split; [done|]. intros [= -> ->]. lia.
  - split; [done|]. intros [= -> ->]. lia.
Qed.

Lemma bytes_cmp_refl a : bytes_cmp a a = Eq.
Proof. by apply bytes_cmp_eq. Qed.

Lemma bytes_cmp_antisym a b : bytes_cmp b a = CompOpp (bytes_cmp a b).
Proof.
  revert b. induction a as [|x a IH]; intros [|y b]; simpl; try done.
  rewrite (Z.compare_antisym (Zb x) (Zb y)).
  destruct (Z.compare (Zb x) (Zb y)); simpl; auto.
Qed.

Lemma bytes_cmp_trans a b c :
  bytes_cmp a b ≠ Gt -> bytes_cmp b c ≠ Gt -> bytes_cmp a c ≠ Gt.
Proof.
  revert b c. induction a as [|x a IH]; intros [|y b] [|z c]; simpl; try done.
  destruct (Z.compare_spec (Zb x) (Zb y)), (Z.compare_spec (Zb y) (Zb z)),
    (Z.compare_spec (Zb x) (Zb z)); try done; try lia.
  apply IH.
Qed.

Definition bytes_le (a b : bytes) : Prop := bytes_cmp a b ≠ Gt.

#[export] Instance bytes_le_dec : RelDecision bytes_le.
Proof. intros a b. unfold bytes_le. destruct (bytes_cmp a b); [left|left|right]; naive_solver. Defined.

#[export] Instance bytes_le_trans : Transitive bytes_le.
Proof. intros a b c. apply bytes_cmp_trans. Qed.

#[export] Instance bytes_le_antisymm : AntiSymm (=) bytes_le.
Proof.
  intros a b. unfold bytes_le. rewrite (bytes_cmp_antisym a b).
  destruct (bytes_cmp a b) eqn:H; try done. by apply bytes_cmp_eq in H.
Qed.

#[export] Instance bytes_le_total : Total bytes_le.
Proof.
  intros a b. unfold bytes_le. rewrite (bytes_cmp_antisym a b).
  destruct (bytes_cmp a b); naive_solver.
Qed.

(** [sort.Slice] with [bytes.Compare] (or [<] on strings): the result depends on
    the elements only, not on the order they come in. *)
Definition bytes_sort (l : list bytes) : list bytes := merge_sort bytes_le l.

Lemma bytes_sort_perm l : bytes_sort l ≡ₚ l.
Proof. apply merge_sort_Permutation. Qed.

Lemma bytes_sort_sorted l : Sorted bytes_le (bytes_sort l).
Proof. by apply Sorted_merge_sort, _. Qed.

Lemma bytes_sort_proper l1 l2 : l1 ≡ₚ l2 -> bytes_sort l1 = bytes_sort l2.
Proof.
  intros H. apply (Sorted_unique bytes_le); [apply bytes_sort_sorted..|].
  by rewrite !bytes_sort_perm.
Qed.

(** A run whose result is known: the state is left unevaluated. *)
Lemma pair_result {A B} (x : A * B) b : x.2 = b -> x = (x.1, b).
Proof. by intros <-; destruct x. Qed.

(** ** Automation *)
Create HintDb nextalk.
Create Rewrite HintDb nextalk.

(** Decompose successful runs of the error monad. *)
Ltac res_inv :=
  repeat match goal with
  | H : (_ ≫= _) = Ok _ |- _ =>
      let a := fresh "a" in let H1 := fresh "H" in
      apply bind_Ok in H as (a & H1 & H)
  | H : wrapErr _ _ = Ok _ |- _ => apply wrapErr_Ok in H
  | H : check _ _ = Ok _ |- _ => apply check_Ok in H
  | H : ofOption _ _ = Ok _ |- _ => apply ofOption_Ok in H
  | H : mret _ = Ok _ |- _ => unfold mret, res_ret in H
  | H : Ok _ = Ok _ |- _ => injection H as H
  end; simplify_eq.

(** Split the conjunctions of the goal, without looking into definitions. *)
Ltac conjs := repeat match goal with |- _ /\ _ => split end.

(** Case on every [if]/[match] scrutinee of the goal. *)
Ltac case_all := repeat (case_match; simplify_eq); try done.

(** Turn boolean tests into propositions. *)
Ltac bool_prop :=
  repeat match goal with
  | H : (_ && _)%bool = true |- _ => apply andb_true_iff in H as [? ?]
  | H : (_ || _)%bool = false |- _ => apply orb_false_iff in H as [? ?]
  | H : negb _ = true |- _ => apply negb_true_iff in H
  | H : negb _ = false |- _ => apply negb_false_iff in H
  | H : bool_decide _ = true |- _ => apply bool_decide_eq_true in H
  | H : bool_decide _ = false |- _ => apply bool_decide_eq_false in H
  | H : bytes_eqb _ _ = true |- _ => unfold bytes_eqb in H
  | H : bytes_eqb _ _ = false |- _ => unfold bytes_eqb in H
  | H : (_ =? _)%Z = true |- _ => apply Z.eqb_eq in H
  | H : (_ =? _)%Z = false |- _ => apply Z.eqb_neq in H
  | H : (_ <? _)%Z = true |- _ => apply Z.ltb_lt in H
  | H : (_ <? _)%Z = false |- _ => apply Z.ltb_ge in H
  | H : (_ <=? _)%Z = true |- _ => apply Z.leb_le in H
  | H : (_ <=? _)%Z = false |- _ => apply Z.leb_gt in H
  end.

Lemma bytes_eqb_refl a : bytes_eqb a a = true.
Proof. by apply bool_decide_eq_true. Qed.

Lemma bytes_eqb_eq a b : bytes_eqb a b = true <-> a = b.
Proof. unfold bytes_eqb. by rewrite bool_decide_eq_true. Qed.

Lemma bytes_eqb_neq a b : bytes_eqb a b = false <-> a ≠ b.
Proof. unfold bytes_eqb. by rewrite bool_decide_eq_false. Qed.

#[export] Hint Rewrite bytes_eqb_refl : nextalk.
