(* ===== verification/Steps.v ===== *)
(** * Computations over a state that can fail

    What the front ends and the module host share: a step takes the state to a
    state and a result; a failure keeps the state it reached.  [run] inverts a
    successful step, and the lemmas on [step_bind] follow one through a bind. *)
From S2P Require Import Prelude.

Definition Step (W E A : Type) : Type := W -> W * res E A.

#[export] Instance Step_ret W E : MRet (Step W E) := fun A a w => (w, Ok a).
#[export] Instance Step_bind W E : MBind (Step W E) := fun A B f m w =>
  match m w with
  | (w, Ok a) => f a w
  | (w, Err e) => (w, Err e)
  | (w, Panic) => (w, Panic)
  end.

Module Steps.
Section Steps.
Context {W E : Type}.

Definition lift {A} (r : res E A) : Step W E A := fun w => (w, r).
Definition fail {A} (e : E) : Step W E A := lift (Err e).
Definition gets {A} (f : W -> A) : Step W E A := fun w => (w, Ok (f w)).
Definition modify (f : W -> W) : Step W E unit := fun w => (f w, Ok tt).

(** [if cond { return err }] *)
Definition failIf (c : bool) (e : E) : Step W E unit := lift (check c e).

(** [if err := ...; err != nil] without leaving the function. *)
Definition attempt {A} (m : Step W E A) : Step W E (E + A) := fun w =>
  match m w with
  | (w, Ok a) => (w, Ok (inr a))
  | (w, Err e) => (w, Ok (inl e))
  | (w, Panic) => (w, Panic)
  end.

(** Wrapping the error of a step. *)
Definition wrap {F A} (f : E -> F) (m : Step W E A) : Step W F A := fun w => let '(w, r) := m w in (w, wrapErr f r).

End Steps.

Section Runs.
Context {W E : Type}.
Implicit Types w : W.

Lemma bind_run {A B} (m : Step W E A) (f : A -> Step W E B) w w1 a : m w = (w1, Ok a) -> (m ≫= f) w = f a w1.
Proof. intros H. unfold mbind, Step_bind. by rewrite H. Qed.

Lemma bind_fails {A B} (m : Step W E A) (f : A -> Step W E B) w w1 e : m w = (w1, Err e) -> (m ≫= f) w = (w1, Err e).
Proof. intros H. unfold mbind, Step_bind. by rewrite H. Qed.

Lemma step_bind_Ok {A B} (m : Step W E A) (f : A -> Step W E B) w w' b :
  (m ≫= f) w = (w', Ok b) <-> exists w1 a, m w = (w1, Ok a) /\ f a w1 = (w', Ok b).
Proof. unfold mbind, Step_bind. destruct (m w) as [w1 [a|e|]]; naive_solver. Qed.

Lemma step_lift_Ok {A} (r : res E A) w w' a : lift r w = (w', Ok a) <-> r = Ok a /\ w' = w.
Proof. unfold lift. naive_solver. Qed.

Lemma failIf_Ok c (e : E) w w' u : failIf c e w = (w', Ok u) <-> c = false /\ w' = w.
Proof. unfold failIf. rewrite step_lift_Ok, Prelude.check_Ok. done. Qed.

Lemma step_gets_Ok {A} (f : W -> A) w w' a : @gets W E A f w = (w', Ok a) <-> a = f w /\ w' = w.
Proof. unfold gets. naive_solver. Qed.

Lemma attempt_Ok {A} (m : Step W E A) w w' x :
  attempt m w = (w', Ok x) <-> match x with inr a => m w = (w', Ok a) | inl e => m w = (w', Err e) end.
Proof. unfold attempt. destruct (m w) as [w1 [a|e|]], x; naive_solver. Qed.

(** Where a step can lead, whatever it returns: to related states, for a relation
    that composes. *)
Definition leads (R : W -> W -> Prop) {A} (m : Step W E A) : Prop := forall w, R w (m w).1.

Section Leads.
Context (R : W -> W -> Prop) `{!PreOrder R}.

Lemma leads_ret {A} (a : A) : leads R (mret a).
Proof. intros w. apply (reflexivity (R := R)). Qed.

Lemma leads_lift {A} (r : res E A) : leads R (lift r).
Proof. intros w. apply (reflexivity (R := R)). Qed.

Lemma leads_gets {A} (f : W -> A) : leads R (gets f).
Proof. intros w. apply (reflexivity (R := R)). Qed.

Lemma leads_modify f : (forall w, R w (f w)) -> leads R (modify f).
Proof. intros H w. apply H. Qed.

Lemma leads_bind {A B} (m : Step W E A) (f : A -> Step W E B) : leads R m -> (forall a, leads R (f a)) -> leads R (m ≫= f).
Proof.
  intros Hm Hf w. specialize (Hm w). unfold mbind, Step_bind. destruct (m w) as [w1 [a|e|]]; cbn in *; [|done|done].
  etransitivity; [exact Hm|apply Hf].
Qed.

Lemma leads_attempt {A} (m : Step W E A) : leads R m -> leads R (attempt m).
Proof. intros H w. specialize (H w). unfold attempt. by destruct (m w) as [w1 [a|e|]]. Qed.

Lemma leads_wrap {F A} (f : E -> F) (m : Step W E A) : leads R m -> forall w, R w (wrap f m w).1.
Proof. intros H w. specialize (H w). unfold wrap. by destruct (m w). Qed.

End Leads.

End Runs.

(** Lemmas on where named steps lead go to the database. *)
Create HintDb leads.

(** Where the parts of a step lead; what remains are steps the database does not
    know and changes of the state that are not related by computation. *)
Ltac follow :=
  repeat first
    [ progress intros
    | solve [eauto 2 with leads nocore]
    | apply leads_ret | apply leads_lift | apply leads_gets
    | apply leads_modify; intros; [done]
    | apply leads_bind | apply leads_attempt
    | match goal with |- leads _ (match ?x with _ => _ end) => destruct x end
    | match goal with |- leads _ (fail _) => apply leads_lift end
    | match goal with |- leads _ (failIf _ _) => apply leads_lift end
    | match goal with |- PreOrder _ => typeclasses eauto end
    | progress cbv zeta ].

(** Follow a successful run through its binds. *)
Ltac run_inv :=
  repeat match goal with
  | H : (_ ≫= _) _ = (_, Ok _) |- _ =>
      let w := fresh "w" in let a := fresh "a" in let H1 := fresh "H" in
      apply step_bind_Ok in H as (w & a & H1 & H); cbv beta in H
  | H : lift _ _ = (_, Ok _) |- _ => apply step_lift_Ok in H as [H ?]; subst
  | H : failIf _ _ _ = (_, Ok _) |- _ => apply failIf_Ok in H as [H ?]; subst
  | H : gets _ _ = (_, Ok _) |- _ => apply step_gets_Ok in H as [? ?]; subst
  | H : mret _ _ = (_, Ok _) |- _ => injection H as ? ?; subst
  end.

End Steps.
