(* ===== verification/GoStd.v ===== *)
(** * The parts of Go's standard library the program uses

    [encoding/binary] (big-endian integers and varints), [encoding/base64],
    [encoding/hex], decimal formatting, and the [strings] helpers.  Every
    definition is executable; the round trips the program relies on are proved
    here once. *)
From stdpp Require Import pretty.
From S2P Require Import Prelude.
#[local] Open Scope Z_scope.

(** ** [encoding/binary]: big-endian integers *)
Fixpoint be (n : nat) (z : Z) : bytes :=
  match n with
  | O => []
  | S n => be n (Z.shiftr z 8) ++ [byteZ z]
  end.

Definition unbe (l : bytes) : Z :=
  fold_left (fun a b => Z.lor (Z.shiftl a 8) (Zb b)) l 0.

Definition putU32 (v : Z) : bytes := be 4 v.
Definition putU64 (v : Z) : bytes := be 8 v.

Lemma length_be n z : length (be n z) = n.
Proof.
  revert z. induction n as [|n IH]; intros z; simpl; [done|].
  rewrite length_app, IH. simpl. lia.
Qed.

(** Or-ing a small value below a shifted one is addition. *)
Lemma land_shiftl_small a b k : 0 <= k -> 0 <= b < 2 ^ k -> Z.land (Z.shiftl a k) b = 0.
Proof.
  intros Hk Hb. apply Z.bits_inj'. intros i Hi. rewrite Z.land_spec, Z.bits_0.
  destruct (decide (i < k)) as [|Hge]; [by rewrite Z.shiftl_spec_low|].
  rewrite <- (Z.mod_small b (2 ^ k)) by done.
  rewrite Z.mod_pow2_bits_high by lia. apply andb_false_r.
Qed.

Lemma lor_shiftl_add a b k :
  0 <= k -> 0 <= b < 2 ^ k -> Z.lor (Z.shiftl a k) b = a * 2 ^ k + b.
Proof.
  intros Hk Hb. pose proof (land_shiftl_small a b k Hk Hb) as Hl.
  rewrite <- Z.lxor_lor, <- Z.add_nocarry_lxor by done.
  by rewrite Z.shiftl_mul_pow2.
Qed.

Lemma lor_shiftl8 a b : 0 <= b < 256 -> Z.lor (Z.shiftl a 8) b = a * 256 + b.
Proof. intros Hb. by apply (lor_shiftl_add a b 8). Qed.

Lemma unbe_snoc l b : unbe (l ++ [b]) = unbe l * 256 + Zb b.
Proof. unfold unbe. rewrite fold_left_app. simpl. apply lor_shiftl8, Zb_range. Qed.

Lemma unbe_be n z : unbe (be n z) = z mod 2 ^ (8 * Z.of_nat n).
Proof.
  revert z. induction n as [|n IH]; intros z.
  - simpl. by rewrite Z.mod_1_r.
  - cbn [be]. rewrite unbe_snoc, IH, Zb_byteZ, Z.shiftr_div_pow2 by lia.
    change (2 ^ 8) with 256.
    replace (8 * Z.of_nat (S n)) with (8 + 8 * Z.of_nat n) by lia.
    rewrite Z.pow_add_r by lia. change (2 ^ 8) with 256.
    rewrite Z.rem_mul_r by lia. lia.
Qed.

Lemma unbe_range l : 0 <= unbe l < 2 ^ (8 * len l).
Proof.
  induction l as [|b l IH] using rev_ind; [done|].
  rewrite unbe_snoc. unfold len in *. rewrite length_app. simpl length.
  replace (8 * Z.of_nat (length l + 1)) with (8 * Z.of_nat (length l) + 8) by lia.
  rewrite Z.pow_add_r by lia. pose proof (Zb_range b). change (2 ^ 8) with 256. lia.
Qed.

Lemma be_unbe l : be (length l) (unbe l) = l.
Proof.
  induction l as [|b l IH] using rev_ind; [done|].
  rewrite length_app, Nat.add_comm. cbn [be Nat.add length].
  rewrite unbe_snoc, Z.shiftr_div_pow2 by lia. change (2 ^ 8) with 256.
  pose proof (Zb_range b). rewrite Z.div_add_l, Z.div_small, Z.add_0_r, IH by lia.
  f_equal. f_equal. rewrite <- byteZ_mod.
  rewrite Z.add_comm, Z_mod_plus_full, byteZ_mod. apply byteZ_Zb.
Qed.

Lemma be_inj n a b : a mod 2 ^ (8 * Z.of_nat n) ≠ b mod 2 ^ (8 * Z.of_nat n) -> be n a ≠ be n b.
Proof. intros H Hb. apply H. by rewrite <- !unbe_be, Hb. Qed.

Lemma len_putU64 z : len (putU64 z) = 8.
Proof. unfold putU64, len. by rewrite length_be. Qed.

Lemma len_putU32 z : len (putU32 z) = 4.
Proof. unfold putU32, len. by rewrite length_be. Qed.

Lemma unbe_putU64 z : unbe (putU64 z) = u64 z.
Proof. apply (unbe_be 8). Qed.

Lemma unbe_putU32 z : unbe (putU32 z) = u32 z.
Proof. apply (unbe_be 4). Qed.

(** ** [encoding/binary]: varints

    [AppendUvarint] emits seven bits at a time, low group first.  Ten groups
    hold any [uint64], so the loop gets ten rounds. *)
Fixpoint putUvarint_go (fuel : nat) (x : Z) : bytes :=
  match fuel with
  | O => []
  | S f => if x <? 128 then [byteZ x]
           else byteZ (Z.lor x 128) :: putUvarint_go f (Z.shiftr x 7)
  end.

Definition putUvarint (x : Z) : bytes := putUvarint_go 10 (u64 x).

(** [binary.Uvarint]: the value and the number of bytes read; a count of at most
    0 reports a truncated or overlong buffer. *)
Fixpoint getUvarint_go (i : nat) (x s : Z) (buf : bytes) : Z * Z :=
  match buf with
  | [] => (0, 0)
  | b :: t =>
      if Nat.eqb i 10 then (0, - (Z.of_nat i + 1))
      else if Zb b <? 128 then
        if (Nat.eqb i 9 && (1 <? Zb b))%bool then (0, - (Z.of_nat i + 1))
        else (u64 (Z.lor x (Z.shiftl (Zb b) s)), Z.of_nat i + 1)
      else getUvarint_go (S i) (u64 (Z.lor x (Z.shiftl (Z.land (Zb b) 127) s))) (s + 7) t
  end.

Definition getUvarint (buf : bytes) : Z * Z := getUvarint_go 0 0 0 buf.

Example uvarint_300 : putUvarint 300 = [xac; x02] /\ getUvarint [xac; x02; xff] = (300, 2).
Proof. by vm_compute. Qed.

(** Facts about the 256 byte values are decided by enumeration. *)
Ltac by_bytes b := revert b; intros []; vm_compute; first [reflexivity | congruence].

Lemma Zb_cont x : Zb (byteZ (Z.lor x 128)) = 128 + x mod 128.
Proof.
  rewrite Zb_byteZ. change 256 with (2 ^ 8).
  rewrite <- Z.land_ones, Z.land_lor_distr_l, Z.land_ones by lia.
  change (2 ^ 8) with 256.
  replace (x mod 128) with ((x mod 256) mod 128)
    by (apply Z.mod_mod_divide; by exists 2).
  rewrite <- (Zb_byteZ x). generalize (byteZ x). intros b. by_bytes b.
Qed.

Lemma land_127 y : Z.land (128 + y mod 128) 127 = y mod 128.
Proof.
  change 127 with (Z.ones 7). rewrite Z.land_ones by lia. change (2 ^ 7) with 128.
  pose proof (Z.mod_pos_bound y 128 eq_refl).
  rewrite Z.add_comm. rewrite <- (Z.mul_1_l 128) at 2.
  rewrite Z_mod_plus_full. by rewrite Z.mod_mod by lia.
Qed.

Lemma getUvarint_go_put f i acc x t :
  (f + i = 10)%nat -> (0 < f)%nat ->
  0 <= acc < 2 ^ (7 * Z.of_nat i) -> 0 <= x -> x * 2 ^ (7 * Z.of_nat i) < 2 ^ 64 ->
  getUvarint_go i acc (7 * Z.of_nat i) (putUvarint_go f x ++ t)
  = (acc + x * 2 ^ (7 * Z.of_nat i), Z.of_nat (i + length (putUvarint_go f x))).
Proof.
  revert i acc x. induction f as [|f IH]; intros i acc x Hf Hpos Hacc Hx Hb; [lia|].
  pose proof (Z.pow_pos_nonneg 2 (7 * Z.of_nat i) ltac:(lia) ltac:(lia)) as Hp.
  assert (forall y, 0 <= y -> acc + y * 2 ^ (7 * Z.of_nat i) < 2 ^ 64 ->
    u64 (Z.lor acc (Z.shiftl y (7 * Z.of_nat i))) = acc + y * 2 ^ (7 * Z.of_nat i)) as Hor.
  { intros y Hy Hlt. rewrite Z.lor_comm, lor_shiftl_add by lia. rewrite u64_small; nia. }
  assert (2 ^ (7 * Z.of_nat i) <= 2 ^ 63) as Hi63 by (apply Z.pow_le_mono_r; lia).
  assert (x * 2 ^ (7 * Z.of_nat i) <= 2 ^ 64 - 2 ^ (7 * Z.of_nat i)) as Hxb.
  { assert (2 ^ 64 = 2 ^ (64 - 7 * Z.of_nat i) * 2 ^ (7 * Z.of_nat i)) as H64
      by (rewrite <- Z.pow_add_r by lia; f_equal; lia).
    rewrite H64 in *. apply Z.mul_lt_mono_pos_r in Hb; nia. }
  cbn [putUvarint_go]. destruct (x <? 128) eqn:Hlt; bool_prop; cbn [app getUvarint_go length].
  - rewrite Zb_byteZ, Z.mod_small by lia.
    rewrite (proj2 (Nat.eqb_neq i 10)) by lia. rewrite (proj2 (Z.ltb_lt x 128)) by lia.
    destruct (Nat.eqb i 9 && (1 <? x))%bool eqn:H9.
    { bool_prop. apply Nat.eqb_eq in H as ->. change (7 * Z.of_nat 9) with 63 in *.
      change (2 ^ 63) with 9223372036854775808 in *.
      change (2 ^ 64) with 18446744073709551616 in *. lia. }
    rewrite Hor by lia. f_equal; lia.
  - rewrite Zb_cont, (proj2 (Nat.eqb_neq i 10)) by lia.
    pose proof (Z.mod_pos_bound x 128 eq_refl) as Hm.
    rewrite (proj2 (Z.ltb_ge (128 + x mod 128) 128)) by lia.
    rewrite land_127.
    pose proof (Z.div_mod x 128 ltac:(lia)) as Hdm.
    pose proof (Z.div_pos x 128 Hx ltac:(lia)) as Hdp.
    assert (x * 2 ^ (7 * Z.of_nat i) = x / 128 * 2 ^ (7 * Z.of_nat (S i)) + x mod 128 * 2 ^ (7 * Z.of_nat i)) as Hsplit.
    { replace (7 * Z.of_nat (S i)) with (7 + 7 * Z.of_nat i) by lia.
      rewrite Z.pow_add_r by lia. change (2 ^ 7) with 128. rewrite Hdm at 1. ring. }
    rewrite Hor by nia.
    replace (7 * Z.of_nat i + 7) with (7 * Z.of_nat (S i)) by lia.
    assert (i <= 8)%nat.
    { destruct (decide (i = 9%nat)) as [->|]; [|lia].
      change (7 * Z.of_nat 9) with 63 in *.
      change (2 ^ 63) with 9223372036854775808 in *.
      change (2 ^ 64) with 18446744073709551616 in *. lia. }
    rewrite Z.shiftr_div_pow2 by lia. change (2 ^ 7) with 128.
    rewrite IH; try lia.
    + f_equal; [rewrite Hsplit; ring|lia].
    + replace (7 * Z.of_nat (S i)) with (7 + 7 * Z.of_nat i) by lia.
      rewrite Z.pow_add_r by lia. change (2 ^ 7) with 128. nia.
Qed.

Lemma getUvarint_put x t :
  0 <= x < 2 ^ 64 -> getUvarint (putUvarint x ++ t) = (x, len (putUvarint x)).
Proof.
  intros Hx. unfold getUvarint, putUvarint. rewrite u64_small by done.
  pose proof (getUvarint_go_put 10 0 0 x t) as H.
  change (7 * Z.of_nat 0) with 0 in H. change (2 ^ 0) with 1 in H.
  rewrite !Z.mul_1_r, Z.add_0_l in H. apply H; lia.
Qed.

Lemma putUvarint_nonempty x : 0 < len (putUvarint x).
Proof. unfold putUvarint, len. cbn [putUvarint_go]. destruct (_ <? _); cbn [length]; lia. Qed.

(** ** [encoding/hex] *)
Definition hexchar (z : Z) : byte := if z <? 10 then byteZ (48 + z) else byteZ (87 + z).

Definition hexval (c : byte) : option Z :=
  let z := Zb c in
  if ((48 <=? z) && (z <=? 57))%bool then Some (z - 48)
  else if ((97 <=? z) && (z <=? 102))%bool then Some (z - 87)
  else if ((65 <=? z) && (z <=? 70))%bool then Some (z - 55)
  else None.

Fixpoint hexEncode (l : bytes) : bytes :=
  match l with
  | [] => []
  | b :: t => hexchar (Z.shiftr (Zb b) 4) :: hexchar (Z.land (Zb b) 15) :: hexEncode t
  end.

Fixpoint hexDecode (l : bytes) : option bytes :=
  match l with
  | [] => Some []
  | [_] => None
  | a :: b :: t =>
      x ← hexval a; y ← hexval b; r ← hexDecode t;
      Some (byteZ (Z.lor (Z.shiftl x 4) y) :: r)
  end.

Lemma hex_byte b :
  (x ← hexval (hexchar (Z.shiftr (Zb b) 4));
   y ← hexval (hexchar (Z.land (Zb b) 15));
   Some (byteZ (Z.lor (Z.shiftl x 4) y))) = Some b.
Proof. by_bytes b. Qed.

Lemma hexDecode_Encode l : hexDecode (hexEncode l) = Some l.
Proof.
  induction l as [|b l IH]; [done|]. cbn [hexEncode hexDecode]. rewrite IH.
  pose proof (hex_byte b) as H.
  destruct (hexval (hexchar (Z.shiftr (Zb b) 4))), (hexval (hexchar (Z.land (Zb b) 15)));
    simpl in *; congruence.
Qed.

Lemma length_hexEncode l : length (hexEncode l) = (2 * length l)%nat.
Proof. induction l; simpl; lia. Qed.

#[export] Instance hexEncode_inj : Inj (=) (=) hexEncode.
Proof. intros a b H. apply (f_equal hexDecode) in H. rewrite !hexDecode_Encode in H. congruence. Qed.

(** ** [encoding/base64], [StdEncoding] *)
Definition b64char (z : Z) : byte :=
  if z <? 26 then byteZ (65 + z)
  else if z <? 52 then byteZ (71 + z)
  else if z <? 62 then byteZ (z - 4)
  else if z =? 62 then x2b else x2f.

Definition b64val (c : byte) : option Z :=
  let z := Zb c in
  if ((65 <=? z) && (z <=? 90))%bool then Some (z - 65)
  else if ((97 <=? z) && (z <=? 122))%bool then Some (z - 71)
  else if ((48 <=? z) && (z <=? 57))%bool then Some (z + 4)
  else if z =? 43 then Some 62
  else if z =? 47 then Some 63
  else None.

Fixpoint b64Encode (l : bytes) : bytes :=
  match l with
  | [] => []
  | [a] =>
      let n := Zb a * 65536 in
      [b64char (n / 262144); b64char (n / 4096 mod 64); x3d; x3d]
  | [a; b] =>
      let n := Zb a * 65536 + Zb b * 256 in
      [b64char (n / 262144); b64char (n / 4096 mod 64); b64char (n / 64 mod 64); x3d]
  | a :: b :: c :: t =>
      let n := Zb a * 65536 + Zb b * 256 + Zb c in
      b64char (n / 262144) :: b64char (n / 4096 mod 64) :: b64char (n / 64 mod 64)
        :: b64char (n mod 64) :: b64Encode t
  end.

(** The decoder ignores line breaks, wants complete quanta and padding at the
    end only, and does not insist on zero trailing bits. *)
Definition notNewline (b : byte) : bool := negb (bool_decide (b = x0a) || bool_decide (b = x0d)).

Fixpoint b64Decode_go (l : bytes) : option bytes :=
  match l with
  | [] => Some []
  | a :: b :: c :: d :: t =>
      va ← b64val a; vb ← b64val b;
      if bool_decide (c = x3d) then
        if (bool_decide (d = x3d) && bool_decide (t = []))%bool
        then Some [byteZ ((va * 262144 + vb * 4096) / 65536)] else None
      else
        vc ← b64val c;
        let n := va * 262144 + vb * 4096 + vc * 64 in
        if bool_decide (d = x3d) then
          if bool_decide (t = []) then Some [byteZ (n / 65536); byteZ (n / 256)] else None
        else
          vd ← b64val d; r ← b64Decode_go t;
          Some (byteZ ((n + vd) / 65536) :: byteZ ((n + vd) / 256) :: byteZ (n + vd) :: r)
  | _ => None
  end.

Definition b64Decode (l : bytes) : option bytes :=
  b64Decode_go (List.filter notNewline l).

Example b64_ex : b64Encode (str "Man!") = str "TWFuIQ==" /\ b64Decode (str "TWFuIQ==") = Some (str "Man!").
Proof. by vm_compute. Qed.

Lemma b64char_spec v : 0 <= v < 64 ->
  b64val (b64char v) = Some v /\ b64char v ≠ x3d /\ b64char v ≠ x3a /\
  notNewline (b64char v) = true.
Proof.
  intros Hv. rewrite <- (Z.mod_small v 256), <- Zb_byteZ by lia.
  assert ((Zb (byteZ v) <? 64) = true) as Hb.
  { rewrite Zb_byteZ, Z.mod_small by lia. apply Z.ltb_lt. lia. }
  revert Hb. generalize (byteZ v). intros b.
  destruct b; vm_compute; intros ?; done || (repeat split; congruence).
Qed.

Ltac b64_digits :=
  repeat match goal with
  | |- context [b64val (b64char ?v)] =>
      let H := fresh in
      assert (0 <= v < 64) as H by (Z.to_euclidean_division_equations; lia);
      destruct (b64char_spec v H) as (-> & ? & ? & ?); simpl; clear H
  end.

(** The four sextets of a 24-bit group put back together. *)
Lemma sextets n : 0 <= n < 16777216 ->
  n / 262144 * 262144 + n / 4096 mod 64 * 4096 + n / 64 mod 64 * 64 + n mod 64 = n.
Proof. intros Hn. Z.to_euclidean_division_equations. lia. Qed.

Lemma byteZ_eq z b : z mod 256 = Zb b -> byteZ z = b.
Proof. intros H. apply Zb_inj. by rewrite Zb_byteZ. Qed.

Lemma b64Decode_go_Encode l : b64Decode_go (b64Encode l) = Some l.
Proof.
  remember (length l) as n eqn:Hn. revert l Hn.
  induction n as [n IH] using lt_wf_ind. intros l Hn.
  destruct l as [|a [|b [|c t]]]; [done|..].
  - pose proof (Zb_range a). cbn [b64Encode b64Decode_go]. b64_digits.
    do 2 f_equal. apply byteZ_eq. Z.to_euclidean_division_equations; lia.
  - pose proof (Zb_range a). pose proof (Zb_range b).
    cbn [b64Encode b64Decode_go]. b64_digits.
    rewrite bool_decide_eq_false_2 by done. simpl.
    pose proof (sextets (Zb a * 65536 + Zb b * 256) ltac:(lia)) as Hs.
    assert ((Zb a * 65536 + Zb b * 256) mod 64 = 0) as Hz
      by (Z.to_euclidean_division_equations; lia).
    rewrite Hz, Z.add_0_r in Hs. rewrite Hs.
    f_equal; f_equal; [|f_equal]; apply byteZ_eq; Z.to_euclidean_division_equations; lia.
  - pose proof (Zb_range a). pose proof (Zb_range b). pose proof (Zb_range c).
    cbn [b64Encode b64Decode_go]. b64_digits.
    rewrite !bool_decide_eq_false_2 by done. simpl.
    rewrite (IH (length t) ltac:(subst; simpl; lia) t eq_refl). simpl.
    rewrite sextets by lia.
    f_equal; f_equal; [|f_equal; [|f_equal]]; apply byteZ_eq;
      Z.to_euclidean_division_equations; lia.
Qed.

(** Every character of an encoding is in the alphabet or padding. *)
Definition b64alpha (c : byte) : Prop := c ≠ x3a /\ notNewline c = true.

Lemma b64Encode_alpha l : Forall b64alpha (b64Encode l).
Proof.
  remember (length l) as n eqn:Hn. revert l Hn.
  induction n as [n IH] using lt_wf_ind. intros l Hn.
  assert (forall v, 0 <= v < 64 -> b64alpha (b64char v)) as Hc.
  { intros v Hv. by destruct (b64char_spec v Hv) as (_ & _ & ? & ?). }
  assert (b64alpha x3d) as Hp by done.
  destruct l as [|a [|b [|c t]]]; cbn [b64Encode]; repeat constructor; try done;
    repeat match goal with H : length _ = _ |- _ => idtac | a : byte |- _ => 
      lazymatch goal with _ : 0 <= Zb a < 256 |- _ => fail | _ => pose proof (Zb_range a) end end;
    try (apply Hc; Z.to_euclidean_division_equations; lia).
  apply (IH (length t)); [subst; simpl; lia|done].
Qed.

Lemma b64Encode_clean l : List.filter notNewline (b64Encode l) = b64Encode l.
Proof.
  pose proof (b64Encode_alpha l) as H. induction H as [|c t [_ Hc] _ IH]; simpl; [done|].
  by rewrite Hc, IH.
Qed.

Lemma b64Decode_Encode l : b64Decode (b64Encode l) = Some l.
Proof. unfold b64Decode. rewrite b64Encode_clean. apply b64Decode_go_Encode. Qed.

#[export] Instance b64Encode_inj : Inj (=) (=) b64Encode.
Proof. intros a b H. apply (f_equal b64Decode) in H. rewrite !b64Decode_Encode in H. congruence. Qed.

(** ** [fmt]: the [%d] verb *)
Definition dec (z : Z) : bytes := str (pretty z).

#[export] Instance str_inj : Inj (=) (=) str.
Proof.
  intros a b H. unfold str in H.
  rewrite <- (String.string_of_list_byte_of_string a), H.
  apply String.string_of_list_byte_of_string.
Qed.

#[export] Instance dec_inj : Inj (=) (=) dec.
Proof. intros a b H. by apply str_inj, (inj pretty) in H. Qed.

Example dec_ex : dec 1024 = str "1024" /\ dec (-7) = str "-7".
Proof. by vm_compute. Qed.

(** ** [strings] and [bytes] *)
Definition hasPrefix (p s : bytes) : bool := bool_decide (p `prefix_of` s).

Definition cutPrefix (p s : bytes) : option bytes :=
  if hasPrefix p s then Some (drop (length p) s) else None.

Definition hasSuffix (p s : bytes) : bool := bool_decide (p `suffix_of` s).

Definition trimSuffix (p s : bytes) : bytes :=
  if hasSuffix p s then take (length s - length p) s else s.

(** The UTF-8 encodings of Unicode's White_Space runes, which [TrimSpace] removes. *)
Definition spaces : list bytes :=
  [[x09]; [x0a]; [x0b]; [x0c]; [x0d]; [x20]; [xc2; x85]; [xc2; xa0]; [xe1; x9a; x80];
   [xe2; x80; x80]; [xe2; x80; x81]; [xe2; x80; x82]; [xe2; x80; x83]; [xe2; x80; x84];
   [xe2; x80; x85]; [xe2; x80; x86]; [xe2; x80; x87]; [xe2; x80; x88]; [xe2; x80; x89];
   [xe2; x80; x8a]; [xe2; x80; xa8]; [xe2; x80; xa9]; [xe2; x80; xaf]; [xe2; x81; x9f];
   [xe3; x80; x80]].

Definition stripOne (pats : list bytes) (s : bytes) : option bytes :=
  match List.find (fun p => hasPrefix p s) pats with
  | Some p => Some (drop (length p) s)
  | None => None
  end.

Fixpoint strip (fuel : nat) (pats : list bytes) (s : bytes) : bytes :=
  match fuel with
  | O => s
  | S f => match stripOne pats s with Some s' => strip f pats s' | None => s end
  end.

Definition trimSpace (s : bytes) : bytes :=
  let l := strip (length s) spaces s in
  reverse (strip (length l) (reverse <$> spaces) (reverse l)).

(** [strings.ToLower]: the ASCII fast path; Unicode's case tables, which apply
    to any other input, are the argument [uni]. *)
Definition isASCII (b : byte) : bool := Zb b <? 128.

Definition lowerByte (b : byte) : byte :=
  if ((65 <=? Zb b) && (Zb b <=? 90))%bool then byteZ (Zb b + 32) else b.

Definition toLower (uni : bytes -> bytes) (s : bytes) : bytes :=
  if forallb isASCII s then lowerByte <$> s else uni s.

Example trim_ex : trimSpace (str "  a b
  ") = str "a b".
Proof. by vm_compute. Qed.

Lemma hasPrefix_app p s : hasPrefix p (p ++ s) = true.
Proof. apply bool_decide_eq_true. by exists s. Qed.

Lemma cutPrefix_app p s : cutPrefix p (p ++ s) = Some s.
Proof. unfold cutPrefix. by rewrite hasPrefix_app, drop_app_length. Qed.

Lemma cutPrefix_Some p s t : cutPrefix p s = Some t <-> s = p ++ t.
Proof.
  split; [|intros ->; apply cutPrefix_app]. unfold cutPrefix, hasPrefix.
  case_bool_decide as H; [|done]. destruct H as [t' ->].
  rewrite drop_app_length. congruence.
Qed.

Lemma lowerByte_idem b : lowerByte (lowerByte b) = lowerByte b.
Proof. by_bytes b. Qed.

(** ** Text without white space *)
Definition graphic (b : byte) : bool := ((33 <=? Zb b) && (Zb b <=? 126))%bool.

Lemma stripOne_graphic pats s :
  forallb (fun p => match p with [] => false | c :: _ => negb (graphic c) end) pats = true ->
  match s with [] => True | c :: _ => graphic c = true end -> stripOne pats s = None.
Proof.
  intros Hp Hs. unfold stripOne.
  assert (List.find (fun p => hasPrefix p s) pats = None) as ->; [|done].
  induction pats as [|p pats IH]; [done|]. cbn [forallb] in Hp. apply andb_true_iff in Hp as [Hc Hp].
  cbn [List.find]. assert (hasPrefix p s = false) as ->; [|by apply IH].
  apply bool_decide_eq_false. intros [t Ht]. destruct p as [|c p]; [done|].
  rewrite Ht in Hs. cbn in Hs. by rewrite Hs in Hc.
Qed.

(** Trimming leaves alone a text whose first and last bytes are graphic. *)
Lemma trimSpace_graphic s : forallb graphic s = true -> trimSpace s = s.
Proof.
  intros Hs. unfold trimSpace.
  assert (forall fuel pats t, forallb (fun p => match p with [] => false | c :: _ => negb (graphic c) end) pats = true ->
    forallb graphic t = true -> strip fuel pats t = t) as H.
  { intros fuel pats t Hp Ht. destruct fuel; [done|]. cbn [strip]. rewrite stripOne_graphic; [done|done|].
    destruct t; [done|]. cbn in Ht. by apply andb_true_iff in Ht as [? _]. }
  rewrite (H _ spaces s eq_refl Hs). rewrite H; [by rewrite reverse_involutive|reflexivity|].
  apply forallb_forall. intros c Hc. rewrite forallb_forall in Hs. apply Hs.
  apply list_elem_of_In in Hc. apply list_elem_of_In. by rewrite elem_of_reverse in Hc.
Qed.

(** A line read back without its end. *)
Lemma trimSpace_line s : forallb graphic s = true -> trimSpace (s ++ [x0a]) = s.
Proof.
  intros Hs. destruct s as [|b s]; [done|]. unfold trimSpace. cbv zeta.
  assert (strip (length ((b :: s) ++ [x0a])) spaces ((b :: s) ++ [x0a]) = (b :: s) ++ [x0a]) as ->.
  { cbn [app length strip]. rewrite stripOne_graphic; [done|reflexivity|]. cbn in Hs. by apply andb_true_iff in Hs as [? _]. }
  rewrite reverse_app. change (reverse [x0a] ++ reverse (b :: s)) with (x0a :: reverse (b :: s)).
  rewrite length_app, Nat.add_comm. cbn [length Nat.add strip].
  change (stripOne (reverse <$> spaces) (x0a :: reverse (b :: s))) with (Some (reverse (b :: s))). cbv iota.
  pose proof (trimSpace_graphic (b :: s) Hs) as Ht. unfold trimSpace in Ht. revert Ht.
  cbn [length strip]. rewrite stripOne_graphic; [|reflexivity|cbn in Hs; by apply andb_true_iff in Hs as [? _]].
  intros Ht. exact Ht.
Qed.

Lemma b64char_graphic v : 0 <= v < 64 -> graphic (b64char v) = true.
Proof.
  intros Hv. unfold graphic, b64char. repeat case_match; bool_prop; rewrite ?Zb_byteZ, ?Z.mod_small by lia;
    try done; apply andb_true_iff; split; apply Z.leb_le; lia.
Qed.

Lemma b64Encode_graphic l : forallb graphic (b64Encode l) = true.
Proof.
  remember (length l) as n eqn:Hn. revert l Hn. induction n as [n IH] using lt_wf_ind. intros l Hn.
  destruct l as [|a [|b [|c t]]]; cbn [b64Encode forallb]; try done;
    pose proof (Zb_range a); try pose proof (Zb_range b); try pose proof (Zb_range c);
    rewrite ?b64char_graphic by (Z.to_euclidean_division_equations; lia); try done.
  cbn [andb]. apply (IH (length t)); [subst; simpl; lia|done].
Qed.

Lemma hexEncode_graphic l : forallb graphic (hexEncode l) = true.
Proof.
  induction l as [|b l IH]; [done|]. cbn [hexEncode forallb]. rewrite IH. clear IH. by_bytes b.
Qed.

(** ** [strings.Split] and [strings.Join] with a one-byte separator *)
Fixpoint splitOn (c : byte) (s : bytes) : list bytes :=
  match s with
  | [] => [[]]
  | b :: s =>
      if bool_decide (b = c) then [] :: splitOn c s
      else match splitOn c s with
           | [] => [[b]]
           | w :: ws => (b :: w) :: ws
           end
  end.

Fixpoint joinWith (sep : bytes) (ws : list bytes) : bytes :=
  match ws with
  | [] => []
  | [w] => w
  | w :: ws => w ++ sep ++ joinWith sep ws
  end.

Lemma splitOn_word c w : c ∉ w -> splitOn c w = [w].
Proof.
  induction w as [|b w IH]; intros Hc; [done|]. cbn [splitOn]. apply not_elem_of_cons in Hc as [Hb Hc].
  rewrite bool_decide_eq_false_2 by congruence. by rewrite IH.
Qed.

Lemma splitOn_app c w s : c ∉ w -> splitOn c (w ++ c :: s) = w :: splitOn c s.
Proof.
  induction w as [|b w IH]; intros Hc; cbn [splitOn app]; [by rewrite bool_decide_eq_true_2|].
  apply not_elem_of_cons in Hc as [Hb Hc]. rewrite bool_decide_eq_false_2 by congruence. by rewrite IH.
Qed.

Lemma splitOn_join c ws :
  ws ≠ [] -> Forall (fun w => c ∉ w) ws -> splitOn c (joinWith [c] ws) = ws.
Proof.
  intros Hne Hc. induction ws as [|w ws IH]; [done|]. apply List.Forall_cons_iff in Hc as [Hw Hc].
  destruct ws as [|w' ws]; [by apply splitOn_word|].
  change (joinWith [c] (w :: w' :: ws)) with (w ++ c :: joinWith [c] (w' :: ws)).
  rewrite splitOn_app by done. f_equal. by apply IH.
Qed.

(** ** [[]rune(s)]: UTF-8 decoding, one U+FFFD per invalid byte *)
Definition contByte (lo hi : Z) (b : byte) : bool := ((lo <=? Zb b) && (Zb b <=? hi))%bool.

Fixpoint runes (fuel : nat) (s : bytes) : list Z :=
  match fuel, s with
  | S f, b0 :: t =>
      let z := Zb b0 in
      let bad := 0xFFFD :: runes f t in
      if z <? 0x80 then z :: runes f t
      else if ((0xC2 <=? z) && (z <=? 0xDF))%bool then
        match t with
        | b1 :: t1 => if contByte 0x80 0xBF b1 then ((z - 0xC0) * 64 + (Zb b1 - 0x80)) :: runes f t1 else bad
        | _ => bad
        end
      else if ((0xE0 <=? z) && (z <=? 0xEF))%bool then
        match t with
        | b1 :: b2 :: t2 =>
            if (contByte (if z =? 0xE0 then 0xA0 else 0x80) (if z =? 0xED then 0x9F else 0xBF) b1 && contByte 0x80 0xBF b2)%bool
            then ((z - 0xE0) * 4096 + (Zb b1 - 0x80) * 64 + (Zb b2 - 0x80)) :: runes f t2 else bad
        | _ => bad
        end
      else if ((0xF0 <=? z) && (z <=? 0xF4))%bool then
        match t with
        | b1 :: b2 :: b3 :: t3 =>
            if (contByte (if z =? 0xF0 then 0x90 else 0x80) (if z =? 0xF4 then 0x8F else 0xBF) b1
                && contByte 0x80 0xBF b2 && contByte 0x80 0xBF b3)%bool
            then ((z - 0xF0) * 262144 + (Zb b1 - 0x80) * 4096 + (Zb b2 - 0x80) * 64 + (Zb b3 - 0x80)) :: runes f t3
            else bad
        | _ => bad
        end
      else bad
  | _, _ => []
  end.

Definition toRunes (s : bytes) : list Z := runes (length s) s.

Lemma toRunes_ascii s : forallb isASCII s = true -> toRunes s = Zb <$> s.
Proof.
  unfold toRunes. induction s as [|b s IH]; [done|]. cbn [forallb length runes]. intros H.
  apply andb_true_iff in H as [Hb Hs]. unfold isASCII in Hb. change 0x80 with 128. rewrite Hb.
  cbn. by rewrite IH.
Qed.
