(* ===== verification/Sha256.v ===== *)
(** * [crypto/sha256] and [crypto/hmac]

    SHA-256 written out from FIPS 180-4 on 32-bit words, and HMAC over an
    arbitrary hash with its block size.  The program hashes identities, file
    contents and payloads with these. *)
From S2P Require Import Prelude GoStd.
#[local] Open Scope Z_scope.

(** The round constants are fractions of roots of the first primes: 32 bits of
    the cube roots for the rounds, of the square roots for the initial state. *)
Definition isPrime (n : nat) : bool :=
  (2 <=? n)%nat && forallb (fun d => negb (n mod d =? 0)%nat) (seq 2 (n - 2)).

Definition primes (bound : nat) : list Z := Z.of_nat <$> List.filter isPrime (seq 0 bound).

(** The integer cube root, one bit at a time from bit [k]. *)
Fixpoint cbrtBits (k : nat) (n r : Z) : Z :=
  match k with
  | O => r
  | S k => let c := Z.lor r (Z.shiftl 1 (Z.of_nat k)) in
           cbrtBits k n (if c * c * c <=? n then c else r)
  end.

Definition sha_K : list Z := Eval vm_compute in
  (fun p => u32 (cbrtBits 36 (Z.shiftl p 96) 0)) <$> primes 312.

Definition sha_H0 : list Z := Eval vm_compute in
  (fun p => u32 (Z.sqrt (Z.shiftl p 64))) <$> primes 20.

Definition rotr (n x : Z) : Z := Z.lor (Z.shiftr x n) (u32 (Z.shiftl x (32 - n))).
Definition shaCh (x y z : Z) : Z := Z.lxor (Z.land x y) (Z.land (Z.lxor x 0xffffffff) z).
Definition shaMaj (x y z : Z) : Z := Z.lxor (Z.lxor (Z.land x y) (Z.land x z)) (Z.land y z).
Definition shaS0 (x : Z) : Z := Z.lxor (Z.lxor (rotr 2 x) (rotr 13 x)) (rotr 22 x).
Definition shaS1 (x : Z) : Z := Z.lxor (Z.lxor (rotr 6 x) (rotr 11 x)) (rotr 25 x).
Definition shas0 (x : Z) : Z := Z.lxor (Z.lxor (rotr 7 x) (rotr 18 x)) (Z.shiftr x 3).
Definition shas1 (x : Z) : Z := Z.lxor (Z.lxor (rotr 17 x) (rotr 19 x)) (Z.shiftr x 10).

(** The message schedule, kept newest word first. *)
Fixpoint schedule (n : nat) (w : list Z) : list Z :=
  match n with
  | O => w
  | S n =>
      schedule n
        (u32 (shas1 (nth 1 w 0) + nth 6 w 0 + shas0 (nth 14 w 0) + nth 15 w 0) :: w)
  end.

Definition shaRound (h : list Z) (kw : Z * Z) : list Z :=
  match h with
  | [a; b; c; d; e; f; g; hh] =>
      let t1 := hh + shaS1 e + shaCh e f g + kw.1 + kw.2 in
      let t2 := shaS0 a + shaMaj a b c in
      [u32 (t1 + t2); a; b; c; u32 (d + t1); e; f; g]
  | _ => h
  end.

Fixpoint words (n : nat) (l : bytes) : list Z :=
  match n with
  | O => []
  | S n => unbe (take 4 l) :: words n (drop 4 l)
  end.

Definition shaBlock (h : list Z) (blk : bytes) : list Z :=
  let w := reverse (schedule 48 (reverse (words 16 blk))) in
  zip_with (fun x y => u32 (x + y)) h (fold_left shaRound (zip sha_K w) h).

Fixpoint shaBlocks (n : nat) (h : list Z) (l : bytes) : list Z :=
  match n with
  | O => h
  | S n => shaBlocks n (shaBlock h (take 64 l)) (drop 64 l)
  end.

Definition shaPad (m : bytes) : bytes :=
  let n := len m in
  m ++ x80 :: replicate (Z.to_nat ((55 - n) mod 64)) x00 ++ be 8 (8 * n).

Definition sha256 (m : bytes) : bytes :=
  let p := shaPad m in
  mjoin (be 4 <$> shaBlocks (length p / 64) sha_H0 p).

Example sha256_abc :
  hexEncode (sha256 (str "abc"))
  = str "ba7816bf8f01cfea414140de5dae2223b00361a396177a9cb410ff61f20015ad".
Proof. by vm_compute. Qed.

Example sha256_two_blocks :
  hexEncode (sha256 (str "abcdbcdecdefdefgefghfghighijhijkijkljklmklmnlmnomnopnopq"))
  = str "248d6a61d20638b8e5c026930c3e6039a33ce45964ff2167f6ecedd419db06c1".
Proof. by vm_compute. Qed.

Lemma length_shaRound h kw : length (shaRound h kw) = length h.
Proof. by destruct h as [|? [|? [|? [|? [|? [|? [|? [|? [|]]]]]]]]]. Qed.

Lemma length_shaRounds kws h : length (fold_left shaRound kws h) = length h.
Proof.
  revert h. induction kws as [|kw kws IH]; intros h; simpl; [done|].
  by rewrite IH, length_shaRound.
Qed.

Lemma length_shaBlocks n h l : length (shaBlocks n h l) = length h.
Proof.
  revert h l. induction n as [|n IH]; intros h l; simpl; [done|].
  rewrite IH. unfold shaBlock. rewrite length_zip_with, length_shaRounds. lia.
Qed.

Lemma length_sha256 m : length (sha256 m) = 32%nat.
Proof.
  unfold sha256. pose proof (length_shaBlocks (length (shaPad m) / 64) sha_H0 (shaPad m)) as H.
  destruct (shaBlocks _ _ _) as [|? [|? [|? [|? [|? [|? [|? [|? [|]]]]]]]]]; simplify_eq/=.
  unfold mjoin, list_join, be. reflexivity.
Qed.

#[global] Opaque sha256.

(** ** HMAC (RFC 2104) *)
Definition xorb_byte (c : Z) (b : byte) : byte := byteZ (Z.lxor (Zb b) c).

Definition hmac (H : bytes -> bytes) (block : nat) (key msg : bytes) : bytes :=
  let k0 := if (block <? length key)%nat then H key else key in
  let k := k0 ++ replicate (block - length k0) x00 in
  H ((xorb_byte 0x5c <$> k) ++ H ((xorb_byte 0x36 <$> k) ++ msg)).

Example hmac_sha256_rfc4231 :
  hexEncode (hmac sha256 64 (str "Jefe") (str "what do ya want for nothing?"))
  = str "5bdcc146bf60754e6a042426089575c75a003f089d2739839dec58b964ec3843".
Proof. by vm_compute. Qed.
