(* ===== verification/External.v ===== *)
(** * Third-party code: the interfaces the program calls

    The repository's own sources are modelled; the modules it imports are not
    part of it.  Each of them is an operational type class (the functions the
    program calls) with a class of laws (the documented behaviour the program
    relies on).  The last section gives one concrete interpretation that
    satisfies every law, so no theorem below rests on an unsatisfiable
    hypothesis. *)
From S2P Require Import Prelude GoStd Sha256.
#[local] Open Scope Z_scope.

(** ** nanopack: [Encoder.AddID]/[Bytes], [DecodeID], [WrapPacket], [UnwrapPacket]

    An encoder is the list of (field ID, data) pairs added so far. *)
Abbreviation fields := (list (byte * bytes)).

(** What [UnwrapPacket] reports of an envelope. *)
Record packet := Packet {
  pk_major : Z;
  pk_schema : byte;
  pk_body : bytes;
}.

Class Nanopack := {
  np_encode : fields -> option bytes;
  np_decode : bytes -> option fields;
  np_major : Z;
  np_wrap : byte -> bytes -> bytes;
  np_unwrap : bytes -> option packet;
}.

Class NanopackLaws `{Nanopack} : Prop := {
  (** Decoding an encoded body gives back its fields, in order. *)
  np_decode_encode fs w : np_encode fs = Some w -> np_decode w = Some fs;
  (** A few fields of less than 2 GiB always encode. *)
  np_encode_total fs : (length fs <= 16)%nat -> Forall (fun f => len f.2 < 2 ^ 31) fs ->
    is_Some (np_encode fs);
  (** A body starts with its field count. *)
  np_encode_head fs w : np_encode fs = Some w -> head w = Some (byteZ (len fs));
  (** An envelope gives back its version, schema and body. *)
  np_unwrap_wrap schema body :
    np_unwrap (np_wrap schema body) = Some (Packet np_major schema body);
}.

(** A field costs a few bytes beyond its data. *)
Class NanopackSize `{Nanopack} : Prop :=
  np_encode_size fs w : np_encode fs = Some w -> len w <= 16 + foldr (fun f n => len f.2 + 16 + n) 0 fs.

(** [MarshalFastID] runs a marshaller on a fresh encoder; [UnmarshalFastID] hands
    the decoded fields to an unmarshaller. *)
Definition MarshalFastID `{Nanopack} (fs : fields) : option bytes := np_encode fs.

(** ** Cryptographic primitives

    [golang.org/x/crypto] (SHA-3, HKDF, X25519, XChaCha20-Poly1305), Ed25519,
    [circl] (Dilithium3, Kyber768) and [mr-tron/base58].  Key generation takes
    the bytes drawn from the random source. *)
Class Prims := {
  sha3_256 : bytes -> bytes;
  sha3_512 : bytes -> bytes;
  (** secret, salt, info, number of bytes read *)
  hkdf : bytes -> bytes -> bytes -> nat -> bytes;
  (** pseudorandom key, info, number of bytes read *)
  hkdf_expand : bytes -> bytes -> nat -> bytes;
  x25519_base : bytes -> bytes;
  x25519 : bytes -> bytes -> option bytes;
  ed25519_public : bytes -> bytes;
  ed25519_sign : bytes -> bytes -> bytes;
  ed25519_verify : bytes -> bytes -> bytes -> bool;
  dil_keygen : bytes -> bytes * bytes;      (* private, public *)
  dil_unpriv : bytes -> bool;               (* the private key unmarshals *)
  dil_unpub : bytes -> bool;
  dil_sign : bytes -> bytes -> bytes;
  dil_verify : bytes -> bytes -> bytes -> bool;
  kyber_keygen : bytes -> option (bytes * bytes);   (* public, private *)
  kyber_unpub : bytes -> bool;
  kyber_unpriv : bytes -> bool;
  kyber_encaps : bytes -> bytes -> option (bytes * bytes);  (* ciphertext, secret *)
  kyber_decaps : bytes -> bytes -> option bytes;
  aead_seal : bytes -> bytes -> bytes -> bytes -> bytes;    (* key nonce plaintext aad *)
  aead_open : bytes -> bytes -> bytes -> bytes -> option bytes;
  base58_encode : bytes -> bytes;
  base58_decode : bytes -> option bytes;
}.

Class PrimLaws `{Prims} : Prop := {
  length_sha3_256 m : length (sha3_256 m) = 32%nat;
  length_hkdf s t i n : Z.of_nat n <= 8160 -> length (hkdf s t i n) = n;
  (** Diffie-Hellman: honest public keys give a shared secret, the same one. *)
  x25519_comm a b : length a = 32%nat -> length b = 32%nat ->
    x25519 a (x25519_base b) = x25519 b (x25519_base a);
  x25519_honest a b : length a = 32%nat -> length b = 32%nat ->
    is_Some (x25519 a (x25519_base b));
  (** Signatures made with a key verify under its public half. *)
  length_ed25519_sign k m : length (ed25519_sign k m) = 64%nat;
  ed25519_correct k m : length k = 64%nat ->
    ed25519_verify (ed25519_public k) m (ed25519_sign k m) = true;
  dil_keygen_wf r priv pub : dil_keygen r = (priv, pub) ->
    dil_unpriv priv = true /\ dil_unpub pub = true;
  dil_correct r priv pub m : dil_keygen r = (priv, pub) ->
    dil_verify pub m (dil_sign priv m) = true;
  (** The KEM recovers the encapsulated secret. *)
  kyber_keygen_total r : is_Some (kyber_keygen r);
  kyber_keygen_wf r pub priv : kyber_keygen r = Some (pub, priv) ->
    kyber_unpub pub = true /\ kyber_unpriv priv = true;
  kyber_encaps_total r pub priv e : kyber_keygen r = Some (pub, priv) ->
    exists ct ss, kyber_encaps pub e = Some (ct, ss) /\ ct ≠ [];
  kyber_correct r pub priv e ct ss : kyber_keygen r = Some (pub, priv) ->
    kyber_encaps pub e = Some (ct, ss) -> kyber_decaps priv ct = Some ss;
  (** The AEAD opens what it sealed. *)
  aead_correct k n pt aad : length k = 32%nat -> length n = 24%nat ->
    aead_open k n (aead_seal k n pt aad) aad = Some pt;
  length_aead_seal k n pt aad : length (aead_seal k n pt aad) = (length pt + 16)%nat;
  base58_correct b : base58_decode (base58_encode b) = Some b;
  (** Documented sizes, as bounds. *)
  length_ed25519_public k : length k = 64%nat -> length (ed25519_public k) = 32%nat;
  length_x25519_base a : length a = 32%nat -> length (x25519_base a) = 32%nat;
  dil_pub_size r priv pub : dil_keygen r = (priv, pub) -> len pub <= 1952;
  dil_sign_size k m : len (dil_sign k m) <= 3293;
  kyber_pub_size r pub priv : kyber_keygen r = Some (pub, priv) -> len pub <= 1184;
  kyber_ct_size pub e ct ss : kyber_encaps pub e = Some (ct, ss) -> len ct <= 1088;
  base58_size b : len (base58_encode b) <= 2 * len b;
}.

#[export] Instance base58_encode_inj `{PrimLaws} : Inj (=) (=) base58_encode.
Proof.
  intros a b Hab. apply (f_equal base58_decode) in Hab.
  rewrite !base58_correct in Hab. congruence.
Qed.

(** ** One interpretation of the interfaces

    Used only to exhibit concrete runs.  Field lists are encoded as a count
    byte followed by (ID, varint length, data); primitives are assembled from
    a checksum. *)
Definition ref_field (f : byte * bytes) : bytes := f.1 :: putUvarint (len f.2) ++ f.2.

Definition ref_encode (fs : fields) : option bytes :=
  if ((length fs <? 256)%nat && forallb (fun f => len f.2 <? 2 ^ 63) fs)%bool then Some (byteZ (len fs) :: mjoin (ref_field <$> fs)) else None.

Fixpoint ref_decode_go (n : nat) (b : bytes) : option fields :=
  match n with
  | O => if bool_decide (b = []) then Some [] else None
  | S n =>
      match b with
      | [] => None
      | id :: t =>
          let '(l, k) := getUvarint t in
          if k <=? 0 then None
          else
            let body := drop (Z.to_nat k) t in
            if len body <? l then None
            else
              r ← ref_decode_go n (drop (Z.to_nat l) body);
              Some ((id, take (Z.to_nat l) body) :: r)
      end
  end.

Definition ref_decode (b : bytes) : option fields :=
  match b with [] => None | c :: t => ref_decode_go (Z.to_nat (Zb c)) t end.

#[export] Instance ref_nanopack : Nanopack := {|
  np_encode := ref_encode;
  np_decode := ref_decode;
  np_major := 1;
  np_wrap schema body := x01 :: schema :: body;
  np_unwrap b := match b with m :: s :: body => Some (Packet (Zb m) s body) | _ => None end;
|}.

Lemma ref_decode_field f t :
  len f.2 < 2 ^ 63 ->
  forall n, ref_decode_go (S n) (ref_field f ++ t)
  = (r ← ref_decode_go n t; Some (f :: r)).
Proof.
  intros Hl n. destruct f as [id d]. unfold ref_field. cbn [ref_decode_go app fst snd] in *.
  rewrite <- app_assoc, getUvarint_put by (unfold len in *; lia).
  pose proof (putUvarint_nonempty (len d)) as Hp.
  rewrite (proj2 (Z.leb_gt _ _)) by lia.
  assert (Z.to_nat (len (putUvarint (len d))) = length (putUvarint (len d))) as ->
    by (unfold len; lia).
  rewrite drop_app_length.
  assert ((len (d ++ t) <? len d) = false) as ->
    by (unfold len; rewrite length_app; apply Z.ltb_ge; lia).
  assert (Z.to_nat (len d) = length d) as -> by (unfold len; lia).
  by rewrite drop_app_length, take_app_length.
Qed.

Lemma ref_decode_fields fs :
  forallb (fun f => len f.2 <? 2 ^ 63) fs = true ->
  ref_decode_go (length fs) (mjoin (ref_field <$> fs)) = Some fs.
Proof.
  induction fs as [|f fs IH]; [done|]. cbn [forallb]. intros H.
  apply andb_true_iff in H as [Hf Hfs]. apply Z.ltb_lt in Hf.
  change (mjoin (ref_field <$> f :: fs)) with (ref_field f ++ mjoin (ref_field <$> fs)).
  cbn [length]. rewrite ref_decode_field by done. by rewrite IH.
Qed.

#[export] Instance ref_nanopack_laws : NanopackLaws.
Proof.
  split; simpl.
  - intros fs w. unfold ref_encode. destruct (_ && _)%bool eqn:H; [|done]. intros [= <-].
    apply andb_true_iff in H as [Hn Hf]. apply Nat.ltb_lt in Hn. cbn [ref_decode].
    rewrite Zb_byteZ. unfold len. rewrite Z.mod_small, Nat2Z.id by lia.
    by apply ref_decode_fields.
  - intros fs Hn Hf. unfold ref_encode. rewrite (proj2 (Nat.ltb_lt _ _)) by lia.
    rewrite (proj2 (forallb_forall _ _)); [by eexists|]. intros f Hin.
    rewrite List.Forall_forall in Hf. specialize (Hf f Hin). simpl in Hf.
    apply Z.ltb_lt. change (2 ^ 31) with 2147483648 in Hf.
    change (2 ^ 63) with 9223372036854775808. lia.
  - intros fs w. unfold ref_encode. by destruct (_ && _)%bool; intros [= <-].
  - done.
Qed.

#[export] Instance ref_nanopack_size : NanopackSize.
Proof.
  assert (forall n x, length (putUvarint_go n x) <= n)%nat as Hv.
  { induction n as [|n IH]; intros x; [done|]. cbn [putUvarint_go]. destruct (x <? 128); cbn [length]; [lia|]. specialize (IH (Z.shiftr x 7)). lia. }
  intros fs w. cbn. unfold ref_encode. destruct (_ && _)%bool; [|done]. intros [= <-]. unfold len at 1. cbn [length].
  assert (Z.of_nat (length (mjoin (ref_field <$> fs))) <= foldr (fun f n => len f.2 + 16 + n) 0 fs); [|lia].
  induction fs as [|f fs IH]; [done|]. change (mjoin (ref_field <$> f :: fs)) with (ref_field f ++ mjoin (ref_field <$> fs)).
  unfold ref_field at 1. rewrite !length_app. cbn [length foldr]. rewrite length_app. specialize (Hv 10%nat (u64 (len f.2))). fold (putUvarint (len f.2)) in Hv.
  unfold len in *. lia.
Qed.

Definition ref_xor (a b : bytes) : bytes := zip_with (fun x y => byteZ (Z.lxor (Zb x) (Zb y))) a b.

(** A 32-byte checksum: every byte is folded into a rotating register. *)
Definition ref_absorb (acc : bytes) (b : byte) : bytes :=
  match acc with [] => [] | x :: t => t ++ ref_xor [x] [b] end.

Definition ref_hash (m : bytes) : bytes := fold_left ref_absorb m (replicate 32 x5a).

(** [n] bytes that depend on secret, salt and info. *)
Definition ref_cycle (n : nat) (l : bytes) : bytes := take n (mjoin (replicate n (x5c :: l))).

Definition ref_kdf (n : nat) (s t i : bytes) : bytes :=
  ref_xor (ref_cycle n s) (ref_xor (ref_cycle n t) (ref_cycle n i)).

Definition ref_sign (pub m : bytes) : bytes := ref_hash (pub ++ m) ++ ref_hash m.

Definition ref_tag (k n pt aad : bytes) : bytes := take 16 (ref_hash (k ++ n ++ aad ++ pt)).

#[export] Instance ref_prims : Prims := {|
  sha3_256 := ref_hash;
  sha3_512 m := ref_hash m ++ ref_hash (x00 :: m);
  hkdf s t i n := ref_kdf n s t i;
  hkdf_expand s i n := ref_kdf n s [] i;
  x25519_base a := a;
  x25519 a p := Some (ref_xor a p);
  ed25519_public k := drop 32 k;
  ed25519_sign k m := ref_sign (drop 32 k) m;
  ed25519_verify p m s := bytes_eqb s (ref_sign p m);
  dil_keygen r := (ref_hash r, ref_hash r);
  dil_unpriv _ := true;
  dil_unpub _ := true;
  dil_sign k m := ref_hash (k ++ m);
  dil_verify p m s := bytes_eqb s (ref_hash (p ++ m));
  kyber_keygen r := Some (ref_hash r, ref_hash r);
  kyber_unpub _ := true;
  kyber_unpriv _ := true;
  kyber_encaps p e := Some (x01 :: ref_hash e, ref_hash (p ++ x01 :: ref_hash e));
  kyber_decaps k ct := Some (ref_hash (k ++ ct));
  aead_seal k n pt aad := ref_tag k n pt aad ++ pt;
  aead_open k n ct aad :=
    if bytes_eqb (take 16 ct) (ref_tag k n (drop 16 ct) aad) then Some (drop 16 ct) else None;
  base58_encode := hexEncode;
  base58_decode := hexDecode;
|}.

Lemma length_ref_xor a b : length (ref_xor a b) = Nat.min (length a) (length b).
Proof. apply length_zip_with. Qed.

Lemma length_ref_hash m : length (ref_hash m) = 32%nat.
Proof.
  unfold ref_hash. assert (length (replicate 32 x5a) = 32%nat) as H by done. revert H.
  generalize (replicate 32 x5a). induction m as [|b m IH]; intros acc H; [done|].
  apply IH. destruct acc as [|x acc]; [done|]. cbn [ref_absorb]. rewrite length_app, length_ref_xor.
  simpl in *. lia.
Qed.

Lemma length_ref_cycle n l : length (ref_cycle n l) = n.
Proof.
  unfold ref_cycle. rewrite length_take.
  assert (forall k, (k <= length (mjoin (replicate k (x5c :: l))))%nat) as H.
  { induction k as [|k IH]; [simpl; lia|].
    change (mjoin (replicate (S k) (x5c :: l))) with ((x5c :: l) ++ mjoin (replicate k (x5c :: l))).
    rewrite length_app. simpl. lia. }
  specialize (H n). lia.
Qed.

Lemma ref_xor_comm a b : ref_xor a b = ref_xor b a.
Proof.
  unfold ref_xor. revert b. induction a as [|x a IH]; intros [|y b]; simpl; [done..|].
  by rewrite Z.lxor_comm, IH.
Qed.

Lemma length_ref_tag k n pt aad : length (ref_tag k n pt aad) = 16%nat.
Proof. unfold ref_tag. by rewrite length_take, length_ref_hash. Qed.

#[export] Instance ref_prim_laws : PrimLaws.
Proof.
  split; simpl; intros; simplify_eq; try done; try (by eexists); try by rewrite ?bytes_eqb_refl.
  - apply length_ref_hash.
  - unfold ref_kdf. rewrite !length_ref_xor, !length_ref_cycle. lia.
  - by rewrite ref_xor_comm.
  - unfold ref_sign. rewrite length_app, !length_ref_hash. lia.
  - by do 2 eexists.
  - rewrite take_app_length', !drop_app_length' by (by rewrite length_ref_tag).
    by rewrite bytes_eqb_refl.
  - rewrite length_app, length_ref_tag. lia.
  - apply hexDecode_Encode.
  - rewrite length_drop. lia.
  - unfold len. rewrite length_ref_hash. lia.
  - unfold len. rewrite length_ref_hash. lia.
  - unfold len. rewrite length_ref_hash. lia.
  - unfold len. simpl. rewrite length_ref_hash. lia.
  - unfold len. rewrite length_hexEncode. lia.
Qed.
