(* ===== verification/SecurePeer.v ===== *)
(** * crypto/: the double-ratchet session ([kex_hybrid.go], [ratchet.go], [utils.go])

    [SecurePeer] is the state of one session.  A method that mutates its receiver
    is a function from the old state to the new state paired with its result;
    the new state is returned on every path, so what an error leaves behind is
    visible.  Randomness ([GenerateX25519KeyPair]) is an argument. *)
From S2P Require Import Prelude GoStd Sha256 External.
#[local] Open Scope Z_scope.

(** ** Data *)
Record SecureMessage := mkSecureMessage {
  SenderID : bytes;
  RatchetKey : option bytes;   (* None: nil *)
  Nonce : Z;
  Ciphertext : bytes;
  Tag : bytes;
  RequestKey : bytes;
  AcceptedKey : bytes;
}.

Record SecurePeer := mkSecurePeer {
  ExpectedPeerHash : option bytes;
  IdentityPrivate : bytes;
  IdentityPublic : bytes;
  PqcSignPrivate : bytes;
  PqcSignPublic : bytes;
  Private : bytes;
  Public : bytes;
  PqcPrivateKey : bytes;
  PqcPublicKey : bytes;
  DhPrivate : bytes;
  DhPublic : bytes;
  RemoteDhPublic : option bytes;
  RootKey : bytes;
  SendCk : bytes;
  RecvCk : bytes;
  HmacKey : bytes;
  FileKey : bytes;
  SendNonce : Z;
  RecvNonce : Z;
  SkippedMessages : gmap bytes bytes;
  AmInitiator : bool;
  RemotePendingKey : bytes;
  PubPendingKey : bytes;
  PrivPnedingKey : bytes;
  pendingDhRatchet : bool;
  SeenOffers : gmap bytes bool;
}.

(** Field assignments [sp.F = v]. *)
Definition set_DhPrivate (v : bytes) (sp : SecurePeer) : SecurePeer :=
  mkSecurePeer (ExpectedPeerHash sp) (IdentityPrivate sp) (IdentityPublic sp) (PqcSignPrivate
    sp) (PqcSignPublic sp) (Private sp) (Public sp) (PqcPrivateKey sp) (PqcPublicKey sp) v
    (DhPublic sp) (RemoteDhPublic sp) (RootKey sp) (SendCk sp) (RecvCk sp) (HmacKey sp) (FileKey
    sp) (SendNonce sp) (RecvNonce sp) (SkippedMessages sp) (AmInitiator sp) (RemotePendingKey
    sp) (PubPendingKey sp) (PrivPnedingKey sp) (pendingDhRatchet sp) (SeenOffers sp).

Definition set_DhPublic (v : bytes) (sp : SecurePeer) : SecurePeer :=
  mkSecurePeer (ExpectedPeerHash sp) (IdentityPrivate sp) (IdentityPublic sp) (PqcSignPrivate
    sp) (PqcSignPublic sp) (Private sp) (Public sp) (PqcPrivateKey sp) (PqcPublicKey sp)
    (DhPrivate sp) v (RemoteDhPublic sp) (RootKey sp) (SendCk sp) (RecvCk sp) (HmacKey sp)
    (FileKey sp) (SendNonce sp) (RecvNonce sp) (SkippedMessages sp) (AmInitiator sp)
    (RemotePendingKey sp) (PubPendingKey sp) (PrivPnedingKey sp) (pendingDhRatchet sp)
    (SeenOffers sp).

Definition set_RemoteDhPublic (v : option bytes) (sp : SecurePeer) : SecurePeer :=
  mkSecurePeer (ExpectedPeerHash sp) (IdentityPrivate sp) (IdentityPublic sp) (PqcSignPrivate
    sp) (PqcSignPublic sp) (Private sp) (Public sp) (PqcPrivateKey sp) (PqcPublicKey sp)
    (DhPrivate sp) (DhPublic sp) v (RootKey sp) (SendCk sp) (RecvCk sp) (HmacKey sp) (FileKey
    sp) (SendNonce sp) (RecvNonce sp) (SkippedMessages sp) (AmInitiator sp) (RemotePendingKey
    sp) (PubPendingKey sp) (PrivPnedingKey sp) (pendingDhRatchet sp) (SeenOffers sp).

Definition set_RootKey (v : bytes) (sp : SecurePeer) : SecurePeer :=
  mkSecurePeer (ExpectedPeerHash sp) (IdentityPrivate sp) (IdentityPublic sp) (PqcSignPrivate
    sp) (PqcSignPublic sp) (Private sp) (Public sp) (PqcPrivateKey sp) (PqcPublicKey sp)
    (DhPrivate sp) (DhPublic sp) (RemoteDhPublic sp) v (SendCk sp) (RecvCk sp) (HmacKey sp)
    (FileKey sp) (SendNonce sp) (RecvNonce sp) (SkippedMessages sp) (AmInitiator sp)
    (RemotePendingKey sp) (PubPendingKey sp) (PrivPnedingKey sp) (pendingDhRatchet sp)
    (SeenOffers sp).

Definition set_SendCk (v : bytes) (sp : SecurePeer) : SecurePeer :=
  mkSecurePeer (ExpectedPeerHash sp) (IdentityPrivate sp) (IdentityPublic sp) (PqcSignPrivate
    sp) (PqcSignPublic sp) (Private sp) (Public sp) (PqcPrivateKey sp) (PqcPublicKey sp)
    (DhPrivate sp) (DhPublic sp) (RemoteDhPublic sp) (RootKey sp) v (RecvCk sp) (HmacKey sp)
    (FileKey sp) (SendNonce sp) (RecvNonce sp) (SkippedMessages sp) (AmInitiator sp)
    (RemotePendingKey sp) (PubPendingKey sp) (PrivPnedingKey sp) (pendingDhRatchet sp)
    (SeenOffers sp).

Definition set_RecvCk (v : bytes) (sp : SecurePeer) : SecurePeer :=
  mkSecurePeer (ExpectedPeerHash sp) (IdentityPrivate sp) (IdentityPublic sp) (PqcSignPrivate
    sp) (PqcSignPublic sp) (Private sp) (Public sp) (PqcPrivateKey sp) (PqcPublicKey sp)
    (DhPrivate sp) (DhPublic sp) (RemoteDhPublic sp) (RootKey sp) (SendCk sp) v (HmacKey sp)
    (FileKey sp) (SendNonce sp) (RecvNonce sp) (SkippedMessages sp) (AmInitiator sp)
    (RemotePendingKey sp) (PubPendingKey sp) (PrivPnedingKey sp) (pendingDhRatchet sp)
    (SeenOffers sp).

Definition set_HmacKey (v : bytes) (sp : SecurePeer) : SecurePeer :=
  mkSecurePeer (ExpectedPeerHash sp) (IdentityPrivate sp) (IdentityPublic sp) (PqcSignPrivate
    sp) (PqcSignPublic sp) (Private sp) (Public sp) (PqcPrivateKey sp) (PqcPublicKey sp)
    (DhPrivate sp) (DhPublic sp) (RemoteDhPublic sp) (RootKey sp) (SendCk sp) (RecvCk sp) v
    (FileKey sp) (SendNonce sp) (RecvNonce sp) (SkippedMessages sp) (AmInitiator sp)
    (RemotePendingKey sp) (PubPendingKey sp) (PrivPnedingKey sp) (pendingDhRatchet sp)
    (SeenOffers sp).

Definition set_FileKey (v : bytes) (sp : SecurePeer) : SecurePeer :=
  mkSecurePeer (ExpectedPeerHash sp) (IdentityPrivate sp) (IdentityPublic sp) (PqcSignPrivate
    sp) (PqcSignPublic sp) (Private sp) (Public sp) (PqcPrivateKey sp) (PqcPublicKey sp)
    (DhPrivate sp) (DhPublic sp) (RemoteDhPublic sp) (RootKey sp) (SendCk sp) (RecvCk sp)
    (HmacKey sp) v (SendNonce sp) (RecvNonce sp) (SkippedMessages sp) (AmInitiator sp)
    (RemotePendingKey sp) (PubPendingKey sp) (PrivPnedingKey sp) (pendingDhRatchet sp)
    (SeenOffers sp).

Definition set_SendNonce (v : Z) (sp : SecurePeer) : SecurePeer :=
  mkSecurePeer (ExpectedPeerHash sp) (IdentityPrivate sp) (IdentityPublic sp) (PqcSignPrivate
    sp) (PqcSignPublic sp) (Private sp) (Public sp) (PqcPrivateKey sp) (PqcPublicKey sp)
    (DhPrivate sp) (DhPublic sp) (RemoteDhPublic sp) (RootKey sp) (SendCk sp) (RecvCk sp)
    (HmacKey sp) (FileKey sp) v (RecvNonce sp) (SkippedMessages sp) (AmInitiator sp)
    (RemotePendingKey sp) (PubPendingKey sp) (PrivPnedingKey sp) (pendingDhRatchet sp)
    (SeenOffers sp).

Definition set_RecvNonce (v : Z) (sp : SecurePeer) : SecurePeer :=
  mkSecurePeer (ExpectedPeerHash sp) (IdentityPrivate sp) (IdentityPublic sp) (PqcSignPrivate
    sp) (PqcSignPublic sp) (Private sp) (Public sp) (PqcPrivateKey sp) (PqcPublicKey sp)
    (DhPrivate sp) (DhPublic sp) (RemoteDhPublic sp) (RootKey sp) (SendCk sp) (RecvCk sp)
    (HmacKey sp) (FileKey sp) (SendNonce sp) v (SkippedMessages sp) (AmInitiator sp)
    (RemotePendingKey sp) (PubPendingKey sp) (PrivPnedingKey sp) (pendingDhRatchet sp)
    (SeenOffers sp).

Definition set_SkippedMessages (v : gmap bytes bytes) (sp : SecurePeer) : SecurePeer :=
  mkSecurePeer (ExpectedPeerHash sp) (IdentityPrivate sp) (IdentityPublic sp) (PqcSignPrivate
    sp) (PqcSignPublic sp) (Private sp) (Public sp) (PqcPrivateKey sp) (PqcPublicKey sp)
    (DhPrivate sp) (DhPublic sp) (RemoteDhPublic sp) (RootKey sp) (SendCk sp) (RecvCk sp)
    (HmacKey sp) (FileKey sp) (SendNonce sp) (RecvNonce sp) v (AmInitiator sp) (RemotePendingKey
    sp) (PubPendingKey sp) (PrivPnedingKey sp) (pendingDhRatchet sp) (SeenOffers sp).

Definition set_AmInitiator (v : bool) (sp : SecurePeer) : SecurePeer :=
  mkSecurePeer (ExpectedPeerHash sp) (IdentityPrivate sp) (IdentityPublic sp) (PqcSignPrivate
    sp) (PqcSignPublic sp) (Private sp) (Public sp) (PqcPrivateKey sp) (PqcPublicKey sp)
    (DhPrivate sp) (DhPublic sp) (RemoteDhPublic sp) (RootKey sp) (SendCk sp) (RecvCk sp)
    (HmacKey sp) (FileKey sp) (SendNonce sp) (RecvNonce sp) (SkippedMessages sp) v
    (RemotePendingKey sp) (PubPendingKey sp) (PrivPnedingKey sp) (pendingDhRatchet sp)
    (SeenOffers sp).

Definition set_pendingDhRatchet (v : bool) (sp : SecurePeer) : SecurePeer :=
  mkSecurePeer (ExpectedPeerHash sp) (IdentityPrivate sp) (IdentityPublic sp) (PqcSignPrivate
    sp) (PqcSignPublic sp) (Private sp) (Public sp) (PqcPrivateKey sp) (PqcPublicKey sp)
    (DhPrivate sp) (DhPublic sp) (RemoteDhPublic sp) (RootKey sp) (SendCk sp) (RecvCk sp)
    (HmacKey sp) (FileKey sp) (SendNonce sp) (RecvNonce sp) (SkippedMessages sp) (AmInitiator
    sp) (RemotePendingKey sp) (PubPendingKey sp) (PrivPnedingKey sp) v (SeenOffers sp).

Definition set_SeenOffers (v : gmap bytes bool) (sp : SecurePeer) : SecurePeer :=
  mkSecurePeer (ExpectedPeerHash sp) (IdentityPrivate sp) (IdentityPublic sp) (PqcSignPrivate
    sp) (PqcSignPublic sp) (Private sp) (Public sp) (PqcPrivateKey sp) (PqcPublicKey sp)
    (DhPrivate sp) (DhPublic sp) (RemoteDhPublic sp) (RootKey sp) (SendCk sp) (RecvCk sp)
    (HmacKey sp) (FileKey sp) (SendNonce sp) (RecvNonce sp) (SkippedMessages sp) (AmInitiator
    sp) (RemotePendingKey sp) (PubPendingKey sp) (PrivPnedingKey sp) (pendingDhRatchet sp) v.

(** A nil slice read as bytes. *)
Definition nilBytes (o : option bytes) : bytes := match o with Some b => b | None => [] end.

(** ** Constants *)
Definition lowSecurity : bool := false.
Definition maxSkip : Z := 1000.
Definition maxWireNonce : Z := Z.shiftl 1 31.
Definition secureMessageFieldTag : byte := x05.

(** ** ratchet.go and utils.go *)
Section Ratchet.
Context `{P : Prims}.

Definition RatchetStep (ck : bytes) : bytes * bytes :=
  let material := hkdf ck [] (str "ratchet-step") 64 in
  (take 32 material, drop 32 material).

(** The loop fills the buffer from its last byte. *)
Fixpoint IntToBytes_loop (k : nat) (n : Z) (b : bytes) : bytes :=
  match k with
  | O => b
  | S i => IntToBytes_loop i (Z.shiftr n 8) (<[i := byteZ n]> b)
  end.

Definition IntToBytes (n : Z) (length : nat) : bytes :=
  IntToBytes_loop length n (replicate length x00).

Definition GenerateX25519KeyPair (rnd : bytes) : bytes * bytes := (rnd, x25519_base rnd).

End Ratchet.

(** ** Wire form of a message ([kex_hybrid_nanopack.go]) *)
Inductive frame_err := FrameParse | FrameShortBody | FrameNonce (n : Z).

Definition SecureMessage_MarshalBinID (p : SecureMessage) : fields :=
  [(x01, SenderID p); (x02, nilBytes (RatchetKey p));
   (x03, putU64 (Nonce p)); (x04, Ciphertext p)].

Definition emptyMessage : SecureMessage := mkSecureMessage [] None 0 [] [] [] [].

Definition SecureMessage_field (p : SecureMessage) (f : byte * bytes) : res frame_err SecureMessage :=
  let '(mkSecureMessage s k n c t r a) := p in
  match f.1 with
  | x01 => Ok (mkSecureMessage f.2 k n c t r a)
  | x02 => Ok (mkSecureMessage s (Some f.2) n c t r a)
  | x03 => if negb (len f.2 =? 8) then Err FrameShortBody
           else Ok (mkSecureMessage s k (unbe f.2) c t r a)
  | x04 => Ok (mkSecureMessage s k n f.2 t r a)
  | _ => Ok p
  end.

Fixpoint SecureMessage_UnmarshalBinID (fs : fields) (p : SecureMessage) : res frame_err SecureMessage :=
  match fs with
  | [] => Ok p
  | f :: fs => p' ← SecureMessage_field p f; SecureMessage_UnmarshalBinID fs p'
  end.

Definition set_Tag (t : bytes) (m : SecureMessage) : SecureMessage :=
  mkSecureMessage (SenderID m) (RatchetKey m) (Nonce m) (Ciphertext m) t (RequestKey m) (AcceptedKey m).

(** The second loop of [parseSecureMessage]: the last field 5 is the tag. *)
Definition readTag (fs : fields) (m : SecureMessage) : SecureMessage :=
  fold_left (fun m f => if bool_decide (f.1 = secureMessageFieldTag) then set_Tag f.2 m else m) fs m.

Section SecurePeer.
Context `{N : Nanopack} `{P : Prims}.

Definition secureMessageHmacPayload (msg : SecureMessage) : option bytes :=
  MarshalFastID (SecureMessage_MarshalBinID msg).

Definition parseSecureMessage (payload : bytes) : res frame_err SecureMessage :=
  fs ← ofOption FrameParse (np_decode payload);
  msg ← SecureMessage_UnmarshalBinID fs emptyMessage;
  let msg := readTag fs msg in
  if maxWireNonce <=? Nonce msg then Err (FrameNonce (Nonce msg)) else Ok msg.

Definition SenderIDFromFrame (payload : bytes) : res frame_err bytes :=
  SenderID <$> parseSecureMessage payload.

(** ** Identity and handshake material *)
Definition DerivePeerID (identityPublic dilithiumPublic : bytes) : bytes :=
  base58_encode (identityPublic ++ sha3_256 dilithiumPublic).

(** A private key that does not unmarshal panics. *)
Definition DilithiumSign {E} (priv message : bytes) : res E bytes :=
  if dil_unpriv priv then Ok (dil_sign priv message) else Panic.

Definition DilithiumVerify (pub message sig : bytes) : bool :=
  if dil_unpub pub then dil_verify pub message sig else false.

(** [ed25519.Sign] panics on a private key that is not 64 bytes. *)
Definition ed25519Sign {E} (priv message : bytes) : res E bytes :=
  if len priv =? 64 then Ok (ed25519_sign priv message) else Panic.

Definition buildSignMessage (sp : SecurePeer) (offerID recipientID : bytes) : bytes :=
  mjoin [recipientID; Public sp; DhPublic sp; PqcPublicKey sp; PqcSignPublic sp; offerID].

Definition GetSign {E} (sp : SecurePeer) (offerID recipientID : bytes) : res E bytes :=
  ed25519Sign (IdentityPrivate sp) (buildSignMessage sp offerID recipientID).

Definition GetDilithiumSign {E} (sp : SecurePeer) (offerID recipientID : bytes) : res E bytes :=
  DilithiumSign (PqcSignPrivate sp) (buildSignMessage sp offerID recipientID).

Definition sortedByHash (a b : bytes) : bytes * bytes :=
  if bytes_ltb (sha256 a) (sha256 b) then (a, b) else (b, a).

Definition getSkipKeyStr (dh : bytes) (n : Z) : bytes := dh ++ str ":" ++ dec n.

Definition GetTranscript (sp : SecurePeer) (peerIdentity peerPublic peerDhPublic peerPqcPublic : bytes) : bytes :=
  let items := [IdentityPublic sp; Public sp; DhPublic sp; PqcPublicKey sp;
                peerIdentity; peerPublic; peerDhPublic; peerPqcPublic] in
  let hashedItems := bytes_sort (sha3_256 <$> items) in
  sha3_512 (str "ML-KEM-ECC-Hybrid-Transcript-v1" ++ mjoin hashedItems).

Inductive hs_err := HsIdentityLength | HsEd25519 | HsDilithium | HsPeerMismatch | HsX25519.

(** The peer's public material, as it comes in an offer or an answer. *)
Record PeerKeys := mkPeerKeys {
  pkIdentity : bytes;
  pkPublic : bytes;
  pkDhPublic : option bytes;
  pkKyber : bytes;
  pkDilithium : bytes;
  pkEd25519Sig : bytes;
  pkDilithiumSig : bytes;
}.

(** The end of [Handshake]: roles, transcript, root key and the session keys. *)
Definition establish (sp : SecurePeer) (p : PeerKeys) (eccShared pqcSharedSecret : bytes) : SecurePeer :=
  let hybridSharedSecret := eccShared ++ pqcSharedSecret in
  let p1 := (sortedByHash (pkIdentity p) (IdentityPublic sp)).1 in
  let sp := set_AmInitiator (bytes_eqb p1 (IdentityPublic sp)) sp in
  let transcript := GetTranscript sp (pkIdentity p) (pkPublic p) (nilBytes (pkDhPublic p)) (pkKyber p) in
  let sp := set_RootKey (hkdf hybridSharedSecret transcript (str "initial-root") 32) sp in
  let sp := set_RemoteDhPublic (pkDhPublic p) sp in
  let dhShared := nilBytes (x25519 (DhPrivate sp) (nilBytes (RemoteDhPublic sp))) in
  let mat := hkdf dhShared (RootKey sp) (str "ratchet-root") 160 in
  let part i := take 32 (drop (32 * i) mat) in
  let sp := if AmInitiator sp
            then set_SendCk (part 0%nat) (set_RecvCk (part 1%nat) sp)
            else set_RecvCk (part 0%nat) (set_SendCk (part 1%nat) sp) in
  let sp := set_RootKey (part 2%nat) (set_HmacKey (part 3%nat) (set_FileKey (part 4%nat) sp)) in
  let sp := set_SendNonce 0 (set_RecvNonce 0 sp) in
  if AmInitiator sp then sp else set_pendingDhRatchet true sp.

Definition Handshake (sp : SecurePeer) (p : PeerKeys) (pqcSharedSecret offerID recipientId : bytes)
  : SecurePeer * res hs_err unit :=
  if negb (len (pkIdentity p) =? 32) then (sp, Err HsIdentityLength) else
  let msg := mjoin [recipientId; pkPublic p; nilBytes (pkDhPublic p); pkKyber p; pkDilithium p; offerID] in
  if negb (ed25519_verify (pkIdentity p) msg (pkEd25519Sig p)) then (sp, Err HsEd25519) else
  if negb (DilithiumVerify (pkDilithium p) msg (pkDilithiumSig p)) then (sp, Err HsDilithium) else
  let expectedID := DerivePeerID (pkIdentity p) (pkDilithium p) in
  if match ExpectedPeerHash sp with Some h => negb (bytes_eqb expectedID h) | None => false end
  then (sp, Err HsPeerMismatch) else
  match x25519 (Private sp) (pkPublic p) with
  | None => (sp, Err HsX25519)
  | Some eccShared => (establish sp p eccShared pqcSharedSecret, Ok tt)
  end.

(** ** The ratchet *)
Inductive skip_err := TooManySkipped.

(** One turn of the skipping loops: derive, stash the message key, advance. *)
Definition stashKey (sp : SecurePeer) : SecurePeer :=
  let '(nextCk, mk) := RatchetStep (RecvCk sp) in
  let keyStr := getSkipKeyStr (b64Encode (nilBytes (RemoteDhPublic sp))) (RecvNonce sp) in
  let sp := set_RecvCk nextCk sp in
  let sp := set_SkippedMessages (<[keyStr := mk]> (SkippedMessages sp)) sp in
  set_RecvNonce (i64 (RecvNonce sp + 1)) sp.

Fixpoint skipLoop (fuel : nat) (until : Z) (sp : SecurePeer) : SecurePeer :=
  match fuel with
  | O => sp
  | S f => if RecvNonce sp <? until then skipLoop f until (stashKey sp) else sp
  end.

(** [for sp.RecvNonce < until]: the distance bounds the number of turns. *)
Definition skipUntil (until : Z) (sp : SecurePeer) : SecurePeer :=
  skipLoop (Z.to_nat (until - RecvNonce sp)) until sp.

Definition SkipMessageKeys (sp : SecurePeer) (untilMsgNumber : Z) : SecurePeer * res skip_err unit :=
  if i64 (RecvNonce sp + maxSkip) <? untilMsgNumber then (sp, Err TooManySkipped)
  else (skipUntil untilMsgNumber sp, Ok tt).

(** Root-key step with the current key pair: (root key, chain key). *)
Definition rootStep (sp : SecurePeer) : bytes * bytes :=
  let dhShared := nilBytes (x25519 (DhPrivate sp) (nilBytes (RemoteDhPublic sp))) in
  let material := hkdf dhShared (RootKey sp) (str "ratchet-root") 64 in
  (take 32 material, drop 32 material).

Definition DhRatchet (sp : SecurePeer) (remoteKey : option bytes) : SecurePeer :=
  let sp := set_RemoteDhPublic remoteKey sp in
  let '(root, ck) := rootStep sp in
  set_pendingDhRatchet true (set_RecvNonce 0 (set_RecvCk ck (set_RootKey root sp))).

Inductive enc_err := EncCipher | EncCanonical | EncFrame.

Definition aeadAAD (dhPub : bytes) (n : Z) : bytes := dhPub ++ IntToBytes n 8.

(** [hmac.New(sha3.New256, key)]: SHA3-256 has a 136-byte block. *)
Definition hmacTag (key canonical : bytes) : bytes := hmac sha3_256 136 key canonical.

(** The DH half of [Encrypt]: rotate our key pair when a ratchet is pending. *)
Definition sendRatchet (rnd : bytes) (sp : SecurePeer) : SecurePeer :=
  if pendingDhRatchet sp then
    let '(priv, pub) := GenerateX25519KeyPair rnd in
    let sp := set_DhPrivate priv (set_DhPublic pub sp) in
    let '(root, ck) := rootStep sp in
    set_pendingDhRatchet false (set_SendNonce 0 (set_SendCk ck (set_RootKey root sp)))
  else sp.

Definition Encrypt (rnd : bytes) (sp : SecurePeer) (senderName plaintext : bytes)
  : SecurePeer * res enc_err bytes :=
  let '(sp, mk, currentDhPublic) :=
    if negb lowSecurity then
      let sp := sendRatchet rnd sp in
      let '(nextCk, mk) := RatchetStep (SendCk sp) in
      (set_SendCk nextCk sp, mk, DhPublic sp)
    else
      (sp, hkdf_expand (SendCk sp) (IntToBytes (SendNonce sp) 8) 32, DhPublic sp) in
  if negb (len mk =? 32) then (sp, Err EncCipher) else
  let nonce := IntToBytes (SendNonce sp) 24 in
  let ciphertext := aead_seal mk nonce plaintext (aeadAAD currentDhPublic (SendNonce sp)) in
  let msg := mkSecureMessage senderName (Some currentDhPublic) (u64 (SendNonce sp)) ciphertext [] [] [] in
  match secureMessageHmacPayload msg with
  | None => (sp, Err EncCanonical)
  | Some canonical =>
      let tag := hmacTag (HmacKey sp) canonical in
      match np_encode (SecureMessage_MarshalBinID (set_Tag tag msg) ++ [(secureMessageFieldTag, tag)]) with
      | None => (sp, Err EncFrame)
      | Some wire => (set_SendNonce (i64 (SendNonce sp + 1)) sp, Ok wire)
      end
  end.

Definition VerifyCiphertext (mk : bytes) (n : Z) (ciphertext dhPub : bytes) : bool :=
  if negb (len mk =? 32) then false
  else bool_decide (is_Some (aead_open mk (IntToBytes n 24) ciphertext (aeadAAD dhPub n))).

Inductive dec_err :=
| DecFrame (e : frame_err)
| DecCanonical
| DecTag
| ErrReplay (nonce expected : Z)
| DecCipher
| DecAEAD.

Definition DecryptWithKey (mk : bytes) (n : Z) (ciphertext dhPub : bytes) : res dec_err bytes :=
  if negb (len mk =? 32) then Err DecCipher
  else ofOption DecAEAD (aead_open mk (IntToBytes n 24) ciphertext (aeadAAD dhPub n)).

(** Everything after the tag check, for an authenticated message. *)
Definition decryptAuth (sp : SecurePeer) (msg : SecureMessage) : SecurePeer * res dec_err (bytes * bytes) :=
  let nonce := i64 (Nonce msg) in
  let finish mk := pair (SenderID msg) <$> DecryptWithKey mk nonce (Ciphertext msg) (nilBytes (RatchetKey msg)) in
  if lowSecurity then (sp, finish (hkdf_expand (RecvCk sp) (IntToBytes nonce 8) 32)) else
  let skipKeyStr := getSkipKeyStr (b64Encode (nilBytes (RatchetKey msg))) nonce in
  match SkippedMessages sp !! skipKeyStr with
  | Some mk =>
      (set_SkippedMessages (delete skipKeyStr (SkippedMessages sp)) sp, finish mk)
  | None =>
      let sp :=
        match RemoteDhPublic sp with
        | Some r => if bytes_eqb (nilBytes (RatchetKey msg)) r then sp else DhRatchet sp (RatchetKey msg)
        | None => DhRatchet sp (RatchetKey msg)
        end in
      if nonce <? RecvNonce sp then (sp, Err (ErrReplay nonce (RecvNonce sp))) else
      let sp := skipUntil nonce sp in
      let '(nextCk, mk) := RatchetStep (RecvCk sp) in
      let sp := set_RecvNonce (i64 (RecvNonce sp + 1)) (set_RecvCk nextCk sp) in
      (sp, finish mk)
  end.

Definition Decrypt (sp : SecurePeer) (payload : bytes) : SecurePeer * res dec_err (bytes * bytes) :=
  match parseSecureMessage payload with
  | Err e => (sp, Err (DecFrame e))
  | Panic => (sp, Panic)
  | Ok msg =>
      match secureMessageHmacPayload msg with
      | None => (sp, Err DecCanonical)
      | Some canonical =>
          if negb (bytes_eqb (Tag msg) (hmacTag (HmacKey sp) canonical)) then (sp, Err DecTag)
          else decryptAuth sp msg
      end
  end.

End SecurePeer.
