(* ===== verification/SecurePeerFacts.v ===== *)
(** * Facts about the session primitives

    Lemmas shared by the session theorems: the byte encodings, the skip-key
    strings, what [Encrypt] puts on the wire and what [Decrypt] does with a
    frame that authenticates. *)
From S2P Require Import Prelude GoStd Sha256 External SecurePeer.
#[local] Open Scope Z_scope.

(** ** [IntToBytes] is the big-endian encoding *)
Lemma IntToBytes_loop_be k n b :
  (k <= length b)%nat -> IntToBytes_loop k n b = be k n ++ drop k b.
Proof.
  revert n b. induction k as [|k IH]; intros n b Hk; [by rewrite drop_0|].
  cbn [IntToBytes_loop be]. rewrite IH by (rewrite length_insert; lia).
  rewrite <- app_assoc. f_equal.
  assert (k < length b)%nat as Hk' by lia.
  rewrite (drop_S (<[k:=byteZ n]> b) (byteZ n) k) by (by apply list_lookup_insert_eq).
  by rewrite drop_insert_lt by lia.
Qed.

Lemma IntToBytes_be n l : IntToBytes n l = be l n.
Proof.
  unfold IntToBytes. rewrite IntToBytes_loop_be by (by rewrite length_replicate).
  rewrite drop_ge by (by rewrite length_replicate). apply app_nil_r.
Qed.

Lemma length_IntToBytes n l : length (IntToBytes n l) = l.
Proof. rewrite IntToBytes_be. apply length_be. Qed.

(** ** Skip keys *)
Lemma split_at_sep (c : byte) (a a' t t' : bytes) :
  c ∉ a -> c ∉ a' -> a ++ c :: t = a' ++ c :: t' -> a = a' /\ t = t'.
Proof.
  revert a'. induction a as [|x a IH]; intros [|y a'] Ha Ha' H; simplify_eq/=; try done.
  - exfalso. apply Ha'. by left.
  - exfalso. apply Ha. by left.
  - destruct (IH a') as [-> ->]; auto using list_elem_of_further; by intros ?; apply Ha || apply Ha'; right.
Qed.

Lemma colon_not_b64 l : x3a ∉ b64Encode l.
Proof.
  intros Hin. pose proof (b64Encode_alpha l) as H.
  apply list_elem_of_In in Hin. rewrite List.Forall_forall in H. by destruct (H x3a Hin).
Qed.

Lemma getSkipKeyStr_inj k k' n n' :
  getSkipKeyStr (b64Encode k) n = getSkipKeyStr (b64Encode k') n' -> k = k' /\ n = n'.
Proof.
  unfold getSkipKeyStr. intros H. apply split_at_sep in H as [H1 H2]; [|apply colon_not_b64..].
  split; [by apply (inj b64Encode)|by apply (inj dec)].
Qed.

(** ** Chains *)
Section Chain.
Context `{P : Prims} `{PL : !PrimLaws}.

Definition nextCk (ck : bytes) : bytes := (RatchetStep ck).1.
Definition msgKey (ck : bytes) : bytes := (RatchetStep ck).2.

(** The chain key after [n] steps. *)
Fixpoint ckN (n : nat) (ck : bytes) : bytes :=
  match n with O => ck | S n => ckN n (nextCk ck) end.

Lemma RatchetStep_eq ck : RatchetStep ck = (nextCk ck, msgKey ck).
Proof. by destruct (RatchetStep ck) eqn:H; unfold nextCk, msgKey; rewrite H. Qed.

Lemma ckN_S n ck : ckN (S n) ck = nextCk (ckN n ck).
Proof. revert ck. induction n as [|n IH]; intros ck; [done|]. exact (IH (nextCk ck)). Qed.

Lemma length_msgKey ck : len (msgKey ck) = 32.
Proof.
  unfold msgKey, RatchetStep, len. simpl. rewrite length_drop, length_hkdf; [done|lia].
Qed.

End Chain.

(** ** Frames *)
Section Frames.
Context `{N : Nanopack} `{NL : !NanopackLaws} `{P : Prims} `{PL : !PrimLaws}.

(** [wire] is an authentic frame: it parses to a message of sender [name] under
    ratchet key [key] with counter [n], its tag verifies under [hk], and its
    ciphertext seals [pt] with message key [mk]. *)
Definition good_frame (hk key : bytes) (n : Z) (mk name pt wire : bytes) : Prop :=
  exists msg canonical,
    parseSecureMessage wire = Ok msg /\
    secureMessageHmacPayload msg = Some canonical /\
    Tag msg = hmacTag hk canonical /\
    SenderID msg = name /\ RatchetKey msg = Some key /\ Nonce msg = n /\
    0 <= n < 2 ^ 31 /\ len mk = 32 /\
    Ciphertext msg = aead_seal mk (IntToBytes n 24) pt (aeadAAD key n).

Lemma readTag_frame a b c d tag m :
  readTag [(x01, a); (x02, b); (x03, c); (x04, d); (x05, tag)] m = set_Tag tag m.
Proof. reflexivity. Qed.

Lemma unmarshal_frame name key n ct tag :
  0 <= n < 2 ^ 31 ->
  SecureMessage_UnmarshalBinID
    [(x01, name); (x02, key); (x03, putU64 n); (x04, ct); (x05, tag)] emptyMessage
  = Ok (mkSecureMessage name (Some key) n ct [] [] []).
Proof.
  intros Hn. cbn -[putU64 len unbe Z.eqb]. rewrite len_putU64. cbn -[putU64 unbe].
  by rewrite unbe_putU64, u64_small by lia.
Qed.

Lemma parse_frame name key n ct tag wire :
  0 <= n < 2 ^ 31 ->
  np_encode [(x01, name); (x02, key); (x03, putU64 n); (x04, ct); (x05, tag)] = Some wire ->
  parseSecureMessage wire = Ok (mkSecureMessage name (Some key) n ct tag [] []).
Proof.
  intros Hn Hw. unfold parseSecureMessage. rewrite (np_decode_encode _ _ Hw).
  cbn [ofOption]. unfold mbind, res_bind. rewrite unmarshal_frame, readTag_frame by done.
  cbn [Nonce set_Tag].
  change maxWireNonce with (2 ^ 31). rewrite (proj2 (Z.leb_gt _ _)) by lia. done.
Qed.

(** The state [Encrypt] works from, and the one it leaves behind. *)
Definition afterSend (sp : SecurePeer) : SecurePeer :=
  set_SendNonce (i64 (SendNonce sp + 1)) (set_SendCk (nextCk (SendCk sp)) sp).

(** [Encrypt] in one equation: the message it builds and how it is framed. *)
Definition sealed (s : SecurePeer) (name pt : bytes) : SecureMessage :=
  mkSecureMessage name (Some (DhPublic s)) (u64 (SendNonce s))
    (aead_seal (msgKey (SendCk s)) (IntToBytes (SendNonce s) 24) pt (aeadAAD (DhPublic s) (SendNonce s)))
    [] [] [].

Lemma Encrypt_eq rnd sp name pt :
  let s := sendRatchet rnd sp in
  let s1 := set_SendCk (nextCk (SendCk s)) s in
  Encrypt rnd sp name pt =
    match secureMessageHmacPayload (sealed s name pt) with
    | None => (s1, Err EncCanonical)
    | Some canonical =>
        let tag := hmacTag (HmacKey s) canonical in
        match np_encode (SecureMessage_MarshalBinID (sealed s name pt) ++ [(x05, tag)]) with
        | None => (s1, Err EncFrame)
        | Some wire => (afterSend s, Ok wire)
        end
    end.
Proof.
  intros s s1. unfold Encrypt. change lowSecurity with false.
  cbv beta iota delta [negb]. rewrite RatchetStep_eq. cbv beta iota zeta.
  rewrite length_msgKey. reflexivity.
Qed.

Lemma Encrypt_good rnd sp name pt sp' wire :
  Encrypt rnd sp name pt = (sp', Ok wire) ->
  let s := sendRatchet rnd sp in
  0 <= SendNonce s < 2 ^ 31 ->
  sp' = afterSend s /\
  good_frame (HmacKey s) (DhPublic s) (SendNonce s) (msgKey (SendCk s)) name pt wire.
Proof.
  intros H s Hn. rewrite Encrypt_eq in H. fold s in H. cbv zeta in H.
  destruct (secureMessageHmacPayload _) as [canonical|] eqn:Hc; [|done].
  destruct (np_encode _) as [w|] eqn:Hw; [|done].
  injection H as <- <-. split; [done|].
  assert (u64 (SendNonce s) = SendNonce s) as Hu by (apply u64_small; lia).
  unfold sealed in Hw, Hc. rewrite Hu in Hw, Hc.
  apply parse_frame in Hw; [|exact Hn].
  eexists _, canonical. split; [exact Hw|]. repeat split; try done; try lia.
  apply length_msgKey.
Qed.

Lemma len_hmacTag k m : len (hmacTag k m) = 32.
Proof. unfold hmacTag, hmac, len. by rewrite length_sha3_256. Qed.

(** [Encrypt] succeeds on any message that fits a frame. *)
Lemma Encrypt_total rnd sp name pt :
  len name < 2 ^ 30 -> len pt < 2 ^ 30 -> length (DhPublic (sendRatchet rnd sp)) = 32%nat ->
  exists wire, Encrypt rnd sp name pt = (afterSend (sendRatchet rnd sp), Ok wire).
Proof.
  intros Hname Hpt Hdh. rewrite Encrypt_eq. cbv zeta.
  set (s := sendRatchet rnd sp) in *.
  assert (forall l, len l < 2147483648 ->
    Forall (fun f : byte * bytes => len f.2 < 2 ^ 31)
      (SecureMessage_MarshalBinID (sealed s name pt) ++ [(x05, l)])) as Hsz.
  { change (2 ^ 30) with 1073741824 in *. change (2 ^ 31) with 2147483648.
    intros l Hl. cbn [SecureMessage_MarshalBinID app sealed SenderID RatchetKey Nonce Ciphertext nilBytes].
    repeat (apply List.Forall_cons; [cbn [snd]|]); try apply List.Forall_nil; rewrite ?len_putU64; try lia;
      unfold len in *; rewrite ?length_aead_seal; lia. }
  pose proof (Hsz [] eq_refl) as Hsz0. rewrite Forall_app in Hsz0. destruct Hsz0 as [Hsz0 _].
  unfold secureMessageHmacPayload, MarshalFastID.
  destruct (np_encode_total _ (ltac:(simpl; lia) : (length (SecureMessage_MarshalBinID (sealed s name pt)) <= 16)%nat) Hsz0)
    as [c ->].
  edestruct np_encode_total as [w ->]; [|apply Hsz; rewrite len_hmacTag; lia|by eauto].
  simpl. lia.
Qed.

(** What [Decrypt] does once a frame has authenticated. *)
Lemma Decrypt_good sp key n mk name pt wire :
  good_frame (HmacKey sp) key n mk name pt wire ->
  exists msg, Decrypt sp wire = decryptAuth sp msg /\
    SenderID msg = name /\ RatchetKey msg = Some key /\ i64 (Nonce msg) = n /\
    0 <= n < 2 ^ 31 /\
    DecryptWithKey mk n (Ciphertext msg) key = Ok pt.
Proof.
  intros (msg & canonical & Hp & Hc & Ht & Hname & Hk & Hn & Hr & Hmk & Hct).
  exists msg. unfold Decrypt. rewrite Hp, Hc, Ht, bytes_eqb_refl. cbn [negb].
  repeat split; try done; try lia.
  - rewrite Hn. apply i64_small. lia.
  - unfold DecryptWithKey. rewrite Hmk. cbn [Z.eqb Pos.eqb negb].
    rewrite Hct, aead_correct; [done|unfold len in Hmk; lia|apply length_IntToBytes].
Qed.

(** Receiving the next message of the current chain. *)
Definition afterRecv (sp : SecurePeer) : SecurePeer :=
  set_RecvNonce (i64 (RecvNonce sp + 1)) (set_RecvCk (nextCk (RecvCk sp)) sp).

Lemma skipUntil_here sp : skipUntil (RecvNonce sp) sp = sp.
Proof. unfold skipUntil. by rewrite Z.sub_diag. Qed.

Lemma Decrypt_next sp key name pt wire :
  good_frame (HmacKey sp) key (RecvNonce sp) (msgKey (RecvCk sp)) name pt wire ->
  RemoteDhPublic sp = Some key ->
  SkippedMessages sp !! getSkipKeyStr (b64Encode key) (RecvNonce sp) = None ->
  Decrypt sp wire = (afterRecv sp, Ok (name, pt)).
Proof.
  intros Hg Hr Hs. destruct (Decrypt_good _ _ _ _ _ _ _ Hg) as (msg & -> & Hn & Hk & Hi & Hb & Hd).
  unfold decryptAuth. cbn [lowSecurity]. rewrite Hi, Hk. cbn [nilBytes].
  rewrite Hs, Hr, bytes_eqb_refl, (proj2 (Z.ltb_ge _ _)), skipUntil_here by lia.
  rewrite RatchetStep_eq, Hd, Hn. done.
Qed.

(** Receiving the first message under a rotated key. *)
Lemma Decrypt_rotated sp old key name pt wire :
  let s := DhRatchet sp (Some key) in
  good_frame (HmacKey sp) key 0 (msgKey (RecvCk s)) name pt wire ->
  RemoteDhPublic sp = Some old -> old ≠ key ->
  SkippedMessages sp !! getSkipKeyStr (b64Encode key) 0 = None ->
  Decrypt sp wire = (afterRecv s, Ok (name, pt)).
Proof.
  intros s Hg Hr Hne Hs.
  destruct (Decrypt_good _ _ _ _ _ _ _ Hg) as (msg & -> & Hn & Hk & Hi & Hb & Hd).
  unfold decryptAuth. cbn [lowSecurity]. rewrite Hi, Hk. cbn [nilBytes].
  rewrite Hs, Hr, (proj2 (bytes_eqb_neq _ _)) by congruence. fold s.
  assert (RecvNonce s = 0) as H0 by (unfold s, DhRatchet; by destruct (rootStep _)).
  rewrite H0. cbn [Z.ltb Z.compare]. rewrite <- H0 at 1. rewrite skipUntil_here.
  rewrite RatchetStep_eq, Hd, Hn. unfold afterRecv. by rewrite H0.
Qed.

End Frames.
