(* ===== verification/Session.v ===== *)
(** * Two sessions talking: the double ratchet over ordered channels

    [net] is two sessions and the frames travelling between them, each frame
    carried with what was encrypted.  [step] lets either side encrypt, take
    the oldest frame off its channel, or go through the disk ([reload]).  The invariant [synced] describes where
    the ratchet token (the right to rotate keys) is: with a party, lost, or in
    flight inside a channel.  It is preserved by every step, and it makes every
    delivery decrypt to what was sent. *)
From S2P Require Import Prelude GoStd Sha256 External SecurePeer SecurePeerFacts.
#[local] Open Scope Z_scope.

Section Session.
Context `{N : Nanopack} `{NL : !NanopackLaws} `{P : Prims} `{PL : !PrimLaws}.

(** ** The network *)

(** A frame in flight: its bytes, the sender name and the plaintext. *)
Record flight := Flight { fl_wire : bytes; fl_name : bytes; fl_text : bytes }.

Record net := Net {
  side_a : SecurePeer;
  side_b : SecurePeer;
  chan_ab : list flight;
  chan_ba : list flight;
}.

Inductive event := Sent | Reloaded | Delivered (f : flight) (r : res dec_err (bytes * bytes)).

(** What [SaveClient] then [LoadClient] make of a session: [encoding/json] keeps
    every exported field and drops [pendingDhRatchet]. *)
Definition reload (sp : SecurePeer) : SecurePeer := set_pendingDhRatchet false sp.

(** A send is admissible while the counter fits the wire format; fresh key
    material is 32 random bytes whose public key differs from the current one. *)
Definition send_ok (rnd : bytes) (sp : SecurePeer) : Prop :=
  length rnd = 32%nat /\ x25519_base rnd ≠ DhPublic sp /\
  SendNonce (sendRatchet rnd sp) < 2 ^ 31.

Inductive step : net -> event -> net -> Prop :=
| step_send_a rnd name pt wire a a' b ab ba :
    send_ok rnd a -> Encrypt rnd a name pt = (a', Ok wire) ->
    step (Net a b ab ba) Sent (Net a' b (ab ++ [Flight wire name pt]) ba)
| step_send_b rnd name pt wire a b b' ab ba :
    send_ok rnd b -> Encrypt rnd b name pt = (b', Ok wire) ->
    step (Net a b ab ba) Sent (Net a b' ab (ba ++ [Flight wire name pt]))
| step_recv_b f r a b b' ab ba :
    Decrypt b (fl_wire f) = (b', r) ->
    step (Net a b (f :: ab) ba) (Delivered f r) (Net a b' ab ba)
| step_recv_a f r a a' b ab ba :
    Decrypt a (fl_wire f) = (a', r) ->
    step (Net a b ab (f :: ba)) (Delivered f r) (Net a' b ab ba)
| step_reload_a a b ab ba : step (Net a b ab ba) Reloaded (Net (reload a) b ab ba)
| step_reload_b a b ab ba : step (Net a b ab ba) Reloaded (Net a (reload b) ab ba).

Inductive steps : net -> list event -> net -> Prop :=
| steps_nil n : steps n [] n
| steps_cons n1 e n2 es n3 : step n1 e n2 -> steps n2 es n3 -> steps n1 (e :: es) n3.

(** A delivery that hands over exactly what was sent. *)
Definition faithful (e : event) : Prop :=
  match e with Sent | Reloaded => True | Delivered f r => r = Ok (fl_name f, fl_text f) end.

(** ** The invariant *)

(** The frames of [q] are consecutive messages of one chain. *)
Fixpoint frames_ok (hk key : bytes) (n : Z) (ck : bytes) (q : list flight) : Prop :=
  match q with
  | [] => True
  | f :: q =>
      good_frame hk key n (msgKey ck) (fl_name f) (fl_text f) (fl_wire f) /\
      frames_ok hk key (n + 1) (nextCk ck) q
  end.

Record wf_peer (sp : SecurePeer) : Prop := {
  wf_pub : DhPublic sp = x25519_base (DhPrivate sp);
  wf_priv : length (DhPrivate sp) = 32%nat;
  wf_skipped : SkippedMessages sp = ∅;
  wf_send : 0 <= SendNonce sp <= 2 ^ 31;
  wf_recv : 0 <= RecvNonce sp <= 2 ^ 31;
}.

(** [y] is reading the chain [x] is writing, [q] in between. *)
Definition linked (x y : SecurePeer) (q : list flight) : Prop :=
  RemoteDhPublic y = Some (DhPublic x) /\
  frames_ok (HmacKey y) (DhPublic x) (RecvNonce y) (RecvCk y) q /\
  SendCk x = ckN (length q) (RecvCk y) /\
  SendNonce x = RecvNonce y + len q.

(** [x] has rotated its key: [q1] is the rest of the old chain, [q2] the
    beginning of the new one, which [y] will derive on meeting it. *)
Definition switching (x y : SecurePeer) (q : list flight) : Prop :=
  exists old q1 q2,
    q = q1 ++ q2 /\ q2 ≠ [] /\ RemoteDhPublic y = Some old /\ old ≠ DhPublic x /\
    frames_ok (HmacKey y) old (RecvNonce y) (RecvCk y) q1 /\
    let y' := DhRatchet y (Some (DhPublic x)) in
    RootKey x = RootKey y' /\
    frames_ok (HmacKey y) (DhPublic x) 0 (RecvCk y') q2 /\
    SendCk x = ckN (length q2) (RecvCk y') /\
    SendNonce x = len q2.

(** The token is with one side (or lost), or on its way. *)
Definition quiet (x y : SecurePeer) (xy yx : list flight) : Prop :=
  linked x y xy /\ linked y x yx /\ RootKey x = RootKey y /\
  (pendingDhRatchet x && pendingDhRatchet y)%bool = false.

Definition flying (x y : SecurePeer) (xy yx : list flight) : Prop :=
  switching x y xy /\ linked y x yx /\
  pendingDhRatchet x = false /\ pendingDhRatchet y = false.

Definition synced (n : net) : Prop :=
  let '(Net a b ab ba) := n in
  wf_peer a /\ wf_peer b /\ HmacKey a = HmacKey b /\
  (quiet a b ab ba \/ flying a b ab ba \/ flying b a ba ab).

Definition swap (n : net) : net := Net (side_b n) (side_a n) (chan_ba n) (chan_ab n).

(** ** Basic facts *)
Lemma synced_swap n : synced n -> synced (swap n).
Proof.
  destruct n as [a b ab ba]. unfold synced, swap, quiet. simpl.
  rewrite (andb_comm (pendingDhRatchet b)). naive_solver.
Qed.

Lemma swap_swap n : swap (swap n) = n.
Proof. by destruct n. Qed.

Lemma frames_ok_app hk key n ck q1 q2 :
  frames_ok hk key n ck (q1 ++ q2) <->
  frames_ok hk key n ck q1 /\ frames_ok hk key (n + len q1) (ckN (length q1) ck) q2.
Proof.
  revert n ck. induction q1 as [|f q1 IH]; intros n ck; simpl.
  - unfold len. simpl. rewrite Z.add_0_r. naive_solver.
  - rewrite IH. unfold len. simpl.
    replace (n + 1 + Z.of_nat (length q1)) with (n + Z.of_nat (S (length q1))) by lia.
    naive_solver.
Qed.

Lemma frames_ok_snoc hk key n ck q f :
  frames_ok hk key n ck q ->
  good_frame hk key (n + len q) (msgKey (ckN (length q) ck)) (fl_name f) (fl_text f) (fl_wire f) ->
  frames_ok hk key n ck (q ++ [f]).
Proof. intros H Hf. apply frames_ok_app. by split. Qed.

Lemma len_snoc {A} (q : list A) f : len (q ++ [f]) = len q + 1.
Proof. unfold len. rewrite length_app. simpl. lia. Qed.

(** What the send side of a state change leaves alone. *)
Lemma sendRatchet_same rnd sp :
  HmacKey (sendRatchet rnd sp) = HmacKey sp /\ RemoteDhPublic (sendRatchet rnd sp) = RemoteDhPublic sp /\
  RecvCk (sendRatchet rnd sp) = RecvCk sp /\ RecvNonce (sendRatchet rnd sp) = RecvNonce sp /\
  SkippedMessages (sendRatchet rnd sp) = SkippedMessages sp /\
  pendingDhRatchet (sendRatchet rnd sp) = false.
Proof.
  unfold sendRatchet. destruct (pendingDhRatchet sp) eqn:Hp; [|done].
  cbn [GenerateX25519KeyPair]. destruct (rootStep _). done.
Qed.

Lemma sendRatchet_idle rnd sp : pendingDhRatchet sp = false -> sendRatchet rnd sp = sp.
Proof. unfold sendRatchet. by intros ->. Qed.

Lemma wf_afterSend s : wf_peer s -> SendNonce s < 2 ^ 31 -> wf_peer (afterSend s).
Proof.
  intros [] Hn. split; try done. cbn -[i64]. rewrite i64_small by lia. lia.
Qed.

Lemma wf_sendRatchet rnd sp : length rnd = 32%nat -> wf_peer sp -> wf_peer (sendRatchet rnd sp).
Proof.
  intros Hr []. unfold sendRatchet. destruct (pendingDhRatchet sp); [|done].
  cbn [GenerateX25519KeyPair]. destruct (rootStep _). split; simpl; done.
Qed.

Lemma SendNonce_afterSend s : 0 <= SendNonce s < 2 ^ 31 -> SendNonce (afterSend s) = SendNonce s + 1.
Proof. intros Hn. cbn -[i64]. apply i64_small. lia. Qed.

Lemma RecvNonce_afterRecv s : 0 <= RecvNonce s < 2 ^ 31 -> RecvNonce (afterRecv s) = RecvNonce s + 1.
Proof. intros Hn. cbn -[i64]. apply i64_small. lia. Qed.

(** A sender that keeps its key extends the chain its peer reads. *)
Lemma linked_send x y q name pt wire :
  wf_peer x -> SendNonce x < 2 ^ 31 -> HmacKey x = HmacKey y ->
  linked x y q ->
  good_frame (HmacKey x) (DhPublic x) (SendNonce x) (msgKey (SendCk x)) name pt wire ->
  linked (afterSend x) y (q ++ [Flight wire name pt]).
Proof.
  intros Hwf Hn Hh (Hr & Hf & Hck & Hsn) Hg.
  split; [done|]. split; [|split].
  - apply frames_ok_snoc; [done|]. cbn. by rewrite <- Hh, <- Hck, <- Hsn.
  - cbn. rewrite Hck, length_app, Nat.add_1_r. by rewrite ckN_S.
  - rewrite SendNonce_afterSend, len_snoc by (destruct Hwf; lia). lia.
Qed.

Lemma switching_send x y q name pt wire :
  wf_peer x -> SendNonce x < 2 ^ 31 -> HmacKey x = HmacKey y ->
  switching x y q ->
  good_frame (HmacKey x) (DhPublic x) (SendNonce x) (msgKey (SendCk x)) name pt wire ->
  switching (afterSend x) y (q ++ [Flight wire name pt]).
Proof.
  intros Hwf Hn Hh (old & q1 & q2 & -> & Hne & Hr & Ho & Hf1 & Hroot & Hf2 & Hck & Hsn) Hg.
  exists old, q1, (q2 ++ [Flight wire name pt]). rewrite app_assoc.
  cbv zeta. change (DhPublic (afterSend x)) with (DhPublic x).
  change (RootKey (afterSend x)) with (RootKey x).
  change (SendCk (afterSend x)) with (nextCk (SendCk x)).
  repeat split; try done; [by destruct q2| | |].
  - apply frames_ok_snoc; [done|]. cbn [fl_name fl_text fl_wire].
    by rewrite <- Hh, <- Hck, Z.add_0_l, <- Hsn.
  - rewrite Hck, length_app, Nat.add_1_r. by rewrite ckN_S.
  - rewrite SendNonce_afterSend, len_snoc by (destruct Hwf; lia). lia.
Qed.

(** The two ends of a key rotation compute the same root and chain keys. *)
Lemma rootStep_agree rnd x y :
  length rnd = 32%nat -> wf_peer y ->
  RemoteDhPublic x = Some (DhPublic y) -> RootKey x = RootKey y ->
  rootStep (set_DhPrivate rnd (set_DhPublic (x25519_base rnd) x))
  = rootStep (set_RemoteDhPublic (Some (x25519_base rnd)) y).
Proof.
  intros Hr [Hpub Hlen _ _ _] Hrem Hroot. unfold rootStep. cbn.
  rewrite Hrem, Hroot. cbn [nilBytes]. rewrite Hpub, x25519_comm by done. done.
Qed.

Lemma DhRatchet_keys sp k :
  let r := rootStep (set_RemoteDhPublic k sp) in
  RootKey (DhRatchet sp k) = r.1 /\ RecvCk (DhRatchet sp k) = r.2.
Proof. unfold DhRatchet. by destruct (rootStep _). Qed.

Lemma rotate_send rnd x y q :
  length rnd = 32%nat -> x25519_base rnd ≠ DhPublic x -> wf_peer y -> pendingDhRatchet x = true ->
  RemoteDhPublic x = Some (DhPublic y) -> RootKey x = RootKey y -> HmacKey x = HmacKey y ->
  linked x y q ->
  let s := sendRatchet rnd x in
  let y' := DhRatchet y (Some (DhPublic s)) in
  DhPublic s = x25519_base rnd /\ RootKey s = RootKey y' /\ SendCk s = RecvCk y' /\ SendNonce s = 0.
Proof.
  intros Hr Hne Hwf Hp Hrem Hroot Hh Hl. cbv zeta.
  rewrite (proj1 (DhRatchet_keys _ _)), (proj2 (DhRatchet_keys _ _)).
  unfold sendRatchet. rewrite Hp.
  cbn [GenerateX25519KeyPair]. rewrite (rootStep_agree rnd x y) by done.
  destruct (rootStep (set_RemoteDhPublic (Some (x25519_base rnd)) y)) as [root ck] eqn:E.
  change (DhPublic _) with (x25519_base rnd). by rewrite E.
Qed.

(** What [linked] and [switching] depend on. *)
Lemma linked_ext x x' y y' q :
  DhPublic x' = DhPublic x -> SendCk x' = SendCk x -> SendNonce x' = SendNonce x ->
  RemoteDhPublic y' = RemoteDhPublic y -> HmacKey y' = HmacKey y ->
  RecvNonce y' = RecvNonce y -> RecvCk y' = RecvCk y ->
  linked x y q -> linked x' y' q.
Proof. unfold linked. by intros -> -> -> -> -> -> ->. Qed.

Lemma switching_ext x x' y y' q :
  DhPublic x' = DhPublic x -> SendCk x' = SendCk x -> SendNonce x' = SendNonce x ->
  RootKey x' = RootKey x ->
  RemoteDhPublic y' = RemoteDhPublic y -> HmacKey y' = HmacKey y ->
  RecvNonce y' = RecvNonce y -> RecvCk y' = RecvCk y ->
  RootKey y' = RootKey y -> DhPrivate y' = DhPrivate y ->
  switching x y q -> switching x' y' q.
Proof.
  unfold switching. intros Hd Hc Hn Hr Hrem Hh Hrn Hrc Hry Hp (old & q1 & q2 & H).
  exists old, q1, q2. revert H. cbv zeta.
  rewrite !(proj1 (DhRatchet_keys _ _)), !(proj2 (DhRatchet_keys _ _)).
  assert (rootStep (set_RemoteDhPublic (Some (DhPublic x')) y')
          = rootStep (set_RemoteDhPublic (Some (DhPublic x)) y)) as ->
    by (unfold rootStep; cbn; by rewrite Hd, Hry, Hp).
  by rewrite Hd, Hc, Hn, Hr, Hrem, Hh, Hrn, Hrc.
Qed.

Lemma switching_start s old y q name pt wire :
  RemoteDhPublic y = Some old -> old ≠ DhPublic s ->
  frames_ok (HmacKey y) old (RecvNonce y) (RecvCk y) q ->
  RootKey s = RootKey (DhRatchet y (Some (DhPublic s))) ->
  SendCk s = RecvCk (DhRatchet y (Some (DhPublic s))) ->
  SendNonce s = 0 -> HmacKey s = HmacKey y ->
  good_frame (HmacKey s) (DhPublic s) (SendNonce s) (msgKey (SendCk s)) name pt wire ->
  switching (afterSend s) y (q ++ [Flight wire name pt]).
Proof.
  intros Hrem Hne Hf Hroot Hck Hn Hh Hg. exists old, q, [Flight wire name pt].
  cbv zeta. change (DhPublic (afterSend s)) with (DhPublic s).
  change (RootKey (afterSend s)) with (RootKey s).
  change (SendCk (afterSend s)) with (nextCk (SendCk s)).
  rewrite <- Hck, SendNonce_afterSend, Hn by (rewrite Hn; done).
  cbn [frames_ok fl_wire fl_name fl_text]. rewrite Hh, Hn in Hg.
  repeat split; try done; rewrite Hh; done.
Qed.

Lemma DhRatchet_same sp k :
  HmacKey (DhRatchet sp k) = HmacKey sp /\ RemoteDhPublic (DhRatchet sp k) = k /\
  SendCk (DhRatchet sp k) = SendCk sp /\ SendNonce (DhRatchet sp k) = SendNonce sp /\
  DhPublic (DhRatchet sp k) = DhPublic sp /\ DhPrivate (DhRatchet sp k) = DhPrivate sp /\
  RecvNonce (DhRatchet sp k) = 0 /\ SkippedMessages (DhRatchet sp k) = SkippedMessages sp.
Proof. unfold DhRatchet. by destruct (rootStep _). Qed.

Lemma wf_DhRatchet sp k : wf_peer sp -> wf_peer (DhRatchet sp k).
Proof.
  intros []. destruct (DhRatchet_same sp k) as (_ & _ & _ & Hs & Hd & Hp & Hr & Hk).
  split; rewrite ?Hs, ?Hd, ?Hp, ?Hr, ?Hk; done.
Qed.

Lemma wf_afterRecv s : wf_peer s -> RecvNonce s < 2 ^ 31 -> wf_peer (afterRecv s).
Proof. intros [] Hn. split; try done. cbn -[i64]. rewrite i64_small by lia. lia. Qed.

(** Skipping touches the receive chain and the stash only. *)
Lemma skipUntil_keeps n sp :
  RemoteDhPublic (skipUntil n sp) = RemoteDhPublic sp /\
  pendingDhRatchet (skipUntil n sp) = pendingDhRatchet sp /\ RootKey (skipUntil n sp) = RootKey sp.
Proof.
  unfold skipUntil. generalize (Z.to_nat (n - RecvNonce sp)) as k. intros k. revert sp.
  induction k as [|k IH]; intros sp; cbn [skipLoop]; [done|].
  destruct (_ <? _); [|done]. destruct (IH (stashKey sp)) as (-> & -> & ->).
  unfold stashKey. by destruct (RatchetStep _).
Qed.

(** ** Sending *)
Lemma send_a rnd name pt wire a a' b ab ba :
  send_ok rnd a -> Encrypt rnd a name pt = (a', Ok wire) ->
  synced (Net a b ab ba) -> synced (Net a' b (ab ++ [Flight wire name pt]) ba).
Proof.
  intros (Hr & Hne & Hlt) He (Hwa & Hwb & Hh & Hs).
  pose proof (wf_sendRatchet rnd a Hr Hwa) as Hws.
  destruct (Encrypt_good _ _ _ _ _ _ He) as [-> Hg]; [destruct Hws; lia|].
  destruct (sendRatchet_same rnd a) as (S1 & S2 & S3 & S4 & S5 & S6).
  split; [by apply wf_afterSend|]. split; [done|]. split; [cbn; congruence|].
  destruct Hs as [(Hab & Hba & Hroot & Hpend)|[(Hab & Hba & Hpa & Hpb)|(Hba & Hab & Hpb & Hpa)]].
  - destruct (pendingDhRatchet a) eqn:Hp.
    + right; left. destruct (rotate_send rnd a b ab) as (R1 & R2 & R3 & R4); try done.
      { by destruct Hba. }
      split; [|split; [|split; [done|by destruct (pendingDhRatchet b)]]].
      * destruct Hab as (Hrem & Hf & Hck & Hsn).
        apply (switching_start _ (DhPublic a)); try done; congruence.
      * eapply linked_ext; [..|exact Hba]; done.
    + rewrite sendRatchet_idle in * by done. left. split; [by apply linked_send|].
      split; [by eapply linked_ext; [..|exact Hba]|]. split; [done|]. cbn. by rewrite Hp.
  - rewrite sendRatchet_idle in * by done. right; left. split; [by apply switching_send|].
    split; [by eapply linked_ext; [..|exact Hba]|]. done.
  - rewrite sendRatchet_idle in * by done. right; right. split; [by eapply switching_ext; [..|exact Hba]|].
    split; [by apply linked_send|]. done.
Qed.

(** ** Receiving *)
Lemma chain_recv y key f q :
  wf_peer y -> RemoteDhPublic y = Some key ->
  frames_ok (HmacKey y) key (RecvNonce y) (RecvCk y) (f :: q) ->
  Decrypt y (fl_wire f) = (afterRecv y, Ok (fl_name f, fl_text f)) /\ RecvNonce y < 2 ^ 31 /\
  RecvNonce (afterRecv y) = RecvNonce y + 1 /\
  frames_ok (HmacKey y) key (RecvNonce (afterRecv y)) (RecvCk (afterRecv y)) q.
Proof.
  intros Hwf Hrem [Hg Hf].
  assert (RecvNonce y < 2 ^ 31) as Hlt by (destruct Hg as (? & ? & ?); naive_solver).
  split; [|split; [done|]].
  - eapply Decrypt_next; [exact Hg|done|]. by rewrite (wf_skipped _ Hwf), lookup_empty.
  - destruct Hwf. by rewrite RecvNonce_afterRecv by lia.
Qed.

Lemma linked_recv x y f q :
  wf_peer y -> linked x y (f :: q) ->
  Decrypt y (fl_wire f) = (afterRecv y, Ok (fl_name f, fl_text f)) /\
  RecvNonce y < 2 ^ 31 /\ linked x (afterRecv y) q.
Proof.
  intros Hwf (Hrem & Hf & Hck & Hsn).
  destruct (chain_recv _ _ _ _ Hwf Hrem Hf) as (Hd & Hlt & Hn & Hq).
  split; [done|]. split; [done|]. split; [done|]. split; [done|]. split; [done|].
  rewrite Hsn, Hn. unfold len. simpl. lia.
Qed.

(** Meeting the first frame of a rotated chain, or the last frames of the old one. *)
Lemma switching_recv x y f q :
  wf_peer y -> switching x y (f :: q) ->
  exists y', Decrypt y (fl_wire f) = (y', Ok (fl_name f, fl_text f)) /\ wf_peer y' /\
    HmacKey y' = HmacKey y /\ DhPublic y' = DhPublic y /\ SendCk y' = SendCk y /\ SendNonce y' = SendNonce y /\
    ((switching x y' q /\ pendingDhRatchet y' = pendingDhRatchet y /\ RootKey y' = RootKey y) \/
     (linked x y' q /\ RootKey x = RootKey y')).
Proof.
  intros Hwf (old & [|g q1] & q2 & Hq & Hne & Hrem & Hold & Hf1 & H); cbv zeta in H;
    destruct H as (Hroot & Hf2 & Hck & Hsn).
  - cbn [app] in Hq. subst q2. destruct Hf2 as [Hg Hf2].
    destruct (DhRatchet_same y (Some (DhPublic x))) as (D1 & D2 & D3 & D4 & D5 & D6 & D7 & D8).
    assert (Decrypt y (fl_wire f)
      = (afterRecv (DhRatchet y (Some (DhPublic x))), Ok (fl_name f, fl_text f))) as Hd.
    { eapply Decrypt_rotated; [exact Hg|done|done|]. by rewrite (wf_skipped _ Hwf), lookup_empty. }
    pose proof (wf_DhRatchet y (Some (DhPublic x)) Hwf) as Hw1.
    generalize dependent (DhRatchet y (Some (DhPublic x))). intros y1 *.
    exists (afterRecv y1). cbn [afterRecv].
    split; [done|]. split; [apply wf_afterRecv; [done|rewrite D7; done]|].
    repeat (split; [done|]). right. split; [|done].
    split; [done|]. rewrite RecvNonce_afterRecv, D7 by (rewrite D7; done). split; [|split].
    + change (HmacKey (afterRecv y1)) with (HmacKey y1). by rewrite D1.
    + done.
    + rewrite Hsn. unfold len. simpl. lia.
  - injection Hq as <- ->.
    destruct (chain_recv _ _ _ _ Hwf Hrem Hf1) as (Hd & Hlt & _ & Hf).
    exists (afterRecv y). split; [done|]. split; [by apply wf_afterRecv|].
    do 4 (split; [done|]). left. split; [|done].
    exists old, q1, q2. repeat split; try done.
    all: cbv zeta; rewrite ?(proj1 (DhRatchet_keys _ _)), ?(proj2 (DhRatchet_keys _ _)) in *; done.
Qed.

Lemma recv_b f r a b b' ab ba :
  Decrypt b (fl_wire f) = (b', r) ->
  synced (Net a b (f :: ab) ba) ->
  r = Ok (fl_name f, fl_text f) /\ synced (Net a b' ab ba).
Proof.
  intros Hd (Hwa & Hwb & Hh & [(Hab & Hba & Hroot & Hp)|[(Hab & Hba & Hpa & Hpb)|(Hba & Hab & Hpb & Hpa)]]).
  - destruct (linked_recv _ _ _ _ Hwb Hab) as (Hd' & Hlt & Hl).
    rewrite Hd' in Hd. injection Hd as <- <-. split; [done|].
    split; [done|]. split; [by apply wf_afterRecv|]. split; [done|]. left.
    split; [done|]. split; [by eapply linked_ext; [..|exact Hba]|done].
  - destruct (switching_recv _ _ _ _ Hwb Hab) as (y & Hd' & Hwy & E1 & E2 & E3 & E4 & Hcase).
    rewrite Hd' in Hd. injection Hd as <- <-. split; [done|].
    split; [done|]. split; [done|]. split; [congruence|].
    assert (linked y a ba) as Hya by (eapply linked_ext; [..|exact Hba]; done).
    destruct Hcase as [(Hs & Hpy & _)|(Hl & Hr)].
    + right; left. split; [done|]. split; [done|]. by rewrite Hpy.
    + left. split; [done|]. split; [done|]. split; [done|]. by rewrite Hpa.
  - destruct (linked_recv _ _ _ _ Hwb Hab) as (Hd' & Hlt & Hl).
    rewrite Hd' in Hd. injection Hd as <- <-. split; [done|].
    split; [done|]. split; [by apply wf_afterRecv|]. split; [done|]. right; right.
    split; [by eapply switching_ext; [..|exact Hba]|]. done.
Qed.

Lemma reload_synced a b ab ba : synced (Net a b ab ba) -> synced (Net (reload a) b ab ba).
Proof.
  intros (Hwa & Hwb & Hh & Hs). split; [by destruct Hwa|]. split; [done|]. split; [done|].
  destruct Hs as [(Hab & Hba & Hroot & Hp)|[(Hab & Hba & Hpa & Hpb)|(Hba & Hab & Hpb & Hpa)]].
  - left. unfold quiet. conjs; try done; by eapply linked_ext; [..|eassumption].
  - right; left. split; [by eapply switching_ext; [..|exact Hab]|].
    split; [by eapply linked_ext; [..|exact Hba]|done].
  - right; right. split; [by eapply switching_ext; [..|exact Hba]|].
    split; [by eapply linked_ext; [..|exact Hab]|done].
Qed.

(** ** Every step *)
Lemma step_synced n e n' : step n e n' -> synced n -> synced n' /\ faithful e.
Proof.
  intros Hstep Hs. destruct Hstep as [rnd name pt wire a a' b ab ba|rnd name pt wire a b b' ab ba|f r a b b' ab ba|f r a a' b ab ba|a b ab ba|a b ab ba].
  - split; [by eapply send_a|done].
  - split; [|done]. apply synced_swap in Hs. rewrite <- (swap_swap (Net _ _ _ _)).
    apply synced_swap. by eapply send_a.
  - edestruct recv_b as [-> ?]; [done|done|]. done.
  - apply synced_swap in Hs. edestruct recv_b as [-> Hs']; [done|exact Hs|].
    split; [|done]. rewrite <- (swap_swap (Net _ _ _ _)). by apply synced_swap.
  - split; [by apply reload_synced|done].
  - split; [|done]. apply synced_swap in Hs. rewrite <- (swap_swap (Net _ _ _ _)).
    by apply synced_swap, reload_synced.
Qed.

Lemma steps_synced n es n' : steps n es n' -> synced n -> synced n' /\ Forall faithful es.
Proof.
  induction 1 as [|n1 e n2 es n3 H1 H2 IH]; intros Hs; [done|].
  destruct (step_synced _ _ _ H1 Hs) as [Hs2 He]. destruct (IH Hs2) as [Hs3 Hes].
  split; [done|]. by constructor.
Qed.

(** ** A lost token *)

(** Nobody may rotate: the chains are in step and neither side is pending. *)
Definition frozen (n : net) : Prop :=
  let '(Net a b ab ba) := n in
  wf_peer a /\ wf_peer b /\ HmacKey a = HmacKey b /\ linked a b ab /\ linked b a ba /\
  pendingDhRatchet a = false /\ pendingDhRatchet b = false.

Definition keys_of (n : net) : bytes * bytes := (DhPublic (side_a n), DhPublic (side_b n)).

Lemma frozen_swap n : frozen n -> frozen (swap n).
Proof. destruct n as [a b ab ba]. unfold frozen, swap. naive_solver. Qed.

Lemma frozen_send_a rnd name pt wire a a' b ab ba :
  send_ok rnd a -> Encrypt rnd a name pt = (a', Ok wire) -> frozen (Net a b ab ba) ->
  frozen (Net a' b (ab ++ [Flight wire name pt]) ba) /\ DhPublic a' = DhPublic a.
Proof.
  intros (_ & _ & Hlt) He (Hwa & Hwb & Hh & Hab & Hba & Hpa & Hpb).
  pose proof (Encrypt_good _ _ _ _ _ _ He) as Hg. cbv zeta in Hg.
  rewrite sendRatchet_idle in * by done.
  destruct Hg as [-> Hg]; [destruct Hwa; lia|].
  split; [|done]. split; [by apply wf_afterSend|]. split; [done|]. split; [done|].
  split; [by apply linked_send|]. split; [by eapply linked_ext; [..|exact Hba]|]. done.
Qed.

Lemma frozen_recv_b f r a b b' ab ba :
  Decrypt b (fl_wire f) = (b', r) -> frozen (Net a b (f :: ab) ba) ->
  frozen (Net a b' ab ba) /\ DhPublic b' = DhPublic b.
Proof.
  intros Hd (Hwa & Hwb & Hh & Hab & Hba & Hpa & Hpb).
  destruct (linked_recv _ _ _ _ Hwb Hab) as (Hd' & Hlt & Hl).
  rewrite Hd' in Hd. injection Hd as <- <-. split; [|done].
  split; [done|]. split; [by apply wf_afterRecv|]. split; [done|]. split; [done|].
  split; [by eapply linked_ext; [..|exact Hba]|done].
Qed.

Lemma frozen_step n e n' : step n e n' -> frozen n -> frozen n' /\ keys_of n' = keys_of n.
Proof.
  intros Hstep Hf. unfold keys_of.
  destruct Hstep as [rnd name pt wire a a' b ab ba Hok He|rnd name pt wire a b b' ab ba Hok He|f r a b b' ab ba Hd|f r a a' b ab ba Hd|a b ab ba|a b ab ba].
  - destruct (frozen_send_a _ _ _ _ _ _ _ _ _ Hok He Hf) as [? Hk]. cbn. by rewrite Hk.
  - destruct (frozen_send_a _ _ _ _ _ _ _ _ _ Hok He (frozen_swap _ Hf)) as [Hf' Hk].
    split; [exact (frozen_swap _ Hf')|]. cbn. by rewrite Hk.
  - destruct (frozen_recv_b _ _ _ _ _ _ _ Hd Hf) as [? Hk]. cbn. by rewrite Hk.
  - destruct (frozen_recv_b _ _ _ _ _ _ _ Hd (frozen_swap _ Hf)) as [Hf' Hk].
    split; [exact (frozen_swap _ Hf')|]. cbn. by rewrite Hk.
  - destruct Hf as (Hwa & Hwb & Hh & Hab & Hba & Hpa & Hpb). split; [|done].
    unfold frozen. conjs; try done; try (by destruct Hwa); by eapply linked_ext; [..|eassumption].
  - destruct Hf as (Hwa & Hwb & Hh & Hab & Hba & Hpa & Hpb). split; [|done].
    unfold frozen. conjs; try done; try (by destruct Hwb); by eapply linked_ext; [..|eassumption].
Qed.

Lemma frozen_steps n es n' : steps n es n' -> frozen n -> keys_of n' = keys_of n.
Proof.
  induction 1 as [|n1 e n2 es n3 H1 H2 IH]; intros Hf; [done|].
  destruct (frozen_step _ _ _ H1 Hf) as [Hf2 <-]. by apply IH.
Qed.

Lemma reload_frozen a b ab ba :
  wf_peer a -> wf_peer b -> HmacKey a = HmacKey b -> quiet a b ab ba ->
  frozen (Net (reload a) (reload b) ab ba).
Proof.
  intros Hwa Hwb Hh (Hab & Hba & _ & _).
  unfold frozen. conjs; try done; try (by destruct Hwa); try (by destruct Hwb); by eapply linked_ext; [..|eassumption].
Qed.

End Session.
