(* ===== verification/Reorder.v ===== *)
(** * Loss, reordering and duplication inside one key epoch

    Between two key rotations a receiver reads one chain of consecutive
    messages.  [deliverAll] hands it frames in any order, any number of times;
    [reorderSpec] is what must come out: the plaintext the first time a frame
    is seen, [ErrReplay] every further time.  The stash of skipped keys
    ([SkippedMessages]) makes the two agree. *)
From S2P Require Import Prelude GoStd Sha256 External SecurePeer SecurePeerFacts Session.
#[local] Open Scope Z_scope.

Section Reorder.
Context `{N : Nanopack} `{NL : !NanopackLaws} `{P : Prims} `{PL : !PrimLaws}.

(** Frames handed to a session one after another, and every result. *)
Fixpoint deliverAll (sp : SecurePeer) (ws : list bytes) : SecurePeer * list (res dec_err (bytes * bytes)) :=
  match ws with
  | [] => (sp, [])
  | w :: ws => let '(sp1, r) := Decrypt sp w in
               let '(sp2, rs) := deliverAll sp1 ws in (sp2, r :: rs)
  end.

(** The bytes of the [i]-th frame sent. *)
Definition wireAt (frames : list flight) (i : nat) : bytes :=
  match frames !! i with Some f => fl_wire f | None => [] end.

(** Exactly-once delivery: [top] is one past the highest frame met so far,
    [seen] the frames already delivered, [n0] the number of frame 0. *)
Fixpoint reorderSpec (n0 : Z) (frames : list flight) (top : nat) (seen order : list nat)
  : list (res dec_err (bytes * bytes)) :=
  match order with
  | [] => []
  | i :: order =>
      (if decide (i ∈ seen) then Err (ErrReplay (n0 + Z.of_nat i) (n0 + Z.of_nat top))
       else match frames !! i with Some f => Ok (fl_name f, fl_text f) | None => Panic end)
      :: reorderSpec n0 frames (Nat.max top (S i)) (i :: seen) order
  end.

(** Skip key of message [i] of the chain that starts at [n0]. *)
Definition skipKey (key : bytes) (n0 : Z) (i : nat) : bytes :=
  getSkipKeyStr (b64Encode key) (n0 + Z.of_nat i).

#[global] Instance skipKey_inj key n0 : Inj (=) (=) (skipKey key n0).
Proof. intros i j H. apply getSkipKeyStr_inj in H as [_ H]. lia. Qed.

(** The receiver has met [top] messages of the chain and delivered [seen]. *)
Record reading (hk key : bytes) (n0 : Z) (ck : bytes) (top : nat) (seen : list nat) (sp : SecurePeer) : Prop := {
  rd_hmac : HmacKey sp = hk;
  rd_remote : RemoteDhPublic sp = Some key;
  rd_nonce : RecvNonce sp = n0 + Z.of_nat top;
  rd_ck : RecvCk sp = ckN top ck;
  rd_top : Forall (fun i => i < top)%nat seen;
  rd_skip : forall i, SkippedMessages sp !! skipKey key n0 i
            = if decide (i < top /\ i ∉ seen)%nat then Some (msgKey (ckN i ck)) else None;
}.

Lemma frames_ok_lookup hk key n ck q i f :
  frames_ok hk key n ck q -> q !! i = Some f ->
  good_frame hk key (n + Z.of_nat i) (msgKey (ckN i ck)) (fl_name f) (fl_text f) (fl_wire f).
Proof.
  revert n ck i. induction q as [|g q IH]; intros n ck i; [done|]. intros [Hg Hq].
  destruct i as [|i]; cbn [ckN lookup list_lookup].
  - intros [= <-]. by rewrite Z.add_0_r.
  - intros Hi. specialize (IH _ _ _ Hq Hi). rewrite Nat2Z.inj_succ.
    by replace (n + Z.succ (Z.of_nat i)) with (n + 1 + Z.of_nat i) by lia.
Qed.

(** One turn of the skipping loop meets one more message without delivering it. *)
Lemma reading_stash hk key n0 ck top seen sp :
  0 <= n0 -> n0 + Z.of_nat top < 2 ^ 31 -> reading hk key n0 ck top seen sp ->
  reading hk key n0 ck (S top) seen (stashKey sp).
Proof.
  intros H0 Hlt [Hh Hr Hn Hck Ht Hs]. unfold stashKey. rewrite RatchetStep_eq.
  split; cbn [HmacKey RemoteDhPublic RecvNonce RecvCk SkippedMessages set_RecvNonce set_SkippedMessages set_RecvCk].
  - done.
  - done.
  - rewrite Hn, i64_small by lia. lia.
  - by rewrite Hck, ckN_S.
  - eapply List.Forall_impl; [|exact Ht]. simpl. lia.
  - intros i. rewrite Hr, Hn. cbn [nilBytes]. fold (skipKey key n0 top).
    destruct (decide (i = top)) as [->|Hne].
    + rewrite lookup_insert_eq, decide_True, Hck; [done|]. split; [lia|].
      intros Hin. apply list_elem_of_In in Hin. rewrite List.Forall_forall in Ht. specialize (Ht _ Hin). lia.
    + rewrite lookup_insert_ne, Hs by (intros E; apply (inj _) in E; lia).
      apply decide_ext. split; intros [? ?]; (split; [lia|done]).
Qed.

Lemma reading_skip hk key n0 ck seen k : forall top sp,
  0 <= n0 -> n0 + Z.of_nat (top + k) <= 2 ^ 31 -> reading hk key n0 ck top seen sp ->
  reading hk key n0 ck (top + k) seen (skipLoop k (n0 + Z.of_nat (top + k)) sp).
Proof.
  induction k as [|k IH]; intros top sp H0 Hlt Hrd; cbn [skipLoop].
  - by rewrite Nat.add_0_r.
  - rewrite (rd_nonce _ _ _ _ _ _ _ Hrd), (proj2 (Z.ltb_lt _ _)) by lia.
    replace (top + S k)%nat with (S top + k)%nat in * by lia.
    apply IH; [done|done|]. apply reading_stash; [done|lia|done].
Qed.

Lemma reading_skipUntil hk key n0 ck top seen i sp :
  0 <= n0 -> n0 + Z.of_nat i < 2 ^ 31 -> (top <= i)%nat -> reading hk key n0 ck top seen sp ->
  reading hk key n0 ck i seen (skipUntil (n0 + Z.of_nat i) sp).
Proof.
  intros H0 Hlt Hle Hrd. unfold skipUntil. rewrite (rd_nonce _ _ _ _ _ _ _ Hrd).
  replace (Z.to_nat _) with (i - top)%nat by lia.
  replace i with (top + (i - top))%nat at 1 3 by lia.
  apply reading_skip; [done|lia|done].
Qed.

(** ** The three ways a frame can be met *)
Lemma reading_fresh hk key n0 ck top seen sp i name pt wire :
  0 <= n0 -> good_frame hk key (n0 + Z.of_nat i) (msgKey (ckN i ck)) name pt wire -> (top <= i)%nat ->
  reading hk key n0 ck top seen sp ->
  exists sp', Decrypt sp wire = (sp', Ok (name, pt)) /\
    reading hk key n0 ck (S i) (i :: seen) sp'.
Proof.
  intros H0 Hg Hle Hrd.
  rewrite <- (rd_hmac _ _ _ _ _ _ _ Hrd) in Hg.
  destruct (Decrypt_good _ _ _ _ _ _ _ Hg) as (msg & -> & Hn & Hk & Hnon & Hb & Hd).
  pose proof (reading_skipUntil _ _ _ _ _ _ i _ H0 (proj2 Hb) Hle Hrd) as Hrd'.
  unfold decryptAuth. cbn [lowSecurity]. rewrite Hnon, Hk. cbn [nilBytes].
  rewrite (rd_skip _ _ _ _ _ _ _ Hrd i : _ !! getSkipKeyStr _ _ = _), decide_False by lia.
  rewrite (rd_remote _ _ _ _ _ _ _ Hrd), bytes_eqb_refl.
  rewrite (proj2 (Z.ltb_ge _ _)) by (rewrite (rd_nonce _ _ _ _ _ _ _ Hrd); lia).
  generalize dependent (skipUntil (n0 + Z.of_nat i) sp). intros s [Sh Sr Sn Sck St Ss].
  rewrite RatchetStep_eq, Sck, Hd, Hn. eexists. split; [done|].
  split; cbn [HmacKey RemoteDhPublic RecvNonce RecvCk SkippedMessages set_RecvNonce set_RecvCk].
  - congruence.
  - done.
  - rewrite Sn, i64_small by lia. lia.
  - by rewrite ckN_S.
  - constructor; [lia|]. eapply List.Forall_impl; [|exact St]. simpl. lia.
  - intros j. rewrite Ss. apply decide_ext. rewrite not_elem_of_cons.
    split; [intros [? ?]; repeat split; [lia|lia|done]|intros [? [? ?]]; split; [lia|done]].
Qed.

Lemma reading_late hk key n0 ck top seen sp i name pt wire :
  good_frame hk key (n0 + Z.of_nat i) (msgKey (ckN i ck)) name pt wire -> (i < top)%nat -> i ∉ seen ->
  reading hk key n0 ck top seen sp ->
  exists sp', Decrypt sp wire = (sp', Ok (name, pt)) /\
    reading hk key n0 ck top (i :: seen) sp'.
Proof.
  intros Hg Hlt Hns Hrd.
  rewrite <- (rd_hmac _ _ _ _ _ _ _ Hrd) in Hg.
  destruct (Decrypt_good _ _ _ _ _ _ _ Hg) as (msg & -> & Hn & Hk & Hnon & Hb & Hd).
  unfold decryptAuth. cbn [lowSecurity]. rewrite Hnon, Hk. cbn [nilBytes].
  rewrite (rd_skip _ _ _ _ _ _ _ Hrd i : _ !! getSkipKeyStr _ _ = _), decide_True by done.
  rewrite Hd, Hn. eexists. split; [done|]. destruct Hrd as [Sh Sr Sn Sck St Ss].
  split; cbn [HmacKey RemoteDhPublic RecvNonce RecvCk SkippedMessages set_SkippedMessages]; try done.
  - by constructor.
  - intros j. fold (skipKey key n0 i). destruct (decide (j = i)) as [->|Hne].
    + rewrite lookup_delete_eq, decide_False; [done|]. rewrite not_elem_of_cons. naive_solver.
    + rewrite lookup_delete_ne, Ss by (intros E; apply (inj _) in E; lia).
      apply decide_ext. rewrite not_elem_of_cons. naive_solver.
Qed.

Lemma reading_replay hk key n0 ck top seen sp i name pt wire :
  good_frame hk key (n0 + Z.of_nat i) (msgKey (ckN i ck)) name pt wire -> i ∈ seen ->
  reading hk key n0 ck top seen sp ->
  Decrypt sp wire = (sp, Err (ErrReplay (n0 + Z.of_nat i) (n0 + Z.of_nat top))).
Proof.
  intros Hg Hs Hrd.
  rewrite <- (rd_hmac _ _ _ _ _ _ _ Hrd) in Hg.
  destruct (Decrypt_good _ _ _ _ _ _ _ Hg) as (msg & -> & Hn & Hk & Hnon & Hb & Hd).
  assert (i < top)%nat as Hlt.
  { pose proof (rd_top _ _ _ _ _ _ _ Hrd) as Ht. rewrite List.Forall_forall in Ht.
    by apply Ht, list_elem_of_In. }
  unfold decryptAuth. cbn [lowSecurity]. rewrite Hnon, Hk. cbn [nilBytes].
  rewrite (rd_skip _ _ _ _ _ _ _ Hrd i : _ !! getSkipKeyStr _ _ = _), decide_False by naive_solver.
  rewrite (rd_remote _ _ _ _ _ _ _ Hrd), bytes_eqb_refl, (rd_nonce _ _ _ _ _ _ _ Hrd).
  by rewrite (proj2 (Z.ltb_lt _ _)) by lia.
Qed.

Lemma reading_deliver hk key n0 ck frames order : forall top seen sp,
  0 <= n0 -> frames_ok hk key n0 ck frames ->
  Forall (fun i => i < length frames)%nat order ->
  reading hk key n0 ck top seen sp ->
  (deliverAll sp (wireAt frames <$> order)).2
  = reorderSpec n0 frames top seen order.
Proof.
  induction order as [|i order IH]; intros top seen sp H0 Hf Hall Hrd; [done|].
  apply List.Forall_cons_iff in Hall as [Hi Hall].
  destruct (lookup_lt_is_Some_2 frames i Hi) as [f Hfi].
  cbn [deliverAll reorderSpec fmap list_fmap]. unfold wireAt at 1. rewrite Hfi. fold list_fmap.
  pose proof (frames_ok_lookup _ _ _ _ _ _ _ Hf Hfi) as Hg.
  destruct (decide (i ∈ seen)) as [Hin|Hin]; [|destruct (decide (top <= i)%nat) as [Hle|Hle]].
  - assert (i < top)%nat as Hlt.
    { pose proof (rd_top _ _ _ _ _ _ _ Hrd) as Ht. rewrite List.Forall_forall in Ht.
      by apply Ht, list_elem_of_In. }
    rewrite (reading_replay _ _ _ _ _ _ _ _ _ _ _ Hg Hin Hrd). rewrite Nat.max_l by lia.
    specialize (IH top (i :: seen) sp). destruct (deliverAll sp _) as [sp2 rs].
    cbn [snd]. f_equal. apply IH; [done|done|done|]. destruct Hrd as [Sh Sr Sn Sck St Ss]. split; try done.
    + by constructor.
    + intros j. rewrite Ss. apply decide_ext. rewrite not_elem_of_cons. naive_solver.
  - destruct (reading_fresh _ _ _ _ _ _ _ _ _ _ _ H0 Hg Hle Hrd) as (sp' & -> & Hrd').
    rewrite Nat.max_r by lia.
    specialize (IH (S i) (i :: seen) sp'). destruct (deliverAll sp' _) as [sp2 rs]. cbn [snd]. f_equal. by apply IH.
  - assert (i < top)%nat as Hlt by lia.
    destruct (reading_late _ _ _ _ _ _ _ _ _ _ _ Hg Hlt Hin Hrd) as (sp' & -> & Hrd').
    rewrite Nat.max_l by lia.
    specialize (IH top (i :: seen) sp'). destruct (deliverAll sp' _) as [sp2 rs]. cbn [snd]. f_equal. by apply IH.
Qed.

(** A receiver that has met nothing of the chain yet. *)
Lemma reading_start sp key :
  RemoteDhPublic sp = Some key ->
  (forall i, SkippedMessages sp !! skipKey key (RecvNonce sp) i = None) ->
  reading (HmacKey sp) key (RecvNonce sp) (RecvCk sp) 0 [] sp.
Proof.
  intros Hr Hs. split; try done; try (simpl; lia).
Qed.

End Reorder.
