(* ===== verification/Engine.v ===== *)
(** * core/: the handshake protocol ([models.go], [engine.go])

    Offers and answers with their wire codec, and the three stateless steps of
    the engine.  Key generation and offer IDs take the random bytes they draw;
    the decoder of the legacy JSON form ([encoding/json] on the same structs) is
    an interface of its own. *)
From S2P Require Import Prelude GoStd Sha256 External SecurePeer.
#[local] Open Scope Z_scope.

(** ** models.go *)
Record HandShakeOffer := mkOffer {
  of_SenderId : bytes;
  of_RecipientId : bytes;
  of_OfferID : bytes;
  of_IdPub : bytes;
  of_Pub : bytes;
  of_DhPub : option bytes;   (* None: nil *)
  of_KyberPub : bytes;
  of_DilithiumPub : bytes;
  of_Sign : bytes;
  of_DilithiumSign : bytes;
}.

Record HandShakeAnswer := mkAnswer {
  an_SenderId : bytes;
  an_RecipientId : bytes;
  an_OfferID : bytes;
  an_IdPub : bytes;
  an_Pub : bytes;
  an_DhPub : option bytes;
  an_KyberPub : bytes;
  an_KyberCiphertext : bytes;
  an_DilithiumPub : bytes;
  an_Sign : bytes;
  an_DilithiumSign : bytes;
}.

Definition emptyOffer : HandShakeOffer := mkOffer [] [] [] [] [] None [] [] [] [].
Definition emptyAnswer : HandShakeAnswer := mkAnswer [] [] [] [] [] None [] [] [] [] [].

Definition HandShakeOffer_MarshalBinID (o : HandShakeOffer) : fields :=
  [(x01, of_SenderId o); (x02, of_RecipientId o); (x03, of_OfferID o); (x04, of_IdPub o);
   (x05, of_Pub o); (x06, nilBytes (of_DhPub o)); (x07, of_KyberPub o);
   (x08, of_DilithiumPub o); (x09, of_Sign o); (x0a, of_DilithiumSign o)].

Definition HandShakeOffer_field (p : HandShakeOffer) (f : byte * bytes) : HandShakeOffer :=
  let '(mkOffer s r o i u d k l g h) := p in
  match f.1 with
  | x01 => mkOffer f.2 r o i u d k l g h
  | x02 => mkOffer s f.2 o i u d k l g h
  | x03 => mkOffer s r f.2 i u d k l g h
  | x04 => mkOffer s r o f.2 u d k l g h
  | x05 => mkOffer s r o i f.2 d k l g h
  | x06 => mkOffer s r o i u (Some f.2) k l g h
  | x07 => mkOffer s r o i u d f.2 l g h
  | x08 => mkOffer s r o i u d k f.2 g h
  | x09 => mkOffer s r o i u d k l f.2 h
  | x0a => mkOffer s r o i u d k l g f.2
  | _ => p
  end.

Definition HandShakeOffer_UnmarshalBinID (fs : fields) (p : HandShakeOffer) : HandShakeOffer :=
  fold_left HandShakeOffer_field fs p.

Definition HandShakeAnswer_MarshalBinID (a : HandShakeAnswer) : fields :=
  [(x01, an_SenderId a); (x02, an_RecipientId a); (x03, an_OfferID a); (x04, an_IdPub a);
   (x05, an_Pub a); (x06, nilBytes (an_DhPub a)); (x07, an_KyberPub a); (x08, an_KyberCiphertext a);
   (x09, an_DilithiumPub a); (x0a, an_Sign a); (x0b, an_DilithiumSign a)].

Definition HandShakeAnswer_field (p : HandShakeAnswer) (f : byte * bytes) : HandShakeAnswer :=
  let '(mkAnswer s r o i u d k c l g h) := p in
  match f.1 with
  | x01 => mkAnswer f.2 r o i u d k c l g h
  | x02 => mkAnswer s f.2 o i u d k c l g h
  | x03 => mkAnswer s r f.2 i u d k c l g h
  | x04 => mkAnswer s r o f.2 u d k c l g h
  | x05 => mkAnswer s r o i f.2 d k c l g h
  | x06 => mkAnswer s r o i u (Some f.2) k c l g h
  | x07 => mkAnswer s r o i u d f.2 c l g h
  | x08 => mkAnswer s r o i u d k f.2 l g h
  | x09 => mkAnswer s r o i u d k c f.2 g h
  | x0a => mkAnswer s r o i u d k c l f.2 h
  | x0b => mkAnswer s r o i u d k c l g f.2
  | _ => p
  end.

Definition HandShakeAnswer_UnmarshalBinID (fs : fields) (p : HandShakeAnswer) : HandShakeAnswer :=
  fold_left HandShakeAnswer_field fs p.

(** [json.Unmarshal] into the two structs, for peers that still send JSON. *)
Class LegacyJSON := {
  json_offer : bytes -> option HandShakeOffer;
  json_answer : bytes -> option HandShakeAnswer;
}.

(** Why a step of the handshake fails. *)
Inductive eng_err :=
| EngLegacyOffer | EngNanopackOffer | EngLegacyAnswer | EngNanopackAnswer
| EngKyberKeygen | EngPeerIdEncoding | EngMarshal
| EngMissingOfferID | EngNotForUs | EngSpoofed | EngReplay (peer : bytes)
| EngKyberPub | EngEncapsulate | EngHandshake (e : hs_err) | EngSenderIdEncoding
| EngMissingCiphertext | EngKyberPriv | EngDecapsulate | EngClientId.

#[export] Instance eng_err_dec : EqDecision eng_err.
Proof.
  assert (EqDecision hs_err) by solve_decision. solve_decision.
Defined.

Section Engine.
Context `{N : Nanopack} `{P : Prims} `{J : LegacyJSON}.

(** [len(b) > 0 && b[0] == '{'] *)
Definition isJSON (b : bytes) : bool := match b with x7b :: _ => true | _ => false end.

(** [cloneField]/[cloneAll] copy buffers: values are unchanged. *)
Definition decodeOffer (b : bytes) : res eng_err HandShakeOffer :=
  if isJSON b then ofOption EngLegacyOffer (json_offer b)
  else fs ← ofOption EngNanopackOffer (np_decode b); Ok (HandShakeOffer_UnmarshalBinID fs emptyOffer).

Definition decodeAnswer (b : bytes) : res eng_err HandShakeAnswer :=
  if isJSON b then ofOption EngLegacyAnswer (json_answer b)
  else fs ← ofOption EngNanopackAnswer (np_decode b); Ok (HandShakeAnswer_UnmarshalBinID fs emptyAnswer).

Definition PeekAnswerSenderID (b : bytes) : res eng_err bytes := an_SenderId <$> decodeAnswer b.

(** ** engine.go *)

(** The random bytes one call of [newPeer] draws. *)
Record PeerRand := mkPeerRand { rX : bytes; rDh : bytes; rKem : bytes }.

Definition newPeer (r : PeerRand) (expectedPeerHash : option bytes) (idPriv idPub dilPriv dilPub : bytes)
  : res eng_err SecurePeer :=
  let '(privX, pubX) := GenerateX25519KeyPair (rX r) in
  let '(dhPrivX, dhPubX) := GenerateX25519KeyPair (rDh r) in
  '(pqcPub, pqcPriv) ← ofOption EngKyberKeygen (kyber_keygen (rKem r));
  Ok {| ExpectedPeerHash := expectedPeerHash;
        IdentityPrivate := idPriv; IdentityPublic := idPub;
        PqcSignPrivate := dilPriv; PqcSignPublic := dilPub;
        Private := privX; Public := pubX;
        PqcPrivateKey := pqcPriv; PqcPublicKey := pqcPub;
        DhPrivate := dhPrivX; DhPublic := dhPubX; RemoteDhPublic := None;
        RootKey := []; SendCk := []; RecvCk := []; HmacKey := []; FileKey := [];
        SendNonce := 0; RecvNonce := 0; SkippedMessages := ∅; AmInitiator := false;
        RemotePendingKey := []; PubPendingKey := []; PrivPnedingKey := [];
        pendingDhRatchet := false; SeenOffers := ∅ |}.

(** Step 1: the new peer and the offer to send.  [offerId] are the 16 bytes of
    [GenerateOfferID]. *)
Definition CreateOffer (r : PeerRand) (offerId : bytes) (myId idPriv idPub dilPriv dilPub peerId : bytes)
  : res eng_err (SecurePeer * bytes) :=
  peer ← newPeer r None idPriv idPub dilPriv dilPub;
  peerIdBytes ← ofOption EngPeerIdEncoding (base58_decode peerId);
  sign ← GetSign peer offerId peerIdBytes;
  dilSign ← GetDilithiumSign peer offerId peerIdBytes;
  let offer := {|
    of_SenderId := myId; of_RecipientId := peerIdBytes; of_OfferID := offerId;
    of_IdPub := IdentityPublic peer; of_Pub := Public peer; of_DhPub := Some (DhPublic peer);
    of_KyberPub := PqcPublicKey peer; of_DilithiumPub := PqcSignPublic peer;
    of_Sign := sign; of_DilithiumSign := dilSign |} in
  offerWire ← ofOption EngMarshal (MarshalFastID (HandShakeOffer_MarshalBinID offer));
  Ok (peer, offerWire).

Definition offerKeys (o : HandShakeOffer) : PeerKeys :=
  mkPeerKeys (of_IdPub o) (of_Pub o) (of_DhPub o) (of_KyberPub o) (of_DilithiumPub o) (of_Sign o) (of_DilithiumSign o).

Definition answerKeys (a : HandShakeAnswer) : PeerKeys :=
  mkPeerKeys (an_IdPub a) (an_Pub a) (an_DhPub a) (an_KyberPub a) (an_DilithiumPub a) (an_Sign a) (an_DilithiumSign a).

(** The offers a session remembers; a nil map reads as empty. *)
Definition seenBy (existing : option SecurePeer) : gmap bytes bool :=
  match existing with Some sp => SeenOffers sp | None => ∅ end.

Definition seen (m : gmap bytes bool) (k : bytes) : bool := match m !! k with Some b => b | None => false end.

(** The answer to [offer] from a responder that has run its handshake. *)
Definition makeAnswer (responderPeer : SecurePeer) (offer : HandShakeOffer) (myId myIdBytes ciphertext : bytes)
  : res eng_err bytes :=
  senderIdBytes ← ofOption EngSenderIdEncoding (base58_decode (of_SenderId offer));
  sign ← GetSign responderPeer (of_OfferID offer) senderIdBytes;
  dilSign ← GetDilithiumSign responderPeer (of_OfferID offer) senderIdBytes;
  let answer := {|
    an_SenderId := myId; an_RecipientId := myIdBytes; an_OfferID := of_OfferID offer;
    an_IdPub := IdentityPublic responderPeer; an_Pub := Public responderPeer;
    an_DhPub := Some (DhPublic responderPeer); an_KyberPub := PqcPublicKey responderPeer;
    an_KyberCiphertext := ciphertext; an_DilithiumPub := PqcSignPublic responderPeer;
    an_Sign := sign; an_DilithiumSign := dilSign |} in
  ofOption EngMarshal (MarshalFastID (HandShakeAnswer_MarshalBinID answer)).

(** The checks an offer passes before any key material is made. *)
Definition checkOffer (myId : bytes) (existing : option SecurePeer) (offer : HandShakeOffer) : res eng_err unit :=
  check (len (of_OfferID offer) =? 0) EngMissingOfferID;;
  check (negb (bytes_eqb (base58_encode (of_RecipientId offer)) myId)) EngNotForUs;;
  check (negb (bytes_eqb (DerivePeerID (of_IdPub offer) (of_DilithiumPub offer)) (of_SenderId offer))) EngSpoofed;;
  check (seen (seenBy existing) (base58_encode (of_OfferID offer))) (EngReplay (of_SenderId offer)).

(** Step 2, after the offer is decoded: checks, key encapsulation, handshake,
    answer.  [existing] is [existingSessions[offer.SenderId]]. *)
Definition acceptDecoded (r : PeerRand) (rEncaps : bytes) (myId idPriv idPub dilPriv dilPub : bytes)
    (existing : option SecurePeer) (offer : HandShakeOffer) : res eng_err (bytes * SecurePeer * bytes) :=
  checkOffer myId existing offer;;
  let offerIDKey := base58_encode (of_OfferID offer) in
  responderPeer ← newPeer r None idPriv idPub dilPriv dilPub;
  let responderPeer := set_SeenOffers (<[offerIDKey := true]> (seenBy existing ∪ SeenOffers responderPeer)) responderPeer in
  check (negb (kyber_unpub (of_KyberPub offer))) EngKyberPub;;
  '(ciphertext, sharedSecret) ← ofOption EngEncapsulate (kyber_encaps (of_KyberPub offer) rEncaps);
  let myIdBytes := nilBytes (base58_decode myId) in
  let '(responderPeer, h) := Handshake responderPeer (offerKeys offer) sharedSecret (of_OfferID offer) myIdBytes in
  wrapErr EngHandshake h;;
  answerWire ← makeAnswer responderPeer offer myId myIdBytes ciphertext;
  Ok (of_SenderId offer, responderPeer, answerWire).

Definition AcceptOffer (r : PeerRand) (rEncaps : bytes) (myId idPriv idPub dilPriv dilPub : bytes)
    (existingSessions : bytes -> option SecurePeer) (offerBytes : bytes) : res eng_err (bytes * SecurePeer * bytes) :=
  offer ← decodeOffer offerBytes;
  acceptDecoded r rEncaps myId idPriv idPub dilPriv dilPub (existingSessions (of_SenderId offer)) offer.

(** Step 3: the pending peer is modified in place, so it is returned on every path. *)
Definition FinishHandshake (myId : bytes) (pendingPeer : SecurePeer) (answerBytes : bytes)
  : SecurePeer * res eng_err bytes :=
  match decodeAnswer answerBytes with
  | Err e => (pendingPeer, Err e)
  | Panic => (pendingPeer, Panic)
  | Ok answer =>
      if len (an_KyberCiphertext answer) =? 0 then (pendingPeer, Err EngMissingCiphertext) else
      if negb (bytes_eqb (DerivePeerID (an_IdPub answer) (an_DilithiumPub answer)) (an_SenderId answer))
      then (pendingPeer, Err EngSpoofed) else
      if negb (kyber_unpriv (PqcPrivateKey pendingPeer)) then (pendingPeer, Err EngKyberPriv) else
      match kyber_decaps (PqcPrivateKey pendingPeer) (an_KyberCiphertext answer) with
      | None => (pendingPeer, Err EngDecapsulate)
      | Some sharedSecret =>
          match base58_decode myId with
          | None => (pendingPeer, Err EngClientId)
          | Some myIdBytes =>
              let '(peer, h) := Handshake pendingPeer (answerKeys answer) sharedSecret (an_OfferID answer) myIdBytes in
              (peer, wrapErr EngHandshake h;; Ok (an_SenderId answer))
          end
      end
  end.

End Engine.
