(* ===== verification/EngineFacts.v ===== *)
(** * Facts about the handshake

    Offers and answers survive the wire, two honest parties that run
    [CreateOffer], [AcceptOffer] and [FinishHandshake] succeed, and the two
    sessions they hold afterwards are in step ([synced]). *)
From S2P Require Import Prelude GoStd Sha256 External SecurePeer SecurePeerFacts Session Engine.
#[local] Open Scope Z_scope.

Section EngineFacts.
Context `{N : Nanopack} `{NL : !NanopackLaws} `{P : Prims} `{PL : !PrimLaws} `{J : LegacyJSON}.

(** ** Wire round trips *)
Lemma not_json fs w : (length fs < 16)%nat -> np_encode fs = Some w -> isJSON w = false.
Proof.
  intros Hl Hw. apply np_encode_head in Hw. destruct w as [|b w]; [done|].
  injection Hw as ->. unfold isJSON.
  assert (Zb (byteZ (len fs)) < 16) as Hb.
  { rewrite Zb_byteZ. unfold len. rewrite Z.mod_small; lia. }
  by destruct (byteZ (len fs)).
Qed.

Lemma decodeOffer_wire o w :
  of_DhPub o ≠ None -> MarshalFastID (HandShakeOffer_MarshalBinID o) = Some w -> decodeOffer w = Ok o.
Proof.
  intros Hd Hw. unfold decodeOffer. assert (isJSON w = false) as -> by (eapply not_json; [|exact Hw]; simpl; lia).
  rewrite (np_decode_encode _ _ Hw). by destruct o as [? ? ? ? ? [d|] ? ? ? ?].
Qed.

Lemma decodeAnswer_wire a w :
  an_DhPub a ≠ None -> MarshalFastID (HandShakeAnswer_MarshalBinID a) = Some w -> decodeAnswer w = Ok a.
Proof.
  intros Hd Hw. unfold decodeAnswer. assert (isJSON w = false) as -> by (eapply not_json; [|exact Hw]; simpl; lia).
  rewrite (np_decode_encode _ _ Hw). by destruct a as [? ? ? ? ? [d|] ? ? ? ? ?].
Qed.

(** ** Roles and transcript *)
Lemma roles_differ a b :
  sha256 a ≠ sha256 b ->
  bytes_eqb (sortedByHash b a).1 a = negb (bytes_eqb (sortedByHash a b).1 b).
Proof.
  intros Hne. assert (a ≠ b) as Hab by congruence.
  unfold sortedByHash, bytes_ltb. rewrite (bytes_cmp_antisym (sha256 a) (sha256 b)).
  destruct (bytes_cmp (sha256 a) (sha256 b)) eqn:Hc; cbn [CompOpp fst].
  - by apply bytes_cmp_eq in Hc.
  - by rewrite bytes_eqb_refl, (proj2 (bytes_eqb_neq a b)).
  - by rewrite bytes_eqb_refl, (proj2 (bytes_eqb_neq b a)).
Qed.

Lemma GetTranscript_sym a b :
  GetTranscript a (IdentityPublic b) (Public b) (DhPublic b) (PqcPublicKey b)
  = GetTranscript b (IdentityPublic a) (Public a) (DhPublic a) (PqcPublicKey a).
Proof.
  unfold GetTranscript. do 3 f_equal. apply bytes_sort_proper.
  apply fmap_Permutation.
  apply (Permutation_app_comm [IdentityPublic a; Public a; DhPublic a; PqcPublicKey a]).
Qed.

(** The key block both sides cut their session keys from. *)
Definition keyBlock (sp : SecurePeer) (p : PeerKeys) (ecc ss : bytes) : bytes :=
  hkdf (nilBytes (x25519 (DhPrivate sp) (nilBytes (pkDhPublic p))))
    (hkdf (ecc ++ ss) (GetTranscript sp (pkIdentity p) (pkPublic p) (nilBytes (pkDhPublic p)) (pkKyber p))
       (str "initial-root") 32)
    (str "ratchet-root") 160.

Definition keyPart (i : nat) (mat : bytes) : bytes := take 32 (drop (32 * i) mat).

Definition initiates (sp : SecurePeer) (p : PeerKeys) : bool :=
  bytes_eqb (sortedByHash (pkIdentity p) (IdentityPublic sp)).1 (IdentityPublic sp).

(** Everything [establish] writes. *)
Lemma establish_eq sp p ecc ss :
  let s := establish sp p ecc ss in
  let m := keyBlock sp p ecc ss in
  let i := initiates sp p in
  SendCk s = keyPart (if i then 0 else 1) m /\ RecvCk s = keyPart (if i then 1 else 0) m /\
  RootKey s = keyPart 2 m /\ HmacKey s = keyPart 3 m /\ FileKey s = keyPart 4 m /\
  SendNonce s = 0 /\ RecvNonce s = 0 /\ RemoteDhPublic s = pkDhPublic p /\
  pendingDhRatchet s = (if i then pendingDhRatchet sp else true).
Proof.
  cbv zeta. unfold establish, initiates. cbv zeta.
  destruct (bytes_eqb _ _) eqn:Hi; repeat split.
Qed.

Lemma establish_same sp p ecc ss :
  let s := establish sp p ecc ss in
  DhPrivate s = DhPrivate sp /\ DhPublic s = DhPublic sp /\ SkippedMessages s = SkippedMessages sp /\
  IdentityPrivate s = IdentityPrivate sp /\ IdentityPublic s = IdentityPublic sp /\
  PqcSignPrivate s = PqcSignPrivate sp /\ PqcSignPublic s = PqcSignPublic sp /\
  Public s = Public sp /\ PqcPublicKey s = PqcPublicKey sp /\ SeenOffers s = SeenOffers sp.
Proof. cbv zeta. unfold establish. cbv zeta. destruct (bytes_eqb _ _) eqn:Hi; repeat split. Qed.

(** [p] is what [sp] tells its peer about itself. *)
Definition describes (p : PeerKeys) (sp : SecurePeer) : Prop :=
  pkIdentity p = IdentityPublic sp /\ pkPublic p = Public sp /\
  pkDhPublic p = Some (DhPublic sp) /\ pkKyber p = PqcPublicKey sp.

(** A peer fresh out of [newPeer]. *)
Record fresh_peer (sp : SecurePeer) : Prop := {
  fp_dh : DhPublic sp = x25519_base (DhPrivate sp);
  fp_dhlen : length (DhPrivate sp) = 32%nat;
  fp_skip : SkippedMessages sp = ∅;
  fp_pending : pendingDhRatchet sp = false;
}.

Lemma keyBlock_sym a b pa pb ecc ss :
  fresh_peer a -> fresh_peer b -> describes pa a -> describes pb b ->
  keyBlock a pb ecc ss = keyBlock b pa ecc ss.
Proof.
  intros [Ha La _ _] [Hb Lb _ _] (A1 & A2 & A3 & A4) (B1 & B2 & B3 & B4). unfold keyBlock.
  rewrite A1, A2, A3, A4, B1, B2, B3, B4. cbn [nilBytes].
  rewrite (GetTranscript_sym a b), Ha, Hb, x25519_comm by done. done.
Qed.

Lemma establish_wf sp p ecc ss : fresh_peer sp -> wf_peer (establish sp p ecc ss).
Proof.
  intros [Hd Hl Hs Hp].
  destruct (establish_same sp p ecc ss) as (E1 & E2 & E3 & _).
  destruct (establish_eq sp p ecc ss) as (_ & _ & _ & _ & _ & E4 & E5 & _).
  split; rewrite ?E1, ?E2, ?E3, ?E4, ?E5; done.
Qed.

Lemma establish_synced a b pa pb ecc ss :
  fresh_peer a -> fresh_peer b -> describes pa a -> describes pb b ->
  sha256 (IdentityPublic a) ≠ sha256 (IdentityPublic b) ->
  synced (Net (establish a pb ecc ss) (establish b pa ecc ss) [] []).
Proof.
  intros Fa Fb Da Db Hne.
  pose proof (keyBlock_sym _ _ _ _ ecc ss Fa Fb Da Db) as Hm.
  assert (initiates a pb = negb (initiates b pa)) as Hi.
  { unfold initiates. destruct Da as (-> & _), Db as (-> & _). by apply roles_differ. }
  pose proof (establish_wf a pb ecc ss Fa) as Wa. pose proof (establish_wf b pa ecc ss Fb) as Wb.
  destruct (establish_eq a pb ecc ss) as (A1 & A2 & A3 & A4 & _ & A5 & A6 & A7 & A8).
  destruct (establish_eq b pa ecc ss) as (B1 & B2 & B3 & B4 & _ & B5 & B6 & B7 & B8).
  destruct (establish_same a pb ecc ss) as (_ & A9 & _).
  destruct (establish_same b pa ecc ss) as (_ & B9 & _).
  rewrite Hm in A1, A2, A3, A4. rewrite Hi in A1, A2, A8.
  destruct Fa as [_ _ _ Pa], Fb as [_ _ _ Pb]. rewrite Pa in A8. rewrite Pb in B8.
  destruct Da as (_ & _ & Da & _), Db as (_ & _ & Db & _).
  generalize dependent (establish a pb ecc ss). generalize dependent (establish b pa ecc ss).
  intros y * x **. split; [done|]. split; [done|]. split; [congruence|]. left.
  unfold quiet, linked. rewrite A1, A2, A5, A6, B1, B2, B5, B6, A8, B8.
  by destruct (initiates b pa); conjs; try done; congruence.
Qed.

(** ** An honest run *)

(** Long-term keys as [NewClient] makes them. *)
Record Identity := mkIdentity { i_priv : bytes; i_pub : bytes; i_dpriv : bytes; i_dpub : bytes }.

Definition idOf (i : Identity) : bytes := DerivePeerID (i_pub i) (i_dpub i).

Record honest (i : Identity) : Prop := {
  hon_len : length (i_priv i) = 64%nat;
  hon_pub : i_pub i = ed25519_public (i_priv i);
  hon_dil : exists r, dil_keygen r = (i_dpriv i, i_dpub i);
}.

Definition good_rand (r : PeerRand) : Prop := length (rX r) = 32%nat /\ length (rDh r) = 32%nat.

(** What [newPeer] builds from an identity. *)
Record made (r : PeerRand) (i : Identity) (sp : SecurePeer) : Prop := {
  mk_fresh : fresh_peer sp;
  mk_hash : ExpectedPeerHash sp = None;
  mk_idpriv : IdentityPrivate sp = i_priv i;
  mk_idpub : IdentityPublic sp = i_pub i;
  mk_dpriv : PqcSignPrivate sp = i_dpriv i;
  mk_dpub : PqcSignPublic sp = i_dpub i;
  mk_priv : Private sp = rX r;
  mk_pub : Public sp = x25519_base (rX r);
  mk_dh : DhPublic sp = x25519_base (rDh r);
  mk_kem : kyber_keygen (rKem r) = Some (PqcPublicKey sp, PqcPrivateKey sp);
}.

Lemma newPeer_made r i :
  good_rand r -> exists sp,
    newPeer r None (i_priv i) (i_pub i) (i_dpriv i) (i_dpub i) = Ok sp /\ made r i sp /\
    SeenOffers sp = ∅.
Proof.
  intros [Hx Hd]. unfold newPeer. cbn [GenerateX25519KeyPair].
  destruct (kyber_keygen_total (rKem r)) as [[pub priv] Hk]. rewrite Hk. cbn.
  eexists. split; [done|]. split; [|done]. split; try done.
Qed.

Lemma honest_pub_len i : honest i -> length (i_pub i) = 32%nat.
Proof. intros [Hl -> _]. by apply length_ed25519_public. Qed.

Lemma idOf_bytes i : base58_decode (idOf i) = Some (i_pub i ++ sha3_256 (i_dpub i)).
Proof. apply base58_correct. Qed.

Lemma honest_idbytes_len i : honest i -> len (i_pub i ++ sha3_256 (i_dpub i)) = 64.
Proof. intros H. unfold len. by rewrite length_app, honest_pub_len, length_sha3_256. Qed.

Lemma idOf_len i : honest i -> len (idOf i) <= 128.
Proof.
  intros H. unfold idOf, DerivePeerID.
  etransitivity; [apply base58_size|]. rewrite honest_idbytes_len by done. lia.
Qed.

(** Both signatures of an honest peer are made, and verify. *)
Lemma signs i sp E oid rid :
  honest i -> IdentityPrivate sp = i_priv i -> PqcSignPrivate sp = i_dpriv i ->
  exists sig dsig, @GetSign _ E sp oid rid = Ok sig /\ @GetDilithiumSign _ E sp oid rid = Ok dsig /\
    len sig = 64 /\ len dsig <= 3293 /\
    ed25519_verify (i_pub i) (buildSignMessage sp oid rid) sig = true /\
    DilithiumVerify (i_dpub i) (buildSignMessage sp oid rid) dsig = true.
Proof.
  intros [Hl Hp [r Hd]] Hi Hq.
  unfold GetSign, GetDilithiumSign, ed25519Sign, DilithiumSign, DilithiumVerify.
  destruct (dil_keygen_wf _ _ _ Hd) as [Hu Hv]. rewrite Hi, Hq, Hu, Hv. unfold len at 1. rewrite Hl.
  do 2 eexists. split; [done|]. split; [done|]. split; [unfold len; by rewrite length_ed25519_sign|].
  split; [apply dil_sign_size|]. split; [rewrite Hp; by apply ed25519_correct|].
  by eapply dil_correct.
Qed.

Lemma Handshake_ok sp p ss oid rid ecc :
  len (pkIdentity p) = 32 ->
  let msg := mjoin [rid; pkPublic p; nilBytes (pkDhPublic p); pkKyber p; pkDilithium p; oid] in
  ed25519_verify (pkIdentity p) msg (pkEd25519Sig p) = true ->
  DilithiumVerify (pkDilithium p) msg (pkDilithiumSig p) = true ->
  ExpectedPeerHash sp = None -> x25519 (Private sp) (pkPublic p) = Some ecc ->
  Handshake sp p ss oid rid = (establish sp p ecc ss, Ok tt).
Proof.
  cbv zeta. intros Hl He Hd Hh Hx. unfold Handshake. by rewrite Hl, He, Hd, Hh, Hx.
Qed.

(** The offer an honest [CreateOffer] sends. *)
Lemma CreateOffer_honest r i oid peerId pid :
  honest i -> good_rand r -> len oid = 16 -> base58_decode peerId = Some pid -> len pid = 64 ->
  exists sp o w, CreateOffer r oid (idOf i) (i_priv i) (i_pub i) (i_dpriv i) (i_dpub i) peerId = Ok (sp, w) /\
    made r i sp /\ decodeOffer w = Ok o /\
    of_SenderId o = idOf i /\ of_RecipientId o = pid /\ of_OfferID o = oid /\
    describes (offerKeys o) sp /\ of_DilithiumPub o = i_dpub i /\
    ed25519_verify (i_pub i) (buildSignMessage sp oid pid) (of_Sign o) = true /\
    DilithiumVerify (i_dpub i) (buildSignMessage sp oid pid) (of_DilithiumSign o) = true.
Proof.
  intros Hi Hr Ho Hp Hpl. destruct (newPeer_made r i Hr) as (sp & Hn & M & _).
  destruct (signs i sp eng_err oid pid Hi (mk_idpriv _ _ _ M) (mk_dpriv _ _ _ M))
    as (sig & dsig & Hs & Hds & Ls & Lds & Vs & Vds).
  unfold CreateOffer. rewrite Hn, Hp. cbn [ofOption mbind res_bind]. rewrite Hs, Hds.
  cbn [ofOption mbind res_bind].
  set (o := mkOffer _ _ _ _ _ _ _ _ _ _).
  assert (is_Some (MarshalFastID (HandShakeOffer_MarshalBinID o))) as [w Hw].
  { apply np_encode_total; [simpl; lia|]. destruct Hi as [Hi1 Hi2 [rd Hi3]], Hr.
    pose proof (idOf_len i (Build_honest _ Hi1 Hi2 (ex_intro _ rd Hi3))).
    pose proof (dil_pub_size _ _ _ Hi3). pose proof (kyber_pub_size _ _ _ (mk_kem _ _ _ M)).
    pose proof (length_ed25519_public _ Hi1). subst o.
    cbv [HandShakeOffer_MarshalBinID of_SenderId of_RecipientId of_OfferID of_IdPub of_Pub of_DhPub of_KyberPub of_DilithiumPub of_Sign of_DilithiumSign nilBytes].
    rewrite (mk_idpub _ _ _ M), (mk_pub _ _ _ M), (mk_dh _ _ _ M), (mk_dpub _ _ _ M), Hi2.
    change (2 ^ 31) with 2147483648.
    repeat (apply List.Forall_cons; [cbn [snd]|]); try apply List.Forall_nil; unfold len in *;
      rewrite ?length_x25519_base by done; lia. }
  exists sp, o, w. rewrite Hw. split; [done|]. split; [done|].
  split; [by apply decodeOffer_wire|]. subst o. unfold describes, offerKeys.
  conjs; try done. exact (mk_dpub _ _ _ M).
Qed.
(** What a responder checks is what the initiator signed. *)
Lemma signed_message p sp oid rid :
  describes p sp -> pkDilithium p = PqcSignPublic sp ->
  mjoin [rid; pkPublic p; nilBytes (pkDhPublic p); pkKyber p; pkDilithium p; oid]
  = buildSignMessage sp oid rid.
Proof. intros (_ & -> & -> & ->) ->. done. Qed.

Lemma made_handshake r1 i1 sp1 r2 i2 sp2 p ss oid rid :
  good_rand r1 -> good_rand r2 -> honest i2 -> made r1 i1 sp1 -> made r2 i2 sp2 ->
  describes p sp2 -> pkDilithium p = i_dpub i2 ->
  ed25519_verify (i_pub i2) (buildSignMessage sp2 oid rid) (pkEd25519Sig p) = true ->
  DilithiumVerify (i_dpub i2) (buildSignMessage sp2 oid rid) (pkDilithiumSig p) = true ->
  exists ecc, x25519 (rX r1) (x25519_base (rX r2)) = Some ecc /\
    Handshake sp1 p ss oid rid = (establish sp1 p ecc ss, Ok tt).
Proof.
  intros [R1 _] [R2 _] H2 M1 M2 D Hp Vs Vd.
  destruct (x25519_honest _ _ R1 R2) as [ecc He]. exists ecc. split; [done|].
  assert (pkDilithium p = PqcSignPublic sp2) as Hq by (rewrite (mk_dpub _ _ _ M2); done).
  apply Handshake_ok.
  - destruct D as (-> & _). rewrite (mk_idpub _ _ _ M2). unfold len. by rewrite honest_pub_len.
  - rewrite (signed_message _ sp2) by done. destruct D as (-> & _). by rewrite (mk_idpub _ _ _ M2).
  - rewrite (signed_message _ sp2) by done. by rewrite Hp.
  - apply (mk_hash _ _ _ M1).
  - destruct D as (_ & -> & _). by rewrite (mk_priv _ _ _ M1), (mk_pub _ _ _ M2).
Qed.

Lemma made_seen r i sp m : made r i sp -> made r i (set_SeenOffers m sp).
Proof. intros [[] ?]. split; done. Qed.

Lemma len_of_nat {A} (l : list A) n : length l = n -> len l = Z.of_nat n.
Proof. unfold len. by intros ->. Qed.

(** The answer of an honest responder, for the initiator [iA]. *)
Lemma makeAnswer_honest rB iB spB sp' iA o ct p ecc ss :
  honest iA -> honest iB -> good_rand rB -> made rB iB spB -> sp' = establish spB p ecc ss ->
  len (of_OfferID o) = 16 -> of_SenderId o = idOf iA -> len ct <= 1088 ->
  let idA := i_pub iA ++ sha3_256 (i_dpub iA) in
  exists a w,
    makeAnswer sp' o (idOf iB) (i_pub iB ++ sha3_256 (i_dpub iB)) ct = Ok w /\
    decodeAnswer w = Ok a /\ an_SenderId a = idOf iB /\ an_OfferID a = of_OfferID o /\
    an_KyberCiphertext a = ct /\ describes (answerKeys a) spB /\ an_DilithiumPub a = i_dpub iB /\
    ed25519_verify (i_pub iB) (buildSignMessage spB (of_OfferID o) idA) (an_Sign a) = true /\
    DilithiumVerify (i_dpub iB) (buildSignMessage spB (of_OfferID o) idA) (an_DilithiumSign a) = true.
Proof.
  intros HA HB RB MB -> Hoid Hsid Hct idA.
  pose proof (establish_same spB p ecc ss) as (E1 & E2 & _ & E3 & E4 & E5 & E6 & E7 & E8 & _).
  set (sp' := establish spB p ecc ss) in *. clearbody sp'.
  destruct (signs iB sp' eng_err (of_OfferID o) idA HB)
    as (sig & dsig & Hs & Hds & Ls & Lds & Us & Uds);
    [rewrite E3; apply MB|rewrite E5; apply MB|].
  assert (buildSignMessage sp' (of_OfferID o) idA = buildSignMessage spB (of_OfferID o) idA) as Hbs
    by (unfold buildSignMessage; by rewrite E2, E6, E7, E8).
  rewrite Hbs in Us, Uds. unfold makeAnswer.
  rewrite (ok_bind _ _ idA) by (rewrite Hsid, idOf_bytes; done).
  rewrite (ok_bind _ _ sig Hs), (ok_bind _ _ dsig Hds). rewrite E2, E4, E6, E7, E8.
  set (a := mkAnswer _ _ _ _ _ _ _ _ _ _ _).
  assert (is_Some (MarshalFastID (HandShakeAnswer_MarshalBinID a))) as [w Hw].
  { apply np_encode_total; [simpl; lia|]. subst a.
    cbv [HandShakeAnswer_MarshalBinID an_SenderId an_RecipientId an_OfferID an_IdPub an_Pub an_DhPub an_KyberPub an_KyberCiphertext an_DilithiumPub an_Sign an_DilithiumSign nilBytes].
    rewrite (mk_idpub _ _ _ MB), (mk_pub _ _ _ MB), (mk_dh _ _ _ MB), (mk_dpub _ _ _ MB).
    pose proof (idOf_len _ HB). pose proof (honest_idbytes_len _ HB). pose proof (len_of_nat _ _ (honest_pub_len _ HB)).
    destruct RB as [RB1 RB2]. pose proof (len_of_nat _ _ (length_x25519_base _ RB1)).
    pose proof (len_of_nat _ _ (length_x25519_base _ RB2)).
    pose proof (kyber_pub_size _ _ _ (mk_kem _ _ _ MB)).
    destruct HB as [_ _ [rd HB]]. pose proof (dil_pub_size _ _ _ HB).
    change (2 ^ 31) with 2147483648.
    repeat (apply List.Forall_cons; [cbn [snd]; lia|]). apply List.Forall_nil. }
  exists a, w. rewrite Hw. split; [done|]. split; [by apply decodeAnswer_wire|].
  conjs; try done. exact (mk_dpub _ _ _ MB).
Qed.

Lemma checkOffer_honest iA iB existing o :
  len (of_OfferID o) = 16 -> of_SenderId o = idOf iA -> of_IdPub o = i_pub iA -> of_DilithiumPub o = i_dpub iA ->
  of_RecipientId o = i_pub iB ++ sha3_256 (i_dpub iB) ->
  seen (seenBy existing) (base58_encode (of_OfferID o)) = false ->
  checkOffer (idOf iB) existing o = Ok tt.
Proof.
  intros Ho Hs Hi Hd Hr Hn. unfold checkOffer. rewrite Ho, Hs, Hi, Hd, Hr, Hn.
  fold (idOf iA). fold (DerivePeerID (i_pub iB) (i_dpub iB)). fold (idOf iB).
  by rewrite !bytes_eqb_refl.
Qed.

(** An honest [AcceptOffer] of an honest offer. *)
Lemma acceptDecoded_honest rA iA spA rB e iB existing o :
  honest iA -> honest iB -> good_rand rA -> good_rand rB -> made rA iA spA ->
  len (of_OfferID o) = 16 -> of_SenderId o = idOf iA ->
  of_RecipientId o = i_pub iB ++ sha3_256 (i_dpub iB) ->
  describes (offerKeys o) spA -> of_DilithiumPub o = i_dpub iA ->
  ed25519_verify (i_pub iA) (buildSignMessage spA (of_OfferID o) (of_RecipientId o)) (of_Sign o) = true ->
  DilithiumVerify (i_dpub iA) (buildSignMessage spA (of_OfferID o) (of_RecipientId o)) (of_DilithiumSign o) = true ->
  seen (seenBy existing) (base58_encode (of_OfferID o)) = false ->
  let idA := i_pub iA ++ sha3_256 (i_dpub iA) in
  exists spB ecc ct ss a w,
    acceptDecoded rB e (idOf iB) (i_priv iB) (i_pub iB) (i_dpriv iB) (i_dpub iB) existing o
      = Ok (idOf iA, establish spB (offerKeys o) ecc ss, w) /\
    made rB iB spB /\ x25519 (rX rB) (x25519_base (rX rA)) = Some ecc /\
    kyber_encaps (PqcPublicKey spA) e = Some (ct, ss) /\ ct ≠ [] /\
    decodeAnswer w = Ok a /\ an_SenderId a = idOf iB /\ an_OfferID a = of_OfferID o /\
    an_KyberCiphertext a = ct /\ describes (answerKeys a) spB /\ an_DilithiumPub a = i_dpub iB /\
    ed25519_verify (i_pub iB) (buildSignMessage spB (of_OfferID o) idA) (an_Sign a) = true /\
    DilithiumVerify (i_dpub iB) (buildSignMessage spB (of_OfferID o) idA) (an_DilithiumSign a) = true.
Proof.
  intros HA HB RA RB MA Hoid Hsid Hrid D Hdil Vs Vd Hseen idA.
  pose proof D as (D1 & _ & _ & D4). cbn [offerKeys pkIdentity pkKyber] in D1, D4.
  rewrite (mk_idpub _ _ _ MA) in D1. unfold acceptDecoded.
  rewrite (ok_bind _ _ tt) by (by apply (checkOffer_honest iA)). cbv zeta.
  destruct (newPeer_made rB iB RB) as (sp0 & Hn & M0 & _). rewrite (ok_bind _ _ _ Hn).
  set (spB := set_SeenOffers _ sp0). pose proof (made_seen _ _ _ _ M0 : made rB iB spB) as MB.
  clearbody spB. rewrite D4, idOf_bytes, Hsid.
  rewrite (ok_bind _ _ tt) by (by destruct (kyber_keygen_wf _ _ _ (mk_kem _ _ _ MA)) as [-> _]).
  destruct (kyber_encaps_total _ _ _ e (mk_kem _ _ _ MA)) as (ct & ss & Hct & Hne).
  rewrite (ok_bind _ _ (ct, ss)) by (by rewrite Hct). cbv beta iota. cbn [nilBytes].
  rewrite Hrid in Vs, Vd.
  destruct (made_handshake _ _ spB _ _ _ (offerKeys o) ss (of_OfferID o) _ RB RA HA MB MA D Hdil Vs Vd)
    as (ecc & Hecc & Hhs). rewrite Hhs. cbv beta iota. rewrite (ok_bind _ _ tt) by done.
  destruct (makeAnswer_honest rB iB spB _ iA o ct (offerKeys o) ecc ss HA HB RB MB eq_refl Hoid Hsid (kyber_ct_size _ _ _ _ Hct))
    as (a & w & Hw & Ha). rewrite (ok_bind _ _ w Hw).
  exists spB, ecc, ct, ss, a, w. conjs; try done; apply Ha.
Qed.

(** The initiator's end. *)
Lemma FinishHandshake_honest rA iA spA rB iB spB e ct ss w a :
  honest iB -> good_rand rA -> good_rand rB -> made rA iA spA -> made rB iB spB ->
  kyber_encaps (PqcPublicKey spA) e = Some (ct, ss) -> ct ≠ [] ->
  decodeAnswer w = Ok a -> an_SenderId a = idOf iB -> an_KyberCiphertext a = ct ->
  describes (answerKeys a) spB -> an_DilithiumPub a = i_dpub iB ->
  let idA := i_pub iA ++ sha3_256 (i_dpub iA) in
  ed25519_verify (i_pub iB) (buildSignMessage spB (an_OfferID a) idA) (an_Sign a) = true ->
  DilithiumVerify (i_dpub iB) (buildSignMessage spB (an_OfferID a) idA) (an_DilithiumSign a) = true ->
  exists ecc, x25519 (rX rA) (x25519_base (rX rB)) = Some ecc /\
    FinishHandshake (idOf iA) spA w = (establish spA (answerKeys a) ecc ss, Ok (idOf iB)).
Proof.
  intros HB RA RB MA MB Hct Hne Hd Hs Hc D Hq idA Vs Vd.
  pose proof D as (D1 & _). cbn [answerKeys pkIdentity] in D1. rewrite (mk_idpub _ _ _ MB) in D1.
  destruct (made_handshake _ _ _ _ _ _ (answerKeys a) ss (an_OfferID a) idA RA RB HB MA MB D Hq Vs Vd)
    as (ecc & Hecc & Hhs).
  exists ecc. split; [done|]. unfold FinishHandshake. rewrite Hd, Hc.
  assert ((len ct =? 0) = false) as -> by (destruct ct; [done|]; apply Z.eqb_neq; unfold len; simpl; lia).
  rewrite D1, Hq, Hs. fold (idOf iB). rewrite bytes_eqb_refl. cbn [negb].
  destruct (kyber_keygen_wf _ _ _ (mk_kem _ _ _ MA)) as [_ ->]. cbn [negb].
  rewrite (kyber_correct _ _ _ _ _ _ (mk_kem _ _ _ MA) Hct), idOf_bytes. fold idA. by rewrite Hhs.
Qed.

End EngineFacts.
