(* ===== verification/SessionTheorems.v ===== *)
(** * What a session guarantees

    The theorems about handshake and ratchet, stated over the sessions of
    [SecurePeer], [Session], [Reorder] and [Engine], each with a concrete run
    under the reference interpretation of the primitives. *)
From S2P Require Import Prelude GoStd Sha256 External SecurePeer SecurePeerFacts Session Reorder Engine EngineFacts.
#[local] Open Scope Z_scope.

(** ** A concrete pair of parties *)
Definition demoBytes (n : nat) (b : byte) : bytes := replicate n b.

Definition demoId (b : byte) : Identity :=
  mkIdentity (demoBytes 64 b) (demoBytes 32 b) (ref_hash [b]) (ref_hash [b]).

Definition demoRand (b c : byte) : PeerRand := mkPeerRand (demoBytes 32 b) (demoBytes 32 c) [b].

Definition noJSON : LegacyJSON := {| json_offer _ := None; json_answer _ := None |}.

Lemma demoId_honest b : honest (demoId b).
Proof. split; [done|done|]. by exists [b]. Qed.

Lemma demoRand_good b c : good_rand (demoRand b c).
Proof. by split. Qed.

Lemma demoId_distinct : sha256 (i_pub (demoId x41)) ≠ sha256 (i_pub (demoId x42)).
Proof. by vm_compute. Qed.

(** Fresh peers for the two identities, and the sessions they establish. *)
Definition demoPeer (i : Identity) (r : PeerRand) : SecurePeer :=
  match newPeer r None (i_priv i) (i_pub i) (i_dpriv i) (i_dpub i) with
  | Ok sp => sp
  | _ => mkSecurePeer None [] [] [] [] [] [] [] [] [] [] None [] [] [] [] [] 0 0 ∅ false [] [] [] false ∅
  end.

Definition demoKeys (sp : SecurePeer) : PeerKeys :=
  mkPeerKeys (IdentityPublic sp) (Public sp) (Some (DhPublic sp)) (PqcPublicKey sp) (PqcSignPublic sp) [] [].

(** States are kept in evaluated form; the equations that follow tie them to the
    operations that produce them. *)
Definition demo1 : SecurePeer := Eval vm_compute in demoPeer (demoId x41) (demoRand x01 x02).
Definition demo2 : SecurePeer := Eval vm_compute in demoPeer (demoId x42) (demoRand x03 x04).
Definition demoA : SecurePeer := Eval vm_compute in establish demo1 (demoKeys demo2) [x07] [x08].
Definition demoB : SecurePeer := Eval vm_compute in establish demo2 (demoKeys demo1) [x07] [x08].

Lemma demoA_eq : establish demo1 (demoKeys demo2) [x07] [x08] = demoA.
Proof. vm_compute. reflexivity. Qed.

Lemma demoB_eq : establish demo2 (demoKeys demo1) [x07] [x08] = demoB.
Proof. vm_compute. reflexivity. Qed.

Lemma demo1_fresh : fresh_peer demo1.
Proof. split; reflexivity. Qed.

Lemma demo2_fresh : fresh_peer demo2.
Proof. split; reflexivity. Qed.

Lemma demoKeys_describes sp : describes (demoKeys sp) sp.
Proof. repeat split. Qed.

Lemma demo_synced : synced (Net demoA demoB [] []).
Proof.
  rewrite <- demoA_eq, <- demoB_eq. pose proof demoId_distinct as Hne.
  exact (establish_synced demo1 demo2 (demoKeys demo1) (demoKeys demo2) [x07] [x08] demo1_fresh demo2_fresh
    (demoKeys_describes demo1) (demoKeys_describes demo2) Hne).
Qed.

(** Encrypting as a function of the state alone. *)
Definition sendBy (sp : SecurePeer) (rnd : byte) (pt : bytes) : SecurePeer * bytes :=
  let '(sp', r) := Encrypt (demoBytes 32 rnd) sp (str "peer") pt in
  (sp', match r with Ok w => w | _ => [] end).

(** ** Handshake *)
Section Honest.
Context `{N : Nanopack} `{NL : !NanopackLaws} `{P : Prims} `{PL : !PrimLaws} `{J : LegacyJSON}.

(** The handshake with what its two messages say. *)
Lemma honest_handshake rA rB iA iB e oid (sessions : bytes -> option SecurePeer) :
  honest iA -> honest iB -> sha256 (i_pub iA) ≠ sha256 (i_pub iB) ->
  good_rand rA -> good_rand rB -> len oid = 16 ->
  seen (seenBy (sessions (idOf iA))) (base58_encode oid) = false ->
  exists pa offer o a pb answer,
    decodeOffer offer = Ok o /\ of_SenderId o = idOf iA /\ of_IdPub o = i_pub iA /\ PeekAnswerSenderID answer = Ok (idOf iB) /\
    CreateOffer rA oid (idOf iA) (i_priv iA) (i_pub iA) (i_dpriv iA) (i_dpub iA) (idOf iB) = Ok (pa, offer) /\
    AcceptOffer rB e (idOf iB) (i_priv iB) (i_pub iB) (i_dpriv iB) (i_dpub iB) sessions offer
      = Ok (idOf iA, pb, answer) /\
    FinishHandshake (idOf iA) pa answer = (a, Ok (idOf iB)) /\
    synced (Net a pb [] []) /\ pendingDhRatchet a = negb (pendingDhRatchet pb).
Proof.
  intros HA HB Hne RA RB Ho Hseen.
  destruct (CreateOffer_honest rA iA oid _ _ HA RA Ho (idOf_bytes iB) (honest_idbytes_len _ HB))
    as (spA & o & wo & Hc & MA & Hdo & S1 & S2 & <- & D & S3 & V1 & V2).
  rewrite <- S2 in V1, V2.
  destruct (acceptDecoded_honest rA iA spA rB e iB (sessions (of_SenderId o)) o HA HB RA RB MA Ho S1 S2 D S3 V1 V2)
    as (spB & ecc & ct & ss & an & wa & Ha & MB & Hx & Hk & Hct & Hda & A1 & A2 & A3 & DB & A4 & V3 & V4);
    [by rewrite S1|].
  rewrite <- A2 in V3, V4.
  destruct (FinishHandshake_honest rA iA spA rB iB spB e ct ss wa an HB RA RB MA MB Hk Hct Hda A1 A3 DB A4 V3 V4)
    as (ecc' & Hx' & Hf).
  assert (ecc' = ecc) as -> by (destruct RA, RB; rewrite x25519_comm in Hx' by done; congruence).
  exists spA, wo, o, (establish spA (answerKeys an) ecc ss), (establish spB (offerKeys o) ecc ss), wa.
  split; [done|]. split; [done|].
  split; [destruct D as (D & _); cbn in D; by rewrite D, (mk_idpub _ _ _ MA)|].
  split; [unfold PeekAnswerSenderID; rewrite Hda; cbn; by f_equal|].
  split; [done|]. split; [unfold AcceptOffer; by rewrite Hdo|]. split; [done|].
  split.
  - apply establish_synced; [apply MA|apply MB|done|done|].
    by rewrite (mk_idpub _ _ _ MA), (mk_idpub _ _ _ MB).
  - destruct (establish_eq spA (answerKeys an) ecc ss) as (_ & _ & _ & _ & _ & _ & _ & _ & ->).
    destruct (establish_eq spB (offerKeys o) ecc ss) as (_ & _ & _ & _ & _ & _ & _ & _ & ->).
    rewrite (fp_pending _ (mk_fresh _ _ _ MA)), (fp_pending _ (mk_fresh _ _ _ MB)).
    assert (initiates spA (answerKeys an) = negb (initiates spB (offerKeys o))) as ->.
    { unfold initiates. destruct D as (-> & _), DB as (-> & _).
      apply roles_differ. by rewrite (mk_idpub _ _ _ MA), (mk_idpub _ _ _ MB). }
    by destruct (initiates spB _).
Qed.

(** C1: Two honest parties complete the handshake.  The offer made by one is
    accepted by the other, the answer finishes the exchange, each learns the
    other's true peer ID, and the two sessions they end up with are in step:
    same root and authentication keys, send chain of each the receive chain of
    the other, exactly one side entitled to the first key rotation. *)
Theorem honest_handshake_establishes rA rB iA iB e oid (sessions : bytes -> option SecurePeer) :
  honest iA -> honest iB -> sha256 (i_pub iA) ≠ sha256 (i_pub iB) ->
  good_rand rA -> good_rand rB -> len oid = 16 ->
  seen (seenBy (sessions (idOf iA))) (base58_encode oid) = false ->
  exists pa offer a pb answer,
    CreateOffer rA oid (idOf iA) (i_priv iA) (i_pub iA) (i_dpriv iA) (i_dpub iA) (idOf iB) = Ok (pa, offer) /\
    AcceptOffer rB e (idOf iB) (i_priv iB) (i_pub iB) (i_dpriv iB) (i_dpub iB) sessions offer
      = Ok (idOf iA, pb, answer) /\
    FinishHandshake (idOf iA) pa answer = (a, Ok (idOf iB)) /\
    synced (Net a pb [] []) /\ pendingDhRatchet a = negb (pendingDhRatchet pb).
Proof.
  intros HA HB Hne RA RB Ho Hseen.
  destruct (honest_handshake rA rB iA iB e oid sessions HA HB Hne RA RB Ho Hseen)
    as (pa & offer & o & a & pb & answer & _ & _ & _ & _ & H1 & H2 & H3 & H4 & H5).
  exists pa, offer, a, pb, answer. conjs; done.
Qed.

End Honest.

Lemma honest_handshake_witness :
  exists pa offer a pb answer,
    @CreateOffer _ _ (demoRand x01 x02) (demoBytes 16 x05) (idOf (demoId x41)) (demoBytes 64 x41) (demoBytes 32 x41) (ref_hash [x41]) (ref_hash [x41]) (idOf (demoId x42)) = Ok (pa, offer) /\
    @AcceptOffer _ _ noJSON (demoRand x03 x04) [x09] (idOf (demoId x42)) (demoBytes 64 x42) (demoBytes 32 x42) (ref_hash [x42]) (ref_hash [x42]) (fun _ => None) offer
      = Ok (idOf (demoId x41), pb, answer) /\
    @FinishHandshake _ _ noJSON (idOf (demoId x41)) pa answer = (a, Ok (idOf (demoId x42))) /\
    synced (Net a pb [] []) /\ pendingDhRatchet a = negb (pendingDhRatchet pb).
Proof.
  apply (@honest_handshake_establishes _ _ _ _ noJSON (demoRand x01 x02) (demoRand x03 x04)
    (demoId x41) (demoId x42) [x09] (demoBytes 16 x05) (fun _ => None)).
  - apply demoId_honest.
  - apply demoId_honest.
  - exact demoId_distinct.
  - apply demoRand_good.
  - apply demoRand_good.
  - reflexivity.
  - reflexivity.
Defined.

(** ** Delivery *)
Section Delivery.
Context `{N : Nanopack} `{NL : !NanopackLaws} `{P : Prims} `{PL : !PrimLaws}.

(** C3: Once two sessions are in step, every message arrives.  For any
    interleaving of sends by either side, deliveries in channel order and
    reloads from disk, each delivered frame decrypts to exactly the sender name
    and plaintext it was made from, across any number of key rotations, and the
    sessions stay in step. *)
Theorem ordered_delivery_faithful n es n' :
  synced n -> steps n es n' -> Forall faithful es /\ synced n'.
Proof. intros Hs Hst. destruct (steps_synced _ _ _ Hst Hs). done. Qed.

(** C9: Within one key epoch a receiver tolerates loss, reordering and
    duplication: whatever order (with repetitions) the frames of a chain are
    handed over in, the first copy of each frame yields its plaintext and every
    further copy is refused with [ErrReplay]. *)
Theorem exactly_once_within_epoch sp key frames order :
  0 <= RecvNonce sp -> RemoteDhPublic sp = Some key ->
  (forall i, SkippedMessages sp !! skipKey key (RecvNonce sp) i = None) ->
  frames_ok (HmacKey sp) key (RecvNonce sp) (RecvCk sp) frames ->
  Forall (fun i => i < length frames)%nat order ->
  (deliverAll sp (wireAt frames <$> order)).2 = reorderSpec (RecvNonce sp) frames 0 [] order.
Proof.
  intros H0 Hr Hs Hf Ho. eapply reading_deliver; [done|exact Hf|done|]. by apply reading_start.
Qed.

(** C33: A frame that does not parse, or whose tag is not the HMAC of its fields
    under the session's authentication key, is refused and leaves the session
    exactly as it was. *)
Theorem unauthentic_frame_no_effect sp payload sp' r :
  Decrypt sp payload = (sp', r) ->
  (forall msg canonical, parseSecureMessage payload = Ok msg -> secureMessageHmacPayload msg = Some canonical ->
     Tag msg ≠ hmacTag (HmacKey sp) canonical) ->
  sp' = sp /\ isOk r = false.
Proof.
  unfold Decrypt. intros H Hbad.
  destruct (parseSecureMessage payload) as [msg|e|] eqn:Hp; [|by simplify_eq..].
  destruct (secureMessageHmacPayload msg) as [c|] eqn:Hc; [|by simplify_eq].
  rewrite (proj2 (bytes_eqb_neq _ _) (Hbad _ _ eq_refl Hc)) in H. cbn [negb] in H. by simplify_eq.
Qed.

(** A message that fits a frame can always be encrypted: [Encrypt] never
    fails, advances the send counter and produces a frame the peer's chain
    accepts as its next message. *)
Theorem encrypt_total rnd sp name pt :
  len name < 2 ^ 30 -> len pt < 2 ^ 30 -> length rnd = 32%nat -> length (DhPublic sp) = 32%nat ->
  let s := sendRatchet rnd sp in
  0 <= SendNonce s < 2 ^ 31 ->
  exists wire, Encrypt rnd sp name pt = (afterSend s, Ok wire) /\ SendNonce (afterSend s) = SendNonce s + 1 /\
    good_frame (HmacKey s) (DhPublic s) (SendNonce s) (msgKey (SendCk s)) name pt wire.
Proof.
  intros Hn Hp Hr Hd s Hs. destruct (Encrypt_total rnd sp name pt Hn Hp) as [w Hw].
  { unfold sendRatchet. destruct (pendingDhRatchet sp); [|done].
    cbn [GenerateX25519KeyPair]. destruct (rootStep _). cbn. by apply length_x25519_base. }
  exists w. split; [done|]. split; [by apply SendNonce_afterSend|].
  by destruct (Encrypt_good _ _ _ _ _ _ Hw Hs).
Qed.

(** Nothing bounds the skipped keys a session stores: an authentic frame [k]
    messages ahead of the receiver is accepted for every [k], and all [k]
    message keys in between are kept ([SkipMessageKeys] and its limit of
    [maxSkip] are never consulted). *)
Theorem skipped_keys_unbounded sp key k name pt wire :
  0 <= RecvNonce sp -> RemoteDhPublic sp = Some key ->
  (forall i, SkippedMessages sp !! skipKey key (RecvNonce sp) i = None) ->
  good_frame (HmacKey sp) key (RecvNonce sp + Z.of_nat k) (msgKey (ckN k (RecvCk sp))) name pt wire ->
  exists sp', Decrypt sp wire = (sp', Ok (name, pt)) /\
    forall i, (i < k)%nat ->
      SkippedMessages sp' !! skipKey key (RecvNonce sp) i = Some (msgKey (ckN i (RecvCk sp))).
Proof.
  intros H0 Hr Hs Hg.
  destruct (reading_fresh _ _ _ _ _ _ _ _ _ _ _ H0 Hg (Nat.le_0_l k) (reading_start _ _ Hr Hs)) as (sp' & Hd & Hrd).
  exists sp'. split; [done|]. intros i Hi. rewrite (rd_skip _ _ _ _ _ _ _ Hrd).
  rewrite decide_True; [done|]. split; [lia|]. rewrite not_elem_of_cons. split; [lia|]. apply not_elem_of_nil.
Qed.

(** An authentic frame of a past key epoch (its ratchet key is not the
    current one and its message key is not stored) is never refused as a
    replay: [Decrypt] performs a root-key step towards the old key, discards the
    current receive chain and marks a rotation as pending, whether or not the
    frame then decrypts. *)
Theorem past_epoch_frame_rotates sp key cur n mk name pt wire :
  good_frame (HmacKey sp) key n mk name pt wire ->
  RemoteDhPublic sp = Some cur -> cur ≠ key ->
  SkippedMessages sp !! getSkipKeyStr (b64Encode key) n = None ->
  let sp' := (Decrypt sp wire).1 in
  RemoteDhPublic sp' = Some key /\ pendingDhRatchet sp' = true /\
  RootKey sp' = (rootStep (set_RemoteDhPublic (Some key) sp)).1 /\
  (forall a b, (Decrypt sp wire).2 ≠ Err (ErrReplay a b)).
Proof.
  intros Hg Hr Hne Hs sp'. subst sp'.
  destruct (Decrypt_good _ _ _ _ _ _ _ Hg) as (msg & -> & Hn & Hk & Hi & Hb & _).
  unfold decryptAuth. cbn [lowSecurity]. rewrite Hi, Hk. cbn [nilBytes].
  rewrite Hs, Hr, (proj2 (bytes_eqb_neq _ _)) by congruence.
  pose proof (DhRatchet_keys sp (Some key)) as [Hroot _].
  destruct (DhRatchet_same sp (Some key)) as (_ & Hrem & _ & _ & _ & _ & H0 & _).
  assert (pendingDhRatchet (DhRatchet sp (Some key)) = true) as Hp
    by (unfold DhRatchet; by destruct (rootStep _)).
  generalize dependent (DhRatchet sp (Some key)). intros s Hroot Hrem H0 Hp.
  rewrite H0, (proj2 (Z.ltb_ge _ _)) by lia.
  pose proof (skipUntil_keeps n s) as (K1 & K2 & K3).
  rewrite RatchetStep_eq. cbn [fst snd RemoteDhPublic pendingDhRatchet RootKey set_RecvNonce set_RecvCk].
  rewrite K1, K2, K3. conjs; try done. intros a b. unfold DecryptWithKey.
  destruct (negb _); [done|]. by destruct (aead_open _ _ _ _).
Qed.

(** Saving and reloading both sessions while no rotation is in flight loses
    the pending key rotation for good: from then on no sequence of sends,
    deliveries and reloads ever changes either side's ratchet key. *)
Theorem reload_disables_rotation a b ab ba es n :
  wf_peer a -> wf_peer b -> HmacKey a = HmacKey b -> quiet a b ab ba ->
  steps (Net (reload a) (reload b) ab ba) es n ->
  keys_of n = (DhPublic a, DhPublic b).
Proof.
  intros Hwa Hwb Hh Hq Hst. by rewrite (frozen_steps _ _ _ Hst (reload_frozen _ _ _ _ Hwa Hwb Hh Hq)).
Qed.

End Delivery.

(** ** Concrete runs *)
Definition demoFlight (sp : SecurePeer) (b : byte) (pt : bytes) : flight :=
  Flight (sendBy sp b pt).2 (str "peer") pt.

Definition recvBy (sp : SecurePeer) (f : flight) : SecurePeer := (Decrypt sp (fl_wire f)).1.

(** Three messages, each under a rotated key: B to A, A to B, B to A. *)
Definition f1 : flight := Eval vm_compute in demoFlight demoB x11 (str "one").
Definition b1 : SecurePeer := Eval vm_compute in (sendBy demoB x11 (str "one")).1.
Definition a1 : SecurePeer := Eval vm_compute in recvBy demoA f1.
Definition g1 : flight := Eval vm_compute in demoFlight a1 x12 (str "two").
Definition a2 : SecurePeer := Eval vm_compute in (sendBy a1 x12 (str "two")).1.
Definition b2 : SecurePeer := Eval vm_compute in recvBy b1 g1.
Definition f2 : flight := Eval vm_compute in demoFlight b2 x13 (str "three").
Definition b3 : SecurePeer := Eval vm_compute in (sendBy b2 x13 (str "three")).1.
Definition a3 : SecurePeer := Eval vm_compute in recvBy a2 f2.

Lemma run_f1 : Encrypt (demoBytes 32 x11) demoB (str "peer") (str "one") = (b1, Ok (fl_wire f1)).
Proof. vm_compute. reflexivity. Qed.
Lemma got_f1 : Decrypt demoA (fl_wire f1) = (a1, Ok (str "peer", str "one")).
Proof. vm_compute. reflexivity. Qed.
Lemma run_g1 : Encrypt (demoBytes 32 x12) a1 (str "peer") (str "two") = (a2, Ok (fl_wire g1)).
Proof. vm_compute. reflexivity. Qed.
Lemma got_g1 : Decrypt b1 (fl_wire g1) = (b2, Ok (str "peer", str "two")).
Proof. vm_compute. reflexivity. Qed.
Lemma run_f2 : Encrypt (demoBytes 32 x13) b2 (str "peer") (str "three") = (b3, Ok (fl_wire f2)).
Proof. vm_compute. reflexivity. Qed.
Lemma got_f2 : Decrypt a2 (fl_wire f2) = (a3, Ok (str "peer", str "three")).
Proof. vm_compute. reflexivity. Qed.

Lemma demo_send_ok sp b :
  bytes_eqb (x25519_base (demoBytes 32 b)) (DhPublic sp) = false ->
  (SendNonce (sendRatchet (demoBytes 32 b) sp) <? 2 ^ 31) = true -> send_ok (demoBytes 32 b) sp.
Proof. intros H1 H2. split; [done|]. split; [by apply bytes_eqb_neq|by apply Z.ltb_lt]. Qed.

Lemma demo_run :
  steps (Net demoA demoB [] [])
    [Sent; Delivered f1 (Ok (str "peer", str "one")); Sent; Delivered g1 (Ok (str "peer", str "two"));
     Reloaded; Sent; Delivered f2 (Ok (str "peer", str "three"))]
    (Net a3 b3 [] []).
Proof.
  eapply steps_cons; [eapply step_send_b; [|exact run_f1]; apply demo_send_ok; vm_compute; reflexivity|].
  eapply steps_cons; [apply step_recv_a; exact got_f1|].
  eapply steps_cons; [eapply step_send_a; [|exact run_g1]; apply demo_send_ok; vm_compute; reflexivity|].
  eapply steps_cons; [apply step_recv_b; exact got_g1|].
  eapply steps_cons; [apply step_reload_a|]. change (reload a2) with a2.
  eapply steps_cons; [eapply step_send_b; [|exact run_f2]; apply demo_send_ok; vm_compute; reflexivity|].
  eapply steps_cons; [apply step_recv_a; exact got_f2|]. apply steps_nil.
Qed.

Lemma ordered_delivery_witness :
  exists es : list event, (length es = 7)%nat /\ steps (Net demoA demoB [] []) es (Net a3 b3 [] []) /\
    Forall faithful es /\ synced (Net a3 b3 [] []).
Proof.
  eexists. split; [|split; [exact demo_run|]]; [reflexivity|].
  exact (ordered_delivery_faithful _ _ _ demo_synced demo_run).
Defined.

(** Sessions that send without rotating: frames of one chain. *)
Lemma synced_idle `{N : Nanopack} `{P : Prims} a b :
  synced (Net a b [] []) ->
  wf_peer a /\ wf_peer b /\ HmacKey a = HmacKey b /\ quiet a b [] [].
Proof.
  intros (Ha & Hb & Hh & [Hq|[((o & q1 & q2 & Hq & Hne & _) & _)|((o & q1 & q2 & Hq & Hne & _) & _)]]);
    [done|..]; destruct q1, q2; done.
Qed.

Lemma chain_of `{N : Nanopack} `{NL : !NanopackLaws} `{P : Prims} `{PL : !PrimLaws} k x y :
  wf_peer x -> HmacKey x = HmacKey y -> pendingDhRatchet x = false -> linked x y [] -> SendNonce x = 0 ->
  Z.of_nat k <= 2 ^ 30 ->
  exists x' q, length q = k /\ linked x' y q /\ wf_peer x' /\ HmacKey x' = HmacKey y /\
    pendingDhRatchet x' = false /\ SendNonce x' = Z.of_nat k.
Proof.
  intros Hw Hh Hp Hl Hn. induction k as [|k IH]; intros Hk; [by exists x, []|].
  destruct IH as (x' & q & <- & Hl' & Hw' & Hh' & Hp' & Hn'); [lia|].
  destruct (Encrypt_total [] x' [] []) as [w Hw1]; [done|done| |].
  { rewrite sendRatchet_idle by done. destruct Hw'. rewrite wf_pub. by apply length_x25519_base. }
  destruct (Encrypt_good _ _ _ _ _ _ Hw1) as [_ Hg]; rewrite sendRatchet_idle in * by done.
  { destruct Hw'; lia. }
  exists (afterSend x'), (q ++ [Flight w [] []]).
  split; [rewrite length_app; simpl; lia|]. split; [apply linked_send; try done; lia|].
  split; [apply wf_afterSend; try done; lia|]. split; [done|]. split; [done|].
  rewrite SendNonce_afterSend by lia. lia.
Qed.

Lemma demoA_idle : pendingDhRatchet demoA = false.
Proof. reflexivity. Qed.

Lemma demoA_counter : SendNonce demoA = 0.
Proof. reflexivity. Qed.

Lemma demoB_counter : RecvNonce demoB = 0.
Proof. reflexivity. Qed.

Lemma demoB_stash key n i : SkippedMessages demoB !! skipKey key n i = None.
Proof.
  destruct (synced_idle _ _ demo_synced) as (_ & Hb & _). by rewrite (wf_skipped _ Hb), lookup_empty.
Qed.

Lemma demo_chain k :
  Z.of_nat k <= 2 ^ 30 ->
  exists key q, length q = k /\ RemoteDhPublic demoB = Some key /\
    frames_ok (HmacKey demoB) key (RecvNonce demoB) (RecvCk demoB) q.
Proof.
  intros Hk. destruct (synced_idle _ _ demo_synced) as (Ha & _ & Hh & (Hl & _)).
  destruct (chain_of k _ _ Ha Hh demoA_idle Hl demoA_counter Hk) as (x & q & Hq & (Hr & Hf & _) & _).
  exists (DhPublic x), q. split; [exact Hq|]. split; [exact Hr|exact Hf].
Qed.

Lemma exactly_once_witness :
  exists frames, length frames = 3%nat /\
  (deliverAll demoB (wireAt frames <$> [2; 0; 2; 1; 0]%nat)).2
  = reorderSpec (RecvNonce demoB) frames 0 [] [2; 0; 2; 1; 0]%nat.
Proof.
  destruct (demo_chain 3) as (key & q & Hq & Hr & Hf); [lia|].
  exists q. split; [exact Hq|]. apply (exactly_once_within_epoch demoB key q).
  - rewrite demoB_counter. lia.
  - exact Hr.
  - intros i. apply demoB_stash.
  - exact Hf.
  - rewrite Hq. repeat (apply List.Forall_cons; [lia|]). apply List.Forall_nil.
Defined.

(** The first frame with the last byte of its tag changed. *)
Definition forged : bytes := take 105 (fl_wire f1) ++ [x00].

Lemma unauthentic_frame_witness :
  (Decrypt demoA forged).1 = demoA /\ isOk (Decrypt demoA forged).2 = false.
Proof.
  apply (unauthentic_frame_no_effect demoA forged).
  - apply surjective_pairing.
  - intros msg c Hp Hc Ht.
    assert (match parseSecureMessage forged with
            | Ok m => match secureMessageHmacPayload m with
                      | Some c => bytes_eqb (Tag m) (hmacTag (HmacKey demoA) c) | None => false end
            | _ => true end = false) as H by (vm_compute; reflexivity).
    rewrite Hp, Hc, Ht, bytes_eqb_refl in H. discriminate.
Defined.

Lemma encrypt_total_witness :
  let s := sendRatchet (demoBytes 32 x11) demoB in
  exists wire, Encrypt (demoBytes 32 x11) demoB (str "peer") (str "one") = (afterSend s, Ok wire) /\
    SendNonce (afterSend s) = SendNonce s + 1 /\
    good_frame (HmacKey s) (DhPublic s) (SendNonce s) (msgKey (SendCk s)) (str "peer") (str "one") wire.
Proof.
  apply (encrypt_total (demoBytes 32 x11) demoB (str "peer") (str "one")).
  - vm_compute; reflexivity.
  - vm_compute; reflexivity.
  - reflexivity.
  - vm_compute; reflexivity.
  - vm_compute; split; [discriminate|reflexivity].
Defined.

Lemma skipped_keys_unbounded_witness :
  exists key sp' name pt wire, Decrypt demoB wire = (sp', Ok (name, pt)) /\
    forall i, (i < Z.to_nat maxSkip + 1)%nat ->
      SkippedMessages sp' !! skipKey key (RecvNonce demoB) i = Some (msgKey (ckN i (RecvCk demoB))).
Proof.
  destruct (demo_chain (Z.to_nat maxSkip + 2)) as (key & q & Hq & Hr & Hf); [vm_compute; discriminate|].
  destruct (lookup_lt_is_Some_2 q (Z.to_nat maxSkip + 1)) as [f Hi]; [rewrite Hq; lia|].
  pose proof (frames_ok_lookup _ _ _ _ _ _ _ Hf Hi) as Hg.
  destruct (skipped_keys_unbounded demoB key (Z.to_nat maxSkip + 1) (fl_name f) (fl_text f) (fl_wire f)) as (sp' & H).
  - rewrite demoB_counter. lia.
  - exact Hr.
  - intros i. apply demoB_stash.
  - exact Hg.
  - exists key, sp', (fl_name f), (fl_text f), (fl_wire f). exact H.
Defined.

(** The past-epoch frame [f1], handed over once more after two rotations, and
    the next genuine frame. *)
Definition a4 : SecurePeer := Eval vm_compute in recvBy a3 f1.
Definition f3 : flight := Eval vm_compute in demoFlight b3 x14 (str "four").

Lemma got_f1_again : Decrypt a3 (fl_wire f1) = (a4, Err DecAEAD).
Proof. vm_compute. reflexivity. Qed.

Lemma f1_good :
  good_frame (HmacKey a3) (x25519_base (demoBytes 32 x11)) 0
    (msgKey (SendCk (sendRatchet (demoBytes 32 x11) demoB))) (str "peer") (str "one") (fl_wire f1).
Proof.
  destruct (Encrypt_good _ _ _ _ _ _ run_f1) as [_ Hg].
  { vm_compute; split; [discriminate|reflexivity]. }
  assert (HmacKey (sendRatchet (demoBytes 32 x11) demoB) = HmacKey a3) as H1 by (vm_compute; reflexivity).
  assert (DhPublic (sendRatchet (demoBytes 32 x11) demoB) = x25519_base (demoBytes 32 x11)) as H2 by (vm_compute; reflexivity).
  assert (SendNonce (sendRatchet (demoBytes 32 x11) demoB) = 0) as H3 by (vm_compute; reflexivity).
  rewrite H1, H2, H3 in Hg. exact Hg.
Qed.

Lemma past_epoch_frame_witness :
  let key := x25519_base (demoBytes 32 x11) in
  (RemoteDhPublic a4 = Some key /\ pendingDhRatchet a4 = true /\
   RootKey a4 = (rootStep (set_RemoteDhPublic (Some key) a3)).1 /\
   (forall a b, (Decrypt a3 (fl_wire f1)).2 ≠ Err (ErrReplay a b))) /\
  (** Without the old frame the next message decrypts; after it, it does not. *)
  (Decrypt a3 (fl_wire f3)).2 = Ok (str "peer", str "four") /\
  (Decrypt a4 (fl_wire f3)).2 = Err DecAEAD.
Proof.
  assert (RemoteDhPublic a3 = Some (x25519_base (demoBytes 32 x13))) as Hr by (vm_compute; reflexivity).
  assert (x25519_base (demoBytes 32 x13) ≠ x25519_base (demoBytes 32 x11)) as Hne by (vm_compute; discriminate).
  assert (SkippedMessages a3 !! getSkipKeyStr (b64Encode (x25519_base (demoBytes 32 x11))) 0 = None) as Hs
    by (vm_compute; reflexivity).
  pose proof (past_epoch_frame_rotates a3 _ _ _ _ _ _ _ f1_good Hr Hne Hs) as H.
  split; [|split; vm_compute; reflexivity].
  rewrite got_f1_again in H |- *. exact H.
Defined.

Definition f1' : flight := Eval vm_compute in demoFlight (reload demoB) x11 (str "one").

Lemma reload_run : exists n,
  steps (Net (reload demoA) (reload demoB) [] []) [Sent; Delivered f1' (Ok (str "peer", str "one"))] n.
Proof.
  eexists. eapply steps_cons.
  { apply (step_send_b (demoBytes 32 x11) (str "peer") (str "one") (fl_wire f1') (reload demoA) (reload demoB)
      (afterSend (reload demoB))); [apply demo_send_ok; vm_compute; reflexivity|]. vm_compute. reflexivity. }
  eapply steps_cons; [|apply steps_nil].
  apply (step_recv_a f1' (Ok (str "peer", str "one")) (reload demoA) (afterRecv (reload demoA))).
  vm_compute. reflexivity.
Qed.

Lemma reload_disables_rotation_witness :
  exists n, steps (Net (reload demoA) (reload demoB) [] []) [Sent; Delivered f1' (Ok (str "peer", str "one"))] n /\
    keys_of n = (DhPublic demoA, DhPublic demoB) /\ pendingDhRatchet demoB = true.
Proof.
  destruct reload_run as [n Hst]. exists n. split; [exact Hst|]. split; [|reflexivity].
  destruct (synced_idle _ _ demo_synced) as (Ha & Hb & Hh & Hq).
  exact (reload_disables_rotation demoA demoB [] [] _ n Ha Hb Hh Hq Hst).
Defined.
