(* ===== verification/Client.v ===== *)
(** * client/: the session manager ([client.go])

    [Sessions] maps names to pointers, so the map and the heap of [SecurePeer]
    objects are kept apart: [CreateOffer] stores one object under two names and
    a handshake finished through one of them is visible through the other.
    [disk] is the content of [<id>.json]; [encoding/json] writes every session
    out by value and leaves [pendingDhRatchet] out ([reload]). *)
From S2P Require Import Prelude GoStd Sha256 External SecurePeer Session Engine.
#[local] Open Scope Z_scope.

Abbreviation loc := nat.

Record Client := mkClient {
  cl_Id : bytes;
  cl_IdentityPrivate : bytes;
  cl_IdentityPublic : bytes;
  cl_DilithiumPrivate : bytes;
  cl_DilithiumPublic : bytes;
  cl_Sessions : gmap bytes loc;
  cl_ephemeral : bool;
  cl_heap : gmap loc SecurePeer;
  cl_next : loc;                             (* every allocated location is below *)
  cl_disk : option (gmap bytes SecurePeer);  (* None: no file *)
}.

Definition set_Sessions (m : gmap bytes loc) (c : Client) : Client :=
  mkClient (cl_Id c) (cl_IdentityPrivate c) (cl_IdentityPublic c) (cl_DilithiumPrivate c) (cl_DilithiumPublic c)
    m (cl_ephemeral c) (cl_heap c) (cl_next c) (cl_disk c).

Definition set_heap (h : gmap loc SecurePeer) (n : loc) (c : Client) : Client :=
  mkClient (cl_Id c) (cl_IdentityPrivate c) (cl_IdentityPublic c) (cl_DilithiumPrivate c) (cl_DilithiumPublic c)
    (cl_Sessions c) (cl_ephemeral c) h n (cl_disk c).

Definition set_disk (d : option (gmap bytes SecurePeer)) (c : Client) : Client :=
  mkClient (cl_Id c) (cl_IdentityPrivate c) (cl_IdentityPublic c) (cl_DilithiumPrivate c) (cl_DilithiumPublic c)
    (cl_Sessions c) (cl_ephemeral c) (cl_heap c) (cl_next c) d.

(** [c.Sessions[name]], followed through the pointer. *)
Definition session (c : Client) (name : bytes) : option SecurePeer :=
  l ← cl_Sessions c !! name; cl_heap c !! l.

(** [&crypto.SecurePeer{...}] and a method that mutates an object in place. *)
Definition alloc (sp : SecurePeer) (c : Client) : Client * loc :=
  (set_heap (<[cl_next c := sp]> (cl_heap c)) (S (cl_next c)) c, cl_next c).

Definition store (l : loc) (sp : SecurePeer) (c : Client) : Client :=
  set_heap (<[l := sp]> (cl_heap c)) (cl_next c) c.

(** The JSON form of the session map. *)
Definition snapshot (c : Client) : gmap bytes SecurePeer :=
  omap (fun l => reload <$> cl_heap c !! l) (cl_Sessions c).

(** [io] is false when marshalling or writing fails: the error is only printed. *)
Definition SaveClient (io : bool) (c : Client) : Client :=
  if cl_ephemeral c then c
  else if io then set_disk (Some (snapshot c)) c else c.

(** Reading the file back: one object per name. *)
Fixpoint loadSessions (l : list (bytes * SecurePeer)) (c : Client) : Client :=
  match l with
  | [] => c
  | (name, sp) :: l =>
      let c := loadSessions l c in
      let '(c, p) := alloc sp c in
      set_Sessions (<[name := p]> (cl_Sessions c)) c
  end.

Definition LoadClient (c : Client) : option Client :=
  d ← cl_disk c;
  Some (loadSessions (map_to_list d)
    (mkClient (cl_Id c) (cl_IdentityPrivate c) (cl_IdentityPublic c) (cl_DilithiumPrivate c)
       (cl_DilithiumPublic c) ∅ false ∅ O (cl_disk c))).

Inductive client_err :=
| ClEngine (e : eng_err)
| ClPeek (e : eng_err)
| ClNoPending (peer : bytes)
| ClNoSession (peer : bytes)
| ClEncrypt (e : enc_err)
| ClFrame (e : frame_err)
| ClDecrypt (e : dec_err).

Definition pendingKey : bytes := str "pending".
Definition pendingFor (peer : bytes) : bytes := str "pending_" ++ peer.

Section Client.
Context `{N : Nanopack} `{P : Prims} `{J : LegacyJSON}.

(** The caller hands over its session map together with the objects it points to. *)
Definition NewClientFromKeys (id privEd pubEd dilPriv dilPub : bytes)
    (sessions : gmap bytes loc) (heap : gmap loc SecurePeer) (next : loc) : Client :=
  mkClient id privEd pubEd dilPriv dilPub sessions true heap next None.

(** [rEd] stands for the generated Ed25519 private key, [rDil] for the bytes
    [GenerateDilithiumKeyPair] draws. *)
Definition NewClient (io : bool) (rEd rDil : bytes) : Client :=
  let pubEd := ed25519_public rEd in
  let '(dilPriv, dilPub) := dil_keygen rDil in
  SaveClient io (mkClient (DerivePeerID pubEd dilPub) rEd pubEd dilPriv dilPub ∅ false ∅ O None).

Definition Client_CreateOffer (io : bool) (r : PeerRand) (oid : bytes) (c : Client) (peerId : bytes)
  : Client * res client_err bytes :=
  match CreateOffer r oid (cl_Id c) (cl_IdentityPrivate c) (cl_IdentityPublic c)
          (cl_DilithiumPrivate c) (cl_DilithiumPublic c) peerId with
  | Panic => (c, Panic)
  | Err e => (c, Err (ClEngine e))
  | Ok (peer, offer) =>
      let '(c, p) := alloc peer c in
      let c := if bool_decide (peerId = []) then c
               else set_Sessions (<[pendingFor peerId := p]> (cl_Sessions c)) c in
      let c := set_Sessions (<[pendingKey := p]> (cl_Sessions c)) c in
      (SaveClient io c, Ok offer)
  end.

Definition Client_AcceptOffer (io : bool) (r : PeerRand) (rEncaps : bytes) (c : Client) (offerBytes : bytes)
  : Client * res client_err bytes :=
  match AcceptOffer r rEncaps (cl_Id c) (cl_IdentityPrivate c) (cl_IdentityPublic c)
          (cl_DilithiumPrivate c) (cl_DilithiumPublic c) (session c) offerBytes with
  | Panic => (c, Panic)
  | Err e => (c, Err (ClEngine e))
  | Ok (senderID, peer, answer) =>
      let '(c, p) := alloc peer c in
      let c := set_Sessions (<[senderID := p]> (cl_Sessions c)) c in
      (SaveClient io c, Ok answer)
  end.

(** The pending object for an answer from [hdr]: its own slot, else the shared one. *)
Definition pendingLoc (c : Client) (hdr : bytes) : option loc :=
  match cl_Sessions c !! pendingFor hdr with
  | Some p => Some p
  | None => cl_Sessions c !! pendingKey
  end.

Definition Client_FinishHandshake (io : bool) (c : Client) (answerBytes : bytes)
  : Client * res client_err bytes :=
  match PeekAnswerSenderID answerBytes with
  | Panic => (c, Panic)
  | Err e => (c, Err (ClPeek e))
  | Ok hdr =>
      match pendingLoc c hdr with
      | None => (c, Err (ClNoPending hdr))
      | Some p =>
          match cl_heap c !! p with
          | None => (c, Panic)
          | Some peer =>
              let '(peer, r) := FinishHandshake (cl_Id c) peer answerBytes in
              let c := store p peer c in
              match r with
              | Panic => (c, Panic)
              | Err e => (c, Err (ClEngine e))
              | Ok peerID =>
                  let c := set_Sessions (delete pendingKey (cl_Sessions c)) c in
                  let c := set_Sessions (delete (pendingFor peerID) (cl_Sessions c)) c in
                  let c := set_Sessions (<[peerID := p]> (cl_Sessions c)) c in
                  (SaveClient io c, Ok peerID)
              end
          end
      end
  end.

Definition Client_Encrypt (io : bool) (rnd : bytes) (c : Client) (peerID message : bytes)
  : Client * res client_err bytes :=
  match cl_Sessions c !! peerID with
  | None => (c, Err (ClNoSession peerID))
  | Some p =>
      match cl_heap c !! p with
      | None => (c, Panic)
      | Some sp =>
          let '(sp, r) := Encrypt rnd sp (cl_Id c) message in
          let c := store p sp c in
          match r with
          | Panic => (c, Panic)
          | Err e => (c, Err (ClEncrypt e))
          | Ok ciphertext => (SaveClient io c, Ok ciphertext)
          end
      end
  end.

(** The session an incoming frame selects. *)
Definition sessionFor (c : Client) (claimed : bytes) : option loc :=
  match cl_Sessions c !! claimed with
  | Some p => Some p
  | None => pendingLoc c claimed
  end.

Definition Client_Decrypt (io : bool) (c : Client) (payload : bytes)
  : Client * res client_err (bytes * bytes) :=
  match SenderIDFromFrame payload with
  | Panic => (c, Panic)
  | Err e => (c, Err (ClFrame e))
  | Ok claimed =>
      match sessionFor c claimed with
      | None => (c, Err (ClNoSession claimed))
      | Some p =>
          match cl_heap c !! p with
          | None => (c, Panic)
          | Some sp =>
              let '(sp, r) := Decrypt sp payload in
              let c := store p sp c in
              match r with
              | Panic => (c, Panic)
              | Err e => (c, Err (ClDecrypt e))
              | Ok m => (SaveClient io c, Ok m)
              end
          end
      end
  end.

(** ** Any sequence of operations *)
Inductive op :=
| OpCreateOffer (r : PeerRand) (oid peerId : bytes)
| OpAcceptOffer (r : PeerRand) (rEncaps offerBytes : bytes)
| OpFinishHandshake (answerBytes : bytes)
| OpEncrypt (rnd peerID message : bytes)
| OpDecrypt (payload : bytes)
| OpReload.

Definition perform (io : bool) (o : op) (c : Client) : Client :=
  match o with
  | OpCreateOffer r oid peerId => (Client_CreateOffer io r oid c peerId).1
  | OpAcceptOffer r e offer => (Client_AcceptOffer io r e c offer).1
  | OpFinishHandshake a => (Client_FinishHandshake io c a).1
  | OpEncrypt rnd peer m => (Client_Encrypt io rnd c peer m).1
  | OpDecrypt w => (Client_Decrypt io c w).1
  | OpReload => default c (LoadClient c)
  end.

Definition performAll (ops : list (bool * op)) (c : Client) : Client :=
  fold_left (fun c o => perform o.1 o.2 c) ops c.

End Client.
