(* ===== verification/ClientFacts.v ===== *)
(** * Facts about the session manager

    Pointers stay valid, the file holds what memory holds, accepted offers stay
    refused, and what finishing a handshake does to the shared pending object. *)
From S2P Require Import Prelude GoStd Sha256 External SecurePeer SecurePeerFacts Session Engine EngineFacts Client.
#[local] Open Scope Z_scope.

(** Every name points to an object, and new objects get new locations. *)
Record client_wf (c : Client) : Prop := {
  cw_valid name l : cl_Sessions c !! name = Some l -> is_Some (cl_heap c !! l);
  cw_below l : is_Some (cl_heap c !! l) -> (l < cl_next c)%nat;
}.

(** Two clients with the same sessions and objects. *)
Lemma client_wf_alloc c sp : client_wf c -> client_wf (alloc sp c).1.
Proof.
  intros [Hv Hb]. split; cbn.
  - intros name l Hl. apply lookup_insert_is_Some'. right. by eapply Hv.
  - intros l Hl. apply lookup_insert_is_Some' in Hl as [<-|Hl]; [lia|]. specialize (Hb l Hl). lia.
Qed.

Lemma client_wf_store c p sp sp0 : client_wf c -> cl_heap c !! p = Some sp0 -> client_wf (store p sp c).
Proof.
  intros [Hv Hb] Hp. split; cbn.
  - intros name l Hl. apply lookup_insert_is_Some'. right. by eapply Hv.
  - intros l Hl. apply lookup_insert_is_Some' in Hl as [<-|Hl]; apply Hb; [by exists sp0|done].
Qed.

Lemma client_wf_bind c name p :
  client_wf c -> is_Some (cl_heap c !! p) -> client_wf (set_Sessions (<[name := p]> (cl_Sessions c)) c).
Proof.
  intros [Hv Hb] Hp. split; cbn; [|done]. intros n l Hl.
  apply lookup_insert_Some in Hl as [[_ <-]|[_ Hl]]; [done|]. by eapply Hv.
Qed.

Lemma client_wf_drop c name : client_wf c -> client_wf (set_Sessions (delete name (cl_Sessions c)) c).
Proof.
  intros [Hv Hb]. split; cbn; [|done]. intros n l Hl. apply lookup_delete_Some in Hl as [_ Hl]. by eapply Hv.
Qed.

Lemma client_wf_save io c : client_wf c -> client_wf (SaveClient io c).
Proof. intros [Hv Hb]. unfold SaveClient. destruct (cl_ephemeral c), io; by split. Qed.

Lemma alloc_here sp c : cl_heap (alloc sp c).1 !! cl_next c = Some sp.
Proof. cbn. apply lookup_insert_eq. Qed.

Lemma alloc_valid sp c : is_Some (cl_heap (alloc sp c).1 !! (alloc sp c).2).
Proof. exists sp. apply alloc_here. Qed.

#[export] Hint Resolve client_wf_alloc client_wf_store client_wf_bind client_wf_drop client_wf_save : nextalk.

(** ** Reading names after an allocation *)
Lemma session_bind_new c name sp n :
  client_wf c ->
  let c' := set_Sessions (<[name := cl_next c]> (cl_Sessions c)) (alloc sp c).1 in
  session c' n = if decide (n = name) then Some sp else session c n.
Proof.
  intros Hwf c'. subst c'. unfold session. cbn. destruct (decide (n = name)) as [->|Hne].
  - rewrite lookup_insert_eq. cbn. by rewrite lookup_insert_eq.
  - rewrite lookup_insert_ne by done. destruct (cl_Sessions c !! n) as [l|] eqn:Hl; [|done]. cbn.
    destruct Hwf as [Hv Hb]. pose proof (Hb l (Hv _ _ Hl)). rewrite lookup_insert_ne by lia. done.
Qed.

Lemma loadSessions_cons name sp l c :
  let c1 := loadSessions l c in
  loadSessions ((name, sp) :: l) c
  = set_Sessions (<[name := cl_next c1]> (cl_Sessions c1)) (alloc sp c1).1.
Proof. done. Qed.

Lemma loadSessions_wf l c : client_wf c -> client_wf (loadSessions l c).
Proof.
  intros Hwf. induction l as [|[name sp] l IH]; [done|]. rewrite loadSessions_cons. cbv zeta.
  apply (client_wf_bind (alloc sp (loadSessions l c)).1); [auto with nextalk|].
  by rewrite alloc_here.
Qed.

Lemma loadSessions_lookup l c n sp :
  client_wf c -> NoDup l.*1 -> (n, sp) ∈ l -> session (loadSessions l c) n = Some sp.
Proof.
  intros Hwf. induction l as [|[name sp'] l IH]; intros Hnd Hin; [by apply not_elem_of_nil in Hin|].
  cbn in Hnd. inversion_clear Hnd as [|? ? Hni Hnd']. rewrite loadSessions_cons. cbv zeta.
  rewrite (session_bind_new (loadSessions l c) name sp' n (loadSessions_wf _ _ Hwf)).
  apply elem_of_cons in Hin as [[= -> ->]|Hin]; [by rewrite decide_True|].
  rewrite decide_False; [by apply IH|]. intros ->. apply Hni, list_elem_of_fmap. by exists (name, sp).
Qed.

Lemma loadSessions_none l c n :
  client_wf c -> session c n = None -> n ∉ l.*1 -> session (loadSessions l c) n = None.
Proof.
  intros Hwf H0. induction l as [|[name sp'] l IH]; intros Hni; [done|].
  cbn in Hni. apply not_elem_of_cons in Hni as [Hne Hni]. rewrite loadSessions_cons. cbv zeta.
  rewrite (session_bind_new (loadSessions l c) name sp' n (loadSessions_wf _ _ Hwf)).
  rewrite decide_False by done. by apply IH.
Qed.

Lemma snapshot_lookup c n : client_wf c -> snapshot c !! n = reload <$> session c n.
Proof.
  intros Hwf. unfold snapshot, session. rewrite lookup_omap. by destruct (cl_Sessions c !! n).
Qed.

(** What [LoadClient] reads is what [SaveClient] saw. *)
Lemma save_load c :
  client_wf c -> cl_ephemeral c = false ->
  exists c', LoadClient (SaveClient true c) = Some c' /\ client_wf c' /\ cl_Id c' = cl_Id c /\
    forall n, session c' n = reload <$> session c n.
Proof.
  intros Hwf He. unfold LoadClient, SaveClient. rewrite He. cbn [cl_disk set_disk mbind option_bind].
  eexists. split; [done|]. set (c0 := mkClient _ _ _ _ _ _ _ _ _ _).
  assert (client_wf c0) as Hw0.
  { split; cbn; [intros ? ? H; by rewrite lookup_empty in H|intros ? H; rewrite lookup_empty in H; by destruct H]. }
  split; [by apply loadSessions_wf|]. split.
  - assert (forall l, cl_Id (loadSessions l c0) = cl_Id c0) as H; [|by rewrite H].
    induction l as [|[? ?] l IH]; done.
  - intros n. rewrite <- snapshot_lookup by done.
    destruct (snapshot c !! n) as [sp|] eqn:Hn.
    + apply loadSessions_lookup; [done|apply NoDup_fst_map_to_list|by apply elem_of_map_to_list].
    + apply loadSessions_none; [done|done|]. intros Hin. apply list_elem_of_fmap in Hin as ([m sp] & -> & Hin).
      apply elem_of_map_to_list in Hin. by simplify_eq/=.
Qed.

(** ** Pointers stay valid *)
Section Ops.
Context `{N : Nanopack} `{P : Prims} `{J : LegacyJSON}.

Lemma pendingLoc_valid c hdr p : client_wf c -> pendingLoc c hdr = Some p -> is_Some (cl_heap c !! p).
Proof. intros [Hv _]. unfold pendingLoc. case_match; intros; simplify_eq; by eapply Hv. Qed.

Lemma sessionFor_valid c name p : client_wf c -> sessionFor c name = Some p -> is_Some (cl_heap c !! p).
Proof.
  intros Hwf. unfold sessionFor. case_match; intros; simplify_eq; [by eapply cw_valid|by eapply pendingLoc_valid].
Qed.

Lemma CreateOffer_wf io r oid c peer : client_wf c -> client_wf (Client_CreateOffer io r oid c peer).1.
Proof.
  intros Hwf. unfold Client_CreateOffer. destruct (CreateOffer _ _ _ _ _ _ _ _) as [[sp w]|e|]; [|done..].
  rewrite (surjective_pairing (alloc sp c)). cbn [fst]. apply client_wf_save.
  assert (client_wf (alloc sp c).1) as H1 by auto with nextalk.
  pose proof (alloc_valid sp c) as Hv.
  case_bool_decide; repeat (apply client_wf_bind; [|exact Hv]); done.
Qed.

Lemma AcceptOffer_wf io r e c offer : client_wf c -> client_wf (Client_AcceptOffer io r e c offer).1.
Proof.
  intros Hwf. unfold Client_AcceptOffer. destruct (AcceptOffer _ _ _ _ _ _ _ _ _) as [[[s sp] w]|x|]; [|done..].
  rewrite (surjective_pairing (alloc sp c)). cbn [fst]. apply client_wf_save.
  apply client_wf_bind; [auto with nextalk|apply alloc_valid].
Qed.

Lemma store_valid c p sp : is_Some (cl_heap (store p sp c) !! p).
Proof. cbn. rewrite lookup_insert_eq. by eexists. Qed.

Lemma FinishHandshake_wf io c a : client_wf c -> client_wf (Client_FinishHandshake io c a).1.
Proof.
  intros Hwf. unfold Client_FinishHandshake. destruct (PeekAnswerSenderID a) as [hdr|e|]; [|done..].
  destruct (pendingLoc c hdr) as [p|]; [|done]. destruct (cl_heap c !! p) as [sp|] eqn:Hh; [|done].
  destruct (FinishHandshake _ sp a) as [sp' [pid|e|]]; cbn [fst];
    pose proof (client_wf_store c p sp' sp Hwf Hh) as H1; [|done..].
  apply client_wf_save, client_wf_bind; [auto with nextalk|]. apply store_valid.
Qed.

Lemma Encrypt_wf io rnd c peer m : client_wf c -> client_wf (Client_Encrypt io rnd c peer m).1.
Proof.
  intros Hwf. unfold Client_Encrypt. destruct (cl_Sessions c !! peer) as [p|]; [|done].
  destruct (cl_heap c !! p) as [sp|] eqn:Hh; [|done].
  destruct (Encrypt rnd sp _ _) as [sp' [w|e|]]; cbn [fst]; eauto with nextalk.
Qed.

Lemma Decrypt_wf io c w : client_wf c -> client_wf (Client_Decrypt io c w).1.
Proof.
  intros Hwf. unfold Client_Decrypt. destruct (SenderIDFromFrame w) as [s|e|]; [|done..].
  destruct (sessionFor c s) as [p|]; [|done]. destruct (cl_heap c !! p) as [sp|] eqn:Hh; [|done].
  destruct (Decrypt sp w) as [sp' [m|e|]]; cbn [fst]; eauto with nextalk.
Qed.

Lemma LoadClient_wf c c' : LoadClient c = Some c' -> client_wf c'.
Proof.
  unfold LoadClient. destruct (cl_disk c); [|done]. intros [= <-]. apply loadSessions_wf.
  split; cbn; [intros ? ? H; by rewrite lookup_empty in H|intros ? H; rewrite lookup_empty in H; by destruct H].
Qed.

Lemma perform_wf io o c : client_wf c -> client_wf (perform io o c).
Proof.
  intros Hwf. destruct o; cbn [perform]; auto using CreateOffer_wf, AcceptOffer_wf, FinishHandshake_wf, Encrypt_wf, Decrypt_wf.
  destruct (LoadClient c) as [c'|] eqn:Hl; [by eapply LoadClient_wf|done].
Qed.

(** ** The offers a session remembers *)
Lemma skipUntil_seen n sp : SeenOffers (skipUntil n sp) = SeenOffers sp.
Proof.
  unfold skipUntil. generalize (Z.to_nat (n - RecvNonce sp)) as k. intros k. revert sp.
  induction k as [|k IH]; intros sp; cbn [skipLoop]; [done|].
  destruct (_ <? _); [|done]. rewrite IH. unfold stashKey. by destruct (RatchetStep _).
Qed.

Lemma sendRatchet_seen rnd sp : SeenOffers (sendRatchet rnd sp) = SeenOffers sp.
Proof.
  unfold sendRatchet. destruct (pendingDhRatchet sp); [|done].
  cbn [GenerateX25519KeyPair]. by destruct (rootStep _).
Qed.

Lemma Encrypt_seen rnd sp name pt : SeenOffers (Encrypt rnd sp name pt).1 = SeenOffers sp.
Proof.
  unfold Encrypt. cbn [lowSecurity negb]. pose proof (sendRatchet_seen rnd sp) as H.
  destruct (RatchetStep _) as [ck mk]. destruct (len mk =? 32); cbn [negb]; [|done].
  destruct (secureMessageHmacPayload _); [|done]. by destruct (np_encode _).
Qed.

Lemma decryptAuth_seen sp msg : SeenOffers (decryptAuth sp msg).1 = SeenOffers sp.
Proof.
  unfold decryptAuth. cbn [lowSecurity]. destruct (SkippedMessages sp !! _); [done|].
  assert (forall k, SeenOffers (DhRatchet sp k) = SeenOffers sp) as Hd
    by (intros k; unfold DhRatchet; by destruct (rootStep _)).
  set (s := match RemoteDhPublic sp with Some _ => _ | None => _ end).
  assert (SeenOffers s = SeenOffers sp) as Hs by (unfold s; repeat case_match; auto).
  destruct (_ <? _); [done|]. destruct (RatchetStep _). cbn. by rewrite skipUntil_seen.
Qed.

Lemma Decrypt_seen sp w : SeenOffers (Decrypt sp w).1 = SeenOffers sp.
Proof.
  unfold Decrypt. destruct (parseSecureMessage w); [|done..]. destruct (secureMessageHmacPayload _); [|done].
  destruct (negb _); [done|]. apply decryptAuth_seen.
Qed.

Lemma Handshake_seen sp p ss oid rid : SeenOffers (Handshake sp p ss oid rid).1 = SeenOffers sp.
Proof.
  unfold Handshake. do 4 (match goal with |- context [if ?b then _ else _] => destruct b end; [done|]).
  destruct (x25519 _ _) as [ecc|]; [|done].
  by destruct (establish_same sp p ecc ss) as (_ & _ & _ & _ & _ & _ & _ & _ & _ & ?).
Qed.

Lemma FinishHandshake_seen id sp a : SeenOffers (FinishHandshake id sp a).1 = SeenOffers sp.
Proof.
  unfold FinishHandshake. destruct (decodeAnswer a) as [an|e|]; [|done..].
  do 3 (match goal with |- context [if ?b then _ else _] => destruct b end; [done|]).
  destruct (kyber_decaps _ _) as [ss|]; [|done]. destruct (base58_decode id) as [rid|]; [|done].
  pose proof (Handshake_seen sp (answerKeys an) ss (an_OfferID an) rid) as Hh. by destruct (Handshake _ _ _ _ _).
Qed.

Lemma FinishHandshake_id id sp a an x :
  decodeAnswer a = Ok an -> (FinishHandshake id sp a).2 = Ok x -> x = an_SenderId an.
Proof.
  intros Ha. unfold FinishHandshake. rewrite Ha.
  do 3 (match goal with |- context [if ?b then _ else _] => destruct b end; [done|]).
  destruct (kyber_decaps _ _); [|done]. destruct (base58_decode _); [|done].
  destruct (Handshake _ _ _ _ _) as [? [[]|?|]]; cbn; congruence.
Qed.

Definition offersOf (c : Client) (name : bytes) : gmap bytes bool := seenBy (session c name).

Lemma offersOf_save io c name : offersOf (SaveClient io c) name = offersOf c name.
Proof. unfold SaveClient. by destruct (cl_ephemeral c), io. Qed.

Lemma offersOf_store p sp sp0 c name :
  cl_heap c !! p = Some sp0 -> SeenOffers sp = SeenOffers sp0 -> offersOf (store p sp c) name = offersOf c name.
Proof.
  intros Hp Hs. unfold offersOf, session. cbn. destruct (cl_Sessions c !! name) as [l|]; [|done]. cbn.
  destruct (decide (l = p)) as [->|Hne].
  - by rewrite lookup_insert_eq, Hp.
  - by rewrite lookup_insert_ne by done.
Qed.

Lemma offersOf_Encrypt io rnd c peer m name : offersOf (Client_Encrypt io rnd c peer m).1 name = offersOf c name.
Proof.
  unfold Client_Encrypt. destruct (cl_Sessions c !! peer) as [p|]; [|done].
  destruct (cl_heap c !! p) as [sp|] eqn:Hp; [|done].
  pose proof (Encrypt_seen rnd sp (cl_Id c) m) as He.
  destruct (Encrypt _ _ _ _) as [sp' [w|e|]]; cbn [fst] in *; rewrite ?offersOf_save; by eapply offersOf_store.
Qed.

Lemma offersOf_Decrypt io c w name : offersOf (Client_Decrypt io c w).1 name = offersOf c name.
Proof.
  unfold Client_Decrypt. destruct (SenderIDFromFrame w) as [s|e|]; [|done..].
  destruct (sessionFor c s) as [p|]; [|done]. destruct (cl_heap c !! p) as [sp|] eqn:Hp; [|done].
  pose proof (Decrypt_seen sp w) as He.
  destruct (Decrypt _ _) as [sp' [m|e|]]; cbn [fst] in *; rewrite ?offersOf_save; by eapply offersOf_store.
Qed.

(** ** No step panics on a live session *)
Lemma Encrypt_no_panic rnd sp name pt : (Encrypt rnd sp name pt).2 ≠ Panic.
Proof.
  unfold Encrypt. cbn [lowSecurity negb]. destruct (RatchetStep _) as [ck mk].
  destruct (negb _); [done|]. destruct (secureMessageHmacPayload _); [|done]. by destruct (np_encode _).
Qed.

Lemma UnmarshalBinID_no_panic fs : forall p, SecureMessage_UnmarshalBinID fs p ≠ Panic.
Proof.
  induction fs as [|[id d] fs IH]; intros p; [done|]. cbn [SecureMessage_UnmarshalBinID].
  assert (SecureMessage_field p (id, d) ≠ Panic) as Hf.
  { unfold SecureMessage_field. destruct p, id; try done. cbn [fst snd]. by destruct (negb _). }
  destruct (SecureMessage_field p (id, d)); [apply IH|done|done].
Qed.

Lemma parse_no_panic w : parseSecureMessage w ≠ Panic.
Proof.
  unfold parseSecureMessage. destruct (np_decode w) as [fs|]; [|done]. cbn [ofOption mbind res_bind].
  pose proof (UnmarshalBinID_no_panic fs emptyMessage) as H.
  destruct (SecureMessage_UnmarshalBinID fs emptyMessage); cbn [mbind res_bind]; [|done|done]. by case_match.
Qed.

Lemma SenderID_no_panic w : SenderIDFromFrame w ≠ Panic.
Proof. unfold SenderIDFromFrame. pose proof (parse_no_panic w). by destruct (parseSecureMessage w). Qed.

Lemma DecryptWithKey_no_panic mk n ct dh : DecryptWithKey mk n ct dh ≠ Panic.
Proof. unfold DecryptWithKey. destruct (negb _); [done|]. by destruct (aead_open _ _ _ _). Qed.

Lemma Decrypt_no_panic sp w : (Decrypt sp w).2 ≠ Panic.
Proof.
  unfold Decrypt. pose proof (parse_no_panic w). destruct (parseSecureMessage w) as [msg|?|]; [|done..].
  destruct (secureMessageHmacPayload _); [|done]. destruct (negb _); [done|].
  unfold decryptAuth. cbn [lowSecurity].
  assert (forall mk n ct dh, (pair (SenderID msg) <$> DecryptWithKey mk n ct dh) ≠ Panic) as Hd.
  { intros mk n ct dh. pose proof (DecryptWithKey_no_panic mk n ct dh). by destruct (DecryptWithKey _ _ _ _). }
  destruct (SkippedMessages sp !! _); [apply Hd|]. destruct (_ <? _); [done|]. destruct (RatchetStep _). apply Hd.
Qed.

Lemma Peek_no_panic a : PeekAnswerSenderID a ≠ Panic.
Proof.
  unfold PeekAnswerSenderID, decodeAnswer. destruct (isJSON a); [by destruct (json_answer a)|].
  by destruct (np_decode a).
Qed.

Lemma Finish_no_panic id sp a : (FinishHandshake id sp a).2 ≠ Panic.
Proof.
  unfold FinishHandshake. pose proof (Peek_no_panic a) as Hp. unfold PeekAnswerSenderID in Hp.
  destruct (decodeAnswer a) as [an|?|]; [|done..].
  do 3 (match goal with |- context [if ?b then _ else _] => destruct b end; [done|]).
  destruct (kyber_decaps _ _); [|done]. destruct (base58_decode _); [|done].
  unfold Handshake. repeat (match goal with |- context [if ?b then _ else _] => destruct b end; [done|]).
  by destruct (x25519 _ _).
Qed.

(** ** What a successful step has checked *)
Lemma Handshake_verified sp p ss oid rid :
  (Handshake sp p ss oid rid).2 = Ok tt ->
  let msg := mjoin [rid; pkPublic p; nilBytes (pkDhPublic p); pkKyber p; pkDilithium p; oid] in
  len (pkIdentity p) = 32 /\ ed25519_verify (pkIdentity p) msg (pkEd25519Sig p) = true /\
  DilithiumVerify (pkDilithium p) msg (pkDilithiumSig p) = true.
Proof.
  cbv zeta. unfold Handshake. destruct (len (pkIdentity p) =? 32) eqn:Hl; [|done]. cbn [negb].
  destruct (ed25519_verify _ _ _) eqn:He; [|done]. cbn [negb].
  destruct (DilithiumVerify _ _ _) eqn:Hd; [|done]. bool_prop. done.
Qed.

Lemma newPeer_seen r h a b c d sp : newPeer r h a b c d = Ok sp -> SeenOffers sp = ∅ /\ IdentityPublic sp = b.
Proof.
  unfold newPeer. cbn [GenerateX25519KeyPair]. destruct (kyber_keygen _) as [[? ?]|]; [|done].
  by intros [= <-].
Qed.

Lemma acceptDecoded_inv r e myId ip iq dp dq existing o s sp w :
  acceptDecoded r e myId ip iq dp dq existing o = Ok (s, sp, w) ->
  checkOffer myId existing o = Ok tt /\ s = of_SenderId o /\
  SeenOffers sp = <[base58_encode (of_OfferID o) := true]> (seenBy existing) /\
  exists sp0 ss, (Handshake sp0 (offerKeys o) ss (of_OfferID o) (nilBytes (base58_decode myId))).2 = Ok tt /\
    sp = (Handshake sp0 (offerKeys o) ss (of_OfferID o) (nilBytes (base58_decode myId))).1.
Proof.
  unfold acceptDecoded. intros H. apply bind_Ok in H as ([] & Hc & H). split; [done|].
  apply bind_Ok in H as (sp0 & Hn & H). apply bind_Ok in H as ([] & Hk & H).
  apply bind_Ok in H as ([ct ss] & Hss & H). cbv beta iota in H.
  destruct (newPeer_seen _ _ _ _ _ _ _ Hn) as [Hse _].
  set (sp1 := set_SeenOffers _ sp0) in H.
  pose proof (Handshake_seen sp1 (offerKeys o) ss (of_OfferID o) (nilBytes (base58_decode myId))) as Hs.
  destruct (Handshake sp1 _ _ _ _) as [sp2 h] eqn:Hh. cbn [fst] in Hs.
  apply bind_Ok in H as ([] & Hw & H). apply wrapErr_Ok in Hw. subst h.
  apply bind_Ok in H as (w' & _ & H). injection H as <- <- <-.
  split; [done|]. split.
  - rewrite Hs. unfold sp1. cbn. by rewrite Hse, map_union_empty.
  - exists sp1, ss. by rewrite Hh.
Qed.

Lemma checkOffer_inv myId existing o :
  checkOffer myId existing o = Ok tt ->
  of_OfferID o ≠ [] /\ base58_encode (of_RecipientId o) = myId /\
  DerivePeerID (of_IdPub o) (of_DilithiumPub o) = of_SenderId o /\
  seen (seenBy existing) (base58_encode (of_OfferID o)) = false.
Proof.
  unfold checkOffer. intros H. apply bind_Ok in H as ([] & H1 & H). apply bind_Ok in H as ([] & H2 & H).
  apply bind_Ok in H as ([] & H3 & H). apply check_Ok in H1, H2, H3, H.
  apply negb_false_iff, bytes_eqb_eq in H2. apply negb_false_iff, bytes_eqb_eq in H3.
  conjs; try done. intros Hn. rewrite Hn in H1. done.
Qed.

(** The whole of a successful [AcceptOffer]. *)
Lemma Client_AcceptOffer_inv io r e c offer c' w :
  Client_AcceptOffer io r e c offer = (c', Ok w) ->
  exists o sp, decodeOffer offer = Ok o /\
    acceptDecoded r e (cl_Id c) (cl_IdentityPrivate c) (cl_IdentityPublic c) (cl_DilithiumPrivate c)
      (cl_DilithiumPublic c) (session c (of_SenderId o)) o = Ok (of_SenderId o, sp, w) /\
    c' = SaveClient io (set_Sessions (<[of_SenderId o := cl_next c]> (cl_Sessions c)) (alloc sp c).1).
Proof.
  unfold Client_AcceptOffer, AcceptOffer. destruct (decodeOffer offer) as [o|x|]; [|done..].
  unfold mbind, res_bind. destruct (acceptDecoded _ _ _ _ _ _ _ _ _) as [[[s sp] w']|x|] eqn:Ha; [|done..].
  pose proof (acceptDecoded_inv _ _ _ _ _ _ _ _ _ _ _ _ Ha) as (_ & -> & _).
  intros H. exists o, sp. split; [done|].
  cbv beta zeta iota delta [alloc] in H. injection H as <- <-. done.
Qed.

(** An offer that passed once is refused with [EngReplay] once remembered. *)
Lemma checkOffer_replay myId existing existing' o :
  checkOffer myId existing o = Ok tt ->
  seen (seenBy existing') (base58_encode (of_OfferID o)) = true ->
  checkOffer myId existing' o = Err (EngReplay (of_SenderId o)).
Proof.
  intros H Hs. apply checkOffer_inv in H as (H1 & H2 & H3 & _). unfold checkOffer. rewrite H2, H3, Hs.
  rewrite !bytes_eqb_refl. assert ((len (of_OfferID o) =? 0) = false) as ->; [|done].
  destruct (of_OfferID o); [done|]. apply Z.eqb_neq. unfold len. simpl. lia.
Qed.

Lemma offersOf_bind_new c name sp n :
  client_wf c ->
  offersOf (set_Sessions (<[name := cl_next c]> (cl_Sessions c)) (alloc sp c).1) n
  = if decide (n = name) then SeenOffers sp else offersOf c n.
Proof. intros Hwf. unfold offersOf. rewrite session_bind_new by done. by case_decide. Qed.

(** Remembered offers only grow when offers are accepted. *)
Lemma offersOf_AcceptOffer io r e c offer name k :
  client_wf c -> seen (offersOf c name) k = true ->
  seen (offersOf (Client_AcceptOffer io r e c offer).1 name) k = true.
Proof.
  intros Hwf Hs. unfold Client_AcceptOffer, AcceptOffer.
  destruct (decodeOffer offer) as [o|x|]; [|done..]. cbn [mbind res_bind].
  destruct (acceptDecoded _ _ _ _ _ _ _ _ _) as [[[s sp] w]|x|] eqn:Ha; [|done..].
  apply acceptDecoded_inv in Ha as (_ & -> & Hse & _).
  rewrite (surjective_pairing (alloc sp c)). cbn [fst]. rewrite offersOf_save.
  change (alloc sp c).2 with (cl_next c). change (cl_Sessions (alloc sp c).1) with (cl_Sessions c).
  rewrite offersOf_bind_new by done. case_decide as Hd; [|done]. subst name. rewrite Hse.
  unfold seen in *. destruct (decide (k = base58_encode (of_OfferID o))) as [->|Hne].
  - by rewrite lookup_insert_eq.
  - by rewrite lookup_insert_ne by done.
Qed.

Lemma offersOf_CreateOffer io r oid c peer name :
  client_wf c -> name ≠ pendingKey -> name ≠ pendingFor peer ->
  offersOf (Client_CreateOffer io r oid c peer).1 name = offersOf c name.
Proof.
  intros Hwf H1 H2. unfold Client_CreateOffer. destruct (CreateOffer _ _ _ _ _ _ _ _) as [[sp w]|e|]; [|done..].
  rewrite (surjective_pairing (alloc sp c)). cbn [fst]. rewrite offersOf_save.
  unfold offersOf, session. case_bool_decide; cbn; rewrite !lookup_insert_ne by done;
    (destruct (cl_Sessions c !! name) as [l|] eqn:Hl; [|done]); cbn;
    destruct Hwf as [Hv Hb]; pose proof (Hb l (Hv _ _ Hl)); rewrite lookup_insert_ne by lia; done.
Qed.

Lemma perform_Id io o c : cl_Id (perform io o c) = cl_Id c.
Proof.
  assert (forall io c, cl_Id (SaveClient io c) = cl_Id c) as Hsv
    by (intros io' c'; unfold SaveClient; by destruct (cl_ephemeral c'), io').
  destruct o; cbn [perform].
  - unfold Client_CreateOffer. destruct (CreateOffer _ _ _ _ _ _ _ _) as [[? ?]|?|]; [|done..].
    cbn [alloc]. case_bool_decide; cbn [fst]; by rewrite Hsv.
  - unfold Client_AcceptOffer. destruct (AcceptOffer _ _ _ _ _ _ _ _ _) as [[[? ?] ?]|?|]; [|done..].
    cbn [alloc fst]. by rewrite Hsv.
  - unfold Client_FinishHandshake. destruct (PeekAnswerSenderID _) as [?|?|]; [|done..].
    destruct (pendingLoc _ _) as [p|]; [|done]. destruct (cl_heap c !! p); [|done].
    destruct (FinishHandshake _ _ _) as [? [?|?|]]; cbn [fst]; by rewrite ?Hsv.
  - unfold Client_Encrypt. destruct (cl_Sessions c !! _) as [p|]; [|done]. destruct (cl_heap c !! p); [|done].
    destruct (Encrypt _ _ _ _) as [? [?|?|]]; cbn [fst]; by rewrite ?Hsv.
  - unfold Client_Decrypt. destruct (SenderIDFromFrame _) as [?|?|]; [|done..].
    destruct (sessionFor _ _) as [p|]; [|done]. destruct (cl_heap c !! p); [|done].
    destruct (Decrypt _ _) as [? [?|?|]]; cbn [fst]; by rewrite ?Hsv.
  - unfold LoadClient. destruct (cl_disk c) as [d|]; [|done]. cbn.
    induction (map_to_list d) as [|[? ?] l IH]; [done|]. exact IH.
Qed.

(** Operations that leave the history of [sender] alone. *)
Definition keepsHistory (sender : bytes) (o : op) : Prop :=
  match o with
  | OpFinishHandshake _ | OpReload => False
  | OpCreateOffer _ _ peer => sender ≠ pendingKey /\ sender ≠ pendingFor peer
  | _ => True
  end.

Lemma keepsHistory_all sender k ops : forall c,
  client_wf c -> Forall (fun o => keepsHistory sender o.2) ops -> seen (offersOf c sender) k = true ->
  client_wf (performAll ops c) /\ cl_Id (performAll ops c) = cl_Id c /\
  seen (offersOf (performAll ops c) sender) k = true.
Proof.
  induction ops as [|[io o] ops IH]; intros c Hwf Hall Hs; [done|].
  apply List.Forall_cons_iff in Hall as [Ho Hall].
  destruct (IH (perform io o c)) as (H1 & H2 & H3); [by apply perform_wf|done| |].
  - destruct o; cbn [perform keepsHistory snd] in *; try done.
    + destruct Ho. by rewrite offersOf_CreateOffer.
    + by apply offersOf_AcceptOffer.
    + by rewrite offersOf_Encrypt.
    + by rewrite offersOf_Decrypt.
  - rewrite perform_Id in H2. done.
Qed.

End Ops.
