(* ===== verification/ClientTheorems.v ===== *)
(** * What the session manager guarantees

    Theorems about [client.Client] over arbitrary sequences of its operations,
    and concrete runs between three parties. *)
From S2P Require Import Prelude GoStd Sha256 External SecurePeer SecurePeerFacts Session Engine EngineFacts Client ClientFacts SessionTheorems.
#[local] Open Scope Z_scope.

Section ClientTheorems.
Context `{N : Nanopack} `{P : Prims} `{J : LegacyJSON}.

(** C10: An accepted offer is authentic.  It was addressed to this client, its
    sender ID is derived from the identity keys it carries, it had not been
    accepted before, and both its signatures verify over our ID, the ephemeral
    keys and the offer ID; the session is filed under that sender ID. *)
Theorem accepted_offer_authentic io r e c offer c' answer :
  client_wf c -> Client_AcceptOffer io r e c offer = (c', Ok answer) ->
  exists o, decodeOffer offer = Ok o /\
    base58_encode (of_RecipientId o) = cl_Id c /\
    of_SenderId o = DerivePeerID (of_IdPub o) (of_DilithiumPub o) /\
    seen (offersOf c (of_SenderId o)) (base58_encode (of_OfferID o)) = false /\
    (let msg := mjoin [nilBytes (base58_decode (cl_Id c)); of_Pub o; nilBytes (of_DhPub o); of_KyberPub o; of_DilithiumPub o; of_OfferID o] in
     ed25519_verify (of_IdPub o) msg (of_Sign o) = true /\
     DilithiumVerify (of_DilithiumPub o) msg (of_DilithiumSign o) = true) /\
    is_Some (session c' (of_SenderId o)) /\
    seen (offersOf c' (of_SenderId o)) (base58_encode (of_OfferID o)) = true.
Proof.
  intros Hwf H. apply Client_AcceptOffer_inv in H as (o & sp & Ho & Ha & ->). exists o. split; [done|].
  apply acceptDecoded_inv in Ha as (Hc & _ & Hse & sp0 & ss & Hh & _).
  apply checkOffer_inv in Hc as (_ & H1 & H2 & H3). apply Handshake_verified in Hh as (_ & V1 & V2).
  conjs; try done.
  - pose proof (session_bind_new c (of_SenderId o) sp (of_SenderId o) Hwf) as Hs. cbv zeta in Hs.
    rewrite decide_True in Hs by done. unfold SaveClient. exists sp. repeat case_match; exact Hs.
  - rewrite offersOf_save, offersOf_bind_new, decide_True by done. rewrite Hse. unfold seen. by rewrite lookup_insert_eq.
Qed.

(** C15: A finished handshake is authentic.  The answer's sender ID is derived
    from the identity keys it carries, both its signatures verify over our ID,
    its ephemeral keys and its offer ID, and the session filed under that ID is
    the pending one. *)
Theorem finished_handshake_authentic io c a c' peer :
  Client_FinishHandshake io c a = (c', Ok peer) ->
  exists an p, decodeAnswer a = Ok an /\ peer = an_SenderId an /\
    peer = DerivePeerID (an_IdPub an) (an_DilithiumPub an) /\
    pendingLoc c peer = Some p /\ cl_Sessions c' !! peer = Some p /\
    let msg := mjoin [nilBytes (base58_decode (cl_Id c)); an_Pub an; nilBytes (an_DhPub an); an_KyberPub an; an_DilithiumPub an; an_OfferID an] in
    ed25519_verify (an_IdPub an) msg (an_Sign an) = true /\
    DilithiumVerify (an_DilithiumPub an) msg (an_DilithiumSign an) = true.
Proof.
  unfold Client_FinishHandshake, PeekAnswerSenderID. intros H.
  destruct (decodeAnswer a) as [an|e|] eqn:Ha; [|done..]. cbn [fmap res_fmap] in H. exists an.
  destruct (pendingLoc c (an_SenderId an)) as [p|] eqn:Hp; [|done]. exists p.
  destruct (cl_heap c !! p) as [sp|]; [|done]. unfold FinishHandshake in H. rewrite Ha in H.
  destruct (_ =? 0); [done|]. destruct (bytes_eqb _ _) eqn:Hid; [|done]. cbn [negb] in H.
  destruct (negb _); [done|]. destruct (kyber_decaps _ _) as [ss|]; [|done].
  destruct (base58_decode (cl_Id c)) as [rid|]; [|done].
  destruct (Handshake _ _ _ _ _) as [sp' [[]|e|]] eqn:Hh; [|done..].
  injection H as <- <-. apply bytes_eqb_eq in Hid.
  pose proof (Handshake_verified sp (answerKeys an) ss (an_OfferID an) rid) as Hv. rewrite Hh in Hv.
  destruct (Hv eq_refl) as (_ & V1 & V2).
  conjs; try done. unfold SaveClient. repeat case_match; cbn; apply lookup_insert_eq.
Qed.

(** C18: An offer is accepted at most once.  After it has been accepted, and
    after any number of further offers, answers to other parties, encryptions
    and decryptions, the same offer is refused as a replay. *)
Theorem accepted_offer_not_replayable io r e c offer c' answer o ops io' r' e' :
  client_wf c -> Client_AcceptOffer io r e c offer = (c', Ok answer) -> decodeOffer offer = Ok o ->
  Forall (fun x => keepsHistory (of_SenderId o) x.2) ops ->
  let c2 := performAll ops c' in
  Client_AcceptOffer io' r' e' c2 offer = (c2, Err (ClEngine (EngReplay (of_SenderId o)))).
Proof.
  intros Hwf H Ho Hops c2.
  pose proof (AcceptOffer_wf io r e c offer Hwf) as Hwf'. rewrite H in Hwf'. cbn [fst] in Hwf'.
  apply Client_AcceptOffer_inv in H as (o' & sp & Ho' & Ha & Hc'). rewrite Ho in Ho'. injection Ho' as <-.
  apply acceptDecoded_inv in Ha as (Hc & _ & Hse & _).
  assert (seen (offersOf c' (of_SenderId o)) (base58_encode (of_OfferID o)) = true) as Hs.
  { rewrite Hc', offersOf_save, offersOf_bind_new, decide_True by done. rewrite Hse. unfold seen. by rewrite lookup_insert_eq. }
  assert (cl_Id c' = cl_Id c) as Hid by (rewrite Hc'; unfold SaveClient; by repeat case_match).
  destruct (keepsHistory_all _ _ ops c' Hwf' Hops Hs) as (_ & Hid2 & Hs2). fold c2 in Hid2, Hs2.
  unfold Client_AcceptOffer, AcceptOffer. rewrite Ho. cbn [mbind res_bind].
  rewrite Hid2, Hid. unfold acceptDecoded.
  by rewrite (checkOffer_replay (cl_Id c) (session c (of_SenderId o)) (session c2 (of_SenderId o)) o Hc Hs2).
Qed.

(** Finishing a handshake of one's own forgets the offers accepted from that
    peer: the session filed afterwards is the pending object, whose history is
    empty, so no earlier offer of that peer counts as seen any more. *)
Theorem finish_forgets_accepted_offers io c a c' peer p sp :
  Client_FinishHandshake io c a = (c', Ok peer) ->
  pendingLoc c peer = Some p -> cl_heap c !! p = Some sp -> SeenOffers sp = ∅ ->
  forall k, seen (offersOf c' peer) k = false.
Proof.
  unfold Client_FinishHandshake, PeekAnswerSenderID. intros H Hp Hh Hs k.
  destruct (decodeAnswer a) as [an|e|] eqn:Ha; [|done..]. cbn [fmap res_fmap] in H.
  destruct (pendingLoc c (an_SenderId an)) as [p'|] eqn:Hp'; [|done].
  destruct (cl_heap c !! p') as [sp0|] eqn:Hh'; [|done].
  pose proof (FinishHandshake_seen (cl_Id c) sp0 a) as Hf.
  pose proof (FinishHandshake_id (cl_Id c) sp0 a an) as Hx.
  destruct (FinishHandshake _ _ _) as [sp' [pid|e|]]; [|done..]. injection H as <- <-.
  rewrite (Hx pid Ha eq_refl) in *. rewrite Hp in Hp'. injection Hp' as <-. rewrite Hh in Hh'. injection Hh' as <-.
  rewrite offersOf_save. unfold offersOf, session. cbn. rewrite lookup_insert_eq. cbn. rewrite lookup_insert_eq. cbn.
  cbn in Hf. rewrite Hf, Hs. unfold seen. by rewrite lookup_empty.
Qed.

(** An answer from a party the client made no offer to is completed on the
    shared pending object: after offering to [b], a well-formed answer of
    another peer [e] makes [e]'s session and [b]'s still pending one the same
    object, so that [b]'s own answer will overwrite [e]'s session keys. *)
Theorem stray_answer_shares_pending_object io c a c' e b p :
  cl_Sessions c !! pendingFor b = Some p -> cl_Sessions c !! pendingKey = Some p ->
  cl_Sessions c !! pendingFor e = None -> e ≠ pendingFor b -> b ≠ e ->
  Client_FinishHandshake io c a = (c', Ok e) ->
  cl_Sessions c' !! e = Some p /\ cl_Sessions c' !! pendingFor b = Some p.
Proof.
  intros Hb Hk He Hne Hbe H. unfold Client_FinishHandshake, PeekAnswerSenderID in H.
  destruct (decodeAnswer a) as [an|x|] eqn:Ha; [|done..]. cbn [fmap res_fmap] in H.
  destruct (pendingLoc c (an_SenderId an)) as [p'|] eqn:Hp'; [|done].
  destruct (cl_heap c !! p') as [sp0|] eqn:Hh'; [|done].
  pose proof (FinishHandshake_id (cl_Id c) sp0 a an) as Hx.
  destruct (FinishHandshake _ _ _) as [sp' [pid|y|]]; [|done..]. injection H as <- ->.
  rewrite <- (Hx e Ha eq_refl) in Hp'. unfold pendingLoc in Hp'. rewrite He, Hk in Hp'. injection Hp' as <-.
  assert (pendingFor b ≠ pendingKey /\ pendingFor b ≠ pendingFor e) as [N1 N2]
    by (split; [done|]; intros E; unfold pendingFor in E; by simplify_list_eq).
  split; unfold SaveClient; repeat case_match; cbn;
    rewrite ?lookup_insert_eq, ?lookup_insert_ne, ?lookup_delete_ne by done; done.
Qed.

(** Session names never dangle: whatever sequence of operations a client
    performs, every name in its session map points to a live session object, and
    encrypting, decrypting or finishing a handshake never follows a nil
    pointer. *)
Theorem session_pointers_valid c ops :
  client_wf c ->
  let c' := performAll ops c in
  client_wf c' /\
  (forall io rnd peer m, (Client_Encrypt io rnd c' peer m).2 ≠ Panic) /\
  (forall io w, (Client_Decrypt io c' w).2 ≠ Panic) /\
  (forall io a, (Client_FinishHandshake io c' a).2 ≠ Panic).
Proof.
  intros Hwf c'. assert (client_wf c') as Hw.
  { subst c'. revert c Hwf. induction ops as [|[io o] ops IH]; intros c Hwf; [done|]. by apply IH, perform_wf. }
  clearbody c'. split; [done|]. split; [|split].
  - intros. unfold Client_Encrypt. destruct (cl_Sessions c' !! peer) as [p|] eqn:Hp; [|done].
    destruct (cw_valid _ Hw _ _ Hp) as [sp ->]. pose proof (Encrypt_no_panic rnd sp (cl_Id c') m) as Hn.
    by destruct (Encrypt _ _ _ _) as [? [?|?|]].
  - intros. unfold Client_Decrypt. pose proof (SenderID_no_panic w) as Hf.
    destruct (SenderIDFromFrame w) as [s|?|]; [|done..].
    destruct (sessionFor c' s) as [p|] eqn:Hp; [|done]. destruct (sessionFor_valid _ _ _ Hw Hp) as [sp ->].
    pose proof (Decrypt_no_panic sp w) as Hn. by destruct (Decrypt _ _) as [? [?|?|]].
  - intros. unfold Client_FinishHandshake. pose proof (Peek_no_panic a) as Hf.
    destruct (PeekAnswerSenderID a) as [s|?|]; [|done..].
    destruct (pendingLoc c' s) as [p|] eqn:Hp; [|done]. destruct (pendingLoc_valid _ _ _ Hw Hp) as [sp ->].
    pose proof (Finish_no_panic (cl_Id c') sp a) as Hn. by destruct (FinishHandshake _ _ _) as [? [?|?|]].
Qed.

(** What a client saves it reads back: loading the file written by
    [SaveClient] gives the same identity and, under every name, the session
    that was there, less its pending key rotation. *)
Theorem save_then_load c :
  client_wf c -> cl_ephemeral c = false ->
  exists c', LoadClient (SaveClient true c) = Some c' /\ client_wf c' /\ cl_Id c' = cl_Id c /\
    forall name, session c' name = reload <$> session c name.
Proof. apply save_load. Qed.

End ClientTheorems.

(** ** Concrete runs *)
#[local] Existing Instance noJSON.

Definition demoClient (i : Identity) : Client :=
  mkClient (idOf i) (i_priv i) (i_pub i) (i_dpriv i) (i_dpub i) ∅ false ∅ O None.

Definition okBytes {E} (r : res E bytes) : bytes := match r with Ok b => b | _ => [] end.

Definition alice : Client := demoClient (demoId x41).
Definition bob : Client := demoClient (demoId x42).
Definition carol : Identity := Eval vm_compute in demoId x43.
Definition aliceId : bytes := Eval vm_compute in idOf (demoId x41).
Definition bobId : bytes := Eval vm_compute in idOf (demoId x42).
Definition carolId : bytes := Eval vm_compute in idOf carol.

Lemma demoClient_wf i : client_wf (demoClient i).
Proof. split; cbn; [intros ? ? H; by rewrite lookup_empty in H|intros ? H; rewrite lookup_empty in H; by destruct H]. Qed.

Lemma alice_wf : client_wf alice.
Proof. exact (demoClient_wf (demoId x41)). Qed.

Lemma bob_wf : client_wf bob.
Proof. exact (demoClient_wf (demoId x42)). Qed.

(** Alice offers, Bob accepts, Alice finishes. *)
Definition offerAB : bytes := Eval vm_compute in okBytes (Client_CreateOffer true (demoRand x01 x02) (demoBytes 16 x05) alice bobId).2.
Definition alice1 : Client := (Client_CreateOffer true (demoRand x01 x02) (demoBytes 16 x05) alice bobId).1.
Definition answerBA : bytes := Eval vm_compute in okBytes (Client_AcceptOffer true (demoRand x03 x04) [x09] bob offerAB).2.
Definition bob1 : Client := (Client_AcceptOffer true (demoRand x03 x04) [x09] bob offerAB).1.
Definition alice2 : Client := (Client_FinishHandshake true alice1 answerBA).1.

Lemma run_accept : Client_AcceptOffer true (demoRand x03 x04) [x09] bob offerAB = (bob1, Ok answerBA).
Proof. unfold bob1. apply pair_result. vm_compute. reflexivity. Qed.

Lemma run_finish : Client_FinishHandshake true alice1 answerBA = (alice2, Ok bobId).
Proof. unfold alice2. apply pair_result. vm_compute. reflexivity. Qed.

Definition offerAB_fields : HandShakeOffer :=
  Eval vm_compute in match decodeOffer offerAB with Ok o => o | _ => emptyOffer end.

Lemma offerAB_decodes : decodeOffer offerAB = Ok offerAB_fields.
Proof. vm_compute. reflexivity. Qed.

Lemma accepted_offer_authentic_witness :
  exists o, decodeOffer offerAB = Ok o /\ base58_encode (of_RecipientId o) = cl_Id bob /\
    of_SenderId o = DerivePeerID (of_IdPub o) (of_DilithiumPub o).
Proof.
  destruct (accepted_offer_authentic true (demoRand x03 x04) [x09] bob offerAB bob1 answerBA bob_wf run_accept)
    as (o & H1 & H2 & H3 & _).
  exists o. split; [exact H1|]. split; [exact H2|exact H3].
Defined.

Lemma finished_handshake_authentic_witness :
  exists an p, decodeAnswer answerBA = Ok an /\ bobId = an_SenderId an /\ cl_Sessions alice2 !! bobId = Some p.
Proof.
  destruct (finished_handshake_authentic true alice1 answerBA alice2 bobId run_finish)
    as (an & p & H1 & H2 & _ & _ & H3 & _).
  exists an, p. split; [exact H1|]. split; [exact H2|exact H3].
Defined.

Lemma accepted_offer_not_replayable_witness :
  let c2 := performAll [(true, OpEncrypt (demoBytes 32 x21) aliceId (str "hi")); (true, OpDecrypt [x00])] bob1 in
  Client_AcceptOffer true (demoRand x06 x07) [x0a] c2 offerAB = (c2, Err (ClEngine (EngReplay aliceId))).
Proof.
  apply (accepted_offer_not_replayable true (demoRand x03 x04) [x09] bob offerAB bob1 answerBA offerAB_fields
    [(true, OpEncrypt (demoBytes 32 x21) aliceId (str "hi")); (true, OpDecrypt [x00])] true (demoRand x06 x07) [x0a]
    bob_wf run_accept offerAB_decodes).
  repeat (apply List.Forall_cons; [exact I|]). apply List.Forall_nil.
Defined.

(** Bob, who has accepted Alice's offer, now makes one of his own and finishes
    the handshake with Alice's answer. *)
Definition offerBA : bytes := Eval vm_compute in okBytes (Client_CreateOffer true (demoRand x11 x12) (demoBytes 16 x15) bob1 aliceId).2.
Definition bob2 : Client := (Client_CreateOffer true (demoRand x11 x12) (demoBytes 16 x15) bob1 aliceId).1.
Definition answerAB : bytes := Eval vm_compute in okBytes (Client_AcceptOffer true (demoRand x13 x14) [x19] alice2 offerBA).2.
Definition bob3 : Client := (Client_FinishHandshake true bob2 answerAB).1.

Lemma run_finish_bob : Client_FinishHandshake true bob2 answerAB = (bob3, Ok aliceId).
Proof. unfold bob3. apply pair_result. vm_compute. reflexivity. Qed.

Lemma finish_forgets_witness :
  (forall k, seen (offersOf bob3 aliceId) k = false) /\
  seen (offersOf bob1 aliceId) (base58_encode (of_OfferID offerAB_fields)) = true /\
  isOk (Client_AcceptOffer true (demoRand x16 x17) [x1a] bob3 offerAB).2 = true.
Proof.
  split; [|split; vm_compute; reflexivity].
  eapply (finish_forgets_accepted_offers true bob2 answerAB bob3 aliceId).
  - exact run_finish_bob.
  - vm_compute; reflexivity.
  - vm_compute; reflexivity.
  - vm_compute; reflexivity.
Defined.

(** Carol answers the offer Alice made to Bob. *)
Definition strayAnswer : bytes := Eval vm_compute in
  okBytes (makeAnswer (demoPeer carol (demoRand x23 x24)) offerAB_fields carolId [] (x01 :: ref_hash [x29])).
Definition alice3 : Client := (Client_FinishHandshake true alice1 strayAnswer).1.

Lemma run_stray : Client_FinishHandshake true alice1 strayAnswer = (alice3, Ok carolId).
Proof. unfold alice3. apply pair_result. vm_compute. reflexivity. Qed.

Lemma stray_answer_witness :
  (cl_Sessions alice3 !! carolId = Some O /\ cl_Sessions alice3 !! pendingFor bobId = Some O) /\
  (** Bob's genuine answer then replaces the keys of the session with Carol. *)
  session (Client_FinishHandshake true alice3 answerBA).1 carolId
  = session (Client_FinishHandshake true alice3 answerBA).1 bobId /\
  (RootKey <$> session (Client_FinishHandshake true alice3 answerBA).1 carolId) ≠ (RootKey <$> session alice3 carolId).
Proof.
  split; [|split; [vm_compute; reflexivity|vm_compute; discriminate]].
  apply (stray_answer_shares_pending_object true alice1 strayAnswer alice3 carolId bobId O).
  - vm_compute; reflexivity.
  - vm_compute; reflexivity.
  - vm_compute; reflexivity.
  - vm_compute; discriminate.
  - vm_compute; discriminate.
  - exact run_stray.
Defined.

Lemma session_pointers_valid_witness :
  client_wf (performAll [(true, OpCreateOffer (demoRand x01 x02) (demoBytes 16 x05) bobId); (true, OpFinishHandshake answerBA); (true, OpReload)] alice).
Proof.
  apply (session_pointers_valid alice [(true, OpCreateOffer (demoRand x01 x02) (demoBytes 16 x05) bobId); (true, OpFinishHandshake answerBA); (true, OpReload)] alice_wf).
Defined.

Lemma alice1_wf : client_wf alice1.
Proof. unfold alice1. apply CreateOffer_wf. exact alice_wf. Qed.

Lemma alice2_wf : client_wf alice2.
Proof. unfold alice2. apply FinishHandshake_wf. exact alice1_wf. Qed.

Lemma save_then_load_witness :
  exists c', LoadClient (SaveClient true alice2) = Some c' /\ session c' bobId = reload <$> session alice2 bobId.
Proof.
  destruct (save_then_load alice2 alice2_wf eq_refl) as (c' & H1 & _ & _ & H2).
  exists c'. split; [exact H1|apply H2].
Defined.
