(* ===== verification/Codec.v ===== *)
(** * Text encodings ([internal/codec/input.go], [crypto/encoding_proquint.go])

    The CLI's raw/base64/hex codec and the pronounceable word encoding. *)
From S2P Require Import Prelude GoStd.
#[local] Open Scope Z_scope.

(** ** internal/codec *)
Module Input.

Abbreviation Encoding := bytes.
Definition EncodingRaw : Encoding := str "raw".
Definition EncodingBase : Encoding := str "b64".
Definition EncodingHex : Encoding := str "hex".

Inductive codec_err := Unsupported (e : Encoding) | InvalidBase64 | InvalidHex.

Definition Valid (e : Encoding) : bool :=
  bool_decide (e = EncodingRaw) || bool_decide (e = EncodingBase) || bool_decide (e = EncodingHex).

Definition Decode (enc : Encoding) (data : bytes) : res codec_err bytes :=
  if negb (Valid enc) then Err (Unsupported enc)
  else if bool_decide (enc = EncodingRaw) then Ok data
  else if bool_decide (enc = EncodingBase) then ofOption InvalidBase64 (b64Decode (trimSpace data))
  else if bool_decide (enc = EncodingHex) then ofOption InvalidHex (hexDecode (trimSpace data))
  else Err (Unsupported enc).

Definition Encode (enc : Encoding) (data : bytes) : res codec_err bytes :=
  if negb (Valid enc) then Err (Unsupported enc)
  else if bool_decide (enc = EncodingRaw) then Ok data
  else if bool_decide (enc = EncodingBase) then Ok (b64Encode data)
  else if bool_decide (enc = EncodingHex) then Ok (hexEncode data)
  else Err (Unsupported enc).

Definition DecodeInput (enc data : bytes) : res codec_err bytes := Decode enc data.
Definition EncodeOutput (enc data : bytes) : res codec_err bytes := Encode enc data.

(** Text produced by [EncodeOutput] in a supported encoding is read back by
    [DecodeInput] as the same bytes. *)
Theorem codec_roundtrip enc data :
  Valid enc = true -> exists t, EncodeOutput enc data = Ok t /\ DecodeInput enc t = Ok data.
Proof.
  unfold EncodeOutput, DecodeInput, Encode, Decode. intros Hv. rewrite Hv. cbn [negb].
  unfold Valid in Hv. destruct (bool_decide (enc = EncodingRaw)); [by eexists|].
  destruct (bool_decide (enc = EncodingBase)).
  - eexists. split; [done|]. by rewrite trimSpace_graphic, b64Decode_Encode by apply b64Encode_graphic.
  - destruct (bool_decide (enc = EncodingHex)); [|done].
    eexists. split; [done|]. by rewrite trimSpace_graphic, hexDecode_Encode by apply hexEncode_graphic.
Qed.

Lemma codec_roundtrip_witness :
  exists t, EncodeOutput EncodingBase (str "hello") = Ok t /\ DecodeInput EncodingBase t = Ok (str "hello").
Proof. apply (codec_roundtrip EncodingBase (str "hello")). reflexivity. Defined.

End Input.

(** ** crypto: proquint *)
Module Proquint.

Definition consonants : bytes := str "bdfghjklmnprstvz".
Definition vowels : bytes := str "aiou".

Definition consonant (i : Z) : byte := nth (Z.to_nat i) consonants x00.
Definition vowel (i : Z) : byte := nth (Z.to_nat i) vowels x00.

(** One word for a 16-bit value. *)
Definition word (val : Z) : bytes :=
  [consonant (Z.land (Z.shiftr val 12) 15); vowel (Z.land (Z.shiftr val 10) 3);
   consonant (Z.land (Z.shiftr val 6) 15); vowel (Z.land (Z.shiftr val 4) 3);
   consonant (Z.land val 15)].

(** [uint16(data[i])<<8], with the next byte or-ed in if there is one. *)
Fixpoint vals (data : bytes) : list Z :=
  match data with
  | [] => []
  | [a] => [u16 (Z.shiftl (Zb a) 8)]
  | a :: b :: t => Z.lor (u16 (Z.shiftl (Zb a) 8)) (Zb b) :: vals t
  end.

Definition ToProquint (data : bytes) : bytes := joinWith (str "-") (word <$> vals data).

Inductive pq_err := WordLength | BadCharacter.

(** The position of a rune in an alphabet: the lookup maps. *)
Fixpoint runeIndex (r : Z) (l : bytes) (i : Z) : option Z :=
  match l with
  | [] => None
  | c :: l => if Zb c =? r then Some i else runeIndex r l (i + 1)
  end.

Definition unword (w : bytes) : res pq_err bytes :=
  if negb (len w =? 5) then Err WordLength
  else match toRunes w with
       | r0 :: r1 :: r2 :: r3 :: r4 :: _ =>
           match runeIndex r0 consonants 0, runeIndex r1 vowels 0, runeIndex r2 consonants 0,
                 runeIndex r3 vowels 0, runeIndex r4 consonants 0 with
           | Some c1, Some v1, Some c2, Some v2, Some c3 =>
               let val := Z.lor (Z.lor (Z.lor (Z.lor (u16 (Z.shiftl c1 12)) (u16 (Z.shiftl v1 10)))
                            (u16 (Z.shiftl c2 6))) (u16 (Z.shiftl v2 4))) c3 in
               Ok [byteZ (Z.shiftr val 8); byteZ (Z.land val 255)]
           | _, _, _, _, _ => Err BadCharacter
           end
       | _ => Panic   (* the index expressions r[0] .. r[4] *)
       end.

Fixpoint unwords (ws : list bytes) : res pq_err bytes :=
  match ws with
  | [] => Ok []
  | w :: ws => b ← unword w; r ← unwords ws; Ok (b ++ r)
  end.

Definition FromProquint (input : bytes) : res pq_err bytes := unwords (splitOn x2d input).

(** The bytes a decoding gives back: a lone last byte comes with a zero. *)
Definition padEven (data : bytes) : bytes :=
  if Nat.even (length data) then data else data ++ [x00].

Definition chars_ok : bool :=
  forallb (fun i => (bool_decide (runeIndex (Zb (consonant i)) consonants 0 = Some i)
                     && isASCII (consonant i) && negb (bool_decide (consonant i = x2d)))%bool) (seqZ 0 16)
  && forallb (fun i => (bool_decide (runeIndex (Zb (vowel i)) vowels 0 = Some i)
                     && isASCII (vowel i) && negb (bool_decide (vowel i = x2d)))%bool) (seqZ 0 4).

Lemma alphabet_ok : chars_ok = true.
Proof. reflexivity. Qed.

Lemma consonant_ok i : 0 <= i < 16 ->
  runeIndex (Zb (consonant i)) consonants 0 = Some i /\ isASCII (consonant i) = true /\ consonant i ≠ x2d.
Proof.
  intros Hi. pose proof alphabet_ok as H. apply andb_true_iff in H as [H _].
  rewrite forallb_forall in H. specialize (H i). rewrite <- list_elem_of_In, elem_of_seqZ in H.
  specialize (H ltac:(lia)). bool_prop. done.
Qed.

Lemma vowel_ok i : 0 <= i < 4 ->
  runeIndex (Zb (vowel i)) vowels 0 = Some i /\ isASCII (vowel i) = true /\ vowel i ≠ x2d.
Proof.
  intros Hi. pose proof alphabet_ok as H. apply andb_true_iff in H as [_ H].
  rewrite forallb_forall in H. specialize (H i). rewrite <- list_elem_of_In, elem_of_seqZ in H.
  specialize (H ltac:(lia)). bool_prop. done.
Qed.

Lemma land15 z : Z.land z 15 = z mod 16.
Proof. apply (Z.land_ones z 4). lia. Qed.
Lemma land3 z : Z.land z 3 = z mod 4.
Proof. apply (Z.land_ones z 2). lia. Qed.
Lemma land255 z : Z.land z 255 = z mod 256.
Proof. apply (Z.land_ones z 8). lia. Qed.

(** The five indices of a value put the value back together. *)
Lemma reassemble val :
  0 <= val < 65536 ->
  Z.lor (Z.lor (Z.lor (Z.lor (u16 (Z.shiftl (Z.land (Z.shiftr val 12) 15) 12)) (u16 (Z.shiftl (Z.land (Z.shiftr val 10) 3) 10)))
    (u16 (Z.shiftl (Z.land (Z.shiftr val 6) 15) 6))) (u16 (Z.shiftl (Z.land (Z.shiftr val 4) 3) 4))) (Z.land val 15) = val.
Proof.
  intros Hv. rewrite !land15, !land3, !Z.shiftr_div_pow2, !Z.shiftl_mul_pow2 by lia.
  change (2 ^ 12) with 4096. change (2 ^ 10) with 1024. change (2 ^ 6) with 64. change (2 ^ 4) with 16.
  rewrite !u16_small by (Z.to_euclidean_division_equations; lia).
  set (a := val / 4096 mod 16). set (b := val / 1024 mod 4). set (c := val / 64 mod 16).
  set (d := val / 16 mod 4). set (e := val mod 16).
  assert (0 <= a < 16) by (apply Z.mod_pos_bound; lia). assert (0 <= b < 4) by (apply Z.mod_pos_bound; lia).
  assert (0 <= c < 16) by (apply Z.mod_pos_bound; lia). assert (0 <= d < 4) by (apply Z.mod_pos_bound; lia).
  assert (0 <= e < 16) by (apply Z.mod_pos_bound; lia).
  assert (val = a * 4096 + b * 1024 + c * 64 + d * 16 + e) as Hsum
    by (unfold a, b, c, d, e; Z.to_euclidean_division_equations; lia).
  clearbody a b c d e.
  replace (a * 4096) with (Z.shiftl a 12) by (rewrite Z.shiftl_mul_pow2; lia). rewrite lor_shiftl_add by lia.
  replace (a * 2 ^ 12 + b * 1024) with (Z.shiftl (a * 4 + b) 10) by (rewrite Z.shiftl_mul_pow2; lia).
  rewrite lor_shiftl_add by lia.
  replace ((a * 4 + b) * 2 ^ 10 + c * 64) with (Z.shiftl ((a * 4 + b) * 16 + c) 6) by (rewrite Z.shiftl_mul_pow2; lia).
  rewrite lor_shiftl_add by lia.
  replace (((a * 4 + b) * 16 + c) * 2 ^ 6 + d * 16) with (Z.shiftl (((a * 4 + b) * 16 + c) * 4 + d) 4)
    by (rewrite Z.shiftl_mul_pow2; lia).
  rewrite lor_shiftl_add by lia. lia.
Qed.

Lemma index_ranges val : 
  0 <= Z.land (Z.shiftr val 12) 15 < 16 /\ 0 <= Z.land (Z.shiftr val 10) 3 < 4 /\
  0 <= Z.land (Z.shiftr val 6) 15 < 16 /\ 0 <= Z.land (Z.shiftr val 4) 3 < 4 /\ 0 <= Z.land val 15 < 16.
Proof. rewrite !land15, !land3. repeat split; apply Z.mod_pos_bound; lia. Qed.

Lemma unword_word val :
  0 <= val < 65536 -> unword (word val) = Ok [byteZ (Z.shiftr val 8); byteZ (Z.land val 255)].
Proof.
  intros Hv. destruct (index_ranges val) as (R1 & R2 & R3 & R4 & R5).
  destruct (consonant_ok _ R1) as (C1 & A1 & _), (vowel_ok _ R2) as (C2 & A2 & _),
    (consonant_ok _ R3) as (C3 & A3 & _), (vowel_ok _ R4) as (C4 & A4 & _), (consonant_ok _ R5) as (C5 & A5 & _).
  unfold unword, word. rewrite toRunes_ascii by (cbn [forallb]; by rewrite A1, A2, A3, A4, A5).
  cbn -[Z.shiftl Z.shiftr Z.land Z.lor consonant vowel runeIndex consonants vowels u16 byteZ].
  rewrite C1, C2, C3, C4, C5. by rewrite reassemble.
Qed.

Lemma word_plain val : x2d ∉ word val.
Proof.
  destruct (index_ranges val) as (R1 & R2 & R3 & R4 & R5). unfold word.
  destruct (consonant_ok _ R1) as (_ & _ & N1), (vowel_ok _ R2) as (_ & _ & N2),
    (consonant_ok _ R3) as (_ & _ & N3), (vowel_ok _ R4) as (_ & _ & N4), (consonant_ok _ R5) as (_ & _ & N5).
  rewrite !not_elem_of_cons. repeat split; try done. apply not_elem_of_nil.
Qed.

Lemma unword_pair a b :
  let v := Z.lor (u16 (Z.shiftl (Zb a) 8)) (Zb b) in
  0 <= v < 65536 /\ byteZ (Z.shiftr v 8) = a /\ byteZ (Z.land v 255) = b.
Proof.
  cbv zeta. pose proof (Zb_range a). pose proof (Zb_range b).
  assert (u16 (Z.shiftl (Zb a) 8) = Z.shiftl (Zb a) 8) as ->
    by (apply u16_small; rewrite Z.shiftl_mul_pow2 by lia; lia).
  rewrite lor_shiftl8 by lia. rewrite Z.shiftr_div_pow2, land255 by lia. change (2 ^ 8) with 256.
  split; [lia|]. split; apply byteZ_eq; Z.to_euclidean_division_equations; lia.
Qed.

Lemma unwords_vals data : unwords (word <$> vals data) = Ok (padEven data).
Proof.
  remember (length data) as n eqn:Hn. revert data Hn. induction n as [n IH] using lt_wf_ind. intros data Hn.
  destruct data as [|a [|b t]]; [done| |].
  - cbn [vals fmap list_fmap unwords]. destruct (unword_pair a x00) as (Hr & Ha & Hb).
    rewrite Z.lor_0_r in *. rewrite unword_word by done. cbn [mbind res_bind app]. by rewrite Ha, Hb.
  - cbn [vals fmap list_fmap unwords]. destruct (unword_pair a b) as (Hr & Ha & Hb).
    rewrite unword_word by done. cbn [mbind res_bind].
    pose proof (IH (length t) ltac:(subst; simpl; lia) t eq_refl) as Ht. cbn [fmap list_fmap] in Ht. rewrite Ht.
    cbn [mbind res_bind app]. rewrite Ha, Hb. unfold padEven. cbn [length Nat.even]. by destruct (Nat.even (length t)).
Qed.

(** A non-empty byte string survives the word encoding; a lone last byte
    comes back with a zero byte after it. *)
Theorem proquint_roundtrip data : data ≠ [] -> FromProquint (ToProquint data) = Ok (padEven data).
Proof.
  intros Hne. unfold FromProquint, ToProquint. rewrite (splitOn_join x2d).
  - apply unwords_vals.
  - by destruct data as [|a [|b t]].
  - apply List.Forall_forall. intros w Hw. apply list_elem_of_In, list_elem_of_fmap in Hw as (v & -> & _).
    apply word_plain.
Qed.

Lemma proquint_roundtrip_witness :
  FromProquint (ToProquint [x7f; x00; x01]) = Ok (padEven [x7f; x00; x01]) /\
  ToProquint [x7f; x00; x00; x01] = str "lusab-babad".
Proof. split; [apply proquint_roundtrip; discriminate|vm_compute; reflexivity]. Defined.

(** A five-byte word that holds a multi-byte character makes [FromProquint]
    panic: the length check counts bytes, the index expressions count runes. *)
Theorem proquint_multibyte_panics w ws :
  len w = 5 -> (length (toRunes w) < 5)%nat -> unwords (w :: ws) = Panic.
Proof.
  intros Hl Hr. cbn [unwords]. unfold unword. rewrite Hl. cbn [Z.eqb Pos.eqb negb].
  destruct (toRunes w) as [|r0 [|r1 [|r2 [|r3 [|r4 t]]]]]; try done. simpl in Hr. lia.
Qed.

Lemma proquint_multibyte_panics_witness : FromProquint [xc3; xa9; x61; x62; x63] = Panic.
Proof.
  apply (proquint_multibyte_panics [xc3; xa9; x61; x62; x63] []).
  - reflexivity.
  - vm_compute. lia.
Defined.

End Proquint.
