(* ===== verification/Frame.v ===== *)
(** * Framing ([internal/relay/relay.go], [internal/frame/frame.go])

    The one-byte envelope every transport carries, the copy-and-paste container
    around it, sender authentication, and the peer-ID split.  [encoding/json]'s
    reading of a container is an interface; writing one is spelled out. *)
From S2P Require Import Prelude GoStd Sha256 External SecurePeer SecurePeerFacts.
#[local] Open Scope Z_scope.

(** ** relay.go *)
Abbreviation Type_ := byte.
Definition TypeOffer : Type_ := x01.
Definition TypeAnswer : Type_ := x02.
Definition TypeMessage : Type_ := x03.
Definition TypeMultiMsg : Type_ := x04.

Definition WrapEnvelope (t : Type_) (data : bytes) : bytes := t :: data.

Definition PeerIDByteLen : Z := 64.

Inductive relay_err := RelayBase58 | RelayLength (n : Z).

Record SenderAuth := mkSenderAuth { sa_PubKey : bytes; sa_Timestamp : bytes; sa_Signature : bytes }.

Section Relay.
Context `{P : Prims}.

Definition PeerIDToEd25519Pub (peerID : bytes) : res relay_err bytes :=
  raw ← ofOption RelayBase58 (base58_decode peerID);
  if negb (len raw =? PeerIDByteLen) then Err (RelayLength (len raw)) else Ok (take 32 raw).

(** The text a shard verifies. *)
Definition senderMessage (lower : bytes -> bytes) (senderHex mailbox timestamp payload : bytes) : bytes :=
  str "send:" ++ senderHex ++ str ":" ++ toLower lower mailbox ++ str ":" ++ timestamp ++ str ":" ++ hexEncode (sha256 payload).

(** [now] is [time.Now().UnixMilli()]; [senderPriv.Public()] and [ed25519.Sign]
    panic on a key that is not 64 bytes. *)
Definition BuildSenderAuth (lower : bytes -> bytes) (now : Z) (senderPriv mailbox payload : bytes) : res relay_err SenderAuth :=
  if negb (len senderPriv =? 64) then Panic else
  let senderHex := hexEncode (ed25519_public senderPriv) in
  let timestamp := dec now in
  sig ← ed25519Sign senderPriv (senderMessage lower senderHex mailbox timestamp payload);
  Ok (mkSenderAuth senderHex timestamp (hexEncode sig)).

End Relay.

(** ** frame.go *)
Inductive frame_error :=
| FrShort | FrUnknownType (t : byte) | FrUnregistered
| FrJSON | FrBase64 | FrEmpty | FrDisagrees | FrUnknownName (n : bytes) | FrNeither.

Definition Names (t : Type_) : option bytes :=
  match t with
  | x01 => Some (str "offer")
  | x02 => Some (str "answer")
  | x03 => Some (str "message")
  | x04 => Some (str "multimsg")
  | _ => None
  end.

Definition TypesByName (n : bytes) : option Type_ :=
  List.find (fun t => bool_decide (Names t = Some n)) [TypeOffer; TypeAnswer; TypeMessage; TypeMultiMsg].

Definition Valid (t : Type_) : bool := bool_decide (is_Some (Names t)).

Definition Wrap (t : Type_) (payload : bytes) : bytes := WrapEnvelope t payload.

Definition Unwrap (f : bytes) : res frame_error (Type_ * bytes) :=
  match f with
  | t :: ((_ :: _) as payload) => if negb (Valid t) then Err (FrUnknownType t) else Ok (t, payload)
  | _ => Err FrShort
  end.

Record Container := mkContainer { ct_Type : bytes; ct_Data : bytes }.

(** [json.Marshal] of a container whose two strings need no escaping. *)
Definition marshalContainer (c : Container) : bytes :=
  str "{" ++ [x22] ++ str "Type" ++ [x22] ++ str ":" ++ [x22] ++ ct_Type c ++ [x22] ++ str "," ++
  [x22] ++ str "Data" ++ [x22] ++ str ":" ++ [x22] ++ ct_Data c ++ [x22] ++ str "}".

(** Characters [encoding/json] writes as they are. *)
Definition plainJSON (b : byte) : bool :=
  (graphic b && negb (bool_decide (b ∈ [x22; x5c; x3c; x3e; x26])))%bool.

Class ContainerJSON := { json_container : bytes -> option Container }.

Class ContainerJSONLaws `{ContainerJSON} : Prop := {
  json_container_correct c : forallb plainJSON (ct_Type c) = true -> forallb plainJSON (ct_Data c) = true ->
    json_container (marshalContainer c) = Some c;
}.

Definition EncodeContainer (t : Type_) (payload : bytes) : res frame_error bytes :=
  match Names t with
  | None => Err FrUnregistered
  | Some name => Ok (marshalContainer (mkContainer name (b64Encode (Wrap t payload))))
  end.

Section Container.
Context `{CJ : ContainerJSON} (lower : bytes -> bytes).

(** What the data of a container holds. *)
Definition decodeBlob (c : Container) (blob : bytes) : res frame_error (Type_ * bytes) :=
  match blob with
  | [] => Err FrEmpty
  | t :: payload =>
      if Valid t then
        if negb (bool_decide (ct_Type c = []) || bool_decide (TypesByName (toLower lower (ct_Type c)) = Some t))%bool
        then Err FrDisagrees else Ok (t, payload)
      else match TypesByName (toLower lower (ct_Type c)) with
           | None => Err (FrUnknownName (ct_Type c))
           | Some lt => Ok (lt, blob)
           end
  end.

Definition DecodeContainer (raw : bytes) : res frame_error (Type_ * bytes) :=
  let trimmed := trimSpace raw in
  if hasPrefix (str "{") trimmed then
    c ← ofOption FrJSON (json_container trimmed);
    blob ← ofOption FrBase64 (b64Decode (ct_Data c));
    decodeBlob c blob
  else match trimmed with
       | [] => Panic                    (* blob[0] *)
       | t :: payload => if Valid t then Ok (t, payload) else Err FrNeither
       end.

End Container.

(** ** Lemmas *)
Lemma plain_graphic l : forallb plainJSON l = true -> forallb graphic l = true.
Proof.
  rewrite !forallb_forall. intros H b Hb. specialize (H b Hb). unfold plainJSON in H. by apply andb_true_iff in H as [? _].
Qed.

Lemma marshalContainer_graphic c :
  forallb plainJSON (ct_Type c) = true -> forallb plainJSON (ct_Data c) = true ->
  forallb graphic (marshalContainer c) = true.
Proof.
  intros H1 H2. unfold marshalContainer. rewrite !forallb_app, (plain_graphic _ H1), (plain_graphic _ H2). done.
Qed.

Lemma b64char_plain v : 0 <= v < 64 -> plainJSON (b64char v) = true.
Proof.
  intros Hv. assert (forallb (fun v => plainJSON (b64char v)) (seqZ 0 64) = true) as H by reflexivity.
  rewrite forallb_forall in H. apply H. apply list_elem_of_In, elem_of_seqZ. lia.
Qed.

Lemma b64Encode_plain l : forallb plainJSON (b64Encode l) = true.
Proof.
  remember (length l) as n eqn:Hn. revert l Hn. induction n as [n IH] using lt_wf_ind. intros l Hn.
  destruct l as [|a [|b [|c t]]]; cbn [b64Encode forallb]; try done;
    pose proof (Zb_range a); try pose proof (Zb_range b); try pose proof (Zb_range c);
    rewrite ?b64char_plain by (Z.to_euclidean_division_equations; lia); try done.
  cbn [andb]. apply (IH (length t)); [subst; simpl; lia|done].
Qed.

Lemma Valid_Names t : Valid t = true -> exists n, Names t = Some n /\ forallb plainJSON n = true /\
  TypesByName (toLower id n) = Some t /\ forallb isASCII n = true /\ n ≠ [].
Proof.
  unfold Valid. intros H. apply bool_decide_eq_true in H as [n Hn]. exists n. split; [done|].
  destruct t; simplify_eq/=; done.
Qed.

(** Sender messages are unambiguous as long as mailbox IDs have no colon. *)
Lemma colon_not_hex l : x3a ∉ hexEncode l.
Proof.
  induction l as [|b l IH]; [apply not_elem_of_nil|]. cbn [hexEncode].
  assert (hexchar (Z.shiftr (Zb b) 4) ≠ x3a /\ hexchar (Z.land (Zb b) 15) ≠ x3a) as [H1 H2] by (clear IH; destruct b; split; vm_compute; discriminate).
  rewrite !not_elem_of_cons. naive_solver.
Qed.

Lemma senderMessage_inj lower k1 k2 m1 m2 t1 t2 p1 p2 :
  x3a ∉ toLower lower m1 -> x3a ∉ toLower lower m2 ->
  senderMessage lower (hexEncode k1) m1 t1 p1 = senderMessage lower (hexEncode k2) m2 t2 p2 ->
  k1 = k2 /\ toLower lower m1 = toLower lower m2 /\ t1 = t2 /\ sha256 p1 = sha256 p2.
Proof.
  intros N1 N2 H. unfold senderMessage in H. apply (app_inv_head (str "send:")) in H.
  change (str ":") with [x3a] in H. cbn [app] in H.
  apply split_at_sep in H as [H1 H]; [|apply colon_not_hex..].
  apply split_at_sep in H as [H2 H]; [|done..].
  apply app_inj_2 in H as [H3 H4]; [|cbn [length]; by rewrite !length_hexEncode, !length_sha256].
  injection H4 as H4. apply (inj hexEncode) in H1. apply (inj hexEncode) in H4. done.
Qed.

Section FrameTheorems.
Context `{P : Prims} `{PL : !PrimLaws} `{CJ : ContainerJSON} `{CL : !ContainerJSONLaws}.

(** A payload put in a frame comes out of it, through both layers: the
    one-byte envelope gives back type and payload, and the transfer container
    survives copying with surrounding white space removed. *)
Theorem frame_roundtrip lower t payload :
  Valid t = true ->
  (payload ≠ [] -> Unwrap (Wrap t payload) = Ok (t, payload)) /\
  exists text, EncodeContainer t payload = Ok text /\ DecodeContainer lower text = Ok (t, payload).
Proof.
  intros Hv. destruct (Valid_Names t Hv) as (n & Hn & Hp & Hl & Ha & Hne). split.
  - intros Hpl. destruct payload as [|b p]; [done|]. cbn [Wrap WrapEnvelope Unwrap]. by rewrite Hv.
  - unfold EncodeContainer. rewrite Hn. eexists. split; [done|].
    set (c := mkContainer n (b64Encode (Wrap t payload))).
    assert (forallb plainJSON (ct_Data c) = true) as Hd by apply b64Encode_plain.
    unfold DecodeContainer. rewrite trimSpace_graphic by (by apply marshalContainer_graphic).
    assert (hasPrefix (str "{") (marshalContainer c) = true) as -> by apply (hasPrefix_app (str "{")).
    rewrite json_container_correct by done. cbn [ofOption mbind res_bind ct_Data c].
    rewrite b64Decode_Encode. cbn [ofOption mbind res_bind decodeBlob Wrap WrapEnvelope]. rewrite Hv. cbn [ct_Type c].
    unfold toLower in *. rewrite Ha in *.
    rewrite Hl, (bool_decide_eq_true_2 (Some t = Some t)) by done. by rewrite orb_true_r.
Qed.

(** Input that is empty or only white space makes [DecodeContainer] panic
    (index out of range) instead of returning an error. *)
Theorem decode_blank_panics lower raw : trimSpace raw = [] -> DecodeContainer lower raw = Panic.
Proof. intros H. unfold DecodeContainer. by rewrite H. Qed.

(** The Ed25519 key read off a peer ID is the identity key the ID was derived
    from, and the sender authentication built with a key verifies under it and
    determines sender, recipient mailbox, timestamp and payload hash. *)
Theorem sender_auth_binds lower now priv mailbox payload dil :
  length priv = 64%nat -> x3a ∉ toLower lower mailbox ->
  let pub := ed25519_public priv in
  PeerIDToEd25519Pub (DerivePeerID pub dil) = Ok pub /\
  exists sig, BuildSenderAuth lower now priv mailbox payload = Ok (mkSenderAuth (hexEncode pub) (dec now) (hexEncode sig)) /\
    ed25519_verify pub (senderMessage lower (hexEncode pub) mailbox (dec now) payload) sig = true /\
    forall pub' mailbox' t' payload', x3a ∉ toLower lower mailbox' ->
      senderMessage lower (hexEncode pub') mailbox' t' payload' = senderMessage lower (hexEncode pub) mailbox (dec now) payload ->
      pub' = pub /\ toLower lower mailbox' = toLower lower mailbox /\ t' = dec now /\ sha256 payload' = sha256 payload.
Proof.
  intros Hl Hm pub. split.
  - unfold PeerIDToEd25519Pub, DerivePeerID. rewrite base58_correct. cbn [ofOption mbind res_bind].
    pose proof (length_ed25519_public priv Hl) as Hp. fold pub in Hp.
    assert (len (pub ++ sha3_256 dil) = PeerIDByteLen) as -> by (unfold len; by rewrite length_app, Hp, length_sha3_256).
    cbn [Z.eqb PeerIDByteLen Pos.eqb negb]. by rewrite take_app_length'.
  - unfold BuildSenderAuth, ed25519Sign, len. rewrite Hl. eexists. split; [done|].
    split; [by apply ed25519_correct|]. intros. by apply (senderMessage_inj lower).
Qed.

End FrameTheorems.

(** A container reader that knows exactly the texts [marshalContainer] writes. *)
Definition ref_container (b : bytes) : option Container :=
  match splitOn x22 b with
  | [_; _; _; t; _; _; _; d; _] => Some (mkContainer t d)
  | _ => None
  end.

#[export] Instance ref_container_json : ContainerJSON := {| json_container := ref_container |}.

Lemma plain_no_quote l : forallb plainJSON l = true -> x22 ∉ l.
Proof.
  rewrite forallb_forall. intros H Hin. apply list_elem_of_In in Hin. specialize (H _ Hin). done.
Qed.

#[export] Instance ref_container_laws : ContainerJSONLaws.
Proof.
  split. intros [t d] Ht Hd. cbn [ct_Type ct_Data] in *. apply plain_no_quote in Ht, Hd.
  cbn [json_container ref_container_json]. unfold ref_container, marshalContainer. cbn [ct_Type ct_Data].
  assert (forall w s, x22 ∉ w -> splitOn x22 (w ++ [x22] ++ s) = w :: splitOn x22 s) as H
    by (intros w s Hw; by apply splitOn_app).
  rewrite (H (str "{")), (H (str "Type")), (H (str ":")), (H t), (H (str ",")), (H (str "Data")), (H (str ":")), (H d),
    splitOn_word by (try done; by apply (bool_decide_unpack _)). done.
Qed.

Lemma frame_roundtrip_witness :
  (Unwrap (Wrap TypeMessage (str "hi")) = Ok (TypeMessage, str "hi")) /\
  exists text, EncodeContainer TypeMessage (str "hi") = Ok text /\ DecodeContainer id text = Ok (TypeMessage, str "hi").
Proof.
  destruct (frame_roundtrip id TypeMessage (str "hi") eq_refl) as [H1 H2]. split; [|exact H2].
  apply H1. discriminate.
Defined.

Lemma decode_blank_panics_witness : DecodeContainer id (str "  ") = Panic.
Proof. apply (decode_blank_panics id (str "  ")). vm_compute. reflexivity. Defined.

Lemma sender_auth_binds_witness :
  PeerIDToEd25519Pub (DerivePeerID (ed25519_public (replicate 64 x41)) [x01]) = Ok (ed25519_public (replicate 64 x41)).
Proof.
  apply (sender_auth_binds id 1700000000000 (replicate 64 x41) (str "ab12") (str "hi") [x01]).
  - reflexivity.
  - apply (bool_decide_unpack _). vm_compute. exact I.
Defined.
