(* ===== verification/Binstore.v ===== *)
(** * Record files ([internal/binstore/binstore.go])

    A file system is a map from paths to contents.  [Save] writes a temporary
    file and renames it; what can go wrong on the way is the argument [faults],
    so every theorem about [Save] is about every way it can fail.  The class
    [RecordStore] is what the stores above rely on; the file format discharges
    it. *)
From S2P Require Import Prelude GoStd External.
#[local] Open Scope Z_scope.

Abbreviation fs := (gmap bytes bytes).
Abbreviation path := bytes.

(** A write that stops after some bytes, a rename that fails, a clean-up that
    fails. *)
Record faults := mkFaults { f_write : option nat; f_rename : bool; f_remove : bool }.
Definition noFaults : faults := mkFaults None false false.

Inductive store_err :=
| StNotExist | StWrite | StRename | StUnwrap | StVersion | StSchema | StCount | StLength | StTruncated.

#[export] Instance store_err_dec : EqDecision store_err.
Proof. solve_decision. Defined.

(** The largest allocation the runtime grants; a larger one panics. *)
Definition maxAlloc : Z := 2 ^ 48.

Section Binstore.
Context `{N : Nanopack}.

Definition appendRecord (body r : bytes) : bytes := body ++ putUvarint (len r) ++ r.

Definition saveBody (records : list bytes) : bytes :=
  fold_left appendRecord records (putUvarint (len records)).

Definition tmpOf (p : path) : path := p ++ str ".tmp".

Definition Save (f : faults) (p : path) (schemaID : byte) (records : list bytes) (d : fs) : fs * res store_err unit :=
  let frame := np_wrap schemaID (saveBody records) in
  let tmp := tmpOf p in
  match f_write f with
  | Some k => (<[tmp := take k frame]> d, Err StWrite)
  | None =>
      let d := <[tmp := frame]> d in
      if f_rename f then ((if f_remove f then d else delete tmp d), Err StRename)
      else (<[p := frame]> (delete tmp d), Ok tt)
  end.

(** The record loop: [pos] is kept as an [int], lengths are [uint64]. *)
Fixpoint loadRecords (count : nat) (body : bytes) (pos : Z) : res store_err (list bytes) :=
  match count with
  | O => Ok []
  | S count =>
      let '(ln, n) := getUvarint (drop (Z.to_nat pos) body) in
      if n <=? 0 then Err StLength else
      let pos := pos + n in
      if len body <? i64 (pos + i64 ln) then Err StTruncated else
      if maxAlloc <? ln then Panic else
      let rec := take (Z.to_nat ln) (drop (Z.to_nat pos) body) in
      rest ← loadRecords count body (pos + ln);
      Ok (rec :: rest)
  end.

Definition Load (p : path) (schemaID : byte) (d : fs) : res store_err (list bytes) :=
  match d !! p with
  | None => Err StNotExist
  | Some frame =>
      match np_unwrap frame with
      | None => Err StUnwrap
      | Some (Packet major schema body) =>
          if negb (major =? np_major) then Err StVersion else
          if negb (bool_decide (schema = schemaID)) then Err StSchema else
          let '(count, n) := getUvarint body in
          if n <=? 0 then Err StCount else
          if maxAlloc <? 24 * count then Panic else   (* make([][]byte, 0, count) *)
          loadRecords (Z.to_nat count) body n
      end
  end.

Definition Exists (p : path) (d : fs) : bool := bool_decide (is_Some (d !! p)).

End Binstore.

(** ** What the stores rely on *)
Class RecordStore := {
  rs_save : faults -> path -> byte -> list bytes -> fs -> fs * res store_err unit;
  rs_load : path -> byte -> fs -> res store_err (list bytes);
}.

(** Records that fit in memory. *)
Definition storable (records : list bytes) : Prop :=
  24 * len records <= maxAlloc /\ len (mjoin records) + 20 * len records <= 2 ^ 48.

Class RecordStoreLaws `{RecordStore} : Prop := {
  (** A save that succeeds is read back. *)
  rs_load_save f p s records d d' : storable records ->
    rs_save f p s records d = (d', Ok tt) -> rs_load p s d' = Ok records;
  (** Without faults a save succeeds. *)
  rs_save_ok p s records d : exists d', rs_save noFaults p s records d = (d', Ok tt);
  (** A save that fails leaves the file as it was. *)
  rs_save_fail f p s records d d' e : rs_save f p s records d = (d', Err e) -> d' !! p = d !! p;
  rs_save_no_panic f p s records d d' : rs_save f p s records d ≠ (d', Panic);
  (** Reading depends on the one file only. *)
  rs_load_same p s d d' : d' !! p = d !! p -> rs_load p s d' = rs_load p s d;
  rs_load_absent p s d : rs_load p s d = Err StNotExist <-> d !! p = None;
  rs_save_other f p s records d d' r q : rs_save f p s records d = (d', r) ->
    q ≠ p -> q ≠ p ++ str ".tmp" -> d' !! q = d !! q;
}.

(** ** The file format discharges it *)
Section Format.
Context `{N : Nanopack} `{NL : !NanopackLaws}.

Definition recordBytes (r : bytes) : bytes := putUvarint (len r) ++ r.

Lemma saveBody_eq records : saveBody records = putUvarint (len records) ++ mjoin (recordBytes <$> records).
Proof.
  unfold saveBody. generalize (putUvarint (len records)) as acc.
  induction records as [|r rs IH]; intros acc; cbn [fold_left]; [by rewrite app_nil_r|].
  rewrite IH. unfold appendRecord. change (mjoin (recordBytes <$> r :: rs)) with (recordBytes r ++ mjoin (recordBytes <$> rs)).
  unfold recordBytes at 2. by rewrite <- !app_assoc.
Qed.

Lemma loadRecords_step pre r rs t :
  len (pre ++ recordBytes r ++ t) <= 2 ^ 49 -> len r <= 2 ^ 48 ->
  loadRecords (S rs) (pre ++ recordBytes r ++ t) (len pre)
  = (rest ← loadRecords rs (pre ++ recordBytes r ++ t) (len (pre ++ recordBytes r)); Ok (r :: rest)).
Proof.
  intros Hlen Hr. set (body := pre ++ recordBytes r ++ t) in *.
  assert (0 <= len pre /\ 0 <= len r) as [H0 H1] by (unfold len; lia).
  assert (drop (Z.to_nat (len pre)) body = putUvarint (len r) ++ (r ++ t)) as Hd.
  { unfold body, recordBytes. rewrite <- app_assoc. unfold len at 1. by rewrite Nat2Z.id, drop_app_length. }
  cbn [loadRecords]. rewrite Hd, getUvarint_put by (change (2 ^ 64) with 18446744073709551616; lia).
  pose proof (putUvarint_nonempty (len r)) as Hp. rewrite (proj2 (Z.leb_gt _ _)) by lia.
  assert (len body = len pre + len (putUvarint (len r)) + len r + len t) as Hb
    by (unfold body, recordBytes, len; rewrite !length_app; lia).
  assert (0 <= len t) as Ht by (unfold len; lia).
  rewrite (i64_small (len r)) by lia. rewrite i64_small by lia.
  rewrite (proj2 (Z.ltb_ge _ _)) by lia. rewrite (proj2 (Z.ltb_ge maxAlloc _)) by (unfold maxAlloc; lia).
  assert (take (Z.to_nat (len r)) (drop (Z.to_nat (len pre + len (putUvarint (len r)))) body) = r) as ->.
  { unfold body, recordBytes. rewrite app_assoc, app_assoc, <- (app_assoc (_ ++ _) r t).
    replace (Z.to_nat (len pre + len (putUvarint (len r)))) with (length (pre ++ putUvarint (len r)))
      by (rewrite length_app; unfold len; lia).
    rewrite drop_app_length. unfold len. by rewrite Nat2Z.id, take_app_length. }
  replace (len pre + len (putUvarint (len r)) + len r) with (len (pre ++ recordBytes r))
    by (unfold recordBytes, len; rewrite !length_app; lia).
  done.
Qed.

Lemma loadRecords_ok records : forall pre,
  len (pre ++ mjoin (recordBytes <$> records)) <= 2 ^ 49 -> Forall (fun r => len r <= 2 ^ 48) records ->
  loadRecords (length records) (pre ++ mjoin (recordBytes <$> records)) (len pre) = Ok records.
Proof.
  induction records as [|r rs IH]; intros pre Hl Hf; [done|]. apply List.Forall_cons_iff in Hf as [Hr Hf].
  change (mjoin (recordBytes <$> r :: rs)) with (recordBytes r ++ mjoin (recordBytes <$> rs)) in *.
  cbn [length]. rewrite loadRecords_step by done. rewrite app_assoc in *. by rewrite IH.
Qed.

Lemma len_putUvarint_le x : len (putUvarint x) <= 10.
Proof. unfold putUvarint. generalize (u64 x) as y. assert (forall n y, len (putUvarint_go n y) <= Z.of_nat n) as H.
  { induction n as [|n IH]; intros y; cbn [putUvarint_go]; [done|].
    case_match; unfold len in *; cbn [length]; [lia|]. specialize (IH (Z.shiftr y 7)). lia. }
  intros y. apply (H 10%nat).
Qed.

Lemma storable_len records :
  storable records -> len (saveBody records) <= 2 ^ 49 /\ Forall (fun r => len r <= 2 ^ 48) records.
Proof.
  intros [_ H]. rewrite saveBody_eq.
  assert (len (mjoin (recordBytes <$> records)) <= len (mjoin records) + 10 * len records) as Hm.
  { clear H. induction records as [|r rs IH]; [done|].
    change (mjoin (recordBytes <$> r :: rs)) with (recordBytes r ++ mjoin (recordBytes <$> rs)).
    change (mjoin (r :: rs)) with (r ++ mjoin rs). unfold recordBytes at 1.
    pose proof (len_putUvarint_le (len r)). unfold len in *. rewrite !length_app. cbn [length]. lia. }
  split.
  - pose proof (len_putUvarint_le (len records)). unfold len in *. rewrite length_app. lia.
  - assert (0 <= len records) as H0 by (unfold len; lia).
    assert (len (mjoin records) <= 2 ^ 48) as Hj by lia. clear H Hm H0. revert Hj.
    induction records as [|r rs IH]; intros Hj; [done|]. change (mjoin (r :: rs)) with (r ++ mjoin rs) in Hj.
    unfold len in *. rewrite length_app in Hj. constructor; [lia|]. apply IH. lia.
Qed.

Lemma tmp_ne (p : path) : tmpOf p ≠ p.
Proof. intros H. apply (f_equal length) in H. unfold tmpOf in H. rewrite length_app in H. simpl in H. lia. Qed.

#[export] Instance binstore : RecordStore := {| rs_save := Save; rs_load := Load |}.

Lemma Load_saved (p : path) (s : byte) (records : list bytes) (d : fs) :
  storable records -> d !! p = Some (np_wrap s (saveBody records)) -> Load p s d = Ok records.
Proof.
  intros Hs Hd. unfold Load. rewrite Hd, np_unwrap_wrap, Z.eqb_refl. cbn [negb].
  rewrite bool_decide_eq_true_2 by done. cbn [negb]. pose proof (storable_len _ Hs) as [Hl Hf].
  destruct Hs as [Hs _]. rewrite saveBody_eq in *. unfold maxAlloc in Hs.
  assert (0 <= len records) by (unfold len; lia).
  rewrite getUvarint_put by (change (2 ^ 64) with 18446744073709551616; lia).
  pose proof (putUvarint_nonempty (len records)). rewrite (proj2 (Z.leb_gt _ _)) by lia.
  rewrite (proj2 (Z.ltb_ge _ _)) by (unfold maxAlloc; lia).
  unfold len at 1. rewrite Nat2Z.id. by apply loadRecords_ok.
Qed.

Lemma loadRecords_exists n b : forall pos, loadRecords n b pos ≠ Err StNotExist.
Proof.
  induction n as [|n IH]; intros pos; cbn [loadRecords]; [done|]. destruct (getUvarint _) as [ln k].
  cbv zeta. repeat (case_match; [done|]). specialize (IH (pos + k + ln)).
  destruct (loadRecords n b (pos + k + ln)) as [?|e|]; unfold mbind, res_bind; [done| |done]. congruence.
Qed.

#[export] Instance binstore_laws : RecordStoreLaws.
Proof.
  split; cbn [rs_save rs_load binstore].
  - intros f p s records d d' Hs H. unfold Save in H. destruct (f_write f); [done|].
    destruct (f_rename f); [by destruct (f_remove f)|]. injection H as <-. apply Load_saved; [done|]. apply lookup_insert_eq.
  - intros p s records d. by eexists.
  - intros f p s records d d' e H. unfold Save in H. pose proof (tmp_ne p).
    destruct (f_write f); [injection H as <- _; by rewrite lookup_insert_ne|].
    destruct (f_rename f); [|done]. injection H as <- _.
    destruct (f_remove f); [by rewrite lookup_insert_ne|]. by rewrite lookup_delete_ne, lookup_insert_ne.
  - intros f p s records d d' H. unfold Save in H. destruct (f_write f); [done|].
    by destruct (f_rename f), (f_remove f).
  - intros p s d d' H. unfold Load. by rewrite H.
  - intros p s d. unfold Load. split; [|by intros ->].
    destruct (d !! p) as [frame|]; [|done]. intros H. exfalso. revert H.
    destruct (np_unwrap frame) as [[major schema body]|]; [|done]. repeat case_match; try done.
    by apply loadRecords_exists.
  - intros f p s records d d' r q H Hq Ht. unfold Save in H. fold (tmpOf p) in Ht.
    destruct (f_write f); [injection H as <- _; by rewrite lookup_insert_ne|].
    destruct (f_rename f); injection H as <- _.
    + destruct (f_remove f); [by rewrite lookup_insert_ne|]. by rewrite lookup_delete_ne, lookup_insert_ne.
    + by rewrite lookup_insert_ne, lookup_delete_ne, lookup_insert_ne.
Qed.

End Format.

(** ** Theorems *)
Section StoreTheorems.
Context `{N : Nanopack} `{NL : !NanopackLaws}.

(** [Save] is atomic.  Whatever fails on the way, either it reports success
    and the file then loads to exactly the saved records, or it reports an error
    and the file loads exactly as before. *)
Theorem save_atomic (f : faults) (p : path) (s : byte) (records : list bytes) (d : fs) :
  storable records ->
  let '(d', r) := Save f p s records d in
  match r with
  | Ok _ => Load p s d' = Ok records
  | Err _ => d' !! p = d !! p /\ Load p s d' = Load p s d
  | Panic => False
  end.
Proof.
  intros Hs. destruct (Save f p s records d) as [d' r] eqn:H. destruct r as [[]|e|].
  - exact (rs_load_save f p s records d d' Hs H).
  - pose proof (rs_save_fail f p s records d d' e H) as Hd. split; [exact Hd|]. exact (rs_load_same p s d d' Hd).
  - unfold Save in H. by destruct (f_write f), (f_rename f).
Qed.

(** A record length of [2^63] or more, which becomes negative when converted
    to [int], passes the truncation check and makes [Load] panic when the record
    is allocated. *)
Theorem load_huge_length_panics count body pos ln n :
  getUvarint (drop (Z.to_nat pos) body) = (ln, n) -> 0 < n -> 0 <= pos -> pos + n <= len body <= 2 ^ 62 ->
  2 ^ 63 <= ln < 2 ^ 64 ->
  loadRecords (S count) body pos = Panic.
Proof.
  intros Hu Hn H0 Hp Hl. cbn [loadRecords]. rewrite Hu, (proj2 (Z.leb_gt _ _)) by lia. cbv zeta.
  assert (i64 ln = ln - 2 ^ 64) as Hi by (apply i64_wrap; lia). rewrite Hi.
  rewrite (i64_small (pos + n + (ln - 2 ^ 64))) by lia. assert (0 <= len body) by (unfold len; lia).
  rewrite (proj2 (Z.ltb_ge (len body) _)) by lia.
  by rewrite (proj2 (Z.ltb_lt maxAlloc ln)) by (unfold maxAlloc; lia).
Qed.

End StoreTheorems.

Lemma save_atomic_witness :
  let '(d', r) := Save noFaults (str "a.np") x28 [str "x"; str "yz"] ∅ in
  match r with
  | Ok _ => Load (str "a.np") x28 d' = Ok [str "x"; str "yz"]
  | Err _ => d' !! str "a.np" = (∅ : fs) !! str "a.np" /\ Load (str "a.np") x28 d' = Load (str "a.np") x28 ∅
  | Panic => False
  end.
Proof. apply (save_atomic noFaults (str "a.np") x28 [str "x"; str "yz"] ∅). split; vm_compute; discriminate. Defined.

Lemma load_huge_length_panics_witness :
  loadRecords 1 (putUvarint (2 ^ 63)) 0 = Panic.
Proof.
  eapply (load_huge_length_panics 0 (putUvarint (2 ^ 63)) 0); [vm_compute; reflexivity|..];
    vm_compute; intuition discriminate.
Defined.
