(* ===== verification/Records.v ===== *)
(** * Records in a store file

    Every store keeps a list of structs, each marshalled field by field with
    nanopack and read back by a loop over the decoded fields.  The class
    [BinRecord] is that pair of methods, [BinRecordLaws] that reading undoes
    writing; the lemmas here are shared by the stores. *)
From S2P Require Import Prelude GoStd External Binstore.
#[local] Open Scope Z_scope.

(** A loop over decoded fields that can return early. *)
Fixpoint foldFields {E A} (f : A -> byte * bytes -> res E A) (fs : fields) (a : A) : res E A :=
  match fs with
  | [] => Ok a
  | x :: fs => a ← f a x; foldFields f fs a
  end.

Lemma foldFields_step {E A} f x fs (a a' : A) : f a x = Ok a' -> @foldFields E A f (x :: fs) a = foldFields f fs a'.
Proof. intros H. cbn [foldFields]. by rewrite H. Qed.

(** [MarshalBinID], one turn of the loop of [UnmarshalBinID], the zero value. *)
Class BinRecord (A : Type) := {
  br_marshal : A -> fields;
  br_field : A -> byte * bytes -> A;
  br_zero : A;
}.

(** The values the format can represent. *)
Class BinRecordLaws (A : Type) `{BinRecord A} := {
  br_ok : A -> Prop;
  br_roundtrip a : br_ok a -> fold_left br_field (br_marshal a) br_zero = a;
}.

Section Records.
Context `{N : Nanopack} {A : Type} `{B : BinRecord A}.

Definition toRecord (a : A) : option bytes := MarshalFastID (br_marshal a).

Definition fromRecord (rec : bytes) : option A :=
  fs ← np_decode rec; Some (fold_left br_field fs br_zero).

Fixpoint toRecords (l : list A) : option (list bytes) :=
  match l with
  | [] => Some []
  | a :: l => r ← toRecord a; rs ← toRecords l; Some (r :: rs)
  end.

Context `{NL : !NanopackLaws} `{BL : !BinRecordLaws A}.

Lemma fromRecord_to a rec : br_ok a -> toRecord a = Some rec -> fromRecord rec = Some a.
Proof.
  intros Ha H. unfold fromRecord. rewrite (np_decode_encode _ _ H). cbn [mbind option_bind]. by rewrite br_roundtrip.
Qed.

Lemma fromRecords_to l : forall recs, Forall br_ok l -> toRecords l = Some recs -> omap fromRecord recs = l.
Proof.
  induction l as [|a l IH]; intros recs Hl H; cbn [toRecords] in H; [by injection H as <-|].
  apply List.Forall_cons_iff in Hl as [Ha Hl]. destruct (toRecord a) as [r|] eqn:Hr; [|done].
  cbn [mbind option_bind] in H. destruct (toRecords l) as [rs|]; [|done]. injection H as <-.
  cbn [omap list_omap]. rewrite (fromRecord_to _ _ Ha Hr). f_equal. by apply IH.
Qed.

End Records.

(** Inserting the values of a map one by one, under their own key, rebuilds it
    in whatever order they come. *)
Section Rebuild.
Context {A : Type} (key : A -> bytes).

Definition keyed (m : gmap bytes A) : Prop := map_Forall (fun k a => key a = k) m.

Definition insertKey (m : gmap bytes A) (a : A) : gmap bytes A := <[key a := a]> m.

Lemma keyed_insert m a : keyed m -> keyed (insertKey m a).
Proof. intros H. by apply map_Forall_insert_2. Qed.

Lemma rebuild_list (l : list (bytes * A)) : forall m0 : gmap bytes A,
  NoDup l.*1 -> Forall (fun e => key e.2 = e.1) l -> fold_left insertKey l.*2 m0 = list_to_map l ∪ m0.
Proof.
  induction l as [|[k c] l IH]; intros m0 Hn Hf; [by rewrite list_to_map_nil, map_empty_union|].
  apply List.Forall_cons_iff in Hf as [Hk Hf]. cbn in Hk. rewrite fmap_cons in Hn.
  inversion_clear Hn as [|? ? Hni Hn']. rewrite fmap_cons. cbn [fold_left snd].
  rewrite IH, list_to_map_cons by done. unfold insertKey. rewrite Hk.
  rewrite <- insert_union_l, insert_union_r; [done|]. by apply not_elem_of_list_to_map.
Qed.

Lemma rebuild_map (m : gmap bytes A) (order : list (bytes * A)) :
  keyed m -> order ≡ₚ map_to_list m -> fold_left insertKey order.*2 ∅ = m.
Proof.
  intros Hm Ho. assert (NoDup order.*1) as Hn by (rewrite Ho; apply NoDup_fst_map_to_list).
  rewrite rebuild_list; [|done|].
  - rewrite map_union_empty. rewrite <- (list_to_map_to_list m). by apply list_to_map_proper.
  - apply List.Forall_forall. intros [k c] Hin. apply list_elem_of_In in Hin. rewrite Ho in Hin.
    apply elem_of_map_to_list in Hin. by apply Hm in Hin.
Qed.

Lemma order_values (m : gmap bytes A) (order : list (bytes * A)) (Q : A -> Prop) :
  map_Forall (fun _ a => Q a) m -> order ≡ₚ map_to_list m -> Forall Q order.*2.
Proof.
  intros Hm Ho. apply List.Forall_forall. intros a Hin. apply list_elem_of_In in Hin.
  apply list_elem_of_fmap in Hin as ([k a'] & -> & Hin). rewrite Ho in Hin.
  apply elem_of_map_to_list in Hin. by apply Hm in Hin.
Qed.

End Rebuild.
