(* ===== verification/Contacts.v ===== *)
(** * The contacts book ([internal/contacts/store.go])

    An alias book from names to peer IDs, saved as one record per contact.  Go
    iterates a map in no particular order, so saving takes the order it happens
    to use as an argument.  Theorems are proved against [RecordStore]. *)
From S2P Require Import Prelude GoStd External Binstore Records.
#[local] Open Scope Z_scope.

Record Contact := mkContact { c_Name : bytes; c_UserID : bytes; c_Note : bytes }.

#[export] Instance Contact_dec : EqDecision Contact.
Proof. solve_decision. Defined.

(** [Store.Contacts] *)
Abbreviation Store := (gmap bytes Contact).

Definition storeFile : path := str "contacts.np".
Definition legacyFile : path := str "contacts.json".
Definition schemaID : byte := x28.

Inductive contact_err :=
| CNotFound (name : bytes) | CExists (name : bytes) | CSerialize | CWrite (e : store_err) | CRead (e : store_err) | CParse.

(** ** Record codec *)
Definition contactBin_MarshalBinID (c : Contact) : fields :=
  [(x01, c_Name c); (x02, c_UserID c); (x03, c_Note c)].

Definition contactBin_field (c : Contact) (f : byte * bytes) : Contact :=
  let '(mkContact n u o) := c in
  match f.1 with
  | x01 => mkContact f.2 u o
  | x02 => mkContact n f.2 o
  | x03 => mkContact n u f.2
  | _ => c
  end.

Definition contactBin_UnmarshalBinID (fs : fields) (c : Contact) : Contact := fold_left contactBin_field fs c.

#[export] Instance contactBin : BinRecord Contact := {|
  br_marshal := contactBin_MarshalBinID; br_field := contactBin_field; br_zero := mkContact [] [] [] |}.

#[export] Instance contactBin_laws : BinRecordLaws Contact.
Proof. refine {| br_ok _ := True |}. by intros [n u o] _. Defined.

(** ** Mutations and lookups *)
Definition Add (s : Store) (name userID : bytes) : Store * res contact_err unit :=
  match s !! name with
  | Some _ => (s, Err (CExists name))
  | None => (<[name := mkContact name userID []]> s, Ok tt)
  end.

Definition Remove (s : Store) (name : bytes) : Store * res contact_err unit :=
  match s !! name with
  | None => (s, Err (CNotFound name))
  | Some _ => (delete name s, Ok tt)
  end.

Definition Rename (s : Store) (oldName newName : bytes) : Store * res contact_err unit :=
  match s !! oldName with
  | None => (s, Err (CNotFound oldName))
  | Some contact =>
      match s !! newName with
      | Some _ => (s, Err (CExists newName))
      | None => (<[newName := mkContact newName (c_UserID contact) (c_Note contact)]> (delete oldName s), Ok tt)
      end
  end.

Definition SetNote (s : Store) (name note : bytes) : Store * res contact_err unit :=
  match s !! name with
  | None => (s, Err (CNotFound name))
  | Some contact => (<[name := mkContact (c_Name contact) (c_UserID contact) note]> s, Ok tt)
  end.

Definition Get (s : Store) (name : bytes) : res contact_err Contact := ofOption (CNotFound name) (s !! name).

Definition Resolve (s : Store) (nameOrID : bytes) : bytes :=
  match s !! nameOrID with Some c => c_UserID c | None => nameOrID end.

(** ** Persistence *)
Section Persist.
Context `{N : Nanopack} `{R : RecordStore} (json_contacts : bytes -> option Store).

(** [order] is the order [range s.Contacts] yields the entries in. *)
Definition Save (f : faults) (order : list (bytes * Contact)) (s : Store) (d : fs) : fs * res contact_err unit :=
  match toRecords order.*2 with
  | None => (d, Err CSerialize)
  | Some records =>
      let '(d, r) := rs_save f storeFile schemaID records d in (d, wrapErr CWrite r)
  end.

(** A record that does not decode is skipped. *)
Definition loadRecord (s : Store) (rec : bytes) : Store :=
  match fromRecord rec with
  | None => s
  | Some c => <[c_Name c := c]> s
  end.

(** [order] and [f] are those of the save that follows a migration. *)
Definition Load (f : faults) (order : Store -> list (bytes * Contact)) (d : fs) : fs * res contact_err Store :=
  match rs_load storeFile schemaID d with
  | Ok records => (d, Ok (fold_left loadRecord records ∅))
  | Panic => (d, Panic)
  | Err StNotExist =>
      match d !! legacyFile with
      | None => (d, Ok ∅)
      | Some data =>
          match json_contacts data with
          | None => (d, Err CParse)
          | Some s => ((Save f (order s) s d).1, Ok s)
          end
      end
  | Err e => (d, Err (CRead e))
  end.

End Persist.

(** ** Facts *)

(** Every entry is filed under its own name. *)
Abbreviation named := (keyed c_Name).

Lemma loadRecord_omap `{Nanopack} recs : forall s,
  fold_left loadRecord recs s = fold_left (insertKey c_Name) (omap fromRecord recs) s.
Proof.
  induction recs as [|r recs IH]; intros s; [done|]. cbn [fold_left omap list_omap]. unfold loadRecord at 2.
  destruct (fromRecord r) as [c|]; apply IH.
Qed.

(** ** Theorems *)
Inductive contact_op :=
| OpAdd (name userID : bytes) | OpRemove (name : bytes) | OpRename (o n : bytes) | OpSetNote (name note : bytes).

Definition contact_step (s : Store) (o : contact_op) : Store :=
  match o with
  | OpAdd n u => (Add s n u).1
  | OpRemove n => (Remove s n).1
  | OpRename o n => (Rename s o n).1
  | OpSetNote n t => (SetNote s n t).1
  end.

Lemma contact_step_named s o : named s -> named (contact_step s o).
Proof.
  intros Hn. destruct o; cbn [contact_step]; unfold Add, Remove, Rename, SetNote; repeat case_match; cbn [fst]; try done.
  - by apply (keyed_insert c_Name s (mkContact name userID [])).
  - by apply map_Forall_delete.
  - apply (keyed_insert c_Name _ (mkContact n _ _)). by apply map_Forall_delete.
  - match goal with H : s !! name = Some ?c |- _ => pose proof (Hn _ _ H) as Hc; cbn in Hc; rewrite Hc;
      by apply (keyed_insert c_Name s (mkContact name (c_UserID c) note)) end.
Qed.

Section ContactTheorems.
Context `{N : Nanopack} `{NL : !NanopackLaws} `{R : RecordStore} `{RL : !RecordStoreLaws}.

(** The book on disk is the book in memory.  After any sequence of additions,
    removals, renames and notes on an empty book, a save that succeeds is read
    back as exactly the same book, in whatever order its entries were written;
    a save that fails leaves the file on disk as it was. *)
Theorem contacts_persist (json : bytes -> option Store) (ops : list contact_op) (order : list (bytes * Contact)) (f g : faults) (o : Store -> list (bytes * Contact)) (d : fs) :
  let s := fold_left contact_step ops ∅ in
  order ≡ₚ map_to_list s ->
  (forall recs, toRecords order.*2 = Some recs -> storable recs) ->
  let '(d', r) := Save f order s d in
  match r with
  | Ok _ => Load json g o d' = (d', Ok s)
  | _ => d' !! storeFile = d !! storeFile
  end.
Proof.
  intros s Ho Hst. assert (named s) as Hn.
  { subst s. assert (named ∅) as H0 by (apply map_Forall_empty). revert H0. clear. generalize (∅ : Store).
    induction ops as [|x ops IH]; intros s Hs; [done|]. by apply IH, contact_step_named. }
  clearbody s. unfold Save. destruct (toRecords order.*2) as [recs|] eqn:Hm; [|done].
  destruct (rs_save f storeFile schemaID recs d) as [d' r] eqn:Hs. destruct r as [[]|e|]; cbn [wrapErr].
  - unfold Load. rewrite (rs_load_save _ _ _ _ _ _ (Hst recs eq_refl) Hs).
    rewrite loadRecord_omap, (fromRecords_to order.*2 recs); [|by apply (order_values s)|done].
    by rewrite (rebuild_map c_Name s order).
  - by apply (rs_save_fail _ _ _ _ _ _ _ Hs).
  - by apply rs_save_no_panic in Hs.
Qed.

(** Renaming moves an alias: the new name resolves to the peer the old one
    resolved to and keeps its note, the old name is gone, every other entry is
    untouched, and nothing is ever overwritten. *)
Theorem rename_moves_alias (s s' : Store) o n :
  named s -> Rename s o n = (s', Ok tt) ->
  exists c, s !! o = Some c /\ s !! n = None /\ o ≠ n /\
    Get s' n = Ok (mkContact n (c_UserID c) (c_Note c)) /\ Resolve s' n = Resolve s o /\
    Get s' o = Err (CNotFound o) /\ Resolve s' o = o /\
    (forall k, k ≠ o -> k ≠ n -> s' !! k = s !! k) /\ named s'.
Proof.
  intros Hn H. pose proof (contact_step_named s (OpRename o n) Hn) as Hn'. cbn [contact_step] in Hn'. rewrite H in Hn'.
  unfold Rename in H. destruct (s !! o) as [c|] eqn:Ho; [|done]. destruct (s !! n) eqn:Hnn; [done|].
  injection H as <-. assert (o ≠ n) as Hne by congruence. exists c.
  unfold Get, Resolve. rewrite !lookup_insert_eq, !lookup_insert_ne, !lookup_delete_eq, Ho by congruence.
  repeat split; try done. intros k Hk1 Hk2. by rewrite lookup_insert_ne, lookup_delete_ne by congruence.
Qed.

End ContactTheorems.

Definition demoBook : Store := fold_left contact_step [OpAdd (str "bob") (str "id1"); OpSetNote (str "bob") (str "x")] ∅.

Lemma contacts_persist_witness :
  let '(d', r) := Save noFaults (map_to_list demoBook) demoBook ∅ in
  match r with
  | Ok _ => Load (fun _ => None) noFaults map_to_list d' = (d', Ok demoBook)
  | _ => d' !! storeFile = (∅ : fs) !! storeFile
  end.
Proof.
  apply (contacts_persist (fun _ => None) [OpAdd (str "bob") (str "id1"); OpSetNote (str "bob") (str "x")]
    (map_to_list demoBook) noFaults noFaults map_to_list ∅).
  - reflexivity.
  - intros recs H. vm_compute in H. injection H as <-. split; vm_compute; discriminate.
Defined.

Lemma rename_moves_alias_witness :
  exists s' c, demoBook !! str "bob" = Some c /\ Resolve s' (str "robert") = Resolve demoBook (str "bob").
Proof.
  destruct (rename_moves_alias demoBook (Rename demoBook (str "bob") (str "robert")).1 (str "bob") (str "robert"))
    as (c & H1 & _ & _ & _ & H2 & _).
  - unfold demoBook. repeat (apply contact_step_named || apply map_Forall_empty).
  - apply pair_result. vm_compute. reflexivity.
  - eexists _, c. split; [exact H1|exact H2].
Defined.
