(* ===== verification/MultiMsg.v ===== *)
(** * Group messages: data and wire format ([internal/multimsg/types.go], [wire.go])

    Contexts (group descriptors), deliveries, local policies, their record
    codecs, context signatures, and the payload a delivery encrypts: the binding
    of message, group, sender, recipient and version, then the signed descriptor,
    then the text. *)
From S2P Require Import Prelude GoStd Sha256 External SecurePeer Frame Binstore Records.
#[local] Open Scope Z_scope.

(** ** types.go *)
Abbreviation ContextID := bytes.
Abbreviation MessageID := bytes.
Abbreviation DeliveryID := bytes.

(** [RecipientPolicy] is an [int]; records can hold values without a name. *)
Abbreviation RecipientPolicy := Z.
Definition PolicyEnabled : RecipientPolicy := 0.
Definition PolicyMuted : RecipientPolicy := 1.
Definition PolicyBlocked : RecipientPolicy := 2.
Definition PolicyExcluded : RecipientPolicy := 3.

Definition policyString (p : RecipientPolicy) : bytes :=
  if p =? PolicyEnabled then str "enabled"
  else if p =? PolicyMuted then str "muted"
  else if p =? PolicyBlocked then str "blocked"
  else if p =? PolicyExcluded then str "excluded"
  else str "unknown".

Definition MessageContextSchemaID : byte := byteZ 10.
Definition MessageDeliverySchemaID : byte := byteZ 11.
Definition PolicySchemaID : byte := byteZ 44.

Record MessageContext := mkContext {
  mc_ContextID : ContextID;
  mc_DisplayName : bytes;
  mc_MetadataVersion : Z;      (* uint64 *)
  mc_CreatorID : bytes;
  mc_Signature : bytes;
}.

#[export] Instance MessageContext_dec : EqDecision MessageContext.
Proof. solve_decision. Defined.

Definition MessageContext_MarshalBinID (c : MessageContext) : fields :=
  [(x01, mc_ContextID c); (x02, mc_DisplayName c); (x03, putU64 (mc_MetadataVersion c));
   (x04, mc_CreatorID c); (x05, mc_Signature c)].

Definition MessageContext_field (c : MessageContext) (f : byte * bytes) : MessageContext :=
  let '(mkContext i n v r s) := c in
  match f.1 with
  | x01 => mkContext f.2 n v r s
  | x02 => mkContext i f.2 v r s
  | x03 => if len f.2 =? 8 then mkContext i n (unbe f.2) r s else c
  | x04 => mkContext i n v f.2 s
  | x05 => mkContext i n v r f.2
  | _ => c
  end.

Definition zeroContext : MessageContext := mkContext [] [] 0 [] [].

Definition MessageContext_UnmarshalBinID (fs : fields) (c : MessageContext) : MessageContext :=
  fold_left MessageContext_field fs c.

Inductive ms_err :=
| MsMarshal | MsSigLength | MsVerify | MsCreator (e : relay_err) | MsNilContext
| MsShort | MsLengthByte | MsTruncated | MsVersion | MsDescriptor | MsTooLarge | MsAAD
| ErrContextNotFound | ErrPolicyNotFound | ErrDeliveryNotFound | ErrDeliveryPending | ErrDuplicateDelivery
| MsStale (v w : Z) | MsDuplicateID | MsStore (e : store_err).

(** A delivery that has not been encrypted yet has a [nil] ciphertext. *)
Record MessageDelivery := mkDelivery {
  md_DeliveryID : DeliveryID;
  md_MessageID : MessageID;
  md_Recipient : bytes;
  md_ChannelID : bytes;
  md_Ciphertext : option bytes;
  md_ContextID : ContextID;
  md_Timestamp : Z;            (* int64 *)
}.

#[export] Instance MessageDelivery_dec : EqDecision MessageDelivery.
Proof. solve_decision. Defined.

Definition MessageDelivery_MarshalBinID (d : MessageDelivery) : fields :=
  [(x01, md_DeliveryID d); (x02, md_MessageID d); (x03, md_Recipient d); (x04, md_ChannelID d);
   (x05, nilBytes (md_Ciphertext d)); (x06, md_ContextID d); (x07, putU64 (u64 (md_Timestamp d)))].

Definition MessageDelivery_field (d : MessageDelivery) (f : byte * bytes) : MessageDelivery :=
  let '(mkDelivery i m r ch ct c t) := d in
  match f.1 with
  | x01 => mkDelivery f.2 m r ch ct c t
  | x02 => mkDelivery i f.2 r ch ct c t
  | x03 => mkDelivery i m f.2 ch ct c t
  | x04 => mkDelivery i m r f.2 ct c t
  | x05 => mkDelivery i m r ch (Some f.2) c t
  | x06 => mkDelivery i m r ch ct f.2 t
  | x07 => if len f.2 =? 8 then mkDelivery i m r ch ct c (i64 (unbe f.2)) else d
  | _ => d
  end.

Definition zeroDelivery : MessageDelivery := mkDelivery [] [] [] [] None [] 0.

Definition MessageDelivery_UnmarshalBinID (fs : fields) (d : MessageDelivery) : MessageDelivery :=
  fold_left MessageDelivery_field fs d.

Record LocalRecipientPolicy := mkPolicy {
  lp_ContextID : ContextID;
  lp_Recipient : bytes;
  lp_Policy : RecipientPolicy;
  lp_UpdatedAt : Z;            (* int64 *)
}.

#[export] Instance LocalRecipientPolicy_dec : EqDecision LocalRecipientPolicy.
Proof. solve_decision. Defined.

Inductive DeliveryStatus := DeliverySent | DeliveryPending | DeliveryFailed.

#[export] Instance DeliveryStatus_dec : EqDecision DeliveryStatus.
Proof. solve_decision. Defined.

Definition statusString (s : DeliveryStatus) : bytes :=
  match s with
  | DeliverySent => str "sent"
  | DeliveryPending => str "pending"
  | DeliveryFailed => str "failed"
  end.

(** [dr_Error] tells whether the error is set. *)
Record DeliveryResult := mkResult {
  dr_DeliveryID : DeliveryID;
  dr_Recipient : bytes;
  dr_Status : DeliveryStatus;
  dr_Error : bool;
  dr_Ciphertext : option bytes;
}.

Record FanoutResult := mkFanoutResult {
  fr_MessageID : MessageID;
  fr_Sender : bytes;
  fr_Context : MessageContext;
  fr_Deliveries : list DeliveryResult;
  fr_Timestamp : Z;
}.

Definition countStatus (s : DeliveryStatus) (ds : list DeliveryResult) : Z :=
  fold_left (fun count d => if bool_decide (dr_Status d = s) then i64 (count + 1) else count) ds 0.

Definition SuccessCount (r : FanoutResult) : Z := countStatus DeliverySent (fr_Deliveries r).
Definition FailedCount (r : FanoutResult) : Z := countStatus DeliveryFailed (fr_Deliveries r).
Definition PendingCount (r : FanoutResult) : Z := countStatus DeliveryPending (fr_Deliveries r).
Definition AllSent (r : FanoutResult) : bool := ((FailedCount r =? 0) && (PendingCount r =? 0))%bool.

Record FanoutConfig := mkConfig { SkipOffline : bool; MaxRetries : Z; RequireAcknowledgement : bool }.
Definition DefaultFanoutConfig : FanoutConfig := mkConfig false 3 false.

(** 16 random bytes as hex: [GenerateContextID], [GenerateMessageID] and
    [GenerateDeliveryID] are the same function of the bytes drawn. *)
Definition GenerateID (rnd : bytes) : bytes := hexEncode rnd.

(** ** Records *)
#[export] Instance context_record : BinRecord MessageContext := {|
  br_marshal := MessageContext_MarshalBinID; br_field := MessageContext_field; br_zero := zeroContext |}.

#[export] Instance delivery_record : BinRecord MessageDelivery := {|
  br_marshal := MessageDelivery_MarshalBinID; br_field := MessageDelivery_field; br_zero := zeroDelivery |}.

(** [policyBin] and the conversions [policyToRecord]/[policyFromRecord] around it:
    the policy is cut to one byte, the time stored as [uint64]. *)
Definition policyBin_MarshalBinID (p : LocalRecipientPolicy) : fields :=
  [(x01, lp_ContextID p); (x02, lp_Recipient p); (x03, [byteZ (lp_Policy p)]); (x04, putU64 (u64 (lp_UpdatedAt p)))].

Definition policyBin_field (p : LocalRecipientPolicy) (f : byte * bytes) : LocalRecipientPolicy :=
  let '(mkPolicy c r y t) := p in
  match f.1 with
  | x01 => mkPolicy f.2 r y t
  | x02 => mkPolicy c f.2 y t
  | x03 => match f.2 with [b] => mkPolicy c r (Zb b) t | _ => p end
  | x04 => if len f.2 =? 8 then mkPolicy c r y (i64 (unbe f.2)) else p
  | _ => p
  end.

#[export] Instance policy_record : BinRecord LocalRecipientPolicy := {|
  br_marshal := policyBin_MarshalBinID; br_field := policyBin_field; br_zero := mkPolicy [] [] 0 0 |}.

(** The logical message.  Its codec leaves the deliveries out. *)
Record MultiMessage := mkMultiMessage {
  mm_MessageID : MessageID;
  mm_Sender : bytes;
  mm_Context : option MessageContext;
  mm_Deliveries : list MessageDelivery;
  mm_Timestamp : Z;
}.

Section MultiMessage.
Context `{N : Nanopack}.

Definition MultiMessage_MarshalBinID (m : MultiMessage) : option fields :=
  ctx ← match mm_Context m with
        | Some c => b ← toRecord c; Some [(x03, b)]
        | None => Some []
        end;
  Some ([(x01, mm_MessageID m); (x02, mm_Sender m)] ++ ctx ++ [(x05, putU64 (u64 (mm_Timestamp m)))]).

Definition MultiMessage_field (m : MultiMessage) (f : byte * bytes) : MultiMessage :=
  let '(mkMultiMessage i s c d t) := m in
  match f.1 with
  | x01 => mkMultiMessage f.2 s c d t
  | x02 => mkMultiMessage i f.2 c d t
  | x03 => match fromRecord f.2 with Some ctx => mkMultiMessage i s (Some ctx) d t | None => m end
  | x05 => if len f.2 =? 8 then mkMultiMessage i s c d (i64 (unbe f.2)) else m
  | _ => m
  end.

Definition MultiMessage_UnmarshalBinID (fs : fields) (m : MultiMessage) : MultiMessage :=
  fold_left MultiMessage_field fs m.

End MultiMessage.

(** ** wire.go *)
Definition wireVersionV2 : byte := x02.

Record DeliveryMeta := mkMeta {
  dm_MessageID : MessageID;
  dm_ContextID : ContextID;
  dm_Sender : bytes;
  dm_Recipient : bytes;
  dm_Version : Z;
}.

#[export] Instance DeliveryMeta_dec : EqDecision DeliveryMeta.
Proof. solve_decision. Defined.

Record Parsed := mkParsed { pd_Meta : DeliveryMeta; pd_Context : option MessageContext; pd_Plaintext : bytes }.

Definition readLengthPrefixed (buf : bytes) : res ms_err (bytes * bytes) :=
  match buf with
  | [] => Err MsLengthByte
  | n :: t => if len buf <? 1 + Zb n then Err MsTruncated
              else Ok (take (Z.to_nat (Zb n)) t, drop (Z.to_nat (Zb n)) t)
  end.

Definition parseAAD (buf : bytes) : res ms_err (DeliveryMeta * bytes) :=
  '(msgID, buf) ← readLengthPrefixed buf;
  '(ctxID, buf) ← readLengthPrefixed buf;
  '(sender, buf) ← readLengthPrefixed buf;
  '(recipient, buf) ← readLengthPrefixed buf;
  if len buf <? 8 then Err MsVersion else
  Ok (mkMeta msgID ctxID sender recipient (unbe (take 8 buf)), drop 8 buf).

(** [appendLengthPrefixed]: the length is cut to one byte. *)
Definition appendLengthPrefixed (buf data : bytes) : bytes := buf ++ [byteZ (len data)] ++ data.

Definition buildDeliveryAAD (msgID : MessageID) (ctxID : ContextID) (sender recipient : bytes) (version : Z) : bytes :=
  let buf := appendLengthPrefixed [] msgID in
  let buf := appendLengthPrefixed buf ctxID in
  let buf := appendLengthPrefixed buf sender in
  let buf := appendLengthPrefixed buf recipient in
  buf ++ [byteZ (Z.shiftr version 56); byteZ (Z.shiftr version 48); byteZ (Z.shiftr version 40);
          byteZ (Z.shiftr version 32); byteZ (Z.shiftr version 24); byteZ (Z.shiftr version 16);
          byteZ (Z.shiftr version 8); byteZ version].

Definition wrapPlaintext (plaintext aad : bytes) : bytes := aad ++ plaintext.

Definition unwrapPlaintext (wrapped expectedAAD : bytes) : res ms_err bytes :=
  if len wrapped <? len expectedAAD then Err MsShort else
  if negb (bytes_eqb (take (length expectedAAD) wrapped) expectedAAD) then Err MsAAD else
  Ok (drop (length expectedAAD) wrapped).

Section Wire.
Context `{N : Nanopack} `{P : Prims}.

Definition signContextPayload (ctx : MessageContext) : option bytes :=
  MarshalFastID (MessageContext_MarshalBinID
    (mkContext (mc_ContextID ctx) (mc_DisplayName ctx) (mc_MetadataVersion ctx) (mc_CreatorID ctx) [])).

Definition SignContext (ctx : MessageContext) (creatorPriv : bytes) : res ms_err MessageContext :=
  payload ← ofOption MsMarshal (signContextPayload ctx);
  sig ← ed25519Sign creatorPriv payload;
  Ok (mkContext (mc_ContextID ctx) (mc_DisplayName ctx) (mc_MetadataVersion ctx) (mc_CreatorID ctx) sig).

(** [ed25519.Verify] panics on a public key that is not 32 bytes. *)
Definition VerifyContext (ctx : MessageContext) (creatorPub : bytes) : res ms_err unit :=
  if negb (len (mc_Signature ctx) =? 64) then Err MsSigLength else
  payload ← ofOption MsMarshal (signContextPayload ctx);
  if negb (len creatorPub =? 32) then Panic else
  check (negb (ed25519_verify creatorPub payload (mc_Signature ctx))) MsVerify.

Definition VerifyContextSignature (ctx : MessageContext) : res ms_err unit :=
  if negb (len (mc_Signature ctx) =? 64) then Err MsSigLength else
  pub ← wrapErr MsCreator (PeerIDToEd25519Pub (mc_CreatorID ctx));
  payload ← ofOption MsMarshal (signContextPayload ctx);
  check (negb (ed25519_verify pub payload (mc_Signature ctx))) MsVerify.

Definition wrapPayloadV2 (aad : bytes) (msgCtx : option MessageContext) (plaintext : bytes) : res ms_err bytes :=
  let out := [wireVersionV2] ++ aad in
  out ← match msgCtx with
        | Some ctx =>
            ctxBin ← ofOption MsMarshal (toRecord ctx);
            if 255 <? len ctxBin then Err MsTooLarge
            else Ok (out ++ [byteZ (len ctxBin)] ++ ctxBin)
        | None => Ok (out ++ [x00])
        end;
  Ok (out ++ plaintext).

Definition ParseWrapped (wrapped : bytes) : res ms_err Parsed :=
  match wrapped with
  | [] => Err MsShort
  | v :: t =>
      if bool_decide (v = wireVersionV2) then
        '(meta, rest) ← parseAAD t;
        '(ctxBin, rest) ← readLengthPrefixed rest;
        if 0 <? len ctxBin then
          ctx ← ofOption MsDescriptor (fromRecord ctxBin);
          _ ← VerifyContextSignature ctx;
          Ok (mkParsed meta (Some ctx) rest)
        else Ok (mkParsed meta None rest)
      else
        '(meta, rest) ← parseAAD wrapped;
        Ok (mkParsed meta None rest)
  end.

End Wire.

(** ** Record codecs undo themselves *)
#[export] Instance context_record_laws : BinRecordLaws MessageContext.
Proof.
  refine {| br_ok c := 0 <= mc_MetadataVersion c < 2 ^ 64 |}. intros [i n v r s] Hv. unfold br_marshal, br_field, br_zero, context_record, MessageContext_MarshalBinID.
  cbn [fold_left mc_ContextID mc_DisplayName mc_MetadataVersion mc_CreatorID mc_Signature] in *.
  cbn [MessageContext_field fst snd zeroContext].
  by rewrite len_putU64, unbe_putU64, u64_small.
Defined.

#[export] Instance delivery_record_laws : BinRecordLaws MessageDelivery.
Proof.
  refine {| br_ok d := is_Some (md_Ciphertext d) /\ - 2 ^ 63 <= md_Timestamp d < 2 ^ 63 |}.
  intros [i m r ch ct c t] [[ct' Hc] Ht]. cbn in Hc, Ht. subst ct.
  unfold br_marshal, br_field, br_zero, delivery_record, MessageDelivery_MarshalBinID.
  cbn [fold_left md_DeliveryID md_MessageID md_Recipient md_ChannelID md_Ciphertext md_ContextID md_Timestamp
       MessageDelivery_field fst snd zeroDelivery nilBytes].
  rewrite len_putU64, unbe_putU64, (u64_small (u64 t)) by apply u64_range. cbn [Z.eqb Pos.eqb]. by rewrite i64_u64.
Defined.

#[export] Instance policy_record_laws : BinRecordLaws LocalRecipientPolicy.
Proof.
  refine {| br_ok p := 0 <= lp_Policy p < 256 /\ - 2 ^ 63 <= lp_UpdatedAt p < 2 ^ 63 |}.
  intros [c r y t] [Hy Ht]. cbn in Hy, Ht.
  unfold br_marshal, br_field, br_zero, policy_record, policyBin_MarshalBinID.
  cbn [fold_left lp_ContextID lp_Recipient lp_Policy lp_UpdatedAt policyBin_field fst snd].
  rewrite len_putU64, unbe_putU64, (u64_small (u64 t)) by apply u64_range. cbn [Z.eqb Pos.eqb].
  by rewrite i64_u64, Zb_byteZ, Z.mod_small.
Defined.

(** ** The binding *)
Definition fits (s : bytes) : Prop := len s <= 255.

Lemma readLengthPrefixed_append data rest :
  fits data -> readLengthPrefixed ([byteZ (len data)] ++ data ++ rest) = Ok (data, rest).
Proof.
  intros H. unfold fits in H. assert (0 <= len data) by (unfold len; lia). cbn [app readLengthPrefixed].
  rewrite Zb_byteZ, Z.mod_small by lia. rewrite (proj2 (Z.ltb_ge _ _)).
  - unfold len at 1 2. by rewrite Nat2Z.id, take_app_length, drop_app_length.
  - unfold len. cbn [length]. rewrite length_app. lia.
Qed.

Lemma putU64_shift v :
  putU64 v = [byteZ (Z.shiftr v 56); byteZ (Z.shiftr v 48); byteZ (Z.shiftr v 40); byteZ (Z.shiftr v 32);
              byteZ (Z.shiftr v 24); byteZ (Z.shiftr v 16); byteZ (Z.shiftr v 8); byteZ v].
Proof. unfold putU64. cbn [be]. rewrite ?Z.shiftr_shiftr by lia. reflexivity. Qed.

Lemma buildDeliveryAAD_eq msgID ctxID sender recipient version :
  buildDeliveryAAD msgID ctxID sender recipient version
  = [byteZ (len msgID)] ++ msgID ++ [byteZ (len ctxID)] ++ ctxID ++ [byteZ (len sender)] ++ sender ++
    [byteZ (len recipient)] ++ recipient ++ putU64 version.
Proof. unfold buildDeliveryAAD, appendLengthPrefixed. rewrite putU64_shift. by rewrite <- !app_assoc, app_nil_l. Qed.

(** The binding is read back in front of anything. *)
Lemma parseAAD_build msgID ctxID sender recipient version rest :
  fits msgID -> fits ctxID -> fits sender -> fits recipient -> 0 <= version < 2 ^ 64 ->
  parseAAD (buildDeliveryAAD msgID ctxID sender recipient version ++ rest)
  = Ok (mkMeta msgID ctxID sender recipient version, rest).
Proof.
  intros Hm Hc Hs Hr Hv. rewrite buildDeliveryAAD_eq. rewrite <- !app_assoc. unfold parseAAD.
  do 4 (rewrite readLengthPrefixed_append by done; unfold mbind at 1, res_bind at 1).
  pose proof (len_putU64 version) as Hl.
  assert (length (putU64 version) = 8%nat) as Hn by (unfold len in Hl; lia).
  rewrite (proj2 (Z.ltb_ge _ _)) by (unfold len; rewrite length_app, Hn; lia).
  rewrite <- Hn at 1 2. rewrite take_app_length, drop_app_length, unbe_putU64, u64_small by done. done.
Qed.

Lemma toRecord_nonempty `{NanopackLaws} {A} `{BinRecord A} (a : A) w : toRecord a = Some w -> 0 < len w.
Proof.
  intros Hw. unfold toRecord, MarshalFastID in Hw. apply np_encode_head in Hw. destruct w; [done|].
  unfold len. cbn [length]. lia.
Qed.

Section WireFacts.
Context `{N : Nanopack} `{NL : !NanopackLaws} `{P : Prims} `{PL : !PrimLaws}.

Lemma PeerIDToEd25519Pub_derive pub dil :
  length pub = 32%nat -> PeerIDToEd25519Pub (DerivePeerID pub dil) = Ok pub.
Proof.
  intros Hl. unfold PeerIDToEd25519Pub, DerivePeerID. rewrite base58_correct. cbn [ofOption mbind res_bind].
  unfold len at 1. rewrite length_app, Hl, length_sha3_256. cbn [Nat.add].
  change (negb (Z.of_nat 64 =? PeerIDByteLen)) with false. cbv iota. by rewrite <- Hl, take_app_length.
Qed.

Lemma signContext_verifies ctx ctx' priv pub dil :
  length priv = 64%nat -> ed25519_public priv = pub ->
  mc_CreatorID ctx = DerivePeerID pub dil -> SignContext ctx priv = Ok ctx' ->
  VerifyContextSignature ctx' = Ok tt /\ mc_ContextID ctx' = mc_ContextID ctx /\
  mc_DisplayName ctx' = mc_DisplayName ctx /\ mc_MetadataVersion ctx' = mc_MetadataVersion ctx /\
  mc_CreatorID ctx' = mc_CreatorID ctx.
Proof.
  intros Hp Hpub Hc H. unfold SignContext in H. apply bind_Ok in H as (payload & Hpay & H).
  apply ofOption_Ok in Hpay. unfold ed25519Sign in H.
  rewrite (proj2 (Z.eqb_eq (len priv) 64)) in H by (unfold len; lia). cbn in H. injection H as <-.
  split; [|done]. unfold VerifyContextSignature. cbn [mc_Signature mc_CreatorID].
  unfold len at 1. rewrite length_ed25519_sign. cbn [negb Z.eqb Pos.eqb Z.of_nat Pos.of_succ_nat Pos.succ].
  rewrite Hc, (PeerIDToEd25519Pub_derive pub dil), <- Hc by (rewrite <- Hpub; by apply length_ed25519_public).
  cbn [wrapErr mbind res_bind].
  unfold signContextPayload in *. cbn [mc_ContextID mc_DisplayName mc_MetadataVersion mc_CreatorID].
  rewrite Hpay. cbn [ofOption mbind res_bind].
  by rewrite <- Hpub, ed25519_correct.
Qed.

Lemma ParseWrapped_wrap msgID ctxID sender recipient version ctx plaintext w :
  fits msgID -> fits ctxID -> fits sender -> fits recipient -> 0 <= version < 2 ^ 64 ->
  0 <= mc_MetadataVersion ctx < 2 ^ 64 -> VerifyContextSignature ctx = Ok tt ->
  wrapPayloadV2 (buildDeliveryAAD msgID ctxID sender recipient version) (Some ctx) plaintext = Ok w ->
  ParseWrapped w = Ok (mkParsed (mkMeta msgID ctxID sender recipient version) (Some ctx) plaintext).
Proof.
  intros Hm Hc Hs Hr Hv Hcv Hsig.
  pose proof (fun rest => parseAAD_build msgID ctxID sender recipient version rest Hm Hc Hs Hr Hv) as Ha.
  revert Ha. generalize (buildDeliveryAAD msgID ctxID sender recipient version) as aad. intros aad Ha H.
  unfold wrapPayloadV2 in H. apply bind_Ok in H as (out & H & Hout).
  apply bind_Ok in H as (ctxBin & Hb & H). apply ofOption_Ok in Hb.
  destruct (255 <? len ctxBin) eqn:Hl; [done|]. apply Z.ltb_ge in Hl. injection H as <-. injection Hout as <-.
  cbn [app ParseWrapped]. rewrite bool_decide_eq_true_2 by done.
  rewrite <- !app_assoc, Ha.
  cbn [mbind res_bind]. change ((byteZ (len ctxBin) :: ctxBin) ++ plaintext) with ([byteZ (len ctxBin)] ++ ctxBin ++ plaintext).
  rewrite readLengthPrefixed_append by done. cbn [mbind res_bind].
  rewrite (proj2 (Z.ltb_lt _ _)) by (exact (toRecord_nonempty _ _ Hb)).
  rewrite (fromRecord_to ctx ctxBin) by done. cbn [ofOption mbind res_bind]. by rewrite Hsig.
Qed.

(** The payload of a delivery is read back as it was written: the recipient
    recovers message, group, sender, recipient and version, the descriptor with
    its signature checked, and the text, whenever the identifiers are at most
    255 bytes and the descriptor carries a valid signature. *)
Theorem wrapped_payload_roundtrip msgID ctxID sender recipient version ctx plaintext w :
  fits msgID -> fits ctxID -> fits sender -> fits recipient -> 0 <= version < 2 ^ 64 ->
  0 <= mc_MetadataVersion ctx < 2 ^ 64 -> VerifyContextSignature ctx = Ok tt ->
  wrapPayloadV2 (buildDeliveryAAD msgID ctxID sender recipient version) (Some ctx) plaintext = Ok w ->
  ParseWrapped w = Ok (mkParsed (mkMeta msgID ctxID sender recipient version) (Some ctx) plaintext).
Proof. apply ParseWrapped_wrap. Qed.

End WireFacts.

(** The binding determines what it binds while every identifier is at most
    255 bytes: two deliveries with the same binding have the same message,
    group, sender, recipient and version. *)
Theorem binding_injective m1 c1 s1 r1 v1 m2 c2 s2 r2 v2 :
  fits m1 -> fits c1 -> fits s1 -> fits r1 -> 0 <= v1 < 2 ^ 64 ->
  fits m2 -> fits c2 -> fits s2 -> fits r2 -> 0 <= v2 < 2 ^ 64 ->
  buildDeliveryAAD m1 c1 s1 r1 v1 = buildDeliveryAAD m2 c2 s2 r2 v2 ->
  m1 = m2 /\ c1 = c2 /\ s1 = s2 /\ r1 = r2 /\ v1 = v2.
Proof.
  intros ? ? ? ? ? ? ? ? ? ? H.
  assert (parseAAD (buildDeliveryAAD m1 c1 s1 r1 v1 ++ []) = parseAAD (buildDeliveryAAD m2 c2 s2 r2 v2 ++ [])) as Hp
    by (by rewrite H).
  rewrite !parseAAD_build in Hp by done. by injection Hp.
Qed.

(** Without the bound it does not: a length is written as one byte. *)
Example binding_collides :
  buildDeliveryAAD (replicate 256 x00) [] [] [] 1 = buildDeliveryAAD [] (replicate 256 x00) [] [] 1.
Proof. reflexivity. Qed.

Lemma binding_injective_witness :
  str "m" = str "m" /\ str "c" = str "c" /\ str "s" = str "s" /\ str "r" = str "r" /\ 7 = 7.
Proof.
  apply (binding_injective (str "m") (str "c") (str "s") (str "r") 7 (str "m") (str "c") (str "s") (str "r") 7);
    vm_compute; intuition discriminate.
Defined.

(** A context signed by a creator whose peer ID is its own. *)
Definition demoCreator : bytes := Eval vm_compute in DerivePeerID (ed25519_public (replicate 64 x41)) [x41].

Definition demoContext : MessageContext := Eval vm_compute in
  match SignContext (mkContext (str "g1") (str "team") 3 demoCreator []) (replicate 64 x41) with
  | Ok c => c | _ => zeroContext end.

Lemma wrapped_payload_roundtrip_witness : exists w,
  ParseWrapped w = Ok (mkParsed (mkMeta (str "m1") (str "g1") (str "al") (str "bo") 3) (Some demoContext) (str "hello")).
Proof.
  eexists. eapply (wrapped_payload_roundtrip (str "m1") (str "g1") (str "al") (str "bo") 3 demoContext (str "hello")).
  all: vm_compute; intuition discriminate.
Defined.
