(* ===== verification/MultiStore.v ===== *)
(** * Group stores ([internal/multimsg/store.go])

    The context and delivery stores, in memory and in files.  [ContextStore] is
    the interface the fan-out uses; its laws speak of the contexts and policies
    a store holds, and both stores discharge them.  Go maps are iterated in no
    fixed order and writes can fail, so each operation that writes takes a
    [storeIO]: the order the runtime picks and the faults it meets.  Pointers
    returned by the stores are never written through, so values stand for
    them. *)
From S2P Require Import Prelude GoStd Sha256 External Frame Binstore Records MultiMsg.
#[local] Open Scope Z_scope.

Record storeIO := mkIO {
  io_first : faults;                                           (* the first file written *)
  io_second : faults;                                          (* the second *)
  io_range : forall A : Type, gmap bytes A -> list (bytes * A); (* [range] over a map *)
}.
Arguments io_range _ {A} _.

Definition range_ok (io : storeIO) : Prop := forall (A : Type) (m : gmap bytes A), io_range io m ≡ₚ map_to_list m.

Abbreviation contexts_t := (gmap ContextID MessageContext).
Abbreviation policies_t := (gmap ContextID (gmap bytes LocalRecipientPolicy)).

(** [sort.Slice] by a key. *)
Definition sortBy {A} (key : A -> bytes) (l : list A) : list A := merge_sort (fun a b => bytes_le (key a) (key b)) l.

Definition sortContexts (l : list MessageContext) : list MessageContext := sortBy mc_ContextID l.
Definition sortPolicies (l : list LocalRecipientPolicy) : list LocalRecipientPolicy := sortBy lp_Recipient l.

(** ** The interface *)
Class ContextStore (S : Type) := {
  SaveContext : storeIO -> S -> MessageContext -> S * res ms_err unit;
  LoadContext : S -> ContextID -> res ms_err MessageContext;
  ListContexts : storeIO -> S -> list MessageContext;
  DeleteContext : storeIO -> S -> ContextID -> S * res ms_err unit;
  SavePolicy : storeIO -> S -> LocalRecipientPolicy -> S * res ms_err unit;
  LoadPolicy : S -> ContextID -> bytes -> res ms_err LocalRecipientPolicy;
  ListPolicies : storeIO -> S -> ContextID -> list LocalRecipientPolicy;
  DeletePolicy : storeIO -> S -> ContextID -> bytes -> S * res ms_err unit;
}.

(** The policy of a recipient in a group, whatever the nesting of the maps. *)
Definition polAt (m : policies_t) (c : ContextID) (r : bytes) : option LocalRecipientPolicy :=
  ps ← m !! c; ps !! r.

Definition insertPolicy (m : policies_t) (p : LocalRecipientPolicy) : policies_t :=
  <[lp_ContextID p := <[lp_Recipient p := p]> (default ∅ (m !! lp_ContextID p))]> m.

Definition deletePolicy (m : policies_t) (c : ContextID) (r : bytes) : policies_t :=
  match m !! c with Some ps => <[c := delete r ps]> m | None => m end.

Definition findPolicy (m : policies_t) (c : ContextID) (r : bytes) : res ms_err LocalRecipientPolicy :=
  match m !! c with
  | None => Err ErrPolicyNotFound
  | Some ps => match ps !! r with None => Err ErrPolicyNotFound | Some p => Ok p end
  end.

Definition listPolicies (io : storeIO) (m : policies_t) (c : ContextID) : list LocalRecipientPolicy :=
  match m !! c with
  | None => []
  | Some ps => sortPolicies (io_range io ps).*2
  end.

(** ** In memory *)
Module Memory.

Record MemoryContextStore := mkStore { contexts : contexts_t; policies : policies_t }.

Definition NewMemoryContextStore : MemoryContextStore := mkStore ∅ ∅.

Definition SaveContext (s : MemoryContextStore) (ctx : MessageContext) : MemoryContextStore * res ms_err unit :=
  (mkStore (<[mc_ContextID ctx := ctx]> (contexts s)) (policies s), Ok tt).

Definition LoadContext (s : MemoryContextStore) (id : ContextID) : res ms_err MessageContext :=
  ofOption ErrContextNotFound (contexts s !! id).

Definition ListContexts (io : storeIO) (s : MemoryContextStore) : list MessageContext :=
  sortContexts (io_range io (contexts s)).*2.

Definition DeleteContext (s : MemoryContextStore) (id : ContextID) : MemoryContextStore * res ms_err unit :=
  (mkStore (delete id (contexts s)) (delete id (policies s)), Ok tt).

Definition SavePolicy (s : MemoryContextStore) (p : LocalRecipientPolicy) : MemoryContextStore * res ms_err unit :=
  (mkStore (contexts s) (insertPolicy (policies s) p), Ok tt).

Definition LoadPolicy (s : MemoryContextStore) (c : ContextID) (r : bytes) : res ms_err LocalRecipientPolicy :=
  findPolicy (policies s) c r.

Definition ListPolicies (io : storeIO) (s : MemoryContextStore) (c : ContextID) : list LocalRecipientPolicy :=
  listPolicies io (policies s) c.

Definition DeletePolicy (s : MemoryContextStore) (c : ContextID) (r : bytes) : MemoryContextStore * res ms_err unit :=
  (mkStore (contexts s) (deletePolicy (policies s) c r), Ok tt).

End Memory.

#[export] Instance memory_store : ContextStore Memory.MemoryContextStore := {|
  SaveContext _ := Memory.SaveContext; LoadContext := Memory.LoadContext; ListContexts := Memory.ListContexts;
  DeleteContext _ := Memory.DeleteContext; SavePolicy _ := Memory.SavePolicy; LoadPolicy := Memory.LoadPolicy;
  ListPolicies := Memory.ListPolicies; DeletePolicy _ := Memory.DeletePolicy |}.

(** ** In files *)
Definition npPath (p : path) : path := trimSuffix (str ".json") p ++ str ".np".

Module File.
Section File.
Context `{N : Nanopack} `{R : RecordStore}.
(** [encoding/json] on the legacy files. *)
Context (json_contexts : bytes -> option (list MessageContext)).
Context (json_policies : bytes -> option (list LocalRecipientPolicy)).

(** [disk] is the file system the store writes to. *)
Record FileContextStore := mkStore {
  contextsFile : path;
  policiesFile : path;
  contexts : contexts_t;
  policies : policies_t;
  disk : fs;
}.

Definition set_contexts (m : contexts_t) (s : FileContextStore) : FileContextStore :=
  mkStore (contextsFile s) (policiesFile s) m (policies s) (disk s).
Definition set_policies (m : policies_t) (s : FileContextStore) : FileContextStore :=
  mkStore (contextsFile s) (policiesFile s) (contexts s) m (disk s).
Definition set_disk (d : fs) (s : FileContextStore) : FileContextStore :=
  mkStore (contextsFile s) (policiesFile s) (contexts s) (policies s) d.

(** The policies in the order the two nested loops meet them. *)
Definition policyOrder (io : storeIO) (m : policies_t) : list LocalRecipientPolicy :=
  mjoin ((fun e => (io_range io e.2).*2) <$> io_range io m).

Definition savePolicies (io : storeIO) (s : FileContextStore) : FileContextStore * res ms_err unit :=
  match toRecords (policyOrder io (policies s)) with
  | None => (s, Err MsMarshal)
  | Some ps =>
      let '(d, r) := rs_save (io_second io) (policiesFile s) PolicySchemaID ps (disk s) in
      (set_disk d s, wrapErr MsStore r)
  end.

Definition saveLocked (io : storeIO) (s : FileContextStore) : FileContextStore * res ms_err unit :=
  match toRecords (io_range io (contexts s)).*2 with
  | None => (s, Err MsMarshal)
  | Some cs =>
      let '(d, r) := rs_save (io_first io) (contextsFile s) MessageContextSchemaID cs (disk s) in
      let s := set_disk d s in
      match r with
      | Ok _ => savePolicies io s
      | Err e => (s, Err (MsStore e))
      | Panic => (s, Panic)
      end
  end.

Definition insertContext (m : contexts_t) (c : MessageContext) : contexts_t :=
  if mc_MetadataVersion c =? 0 then m else <[mc_ContextID c := c]> m.

(** Nothing loaded (no file), or the records that decode. *)
Definition loadFile {A} `{BinRecord A} (p : path) (schema : byte) (d : fs) : res ms_err (option (list A)) :=
  match rs_load p schema d with
  | Ok records => Ok (Some (omap fromRecord records))
  | Err StNotExist => Ok None
  | Err e => Err (MsStore e)
  | Panic => Panic
  end.

Definition legacyContexts (p : path) (s : FileContextStore) : FileContextStore :=
  match disk s !! p ≫= json_contexts with
  | Some l => set_contexts (fold_left insertContext l (contexts s)) s
  | None => s
  end.

Definition legacyPolicies (p : path) (s : FileContextStore) : FileContextStore :=
  match disk s !! p ≫= json_policies with
  | Some l => set_policies (fold_left insertPolicy l (policies s)) s
  | None => s
  end.

Definition load (io : storeIO) (legacyC legacyP : path) (s : FileContextStore) : res ms_err FileContextStore :=
  cs ← loadFile (contextsFile s) MessageContextSchemaID (disk s);
  let s := match cs with Some l => set_contexts (fold_left insertContext l (contexts s)) s | None => s end in
  ps ← loadFile (policiesFile s) PolicySchemaID (disk s);
  let s := match ps with Some l => set_policies (fold_left insertPolicy l (policies s)) s | None => s end in
  match cs, ps with
  | Some _, Some _ => Ok s
  | _, _ =>
      let s := match cs with Some _ => s | None => legacyContexts legacyC s end in
      let s := match ps with Some _ => s | None => legacyPolicies legacyP s end in
      match saveLocked io s with
      | (s, Panic) => Panic
      | (s, _) => Ok s                     (* the error is dropped *)
      end
  end.

Definition NewFileContextStore (io : storeIO) (contextsFile policiesFile : path) (d : fs) : res ms_err FileContextStore :=
  load io contextsFile policiesFile (mkStore (npPath contextsFile) (npPath policiesFile) ∅ ∅ d).

Definition SaveContext (io : storeIO) (s : FileContextStore) (ctx : MessageContext) : FileContextStore * res ms_err unit :=
  let put := saveLocked io (set_contexts (<[mc_ContextID ctx := ctx]> (contexts s)) s) in
  match contexts s !! mc_ContextID ctx with
  | Some existing =>
      if mc_MetadataVersion ctx <=? mc_MetadataVersion existing
      then (s, Err (MsStale (mc_MetadataVersion ctx) (mc_MetadataVersion existing)))
      else put
  | None => put
  end.

Definition LoadContext (s : FileContextStore) (id : ContextID) : res ms_err MessageContext :=
  ofOption ErrContextNotFound (contexts s !! id).

Definition ListContexts (io : storeIO) (s : FileContextStore) : list MessageContext :=
  (io_range io (contexts s)).*2.

Definition DeleteContext (io : storeIO) (s : FileContextStore) (id : ContextID) : FileContextStore * res ms_err unit :=
  saveLocked io (set_policies (delete id (policies s)) (set_contexts (delete id (contexts s)) s)).

Definition SavePolicy (io : storeIO) (s : FileContextStore) (p : LocalRecipientPolicy) : FileContextStore * res ms_err unit :=
  saveLocked io (set_policies (insertPolicy (policies s) p) s).

Definition LoadPolicy (s : FileContextStore) (c : ContextID) (r : bytes) : res ms_err LocalRecipientPolicy :=
  findPolicy (policies s) c r.

Definition ListPolicies (io : storeIO) (s : FileContextStore) (c : ContextID) : list LocalRecipientPolicy :=
  listPolicies io (policies s) c.

Definition DeletePolicy (io : storeIO) (s : FileContextStore) (c : ContextID) (r : bytes) : FileContextStore * res ms_err unit :=
  saveLocked io (set_policies (deletePolicy (policies s) c r) s).

End File.
End File.

#[export] Instance file_store `{Nanopack} `{RecordStore} : ContextStore File.FileContextStore := {|
  SaveContext := File.SaveContext; LoadContext := File.LoadContext; ListContexts := File.ListContexts;
  DeleteContext := File.DeleteContext; SavePolicy := File.SavePolicy; LoadPolicy := File.LoadPolicy;
  ListPolicies := File.ListPolicies; DeletePolicy := File.DeletePolicy |}.

(** ** Deliveries

    Both delivery stores keep the same three maps. *)
Record deliveries_t := mkDeliveries {
  dl_deliveries : gmap DeliveryID MessageDelivery;
  dl_byMessage : gmap MessageID (list DeliveryID);
  dl_byRecipient : gmap bytes (list DeliveryID);
}.

Definition noDeliveries : deliveries_t := mkDeliveries ∅ ∅ ∅.

Definition push (k : bytes) (id : DeliveryID) (m : gmap bytes (list DeliveryID)) : gmap bytes (list DeliveryID) :=
  <[k := default [] (m !! k) ++ [id]]> m.

Definition record (d : MessageDelivery) (s : deliveries_t) : deliveries_t :=
  mkDeliveries (<[md_DeliveryID d := d]> (dl_deliveries s))
    (push (md_MessageID d) (md_DeliveryID d) (dl_byMessage s))
    (push (md_Recipient d) (md_DeliveryID d) (dl_byRecipient s)).

Definition indexed (ids : option (list DeliveryID)) (s : deliveries_t) : list MessageDelivery :=
  match ids with
  | None => []
  | Some ids => omap (fun id => dl_deliveries s !! id) ids
  end.

Definition ListDeliveriesByMessage (s : deliveries_t) (m : MessageID) : list MessageDelivery :=
  indexed (dl_byMessage s !! m) s.
Definition ListDeliveriesByRecipient (s : deliveries_t) (r : bytes) : list MessageDelivery :=
  indexed (dl_byRecipient s !! r) s.

Definition ListUndeliveredDeliveries (io : storeIO) (s : deliveries_t) : list MessageDelivery :=
  List.filter (fun d => bool_decide (md_Ciphertext d = None)) (io_range io (dl_deliveries s)).*2.

Definition LoadDelivery (s : deliveries_t) (id : DeliveryID) : res ms_err MessageDelivery :=
  ofOption ErrDeliveryNotFound (dl_deliveries s !! id).

Definition markable (s : deliveries_t) (id : DeliveryID) : res ms_err unit :=
  d ← LoadDelivery s id; check (bool_decide (md_Ciphertext d = None)) ErrDeliveryPending.

(** [MemoryDeliveryStore]: a second save under the same ID is indexed again. *)
Definition Memory_SaveDelivery (s : deliveries_t) (d : MessageDelivery) : deliveries_t * res ms_err unit := (record d s, Ok tt).
Definition Memory_MarkDelivered (s : deliveries_t) (id : DeliveryID) : res ms_err unit := markable s id.

Section FileDelivery.
Context `{N : Nanopack} `{R : RecordStore}.
Context (json_deliveries : bytes -> option (list MessageDelivery)).

Record FileDeliveryStore := mkDeliveryStore { fd_file : path; fd_maps : deliveries_t; fd_disk : fs }.

Definition indexLocked (s : deliveries_t) (d : MessageDelivery) : deliveries_t :=
  match dl_deliveries s !! md_DeliveryID d with
  | Some _ => s
  | None => record d s
  end.

Definition FileDelivery_saveLocked (io : storeIO) (s : FileDeliveryStore) : FileDeliveryStore * res ms_err unit :=
  match toRecords (io_range io (dl_deliveries (fd_maps s))).*2 with
  | None => (s, Err MsMarshal)
  | Some rs =>
      let '(d, r) := rs_save (io_first io) (fd_file s) MessageDeliverySchemaID rs (fd_disk s) in
      (mkDeliveryStore (fd_file s) (fd_maps s) d, wrapErr MsStore r)
  end.

Definition NewFileDeliveryStore (io : storeIO) (deliveriesFile : path) (d : fs) : res ms_err FileDeliveryStore :=
  let file := npPath deliveriesFile in
  match rs_load file MessageDeliverySchemaID d with
  | Ok records => Ok (mkDeliveryStore file (fold_left indexLocked (omap fromRecord records) noDeliveries) d)
  | Panic => Panic
  | Err StNotExist =>
      match d !! deliveriesFile with
      | None => Ok (mkDeliveryStore file noDeliveries d)
      | Some data =>
          let maps := match json_deliveries data with
                      | Some l => fold_left indexLocked l noDeliveries
                      | None => noDeliveries
                      end in
          match FileDelivery_saveLocked io (mkDeliveryStore file maps d) with
          | (s, Panic) => Panic
          | (s, _) => Ok s
          end
      end
  | Err e => Err (MsStore e)
  end.

Definition SaveDelivery (io : storeIO) (s : FileDeliveryStore) (d : MessageDelivery) : FileDeliveryStore * res ms_err unit :=
  match dl_deliveries (fd_maps s) !! md_DeliveryID d with
  | Some _ => (s, Err MsDuplicateID)
  | None => FileDelivery_saveLocked io (mkDeliveryStore (fd_file s) (record d (fd_maps s)) (fd_disk s))
  end.

Definition MarkDelivered (io : storeIO) (s : FileDeliveryStore) (id : DeliveryID) : FileDeliveryStore * res ms_err unit :=
  match markable (fd_maps s) id with
  | Ok _ => FileDelivery_saveLocked io s
  | Err e => (s, Err e)
  | Panic => (s, Panic)
  end.

End FileDelivery.

(** [OpenIdentityStores] *)
Definition OpenIdentityStores `{Nanopack} `{RecordStore} (jc : bytes -> option (list MessageContext))
    (jp : bytes -> option (list LocalRecipientPolicy)) (jd : bytes -> option (list MessageDelivery))
    (io1 io2 : storeIO) (identityID : bytes) (d : fs) : res ms_err (File.FileContextStore * FileDeliveryStore) :=
  ctxStore ← File.NewFileContextStore jc jp io1 (identityID ++ str ".contexts.json") (identityID ++ str ".policies.json") d;
  deliveryStore ← NewFileDeliveryStore jd io2 (identityID ++ str ".deliveries.json") (File.disk ctxStore);
  Ok (ctxStore, deliveryStore).

Definition shortPeer (id : bytes) : bytes := if 8 <? len id then take 8 id else id.
