(* ===== verification/MultiStoreTheorems.v ===== *)
(** * What the group stores guarantee

    The laws of the [ContextStore] interface with both stores as instances, the
    persistence of the file store, and what the delivery indices of both stores
    list. *)
From S2P Require Import Prelude GoStd Sha256 External Frame Binstore Records MultiMsg MultiStore.
#[local] Open Scope Z_scope.

(** ** The laws of a context store *)
Class ContextStoreLaws (S : Type) `{ContextStore S} := {
  cs_contexts : S -> contexts_t;
  cs_policies : S -> policies_t;
  cs_load s id : LoadContext s id = ofOption ErrContextNotFound (cs_contexts s !! id);
  cs_loadPolicy s c r : LoadPolicy s c r = findPolicy (cs_policies s) c r;
  cs_listPolicies io s c : ListPolicies io s c = listPolicies io (cs_policies s) c;
  (** A save either takes effect or is refused without one; success means it did. *)
  cs_save io s c s' r : SaveContext io s c = (s', r) ->
    cs_policies s' = cs_policies s /\
    (cs_contexts s' = <[mc_ContextID c := c]> (cs_contexts s) \/ (cs_contexts s' = cs_contexts s /\ r ≠ Ok tt));
  cs_save_no_panic io s c s' : SaveContext io s c ≠ (s', Panic);
  (** A newer descriptor always takes effect in memory, even when writing fails. *)
  cs_save_newer io s c s' r : SaveContext io s c = (s', r) ->
    (forall c0, cs_contexts s !! mc_ContextID c = Some c0 -> mc_MetadataVersion c0 < mc_MetadataVersion c) ->
    cs_contexts s' = <[mc_ContextID c := c]> (cs_contexts s);
  cs_savePolicy io s p s' r : SavePolicy io s p = (s', r) ->
    cs_contexts s' = cs_contexts s /\ cs_policies s' = insertPolicy (cs_policies s) p;
  cs_deletePolicy io s c q s' r : DeletePolicy io s c q = (s', r) ->
    cs_contexts s' = cs_contexts s /\ cs_policies s' = deletePolicy (cs_policies s) c q;
  cs_deleteContext io s c s' r : DeleteContext io s c = (s', r) ->
    cs_contexts s' = delete c (cs_contexts s) /\ cs_policies s' = delete c (cs_policies s);
}.

#[export] Instance memory_store_laws : ContextStoreLaws Memory.MemoryContextStore.
Proof.
  refine {| cs_contexts := Memory.contexts; cs_policies := Memory.policies |}; try done.
  all: intros; match goal with H : _ = (?s', _) |- _ => injection H as <- <- end; try done.
  split; [done|by left].
Defined.

Lemma saveLocked_memory `{Nanopack} `{RecordStore} io s s' r : File.saveLocked io s = (s', r) ->
  File.contexts s' = File.contexts s /\ File.policies s' = File.policies s /\
  File.contextsFile s' = File.contextsFile s /\ File.policiesFile s' = File.policiesFile s.
Proof.
  unfold File.saveLocked, File.savePolicies. repeat case_match; intros [= <- <-]; simplify_eq; done.
Qed.

Lemma saveLocked_no_panic `{Nanopack} `{RecordStoreLaws} io s s' : File.saveLocked io s ≠ (s', Panic).
Proof.
  unfold File.saveLocked, File.savePolicies. intros Hs.
  repeat (case_match; simplify_eq; try done);
    try match goal with H : rs_save _ _ _ _ _ = (_, Panic) |- _ => by apply rs_save_no_panic in H end.
  match goal with H : wrapErr _ ?r = Panic |- _ => destruct r; try done end.
  match goal with H : rs_save _ _ _ _ _ = (_, Panic) |- _ => by apply rs_save_no_panic in H end.
Qed.

#[export] Instance file_store_laws `{Nanopack} `{RecordStoreLaws} : ContextStoreLaws File.FileContextStore.
Proof.
  refine {| cs_contexts := File.contexts; cs_policies := File.policies |}; try done;
    cbn [SaveContext SavePolicy DeletePolicy DeleteContext file_store].
  - intros io s c s' r Hs. unfold File.SaveContext in Hs. cbv zeta in Hs. repeat case_match.
    + injection Hs as <- <-. split; [done|]. by right.
    + apply saveLocked_memory in Hs as (-> & -> & _). split; [done|by left].
    + apply saveLocked_memory in Hs as (-> & -> & _). split; [done|by left].
  - intros io s c s' Hs. unfold File.SaveContext in Hs. cbv zeta in Hs. repeat case_match; try done; by apply saveLocked_no_panic in Hs.
  - intros io s c s' r Hs Hn. unfold File.SaveContext in Hs. cbv zeta in Hs.
    destruct (File.contexts s !! mc_ContextID c) as [c0|] eqn:Hc.
    + specialize (Hn c0 eq_refl). rewrite (proj2 (Z.leb_gt _ _)) in Hs by done. by apply saveLocked_memory in Hs as (-> & _).
    + by apply saveLocked_memory in Hs as (-> & _).
  - intros io s p s' r Hs. by apply saveLocked_memory in Hs as (-> & -> & _).
  - intros io s c q s' r Hs. by apply saveLocked_memory in Hs as (-> & -> & _).
  - intros io s c s' r Hs. by apply saveLocked_memory in Hs as (-> & -> & _).
Defined.

(** ** Policies *)
Lemma findPolicy_polAt m c r : findPolicy m c r = ofOption ErrPolicyNotFound (polAt m c r).
Proof. unfold findPolicy, polAt. destruct (m !! c) as [ps|]; cbn; [by destruct (ps !! r)|done]. Qed.

Lemma polAt_insert m p c r :
  polAt (insertPolicy m p) c r
  = if bool_decide (c = lp_ContextID p /\ r = lp_Recipient p) then Some p else polAt m c r.
Proof.
  unfold polAt, insertPolicy. destruct (decide (c = lp_ContextID p)) as [->|Hc].
  - rewrite lookup_insert_eq. cbn [mbind option_bind]. destruct (decide (r = lp_Recipient p)) as [->|Hr].
    + by rewrite lookup_insert_eq, bool_decide_eq_true_2.
    + rewrite lookup_insert_ne, bool_decide_eq_false_2 by naive_solver. by destruct (m !! lp_ContextID p).
  - by rewrite lookup_insert_ne, bool_decide_eq_false_2 by naive_solver.
Qed.

Lemma polAt_delete m c r c' r' :
  polAt (deletePolicy m c r) c' r' = if bool_decide (c' = c /\ r' = r) then None else polAt m c' r'.
Proof.
  unfold polAt, deletePolicy. destruct (m !! c) as [ps|] eqn:Hm.
  - destruct (decide (c' = c)) as [->|Hc].
    + rewrite lookup_insert_eq, Hm. cbn [mbind option_bind]. destruct (decide (r' = r)) as [->|Hr].
      * by rewrite lookup_delete_eq, bool_decide_eq_true_2.
      * by rewrite lookup_delete_ne, bool_decide_eq_false_2 by naive_solver.
    + by rewrite lookup_insert_ne, bool_decide_eq_false_2 by naive_solver.
  - case_bool_decide as H; [|done]. destruct H as [-> ->]. by rewrite Hm.
Qed.

(** Two nestings that answer every lookup alike. *)
Definition pol_equiv (m1 m2 : policies_t) : Prop := forall c r, polAt m1 c r = polAt m2 c r.

#[export] Instance pol_equiv_equivalence : Equivalence pol_equiv.
Proof. split; [by intros m c r|by intros m1 m2 H c r|]. intros m1 m2 m3 H1 H2 c r. by rewrite H1, H2. Qed.

#[export] Instance insertPolicy_proper : Proper (pol_equiv ==> (=) ==> pol_equiv) insertPolicy.
Proof. intros m1 m2 H p _ <- c r. rewrite !polAt_insert. by rewrite (H c r). Qed.

#[export] Instance deletePolicy_proper : Proper (pol_equiv ==> (=) ==> (=) ==> pol_equiv) deletePolicy.
Proof. intros m1 m2 H c _ <- r _ <- c' r'. rewrite !polAt_delete. by rewrite (H c' r'). Qed.

(** Every policy is filed under its own group and recipient. *)
Definition pol_keyed (m : policies_t) : Prop :=
  forall c r p, polAt m c r = Some p -> lp_ContextID p = c /\ lp_Recipient p = r.

Lemma pol_keyed_insert m p : pol_keyed m -> pol_keyed (insertPolicy m p).
Proof. intros H c r q. rewrite polAt_insert. case_bool_decide as Hb; [|apply H]. intros [= <-]. naive_solver. Qed.

Lemma pol_keyed_delete m c r : pol_keyed m -> pol_keyed (deletePolicy m c r).
Proof. intros H c' r' q. rewrite polAt_delete. case_bool_decide; [done|apply H]. Qed.

Lemma pol_keyed_drop m c : pol_keyed m -> pol_keyed (delete c m).
Proof.
  intros H c' r' q. unfold polAt. destruct (decide (c' = c)) as [->|Hc]; [by rewrite lookup_delete_eq|].
  rewrite lookup_delete_ne by done. apply H.
Qed.

(** Reading the policies of a list back, when no two of them disagree. *)
Lemma polAt_fold (l : list LocalRecipientPolicy) c r p :
  (forall x y, x ∈ l -> y ∈ l -> lp_ContextID x = lp_ContextID y -> lp_Recipient x = lp_Recipient y -> x = y) ->
  polAt (fold_left insertPolicy l ∅) c r = Some p <-> p ∈ l /\ lp_ContextID p = c /\ lp_Recipient p = r.
Proof.
  induction l as [|q l IH] using rev_ind; intros Hf.
  - cbn. unfold polAt. rewrite lookup_empty. split; [done|]. intros [H _]. by apply not_elem_of_nil in H.
  - rewrite fold_left_app. cbn [fold_left]. rewrite polAt_insert.
    assert (forall x y, x ∈ l -> y ∈ l -> lp_ContextID x = lp_ContextID y -> lp_Recipient x = lp_Recipient y -> x = y) as Hf'
      by (intros x y Hx Hy; apply Hf; set_solver).
    case_bool_decide as Hb.
    + destruct Hb as [-> ->]. split; [intros [= <-]; set_solver|]. intros (Hp & H1 & H2). f_equal. apply Hf; [set_solver|done|done|done].
    + rewrite IH by done. split; [set_solver|]. intros (Hp & <- & <-). split; [|done].
      apply elem_of_app in Hp as [Hp|Hp]; [done|]. apply list_elem_of_singleton in Hp as ->. naive_solver.
Qed.

Lemma elem_of_policyOrder io m p : range_ok io ->
  p ∈ File.policyOrder io m <-> exists c r, polAt m c r = Some p.
Proof.
  intros Hio. unfold File.policyOrder. rewrite list_elem_of_join. setoid_rewrite list_elem_of_fmap. split.
  - intros (l & Hp & (e & -> & He)). destruct e as [c ps]. rewrite (Hio _ m) in He. apply elem_of_map_to_list in He.
    apply list_elem_of_fmap in Hp as ([r q] & -> & Hq). cbn in Hq. rewrite (Hio _ ps) in Hq. apply elem_of_map_to_list in Hq.
    exists c, r. unfold polAt. by rewrite He.
  - intros (c & r & H). unfold polAt in H. destruct (m !! c) as [ps|] eqn:Hm; [|done]. cbn in H.
    exists (io_range io ps).*2. split.
    + apply list_elem_of_fmap. exists (r, p). split; [done|]. rewrite (Hio _ ps). by apply elem_of_map_to_list.
    + exists (c, ps). split; [done|]. rewrite (Hio _ m). by apply elem_of_map_to_list.
Qed.

Lemma policyOrder_rebuild io m : range_ok io -> pol_keyed m ->
  pol_equiv (fold_left insertPolicy (File.policyOrder io m) ∅) m.
Proof.
  intros Hio Hk c r. apply option_eq. intros p. rewrite polAt_fold.
  - rewrite elem_of_policyOrder by done. split.
    + intros ((c' & r' & Hp) & <- & <-). by destruct (Hk _ _ _ Hp) as [-> ->].
    + intros Hp. split; [by exists c, r|]. by apply Hk.
  - intros x y Hx Hy H1 H2. apply elem_of_policyOrder in Hx as (c1 & r1 & Hx), Hy as (c2 & r2 & Hy); [|done..].
    destruct (Hk _ _ _ Hx), (Hk _ _ _ Hy). congruence.
Qed.

(** ** The file store *)
Record store_ok (s : File.FileContextStore) : Prop := {
  so_keyed : keyed mc_ContextID (File.contexts s);
  so_versions : map_Forall (fun _ c => 0 < mc_MetadataVersion c < 2 ^ 64) (File.contexts s);
  so_polkeyed : pol_keyed (File.policies s);
  so_pols : forall c r p, polAt (File.policies s) c r = Some p -> br_ok p;
}.

Inductive cs_op :=
| OpSaveContext (c : MessageContext) | OpDeleteContext (id : ContextID)
| OpSavePolicy (p : LocalRecipientPolicy) | OpDeletePolicy (c : ContextID) (r : bytes).

(** What the program stores: versions from 1, policies that fit a byte. *)
Definition op_ok (o : cs_op) : Prop :=
  match o with
  | OpSaveContext c => 0 < mc_MetadataVersion c < 2 ^ 64
  | OpSavePolicy p => br_ok p
  | _ => True
  end.

Definition cs_step {S} `{ContextStore S} (s : S) (o : storeIO * cs_op) : S :=
  match o.2 with
  | OpSaveContext c => (SaveContext o.1 s c).1
  | OpDeleteContext id => (DeleteContext o.1 s id).1
  | OpSavePolicy p => (SavePolicy o.1 s p).1
  | OpDeletePolicy c r => (DeletePolicy o.1 s c r).1
  end.

Section FileStore.
Context `{N : Nanopack} `{NL : !NanopackLaws} `{R : RecordStore} `{RL : !RecordStoreLaws}.

Lemma store_ok_ext s s' : File.contexts s' = File.contexts s -> File.policies s' = File.policies s ->
  store_ok s -> store_ok s'.
Proof. intros Hc Hp []. by split; rewrite ?Hc, ?Hp. Qed.

Lemma cs_step_ok s o : op_ok o.2 -> store_ok s -> store_ok (cs_step s o).
Proof.
  intros Ho Hs. destruct o as [io o]. unfold cs_step. destruct o as [c|id|p|c r]; cbn [fst snd op_ok] in Ho |- *.
  - destruct (SaveContext io s c) as [s' r] eqn:He. destruct (cs_save io s c s' r He) as [Hp Hc]. cbn [cs_policies cs_contexts file_store_laws fst] in Hp, Hc |- *.
    destruct Hc as [Hc|[Hc _]]; [|by eapply store_ok_ext]. destruct Hs. split; rewrite ?Hp, ?Hc; try done.
    + by apply (keyed_insert mc_ContextID).
    + by apply map_Forall_insert_2.
  - destruct (DeleteContext io s id) as [s' r] eqn:He. destruct (cs_deleteContext io s id s' r He) as [Hc Hp].
    cbn [cs_policies cs_contexts file_store_laws fst] in Hp, Hc |- *. destruct Hs. split; rewrite ?Hp, ?Hc; try by apply map_Forall_delete.
    + by apply pol_keyed_drop.
    + intros c r' p Hpol. apply (so_pols0 c r'). revert Hpol. unfold polAt.
      destruct (decide (c = id)) as [->|Hne]; [by rewrite lookup_delete_eq|by rewrite lookup_delete_ne].
  - destruct (SavePolicy io s p) as [s' r] eqn:He. destruct (cs_savePolicy io s p s' r He) as [Hc Hp].
    cbn [cs_policies cs_contexts file_store_laws fst] in Hp, Hc |- *. destruct Hs. split; rewrite ?Hp, ?Hc; try done; [by apply pol_keyed_insert|].
    intros c r' q. rewrite polAt_insert. case_bool_decide; [by intros [= <-]|]. apply so_pols0.
  - destruct (DeletePolicy io s c r) as [s' r'] eqn:He. destruct (cs_deletePolicy io s c r s' r' He) as [Hc Hp].
    cbn [cs_policies cs_contexts file_store_laws fst] in Hp, Hc |- *. destruct Hs. split; rewrite ?Hp, ?Hc; try done; [by apply pol_keyed_delete|].
    intros c' r2 q. rewrite polAt_delete. case_bool_decide; [done|]. apply so_pols0.
Qed.

Lemma cs_steps_ok ops : forall s, Forall (fun o => op_ok o.2) ops -> store_ok s -> store_ok (fold_left cs_step ops s).
Proof.
  induction ops as [|o ops IH]; intros s Ho Hs; [done|]. apply List.Forall_cons_iff in Ho as [H Ho].
  apply IH; [done|]. by apply cs_step_ok.
Qed.

Lemma insertContext_fold l : forall m, Forall (fun c => 0 < mc_MetadataVersion c < 2 ^ 64) l ->
  fold_left File.insertContext l m = fold_left (insertKey mc_ContextID) l m.
Proof.
  induction l as [|c l IH]; intros m Hl; [done|]. apply List.Forall_cons_iff in Hl as [Hc Hl]. cbn [fold_left].
  unfold File.insertContext at 2. rewrite (proj2 (Z.eqb_neq _ _)) by lia. by apply IH.
Qed.

(** What a successful save leaves in the two files. *)
Lemma saveLocked_Ok io s s' : 
  File.contextsFile s ≠ File.policiesFile s -> File.contextsFile s ≠ File.policiesFile s ++ str ".tmp" ->
  (forall l, toRecords (io_range io (File.contexts s)).*2 = Some l -> storable l) ->
  (forall l, toRecords (File.policyOrder io (File.policies s)) = Some l -> storable l) ->
  File.saveLocked io s = (s', Ok tt) ->
  exists cs ps, toRecords (io_range io (File.contexts s)).*2 = Some cs /\
    toRecords (File.policyOrder io (File.policies s)) = Some ps /\
    rs_load (File.contextsFile s) MessageContextSchemaID (File.disk s') = Ok cs /\
    rs_load (File.policiesFile s) PolicySchemaID (File.disk s') = Ok ps.
Proof.
  intros Hf Ht Hc Hp H. unfold File.saveLocked in H.
  destruct (toRecords (io_range io (File.contexts s)).*2) as [cs|]; [|done].
  destruct (rs_save (io_first io) _ _ cs _) as [d1 r1] eqn:H1. destruct r1 as [[]|e|]; [|done|done].
  unfold File.savePolicies in H. cbn [File.set_disk File.policies File.policiesFile File.disk] in H.
  destruct (toRecords (File.policyOrder io (File.policies s))) as [ps|]; [|done].
  destruct (rs_save (io_second io) _ _ ps _) as [d2 r2] eqn:H2. injection H as <- Hr. destruct r2 as [[]|e|]; [|done|done].
  exists cs, ps. split; [done|]. split; [done|]. cbn [File.disk]. split; [|by eapply rs_load_save; [apply Hp|]].
  assert (d2 !! File.contextsFile s = d1 !! File.contextsFile s) as Hd
    by (eapply rs_save_other; [exact H2|done|done]).
  rewrite (rs_load_same _ _ _ _ Hd). by eapply rs_load_save; [apply Hc|].
Qed.

(** The file store survives a restart.  After any sequence of context and
    policy operations, whether their own writes succeeded or not, once a save
    succeeds, opening the files gives a store with the same contexts and the
    same policy for every group and recipient. *)
Theorem file_store_persists (jc : bytes -> option (list MessageContext)) (jp : bytes -> option (list LocalRecipientPolicy)) (cf pf : path) (d : fs) (ops : list (storeIO * cs_op)) (io io' : storeIO) (lc lp : path) (s s' : File.FileContextStore) :
  cf ≠ pf -> cf ≠ pf ++ str ".tmp" -> Forall (fun o => op_ok o.2) ops -> range_ok io ->
  s = fold_left cs_step ops (File.mkStore cf pf ∅ ∅ d) ->
  (forall l, toRecords (io_range io (File.contexts s)).*2 = Some l -> storable l) ->
  (forall l, toRecords (File.policyOrder io (File.policies s)) = Some l -> storable l) ->
  File.saveLocked io s = (s', Ok tt) ->
  exists s2, File.load jc jp io' lc lp (File.mkStore cf pf ∅ ∅ (File.disk s')) = Ok s2 /\
    File.contexts s2 = File.contexts s /\ pol_equiv (File.policies s2) (File.policies s).
Proof.
  intros Hf Ht Ho Hio Hs Hc Hp Hsave.
  assert (store_ok s) as Hok.
  { subst s. apply cs_steps_ok; [done|]. split; try apply map_Forall_empty; intros c r p; unfold polAt; cbn; by rewrite lookup_empty. }
  assert (File.contextsFile s = cf /\ File.policiesFile s = pf) as [Hcf Hpf].
  { subst s. clear. generalize (eq_refl : File.contextsFile (File.mkStore cf pf ∅ ∅ d) = cf).
    generalize (eq_refl : File.policiesFile (File.mkStore cf pf ∅ ∅ d) = pf). generalize (File.mkStore cf pf ∅ ∅ d).
    induction ops as [|[i o] ops IH]; intros s Hp Hc; [done|]. cbn [fold_left]. apply IH.
    all: unfold cs_step; destruct o; cbn; unfold File.SaveContext, File.DeleteContext, File.SavePolicy, File.DeletePolicy;
      repeat case_match; cbn [fst]; try done;
      match goal with |- context [File.saveLocked ?i ?x] => destruct (File.saveLocked i x) as [s1 r1] eqn:H1;
        apply saveLocked_memory in H1 as (_ & _ & H1 & H2); cbn [fst]; by rewrite ?H1, ?H2 end. }
  rewrite <- Hcf, <- Hpf in Hf, Ht |- *. destruct (saveLocked_Ok io s s' Hf Ht Hc Hp Hsave) as (cs & ps & H1 & H2 & H3 & H4).
  destruct Hok. eexists. split.
  { unfold File.load, File.loadFile. cbn [File.contextsFile File.disk]. rewrite H3. cbn [mbind res_bind].
    cbn [File.set_contexts File.policiesFile File.disk]. rewrite H4. reflexivity. }
  cbn [File.set_policies File.set_contexts File.contexts File.policies]. split.
  - rewrite (fromRecords_to (io_range io (File.contexts s)).*2 cs); [| |exact H1].
    2: { apply (order_values (File.contexts s)); [|apply Hio]. intros k c Hk. cbn. specialize (so_versions0 k c Hk).
         cbn in so_versions0. lia. }
    rewrite insertContext_fold by (by apply (order_values (File.contexts s))).
    by apply (rebuild_map mc_ContextID).
  - rewrite (fromRecords_to (File.policyOrder io (File.policies s)) ps); [by apply policyOrder_rebuild| |done].
    apply List.Forall_forall. intros p Hin. apply list_elem_of_In, elem_of_policyOrder in Hin as (c & r & Hin); [|done].
    by eapply so_pols0.
Qed.

End FileStore.

(** ** Delivery indices *)

(** An index lists, for each key, the IDs of the deliveries with that key, once. *)
Definition index_of (key : MessageDelivery -> bytes) (dm : gmap DeliveryID MessageDelivery) (ix : gmap bytes (list DeliveryID)) : Prop :=
  forall k, NoDup (default [] (ix !! k)) /\
    forall id, id ∈ default [] (ix !! k) <-> exists d, dm !! id = Some d /\ key d = k.

Record idx_ok (s : deliveries_t) : Prop := {
  ix_keyed : keyed md_DeliveryID (dl_deliveries s);
  ix_message : index_of md_MessageID (dl_deliveries s) (dl_byMessage s);
  ix_recipient : index_of md_Recipient (dl_deliveries s) (dl_byRecipient s);
}.

Lemma index_empty key : index_of key ∅ ∅.
Proof. intros k. rewrite lookup_empty. cbn. split; [constructor|]. intros id. setoid_rewrite lookup_empty. split; [by intros ?%not_elem_of_nil|naive_solver]. Qed.

Lemma index_push key dm ix d :
  dm !! md_DeliveryID d = None -> index_of key dm ix ->
  index_of key (<[md_DeliveryID d := d]> dm) (push (key d) (md_DeliveryID d) ix).
Proof.
  intros Hf Hi k. unfold push. destruct (decide (k = key d)) as [->|Hk].
  - rewrite lookup_insert_eq. change (default [] (Some ?x)) with x. destruct (Hi (key d)) as [Hn He]. split.
    + apply list.NoDup_app. split; [done|]. split; [|apply NoDup_singleton]. intros id Hid Hs.
      apply list_elem_of_singleton in Hs as ->. apply He in Hid as (d' & Hd' & _). congruence.
    + intros id. rewrite elem_of_app, He, list_elem_of_singleton. destruct (decide (id = md_DeliveryID d)) as [->|Hid].
      * rewrite lookup_insert_eq. naive_solver.
      * rewrite lookup_insert_ne by done. naive_solver.
  - rewrite lookup_insert_ne by done. destruct (Hi k) as [Hn He]. split; [done|]. intros id. rewrite He.
    destruct (decide (id = md_DeliveryID d)) as [->|Hid]; [rewrite Hf, lookup_insert_eq|rewrite lookup_insert_ne by done]; naive_solver.
Qed.

Lemma idx_record s d : dl_deliveries s !! md_DeliveryID d = None -> idx_ok s -> idx_ok (record d s).
Proof.
  intros Hf [Hk Hm Hr]. split; cbn [record dl_deliveries dl_byMessage dl_byRecipient].
  - by apply (keyed_insert md_DeliveryID).
  - by apply index_push.
  - by apply index_push.
Qed.

Lemma idx_indexLocked l : forall s, idx_ok s -> idx_ok (fold_left indexLocked l s).
Proof.
  induction l as [|d l IH]; intros s Hs; [done|]. cbn [fold_left]. apply IH. unfold indexLocked.
  destruct (dl_deliveries s !! md_DeliveryID d) eqn:H; [done|]. by apply idx_record.
Qed.

Lemma idx_none : idx_ok noDeliveries.
Proof. split; [apply map_Forall_empty|apply index_empty..]. Qed.

(** What an index lists. *)
Lemma indexed_exact key s ix k :
  keyed md_DeliveryID (dl_deliveries s) -> index_of key (dl_deliveries s) ix ->
  indexed (ix !! k) s ≡ₚ List.filter (fun d => bool_decide (key d = k)) (map_to_list (dl_deliveries s)).*2.
Proof.
  intros Hk Hi. destruct (Hi k) as [Hn He].
  assert (indexed (ix !! k) s = omap (fun id => dl_deliveries s !! id) (default [] (ix !! k))) as ->
    by (by destruct (ix !! k)).
  apply NoDup_Permutation.
  - apply (NoDup_fmap_1 md_DeliveryID).
    assert (md_DeliveryID <$> omap (fun id => dl_deliveries s !! id) (default [] (ix !! k)) = default [] (ix !! k)) as ->; [|done].
    generalize (fun id => proj1 (He id)). generalize (default [] (ix !! k)) as l. clear Hn He.
    induction l as [|id l IH]; intros Hl; [done|]. cbn [omap list_omap]. destruct (Hl id ltac:(left)) as (d & Hd & _).
    rewrite Hd, fmap_cons, IH; [|intros id' H'; apply Hl; by right]. f_equal. by apply Hk.
  - apply NoDup_ListNoDup, List.NoDup_filter, NoDup_ListNoDup. apply (NoDup_fmap_1 md_DeliveryID).
    assert (md_DeliveryID <$> (map_to_list (dl_deliveries s)).*2 = (map_to_list (dl_deliveries s)).*1) as ->;
      [|apply NoDup_fst_map_to_list].
    rewrite <- list_fmap_compose. apply list_fmap_ext. intros i [id d] Hi'. cbn.
    apply list_elem_of_lookup_2, elem_of_map_to_list in Hi'. by apply Hk.
  - intros d. rewrite list_elem_of_omap. split.
    + intros (id & Hid & Hd). apply He in Hid as (d' & Hd' & Hkey). rewrite Hd in Hd'. injection Hd' as <-.
      apply list_elem_of_In, filter_In. split; [|by apply bool_decide_eq_true].
      apply list_elem_of_In, list_elem_of_fmap. exists (id, d). split; [done|]. by apply elem_of_map_to_list.
    + intros H. apply list_elem_of_In, filter_In in H as [H Hb]. apply bool_decide_eq_true in Hb.
      apply list_elem_of_In, list_elem_of_fmap in H as ([id d'] & -> & H). apply elem_of_map_to_list in H.
      exists id. split; [|done]. apply He. by exists d'.
Qed.

(** The delivery stores a program can reach: opened on any disk, then used. *)
Inductive delivery_reach `{Nanopack} `{RecordStore} : FileDeliveryStore -> Prop :=
| reach_open jd io (f : path) (d : fs) s : NewFileDeliveryStore jd io f d = Ok s -> delivery_reach s
| reach_save io s x s' r : delivery_reach s -> SaveDelivery io s x = (s', r) -> delivery_reach s'
| reach_mark io s id s' r : delivery_reach s -> MarkDelivered io s id = (s', r) -> delivery_reach s'.

Lemma delivery_saveLocked_maps `{Nanopack} `{RecordStore} io s s' r :
  FileDelivery_saveLocked io s = (s', r) -> fd_maps s' = fd_maps s.
Proof. unfold FileDelivery_saveLocked. repeat case_match; intros [= <- <-]; by simplify_eq. Qed.

Lemma delivery_reach_idx `{Nanopack} `{RecordStore} s : delivery_reach s -> idx_ok (fd_maps s).
Proof.
  induction 1 as [jd io f d s Ho|io s x s' r Hr IH Hs|io s id s' r Hr IH Hs].
  - unfold NewFileDeliveryStore in Ho. repeat case_match; simplify_eq; cbn [fd_maps];
      try (apply idx_indexLocked, idx_none); try apply idx_none;
      match goal with H : FileDelivery_saveLocked _ _ = _ |- _ => apply delivery_saveLocked_maps in H; rewrite H; cbn [fd_maps] end;
      apply idx_indexLocked || idtac; apply idx_none.
  - unfold SaveDelivery in Hs. destruct (dl_deliveries (fd_maps s) !! md_DeliveryID x) eqn:Hx; [by injection Hs as <- <-|].
    apply delivery_saveLocked_maps in Hs. rewrite Hs. by apply idx_record.
  - unfold MarkDelivered in Hs. destruct (markable _ _); [|by injection Hs as <- <-..].
    apply delivery_saveLocked_maps in Hs. by rewrite Hs.
Qed.

(** The in-memory store after the given saves ([MarkDelivered] leaves it as it
    is), and the newest of the saves under the ID of [d]. *)
Definition memory_saves (ds : list MessageDelivery) : deliveries_t := fold_left (fun s d => (Memory_SaveDelivery s d).1) ds noDeliveries.

Definition sameID (id : DeliveryID) (d : MessageDelivery) : bool := bool_decide (md_DeliveryID d = id).

Definition newest (ds : list MessageDelivery) (d : MessageDelivery) : MessageDelivery :=
  default d (list.last (List.filter (sameID (md_DeliveryID d)) ds)).

Lemma memory_saves_snoc ds d : memory_saves (ds ++ [d]) = record d (memory_saves ds).
Proof. unfold memory_saves. by rewrite fold_left_app. Qed.

Lemma memory_lookup ds id : dl_deliveries (memory_saves ds) !! id = list.last (List.filter (sameID id) ds).
Proof.
  induction ds as [|d ds IH] using rev_ind; [done|]. rewrite memory_saves_snoc, List.filter_app. cbn [record dl_deliveries List.filter].
  unfold sameID at 2. case_bool_decide as Hd.
  - rewrite Hd, lookup_insert_eq. by rewrite last_snoc.
  - rewrite lookup_insert_ne by done. by rewrite app_nil_r.
Qed.

(** An index lists the IDs of the saves under its key, in order. *)
Lemma memory_index (key : MessageDelivery -> bytes) (get : deliveries_t -> gmap bytes (list DeliveryID)) ds k :
  get noDeliveries = ∅ -> (forall d s, get (record d s) = push (key d) (md_DeliveryID d) (get s)) ->
  default [] (get (memory_saves ds) !! k) = md_DeliveryID <$> List.filter (fun d => bool_decide (key d = k)) ds.
Proof.
  intros H0 Hp. induction ds as [|d ds IH] using rev_ind; [change (get (memory_saves [])) with (get noDeliveries); by rewrite H0, lookup_empty|].
  rewrite memory_saves_snoc, Hp, List.filter_app, fmap_app, <- IH. unfold push. cbn [List.filter]. case_bool_decide as Hd.
  - by rewrite Hd, lookup_insert_eq.
  - rewrite lookup_insert_ne by done. cbn [fmap list_fmap]. by rewrite app_nil_r.
Qed.

Lemma memory_listed key get ds k :
  get noDeliveries = ∅ -> (forall d s, get (record d s) = push (key d) (md_DeliveryID d) (get s)) ->
  indexed (get (memory_saves ds) !! k) (memory_saves ds) = newest ds <$> List.filter (fun d => bool_decide (key d = k)) ds.
Proof.
  intros H0 Hp. assert (forall ids s, indexed ids s = omap (fun id => dl_deliveries s !! id) (default [] ids)) as Hix by (intros ids s; by destruct ids).
  rewrite Hix, (memory_index key) by done.
  assert (forall d, d ∈ List.filter (fun d => bool_decide (key d = k)) ds -> d ∈ ds) as Hin by (intros d [Hd _]%list_elem_of_In%filter_In; by apply list_elem_of_In).
  induction (List.filter _ ds) as [|d l IH]; [done|]. rewrite !fmap_cons. cbn [omap list_omap].
  rewrite memory_lookup. unfold newest at 1.
  destruct (list.last (List.filter (sameID (md_DeliveryID d)) ds)) as [x|] eqn:Hl; cbn [default].
  - f_equal. apply IH. intros y Hy. apply Hin. by right.
  - apply last_None in Hl. assert (d ∈ List.filter (sameID (md_DeliveryID d)) ds) as H; [|rewrite Hl in H; by apply not_elem_of_nil in H].
    apply list_elem_of_In, filter_In. split; [apply list_elem_of_In, Hin; by left|]. by apply bool_decide_eq_true.
Qed.

Lemma newest_distinct ds d : NoDup (md_DeliveryID <$> ds) -> d ∈ ds -> newest ds d = d.
Proof.
  intros Hnd Hd. unfold newest. destruct (list.last _) as [x|] eqn:Hl; [|done]. cbn. apply last_Some_elem_of, list_elem_of_In, filter_In in Hl as [Hx Hi].
  apply bool_decide_eq_true in Hi. apply list_elem_of_In in Hx. apply list_elem_of_lookup in Hx as [i Hx], Hd as [j Hd].
  assert (i = j) as ->; [|congruence]. eapply NoDup_lookup; [exact Hnd|by rewrite list_lookup_fmap, Hx|by rewrite list_lookup_fmap, Hd, Hi].
Qed.

Lemma newest_all ds f : NoDup (md_DeliveryID <$> ds) -> newest ds <$> List.filter f ds = List.filter f ds.
Proof.
  intros Hnd. rewrite <- (list_fmap_id (List.filter f ds)) at 2. apply list_fmap_ext. intros i d Hd. cbn.
  apply newest_distinct; [done|]. apply list_elem_of_lookup_2, list_elem_of_In, filter_In in Hd as [Hd _]. by apply list_elem_of_In.
Qed.

(** C40: The delivery indices are exact.  In every file store the program can
    reach, from any file on disk and through any saves and marks, listing by
    message or by recipient gives each delivery of that message or recipient
    exactly once, and nothing else; a duplicate delivery ID is refused and
    changes nothing.  The store in memory takes every save: it lists one entry
    per save under the message or recipient, in order, and shows for each the
    newest delivery saved under its ID, so each delivery exactly once if the IDs
    are distinct, and an ID saved twice is listed twice. *)
Theorem delivery_indices_exact `{Nanopack} `{RecordStore} (s : FileDeliveryStore) (m r : bytes) (io : storeIO) (d : MessageDelivery)
    (ds : list MessageDelivery) :
  delivery_reach s ->
  (let all := (map_to_list (dl_deliveries (fd_maps s))).*2 in
   ListDeliveriesByMessage (fd_maps s) m ≡ₚ List.filter (fun d => bool_decide (md_MessageID d = m)) all /\
   ListDeliveriesByRecipient (fd_maps s) r ≡ₚ List.filter (fun d => bool_decide (md_Recipient d = r)) all /\
   (is_Some (dl_deliveries (fd_maps s) !! md_DeliveryID d) -> SaveDelivery io s d = (s, Err MsDuplicateID))) /\
  (let byMessage := List.filter (fun d => bool_decide (md_MessageID d = m)) ds in
   let byRecipient := List.filter (fun d => bool_decide (md_Recipient d = r)) ds in
   (Memory_SaveDelivery (memory_saves ds) d).2 = Ok tt /\
   ListDeliveriesByMessage (memory_saves ds) m = newest ds <$> byMessage /\
   ListDeliveriesByRecipient (memory_saves ds) r = newest ds <$> byRecipient /\
   (NoDup (md_DeliveryID <$> ds) -> newest ds <$> byMessage = byMessage /\ newest ds <$> byRecipient = byRecipient)).
Proof.
  intros Hr. apply delivery_reach_idx in Hr as [Hk Hm Hrec]. split.
  - split; [by apply indexed_exact|]. split; [by apply indexed_exact|]. intros [x Hx]. unfold SaveDelivery. by rewrite Hx.
  - split; [done|]. split; [by apply (memory_listed md_MessageID dl_byMessage)|].
    split; [by apply (memory_listed md_Recipient dl_byRecipient)|]. intros Hnd. split; by apply newest_all.
Qed.

(** ** Concrete stores *)
Definition demoIO : storeIO := mkIO noFaults noFaults (fun A m => map_to_list m).

Lemma demoIO_range : range_ok demoIO.
Proof. by intros A m. Qed.

Definition demoOps : list (storeIO * cs_op) :=
  [(demoIO, OpSaveContext demoContext); (demoIO, OpSavePolicy (mkPolicy (str "g1") (str "bo") PolicyMuted 5));
   (demoIO, OpSavePolicy (mkPolicy (str "g1") (str "ca") PolicyBlocked 6)); (demoIO, OpDeletePolicy (str "g1") (str "bo"))].

Definition demoFileStore : File.FileContextStore :=
  fold_left cs_step demoOps (File.mkStore (str "a.contexts.np") (str "a.policies.np") ∅ ∅ ∅).

Lemma file_store_persists_witness : exists s2,
  File.load (fun _ => None) (fun _ => None) demoIO [] []
    (File.mkStore (str "a.contexts.np") (str "a.policies.np") ∅ ∅ (File.disk (File.saveLocked demoIO demoFileStore).1)) = Ok s2 /\
  File.contexts s2 = File.contexts demoFileStore /\ pol_equiv (File.policies s2) (File.policies demoFileStore).
Proof.
  eapply (file_store_persists (fun _ => None) (fun _ => None) (str "a.contexts.np") (str "a.policies.np") ∅ demoOps demoIO demoIO [] []).
  - discriminate.
  - discriminate.
  - unfold demoOps. do 4 (apply List.Forall_cons; [vm_compute; intuition discriminate|]). apply List.Forall_nil.
  - exact demoIO_range.
  - reflexivity.
  - intros l H. vm_compute in H. injection H as <-. split; vm_compute; discriminate.
  - intros l H. vm_compute in H. injection H as <-. split; vm_compute; discriminate.
  - apply pair_result. vm_compute. reflexivity.
Defined.

Definition demoDelivery (id : bytes) : MessageDelivery :=
  mkDelivery id (str "m1") (str "bo") (str "bo") (Some (str "ct")) (str "g1") 9.

Definition demoDeliveries : FileDeliveryStore :=
  (SaveDelivery demoIO (SaveDelivery demoIO (mkDeliveryStore (str "a.np") noDeliveries ∅) (demoDelivery (str "d1"))).1 (demoDelivery (str "d2"))).1.

(** Two deliveries with distinct IDs, and one of them saved twice. *)
Lemma delivery_indices_exact_witness :
  ListDeliveriesByMessage (fd_maps demoDeliveries) (str "m1")
    ≡ₚ List.filter (fun d => bool_decide (md_MessageID d = str "m1")) (map_to_list (dl_deliveries (fd_maps demoDeliveries))).*2 /\
  SaveDelivery demoIO demoDeliveries (demoDelivery (str "d1")) = (demoDeliveries, Err MsDuplicateID) /\
  ListDeliveriesByMessage (memory_saves [demoDelivery (str "d1"); demoDelivery (str "d2")]) (str "m1") = [demoDelivery (str "d1"); demoDelivery (str "d2")] /\
  ListDeliveriesByMessage (memory_saves [demoDelivery (str "d1"); demoDelivery (str "d1")]) (str "m1") = [demoDelivery (str "d1"); demoDelivery (str "d1")].
Proof.
  assert (delivery_reach demoDeliveries) as Hr.
  { unfold demoDeliveries. do 2 (eapply reach_save; [|apply surjective_pairing]).
    apply (reach_open (fun _ => None) demoIO (str "a.json") ∅). reflexivity. }
  destruct (delivery_indices_exact demoDeliveries (str "m1") (str "bo") demoIO (demoDelivery (str "d1"))
    [demoDelivery (str "d1"); demoDelivery (str "d2")] Hr) as ((H1 & _ & H2) & _ & H3 & _ & H4).
  destruct (delivery_indices_exact demoDeliveries (str "m1") (str "bo") demoIO (demoDelivery (str "d1"))
    [demoDelivery (str "d1"); demoDelivery (str "d1")] Hr) as (_ & _ & H5 & _).
  split; [exact H1|]. split; [apply H2; vm_compute; by eexists|]. split; [|rewrite H5; vm_compute; reflexivity].
  rewrite H3. apply H4. repeat constructor; set_solver.
Defined.
