(* ===== verification/Fanout.v ===== *)
(** * Group fan-out ([internal/multimsg/fanout.go])

    One text becomes one independent ciphertext per recipient, each through the
    recipient's own session.  The context store is any [ContextStore], the
    delivery store any [DeliveryStore].  The relay is outside: a send is an
    attempt whose outcome is given, and the envelopes handed to it are the
    result of the model. *)
From S2P Require Import Prelude GoStd Sha256 External SecurePeer Session Engine Client Frame Binstore Records MultiMsg MultiStore.
#[local] Open Scope Z_scope.

(** ** The delivery store the fan-out uses *)
Class DeliveryStore (D : Type) := {
  ds_SaveDelivery : storeIO -> D -> MessageDelivery -> D * res ms_err unit;
  ds_MarkDelivered : storeIO -> D -> DeliveryID -> D * res ms_err unit;
  ds_ListUndelivered : storeIO -> D -> list MessageDelivery;
}.

#[export] Instance memory_deliveries : DeliveryStore deliveries_t := {|
  ds_SaveDelivery _ := Memory_SaveDelivery;
  ds_MarkDelivered _ s id := (s, Memory_MarkDelivered s id);
  ds_ListUndelivered := ListUndeliveredDeliveries |}.

#[export] Instance file_deliveries `{Nanopack} `{RecordStore} : DeliveryStore FileDeliveryStore := {|
  ds_SaveDelivery := SaveDelivery;
  ds_MarkDelivered := MarkDelivered;
  ds_ListUndelivered io s := ListUndeliveredDeliveries io (fd_maps s) |}.

Inductive fo_err :=
| FoLoad (e : ms_err) | FoVersionZero | FoSignature (e : ms_err) | FoNoRecipients | FoNoDeliveries
| FoSign (e : ms_err) | FoSave (e : ms_err) | FoNotCreator | FoOverflow | FoNilContext | FoStale (v w : Z)
| FoDecode (e : relay_err) | FoSend
| FoReplay (e : client_err) | FoDecrypt (e : client_err) | FoParse (e : ms_err) | FoSenderMismatch | FoOtherRecipient | FoDuplicate
| FoReceive.

(** What the runtime supplies for one recipient: the bytes of the delivery ID,
    the key material a rotation draws, the behaviour of the delivery store. *)
Record recipEnv := mkRecipEnv { re_delivery : bytes; re_ratchet : bytes; re_io : storeIO }.

(** One attempted [relay.Send]: the key addressed and the envelope. *)
Abbreviation sending := (bytes * bytes)%type.

Record InboundMessage := mkInbound {
  im_Sender : bytes;
  im_Meta : DeliveryMeta;
  im_Context : option MessageContext;
  im_Plaintext : bytes;
}.

Definition InboundMessage_ContextID (m : InboundMessage) : ContextID :=
  match im_Context m with
  | Some c => if bool_decide (mc_ContextID c = []) then dm_ContextID (im_Meta m) else mc_ContextID c
  | None => dm_ContextID (im_Meta m)
  end.

Definition InboundMessage_DisplayName (m : InboundMessage) : bytes :=
  let fallback := str "group:" ++ shortPeer (dm_ContextID (im_Meta m)) in
  match im_Context m with
  | Some c => if bool_decide (mc_DisplayName c = []) then fallback else mc_DisplayName c
  | None => fallback
  end.

(** [errors.Is(err, crypto.ErrReplay)] *)
Definition isReplay (e : client_err) : bool := match e with ClDecrypt (ErrReplay _ _) => true | _ => false end.

Section Fanout.
Context `{N : Nanopack} `{P : Prims} {S D : Type} `{CS : ContextStore S} `{DS : DeliveryStore D}.

Record Fanout := mkFanout {
  fo_client : Client;
  CtxStore : S;
  fo_deliveryStore : D;
  fo_config : FanoutConfig;
  seenDeliveries : gset DeliveryID;
  seenMessages : gset (bytes * MessageID);     (* [messageKey] *)
}.

Definition set_client (c : Client) (f : Fanout) : Fanout :=
  mkFanout c (CtxStore f) (fo_deliveryStore f) (fo_config f) (seenDeliveries f) (seenMessages f).
Definition set_CtxStore (s : S) (f : Fanout) : Fanout :=
  mkFanout (fo_client f) s (fo_deliveryStore f) (fo_config f) (seenDeliveries f) (seenMessages f).
Definition set_deliveries (d : D) (f : Fanout) : Fanout :=
  mkFanout (fo_client f) (CtxStore f) d (fo_config f) (seenDeliveries f) (seenMessages f).
Definition set_seenMessages (m : gset (bytes * MessageID)) (f : Fanout) : Fanout :=
  mkFanout (fo_client f) (CtxStore f) (fo_deliveryStore f) (fo_config f) (seenDeliveries f) m.

Definition NewFanout (cl : Client) (s : S) (d : D) (config : FanoutConfig) : Fanout :=
  mkFanout cl s d (if MaxRetries config =? 0 then DefaultFanoutConfig else config) ∅ ∅.

Definition IsDeliverySeen (f : Fanout) (id : DeliveryID) : bool := bool_decide (id ∈ seenDeliveries f).

Definition MarkDeliverySeen (f : Fanout) (id : DeliveryID) : Fanout * bool :=
  if bool_decide (id ∈ seenDeliveries f) then (f, false)
  else (mkFanout (fo_client f) (CtxStore f) (fo_deliveryStore f) (fo_config f) ({[id]} ∪ seenDeliveries f) (seenMessages f), true).

(** ** Contexts *)
Definition CreateContext (rnd : bytes) (io : storeIO) (f : Fanout) (displayName creatorPriv : bytes) : Fanout * res fo_err MessageContext :=
  let ctx := mkContext (GenerateID rnd) displayName 1 (cl_Id (fo_client f)) [] in
  match SignContext ctx creatorPriv with
  | Panic => (f, Panic)
  | Err e => (f, Err (FoSign e))
  | Ok ctx =>
      let '(s, r) := SaveContext io (CtxStore f) ctx in
      (set_CtxStore s f, _ ← wrapErr FoSave r; Ok ctx)
  end.

Definition UpdateContext (io : storeIO) (f : Fanout) (contextID : ContextID) (newDisplayName creatorPriv : bytes) : Fanout * res fo_err MessageContext :=
  match LoadContext (CtxStore f) contextID with
  | Panic => (f, Panic)
  | Err e => (f, Err (FoLoad e))
  | Ok stored =>
      if negb (bytes_eqb (mc_CreatorID stored) (cl_Id (fo_client f))) then (f, Err FoNotCreator) else
      let newVersion := u64 (mc_MetadataVersion stored + 1) in
      if newVersion <=? mc_MetadataVersion stored then (f, Err FoOverflow) else
      match SignContext (mkContext (mc_ContextID stored) newDisplayName newVersion (mc_CreatorID stored) []) creatorPriv with
      | Panic => (f, Panic)
      | Err e => (f, Err (FoSign e))
      | Ok ctx =>
          let '(s, r) := SaveContext io (CtxStore f) ctx in
          (set_CtxStore s f, _ ← wrapErr FoSave r; Ok ctx)
      end
  end.

(** The checks of [ApplyRemoteContext] before it saves. *)
Definition remoteAcceptable (f : Fanout) (remoteCtx : MessageContext) : res fo_err unit :=
  if mc_MetadataVersion remoteCtx =? 0 then Err FoVersionZero else
  match LoadContext (CtxStore f) (mc_ContextID remoteCtx) with
  | Ok stored =>
      if mc_MetadataVersion remoteCtx <=? mc_MetadataVersion stored
      then Err (FoStale (mc_MetadataVersion remoteCtx) (mc_MetadataVersion stored))
      else wrapErr FoSignature (VerifyContextSignature remoteCtx)
  | _ => wrapErr FoSignature (VerifyContextSignature remoteCtx)
  end.

Definition ApplyRemoteContext (io : storeIO) (f : Fanout) (remoteCtx : option MessageContext) : Fanout * res fo_err unit :=
  match remoteCtx with
  | None => (f, Err FoNilContext)
  | Some ctx =>
      match remoteAcceptable f ctx with
      | Ok _ => let '(s, r) := SaveContext io (CtxStore f) ctx in (set_CtxStore s f, wrapErr FoSave r)
      | Err e => (f, Err e)
      | Panic => (f, Panic)
      end
  end.

(** ** Policies *)
Definition SetRecipientPolicy (now : Z) (io : storeIO) (f : Fanout) (contextID : ContextID) (recipient : bytes) (policy : RecipientPolicy) : Fanout * res fo_err unit :=
  let '(s, r) := SavePolicy io (CtxStore f) (mkPolicy contextID recipient policy now) in
  (set_CtxStore s f, wrapErr FoSave r).

Definition GetRecipientPolicy (f : Fanout) (contextID : ContextID) (recipient : bytes) : RecipientPolicy :=
  match LoadPolicy (CtxStore f) contextID recipient with Ok lp => lp_Policy lp | _ => PolicyEnabled end.

Definition ListRecipientPolicies (io : storeIO) (f : Fanout) (contextID : ContextID) : list LocalRecipientPolicy :=
  ListPolicies io (CtxStore f) contextID.

Definition policyMap (l : list LocalRecipientPolicy) : gmap bytes RecipientPolicy :=
  fold_left (fun m p => <[lp_Recipient p := lp_Policy p]> m) l ∅.

Definition GetEffectiveRecipients (io : storeIO) (f : Fanout) (contextID : ContextID) (allRecipients : list bytes) : list bytes :=
  let pm := policyMap (ListRecipientPolicies io f contextID) in
  List.filter (fun r => let pol := default 0 (pm !! r) in
    negb ((pol =? PolicyBlocked) || (pol =? PolicyExcluded))%bool) allRecipients.

(** ** Sending *)
Definition encryptWithAAD (rnd : bytes) (session : SecurePeer) (senderID plaintext aad : bytes) (msgCtx : option MessageContext)
  : SecurePeer * res unit bytes :=
  match wrapPayloadV2 aad msgCtx plaintext with
  | Ok wrapped => let '(sp, r) := Encrypt rnd session senderID wrapped in (sp, wrapErr (fun _ => tt) r)
  | Err _ => (session, Err tt)
  | Panic => (session, Panic)
  end.

(** One turn of the loop of [SendMultiMessage]: the client and the delivery
    store after it, the delivery made, if any, and its result. *)
Definition sendOne (env : recipEnv) (config : FanoutConfig) (msgID : MessageID) (msgCtx : MessageContext) (contextID : ContextID)
    (plaintext : bytes) (timestamp : Z) (st : Client * D) (recipient : bytes)
  : (Client * D) * res fo_err (option MessageDelivery * DeliveryResult) :=
  let '(cl, ds) := st in
  let deliveryID := GenerateID (re_delivery env) in
  let aad := buildDeliveryAAD msgID (mc_ContextID msgCtx) (cl_Id cl) recipient (mc_MetadataVersion msgCtx) in
  match cl_Sessions cl !! recipient with
  | None =>
      if SkipOffline config then
        (st, Ok (None, mkResult deliveryID recipient DeliveryFailed true None))
      else
        (st, Ok (Some (mkDelivery deliveryID msgID recipient (str "pending") None contextID timestamp),
                 mkResult deliveryID recipient DeliveryPending false None))
  | Some p =>
      match cl_heap cl !! p with
      | None => (st, Panic)
      | Some session =>
          let '(sp, r) := encryptWithAAD (re_ratchet env) session (cl_Id cl) plaintext aad (Some msgCtx) in
          let cl := store p sp cl in
          match r with
          | Panic => ((cl, ds), Panic)
          | Err _ => ((cl, ds), Ok (None, mkResult deliveryID recipient DeliveryFailed true None))
          | Ok ciphertext =>
              let delivery := mkDelivery deliveryID msgID recipient recipient (Some ciphertext) contextID timestamp in
              ((cl, (ds_SaveDelivery (re_io env) ds delivery).1),
               Ok (Some delivery, mkResult deliveryID recipient DeliverySent false (Some ciphertext)))
          end
      end
  end.

Fixpoint sendLoop (envs : nat -> recipEnv) (i : nat) (config : FanoutConfig) (msgID : MessageID) (msgCtx : MessageContext)
    (contextID : ContextID) (plaintext : bytes) (timestamp : Z) (st : Client * D) (effective : list bytes)
  : (Client * D) * res fo_err (list MessageDelivery * list DeliveryResult) :=
  match effective with
  | [] => (st, Ok ([], []))
  | recipient :: effective =>
      match sendOne (envs i) config msgID msgCtx contextID plaintext timestamp st recipient with
      | (st, Ok (d, r)) =>
          match sendLoop envs (Datatypes.S i) config msgID msgCtx contextID plaintext timestamp st effective with
          | (st, Ok (ds, rs)) => (st, Ok (option_list d ++ ds, r :: rs))
          | other => other
          end
      | (st, Err e) => (st, Err e)
      | (st, Panic) => (st, Panic)
      end
  end.

(** [outs i] is the outcome of the [i]-th send; the first failure stops. *)
Fixpoint sendDeliveries (outs : nat -> bool) (ios : nat -> storeIO) (i : nat) (ds : D) (deliveries : list MessageDelivery)
  : D * list sending * res fo_err unit :=
  match deliveries with
  | [] => (ds, [], Ok tt)
  | d :: deliveries =>
      match md_Ciphertext d with
      | None => sendDeliveries outs ios i ds deliveries
      | Some ct =>
          let envelope := WrapEnvelope TypeMultiMsg ct in
          match PeerIDToEd25519Pub (md_Recipient d) with
          | Panic => (ds, [], Panic)
          | Err e => (ds, [], Err (FoDecode e))
          | Ok recipientPubKey =>
              if negb (outs i) then (ds, [(recipientPubKey, envelope)], Err FoSend) else
              let ds := (ds_MarkDelivered (ios i) ds (md_DeliveryID d)).1 in
              let '(ds, sent, r) := sendDeliveries outs ios (Datatypes.S i) ds deliveries in
              (ds, (recipientPubKey, envelope) :: sent, r)
          end
      end
  end.

Record sendEnv := mkSendEnv {
  se_io : storeIO;
  se_msg : bytes;                     (* the bytes of the message ID *)
  se_now : Z;
  se_recip : nat -> recipEnv;
  se_save : bool;                     (* writing the client succeeds *)
  se_relay : option (nat -> bool);    (* [f.relay], [None] for nil *)
  se_mark : nat -> storeIO;
}.

(** After the loop: save the client, hand the deliveries to the relay. *)
Definition dispatch (env : sendEnv) (msgID : MessageID) (msgCtx : MessageContext) (f : Fanout)
    (deliveries : list MessageDelivery) (results : list DeliveryResult) : Fanout * list sending * res fo_err FanoutResult :=
  if bool_decide (results = []) then (f, [], Err FoNoDeliveries) else
  let f := if List.existsb (fun r => bool_decide (dr_Status r = DeliverySent)) results
           then set_client (SaveClient (se_save env) (fo_client f)) f else f in
  let result := mkFanoutResult msgID (cl_Id (fo_client f)) msgCtx results (se_now env) in
  match se_relay env with
  | None => (f, [], Ok result)
  | Some outs =>
      let '(ds, sent, r) := sendDeliveries outs (se_mark env) 0 (fo_deliveryStore f) deliveries in
      (set_deliveries ds f, sent, match r with Panic => Panic | _ => Ok result end)
  end.

Definition SendMultiMessage (env : sendEnv) (f : Fanout) (contextID : ContextID) (plaintext : bytes) (recipients : list bytes)
  : Fanout * list sending * res fo_err FanoutResult :=
  match LoadContext (CtxStore f) contextID with
  | Panic => (f, [], Panic)
  | Err e => (f, [], Err (FoLoad e))
  | Ok msgCtx =>
      if mc_MetadataVersion msgCtx =? 0 then (f, [], Err FoVersionZero) else
      match VerifyContextSignature msgCtx with
      | Panic => (f, [], Panic)
      | Err e => (f, [], Err (FoSignature e))
      | Ok _ =>
          let effective := GetEffectiveRecipients (se_io env) f contextID recipients in
          if bool_decide (effective = []) then (f, [], Err FoNoRecipients) else
          let msgID := GenerateID (se_msg env) in
          match sendLoop (se_recip env) 0 (fo_config f) msgID msgCtx contextID plaintext (se_now env)
                  (fo_client f, fo_deliveryStore f) effective with
          | ((cl, ds), Panic) => (set_deliveries ds (set_client cl f), [], Panic)
          | ((cl, ds), Err e) => (set_deliveries ds (set_client cl f), [], Err e)
          | ((cl, ds), Ok (deliveries, results)) =>
              dispatch env msgID msgCtx (set_deliveries ds (set_client cl f)) deliveries results
          end
      end
  end.

(** [RetryUndelivered] *)
Fixpoint retryLoop (outs : nat -> bool) (ios : nat -> storeIO) (i : nat) (cl : Client) (ds : D) (undelivered : list MessageDelivery)
  : D * list sending :=
  match undelivered with
  | [] => (ds, [])
  | d :: undelivered =>
      match cl_Sessions cl !! md_Recipient d, md_Ciphertext d with
      | Some _, Some ct =>
          match PeerIDToEd25519Pub (md_Recipient d) with
          | Ok recipientPubKey =>
              let ds := if outs i then (ds_MarkDelivered (ios i) ds (md_DeliveryID d)).1 else ds in
              let '(ds, sent) := retryLoop outs ios (Datatypes.S i) cl ds undelivered in
              (ds, (recipientPubKey, WrapEnvelope TypeMessage ct) :: sent)
          | _ => retryLoop outs ios i cl ds undelivered
          end
      | _, _ => retryLoop outs ios i cl ds undelivered
      end
  end.

Definition RetryUndelivered (io : storeIO) (outs : nat -> bool) (ios : nat -> storeIO) (f : Fanout) : Fanout * list sending :=
  let '(ds, sent) := retryLoop outs ios 0 (fo_client f) (fo_deliveryStore f) (ds_ListUndelivered io (fo_deliveryStore f)) in
  (set_deliveries ds f, sent).

(** ** Receiving *)

(** The binding checks; an absent sender is filled in. *)
Definition checkBinding (selfID frameSender : bytes) (m : DeliveryMeta) : res fo_err DeliveryMeta :=
  if (negb (bool_decide (dm_Sender m = [])) && negb (bytes_eqb (dm_Sender m) frameSender))%bool then Err FoSenderMismatch else
  if (negb (bool_decide (dm_Recipient m = [])) && negb (bytes_eqb (dm_Recipient m) selfID))%bool then Err FoOtherRecipient else
  Ok (if bool_decide (dm_Sender m = []) then mkMeta (dm_MessageID m) (dm_ContextID m) frameSender (dm_Recipient m) (dm_Version m) else m).

(** Learn the descriptor, or fall back to the stored one. *)
Definition resolveContext (io : storeIO) (f : Fanout) (m : DeliveryMeta) (c : option MessageContext) : Fanout * res fo_err (option MessageContext) :=
  let fallback f := match LoadContext (CtxStore f) (dm_ContextID m) with
                    | Ok ctx => (f, Ok (Some ctx)) | Err _ => (f, Ok None) | Panic => (f, Panic) end in
  match c with
  | None => fallback f
  | Some ctx =>
      match ApplyRemoteContext io f (Some ctx) with
      | (f, Ok _) => (f, Ok (Some ctx))
      | (f, Err _) => fallback f
      | (f, Panic) => (f, Panic)
      end
  end.

(** What follows a successful decryption. *)
Definition receiveWrapped (io : storeIO) (f : Fanout) (selfID frameSender wrapped : bytes) : Fanout * res fo_err InboundMessage :=
  match ParseWrapped wrapped with
  | Panic => (f, Panic)
  | Err e => (f, Err (FoParse e))
  | Ok parsed =>
      match checkBinding selfID frameSender (pd_Meta parsed) with
      | Panic => (f, Panic)
      | Err e => (f, Err e)
      | Ok meta =>
          let key := (frameSender, dm_MessageID meta) in
          if bool_decide (key ∈ seenMessages f) then (f, Err FoDuplicate) else
          let f := set_seenMessages ({[key]} ∪ seenMessages f) f in
          match resolveContext io f meta (pd_Context parsed) with
          | (f, Ok ctx) => (f, Ok (mkInbound frameSender meta ctx (pd_Plaintext parsed)))
          | (f, Err e) => (f, Err e)
          | (f, Panic) => (f, Panic)
          end
      end
  end.

Definition ProcessDelivery (save : bool) (io : storeIO) (f : Fanout) (selfID ciphertext : bytes) : Fanout * res fo_err InboundMessage :=
  match Client_Decrypt save (fo_client f) ciphertext with
  | (cl, Panic) => (set_client cl f, Panic)
  | (cl, Err e) => (set_client cl f, Err (if isReplay e then FoReplay e else FoDecrypt e))
  | (cl, Ok (frameSender, wrapped)) => receiveWrapped io (set_client cl f) selfID frameSender wrapped
  end.

(** [ReceiveMultiMessage] over the bodies the relay returned. *)
Fixpoint receiveLoop (save : bool) (io : storeIO) (f : Fanout) (msgs : list bytes) : Fanout * res fo_err (list InboundMessage) :=
  match msgs with
  | [] => (f, Ok [])
  | body :: msgs =>
      match body with
      | t :: ct =>
          if bool_decide (t = TypeMultiMsg) then
            match ProcessDelivery save io f (cl_Id (fo_client f)) ct with
            | (f, Panic) => (f, Panic)
            | (f, Err _) => receiveLoop save io f msgs
            | (f, Ok inbound) =>
                match receiveLoop save io f msgs with
                | (f, Ok rest) => (f, Ok (inbound :: rest))
                | other => other
                end
            end
          else receiveLoop save io f msgs
      | [] => receiveLoop save io f msgs
      end
  end.

Definition ReceiveMultiMessage (save : bool) (io : storeIO) (received : option (list bytes)) (f : Fanout) : Fanout * res fo_err (list InboundMessage) :=
  match received with
  | None => (f, Err FoReceive)
  | Some msgs => receiveLoop save io f msgs
  end.

End Fanout.
Arguments Fanout S D : clear implicits.
