(* ===== verification/FanoutTheorems.v ===== *)
(** * What the fan-out guarantees

    Policy filtering, one result per recipient, delivery of a group message from
    one client to another through their session, binding and deduplication on
    receipt, and the versions of group descriptors. *)
From S2P Require Import Prelude GoStd Sha256 External SecurePeer SecurePeerFacts Session Engine Client Frame Binstore Records MultiMsg MultiStore MultiStoreTheorems Fanout.
#[local] Open Scope Z_scope.

(** What the retry relies on: only deliveries without ciphertext are listed. *)
Class DeliveryStoreLaws (D : Type) `{DeliveryStore D} : Prop := {
  ds_undelivered io s d : d ∈ ds_ListUndelivered io s -> md_Ciphertext d = None;
}.

Lemma undelivered_none io s d : d ∈ ListUndeliveredDeliveries io s -> md_Ciphertext d = None.
Proof.
  unfold ListUndeliveredDeliveries. intros H. apply list_elem_of_In, filter_In in H as [_ H]. by bool_prop.
Qed.

#[export] Instance memory_deliveries_laws : DeliveryStoreLaws deliveries_t.
Proof. split. intros io s d. apply undelivered_none. Qed.

#[export] Instance file_deliveries_laws `{Nanopack} `{RecordStore} : DeliveryStoreLaws FileDeliveryStore.
Proof. split. intros io s d. apply undelivered_none. Qed.

(** A store that never replaces a descriptor by one that is not newer. *)
Class MonotoneStore (S : Type) `{ContextStoreLaws S} : Prop := {
  cs_save_mono io s c s' r c0 : SaveContext io s c = (s', r) -> cs_contexts s !! mc_ContextID c = Some c0 ->
    mc_MetadataVersion c <= mc_MetadataVersion c0 -> cs_contexts s' = cs_contexts s;
}.

#[export] Instance file_store_monotone `{Nanopack} `{RecordStoreLaws} : MonotoneStore File.FileContextStore.
Proof.
  split. intros io s c s' r c0 Hs Hc Hv. cbn in Hs, Hc |- *. unfold File.SaveContext in Hs. rewrite Hc in Hs.
  rewrite (proj2 (Z.leb_le _ _) Hv) in Hs. by injection Hs as <- <-.
Qed.

(** ** Policies *)
Lemma policyMap_lookup l r y :
  (forall p q, p ∈ l -> q ∈ l -> lp_Recipient p = lp_Recipient q -> p = q) ->
  policyMap l !! r = Some y <-> exists p, p ∈ l /\ lp_Recipient p = r /\ lp_Policy p = y.
Proof.
  unfold policyMap. induction l as [|q l IH] using rev_ind; intros Hf.
  - cbn. rewrite lookup_empty. split; [done|]. by intros (p & Hp%not_elem_of_nil & _).
  - rewrite fold_left_app. cbn [fold_left].
    assert (forall p q, p ∈ l -> q ∈ l -> lp_Recipient p = lp_Recipient q -> p = q) as Hf' by (intros; apply Hf; set_solver).
    destruct (decide (r = lp_Recipient q)) as [->|Hr].
    + rewrite lookup_insert_eq. split; [intros [= <-]; exists q; set_solver|].
      intros (p & Hp & Hpr & <-). f_equal. f_equal. apply Hf; [set_solver|done|done].
    + rewrite lookup_insert_ne, IH by done. split; [set_solver|]. intros (p & Hp & <- & <-). exists p. split; [|done].
      apply elem_of_app in Hp as [Hp|Hp%list_elem_of_singleton]; [done|]. by subst.
Qed.

Lemma elem_of_listPolicies io m c p : range_ok io ->
  p ∈ listPolicies io m c <-> exists r, polAt m c r = Some p.
Proof.
  intros Hio. unfold listPolicies, polAt. destruct (m !! c) as [ps|]; cbn.
  - unfold sortPolicies, sortBy. rewrite merge_sort_Permutation, (Hio _ ps), list_elem_of_fmap. split.
    + intros ([r q] & -> & Hq). exists r. by apply elem_of_map_to_list.
    + intros [r Hr]. exists (r, p). split; [done|]. by apply elem_of_map_to_list.
  - split; [by intros ?%not_elem_of_nil|]. by intros [? ?].
Qed.

Section Theorems.
Context `{N : Nanopack} `{NL : !NanopackLaws} `{P : Prims} `{PL : !PrimLaws}.
Context {S D : Type} `{CS : ContextStore S} `{CL : !ContextStoreLaws S} `{DS : DeliveryStore D}.

(** Filtering a recipient list agrees with asking for each recipient's policy:
    the effective recipients are, in order, those whose policy is neither
    blocked nor excluded, an unset policy counting as enabled. *)
Theorem effective_recipients_spec (io : storeIO) (f : Fanout S D) (c : ContextID) (rs : list bytes) :
  range_ok io -> pol_keyed (cs_policies (CtxStore f)) ->
  GetEffectiveRecipients io f c rs
  = List.filter (fun r => negb (bool_decide (GetRecipientPolicy f c r ∈ [PolicyBlocked; PolicyExcluded]))) rs.
Proof.
  intros Hio Hk. unfold GetEffectiveRecipients. apply filter_ext. intros r.
  assert (default 0 (policyMap (ListRecipientPolicies io f c) !! r) = GetRecipientPolicy f c r) as ->.
  { unfold GetRecipientPolicy, ListRecipientPolicies. rewrite cs_loadPolicy, cs_listPolicies, findPolicy_polAt.
    assert (policyMap (listPolicies io (cs_policies (CtxStore f)) c) !! r
            = lp_Policy <$> polAt (cs_policies (CtxStore f)) c r) as ->; [|by destruct (polAt _ c r)].
    apply option_eq. intros y. rewrite policyMap_lookup.
    - setoid_rewrite elem_of_listPolicies; [|done]. rewrite fmap_Some. split.
      + intros (p & [r' Hp] & <- & <-). exists p. destruct (Hk _ _ _ Hp) as [_ ->]. done.
      + intros (p & Hp & ->). exists p. destruct (Hk _ _ _ Hp) as [_ Hr]. eauto.
    - intros p q Hp Hq Heq. apply elem_of_listPolicies in Hp as [r1 Hp], Hq as [r2 Hq]; [|done..].
      destruct (Hk _ _ _ Hp) as [_ H1], (Hk _ _ _ Hq) as [_ H2]. congruence. }
  f_equal. destruct (_ =? PolicyBlocked) eqn:H1, (_ =? PolicyExcluded) eqn:H2; bool_prop; symmetry.
  all: first [apply bool_decide_eq_true_2; rewrite ?H1, ?H2; set_solver | apply bool_decide_eq_false_2; set_solver].
Qed.

(** ** One result per recipient *)

(** What a result says about its recipient. *)
Definition sound (sessions : gmap bytes loc) (config : FanoutConfig) (r : DeliveryResult) : Prop :=
  match dr_Status r with
  | DeliverySent => is_Some (sessions !! dr_Recipient r) /\ dr_Error r = false /\ is_Some (dr_Ciphertext r)
  | DeliveryPending => sessions !! dr_Recipient r = None /\ SkipOffline config = false /\ dr_Error r = false /\ dr_Ciphertext r = None
  | DeliveryFailed => dr_Error r = true /\ dr_Ciphertext r = None /\
      (is_Some (sessions !! dr_Recipient r) \/ SkipOffline config = true)
  end.

Definition deliveryOf (m : MessageID) (c : ContextID) (t : Z) (r : DeliveryResult) : option MessageDelivery :=
  match dr_Status r with
  | DeliverySent => Some (mkDelivery (dr_DeliveryID r) m (dr_Recipient r) (dr_Recipient r) (dr_Ciphertext r) c t)
  | DeliveryPending => Some (mkDelivery (dr_DeliveryID r) m (dr_Recipient r) (str "pending") None c t)
  | DeliveryFailed => None
  end.

Lemma sendOne_ok env config m ctx c pt t cl (ds : D) r cl' ds' d res :
  sendOne env config m ctx c pt t (cl, ds) r = ((cl', ds'), Ok (d, res)) ->
  cl_Id cl' = cl_Id cl /\ cl_Sessions cl' = cl_Sessions cl /\
  (forall q, cl_Sessions cl !! r ≠ Some q -> cl_heap cl' !! q = cl_heap cl !! q) /\
  dr_Recipient res = r /\ sound (cl_Sessions cl) config res /\ d = deliveryOf m c t res /\
  (cl_Sessions cl !! r = None -> ds' = ds).
Proof.
  unfold sendOne. destruct (cl_Sessions cl !! r) as [p|] eqn:Hs.
  - destruct (cl_heap cl !! p) as [session|]; [|done]. destruct (encryptWithAAD _ _ _ _ _ _) as [sp e].
    assert (forall q, Some p ≠ Some q -> cl_heap (store p sp cl) !! q = cl_heap cl !! q) as Hq.
    { intros q Hq. cbn. rewrite lookup_insert_ne; [done|congruence]. }
    destruct e as [ct|e|]; intros [= <- <- <- <-]; unfold sound, deliveryOf;
      cbn [dr_Status dr_Recipient dr_Error dr_Ciphertext dr_DeliveryID]; rewrite ?Hs; conjs; eauto; done.
  - destruct (SkipOffline config) eqn:Hc; intros [= <- <- <- <-]; unfold sound, deliveryOf;
      cbn [dr_Status dr_Recipient dr_Error dr_Ciphertext]; rewrite Hs; conjs; eauto.
Qed.

Lemma sendLoop_ok envs config m ctx c pt t eff : forall i cl (ds : D) cl' ds' dl rs,
  sendLoop envs i config m ctx c pt t (cl, ds) eff = ((cl', ds'), Ok (dl, rs)) ->
  cl_Id cl' = cl_Id cl /\ cl_Sessions cl' = cl_Sessions cl /\
  dr_Recipient <$> rs = eff /\ Forall (sound (cl_Sessions cl) config) rs /\ dl = omap (deliveryOf m c t) rs /\
  (Forall (fun r => cl_Sessions cl !! r = None) eff -> ds' = ds).
Proof.
  induction eff as [|r eff IH]; intros i cl ds cl' ds' dl rs H; cbn [sendLoop] in H; [by simplify_eq|].
  destruct (sendOne _ _ _ _ _ _ _ _ _) as [[cl1 ds1] o] eqn:H1. destruct o as [[d res]|e|]; [|done|done].
  destruct (sendLoop _ _ _ _ _ _ _ _ _ _) as [[cl2 ds2] o2] eqn:H2. destruct o2 as [[ds2' rs2]|e|]; [|done|done].
  injection H as <- <- <- <-. apply sendOne_ok in H1 as (Hi & Hs & _ & Hr & Hsnd & -> & Hd).
  apply IH in H2 as (Hi2 & Hs2 & Hr2 & Hsnd2 & -> & Hd2). rewrite Hs in *. conjs.
  - congruence.
  - congruence.
  - rewrite fmap_cons. by f_equal.
  - by constructor.
  - cbn [omap list_omap]. by destruct (deliveryOf m c t res).
  - intros Hf. apply List.Forall_cons_iff in Hf as [Hf1 Hf2]. rewrite Hd2, Hd; done.
Qed.

(** The envelope of a sent result. *)
Definition envelopeOf (r : DeliveryResult) : option sending :=
  ct ← dr_Ciphertext r;
  match PeerIDToEd25519Pub (dr_Recipient r) with Ok pub => Some (pub, WrapEnvelope TypeMultiMsg ct) | _ => None end.

Lemma sendDeliveries_prefix outs ios m c t sessions config rs : forall i (ds ds' : D) sent res,
  Forall (sound sessions config) rs ->
  sendDeliveries outs ios i ds (omap (deliveryOf m c t) rs) = (ds', sent, res) ->
  exists k, sent = take k (omap envelopeOf rs).
Proof.
  induction rs as [|r rs IH]; intros i ds ds' sent res Hs H; [cbn in H; simplify_eq; by exists O|].
  apply List.Forall_cons_iff in Hs as [Hr Hs]. cbn [omap list_omap] in H |- *.
  assert (deliveryOf m c t r = None \/ (exists d, deliveryOf m c t r = Some d /\ md_Ciphertext d = dr_Ciphertext r /\ md_Recipient d = dr_Recipient r)) as Hd.
  { unfold deliveryOf, sound in *. destruct (dr_Status r); [right|right|left]; [eauto| |done].
    eexists. split; [done|]. by destruct Hr as (_ & _ & _ & ->). }
  assert (deliveryOf m c t r = None -> dr_Ciphertext r = None) as Hn.
  { unfold deliveryOf, sound in *. by destruct (dr_Status r); [..|destruct Hr as (_ & -> & _)]. }
  destruct Hd as [Hd|(d & Hd & Hc & Hrec)]; rewrite Hd in H.
  - unfold envelopeOf at 1. rewrite Hn by done. cbn [mbind option_bind]. by eapply IH.
  - cbn [sendDeliveries] in H. unfold envelopeOf at 1. rewrite Hc, Hrec in H.
    destruct (dr_Ciphertext r) as [ct|]; cbn [mbind option_bind]; [|by eapply IH].
    destruct (PeerIDToEd25519Pub (dr_Recipient r)) as [pub|e|]; [|injection H as _ <- _; by exists O..].
    destruct (outs i); cbn [negb] in H.
    + destruct (sendDeliveries _ _ _ _ _) as [[ds2 sent2] res2] eqn:H2. injection H as _ <- _.
      apply IH in H2 as [k ->]; [|done]. by exists (Datatypes.S k).
    + injection H as _ <- _. by exists 1%nat.
Qed.

Lemma send_inv env (f f' : Fanout S D) c pt rs sent fr :
  SendMultiMessage env f c pt rs = (f', sent, Ok fr) ->
  exists msgCtx cl ds dl results,
    LoadContext (CtxStore f) c = Ok msgCtx /\ mc_MetadataVersion msgCtx ≠ 0 /\ VerifyContextSignature msgCtx = Ok tt /\
    GetEffectiveRecipients (se_io env) f c rs ≠ [] /\
    sendLoop (se_recip env) 0 (fo_config f) (GenerateID (se_msg env)) msgCtx c pt (se_now env)
      (fo_client f, fo_deliveryStore f) (GetEffectiveRecipients (se_io env) f c rs) = ((cl, ds), Ok (dl, results)) /\
    dispatch env (GenerateID (se_msg env)) msgCtx (set_deliveries ds (set_client cl f)) dl results = (f', sent, Ok fr).
Proof.
  unfold SendMultiMessage. intros H. destruct (LoadContext _ _) as [msgCtx|e|]; [|done|done].
  destruct (mc_MetadataVersion msgCtx =? 0) eqn:Hv; [done|]. destruct (VerifyContextSignature msgCtx) as [[]|e|] eqn:Hsig; [|done|done].
  case_bool_decide as Heff; [done|]. destruct (sendLoop _ _ _ _ _ _ _ _ _ _) as [[cl ds] o] eqn:Hl.
  destruct o as [[dl results]|e|]; [|done|done]. apply Z.eqb_neq in Hv. by exists msgCtx, cl, ds, dl, results.
Qed.

Lemma send_reports env (f f' : Fanout S D) c pt rs sent fr :
  SendMultiMessage env f c pt rs = (f', sent, Ok fr) ->
  let eff := GetEffectiveRecipients (se_io env) f c rs in
  eff ≠ [] /\ dr_Recipient <$> fr_Deliveries fr = eff /\
  Forall (sound (cl_Sessions (fo_client f)) (fo_config f)) (fr_Deliveries fr) /\
  fr_Sender fr = cl_Id (fo_client f) /\ LoadContext (CtxStore f) c = Ok (fr_Context fr) /\
  exists k, sent = take k (omap envelopeOf (fr_Deliveries fr)).
Proof.
  intros H. apply send_inv in H as (msgCtx & cl & ds & dl & results & Hload & _ & _ & Heff & Hloop & Hd).
  apply sendLoop_ok in Hloop as (Hi & _ & Hr & Hsnd & -> & _). cbv zeta. split; [done|].
  unfold dispatch in Hd. case_bool_decide; [done|]. destruct (se_relay env) as [outs|].
  - destruct (sendDeliveries _ _ _ _ _) as [[ds2 sent2] r] eqn:H2. injection Hd as _ <- Hres.
    assert (fr_Deliveries fr = results /\ fr_Sender fr = cl_Id (fo_client f) /\ fr_Context fr = msgCtx) as (-> & -> & ->).
    { destruct r; [| |done]; injection Hres as <-; cbn [fr_Deliveries fr_Sender fr_Context]; conjs; try done;
        (destruct (existsb _ results); cbn [fo_client set_client set_deliveries]; [|done]);
        unfold SaveClient; repeat case_match; done. }
    conjs; try done. by eapply sendDeliveries_prefix.
  - injection Hd as _ <- <-. cbn [fr_Deliveries fr_Sender fr_Context]. conjs; try done; [|by exists O].
    destruct (existsb _ results); cbn [fo_client set_client set_deliveries]; [|done]. unfold SaveClient. by repeat case_match.
Qed.

(** C25: A successful send reports on every effective recipient, once and in order:
    a recipient with a session is sent to or failed with an error, one without a
    session is pending or, when offline recipients are skipped, failed.  What the
    relay is given is a prefix of the envelopes of the results that have a
    ciphertext, each addressed to its recipient's key. *)
Theorem send_reports_every_recipient env (f f' : Fanout S D) c pt rs sent fr :
  SendMultiMessage env f c pt rs = (f', sent, Ok fr) ->
  let eff := GetEffectiveRecipients (se_io env) f c rs in
  eff ≠ [] /\ dr_Recipient <$> fr_Deliveries fr = eff /\
  Forall (sound (cl_Sessions (fo_client f)) (fo_config f)) (fr_Deliveries fr) /\
  fr_Sender fr = cl_Id (fo_client f) /\ LoadContext (CtxStore f) c = Ok (fr_Context fr) /\
  exists k, sent = take k (omap envelopeOf (fr_Deliveries fr)).
Proof. apply send_reports. Qed.

(** ** Pending deliveries *)
Lemma retry_nothing outs ios cl l : forall i (ds : D),
  Forall (fun d => md_Ciphertext d = None) l -> retryLoop outs ios i cl ds l = (ds, []).
Proof.
  induction l as [|d l IH]; intros i ds Hl; [done|]. apply List.Forall_cons_iff in Hl as [Hd Hl].
  cbn [retryLoop]. rewrite Hd. destruct (cl_Sessions cl !! md_Recipient d); by apply IH.
Qed.

(** A message for a recipient without a session is reported as pending and
    lost.  Sending to such recipients stores no delivery and hands nothing to
    the relay, and the retry, in this or any other state, never sends
    anything. *)
Theorem pending_deliveries_lost `{DL : !DeliveryStoreLaws D} env (f f' : Fanout S D) c pt rs sent fr :
  SendMultiMessage env f c pt rs = (f', sent, Ok fr) -> SkipOffline (fo_config f) = false ->
  Forall (fun r => cl_Sessions (fo_client f) !! r = None) (GetEffectiveRecipients (se_io env) f c rs) ->
  Forall (fun r => dr_Status r = DeliveryPending) (fr_Deliveries fr) /\
  fo_deliveryStore f' = fo_deliveryStore f /\ sent = [] /\
  forall io outs ios (g : Fanout S D), RetryUndelivered io outs ios g = (g, []).
Proof.
  intros H Hskip Hno. pose proof H as Hrep. apply send_reports in Hrep as (_ & Hr & Hsnd & _ & _ & k & Hk).
  assert (Forall (fun r => dr_Status r = DeliveryPending /\ dr_Ciphertext r = None) (fr_Deliveries fr)) as Hp.
  { apply List.Forall_forall. intros r Hin. rewrite List.Forall_forall in Hsnd, Hno. specialize (Hsnd r Hin).
    assert (cl_Sessions (fo_client f) !! dr_Recipient r = None) as Hn.
    { apply Hno, list_elem_of_In. rewrite <- Hr. by apply list_elem_of_fmap_2, list_elem_of_In. }
    unfold sound in Hsnd. rewrite Hn, Hskip in Hsnd. destruct (dr_Status r); [by destruct Hsnd as [[? ?] _]|naive_solver|].
    destruct Hsnd as (_ & _ & [[? ?]|?]); done. }
  split; [by eapply List.Forall_impl; [|exact Hp]; intros r [? _]|].
  assert (omap envelopeOf (fr_Deliveries fr) = []) as He.
  { revert Hp. clear. induction (fr_Deliveries fr) as [|r l IH]; [done|]. intros Hp. apply List.Forall_cons_iff in Hp as [[_ Hr] Hp].
    cbn [omap list_omap]. unfold envelopeOf at 1. rewrite Hr. by apply IH. }
  rewrite He, take_nil in Hk. split; [|split; [done|]].
  - apply send_inv in H as (msgCtx & cl & ds & dl & results & _ & _ & _ & _ & Hloop & Hd).
    apply sendLoop_ok in Hloop as (_ & _ & _ & Hsnd' & -> & Hds). rewrite (Hds Hno) in Hd. unfold dispatch in Hd.
    case_bool_decide; [done|]. destruct (se_relay env) as [outs|].
    + destruct (sendDeliveries _ _ _ _ _) as [[ds2 sent2] r] eqn:H2. injection Hd as <- _ Hres.
      assert (fr_Deliveries fr = results) as Hfr by (destruct r; [| |done]; by injection Hres as <-). rewrite Hfr in Hp.
      cbn [fo_deliveryStore set_deliveries]. destruct (existsb _ results); cbn [fo_deliveryStore set_client set_deliveries] in H2;
      revert H2; clear - Hp; generalize 0%nat; induction results as [|x l IH]; intros i H2; cbn in H2; try (by simplify_eq);
      apply List.Forall_cons_iff in Hp as [[Hx _] Hp]; unfold deliveryOf in H2; rewrite Hx in H2; cbn in H2; by eapply IH.
    + injection Hd as <- _ _. by destruct (existsb _ results).
  - intros io outs ios g. unfold RetryUndelivered. rewrite retry_nothing; [by destruct g|].
    apply List.Forall_forall. intros d Hd. by apply list_elem_of_In, ds_undelivered in Hd.
Qed.

(** ** Descriptors from others *)

(** A group descriptor is not tied to the group's creator.  Whatever
    descriptor is stored for a group, any identity can sign one for the same
    group with a higher version, itself as creator and any display name: it is
    accepted and replaces the stored one, and the next descriptor of the real
    creator, signed for the following version, is then refused as stale. *)
Theorem foreign_creator_takes_over (io io' : storeIO) (f f' : Fanout S D) c0 name priv dil ctx next r :
  let id := mc_ContextID c0 in
  let attacker := DerivePeerID (ed25519_public priv) dil in
  cs_contexts (CtxStore f) !! id = Some c0 -> 0 <= mc_MetadataVersion c0 < 2 ^ 64 - 1 ->
  length priv = 64%nat ->
  SignContext (mkContext id name (mc_MetadataVersion c0 + 1) attacker []) priv = Ok ctx ->
  ApplyRemoteContext io f (Some ctx) = (f', r) ->
  cs_contexts (CtxStore f') !! id = Some ctx /\ mc_CreatorID ctx = attacker /\ mc_DisplayName ctx = name /\
  (mc_ContextID next = id -> mc_CreatorID next = mc_CreatorID c0 -> mc_MetadataVersion next = mc_MetadataVersion c0 + 1 ->
   ApplyRemoteContext io' f' (Some next) = (f', Err (FoStale (mc_MetadataVersion c0 + 1) (mc_MetadataVersion c0 + 1)))).
Proof.
  intros id attacker Hc Hv Hp Hsign Ha.
  destruct (signContext_verifies (mkContext id name (mc_MetadataVersion c0 + 1) attacker []) ctx priv (ed25519_public priv) dil Hp eq_refl eq_refl Hsign) as (Hsig & Hid & Hname & Hver & Hcr).
  cbn [mc_ContextID mc_DisplayName mc_MetadataVersion mc_CreatorID] in Hid, Hname, Hver, Hcr.
  assert (remoteAcceptable f ctx = Ok tt) as Hacc.
  { unfold remoteAcceptable. rewrite Hver, Hid, cs_load. rewrite (proj2 (Z.eqb_neq _ _)) by lia. fold id in Hc. rewrite Hc. cbn [ofOption].
    rewrite (proj2 (Z.leb_gt _ _)) by lia. by rewrite Hsig. }
  cbn [ApplyRemoteContext] in Ha. rewrite Hacc in Ha. destruct (SaveContext io (CtxStore f) ctx) as [s' r'] eqn:Hs.
  injection Ha as <- <-. cbn [CtxStore set_CtxStore].
  assert (cs_contexts s' = <[id := ctx]> (cs_contexts (CtxStore f))) as Hnew.
  { rewrite <- Hid. eapply cs_save_newer; [exact Hs|]. intros c1 H1. rewrite Hid in H1. fold id in Hc. rewrite Hc in H1. injection H1 as <-. lia. }
  rewrite Hnew, lookup_insert_eq. conjs; [done|done|done|]. intros Hn1 _ Hn3. cbn [ApplyRemoteContext].
  assert (remoteAcceptable (set_CtxStore s' f) next = Err (FoStale (mc_MetadataVersion c0 + 1) (mc_MetadataVersion c0 + 1))) as ->; [|done].
  unfold remoteAcceptable. rewrite Hn3, Hn1. rewrite (proj2 (Z.eqb_neq _ _)) by lia. cbn [CtxStore set_CtxStore].
  rewrite cs_load, Hnew, lookup_insert_eq. cbn [ofOption]. by rewrite Hver, (proj2 (Z.leb_le _ _)) by lia.
Qed.

(** ** Receipt *)
Definition messageKey (m : InboundMessage) : bytes * MessageID := (im_Sender m, dm_MessageID (im_Meta m)).

(** What a binding says of a message from [sender] to [self]: it names each of the
    two or nobody, and what is reported is the binding with the sender filled in. *)
Definition bound (self sender : bytes) (carried reported : DeliveryMeta) : Prop :=
  (dm_Sender carried = sender \/ dm_Sender carried = []) /\ (dm_Recipient carried = self \/ dm_Recipient carried = []) /\
  reported = mkMeta (dm_MessageID carried) (dm_ContextID carried) sender (dm_Recipient carried) (dm_Version carried).

Lemma checkBinding_ok self sender m m' : checkBinding self sender m = Ok m' -> bound self sender m m'.
Proof.
  unfold checkBinding. destruct (negb _ && negb _)%bool eqn:H1; [done|]. destruct (negb _ && negb _)%bool eqn:H2 at 1; [done|].
  intros [= <-]. apply andb_false_iff in H1, H2. unfold bound.
  assert (dm_Recipient m = self \/ dm_Recipient m = []) as Hr by (destruct H2; bool_prop; auto).
  destruct (bool_decide (dm_Sender m = [])) eqn:Hs; bool_prop; [auto|]. destruct H1; bool_prop; [done|]. destruct m. cbn in *. subst. auto.
Qed.

Lemma resolveContext_keeps io (f f' : Fanout S D) m c r : resolveContext io f m c = (f', r) ->
  seenMessages f' = seenMessages f /\ fo_client f' = fo_client f.
Proof.
  unfold resolveContext, ApplyRemoteContext. cbv zeta. repeat case_match; intros [= <- <-]; simplify_eq; done.
Qed.

Lemma receiveWrapped_ok io (f f' : Fanout S D) self sender wrapped m :
  receiveWrapped io f self sender wrapped = (f', Ok m) ->
  exists parsed, ParseWrapped wrapped = Ok parsed /\ im_Sender m = sender /\ im_Plaintext m = pd_Plaintext parsed /\
    bound self sender (pd_Meta parsed) (im_Meta m) /\
    (messageKey m ∉ seenMessages f) /\ seenMessages f' = {[messageKey m]} ∪ seenMessages f.
Proof.
  unfold receiveWrapped. destruct (ParseWrapped wrapped) as [parsed|e|]; [|done|done].
  destruct (checkBinding _ _ _) as [meta|e|] eqn:Hb; [|done|done]. apply checkBinding_ok in Hb.
  case_bool_decide as Hs; [done|]. destruct (resolveContext _ _ _ _) as [f2 o] eqn:Hr. destruct o as [ctx|e|]; [|done|done].
  intros [= <- <-]. apply resolveContext_keeps in Hr as [Hr _]. exists parsed.
  unfold messageKey. cbn [im_Sender im_Plaintext im_Meta]. conjs; done.
Qed.

Lemma receiveWrapped_seen io (f f' : Fanout S D) self sender wrapped r :
  receiveWrapped io f self sender wrapped = (f', r) -> seenMessages f ⊆ seenMessages f'.
Proof.
  unfold receiveWrapped. destruct (ParseWrapped wrapped) as [parsed|e|]; [|by intros [= <- _]..].
  destruct (checkBinding _ _ _) as [meta|e|]; [|by intros [= <- _]..].
  case_bool_decide; [by intros [= <- _]|]. destruct (resolveContext _ _ _ _) as [f2 o] eqn:Hr. apply resolveContext_keeps in Hr as [Hr _].
  cbn in Hr. destruct o; intros [= <- _]; rewrite Hr; set_solver.
Qed.

Lemma ProcessDelivery_seen save io (f f' : Fanout S D) self ct r :
  ProcessDelivery save io f self ct = (f', r) -> seenMessages f ⊆ seenMessages f'.
Proof.
  unfold ProcessDelivery. destruct (Client_Decrypt _ _ _) as [cl o]. destruct o as [[sender wrapped]|e|]; [|by intros [= <- _]..].
  apply receiveWrapped_seen.
Qed.

(** A batch of inbound ciphertexts, with what the runtime supplies for each. *)
Fixpoint processAll (self : bytes) (f : Fanout S D) (l : list (bool * storeIO * bytes)) : Fanout S D * list InboundMessage :=
  match l with
  | [] => (f, [])
  | (save, io, ct) :: l =>
      match ProcessDelivery save io f self ct with
      | (f, Ok m) => let '(f, ms) := processAll self f l in (f, m :: ms)
      | (f, _) => processAll self f l
      end
  end.

(** An accepted message is what the client, as the ciphertexts before have left it,
    decrypted from one of the batch; its binding does not contradict the sender
    whose session decrypted it, nor the recipient. *)
Definition accepted (self : bytes) (f : Fanout S D) (l : list (bool * storeIO * bytes)) (m : InboundMessage) : Prop :=
  exists pre save io ct post cl' wrapped parsed, l = pre ++ (save, io, ct) :: post /\
    Client_Decrypt save (fo_client (processAll self f pre).1) ct = (cl', Ok (im_Sender m, wrapped)) /\ ParseWrapped wrapped = Ok parsed /\
    im_Plaintext m = pd_Plaintext parsed /\ bound self (im_Sender m) (pd_Meta parsed) (im_Meta m).

Lemma accepted_later self c f l m : accepted self (ProcessDelivery c.1.1 c.1.2 f self c.2).1 l m -> accepted self f (c :: l) m.
Proof.
  intros (pre & save & io & ct & post & cl' & wrapped & parsed & -> & Hd & H). exists (c :: pre), save, io, ct, post, cl', wrapped, parsed.
  split; [done|]. split; [|done]. destruct c as [[save0 io0] ct0]. cbn [processAll fst snd] in *.
  destruct (ProcessDelivery save0 io0 f self ct0) as [f1 [m0|e|]]; cbn [fst] in Hd; [|exact Hd|exact Hd]. by destruct (processAll self f1 pre).
Qed.

(** C22: Group messages are received at most once and only as bound.  Over any
    sequence of inbound ciphertexts, no two accepted messages have the same
    sender and message ID, and none repeats one accepted before.  Each is what the
    session of the sender it reports decrypted from one of the ciphertexts, with
    the message ID, group and text that it carries; if its binding names a sender
    it is that one, and if it names a recipient it is this one (a binding may leave
    either out: then the sender is filled in, and any recipient takes it). *)
Theorem received_once_and_bound (self : bytes) (f : Fanout S D) (l : list (bool * storeIO * bytes)) :
  let '(f', ms) := processAll self f l in
  NoDup (messageKey <$> ms) /\
  Forall (fun m => (messageKey m ∉ seenMessages f) /\ messageKey m ∈ seenMessages f' /\ accepted self f l m) ms /\
  seenMessages f ⊆ seenMessages f'.
Proof.
  revert f. induction l as [|[[save io] ct] l IH]; intros f; cbn [processAll]; [conjs; [constructor|constructor|done]|].
  pose proof (accepted_later self (save, io, ct) f l) as Hlater. cbn [fst snd] in Hlater.
  destruct (ProcessDelivery save io f self ct) as [f1 o] eqn:Hp. pose proof (ProcessDelivery_seen _ _ _ _ _ _ _ Hp) as Hsub. cbn [fst] in Hlater.
  specialize (IH f1). destruct (processAll self f1 l) as [f2 ms] eqn:Hall. destruct IH as (Hn & Hf & Hs2).
  assert (Forall (fun m => (messageKey m ∉ seenMessages f) /\ messageKey m ∈ seenMessages f2 /\ accepted self f ((save, io, ct) :: l) m) ms) as Hf'.
  { eapply List.Forall_impl; [|exact Hf]. intros m (H1 & H2 & H3). conjs; [set_solver|done|by apply Hlater]. }
  destruct o as [m|e|]; rewrite ?Hall; [|conjs; [done|done|set_solver]..].
  unfold ProcessDelivery in Hp. destruct (Client_Decrypt save (fo_client f) ct) as [cl o] eqn:Hd.
  destruct o as [[sender wrapped]|e|]; [|done|done].
  apply receiveWrapped_ok in Hp as (parsed & Hpw & Hsnd & Htxt & Hb & Hnew & Hseen).
  cbn [set_client seenMessages] in Hnew, Hseen. conjs.
  - rewrite fmap_cons. apply list.NoDup_cons. split; [|done]. intros Hin. apply list_elem_of_fmap in Hin as (m' & Heq & Hin).
    rewrite List.Forall_forall in Hf. apply list_elem_of_In in Hin. destruct (Hf m' Hin) as [Hm' _].
    apply Hm'. rewrite Hseen, <- Heq. set_solver.
  - constructor; [|done]. conjs; [done|apply Hs2; rewrite Hseen; set_solver|].
    exists [], save, io, ct, l, cl, wrapped, parsed. rewrite Hsnd. conjs; done.
  - set_solver.
Qed.

(** ** Versions of descriptors *)
Inductive fo_op :=
| FCreate (rnd : bytes) (io : storeIO) (name priv : bytes)
| FUpdate (io : storeIO) (c : ContextID) (name priv : bytes)
| FApply (io : storeIO) (ctx : option MessageContext)
| FPolicy (now : Z) (io : storeIO) (c : ContextID) (r : bytes) (p : RecipientPolicy)
| FSend (env : sendEnv) (c : ContextID) (pt : bytes) (rs : list bytes)
| FReceive (save : bool) (io : storeIO) (self ct : bytes)
| FRetry (io : storeIO) (outs : nat -> bool) (ios : nat -> storeIO).

Definition fo_step (f : Fanout S D) (o : fo_op) : Fanout S D :=
  match o with
  | FCreate rnd io name priv => (CreateContext rnd io f name priv).1
  | FUpdate io c name priv => (UpdateContext io f c name priv).1
  | FApply io ctx => (ApplyRemoteContext io f ctx).1
  | FPolicy now io c r p => (SetRecipientPolicy now io f c r p).1
  | FSend env c pt rs => (SendMultiMessage env f c pt rs).1.1
  | FReceive save io self ct => (ProcessDelivery save io f self ct).1
  | FRetry io outs ios => (RetryUndelivered io outs ios f).1
  end.

(** No descriptor is lost or gets an older version. *)
Definition versions_le (m m' : contexts_t) : Prop :=
  forall id c, m !! id = Some c -> exists c', m' !! id = Some c' /\ mc_MetadataVersion c <= mc_MetadataVersion c'.

#[export] Instance versions_le_preorder : PreOrder versions_le.
Proof.
  split; [intros m id c H; by exists c|]. intros m1 m2 m3 H1 H2 id c H. destruct (H1 _ _ H) as (c' & H' & Hle).
  destruct (H2 _ _ H') as (c'' & H'' & Hle'). exists c''. split; [done|lia].
Qed.

Context `{MS : !MonotoneStore S}.

Lemma save_versions io s c s' r : SaveContext io s c = (s', r) -> versions_le (cs_contexts s) (cs_contexts s').
Proof.
  intros Hs. destruct (cs_save _ _ _ _ _ Hs) as [_ [Hc|[Hc _]]]; [|by rewrite Hc]. intros id c0 H0.
  destruct (decide (id = mc_ContextID c)) as [->|Hid].
  - destruct (Z.le_gt_cases (mc_MetadataVersion c) (mc_MetadataVersion c0)) as [Hle|Hgt].
    + exists c0. rewrite (cs_save_mono _ _ _ _ _ _ Hs H0 Hle). split; [done|lia].
    + exists c. rewrite Hc, lookup_insert_eq. split; [done|lia].
  - exists c0. by rewrite Hc, lookup_insert_ne.
Qed.

Lemma apply_versions io (f f' : Fanout S D) c r : ApplyRemoteContext io f c = (f', r) ->
  versions_le (cs_contexts (CtxStore f)) (cs_contexts (CtxStore f')).
Proof.
  unfold ApplyRemoteContext. destruct c as [c|]; [|by intros [= <- _]]. destruct (remoteAcceptable f c); [|by intros [= <- _]..].
  destruct (SaveContext io (CtxStore f) c) as [s r'] eqn:Hs. intros [= <- _]. by eapply save_versions.
Qed.

Lemma receive_versions save io (f f' : Fanout S D) self ct r : ProcessDelivery save io f self ct = (f', r) ->
  versions_le (cs_contexts (CtxStore f)) (cs_contexts (CtxStore f')).
Proof.
  unfold ProcessDelivery. destruct (Client_Decrypt _ _ _) as [cl o]. destruct o as [[sender w]|e|]; [|by intros [= <- _]..].
  unfold receiveWrapped. destruct (ParseWrapped w) as [parsed|e|]; [|by intros [= <- _]..].
  destruct (checkBinding _ _ _) as [meta|e|]; [|by intros [= <- _]..]. case_bool_decide; [by intros [= <- _]|].
  unfold resolveContext. cbv zeta. destruct (pd_Context parsed) as [c|].
  - destruct (ApplyRemoteContext _ _ _) as [f2 o] eqn:Ha. apply apply_versions in Ha. cbn in Ha.
    destruct o; [by intros [= <- _]| |by intros [= <- _]]. destruct (LoadContext _ _); by intros [= <- _].
  - destruct (LoadContext _ _); by intros [= <- _].
Qed.

Lemma send_store env (f f' : Fanout S D) c pt rs sent r : SendMultiMessage env f c pt rs = (f', sent, r) -> CtxStore f' = CtxStore f.
Proof.
  unfold SendMultiMessage, dispatch. cbv zeta. intros H.
  repeat (case_match; simplify_eq; try done); match goal with |- context [existsb ?p ?l] => by destruct (existsb p l) end.
Qed.

(** The version of a group's descriptor never goes down.  Through any sequence
    of creating, renaming, learning descriptors from others, receiving, sending
    and setting policies, with writes failing or not, no stored descriptor is
    dropped or replaced by one with a lower version. *)
Theorem descriptor_versions_monotone (f : Fanout S D) (ops : list fo_op) :
  versions_le (cs_contexts (CtxStore f)) (cs_contexts (CtxStore (fold_left fo_step ops f))).
Proof.
  revert f. induction ops as [|o ops IH]; intros f; [done|]. cbn [fold_left]. etrans; [|apply IH]. clear IH ops.
  destruct o as [rnd io name priv|io c name priv|io ctx|now io c r p|env c pt rs|save io self ct|io outs ios]; cbn [fo_step].
  - unfold CreateContext. cbv zeta. destruct (SignContext _ _) as [c|e|]; [|done|done].
    destruct (SaveContext io (CtxStore f) c) as [s r] eqn:Hs. by eapply save_versions.
  - unfold UpdateContext. cbv zeta. destruct (LoadContext _ _) as [st|e|]; [|done|done]. case_match; [done|]. case_match; [done|].
    destruct (SignContext _ _) as [c'|e|]; [|done|done].
    destruct (SaveContext io (CtxStore f) c') as [s r] eqn:Hs. by eapply save_versions.
  - destruct (ApplyRemoteContext io f ctx) as [f' r] eqn:H. by eapply apply_versions.
  - unfold SetRecipientPolicy. destruct (SavePolicy io (CtxStore f) _) as [s q] eqn:Hs. cbn [fst CtxStore set_CtxStore].
    by destruct (cs_savePolicy _ _ _ _ _ Hs) as [-> _].
  - destruct (SendMultiMessage env f c pt rs) as [[f' sent] r] eqn:H. cbn [fst]. by rewrite (send_store _ _ _ _ _ _ _ _ H).
  - destruct (ProcessDelivery save io f self ct) as [f' r] eqn:H. by eapply receive_versions.
  - unfold RetryUndelivered. by destruct (retryLoop _ _ _ _ _ _).
Qed.

End Theorems.
