(* ===== verification/GroupDelivery.v ===== *)
(** * A group message from end to end

    The composition of the fan-out with the session layer: what one client sends
    to a group through its session with another client is what that client
    receives. *)
From S2P Require Import Prelude GoStd Sha256 External SecurePeer SecurePeerFacts Session Engine EngineFacts SessionTheorems Client Frame Binstore Records MultiMsg MultiStore MultiStoreTheorems Fanout FanoutTheorems.
#[local] Open Scope Z_scope.

Section Delivery.
Context `{N : Nanopack} `{NL : !NanopackLaws} `{P : Prims} `{PL : !PrimLaws}.
Context {S D : Type} `{CS : ContextStore S} `{CL : !ContextStoreLaws S} `{DS : DeliveryStore D}.

(** The sender a frame names is the one decryption reports. *)
Lemma Decrypt_sender sp w sp' n pt : Decrypt sp w = (sp', Ok (n, pt)) -> SenderIDFromFrame w = Ok n.
Proof.
  unfold Decrypt, SenderIDFromFrame. destruct (parseSecureMessage w) as [msg|e|]; [|done|done].
  destruct (secureMessageHmacPayload msg) as [canonical|]; [|done]. case_match; [done|]. intros Hd.
  assert (forall (x : res dec_err bytes) q, pair (SenderID msg) <$> x = Ok (n, q) -> SenderID msg = n) as Hf
    by (intros [y|?|] q; [|done|done]; by intros [= <- _]).
  cbn. f_equal. unfold decryptAuth in Hd. cbv zeta in Hd. repeat case_match; try done; injection Hd as _ Hd; by eapply Hf.
Qed.

(** Sending to others leaves a session alone. *)
Lemma sendLoop_heap envs config m ctx c pt t l eff : forall i cl (ds : D) cl' ds' o,
  Forall (fun r => cl_Sessions cl !! r ≠ Some l) eff ->
  sendLoop envs i config m ctx c pt t (cl, ds) eff = ((cl', ds'), Ok o) -> cl_heap cl' !! l = cl_heap cl !! l.
Proof.
  induction eff as [|r eff IH]; intros i cl ds cl' ds' o Hf H; cbn [sendLoop] in H; [by simplify_eq|].
  apply List.Forall_cons_iff in Hf as [Hr Hf].
  destruct (sendOne _ _ _ _ _ _ _ _ _) as [[cl1 ds1] o1] eqn:H1. destruct o1 as [[d res]|e|]; [|done|done].
  destruct (sendLoop _ _ _ _ _ _ _ _ _ _) as [[cl2 ds2] o2] eqn:H2. destruct o2 as [[ds2' rs2]|e|]; [|done|done].
  injection H as <- <- <-. apply sendOne_ok in H1 as (_ & Hs & Hh & _). rewrite (IH _ _ _ _ _ _ ltac:(by rewrite Hs) H2). by apply Hh.
Qed.

(** The delivery made for one recipient of the list. *)
Lemma sendLoop_at envs config m ctx c pt t r l post : forall pre i cl (ds : D) cl' ds' dl rs sp res,
  cl_Sessions cl !! r = Some l -> cl_heap cl !! l = Some sp ->
  Forall (fun q => cl_Sessions cl !! q ≠ Some l) (pre ++ post) ->
  sendLoop envs i config m ctx c pt t (cl, ds) (pre ++ r :: post) = ((cl', ds'), Ok (dl, rs)) ->
  rs !! length pre = Some res -> dr_Status res = DeliverySent ->
  exists sp' ct wrapped, dr_Ciphertext res = Some ct /\
    wrapPayloadV2 (buildDeliveryAAD m (mc_ContextID ctx) (cl_Id cl) r (mc_MetadataVersion ctx)) (Some ctx) pt = Ok wrapped /\
    Encrypt (re_ratchet (envs (i + length pre)%nat)) sp (cl_Id cl) wrapped = (sp', Ok ct) /\ cl_heap cl' !! l = Some sp'.
Proof.
  induction pre as [|q pre IH]; intros i cl ds cl' ds' dl rs sp res Hs Hh Hf H Hres Hst; cbn [app sendLoop] in H.
  - destruct (sendOne _ _ _ _ _ _ _ _ _) as [[cl1 ds1] o1] eqn:H1. destruct o1 as [[d res1]|e|]; [|done|done].
    destruct (sendLoop _ _ _ _ _ _ _ _ _ _) as [[cl2 ds2] o2] eqn:H2. destruct o2 as [[ds2' rs2]|e|]; [|done|done].
    injection H as <- <- <- <-. cbn in Hres. injection Hres as ->.
    unfold sendOne in H1. rewrite Hs, Hh in H1. unfold encryptWithAAD in H1.
    destruct (wrapPayloadV2 _ _ _) as [wrapped|e|] eqn:Hw; [|by injection H1 as <- <- <- <-|done].
    rewrite Nat.add_0_r. destruct (Encrypt _ _ _ _) as [sp' e] eqn:He. destruct e as [ct|e|]; cbn [wrapErr] in H1; [|by injection H1 as <- <- <- <-|done].
    injection H1 as <- <- <- <-. exists sp', ct, wrapped. conjs; try done.
    apply (sendLoop_heap _ _ _ _ _ _ _ l) in H2; [|exact Hf]. rewrite H2. apply lookup_insert_eq.
  - apply List.Forall_cons_iff in Hf as [Hq Hf].
    destruct (sendOne _ _ _ _ _ _ _ _ _) as [[cl1 ds1] o1] eqn:H1. destruct o1 as [[d res1]|e|]; [|done|done].
    destruct (sendLoop _ _ _ _ _ _ _ _ _ _) as [[cl2 ds2] o2] eqn:H2. destruct o2 as [[ds2' rs2]|e|]; [|done|done].
    injection H as <- <- <- <-. apply sendOne_ok in H1 as (Hi & Hse & Hhe & _). cbn in Hres.
    replace (i + length (q :: pre))%nat with (Datatypes.S i + length pre)%nat by (cbn; lia).
    rewrite <- Hi. eapply IH; try done; by rewrite ?Hse, ?Hhe.
Qed.

Lemma SaveClient_heap io c : cl_heap (SaveClient io c) = cl_heap c.
Proof. unfold SaveClient. by repeat case_match. Qed.

Lemma dispatch_keeps env m ctx (f f' : Fanout S D) dl rs sent fr :
  dispatch env m ctx f dl rs = (f', sent, Ok fr) -> fr_Deliveries fr = rs /\ cl_heap (fo_client f') = cl_heap (fo_client f).
Proof.
  unfold dispatch. case_bool_decide; [done|]. cbv zeta. intros Hd.
  assert (forall g, cl_heap (fo_client (if List.existsb (fun r => bool_decide (dr_Status r = DeliverySent)) rs
    then set_client (SaveClient (se_save env) (fo_client g)) g else g : Fanout S D)) = cl_heap (fo_client g)) as Hh.
  { intros g. destruct (existsb _ rs); [|done]. apply SaveClient_heap. }
  destruct (se_relay env) as [outs|].
  - destruct (sendDeliveries _ _ _ _ _) as [[ds2 sent2] r]. injection Hd as <- _ Hr.
    split; [destruct r; [| |done]; by injection Hr as <-|]. apply Hh.
  - injection Hd as <- _ <-. split; [done|]. apply Hh.
Qed.

Lemma checkBinding_self m c a b v : checkBinding b a (mkMeta m c a b v) = Ok (mkMeta m c a b v).
Proof.
  unfold checkBinding. cbn [dm_Sender dm_Recipient dm_MessageID dm_ContextID dm_Version]. rewrite !bytes_eqb_refl, !andb_false_r.
  case_bool_decide as H; [by rewrite H|done].
Qed.

Lemma verify_no_panic c : VerifyContextSignature c ≠ Panic.
Proof.
  unfold VerifyContextSignature, PeerIDToEd25519Pub, check. case_match; [done|].
  destruct (base58_decode _) as [raw|]; cbn; [|done]. case_match; cbn; [done|].
  destruct (signContextPayload c); cbn; [|done]. by case_match.
Qed.

Lemma apply_no_panic io (f f' : Fanout S D) c : ApplyRemoteContext io f c ≠ (f', Panic).
Proof.
  destruct c as [c|]; [|done]. cbn [ApplyRemoteContext]. destruct (remoteAcceptable f c) eqn:Ha; [|done|].
  - destruct (SaveContext io (CtxStore f) c) as [s r] eqn:Hs. destruct r; [done|done|]. by apply cs_save_no_panic in Hs.
  - exfalso. revert Ha. unfold remoteAcceptable. pose proof (verify_no_panic c) as Hv.
    destruct (VerifyContextSignature c); [| |done]; repeat case_match; done.
Qed.

Lemma resolve_ok io (f : Fanout S D) m c : exists f' c', resolveContext io f m c = (f', Ok c') /\
  fo_client f' = fo_client f /\ seenMessages f' = seenMessages f.
Proof.
  destruct (resolveContext io f m c) as [f' r] eqn:H. pose proof (resolveContext_keeps _ _ _ _ _ _ H) as [Hs Hc].
  enough (exists c', r = Ok c') as [c' ->] by (by exists f', c'). clear Hs Hc.
  unfold resolveContext in H. cbv zeta in H. destruct c as [c|].
  - destruct (ApplyRemoteContext io f (Some c)) as [f2 o] eqn:Ha. destruct o as [u|e|].
    + injection H as _ <-. by eexists.
    + rewrite cs_load in H. destruct (_ !! dm_ContextID m); injection H as _ <-; by eexists.
    + by apply apply_no_panic in Ha.
  - rewrite cs_load in H. destruct (_ !! dm_ContextID m); injection H as _ <-; by eexists.
Qed.

(** Which descriptor a delivery is shown under. *)
Lemma resolve_which io (f f' : Fanout S D) m c ctx : resolveContext io f m (Some c) = (f', Ok ctx) -> mc_ContextID c = dm_ContextID m ->
  ctx = Some c \/ ctx = cs_contexts (CtxStore f) !! dm_ContextID m.
Proof.
  intros H Hid. unfold resolveContext in H. cbv zeta in H. cbn [ApplyRemoteContext] in H.
  destruct (remoteAcceptable f c) as [u|e|]; [| |done].
  - destruct (SaveContext io (CtxStore f) c) as [s r] eqn:Hs. apply cs_save in Hs as [_ Hs].
    destruct r as [u'|e|]; cbn [wrapErr] in H; [left; by injection H as <- <-| |done].
    rewrite cs_load in H. cbn [CtxStore set_CtxStore] in H. destruct Hs as [Hs|[Hs _]]; rewrite Hs in H.
    + rewrite <- Hid, lookup_insert_eq in H. left. by injection H as _ <-.
    + right. by destruct (_ !! dm_ContextID m); injection H as _ <-.
  - right. rewrite cs_load in H. by destruct (_ !! dm_ContextID m); injection H as _ <-.
Qed.

(** What the theorem below and those of the front ends rest on. *)
Lemma group_delivery_core env (fa fa' fb : Fanout S D) c pt rs sent fr pre bob post la lb spA spB msgCtx did ct save io :
  let alice := cl_Id (fo_client fa) in
  let msgID := GenerateID (se_msg env) in
  SendMultiMessage env fa c pt rs = (fa', sent, Ok fr) ->
  GetEffectiveRecipients (se_io env) fa c rs = pre ++ bob :: post ->
  fr_Deliveries fr !! length pre = Some (mkResult did bob DeliverySent false (Some ct)) ->
  LoadContext (CtxStore fa) c = Ok msgCtx -> 0 <= mc_MetadataVersion msgCtx < 2 ^ 64 ->
  fits (mc_ContextID msgCtx) -> fits alice -> fits bob -> length (se_msg env) = 16%nat ->
  cl_Sessions (fo_client fa) !! bob = Some la -> cl_heap (fo_client fa) !! la = Some spA ->
  Forall (fun r => cl_Sessions (fo_client fa) !! r ≠ Some la) (pre ++ post) ->
  sessionFor (fo_client fb) alice = Some lb -> cl_heap (fo_client fb) !! lb = Some spB ->
  synced (Net spA spB [] []) -> send_ok (re_ratchet (se_recip env (length pre))) spA ->
  (alice, msgID) ∉ seenMessages fb ->
  exists fb' ctx spA' spB',
    ProcessDelivery save io fb bob ct
      = (fb', Ok (mkInbound alice (mkMeta msgID (mc_ContextID msgCtx) alice bob (mc_MetadataVersion msgCtx)) ctx pt)) /\
    cl_heap (fo_client fa') !! la = Some spA' /\ cl_heap (fo_client fb') !! lb = Some spB' /\
    synced (Net spA' spB' [] []) /\
    (ctx = Some msgCtx \/ ctx = cs_contexts (CtxStore fb) !! mc_ContextID msgCtx).
Proof.
  intros alice msgID Hsend Heff Hres Hload Hver Hfc Hfa Hfb Hmsg Hsa Hha Hna Hsb Hhb Hsync Hok Hnew.
  apply send_inv in Hsend as (msgCtx' & cl & ds & dl & results & Hload' & Hv0 & Hsig & _ & Hloop & Hd).
  rewrite Hload in Hload'. injection Hload' as <-. rewrite Heff in Hloop.
  assert (fr_Deliveries fr = results /\ cl_heap (fo_client fa') = cl_heap cl) as [Hfr Hheap]
    by exact (dispatch_keeps _ _ _ _ _ _ _ _ _ Hd).
  rewrite Hfr in Hres.
  destruct (sendLoop_at _ _ _ _ _ _ _ bob la post pre 0 _ _ _ _ _ _ _ _ Hsa Hha Hna Hloop Hres eq_refl)
    as (spA' & ct' & wrapped & Hct & Hwrap & Henc & HhA). cbn in Hct. injection Hct as <-. cbn [Nat.add] in Henc.
  pose proof (send_a _ _ _ _ _ _ _ _ _ Hok Henc Hsync) as Hsync1. cbn [app] in Hsync1.
  destruct (Decrypt spB ct) as [spB' rB] eqn:Hdec.
  destruct (recv_b (Flight ct (cl_Id (fo_client fa)) wrapped) rB spA' spB spB' [] [] Hdec Hsync1) as [-> Hsync2].
  cbn [fl_name fl_text] in Hdec. apply ParseWrapped_wrap in Hwrap; try done.
  2: { unfold fits, len. unfold GenerateID. rewrite length_hexEncode, Hmsg. lia. }
  destruct (resolve_ok io (set_seenMessages ({[(alice, msgID)]} ∪ seenMessages fb)
    (set_client (SaveClient save (store lb spB' (fo_client fb))) fb))
    (mkMeta msgID (mc_ContextID msgCtx) alice bob (mc_MetadataVersion msgCtx)) (Some msgCtx)) as (fb' & ctx & Hrc & Hcl & _).
  exists fb', ctx, spA', spB'. conjs; [|by rewrite Hheap| |done|by apply resolve_which in Hrc].
  - unfold ProcessDelivery, Client_Decrypt. rewrite (Decrypt_sender _ _ _ _ _ Hdec). fold alice. rewrite Hsb, Hhb, Hdec.
    unfold receiveWrapped. rewrite Hwrap. cbn [pd_Meta pd_Context pd_Plaintext]. rewrite checkBinding_self. cbn [dm_MessageID].
    change (seenMessages (set_client ?x fb)) with (seenMessages fb).
    rewrite bool_decide_eq_false_2 by done. fold alice msgID. by rewrite Hrc.
  - rewrite Hcl. cbn [fo_client set_seenMessages set_client]. rewrite SaveClient_heap. apply lookup_insert_eq.
Qed.

(** C21: A group message arrives as it was sent.  Whenever a client reports a
    group message as sent to a recipient, over a session in step with the
    recipient's, the recipient's processing of that ciphertext succeeds and
    returns the sender, the message ID, the group, the descriptor's version and
    the text; the two sessions are again in step afterwards, so the next message
    arrives as well. *)
Theorem group_delivery_faithful env (fa fa' fb : Fanout S D) c pt rs sent fr pre bob post la lb spA spB msgCtx did ct save io :
  let alice := cl_Id (fo_client fa) in
  let msgID := GenerateID (se_msg env) in
  SendMultiMessage env fa c pt rs = (fa', sent, Ok fr) ->
  GetEffectiveRecipients (se_io env) fa c rs = pre ++ bob :: post ->
  fr_Deliveries fr !! length pre = Some (mkResult did bob DeliverySent false (Some ct)) ->
  LoadContext (CtxStore fa) c = Ok msgCtx -> 0 <= mc_MetadataVersion msgCtx < 2 ^ 64 ->
  fits (mc_ContextID msgCtx) -> fits alice -> fits bob -> length (se_msg env) = 16%nat ->
  cl_Sessions (fo_client fa) !! bob = Some la -> cl_heap (fo_client fa) !! la = Some spA ->
  Forall (fun r => cl_Sessions (fo_client fa) !! r ≠ Some la) (pre ++ post) ->
  sessionFor (fo_client fb) alice = Some lb -> cl_heap (fo_client fb) !! lb = Some spB ->
  synced (Net spA spB [] []) -> send_ok (re_ratchet (se_recip env (length pre))) spA ->
  (alice, msgID) ∉ seenMessages fb ->
  exists fb' ctx spA' spB',
    ProcessDelivery save io fb bob ct
      = (fb', Ok (mkInbound alice (mkMeta msgID (mc_ContextID msgCtx) alice bob (mc_MetadataVersion msgCtx)) ctx pt)) /\
    cl_heap (fo_client fa') !! la = Some spA' /\ cl_heap (fo_client fb') !! lb = Some spB' /\
    synced (Net spA' spB' [] []).
Proof.
  intros alice msgID H1 H2 H3 H4 H5 H6 H7 H8 H9 H10 H11 H12 H13 H14 H15 H16 H17.
  destruct (group_delivery_core env fa fa' fb c pt rs sent fr pre bob post la lb spA spB msgCtx did ct save io H1 H2 H3 H4 H5 H6 H7 H8 H9 H10 H11 H12 H13 H14 H15 H16 H17)
    as (fb' & ctx & spA' & spB' & ? & ? & ? & ? & _). by exists fb', ctx, spA', spB'.
Qed.

End Delivery.

(** ** Concrete runs

    Two clients over the sessions of [SessionTheorems], a group of which one
    member is reachable, one has no session yet and one is blocked. *)
Abbreviation demoFanout := (Fanout Memory.MemoryContextStore deliveries_t).

Definition groupStore : Memory.MemoryContextStore :=
  Memory.mkStore {[str "g1" := demoContext]}
    {[str "g1" := {[str "eve" := mkPolicy (str "g1") (str "eve") PolicyBlocked 1]}]}.

Definition clientOf (id peer : bytes) (sp : SecurePeer) : Client :=
  mkClient id (demoBytes 64 x41) [] [] [] {[peer := 0%nat]} true {[0%nat := sp]} 1%nat None.

Definition aliceFo : demoFanout := NewFanout (clientOf demoCreator (str "bo") demoA) groupStore noDeliveries DefaultFanoutConfig.
Definition bobFo : demoFanout := NewFanout (clientOf (str "bo") demoCreator demoB) Memory.NewMemoryContextStore noDeliveries DefaultFanoutConfig.

Definition demoSend : sendEnv :=
  mkSendEnv demoIO (demoBytes 16 x21) 77 (fun i => mkRecipEnv [byteZ (Z.of_nat i)] (demoBytes 32 x22) demoIO) true None (fun _ => demoIO).

Definition demoGroup : list bytes := [str "eve"; str "ca"; str "bo"].

Definition demoResult : FanoutResult := Eval vm_compute in
  match (SendMultiMessage demoSend aliceFo (str "g1") (str "hi") demoGroup).2 with Ok r => r | _ => mkFanoutResult [] [] zeroContext [] 0 end.

Definition demoCt : bytes := Eval vm_compute in
  match fr_Deliveries demoResult !! 1%nat with Some (mkResult _ _ _ _ (Some ct)) => ct | _ => [] end.

Lemma triple_result {A B C} (x : A * B * C) b c : x.1.2 = b -> x.2 = c -> x = (x.1.1, b, c).
Proof. by intros <- <-; destruct x as [[? ?] ?]. Qed.

Lemma demoSend_eq : SendMultiMessage demoSend aliceFo (str "g1") (str "hi") demoGroup
  = ((SendMultiMessage demoSend aliceFo (str "g1") (str "hi") demoGroup).1.1, [], Ok demoResult).
Proof. apply triple_result; vm_compute; reflexivity. Qed.

Lemma groupStore_keyed : pol_keyed (cs_policies (CtxStore aliceFo)).
Proof.
  intros c r p H. change (polAt {[str "g1" := {[str "eve" := mkPolicy (str "g1") (str "eve") PolicyBlocked 1]}]} c r = Some p) in H.
  unfold polAt in H. destruct (decide (c = str "g1")) as [->|Hc]; [|by rewrite lookup_singleton_ne in H].
  rewrite lookup_singleton_eq in H. cbn [mbind option_bind] in H.
  destruct (decide (r = str "eve")) as [->|Hr]; [|by rewrite lookup_singleton_ne in H]. rewrite lookup_singleton_eq in H. by injection H as <-.
Qed.

Lemma effective_recipients_spec_witness :
  GetEffectiveRecipients demoIO aliceFo (str "g1") demoGroup
  = List.filter (fun r => negb (bool_decide (GetRecipientPolicy aliceFo (str "g1") r ∈ [PolicyBlocked; PolicyExcluded]))) demoGroup.
Proof. apply (effective_recipients_spec demoIO aliceFo (str "g1") demoGroup demoIO_range groupStore_keyed). Defined.

Lemma send_reports_every_recipient_witness :
  dr_Recipient <$> fr_Deliveries demoResult = [str "ca"; str "bo"] /\
  Forall (sound (cl_Sessions (fo_client aliceFo)) DefaultFanoutConfig) (fr_Deliveries demoResult).
Proof.
  destruct (send_reports_every_recipient _ _ _ _ _ _ _ _ demoSend_eq) as (_ & H1 & H2 & _).
  split; [rewrite H1; vm_compute; reflexivity|exact H2].
Defined.

Lemma group_delivery_faithful_witness : exists fb' ctx,
  ProcessDelivery true demoIO bobFo (str "bo") demoCt
  = (fb', Ok (mkInbound demoCreator (mkMeta (GenerateID (demoBytes 16 x21)) (str "g1") demoCreator (str "bo") 3) ctx (str "hi"))).
Proof.
  destruct (group_delivery_faithful demoSend aliceFo _ bobFo (str "g1") (str "hi") demoGroup [] demoResult [str "ca"] (str "bo") []
    0%nat 0%nat demoA demoB demoContext (GenerateID [byteZ 1]) demoCt true demoIO demoSend_eq) as (fb' & ctx & spA' & spB' & H & _).
  - vm_compute. reflexivity.
  - vm_compute. reflexivity.
  - vm_compute. reflexivity.
  - split; vm_compute; [discriminate|reflexivity].
  - vm_compute. discriminate.
  - vm_compute. discriminate.
  - vm_compute. discriminate.
  - reflexivity.
  - vm_compute. reflexivity.
  - reflexivity.
  - apply List.Forall_cons; [vm_compute; discriminate|apply List.Forall_nil].
  - vm_compute. reflexivity.
  - reflexivity.
  - exact demo_synced.
  - split; [reflexivity|]. split; [vm_compute; discriminate|vm_compute; reflexivity].
  - apply not_elem_of_empty.
  - exists fb', ctx. exact H.
Defined.

Lemma pending_deliveries_lost_witness :
  exists f' fr, SendMultiMessage demoSend aliceFo (str "g1") (str "hi") [str "ca"] = (f', [], Ok fr) /\
    Forall (fun r => dr_Status r = DeliveryPending) (fr_Deliveries fr) /\ fo_deliveryStore f' = noDeliveries.
Proof.
  destruct (SendMultiMessage demoSend aliceFo (str "g1") (str "hi") [str "ca"]) as [[f' sent] r] eqn:H.
  assert (isOk r = true) as Hr.
  { change r with (f', sent, r).2. rewrite <- H. vm_compute. reflexivity. }
  destruct r as [fr|e|]; [|discriminate|discriminate].
  destruct (pending_deliveries_lost _ _ _ _ _ _ _ _ H) as (H1 & H2 & -> & _).
  - reflexivity.
  - assert (GetEffectiveRecipients (se_io demoSend) aliceFo (str "g1") [str "ca"] = [str "ca"]) as -> by (vm_compute; reflexivity).
    apply List.Forall_cons; [vm_compute; reflexivity|apply List.Forall_nil].
  - exists f', fr. split; [reflexivity|]. split; [exact H1|exact H2].
Defined.

Definition mallory : bytes := demoBytes 64 x4d.
Definition forged : MessageContext := Eval vm_compute in
  match SignContext (mkContext (str "g1") (str "mine") 4 (DerivePeerID (ed25519_public mallory) [x4d]) []) mallory with
  | Ok c => c | _ => zeroContext end.

Lemma foreign_creator_takes_over_witness :
  cs_contexts (CtxStore (ApplyRemoteContext demoIO aliceFo (Some forged)).1) !! str "g1" = Some forged /\
  mc_CreatorID forged ≠ mc_CreatorID demoContext.
Proof.
  split; [|vm_compute; discriminate].
  destruct (foreign_creator_takes_over demoIO demoIO aliceFo (ApplyRemoteContext demoIO aliceFo (Some forged)).1 demoContext (str "mine")
    mallory [x4d] forged demoContext (ApplyRemoteContext demoIO aliceFo (Some forged)).2) as (H & _).
  - reflexivity.
  - split; vm_compute; [discriminate|reflexivity].
  - reflexivity.
  - vm_compute. reflexivity.
  - apply surjective_pairing.
  - exact H.
Defined.

Lemma received_once_and_bound_witness :
  length (processAll (str "bo") bobFo [(true, demoIO, demoCt); (true, demoIO, demoCt)]).2 = 1%nat /\
  NoDup (messageKey <$> (processAll (str "bo") bobFo [(true, demoIO, demoCt); (true, demoIO, demoCt)]).2).
Proof.
  pose proof (received_once_and_bound (str "bo") bobFo [(true, demoIO, demoCt); (true, demoIO, demoCt)]) as H.
  split; [vm_compute; reflexivity|]. destruct (processAll _ _ _) as [f' ms]. exact (proj1 H).
Defined.

Definition fileFo : Fanout File.FileContextStore deliveries_t :=
  NewFanout (clientOf demoCreator (str "bo") demoA) demoFileStore noDeliveries DefaultFanoutConfig.

Lemma descriptor_versions_monotone_witness :
  versions_le (cs_contexts (CtxStore fileFo)) (cs_contexts (CtxStore (fold_left fo_step [FApply demoIO (Some forged)] fileFo))).
Proof. apply (descriptor_versions_monotone fileFo [FApply demoIO (Some forged)]). Defined.
