(* ===== verification/Mailbox.v ===== *)
(** * The mailbox ([internal/mailbox/store.go])

    Conversations per identity, keyed by peer ID or by [ctx:<context id>], saved
    as one flat list of message records after every change.  Map iteration order
    and write faults are arguments of the operations that meet them. *)
From S2P Require Import Prelude GoStd External Binstore Records MultiStore.
#[local] Open Scope Z_scope.

Module Mailbox.

Definition schemaID : byte := byteZ 41.
Definition groupPrefix : bytes := str "ctx:".

(** [Direction] and [Kind] are strings. *)
Definition Incoming : bytes := str "in".
Definition Outgoing : bytes := str "out".
Definition Direct : bytes := str "dm".
Definition Group : bytes := str "group".

Record Message := mkMessage {
  m_ID : bytes; m_Direction : bytes; m_Kind : bytes; m_Body : bytes; m_Timestamp : Z; m_IsRead : bool;
  m_Sender : bytes; m_ContextID : bytes; m_ContextName : bytes;
}.

Record Thread := mkThread { t_Key : bytes; t_Title : bytes; t_Messages : list Message }.

Definition unread (t : Thread) : Z :=
  fold_left (fun n m => if m_IsRead m then n else i64 (n + 1)) (t_Messages t) 0.

Definition lastActivity (t : Thread) : Z :=
  match list.last (t_Messages t) with Some m => m_Timestamp m | None => 0 end.

(** ** Records *)
Record messageBin := mkBin {
  b_ThreadKey : bytes; b_ID : bytes; b_Direction : byte; b_Kind : byte; b_IsRead : byte; b_Body : bytes;
  b_Sender : bytes; b_ContextID : bytes; b_ContextName : bytes; b_Timestamp : Z;
}.

Definition messageBin_MarshalBinID (m : messageBin) : fields :=
  [(x01, b_ThreadKey m); (x02, b_ID m); (x03, [b_Direction m]); (x04, [b_Kind m]); (x05, [b_IsRead m]); (x06, b_Body m);
   (x07, b_Sender m); (x08, b_ContextID m); (x09, b_ContextName m); (x0a, putU64 (b_Timestamp m))].

Definition messageBin_field (m : messageBin) (f : byte * bytes) : messageBin :=
  let '(mkBin k i d n r b s c x t) := m in
  match f.1 with
  | x01 => mkBin f.2 i d n r b s c x t
  | x02 => mkBin k f.2 d n r b s c x t
  | x03 => match f.2 with [d] => mkBin k i d n r b s c x t | _ => m end
  | x04 => match f.2 with [n] => mkBin k i d n r b s c x t | _ => m end
  | x05 => match f.2 with [r] => mkBin k i d n r b s c x t | _ => m end
  | x06 => mkBin k i d n r f.2 s c x t
  | x07 => mkBin k i d n r b f.2 c x t
  | x08 => mkBin k i d n r b s f.2 x t
  | x09 => mkBin k i d n r b s c f.2 t
  | x0a => if len f.2 =? 8 then mkBin k i d n r b s c x (unbe f.2) else m
  | _ => m
  end.

Definition messageBin_UnmarshalBinID (fs : fields) (m : messageBin) : messageBin := fold_left messageBin_field fs m.

#[export] Instance message_record : BinRecord messageBin := {|
  br_marshal := messageBin_MarshalBinID; br_field := messageBin_field;
  br_zero := mkBin [] [] x00 x00 x00 [] [] [] [] 0 |}.

Definition toBin (threadKey : bytes) (m : Message) : messageBin :=
  mkBin threadKey (m_ID m) (if bytes_eqb (m_Direction m) Outgoing then x01 else x00)
    (if bytes_eqb (m_Kind m) Group then x01 else x00) (if m_IsRead m then x01 else x00)
    (m_Body m) (m_Sender m) (m_ContextID m) (m_ContextName m) (u64 (m_Timestamp m)).

Definition fromBin (b : messageBin) : Message :=
  mkMessage (b_ID b) (if bool_decide (b_Direction b = x01) then Outgoing else Incoming)
    (if bool_decide (b_Kind b = x01) then Group else Direct) (b_Body b) (i64 (b_Timestamp b)) (bool_decide (b_IsRead b = x01))
    (b_Sender b) (b_ContextID b) (b_ContextName b).

Definition fileFor (identityID : bytes) : path := identityID ++ str ".mailbox.np".
Definition legacyFileFor (identityID : bytes) : path := identityID ++ str ".mailbox.json".

(** ** The store *)
Abbreviation threads_t := (gmap bytes Thread).

Record Store := mkStore { file : path; threads : threads_t; disk : fs }.

Definition IsGroupKey (key : bytes) : bool := hasPrefix groupPrefix key.
Definition isGroupThread (key : bytes) : bool := IsGroupKey key.
Definition groupKey (contextID : bytes) : bytes := str "ctx:" ++ contextID.
Definition GroupKey (contextID : bytes) : bytes := groupKey contextID.

Definition insert (ts : threads_t) (key : bytes) (msg : Message) : threads_t :=
  let t := default (mkThread key [] []) (ts !! key) in
  let title := if (bool_decide (t_Title t = []) && negb (bool_decide (m_ContextName msg = [])) && isGroupThread key)%bool
               then m_ContextName msg else t_Title t in
  <[key := mkThread (t_Key t) title (t_Messages t ++ [msg])]> ts.

(** [sort.Slice]: most recent activity first, then by key. *)
Definition moreRecent (a b : Thread) : Prop :=
  lastActivity b < lastActivity a \/ (lastActivity a = lastActivity b /\ bytes_le (t_Key a) (t_Key b)).

#[export] Instance moreRecent_dec : RelDecision moreRecent.
Proof. intros a b. unfold moreRecent. apply _. Defined.

Definition byActivity (l : list Thread) : list Thread := merge_sort moreRecent l.

Inductive mailbox_err := MbMarshal | MbStore (e : store_err) | MbParse | MbNoConversation | MbAmbiguousName (n : Z) | MbAmbiguousPrefix (n : Z).

Section Mailbox.
Context `{N : Nanopack} `{R : RecordStore}.
Context (json_threads : bytes -> option (list Thread)).

Definition threadRecords (t : Thread) : list messageBin := toBin (t_Key t) <$> t_Messages t.

Definition saveLocked (io : storeIO) (s : Store) : Store * res mailbox_err unit :=
  let ordered := byActivity (io_range io (threads s)).*2 in
  match toRecords (mjoin (threadRecords <$> ordered)) with
  | None => (s, Err MbMarshal)
  | Some records =>
      let '(d, r) := rs_save (io_first io) (file s) schemaID records (disk s) in
      (mkStore (file s) (threads s) d, wrapErr MbStore r)
  end.

Definition loadBin (ts : threads_t) (b : messageBin) : threads_t :=
  if bool_decide (b_ThreadKey b = []) then ts else insert ts (b_ThreadKey b) (fromBin b).

Definition loadThread (ts : threads_t) (t : Thread) : threads_t :=
  if bool_decide (t_Key t = []) then ts else <[t_Key t := t]> ts.

Definition Load (io : storeIO) (identityID : bytes) (d : fs) : res mailbox_err Store :=
  match rs_load (fileFor identityID) schemaID d with
  | Ok records => Ok (mkStore (fileFor identityID) (fold_left loadBin (omap fromRecord records) ∅) d)
  | Panic => Panic
  | Err StNotExist =>
      match d !! legacyFileFor identityID with
      | None => Ok (mkStore (fileFor identityID) ∅ d)
      | Some data =>
          match json_threads data with
          | None => Err MbParse
          | Some l =>
              match saveLocked io (mkStore (fileFor identityID) (fold_left loadThread l ∅) d) with
              | (s, Panic) => Panic
              | (s, _) => Ok s
              end
          end
      end
  | Err e => Err (MbStore e)
  end.

(** [nanos] and [millis] are the two readings of the clock. *)
Definition appendDefaults (nanos millis : Z) (m : Message) : Message :=
  mkMessage (if bool_decide (m_ID m = []) then dec nanos else m_ID m) (m_Direction m) (m_Kind m) (m_Body m)
    (if m_Timestamp m =? 0 then millis else m_Timestamp m)
    (if bytes_eqb (m_Direction m) Outgoing then true else m_IsRead m) (m_Sender m) (m_ContextID m) (m_ContextName m).

Definition append (io : storeIO) (nanos millis : Z) (s : Store) (key title : bytes) (msg : Message) : Store * res mailbox_err unit :=
  let t := default (mkThread key [] []) (threads s !! key) in
  let t := mkThread (t_Key t) (if bool_decide (title = []) then t_Title t else title)
             (t_Messages t ++ [appendDefaults nanos millis msg]) in
  saveLocked io (mkStore (file s) (<[key := t]> (threads s)) (disk s)).

Definition AppendIncoming io nanos millis s (peer body : bytes) : Store * res mailbox_err unit :=
  append io nanos millis s peer [] (mkMessage [] Incoming Direct body 0 false [] [] []).
Definition AppendOutgoing io nanos millis s (peer body : bytes) : Store * res mailbox_err unit :=
  append io nanos millis s peer [] (mkMessage [] Outgoing Direct body 0 false [] [] []).
Definition AppendGroupIncoming io nanos millis s (contextID contextName sender body : bytes) : Store * res mailbox_err unit :=
  append io nanos millis s (groupKey contextID) contextName (mkMessage [] Incoming Group body 0 false sender contextID contextName).
Definition AppendGroupOutgoing io nanos millis s (contextID contextName body : bytes) : Store * res mailbox_err unit :=
  append io nanos millis s (groupKey contextID) contextName (mkMessage [] Outgoing Group body 0 false (str "Me") contextID contextName).

Definition Get (s : Store) (key : bytes) : option Thread := threads s !! key.

Definition threadTitleLocked (t : Thread) : bytes :=
  if negb (bool_decide (t_Title t = [])) then t_Title t
  else match List.find (fun m => negb (bool_decide (m_ContextName m = []))) (t_Messages t) with
       | Some m => m_ContextName m
       | None => []
       end.

Definition lowerASCII (s : bytes) : bytes :=
  (fun b => if ((65 <=? Zb b) && (Zb b <=? 90))%bool then byteZ (Zb b + 32) else b) <$> s.

Definition stripRef (arg : bytes) : bytes :=
  match cutPrefix (str "group:") arg with
  | Some rest => rest
  | None => match cutPrefix (str "ctx:") arg with Some rest => rest | None => arg end
  end.

(** The threads whose context ID starts with the reference. *)
Definition prefixMatch (ref : bytes) (t : Thread) : bool :=
  (IsGroupKey (t_Key t) && negb (bool_decide (ref = [])) && hasPrefix ref (drop 4 (t_Key t)))%bool.

Definition titleMatch (ref : bytes) (t : Thread) : bool :=
  (IsGroupKey (t_Key t) && negb (bool_decide (threadTitleLocked t = [])) &&
   bytes_eqb (lowerASCII (threadTitleLocked t)) (lowerASCII ref))%bool.

Definition ResolveThread (io : storeIO) (s : Store) (arg : bytes) : res mailbox_err bytes :=
  let ref := stripRef arg in
  let scan :=
    let all := (io_range io (threads s)).*2 in
    let titleMatches := t_Key <$> List.filter (titleMatch ref) all in
    let idPrefixMatches := t_Key <$> List.filter (prefixMatch ref) all in
    match titleMatches, idPrefixMatches with
    | [k], _ => Ok k
    | _ :: _ :: _, _ => Err (MbAmbiguousName (len titleMatches))
    | [], [k] => Ok k
    | [], _ :: _ :: _ => Err (MbAmbiguousPrefix (len idPrefixMatches))
    | [], [] => Err MbNoConversation
    end in
  match threads s !! groupKey ref with
  | Some t => if IsGroupKey (t_Key t) then Ok (t_Key t) else scan
  | None => scan
  end.

Definition List_ (io : storeIO) (s : Store) : list Thread := byActivity (io_range io (threads s)).*2.

Definition markRead (m : Message) : Message :=
  mkMessage (m_ID m) (m_Direction m) (m_Kind m) (m_Body m) (m_Timestamp m) true (m_Sender m) (m_ContextID m) (m_ContextName m).

(** The messages are returned as they were, even when saving fails. *)
Definition Read (io : storeIO) (s : Store) (key : bytes) : Store * option (list Message) * res mailbox_err unit :=
  match threads s !! key with
  | None => (s, None, Err MbNoConversation)
  | Some t =>
      let out := t_Messages t in
      if List.existsb (fun m => negb (m_IsRead m)) out then
        let s := mkStore (file s) (<[key := mkThread (t_Key t) (t_Title t) (markRead <$> out)]> (threads s)) (disk s) in
        let '(s, r) := saveLocked io s in (s, Some out, r)
      else (s, Some out, Ok tt)
  end.

Definition UnreadTotal (io : storeIO) (s : Store) : Z :=
  fold_left (fun n t => i64 (n + unread t)) (io_range io (threads s)).*2 0.

End Mailbox.
End Mailbox.
