(* ===== verification/MailboxTheorems.v ===== *)
(** * What the mailbox guarantees

    Reloading, reading, and name resolution. *)
From S2P Require Import Prelude GoStd External Binstore Records MultiStore MultiStoreTheorems Mailbox.
Import Mailbox.
#[local] Open Scope Z_scope.

(** ** Records *)
#[export] Instance message_record_laws : BinRecordLaws messageBin.
Proof.
  refine {| br_ok b := 0 <= b_Timestamp b < 2 ^ 64 |}. intros [k i d n r b s c x t] Ht. cbn in Ht.
  unfold br_marshal, br_field, br_zero, message_record, messageBin_MarshalBinID.
  cbn [fold_left b_ThreadKey b_ID b_Direction b_Kind b_IsRead b_Body b_Sender b_ContextID b_ContextName b_Timestamp messageBin_field fst snd].
  by rewrite len_putU64, unbe_putU64, u64_small.
Defined.

(** The messages the program makes. *)
Definition msg_ok (m : Message) : Prop :=
  (m_Direction m = Incoming \/ m_Direction m = Outgoing) /\ (m_Kind m = Direct \/ m_Kind m = Group) /\
  - 2 ^ 63 <= m_Timestamp m < 2 ^ 63.

Lemma fromBin_toBin k m : msg_ok m -> fromBin (toBin k m) = m.
Proof.
  intros (Hd & Hk & Ht). destruct m as [i d n b t r s c x]. unfold fromBin, toBin. cbn in *. rewrite i64_u64 by done.
  destruct Hd as [-> | ->], Hk as [-> | ->], r; reflexivity.
Qed.

Lemma toBin_ok k m : br_ok (toBin k m).
Proof. cbn. apply u64_range. Qed.

(** ** Threads *)
Definition msgsAt (ts : threads_t) (k : bytes) : list Message := match ts !! k with Some t => t_Messages t | None => [] end.

(** The title a reload gives a thread: the first name its messages carry. *)
Definition titleOf (k : bytes) (l : list Message) : bytes :=
  if isGroupThread k then
    match List.find (fun m => negb (bool_decide (m_ContextName m = []))) l with Some m => m_ContextName m | None => [] end
  else [].

Definition restored (ts : threads_t) : Prop :=
  map_Forall (fun k t => t_Key t = k /\ t_Title t = titleOf k (t_Messages t) /\ t_Messages t ≠ []) ts.

Lemma msgsAt_insert ts k m k' : msgsAt (insert ts k m) k' = msgsAt ts k' ++ (if bool_decide (k = k') then [m] else []).
Proof.
  unfold msgsAt, insert. destruct (decide (k = k')) as [->|Hk].
  - rewrite lookup_insert_eq, (bool_decide_eq_true_2 (k' = k')) by done. by destruct (ts !! k') as [t|].
  - rewrite lookup_insert_ne, (bool_decide_eq_false_2 (k = k')) by done. by rewrite app_nil_r.
Qed.

Lemma find_snoc {A} (p : A -> bool) l x :
  List.find p (l ++ [x]) = match List.find p l with Some y => Some y | None => if p x then Some x else None end.
Proof. induction l as [|y l IH]; [done|]. cbn. by destruct (p y). Qed.

Lemma restored_insert ts k m : restored ts -> restored (insert ts k m).
Proof.
  intros H. unfold insert. apply map_Forall_insert_2; [|done]. cbn [t_Key t_Title t_Messages].
  assert (t_Key (default (mkThread k [] []) (ts !! k)) = k /\
    t_Title (default (mkThread k [] []) (ts !! k)) = titleOf k (t_Messages (default (mkThread k [] []) (ts !! k)))) as [Hk Ht].
  { destruct (ts !! k) as [t|] eqn:Hl; [by destruct (H _ _ Hl) as (? & ? & _)|]. cbn. split; [done|]. unfold titleOf. by case_match. }
  split; [done|]. split; [|by destruct (t_Messages _)]. rewrite Ht. unfold titleOf. rewrite find_snoc.
  destruct (isGroupThread k); cbn [andb]; [|by rewrite andb_false_r].
  rewrite andb_true_r. destruct (List.find _ (t_Messages _)) as [y|] eqn:Hf.
  - apply find_some in Hf as [_ Hf]. destruct (bool_decide (m_ContextName y = [])) eqn:He; [done|done].
  - rewrite bool_decide_eq_true_2 by done. cbn [andb]. by destruct (negb _).
Qed.

Lemma loadBin_fold l : forall ts, restored ts ->
  restored (fold_left loadBin l ts) /\
  forall k, k ≠ [] -> msgsAt (fold_left loadBin l ts) k
    = msgsAt ts k ++ omap (fun b => if bool_decide (b_ThreadKey b = k) then Some (fromBin b) else None) l.
Proof.
  induction l as [|b l IH]; intros ts Hr; [split; [done|]; intros k _; by rewrite app_nil_r|].
  cbn [fold_left]. unfold loadBin at 2 4. destruct (bool_decide (b_ThreadKey b = [])) eqn:Hb.
  - destruct (IH ts Hr) as [H1 H2]. split; [done|]. intros k Hk. rewrite H2 by done. f_equal. cbn [omap list_omap].
    apply bool_decide_eq_true in Hb. by rewrite bool_decide_eq_false_2 by congruence.
  - destruct (IH (insert ts (b_ThreadKey b) (fromBin b)) (restored_insert _ _ _ Hr)) as [H1 H2]. split; [done|].
    intros k Hk. rewrite H2, msgsAt_insert, <- app_assoc by done. f_equal.
    change (omap ?f (b :: l)) with (match f b with Some y => y :: omap f l | None => omap f l end).
    cbv beta. by destruct (bool_decide (b_ThreadKey b = k)).
Qed.

(** The messages of one thread, picked out of the whole stream of records. *)
Definition select (k : bytes) (l : list messageBin) : list Message :=
  omap (fun b => if bool_decide (b_ThreadKey b = k) then Some (fromBin b) else None) l.

Lemma select_same k ms : Forall msg_ok ms -> select k (toBin k <$> ms) = ms.
Proof.
  induction ms as [|m ms IH]; intros Hm; [done|]. apply List.Forall_cons_iff in Hm as [Hm Hms]. unfold select.
  rewrite fmap_cons. cbn [omap list_omap]. rewrite bool_decide_eq_true_2 by done. by rewrite fromBin_toBin; [f_equal; apply IH|].
Qed.

Lemma select_other k k' ms : k ≠ k' -> select k (toBin k' <$> ms) = [].
Proof.
  intros Hk. induction ms as [|m ms IH]; [done|]. unfold select. rewrite fmap_cons. cbn [omap list_omap].
  rewrite bool_decide_eq_false_2 by (cbn; congruence). apply IH.
Qed.

Lemma select_cons k t l : select k (mjoin (threadRecords <$> t :: l)) = select k (threadRecords t) ++ select k (mjoin (threadRecords <$> l)).
Proof. apply omap_app. Qed.

Lemma select_none (l : list Thread) k : k ∉ (t_Key <$> l) -> select k (mjoin (threadRecords <$> l)) = [].
Proof.
  induction l as [|t l IH]; intros Hk; [done|]. rewrite fmap_cons, not_elem_of_cons in Hk. destruct Hk as [Hk1 Hk2].
  rewrite select_cons, (IH Hk2), app_nil_r. by apply select_other.
Qed.

Lemma select_thread (l : list Thread) t :
  NoDup (t_Key <$> l) -> t ∈ l -> Forall (fun t => Forall msg_ok (t_Messages t)) l ->
  select (t_Key t) (mjoin (threadRecords <$> l)) = t_Messages t.
Proof.
  induction l as [|t0 l IH]; intros Hn Hin Hm; [by apply not_elem_of_nil in Hin|]. apply List.Forall_cons_iff in Hm as [Hm0 Hm].
  rewrite fmap_cons in Hn. apply list.NoDup_cons in Hn as [Hnin Hn]. rewrite select_cons. apply elem_of_cons in Hin as [->|Hin].
  - unfold threadRecords at 1. rewrite select_same, (select_none l) by done. apply app_nil_r.
  - unfold threadRecords at 1. rewrite select_other; [by apply IH|]. intros Heq. apply Hnin. rewrite <- Heq. by apply list_elem_of_fmap_2.
Qed.

(** ** Use of a mailbox *)
Inductive mb_op :=
| MIncoming (peer body : bytes) | MOutgoing (peer body : bytes)
| MGroupIncoming (c n s b : bytes) | MGroupOutgoing (c n b : bytes) | MRead (key : bytes).

(** What the runtime supplies to an operation: iteration order, faults, clocks. *)
Record mb_env := mkMbEnv { me_io : storeIO; me_nanos : Z; me_millis : Z }.

Definition mb_op_ok (o : mb_env * mb_op) : Prop :=
  - 2 ^ 63 <= me_millis o.1 < 2 ^ 63 /\
  match o.2 with MIncoming p _ | MOutgoing p _ => p ≠ [] | _ => True end.

Section Use.
Context `{N : Nanopack} `{NL : !NanopackLaws} `{R : RecordStore} `{RL : !RecordStoreLaws}.

Definition mb_step (s : Store) (o : mb_env * mb_op) : Store :=
  let '(mkMbEnv io n m) := o.1 in
  match o.2 with
  | MIncoming p b => (AppendIncoming io n m s p b).1
  | MOutgoing p b => (AppendOutgoing io n m s p b).1
  | MGroupIncoming c nm sd b => (AppendGroupIncoming io n m s c nm sd b).1
  | MGroupOutgoing c nm b => (AppendGroupOutgoing io n m s c nm b).1
  | MRead k => (Read io s k).1.1
  end.

(** Threads under their own nonempty key, each with messages the program makes. *)
Definition mb_ok (s : Store) : Prop :=
  map_Forall (fun k t => t_Key t = k /\ k ≠ [] /\ t_Messages t ≠ [] /\ Forall msg_ok (t_Messages t)) (threads s).

Lemma save_keeps io s s' r : saveLocked io s = (s', r) -> threads s' = threads s /\ file s' = file s.
Proof. unfold saveLocked. cbv zeta. repeat case_match; intros [= <- <-]; by simplify_eq. Qed.

Lemma appendDefaults_ok n m msg : - 2 ^ 63 <= m < 2 ^ 63 -> msg_ok msg -> msg_ok (appendDefaults n m msg).
Proof. intros Hm (Hd & Hk & Ht). unfold appendDefaults, msg_ok. cbn [m_Direction m_Kind m_Timestamp]. split; [done|]. split; [done|]. by destruct (m_Timestamp msg =? 0). Qed.

Lemma append_ok io n m s key title msg s' r : key ≠ [] -> msg_ok (appendDefaults n m msg) -> mb_ok s ->
  append io n m s key title msg = (s', r) -> mb_ok s' /\ file s' = file s.
Proof.
  intros Hk Hmsg Hs H. unfold append in H. cbv zeta in H. apply save_keeps in H as [Ht Hf]. unfold mb_ok. rewrite Ht, Hf.
  split; [|done]. cbn [threads]. apply map_Forall_insert_2; [|done]. cbn [t_Key t_Messages].
  assert (Forall msg_ok (t_Messages (default (mkThread key [] []) (threads s !! key))) /\ t_Key (default (mkThread key [] []) (threads s !! key)) = key) as [Hf1 Hf2].
  { destruct (threads s !! key) as [t|] eqn:Hl; [|done]. by destruct (Hs _ _ Hl) as (? & _ & _ & ?). }
  conjs; [done|done|by destruct (t_Messages _)|]. apply Forall_app. split; [done|]. by constructor.
Qed.

Lemma markRead_ok l : Forall msg_ok l -> Forall msg_ok (markRead <$> l).
Proof. intros H. apply Forall_fmap. eapply List.Forall_impl; [|exact H]. by intros m (? & ? & ?). Qed.

Lemma mb_step_ok s o : mb_op_ok o -> mb_ok s -> mb_ok (mb_step s o) /\ file (mb_step s o) = file s.
Proof.
  intros [Hm Ho] Hs. destruct o as [[io n m] o]. cbn [fst snd me_millis mb_step] in *.
  destruct o as [p b|p b|c nm sd b|c nm b|k].
  1-4: match goal with |- context [(?f.1)] => destruct f as [s' r] eqn:He end; cbn [fst];
    unfold AppendIncoming, AppendOutgoing, AppendGroupIncoming, AppendGroupOutgoing in He; eapply append_ok; [| |exact Hs|exact He]; [done|]; apply appendDefaults_ok; [exact Hm|]; unfold msg_ok; cbn; auto with lia.
  unfold Read. destruct (threads s !! k) as [t|] eqn:Hl; [|done]. cbv zeta. case_match; [|done].
  destruct (saveLocked _ _) as [s' r] eqn:He. cbn [fst]. apply save_keeps in He as [Ht Hf]. unfold mb_ok. rewrite Ht, Hf. split; [|done].
  destruct (Hs _ _ Hl) as (Hk & Hk' & Hne & Hmsg). cbn [threads]. apply map_Forall_insert_2; [|done]. cbn [t_Key t_Messages].
  conjs; [done|done| |by apply markRead_ok]. by destruct (t_Messages t).
Qed.

Lemma mb_steps_ok ops : forall s, Forall mb_op_ok ops -> mb_ok s -> mb_ok (fold_left mb_step ops s) /\ file (fold_left mb_step ops s) = file s.
Proof.
  induction ops as [|o ops IH]; intros s Ho Hs; [done|]. apply List.Forall_cons_iff in Ho as [H Ho].
  destruct (mb_step_ok _ _ H Hs) as [H1 H2]. destruct (IH _ Ho H1) as [H3 H4]. split; [done|]. cbn [fold_left]. by rewrite H4.
Qed.

(** The stream of records of a well-formed store, in any order. *)
Lemma stream_select io s k : range_ok io -> mb_ok s ->
  select k (mjoin (threadRecords <$> byActivity (io_range io (threads s)).*2)) = msgsAt (threads s) k.
Proof.
  intros Hio Hs. assert (byActivity (io_range io (threads s)).*2 ≡ₚ (map_to_list (threads s)).*2) as Hp.
  { unfold byActivity. by rewrite merge_sort_Permutation, (Hio _ (threads s)). }
  assert (t_Key <$> (map_to_list (threads s)).*2 = (map_to_list (threads s)).*1) as Hkeys.
  { rewrite <- list_fmap_compose. apply list_fmap_ext. intros i [k' t] Hi. cbn.
    apply list_elem_of_lookup_2, elem_of_map_to_list in Hi. by destruct (Hs _ _ Hi). }
  unfold msgsAt. destruct (threads s !! k) as [t|] eqn:Hl.
  - destruct (Hs _ _ Hl) as (<- & _). apply select_thread.
    + rewrite Hp, Hkeys. apply NoDup_fst_map_to_list.
    + rewrite Hp. apply list_elem_of_fmap. exists (t_Key t, t). split; [done|]. by apply elem_of_map_to_list.
    + apply List.Forall_forall. intros t' Hin. apply list_elem_of_In in Hin. rewrite Hp in Hin.
      apply list_elem_of_fmap in Hin as ([k' t''] & -> & Hin). apply elem_of_map_to_list in Hin. by destruct (Hs _ _ Hin) as (_ & _ & _ & ?).
  - apply select_none. rewrite Hp, Hkeys. intros Hin. apply list_elem_of_fmap in Hin as ([k' t] & -> & Hin).
    apply elem_of_map_to_list in Hin. cbn in Hl. congruence.
Qed.

(** What was saved is loaded again. *)
Lemma mailbox_save_load (json : bytes -> option (list Thread)) (id : bytes) (io io' : storeIO) (s s' : Store) :
  mb_ok s -> file s = fileFor id -> range_ok io ->
  (forall l, toRecords (mjoin (threadRecords <$> byActivity (io_range io (threads s)).*2)) = Some l -> storable l) ->
  saveLocked io s = (s', Ok tt) ->
  exists s2, Load json io' id (disk s') = Ok s2 /\
    (forall k, t_Messages <$> threads s2 !! k = t_Messages <$> threads s !! k) /\
    map_Forall (fun k t => t_Key t = k /\ t_Title t = titleOf k (t_Messages t)) (threads s2).
Proof.
  intros Hok Hfile Hio Hst Hsave. unfold saveLocked in Hsave. cbv zeta in Hsave.
  destruct (toRecords _) as [recs|] eqn:Hr; [|done]. rewrite Hfile in Hsave.
  destruct (rs_save _ _ _ recs _) as [d' r] eqn:Hd. injection Hsave as <- Hw. destruct r as [[]|e|]; [|done|done].
  cbn [disk]. eexists. split; [unfold Load; rewrite (rs_load_save _ _ _ _ _ _ (Hst _ eq_refl) Hd); reflexivity|]. cbn [threads].
  rewrite (fromRecords_to (mjoin (threadRecords <$> byActivity (io_range io (threads s)).*2)) recs); [| |done].
  2: { apply List.Forall_forall. intros b Hb. apply list_elem_of_In, list_elem_of_join in Hb as (l & Hb & Hl).
       apply list_elem_of_fmap in Hl as (t & -> & _). apply list_elem_of_fmap in Hb as (m & -> & _). apply toBin_ok. }
  destruct (loadBin_fold (mjoin (threadRecords <$> byActivity (io_range io (threads s)).*2)) ∅) as [Hres Hm]; [apply map_Forall_empty|].
  set (ts := fold_left loadBin _ ∅) in *. split.
  - intros k. destruct (decide (k = [])) as [->|Hk].
    { assert (threads s !! [] = None) as -> by (apply eq_None_not_Some; intros [t Ht]; by destruct (Hok _ _ Ht) as (_ & ? & _)).
      assert (ts !! [] = None) as ->; [|done]. subst ts. clear. assert ((∅ : threads_t) !! [] = None) as H by apply lookup_empty. revert H. generalize (∅ : threads_t).
      induction (mjoin _) as [|b l IH]; intros ts Hts; [done|]. cbn [fold_left]. apply IH. unfold loadBin. case_bool_decide as Hb; [done|].
      unfold insert. by rewrite lookup_insert_ne by congruence. }
    specialize (Hm k Hk). fold (select k (mjoin (threadRecords <$> byActivity (io_range io (threads s)).*2))) in Hm.
    rewrite stream_select in Hm by done. unfold msgsAt in Hm. rewrite lookup_empty in Hm. cbn [app] in Hm.
    destruct (ts !! k) as [t2|] eqn:H2, (threads s !! k) as [t|] eqn:H1; cbn; try done; [by f_equal| |].
    + by destruct (Hres _ _ H2) as (_ & _ & ?).
    + exfalso. destruct (Hok _ _ H1) as (_ & _ & Hne & _). by apply Hne.
  - intros k t Ht. by destruct (Hres _ _ Ht) as (? & ? & _).
Qed.

(** A mailbox survives a restart.  After any use of a fresh mailbox (messages
    in and out, direct and to groups, reads), once a save succeeds, loading gives
    every conversation with exactly the same messages in the same order, read
    marks included.  A conversation's title is not saved: it comes back as the
    first group name its messages carry, whatever it was renamed to since. *)
Theorem mailbox_reload (json : bytes -> option (list Thread)) (id : bytes) (d : fs) (ops : list (mb_env * mb_op)) (io io' : storeIO) (s s' : Store) :
  Forall mb_op_ok ops -> range_ok io -> s = fold_left mb_step ops (mkStore (fileFor id) ∅ d) ->
  (forall l, toRecords (mjoin (threadRecords <$> byActivity (io_range io (threads s)).*2)) = Some l -> storable l) ->
  saveLocked io s = (s', Ok tt) ->
  exists s2, Load json io' id (disk s') = Ok s2 /\
    (forall k, t_Messages <$> threads s2 !! k = t_Messages <$> threads s !! k) /\
    map_Forall (fun k t => t_Key t = k /\ t_Title t = titleOf k (t_Messages t)) (threads s2).
Proof.
  intros Ho Hio Hs Hst Hsave. destruct (mb_steps_ok ops (mkStore (fileFor id) ∅ d) Ho) as [Hok Hfile]; [apply map_Forall_empty|].
  rewrite <- Hs in Hok, Hfile. by apply (mailbox_save_load json id io io' s s').
Qed.

(** Reading a conversation returns its messages with the marks they had, marks
    every one of them read and changes no other conversation, whether or not the
    new state can be written; reading it again reports nothing new and writes
    nothing. *)
Theorem read_marks_everything (io io' : storeIO) (s s' : Store) key out r :
  Read io s key = (s', Some out, r) ->
  exists t t', threads s !! key = Some t /\ out = t_Messages t /\ threads s' !! key = Some t' /\
    t_Messages t' = markRead <$> out /\ t_Title t' = t_Title t /\ unread t' = 0 /\
    (forall k, k ≠ key -> threads s' !! k = threads s !! k) /\
    Read io' s' key = (s', Some (markRead <$> out), Ok tt).
Proof.
  unfold Read at 1. intros H. destruct (threads s !! key) as [t|] eqn:Hl; [|done]. cbv zeta in H.
  assert (forall l, List.existsb (fun m => negb (m_IsRead m)) l = false -> markRead <$> l = l) as Hfix.
  { intros l. induction l as [|m l IH]; [done|]. cbn. intros Hx. apply orb_false_iff in Hx as [Hm Hx]. rewrite IH by done. f_equal.
    destruct m as [? ? ? ? ? rd ? ? ?]. cbn in Hm. by destruct rd. }
  assert (forall l : list Message, List.existsb (fun m => negb (m_IsRead m)) (markRead <$> l) = false) as Hread
    by (induction l; [done|by cbn]).
  assert (forall k ti (l : list Message), unread (mkThread k ti (markRead <$> l)) = 0) as Hun.
  { intros k ti l. unfold unread. cbn [t_Messages]. induction l as [|m l IH]; [done|]. cbn. apply IH. }
  assert (forall k ti (l : list Message), (forall s2 : Store, threads s2 !! key = Some (mkThread k ti (markRead <$> l)) ->
    Read io' s2 key = (s2, Some (markRead <$> l), Ok tt))) as Hagain.
  { intros k ti l s2 H2. unfold Read. rewrite H2. cbn [t_Messages]. by rewrite Hread. }
  destruct t as [k ti ms]. cbn [t_Messages t_Key t_Title] in *. destruct (List.existsb _ ms) eqn:Hx.
  - destruct (saveLocked _ _) as [s1 r1] eqn:Hs. injection H as <- <- _. apply save_keeps in Hs as [Ht _]. cbn [threads] in Ht.
    exists (mkThread k ti ms), (mkThread k ti (markRead <$> ms)). rewrite Ht. conjs; try done; [by rewrite lookup_insert_eq| |].
    + intros k' Hk. by rewrite lookup_insert_ne.
    + apply (Hagain k ti). rewrite Ht. apply lookup_insert_eq.
  - injection H as <- <- _. exists (mkThread k ti ms), (mkThread k ti ms).
    rewrite (Hfix ms Hx). conjs; try done; [rewrite <- (Hfix ms Hx); apply Hun|].
    unfold Read. rewrite Hl. cbn [t_Messages]. by rewrite Hx.
Qed.

End Use.

(** ** Resolving a reference *)
Lemma perm_short {A} (l l' : list A) : l ≡ₚ l' ->
  match l with [x] => l' = [x] | [] => l' = [] | _ => exists y z t, l' = y :: z :: t /\ len l' = len l end.
Proof.
  intros H. destruct l as [|x [|y l]].
  - by apply Permutation_nil_l in H.
  - symmetry in H. by apply Permutation_singleton_r in H.
  - pose proof (Permutation_length H) as Hl. destruct l' as [|a [|b l']]; [done|done|]. exists a, b, l'. split; [done|]. unfold len. lia.
Qed.

Lemma filter_perm {A} (p : A -> bool) (l l' : list A) : l ≡ₚ l' -> List.filter p l ≡ₚ List.filter p l'.
Proof. induction 1 as [|x l l' _ IH|x y l|l l' l'' _ IH1 _ IH2]; cbn; repeat case_match; try done; [by constructor|by constructor|by rewrite IH1]. Qed.

(** The outcome as a function of the matches, whatever their order. *)
Definition choose (titleMatches idPrefixMatches : list bytes) : res mailbox_err bytes :=
  match titleMatches, idPrefixMatches with
  | [k], _ => Ok k
  | _ :: _ :: _, _ => Err (MbAmbiguousName (len titleMatches))
  | [], [k] => Ok k
  | [], _ :: _ :: _ => Err (MbAmbiguousPrefix (len idPrefixMatches))
  | [], [] => Err MbNoConversation
  end.

#[export] Instance choose_proper : Proper (Permutation ==> Permutation ==> (=)) choose.
Proof.
  intros l1 l2 Hl m1 m2 Hm. apply perm_short in Hl, Hm. unfold choose.
  destruct l1 as [|x [|y l1]]; [| by subst|].
  - subst. destruct m1 as [|x [|y m1]]; [by subst|by subst|]. destruct Hm as (a & b & t & -> & Hlen). by rewrite Hlen.
  - destruct Hl as (a & b & t & -> & Hlen). by rewrite Hlen.
Qed.

(** Resolving a typed reference does not depend on the order the runtime
    iterates the conversations in, and what it returns is the key of an existing
    group conversation: the one with that context ID, else the only one with
    that name, else the only one whose context ID starts with it. *)
Theorem resolve_thread_sound (io io' : storeIO) (s : Store) (arg k : bytes) :
  range_ok io -> range_ok io' -> mb_ok s ->
  ResolveThread io s arg = ResolveThread io' s arg /\
  (ResolveThread io s arg = Ok k ->
    exists t, threads s !! k = Some t /\ IsGroupKey k = true /\
      (k = groupKey (stripRef arg) \/ titleMatch (stripRef arg) t = true \/ prefixMatch (stripRef arg) t = true)).
Proof.
  intros Hio Hio' Hs.
  assert (forall i, range_ok i -> (io_range i (threads s)).*2 ≡ₚ (map_to_list (threads s)).*2) as Hp
    by (intros i Hi; by rewrite (Hi _ (threads s))).
  assert (forall (i : storeIO) (p : Thread -> bool), range_ok i ->
    t_Key <$> List.filter p (io_range i (threads s)).*2 ≡ₚ t_Key <$> List.filter p (map_to_list (threads s)).*2) as Hf
    by (intros i p Hi; by rewrite (filter_perm p _ _ (Hp i Hi))).
  assert (forall i, range_ok i -> ResolveThread i s arg = match threads s !! groupKey (stripRef arg) with
    | Some t => if IsGroupKey (t_Key t) then Ok (t_Key t) else
        choose (t_Key <$> List.filter (titleMatch (stripRef arg)) (map_to_list (threads s)).*2) (t_Key <$> List.filter (prefixMatch (stripRef arg)) (map_to_list (threads s)).*2)
    | None => choose (t_Key <$> List.filter (titleMatch (stripRef arg)) (map_to_list (threads s)).*2) (t_Key <$> List.filter (prefixMatch (stripRef arg)) (map_to_list (threads s)).*2) end) as Heq.
  { intros i Hi. rewrite <- (choose_proper _ _ (Hf i (titleMatch (stripRef arg)) Hi) _ _ (Hf i (prefixMatch (stripRef arg)) Hi)). reflexivity. }
  rewrite (Heq io), (Heq io') by done. split; [done|].
  assert (forall p, k ∈ t_Key <$> List.filter p (map_to_list (threads s)).*2 -> exists t, threads s !! k = Some t /\ p t = true) as Hmem.
  { intros p Hin. apply list_elem_of_fmap in Hin as (t & -> & Hin). apply list_elem_of_In, filter_In in Hin as [Hin Hpt].
    apply list_elem_of_In, list_elem_of_fmap in Hin as ([k' t'] & -> & Hin). apply elem_of_map_to_list in Hin. destruct (Hs _ _ Hin) as (Hk & _).
    exists t'. cbn in *. by rewrite Hk. }
  assert (choose (t_Key <$> List.filter (titleMatch (stripRef arg)) (map_to_list (threads s)).*2)
    (t_Key <$> List.filter (prefixMatch (stripRef arg)) (map_to_list (threads s)).*2) = Ok k ->
    exists t, threads s !! k = Some t /\ (titleMatch (stripRef arg) t = true \/ prefixMatch (stripRef arg) t = true)) as Hch.
  { unfold choose. destruct (t_Key <$> List.filter (titleMatch _) _) as [|a [|b l]] eqn:H1; [| |done].
    - destruct (t_Key <$> List.filter (prefixMatch _) _) as [|a [|b l]] eqn:H2; [done| |done]. intros [= ->].
      destruct (Hmem (prefixMatch (stripRef arg))) as (t & Ht & Hb); [rewrite H2; left|]. eauto.
    - intros [= ->]. destruct (Hmem (titleMatch (stripRef arg))) as (t & Ht & Hb); [rewrite H1; left|]. eauto. }
  assert (choose (t_Key <$> List.filter (titleMatch (stripRef arg)) (map_to_list (threads s)).*2)
    (t_Key <$> List.filter (prefixMatch (stripRef arg)) (map_to_list (threads s)).*2) = Ok k -> 
    exists t, threads s !! k = Some t /\ IsGroupKey k = true /\
      (k = groupKey (stripRef arg) \/ titleMatch (stripRef arg) t = true \/ prefixMatch (stripRef arg) t = true)) as Hfin.
  { intros Hc. destruct (Hch Hc) as (t & Ht & Hor). exists t. destruct (Hs _ _ Ht) as (Hk & _). conjs; [done| |by right].
    unfold titleMatch, prefixMatch in Hor. destruct Hor; bool_prop; congruence. }
  destruct (threads s !! groupKey (stripRef arg)) as [t|] eqn:Hl; [|done]. destruct (IsGroupKey (t_Key t)) eqn:Hg; [|done].
  intros [= <-]. destruct (Hs _ _ Hl) as (Hk & _). rewrite Hk in Hg |- *. exists t. auto.
Qed.

(** ** Concrete mailboxes *)
Definition mbEnv : mb_env := mkMbEnv demoIO 5 9.

Definition mbOps : list (mb_env * mb_op) :=
  [(mbEnv, MIncoming (str "bo") (str "hi")); (mbEnv, MGroupIncoming (str "g1") (str "old") (str "ca") (str "x"));
   (mbEnv, MGroupIncoming (str "g1") (str "new") (str "ca") (str "y")); (mbEnv, MRead (str "bo"))].

Definition demoMailbox : Store := fold_left mb_step mbOps (mkStore (fileFor (str "al")) ∅ ∅).

Lemma mbOps_ok : Forall mb_op_ok mbOps.
Proof. unfold mbOps. do 4 (apply List.Forall_cons; [split; [split; vm_compute; [discriminate|reflexivity]|vm_compute; (discriminate || exact I)]|]). apply List.Forall_nil. Qed.

(** The renamed group has its new title in memory and its old one after a reload. *)
Example title_reverts :
  t_Title <$> threads demoMailbox !! groupKey (str "g1") = Some (str "new") /\
  titleOf (groupKey (str "g1")) (msgsAt (threads demoMailbox) (groupKey (str "g1"))) = str "old".
Proof. split; vm_compute; reflexivity. Qed.

Lemma mailbox_reload_witness : exists s2,
  Load (fun _ => None) demoIO (str "al") (disk (saveLocked demoIO demoMailbox).1) = Ok s2 /\
  (forall k, t_Messages <$> threads s2 !! k = t_Messages <$> threads demoMailbox !! k) /\
  map_Forall (fun k t => t_Key t = k /\ t_Title t = titleOf k (t_Messages t)) (threads s2).
Proof.
  eapply (mailbox_reload (fun _ => None) (str "al") ∅ mbOps demoIO demoIO demoMailbox).
  - exact mbOps_ok.
  - exact demoIO_range.
  - reflexivity.
  - intros l H. vm_compute in H. injection H as <-. split; vm_compute; discriminate.
  - apply pair_result. vm_compute. reflexivity.
Defined.

Lemma read_marks_everything_witness : exists (s' : Store) (out : list Message) (t' : Thread),
  threads s' !! groupKey (str "g1") = Some t' /\ unread t' = 0 /\ length out = 2%nat.
Proof.
  destruct (Read demoIO demoMailbox (groupKey (str "g1"))) as [[s' o] r] eqn:H.
  assert (length <$> o = Some 2%nat) as Ho by (change o with (s', o, r).1.2; rewrite <- H; vm_compute; reflexivity).
  destruct o as [out|]; [|discriminate]. injection Ho as Ho.
  destruct (read_marks_everything demoIO demoIO _ _ _ _ _ H) as (t & t' & _ & _ & H1 & _ & _ & H2 & _).
  exists s', out, t'. split; [exact H1|]. split; [exact H2|exact Ho].
Defined.

Lemma resolve_thread_sound_witness : exists t,
  threads demoMailbox !! groupKey (str "g1") = Some t /\ IsGroupKey (groupKey (str "g1")) = true.
Proof.
  destruct (resolve_thread_sound demoIO demoIO demoMailbox (str "group:g1") (groupKey (str "g1"))) as [_ H].
  - exact demoIO_range.
  - exact demoIO_range.
  - apply (mb_steps_ok mbOps); [exact mbOps_ok|apply map_Forall_empty].
  - destruct H as (t & H1 & H2 & _); [vm_compute; reflexivity|]. exists t. split; [exact H1|exact H2].
Defined.
