(* ===== verification/MailboxSaved.v ===== *)
(** * A message that was appended is on disk

    A mailbox of less than 2 GiB can be written; without a fault of the file
    system appending a message succeeds, and loading the file gives the mailbox
    with the message. *)
From S2P Require Import Prelude GoStd External Binstore Records MultiStore MultiStoreTheorems Mailbox MailboxTheorems.
Import Mailbox.
#[local] Open Scope Z_scope.

(** ** How large a mailbox is *)

(** A bound on a record: the fields, and what each costs beside its data. *)
Definition binSize (b : messageBin) : nat :=
  256 + length (b_ThreadKey b) + length (b_ID b) + length (b_Body b) + length (b_Sender b) + length (b_ContextID b) + length (b_ContextName b).

Definition threadSize (t : Thread) : nat := sum_list_with binSize (threadRecords t).

Definition mailboxSize (ts : threads_t) : nat := sum_list_with threadSize (map_to_list ts).*2.

Lemma sum_join {A B} (f : B -> nat) (g : A -> list B) l : sum_list_with f (mjoin (g <$> l)) = sum_list_with (fun a => sum_list_with f (g a)) l.
Proof.
  induction l as [|a l IH]; [done|]. change (mjoin (g <$> a :: l)) with (g a ++ mjoin (g <$> l)). rewrite sum_list_with_app, IH. done.
Qed.

Lemma mailboxSize_insert (ts : threads_t) k t' : let t := default (mkThread k [] []) (ts !! k) in
  (mailboxSize (<[k := t']> ts) + threadSize t = mailboxSize ts + threadSize t')%nat.
Proof.
  unfold mailboxSize. destruct (ts !! k) as [t|] eqn:Hl; cbn [default].
  - rewrite <- insert_delete_eq. rewrite (map_to_list_insert (delete k ts) k t') by apply lookup_delete_eq.
    rewrite <- (map_to_list_delete ts k t Hl). cbn. lia.
  - rewrite (map_to_list_insert ts k t' Hl). cbn. lia.
Qed.

Section Saved.
Context `{N : Nanopack} `{NL : !NanopackLaws} `{NS : !NanopackSize} `{R : RecordStore} `{RL : !RecordStoreLaws}.

Lemma toRecord_fits (b : messageBin) : Z.of_nat (binSize b) < 2 ^ 31 -> exists r, toRecord b = Some r /\ len r <= Z.of_nat (binSize b).
Proof.
  intros Hb. unfold binSize in *. destruct (np_encode_total (br_marshal b)) as [r Hr].
  - cbn. lia.
  - cbn [br_marshal message_record messageBin_MarshalBinID]. repeat constructor; cbn [snd]; rewrite ?len_putU64; unfold len; cbn [length]; lia.
  - exists r. split; [done|]. apply np_encode_size in Hr. cbn [br_marshal message_record messageBin_MarshalBinID foldr snd] in Hr.
    rewrite len_putU64 in Hr. unfold len in *. cbn [length] in *. lia.
Qed.

Lemma toRecords_fit (l : list messageBin) : Z.of_nat (sum_list_with binSize l) < 2 ^ 31 -> exists recs, toRecords l = Some recs /\
  len (mjoin recs) <= Z.of_nat (sum_list_with binSize l) /\ 256 * len recs <= Z.of_nat (sum_list_with binSize l).
Proof.
  induction l as [|b l IH]; intros Hl; [by exists []|]. cbn [sum_list_with] in Hl.
  destruct (toRecord_fits b) as (r & Hr & Hlen); [lia|]. destruct IH as (recs & Hrs & H1 & H2); [lia|]. exists (r :: recs).
  cbn [toRecords sum_list_with]. rewrite Hr, Hrs. cbn [mbind option_bind]. split; [done|]. assert (256 <= Z.of_nat (binSize b)) by (unfold binSize; lia).
  change (mjoin (r :: recs)) with (r ++ mjoin recs). unfold len in *. rewrite length_app. cbn [length]. lia.
Qed.

Lemma stream_fits (io : storeIO) (ts : threads_t) : range_ok io -> Z.of_nat (mailboxSize ts) < 2 ^ 31 ->
  exists recs, toRecords (mjoin (threadRecords <$> byActivity (io_range io ts).*2)) = Some recs /\ storable recs.
Proof.
  intros Hio Hs. assert (sum_list_with binSize (mjoin (threadRecords <$> byActivity (io_range io ts).*2)) = mailboxSize ts) as E.
  { rewrite sum_join. unfold mailboxSize, byActivity. by rewrite merge_sort_Permutation, (Hio _ ts). }
  destruct (toRecords_fit (mjoin (threadRecords <$> byActivity (io_range io ts).*2))) as (recs & Hr & H1 & H2); [by rewrite E|].
  exists recs. split; [done|]. rewrite E in *. unfold storable, maxAlloc, len in *. lia.
Qed.

(** What the mailbox file of an identity holds. *)
Definition stored (id : bytes) (d : fs) (ts : threads_t) : Prop :=
  forall json io, exists s, Load json io id d = Ok s /\ forall k, msgsAt (threads s) k = msgsAt ts k.

(** What comes of writing a mailbox: the file holds it, or a write failed and the
    file is what it was. *)
Definition written (id : bytes) (io : storeIO) (before : fs) (s' : Store) (r : res mailbox_err unit) : Prop :=
  match r with
  | Ok _ => stored id (disk s') (threads s')
  | Err e => io_first io ≠ noFaults /\ (exists e', e = MbStore e') /\ disk s' !! fileFor id = before !! fileFor id
  | Panic => False
  end.

Lemma saveLocked_written (io : storeIO) id s s' r : range_ok io -> mb_ok s -> file s = fileFor id -> Z.of_nat (mailboxSize (threads s)) < 2 ^ 31 ->
  saveLocked io s = (s', r) -> threads s' = threads s /\ file s' = file s /\ written id io (disk s) s' r.
Proof.
  intros Hio Hok Hf Hsz H. destruct (save_keeps _ _ _ _ H) as [Ht Hf']. split; [done|]. split; [done|]. destruct (stream_fits io (threads s) Hio Hsz) as (recs & Hr & Hst).
  destruct r as [[]|e|]; cbn [written].
  - intros json io'. destruct (mailbox_save_load json id io io' s s' Hok Hf Hio) as (s2 & Hl & Hm & _); [|done|].
    + intros l Hl. rewrite Hr in Hl. by injection Hl as <-.
    + exists s2. split; [done|]. intros k. specialize (Hm k). rewrite Ht. unfold msgsAt. by destruct (threads s2 !! k), (threads s !! k); cbn in Hm; simplify_eq.
  - unfold saveLocked in H. cbv zeta in H. rewrite Hr, Hf in H. destruct (rs_save _ _ _ _ _) as [d o] eqn:Hs. injection H as <- Ho. cbn [disk].
    destruct o as [u|e0|]; [done| |done]. injection Ho as <-. split.
    + intros Hn. rewrite Hn in Hs. destruct (rs_save_ok (fileFor id) schemaID recs (disk s)) as [d' Hd]. congruence.
    + split; [by eexists|]. by apply rs_save_fail in Hs.
  - unfold saveLocked in H. cbv zeta in H. rewrite Hr in H. destruct (rs_save _ _ _ _ _) as [d o] eqn:Hs. injection H as _ Ho.
    destruct o; [done|done|]. by apply rs_save_no_panic in Hs.
Qed.

(** A message can be stored in a thread: the mailbox is one the program makes, the
    runtime visits all of it, and there is room for the message. *)
Record can_store (id : bytes) (io : storeIO) (s : Store) (key : bytes) (msg : Message) : Prop := {
  cs_file : file s = fileFor id;
  cs_mailbox : mb_ok s;
  cs_order : range_ok io;
  cs_key : key ≠ [];
  cs_message : msg_ok msg;
  cs_room : Z.of_nat (mailboxSize (threads s) + binSize (toBin key msg)) < 2 ^ 31;
}.

Lemma append_written (io : storeIO) n m id s key title msg s' r :
  can_store id io s key (appendDefaults n m msg) -> append io n m s key title msg = (s', r) ->
  mb_ok s' /\ file s' = file s /\ written id io (disk s) s' r /\
  forall k, msgsAt (threads s') k = msgsAt (threads s) k ++ (if bool_decide (k = key) then [appendDefaults n m msg] else []).
Proof.
  intros [Hf Hok Hio Hk Hmsg Hroom] H. destruct (append_ok _ _ _ _ _ _ _ _ _ Hk Hmsg Hok H) as [Hok' Hf']. split; [done|]. split; [done|].
  unfold append in H. cbv zeta in H. set (t := default (mkThread key [] []) (threads s !! key)) in *.
  assert (t_Key t = key) as Hkey by (unfold t; destruct (threads s !! key) as [t0|] eqn:Hl; [by destruct (Hok _ _ Hl)|done]).
  match type of H with saveLocked _ ?s0 = _ => destruct (saveLocked_written io id s0 s' r Hio) as (Ht & _ & Hw) end; try done.
  - pose proof (save_keeps _ _ _ _ H) as [Ht _]. unfold mb_ok in *. by rewrite Ht in Hok'.
  - cbn [threads]. match goal with |- context [<[key := ?t']> _] => pose proof (mailboxSize_insert (threads s) key t') as Hsz; cbv zeta in Hsz end.
    fold t in Hsz. unfold threadSize, threadRecords in Hsz. cbn [t_Key t_Messages] in Hsz. rewrite Hkey, fmap_app, sum_list_with_app in Hsz.
    change (toBin key <$> [appendDefaults n m msg]) with [toBin key (appendDefaults n m msg)] in Hsz. cbn [sum_list_with] in Hsz. rewrite Hkey. lia.
  - split; [done|]. intros k. rewrite Ht. cbn [threads]. unfold msgsAt. destruct (bool_decide (k = key)) eqn:Hb.
    + apply bool_decide_eq_true in Hb as ->. rewrite lookup_insert_eq. cbn [t_Messages]. f_equal. unfold t. by destruct (threads s !! key).
    + apply bool_decide_eq_false in Hb. by rewrite lookup_insert_ne, app_nil_r by done.
Qed.

End Saved.
