(* ===== verification/Dispatch.v ===== *)
(** * Receiving ([internal/dispatch/dispatch.go])

    The one path every inbound frame takes: unwrap, run the protocol step,
    persist, report an event.  The client is the one inside the fan-out, as
    [OpenDeps] wires it; the mailbox and the fan-out may be missing.  Sending a
    reply is the caller's callback: its outcome is an argument and what it was
    given is a result. *)
From S2P Require Import Prelude GoStd Sha256 External SecurePeer Session Engine Client Frame Binstore Records MultiMsg MultiStore Fanout Mailbox.
#[local] Open Scope Z_scope.

(** [utf8.Valid] *)
Fixpoint utf8Valid (s : bytes) : bool :=
  match s with
  | [] => true
  | b0 :: t =>
      let z := Zb b0 in
      if z <? 0x80 then utf8Valid t
      else if ((0xC2 <=? z) && (z <=? 0xDF))%bool then
        match t with b1 :: t1 => (contByte 0x80 0xBF b1 && utf8Valid t1)%bool | _ => false end
      else if ((0xE0 <=? z) && (z <=? 0xEF))%bool then
        match t with
        | b1 :: b2 :: t2 =>
            (contByte (if z =? 0xE0 then 0xA0 else 0x80) (if z =? 0xED then 0x9F else 0xBF) b1
             && contByte 0x80 0xBF b2 && utf8Valid t2)%bool
        | _ => false
        end
      else if ((0xF0 <=? z) && (z <=? 0xF4))%bool then
        match t with
        | b1 :: b2 :: b3 :: t3 =>
            (contByte (if z =? 0xF0 then 0x90 else 0x80) (if z =? 0xF4 then 0x8F else 0xBF) b1
             && contByte 0x80 0xBF b2 && contByte 0x80 0xBF b3 && utf8Valid t3)%bool
        | _ => false
        end
      else false
  end.

Record Action := mkAction { ac_Type : bytes; ac_Peer : bytes; ac_Pubkey : bytes }.

Record Event := mkEvent {
  ev_Type : bytes; ev_Peer : bytes; ev_Sender : bytes; ev_Encoding : bytes; ev_Message : bytes; ev_Context : bytes;
  ev_Actions : list Action; ev_Pubkey : bytes; ev_ContextID : bytes; ev_MessageID : bytes;
}.

Inductive dp_err :=
| DpUnwrap (e : frame_error) | DpUnknownType (t : byte) | DpDecodeOffer (e : eng_err) | DpAccept (e : client_err) | DpNoSender
| DpSendAnswer | DpFinish (e : client_err) | DpReplay | DpDecrypt (e : client_err) | DpStore (e : Mailbox.mailbox_err)
| DpNoFanout | DpGroup (e : fo_err).

(** What one dispatch draws from its surroundings. *)
Record dispatchEnv := mkDispatchEnv {
  de_save : bool;            (* writing the client succeeds *)
  de_rand : PeerRand;
  de_encaps : bytes;
  de_send : option bool;     (* no callback, or its outcome *)
  de_io : storeIO;
  de_mbio : storeIO;
  de_nanos : Z;
  de_millis : Z;
}.

(** A reply handed to the callback: key, type, payload. *)
Abbreviation reply := (bytes * byte * bytes)%type.

(** How a text is shown. *)
Definition shown (plaintext : bytes) : bytes * bytes :=
  if utf8Valid plaintext then (plaintext, str "utf-8") else (b64Encode plaintext, str "base64").

Section Dispatch.
Context `{N : Nanopack} `{P : Prims} `{J : LegacyJSON} `{R : RecordStore} {S D : Type} `{CS : ContextStore S} `{DS : DeliveryStore D}.
(** [err.Error()] *)
Context (errorText : dp_err -> bytes).

(** [Deps] with the client it shares. *)
Record Deps := mkDeps { dp_fanout : Fanout S D; dp_hasFanout : bool; dp_mailbox : option Mailbox.Store }.

Definition dp_client (d : Deps) : Client := fo_client (dp_fanout d).
Definition set_dpClient (c : Client) (d : Deps) : Deps := mkDeps (set_client c (dp_fanout d)) (dp_hasFanout d) (dp_mailbox d).
Definition set_dpMailbox (m : Mailbox.Store) (d : Deps) : Deps := mkDeps (dp_fanout d) (dp_hasFanout d) (Some m).

Definition handleOffer (env : dispatchEnv) (d : Deps) (data : bytes) : Deps * list reply * res dp_err (option Event) :=
  match decodeOffer data with
  | Panic => (d, [], Panic)
  | Err e => (d, [], Err (DpDecodeOffer e))
  | Ok offer =>
      let '(cl, r) := Client_AcceptOffer (de_save env) (de_rand env) (de_encaps env) (dp_client d) data in
      let d := set_dpClient cl d in
      match r with
      | Panic => (d, [], Panic)
      | Err e => (d, [], Err (DpAccept e))
      | Ok answerBytes =>
          match de_send env with
          | None => (d, [], Err DpNoSender)
          | Some ok =>
              let sent := [(of_IdPub offer, TypeAnswer, answerBytes)] in
              if negb ok then (d, sent, Err DpSendAnswer) else
              let peer := of_SenderId offer in
              let pubHex := hexEncode (of_IdPub offer) in
              (d, sent, Ok (Some (mkEvent (str "offer") peer [] [] [] [] [mkAction (str "answer_sent") peer pubHex] pubHex [] [])))
          end
      end
  end.

Definition handleAnswer (env : dispatchEnv) (d : Deps) (data : bytes) : Deps * list reply * res dp_err (option Event) :=
  let '(cl, r) := Client_FinishHandshake (de_save env) (dp_client d) data in
  let d := set_dpClient cl d in
  match r with
  | Panic => (d, [], Panic)
  | Err e => (d, [], Err (DpFinish e))
  | Ok peerID =>
      (d, [], Ok (Some (mkEvent (str "answer") peerID [] [] [] [] [mkAction (str "session_established") peerID []] [] [] [])))
  end.

(** A message that cannot be stored is returned together with the error: the
    callers look at the error first. *)
Definition handleMessage (env : dispatchEnv) (d : Deps) (data : bytes) : Deps * list reply * res dp_err (option Event) :=
  let '(cl, r) := Client_Decrypt (de_save env) (dp_client d) data in
  let d := set_dpClient cl d in
  match r with
  | Panic => (d, [], Panic)
  | Err e => (d, [], Err (if isReplay e then DpReplay else DpDecrypt e))
  | Ok (senderID, plaintext) =>
      let '(text, enc) := shown plaintext in
      let event := mkEvent (str "message") [] senderID enc text [] [] [] [] [] in
      match dp_mailbox d with
      | None => (d, [], Ok (Some event))
      | Some mb =>
          let '(mb, r) := Mailbox.AppendIncoming (de_mbio env) (de_nanos env) (de_millis env) mb senderID text in
          (set_dpMailbox mb d, [], _ ← wrapErr DpStore r; Ok (Some event))
      end
  end.

Definition handleMultiMessage (env : dispatchEnv) (d : Deps) (data : bytes) : Deps * list reply * res dp_err (option Event) :=
  if negb (dp_hasFanout d) then (d, [], Err DpNoFanout) else
  let '(f, r) := ProcessDelivery (de_save env) (de_io env) (dp_fanout d) (cl_Id (dp_client d)) data in
  let d := mkDeps f (dp_hasFanout d) (dp_mailbox d) in
  match r with
  | Panic => (d, [], Panic)
  | Err FoDuplicate => (d, [], Ok None)
  | Err e => (d, [], Err (DpGroup e))
  | Ok inbound =>
      let '(body, enc) := shown (im_Plaintext inbound) in
      let ctxID := InboundMessage_ContextID inbound in
      let name := InboundMessage_DisplayName inbound in
      let event := mkEvent (str "group_message") [] (im_Sender inbound) enc body name [] [] ctxID (dm_MessageID (im_Meta inbound)) in
      match dp_mailbox d with
      | None => (d, [], Ok (Some event))
      | Some mb =>
          let '(mb, r) := Mailbox.AppendGroupIncoming (de_mbio env) (de_nanos env) (de_millis env) mb ctxID name (im_Sender inbound) body in
          (set_dpMailbox mb d, [], _ ← wrapErr DpStore r; Ok (Some event))
      end
  end.

Definition DispatchFrame (env : dispatchEnv) (d : Deps) (body : bytes) : Deps * list reply * res dp_err (option Event) :=
  match Unwrap body with
  | Panic => (d, [], Panic)
  | Err e => (d, [], Err (DpUnwrap e))
  | Ok (t, data) =>
      match t with
      | x01 => handleOffer env d data
      | x02 => handleAnswer env d data
      | x03 => handleMessage env d data
      | x04 => handleMultiMessage env d data
      | _ => (d, [], Err (DpUnknownType t))
      end
  end.

Definition errorEvent (e : dp_err) : Event := mkEvent (str "error") [] [] [] (errorText e) [] [] [] [] [].

(** [DispatchBatch]: every frame in turn; an error becomes an event. *)
Fixpoint DispatchBatch (d : Deps) (frames : list (dispatchEnv * bytes)) : Deps * list reply * res dp_err (list Event) :=
  match frames with
  | [] => (d, [], Ok [])
  | (env, f) :: frames =>
      let '(d, sent, r) := DispatchFrame env d f in
      match r with
      | Panic => (d, sent, Panic)
      | _ =>
          let now := match r with Ok (Some ev) => [ev] | Ok None => [] | Err e => [errorEvent e] | Panic => [] end in
          let '(d, sent', rest) := DispatchBatch d frames in
          (d, sent ++ sent', evs ← rest; Ok (now ++ evs))
      end
  end.

End Dispatch.
Arguments Deps S D : clear implicits.
