(* ===== verification/DispatchTheorems.v ===== *)
(** * What the receive path guarantees

    The composition of framing, handshake, sessions and mailbox: two clients
    that hand their frames to each other's dispatcher establish sessions in step
    and exchange messages that end up, as sent, in the mailbox. *)
From S2P Require Import Prelude GoStd Sha256 External SecurePeer SecurePeerFacts Session Engine EngineFacts SessionTheorems Client Frame Binstore Records MultiMsg MultiStore MultiStoreTheorems Fanout FanoutTheorems GroupDelivery Mailbox MailboxTheorems MailboxSaved Dispatch.
#[local] Open Scope Z_scope.

Section Receive.
Context `{N : Nanopack} `{NL : !NanopackLaws} `{NS : !NanopackSize} `{P : Prims} `{PL : !PrimLaws} `{J : LegacyJSON} `{R : RecordStore} `{RL : !RecordStoreLaws}.
Context {S D : Type} `{CS : ContextStore S} `{DS : DeliveryStore D}.

(** ** Frames are not empty *)
Lemma marshal_nonempty fs w : MarshalFastID fs = Some w -> w ≠ [].
Proof. intros H ->. by apply np_encode_head in H. Qed.

Lemma Unwrap_Wrap t w : Valid t = true -> w ≠ [] -> Unwrap (Wrap t w) = Ok (t, w).
Proof. intros Ht Hw. destruct w as [|b w]; [done|]. cbn [Unwrap Wrap WrapEnvelope]. by rewrite Ht. Qed.

Lemma Encrypt_nonempty rnd sp name pt sp' w : Encrypt rnd sp name pt = (sp', Ok w) -> w ≠ [].
Proof.
  rewrite Encrypt_eq. cbv zeta. destruct (secureMessageHmacPayload _); [|done]. destruct (np_encode _) as [w'|] eqn:Hw; [|done].
  intros [= _ <-]. by eapply marshal_nonempty.
Qed.

Lemma CreateOffer_nonempty r oid i p ip dp dpub peer sp w : CreateOffer r oid i p ip dp dpub peer = Ok (sp, w) -> w ≠ [].
Proof. unfold CreateOffer. intros H. res_inv. by eapply marshal_nonempty. Qed.

Lemma AcceptOffer_nonempty r e i p ip dp dpub ex o s sp w : AcceptOffer r e i p ip dp dpub ex o = Ok (s, sp, w) -> w ≠ [].
Proof.
  unfold AcceptOffer, acceptDecoded. intros H. apply bind_Ok in H as (offer & _ & H). apply bind_Ok in H as (u & _ & H). cbv zeta in H.
  apply bind_Ok in H as (peer & _ & H). apply bind_Ok in H as (u2 & _ & H). apply bind_Ok in H as ([ct ss] & _ & H).
  destruct (Handshake _ _ _ _ _) as [rp h]. apply bind_Ok in H as (u3 & _ & H). apply bind_Ok in H as (w' & Hw & H).
  injection H as _ _ <-. unfold makeAnswer in Hw. res_inv. by eapply marshal_nonempty.
Qed.

(** ** Appending to the mailbox *)
Lemma mailbox_append io n m s key title msg : exists s' r,
  Mailbox.append io n m s key title msg = (s', r) /\ r ≠ Panic /\
  msgsAt (Mailbox.threads s') key = msgsAt (Mailbox.threads s) key ++ [Mailbox.appendDefaults n m msg].
Proof.
  destruct (Mailbox.append io n m s key title msg) as [s' r] eqn:H. exists s', r. split; [done|]. unfold Mailbox.append in H. cbv zeta in H.
  pose proof H as H'. apply save_keeps in H' as [Ht _]. split.
  - intros ->. revert H. unfold Mailbox.saveLocked. cbv zeta. destruct (toRecords _) as [recs|]; [|done].
    destruct (rs_save _ _ _ _ _) as [d r] eqn:Hs. intros [= _ Hr]. destruct r; [done|done|]. by apply rs_save_no_panic in Hs.
  - rewrite Ht. cbn [Mailbox.threads]. unfold msgsAt. rewrite lookup_insert_eq. cbn [Mailbox.t_Messages].
    by destruct (Mailbox.threads s !! key).
Qed.

(** What a received text looks like in the mailbox. *)
Definition incoming (env : dispatchEnv) (text : bytes) : Mailbox.Message :=
  Mailbox.mkMessage (dec (de_nanos env)) Mailbox.Incoming Mailbox.Direct text (de_millis env) false [] [] [].

Lemma Client_Encrypt_nonempty io rnd c bob pt c' w : Client_Encrypt io rnd c bob pt = (c', Ok w) -> w ≠ [].
Proof.
  unfold Client_Encrypt. destruct (cl_Sessions c !! bob) as [l|]; [|done]. destruct (cl_heap c !! l) as [sp|]; [|done].
  destruct (Encrypt rnd sp (cl_Id c) pt) as [sp' [x|e|]] eqn:H; [|done|done]. intros [= _ <-]. by eapply Encrypt_nonempty.
Qed.

(** What comes of reporting something that is to be stored: the event, and the
    file of the mailbox holds what the mailbox holds; or a write failed, which is
    the error, and the file is what it was. *)
Definition reported (env : dispatchEnv) (id : bytes) (mb mb' : Mailbox.Store) (ev : Event) (r : res dp_err (option Event)) : Prop :=
  match r with
  | Ok o => o = Some ev /\ stored id (Mailbox.disk mb') (Mailbox.threads mb')
  | Err e => io_first (de_mbio env) ≠ noFaults /\ (exists e', e = DpStore (Mailbox.MbStore e')) /\
      Mailbox.disk mb' !! Mailbox.fileFor id = Mailbox.disk mb !! Mailbox.fileFor id
  | Panic => False
  end.

Lemma written_reported env id mb mb' ev r : written id (de_mbio env) (Mailbox.disk mb) mb' r ->
  reported env id mb mb' ev (_ ← wrapErr DpStore r; Ok (Some ev)).
Proof. destruct r as [[]|e|]; cbn; [done| |done]. intros (H1 & [e' ->] & H2). split; [done|]. split; [by eexists|done]. Qed.

(** What the handler of a direct message does with one that is in step. *)
Lemma direct_message_core (env : dispatchEnv) (save : bool) rnd (ca ca' : Client) (db : Deps S D) bob pt ct la lb spA spB mb id :
  let alice := cl_Id ca in
  Client_Encrypt save rnd ca bob pt = (ca', Ok ct) ->
  cl_Sessions ca !! bob = Some la -> cl_heap ca !! la = Some spA -> send_ok rnd spA ->
  sessionFor (dp_client db) alice = Some lb -> cl_heap (dp_client db) !! lb = Some spB ->
  synced (Net spA spB [] []) -> dp_mailbox db = Some mb -> can_store id (de_mbio env) mb alice (incoming env (shown pt).1) ->
  exists db' mb' r spA' spB',
    handleMessage env db ct = (db', [], r) /\
    reported env id mb mb' (mkEvent (str "message") [] alice (shown pt).2 (shown pt).1 [] [] [] [] []) r /\
    dp_mailbox db' = Some mb' /\
    (forall k, msgsAt (Mailbox.threads mb') k = msgsAt (Mailbox.threads mb) k ++ (if bool_decide (k = alice) then [incoming env (shown pt).1] else [])) /\
    cl_heap ca' !! la = Some spA' /\ cl_heap (dp_client db') !! lb = Some spB' /\ synced (Net spA' spB' [] []) /\
    dp_client db' = SaveClient (de_save env) (store lb spB' (dp_client db)).
Proof.
  intros alice He Hsa Hha Hok Hsb Hhb Hsync Hmb Hcan. unfold Client_Encrypt in He. rewrite Hsa, Hha in He.
  destruct (Encrypt rnd spA (cl_Id ca) pt) as [spA' o] eqn:Henc. destruct o as [ct'|e|]; [|done|done]. injection He as <- <-.
  pose proof (send_a _ _ _ _ _ _ _ _ _ Hok Henc Hsync) as Hsync1. cbn [app] in Hsync1.
  destruct (Decrypt spB ct') as [spB' rB] eqn:Hdec.
  destruct (recv_b (Flight ct' (cl_Id ca) pt) rB spA' spB spB' [] [] Hdec Hsync1) as [-> Hsync2]. cbn [fl_name fl_text] in Hdec.
  destruct (shown pt) as [text enc] eqn:Hshown. cbn [fst snd] in Hcan |- *.
  unfold handleMessage, Client_Decrypt. rewrite (Decrypt_sender _ _ _ _ _ Hdec). fold alice. rewrite Hsb, Hhb, Hdec. fold alice.
  rewrite Hshown. cbn [set_dpClient dp_mailbox]. rewrite Hmb. unfold Mailbox.AppendIncoming. destruct (Mailbox.append _ _ _ _ _ _ _) as [mb' r] eqn:Happ.
  change (incoming env text) with (Mailbox.appendDefaults (de_nanos env) (de_millis env) (Mailbox.mkMessage [] Mailbox.Incoming Mailbox.Direct text 0 false [] [] [])) in *.
  destruct (append_written _ _ _ _ _ _ _ _ _ _ Hcan Happ) as (_ & _ & Hw & Hmsgs).
  do 5 eexists. split; [reflexivity|]. conjs.
  - by apply written_reported.
  - reflexivity.
  - exact Hmsgs.
  - rewrite SaveClient_heap. apply lookup_insert_eq.
  - unfold dp_client. cbn [set_dpMailbox set_dpClient dp_fanout fo_client set_client]. rewrite SaveClient_heap. apply lookup_insert_eq.
  - done.
  - reflexivity.
Qed.

(** C7: A direct message is received as it was sent.  What a client encrypts over a
    session in step, framed as a message and dispatched by the receiver, is
    reported with the sender's ID and the text (base64 if it is not UTF-8), and it
    is the newest, unread message of the sender's conversation, in the mailbox and
    in the mailbox that is loaded from the file afterwards; the other
    conversations are as they were.  Only if a write of the mailbox file fails is
    an error reported instead; the file is then as it was.  The sessions are in
    step again. *)
Theorem direct_message_received (env : dispatchEnv) (save : bool) rnd (ca ca' : Client) (db : Deps S D) bob pt ct la lb spA spB mb :
  let alice := cl_Id ca in
  let id := cl_Id (dp_client db) in
  Client_Encrypt save rnd ca bob pt = (ca', Ok ct) ->
  cl_Sessions ca !! bob = Some la -> cl_heap ca !! la = Some spA -> send_ok rnd spA ->
  sessionFor (dp_client db) alice = Some lb -> cl_heap (dp_client db) !! lb = Some spB ->
  synced (Net spA spB [] []) -> dp_mailbox db = Some mb -> can_store id (de_mbio env) mb alice (incoming env (shown pt).1) ->
  exists db' mb' r spA' spB',
    DispatchFrame env db (Wrap TypeMessage ct) = (db', [], r) /\
    reported env id mb mb' (mkEvent (str "message") [] alice (shown pt).2 (shown pt).1 [] [] [] [] []) r /\
    dp_mailbox db' = Some mb' /\
    (forall k, msgsAt (Mailbox.threads mb') k = msgsAt (Mailbox.threads mb) k ++ (if bool_decide (k = alice) then [incoming env (shown pt).1] else [])) /\
    cl_heap ca' !! la = Some spA' /\ cl_heap (dp_client db') !! lb = Some spB' /\ synced (Net spA' spB' [] []).
Proof.
  intros alice id He Hsa Hha Hok Hsb Hhb Hsync Hmb Hcan. unfold DispatchFrame. rewrite Unwrap_Wrap; [|done|by eapply Client_Encrypt_nonempty].
  destruct (direct_message_core env save rnd ca ca' db bob pt ct la lb spA spB mb id He Hsa Hha Hok Hsb Hhb Hsync Hmb Hcan)
    as (db' & mb' & r & spA' & spB' & H1 & H2 & H3 & H4 & H5 & H6 & H7 & _). exists db', mb', r, spA', spB'. conjs; done.
Qed.

(** A client of an identity. *)
Definition client_of (c : Client) (i : Identity) : Prop :=
  cl_Id c = idOf i /\ cl_IdentityPrivate c = i_priv i /\ cl_IdentityPublic c = i_pub i /\
  cl_DilithiumPrivate c = i_dpriv i /\ cl_DilithiumPublic c = i_dpub i.

Lemma SaveClient_session io c n : session (SaveClient io c) n = session c n.
Proof. unfold SaveClient. by repeat case_match. Qed.

Lemma SaveClient_same io c : cl_Sessions (SaveClient io c) = cl_Sessions c /\ cl_Id (SaveClient io c) = cl_Id c.
Proof. unfold SaveClient. by repeat case_match. Qed.

Lemma idOf_nonempty i : honest i -> idOf i ≠ [].
Proof.
  intros Hi H. assert (base58_encode [] = []) as H0.
  { pose proof (base58_size []) as Hs. destruct (base58_encode []); [done|]. unfold len in Hs. cbn [length] in Hs. lia. }
  unfold idOf, DerivePeerID in H. rewrite <- H0 in H. apply (inj base58_encode) in H. apply (f_equal length) in H.
  rewrite length_app, length_sha3_256 in H. cbn in H. lia.
Qed.

Lemma pendingFor_ne x : pendingFor x ≠ pendingKey.
Proof. intros H. apply (f_equal length) in H. unfold pendingFor, pendingKey in H. rewrite length_app in H. cbn in H. lia. Qed.

(** Making an offer files the new session as pending for its peer. *)
Lemma client_create io r oid c i peer sp offer :
  client_of c i -> peer ≠ [] -> CreateOffer r oid (idOf i) (i_priv i) (i_pub i) (i_dpriv i) (i_dpub i) peer = Ok (sp, offer) ->
  exists c', Client_CreateOffer io r oid c peer = (c', Ok offer) /\ cl_Id c' = idOf i /\
    pendingLoc c' peer = Some (cl_next c) /\ cl_heap c' !! cl_next c = Some sp.
Proof.
  intros (H1 & H2 & H3 & H4 & H5) Hp Hc. unfold Client_CreateOffer. rewrite H1, H2, H3, H4, H5, Hc.
  cbn [alloc]. rewrite bool_decide_eq_false_2 by done. eexists. split; [reflexivity|].
  match goal with |- context [SaveClient io ?x] => destruct (SaveClient_same io x) as [Hs Hi] end.
  rewrite Hi. split; [done|]. split.
  - unfold pendingLoc. rewrite Hs. cbn [cl_Sessions set_Sessions set_heap]. pose proof (pendingFor_ne peer).
    by rewrite lookup_insert_ne, lookup_insert_eq by done.
  - rewrite SaveClient_heap. cbn. apply lookup_insert_eq.
Qed.

Lemma client_accept io r e c i senderID sp offer answer :
  client_of c i ->
  AcceptOffer r e (idOf i) (i_priv i) (i_pub i) (i_dpriv i) (i_dpub i) (session c) offer = Ok (senderID, sp, answer) ->
  exists c', Client_AcceptOffer io r e c offer = (c', Ok answer) /\ session c' senderID = Some sp.
Proof.
  intros (H1 & H2 & H3 & H4 & H5) Ha. unfold Client_AcceptOffer. rewrite H1, H2, H3, H4, H5, Ha. cbn [alloc].
  eexists. split; [reflexivity|]. rewrite SaveClient_session. unfold session. cbn [cl_Sessions set_Sessions cl_heap set_heap].
  rewrite lookup_insert_eq. cbn [mbind option_bind]. apply lookup_insert_eq.
Qed.

Lemma client_finish io c hdr p pend sp answer :
  PeekAnswerSenderID answer = Ok hdr -> pendingLoc c hdr = Some p -> cl_heap c !! p = Some pend ->
  FinishHandshake (cl_Id c) pend answer = (sp, Ok hdr) ->
  exists c', Client_FinishHandshake io c answer = (c', Ok hdr) /\ session c' hdr = Some sp.
Proof.
  intros Hpk Hp Hh Hf. unfold Client_FinishHandshake. rewrite Hpk, Hp, Hh, Hf. eexists. split; [reflexivity|].
  rewrite SaveClient_session. unfold session. cbn [cl_Sessions set_Sessions cl_heap set_heap store].
  rewrite lookup_insert_eq. cbn [mbind option_bind]. apply lookup_insert_eq.
Qed.

(** C2: Two honest clients that dispatch each other's frames establish a session.
    The offer one makes, dispatched by the other, is answered to the offerer's
    key; that answer, dispatched in turn, completes the handshake.  Each side
    reports the other's peer ID and holds a session under it, and the two
    sessions are in step. *)
Theorem handshake_over_dispatch save rA oid (envA envB : dispatchEnv) (da db : Deps S D) iA iB :
  honest iA -> honest iB -> sha256 (i_pub iA) ≠ sha256 (i_pub iB) ->
  client_of (dp_client da) iA -> client_of (dp_client db) iB ->
  good_rand rA -> good_rand (de_rand envB) -> len oid = 16 -> de_send envB = Some true ->
  seen (seenBy (session (dp_client db) (idOf iA))) (base58_encode oid) = false ->
  exists ca offer answer db' da' evA evB spA spB,
    Client_CreateOffer save rA oid (dp_client da) (idOf iB) = (ca, Ok offer) /\
    DispatchFrame envB db (Wrap TypeOffer offer) = (db', [(i_pub iA, TypeAnswer, answer)], Ok (Some evB)) /\
    DispatchFrame envA (set_dpClient ca da) (Wrap TypeAnswer answer) = (da', [], Ok (Some evA)) /\
    ev_Peer evB = idOf iA /\ ev_Peer evA = idOf iB /\
    session (dp_client da') (idOf iB) = Some spA /\ session (dp_client db') (idOf iA) = Some spB /\ synced (Net spA spB [] []).
Proof.
  intros HA HB Hne HcA HcB RA RB Ho Hsend Hseen.
  destruct (honest_handshake rA (de_rand envB) iA iB (de_encaps envB) oid (session (dp_client db)) HA HB Hne RA RB Ho Hseen)
    as (pa & offer & o & a & pb & answer & Hdec & Hsid & Hpub & Hpeek & Hc & Ha & Hf & Hsync & _).
  destruct (client_create save _ _ _ _ _ _ _ HcA (idOf_nonempty _ HB) Hc) as (ca & Hca & Hid & Hpend & Hheap).
  destruct (client_accept (de_save envB) _ _ _ _ _ _ _ _ HcB Ha) as (cb & Hcb & HsB).
  rewrite <- Hid in Hf. destruct (client_finish (de_save envA) _ _ _ _ _ _ Hpeek Hpend Hheap Hf) as (ca' & Hca' & HsA).
  exists ca, offer, answer.
  assert (DispatchFrame envB db (Wrap TypeOffer offer) = (set_dpClient cb db, [(i_pub iA, TypeAnswer, answer)],
    Ok (Some (mkEvent (str "offer") (idOf iA) [] [] [] [] [mkAction (str "answer_sent") (idOf iA) (hexEncode (i_pub iA))] (hexEncode (i_pub iA)) [] [])))) as HB1.
  { unfold DispatchFrame. rewrite Unwrap_Wrap; [|done|by eapply CreateOffer_nonempty]. cbv beta iota. unfold handleOffer.
    rewrite Hdec, Hcb, Hsend, Hsid, Hpub. reflexivity. }
  assert (DispatchFrame envA (set_dpClient ca da) (Wrap TypeAnswer answer) = (set_dpClient ca' (set_dpClient ca da), [],
    Ok (Some (mkEvent (str "answer") (idOf iB) [] [] [] [] [mkAction (str "session_established") (idOf iB) []] [] [] [])))) as HA1.
  { unfold DispatchFrame. rewrite Unwrap_Wrap; [|done|by eapply AcceptOffer_nonempty]. cbv beta iota. unfold handleAnswer.
    change (dp_client (set_dpClient ca da)) with ca. by rewrite Hca'. }
  do 6 eexists. conjs; [exact Hca|exact HB1|exact HA1|reflexivity|reflexivity|exact HsA|exact HsB|exact Hsync].
Qed.

(** Only a group message that was already shown is passed over in silence. *)
Lemma silent_frame env (d d' : Deps S D) f sent : DispatchFrame env d f = (d', sent, Ok None) ->
  exists data, Unwrap f = Ok (TypeMultiMsg, data) /\
    (ProcessDelivery (de_save env) (de_io env) (dp_fanout d) (cl_Id (dp_client d)) data).2 = Err FoDuplicate.
Proof.
  unfold DispatchFrame. destruct (Unwrap f) as [[t data]|e|]; [|done|done]. destruct t; try done.
  - unfold handleOffer. repeat case_match; done.
  - unfold handleAnswer. repeat case_match; done.
  - unfold handleMessage. cbv zeta. repeat case_match; try done; intros Hw; injection Hw as _ _ Hw;
      match type of Hw with context [wrapErr _ ?r] => by destruct r end.
  - unfold handleMultiMessage. cbv zeta. destruct (negb _); [done|]. intros Hw. exists data. split; [done|].
    destruct (ProcessDelivery _ _ _ _ _) as [f' r]. cbn [snd]. destruct r as [m|e|]; [| |done].
    + destruct (shown _). cbn [dp_mailbox] in Hw. destruct (dp_mailbox d) as [mb|]; [|done].
      destruct (Mailbox.AppendGroupIncoming _ _ _ _ _ _ _ _) as [mb' r]. injection Hw as _ _ Hw. by destruct r.
    + by destruct e.
Qed.

Lemma batch_app (errorText : dp_err -> bytes) (l1 l2 : list (dispatchEnv * bytes)) : forall (d d1 : Deps S D) sent1 evs1,
  DispatchBatch errorText d l1 = (d1, sent1, Ok evs1) ->
  DispatchBatch errorText d (l1 ++ l2)
  = let '(d2, sent2, r2) := DispatchBatch errorText d1 l2 in (d2, sent1 ++ sent2, evs ← r2; Ok (evs1 ++ evs)).
Proof.
  induction l1 as [|[env f] l1 IH]; intros d d1 sent1 evs1 H; cbn [DispatchBatch app] in H |- *.
  - injection H as <- <- <-. destruct (DispatchBatch errorText d l2) as [[d2 sent2] r2]. by destruct r2.
  - destruct (DispatchFrame env d f) as [[d0 sent0] r0]. destruct r0 as [o|e|]; [| |done];
      destruct (DispatchBatch errorText d0 l1) as [[d3 sent3] r3] eqn:H3; destruct r3 as [evs3|e3|]; try done;
      injection H as <- <- <-; rewrite (IH _ _ _ _ H3);
      destruct (DispatchBatch errorText d3 l2) as [[d2 sent2] r2]; rewrite app_assoc;
      destruct r2 as [evs2|e2|]; cbn; rewrite ?app_assoc; try done; by destruct o.
Qed.

(** A batch accounts for every frame.  Dispatching a frame reports exactly one
    event, an error event if it fails, unless it is a group message that was
    already shown; and no frame stops the ones behind it: a batch reports what
    its frames report one after the other. *)
Theorem batch_accounts_for_every_frame (errorText : dp_err -> bytes) (env : dispatchEnv) (f : bytes) (l : list (dispatchEnv * bytes)) (d d1 : Deps S D) sent1 evs1 :
  DispatchBatch errorText d [(env, f)] = (d1, sent1, Ok evs1) ->
  ((exists ev, evs1 = [ev]) \/
   (evs1 = [] /\ exists data, Unwrap f = Ok (TypeMultiMsg, data) /\
      (ProcessDelivery (de_save env) (de_io env) (dp_fanout d) (cl_Id (dp_client d)) data).2 = Err FoDuplicate)) /\
  DispatchBatch errorText d ((env, f) :: l)
  = let '(d2, sent2, r2) := DispatchBatch errorText d1 l in (d2, sent1 ++ sent2, evs ← r2; Ok (evs1 ++ evs)).
Proof.
  intros H. split; [|exact (batch_app errorText [(env, f)] l d d1 sent1 evs1 H)]. cbn [DispatchBatch] in H.
  destruct (DispatchFrame env d f) as [[d0 sent0] r0] eqn:Hd. destruct r0 as [[ev|]|e|]; [| | |done]; injection H as <- <- <-.
  - left. by eexists.
  - right. split; [done|]. by eapply silent_frame.
  - left. by eexists.
Qed.

End Receive.

(** ** Concrete runs *)
Abbreviation demoDeps := (Deps Memory.MemoryContextStore deliveries_t).

Definition demoDispatch : dispatchEnv := mkDispatchEnv true (demoRand x03 x04) [x09] (Some true) demoIO demoIO 5 9.

Definition depsOf (c : Client) : demoDeps :=
  mkDeps (NewFanout c Memory.NewMemoryContextStore noDeliveries DefaultFanoutConfig) true
    (Some (Mailbox.mkStore (Mailbox.fileFor (cl_Id c)) ∅ ∅)).

Definition identityClient (i : Identity) : Client :=
  mkClient (idOf i) (i_priv i) (i_pub i) (i_dpriv i) (i_dpub i) ∅ true ∅ 0%nat None.

Lemma handshake_over_dispatch_witness :
  let json := noJSON in
  exists ca offer answer db' da' evA evB spA spB,
    Client_CreateOffer true (demoRand x01 x02) (demoBytes 16 x05) (identityClient (demoId x41)) (idOf (demoId x42)) = (ca, Ok offer) /\
    DispatchFrame demoDispatch (depsOf (identityClient (demoId x42))) (Wrap TypeOffer offer)
      = (db', [(i_pub (demoId x41), TypeAnswer, answer)], Ok (Some evB)) /\
    DispatchFrame demoDispatch (set_dpClient ca (depsOf (identityClient (demoId x41)))) (Wrap TypeAnswer answer) = (da', [], Ok (Some evA)) /\
    ev_Peer evB = idOf (demoId x41) /\ ev_Peer evA = idOf (demoId x42) /\
    session (dp_client da') (idOf (demoId x42)) = Some spA /\ session (dp_client db') (idOf (demoId x41)) = Some spB /\
    synced (Net spA spB [] []).
Proof.
  intros json.
  apply (handshake_over_dispatch true (demoRand x01 x02) (demoBytes 16 x05) demoDispatch demoDispatch
    (depsOf (identityClient (demoId x41))) (depsOf (identityClient (demoId x42))) (demoId x41) (demoId x42)).
  - exact (demoId_honest x41).
  - exact (demoId_honest x42).
  - exact demoId_distinct.
  - repeat split.
  - repeat split.
  - exact (demoRand_good x01 x02).
  - exact (demoRand_good x03 x04).
  - reflexivity.
  - reflexivity.
  - reflexivity.
Defined.

Definition aliceClient : Client := clientOf (str "al") (str "bo") demoA.

Definition aliceCt : bytes := Eval vm_compute in
  match (Client_Encrypt true (demoBytes 32 x22) aliceClient (str "bo") (str "hi")).2 with Ok w => w | _ => [] end.

Lemma empty_can_store id io (key : bytes) msg d : range_ok io -> key ≠ [] -> msg_ok msg -> Z.of_nat (binSize (Mailbox.toBin key msg)) < 2 ^ 31 ->
  can_store id io (Mailbox.mkStore (Mailbox.fileFor id) ∅ d) key msg.
Proof. intros H1 H2 H3 H4. split; [done|apply map_Forall_empty|done|done|done|exact H4]. Qed.

Lemma direct_message_received_witness :
  let json := noJSON in
  exists db' mb',
    DispatchFrame demoDispatch (depsOf (clientOf (str "bo") (str "al") demoB)) (Wrap TypeMessage aliceCt)
      = (db', [], Ok (Some (mkEvent (str "message") [] (str "al") (str "utf-8") (str "hi") [] [] [] [] []))) /\
    dp_mailbox db' = Some mb' /\ stored (str "bo") (Mailbox.disk mb') (Mailbox.threads mb') /\
    msgsAt (Mailbox.threads mb') (str "al") = [incoming demoDispatch (str "hi")].
Proof.
  intros json.
  destruct (direct_message_received demoDispatch true (demoBytes 32 x22) aliceClient
    (Client_Encrypt true (demoBytes 32 x22) aliceClient (str "bo") (str "hi")).1 (depsOf (clientOf (str "bo") (str "al") demoB))
    (str "bo") (str "hi") aliceCt 0%nat 0%nat demoA demoB (Mailbox.mkStore (Mailbox.fileFor (str "bo")) ∅ ∅))
    as (db' & mb' & r & spA' & spB' & H1 & H2 & H3 & H4 & _).
  - apply pair_result. vm_compute. reflexivity.
  - vm_compute. reflexivity.
  - reflexivity.
  - split; [reflexivity|]. split; [vm_compute; discriminate|vm_compute; reflexivity].
  - vm_compute. reflexivity.
  - reflexivity.
  - exact demo_synced.
  - reflexivity.
  - apply empty_can_store; [exact demoIO_range|discriminate|unfold msg_ok; cbn; auto with lia|vm_compute; reflexivity].
  - exists db', mb'. specialize (H4 (str "al")).
    destruct r as [o|e|]; cbn [reported] in H2; [|destruct H2 as [H2 _]; exfalso; apply H2; reflexivity|contradiction].
    destruct H2 as [-> H2]. split; [exact H1|]. split; [exact H3|]. split; [exact H2|exact H4].
Defined.

Lemma batch_accounts_for_every_frame_witness :
  let json := noJSON in
  exists d1 ev, DispatchBatch (fun _ => str "bad frame") (depsOf (identityClient (demoId x41))) [(demoDispatch, [])] = (d1, [], Ok [ev]).
Proof.
  intros json.
  destruct (batch_accounts_for_every_frame (fun _ => str "bad frame") demoDispatch [] [] (depsOf (identityClient (demoId x41)))
    (depsOf (identityClient (demoId x41))) [] [errorEvent (fun _ => str "bad frame") (DpUnwrap FrShort)]) as [[[ev Hev]|[Hev _]] _].
  - reflexivity.
  - exists (depsOf (identityClient (demoId x41))), ev. rewrite <- Hev. reflexivity.
  - discriminate Hev.
Defined.
