(* ===== verification/FileTransfer.v ===== *)
(** * internal/filetransfer: encrypted files ([filetransfer.go], [ticket.go])

    A file is encrypted with the session of its recipient, cut into chunks for
    the file relay, and described by a manifest; the manifest and the secret that
    downloads the chunks travel in a ticket. *)
From S2P Require Import Prelude GoStd Sha256 External SecurePeer SecurePeerFacts Session Engine EngineFacts SessionTheorems Client Frame Records MultiMsg MultiStore Fanout GroupDelivery.
#[local] Open Scope Z_scope.

Definition MaxFilePlaintext : Z := 8388608.
Definition DefaultChunkSize : Z := 32768.
Definition ManifestSchemaID : byte := x0c.
Definition TicketSchemaID : byte := x0d.
Definition TicketVersion : byte := x02.

Record Manifest := mkManifest {
  mf_FileName : bytes;
  mf_PlainSize : Z;    (* int *)
  mf_CipherSize : Z;
  mf_ChunkSize : Z;
  mf_ChunkCount : Z;
  mf_FileHash : bytes;
  mf_CipherHash : bytes;
}.

Record Ticket := mkTicket {
  tk_Transfer : bytes;
  tk_Secret : bytes;
  tk_Shard : bytes;
  tk_Manifest : bytes;
  tk_From : bytes;
}.

#[export] Instance Manifest_dec : EqDecision Manifest.
Proof. solve_decision. Defined.

#[export] Instance Ticket_dec : EqDecision Ticket.
Proof. solve_decision. Defined.

(** [FtDiverges] is no value of the program: it marks a chunk loop that has not
    ended within its rounds ([encrypt_file_terminates] excludes it). *)
Inductive ft_err :=
| FtDecode | FtShortBody | FtBadSizes
| FtFileSize (n : Z) | FtChunkSize | FtEncrypt (e : client_err) | FtDiverges
| FtChunkCount (want have : Z) | FtEmptyChunk (i : nat) | FtCipherSize | FtCipherHash
| FtDecrypt (e : client_err) | FtSender (want got : bytes) | FtPlainSize | FtFileHash
| TkTransfer | TkSecret | TkMissing | TkEncode | TkJSON | TkVersion | TkManifest (e : ft_err) | TkBase64.

Definition getU32 (b : bytes) : res ft_err Z := if negb (len b =? 4) then Err FtShortBody else Ok (unbe b).
Definition getU64 (b : bytes) : res ft_err Z := if negb (len b =? 8) then Err FtShortBody else Ok (unbe b).

Definition manifestField (m : Manifest) (f : byte * bytes) : res ft_err Manifest :=
  let '(mkManifest n ps cs ck cc fh ch) := m in
  match f.1 with
  | x01 => Ok (mkManifest f.2 ps cs ck cc fh ch)
  | x02 => v ← getU64 f.2; Ok (mkManifest n (i64 v) cs ck cc fh ch)
  | x03 => v ← getU64 f.2; Ok (mkManifest n ps (i64 v) ck cc fh ch)
  | x04 => v ← getU32 f.2; Ok (mkManifest n ps cs v cc fh ch)
  | x05 => v ← getU32 f.2; Ok (mkManifest n ps cs ck v fh ch)
  | x06 => Ok (mkManifest n ps cs ck cc f.2 ch)
  | x07 => Ok (mkManifest n ps cs ck cc fh f.2)
  | _ => Ok m
  end.

(** The chunk loop: [for off := 0; off < len(cipher); off += chunkSize]. *)
Fixpoint splitLoop (fuel : nat) (cipher : bytes) (chunkSize off : Z) (chunks : list bytes) : option (list bytes) :=
  match fuel with
  | O => None
  | S fuel =>
      if off <? len cipher then
        let end_ := i64 (off + chunkSize) in
        let end_ := if len cipher <? end_ then len cipher else end_ in
        splitLoop fuel cipher chunkSize (i64 (off + chunkSize))
          (chunks ++ [take (Z.to_nat (end_ - off)) (drop (Z.to_nat off) cipher)])
      else Some chunks
  end.

Definition effectiveChunk (chunkSize : Z) : Z := if chunkSize <=? 0 then DefaultChunkSize else chunkSize.

Definition shortPeer (id : bytes) : bytes :=
  if len id <=? 12 then id else take 6 id ++ str "..." ++ drop (length id - 4) id.

(** The loop over received chunks: an empty chunk is refused. *)
Fixpoint reassemble (i : nat) (chunks : list bytes) (cipher : bytes) : res ft_err bytes :=
  match chunks with
  | [] => Ok cipher
  | c :: chunks => if len c =? 0 then Err (FtEmptyChunk i) else reassemble (S i) chunks (cipher ++ c)
  end.

Section FileTransfer.
Context `{N : Nanopack} `{P : Prims}.

(** [None]: the encoder reported an error, which [Bytes] drops. *)
Definition Manifest_Bytes (m : Manifest) : option bytes :=
  np_encode [(x01, mf_FileName m); (x02, putU64 (u64 (mf_PlainSize m))); (x03, putU64 (u64 (mf_CipherSize m)));
             (x04, putU32 (u32 (mf_ChunkSize m))); (x05, putU32 (u32 (mf_ChunkCount m)));
             (x06, mf_FileHash m); (x07, mf_CipherHash m)].

Definition ParseManifest (raw : bytes) : res ft_err Manifest :=
  fs ← ofOption FtDecode (np_decode raw);
  m ← foldFields manifestField fs (mkManifest [] 0 0 0 0 [] []);
  if ((mf_ChunkCount m <=? 0) || (mf_ChunkSize m <=? 0) || (mf_CipherSize m <=? 0)
      || negb (len (mf_FileHash m) =? 32) || negb (len (mf_CipherHash m) =? 32))%bool
  then Err FtBadSizes else Ok m.

Definition EncryptFile (io : bool) (rnd : bytes) (cl : Client) (peerID fileName plaintext : bytes) (chunkSize : Z)
  : Client * res ft_err (bytes * list bytes * Manifest) :=
  if ((len plaintext =? 0) || (MaxFilePlaintext <? len plaintext))%bool then (cl, Err (FtFileSize (len plaintext))) else
  let chunkSize := effectiveChunk chunkSize in
  if 65536 <? chunkSize then (cl, Err FtChunkSize) else
  let '(cl, r) := Client_Encrypt io rnd cl peerID plaintext in
  (cl,
   cipher ← wrapErr FtEncrypt r;
   chunks ← ofOption FtDiverges (splitLoop (S (length cipher)) cipher chunkSize 0 []);
   Ok (cipher, chunks,
       mkManifest fileName (len plaintext) (len cipher) chunkSize (len chunks) (sha256 plaintext) (sha256 cipher))).

Definition decryptFor (io : bool) (cl : Client) (cipher : bytes) : Client * res client_err (bytes * bytes) :=
  let '(cl, r) := Client_Decrypt io cl cipher in
  (cl, '(sender, plain) ← r; Ok (plain, sender)).

Definition ReassembleAndDecrypt (io : bool) (cl : Client) (peerID : bytes) (chunks : list bytes) (mf : Manifest)
  : Client * res ft_err bytes :=
  if negb (len chunks =? mf_ChunkCount mf) then (cl, Err (FtChunkCount (mf_ChunkCount mf) (len chunks))) else
  match reassemble 0 chunks [] with
  | Panic => (cl, Panic)
  | Err e => (cl, Err e)
  | Ok cipher =>
      if negb (len cipher =? mf_CipherSize mf) then (cl, Err FtCipherSize) else
      if negb (bytes_eqb (sha256 cipher) (mf_CipherHash mf)) then (cl, Err FtCipherHash) else
      let '(cl, r) := decryptFor io cl cipher in
      (cl,
       '(plaintext, senderID) ← wrapErr FtDecrypt r;
       if (negb (bytes_eqb peerID []) && negb (bytes_eqb senderID peerID))%bool
       then Err (FtSender (shortPeer peerID) (shortPeer senderID)) else
       if negb (len plaintext =? mf_PlainSize mf) then Err FtPlainSize else
       if negb (bytes_eqb (sha256 plaintext) (mf_FileHash mf)) then Err FtFileHash else
       Ok plaintext)
  end.

(** ** ticket.go *)
Definition MarshalTicket (t : Ticket) : res ft_err bytes :=
  if negb (len (tk_Transfer t) =? 16) then Err TkTransfer else
  if negb (len (tk_Secret t) =? 32) then Err TkSecret else
  if (bytes_eqb (tk_Shard t) [] || (len (tk_Manifest t) =? 0))%bool then Err TkMissing else
  ofOption TkEncode (np_encode [(x01, [TicketVersion]); (x02, tk_Transfer t); (x03, tk_Secret t); (x04, tk_Shard t);
                                (x05, tk_Manifest t); (x06, tk_From t)]).

Definition ticketField (t : Ticket) (f : byte * bytes) : res ft_err Ticket :=
  let '(mkTicket tr se sh ma fr) := t in
  match f.1 with
  | x01 => match f.2 with
           | [v] => if negb (bool_decide (v = TicketVersion)) then Err TkVersion else Ok t
           | _ => Err TkVersion
           end
  | x02 => Ok (mkTicket f.2 se sh ma fr)
  | x03 => Ok (mkTicket tr f.2 sh ma fr)
  | x04 => Ok (mkTicket tr se f.2 ma fr)
  | x05 => Ok (mkTicket tr se sh f.2 fr)
  | x06 => Ok (mkTicket tr se sh ma f.2)
  | _ => Ok t
  end.

Definition ParseTicket (raw : bytes) : res ft_err Ticket :=
  if bool_decide (head raw = Some x7b) then Err TkJSON else
  fs ← ofOption FtDecode (np_decode raw);
  t ← foldFields ticketField fs (mkTicket [] [] [] [] []);
  if (negb (len (tk_Transfer t) =? 16) || negb (len (tk_Secret t) =? 32)
      || bytes_eqb (tk_Shard t) [] || (len (tk_Manifest t) =? 0))%bool then Err TkMissing else
  _ ← wrapErr TkManifest (ParseManifest (tk_Manifest t));
  Ok t.

Definition EncodeTicketString (raw : bytes) : bytes := b64Encode raw.

Definition DecodeTicketString (s : bytes) : res ft_err bytes := ofOption TkBase64 (b64Decode s).

End FileTransfer.

(** ** The chunk loop ends, and loses nothing *)
Lemma mjoin_cons {A} (c : list A) cs : mjoin (c :: cs) = c ++ mjoin cs.
Proof. done. Qed.

Definition chunk_ok (k : Z) (c : bytes) : Prop := 0 < len c <= k.

Lemma split_rounds cipher k n : 0 < k <= 65536 -> len cipher < 2 ^ 62 ->
  forall off, 0 <= off < 2 ^ 62 + 65536 ->
  (n = 0%nat -> len cipher <= off) ->
  ((0 < n)%nat -> (Z.of_nat n - 1) * k < len cipher - off <= Z.of_nat n * k) ->
  exists cs, length cs = n /\ mjoin cs = drop (Z.to_nat off) cipher /\ Forall (chunk_ok k) cs /\
    forall fuel acc, splitLoop fuel cipher k off acc = if (n <? fuel)%nat then Some (acc ++ cs) else None.
Proof.
  intros Hk Hc. induction n as [|n IH]; intros off Ho H0 Hn.
  - exists []. conjs; [done| |done|].
    + unfold len in *. by rewrite drop_ge by (specialize (H0 eq_refl); lia).
    + intros [|fuel] acc; [done|]. cbn [splitLoop]. rewrite (proj2 (Z.ltb_ge off (len cipher))) by auto. by rewrite app_nil_r.
  - specialize (Hn ltac:(lia)). assert (off < len cipher) by nia.
    assert (i64 (off + k) = off + k) as Hi by (apply i64_small; lia).
    destruct (IH (off + k)) as (cs & Hl & Hj & Hf & Hs); [lia|nia|intros; nia|].
    set (c := take (Z.to_nat ((if len cipher <? off + k then len cipher else off + k) - off)) (drop (Z.to_nat off) cipher)).
    assert (c = take (Z.to_nat k) (drop (Z.to_nat off) cipher)) as Hck.
    { unfold c. destruct (Z.ltb_spec (len cipher) (off + k)); [|f_equal; lia].
      unfold len in *. rewrite !take_ge by (rewrite length_drop; lia). done. }
    exists (c :: cs). conjs; [cbn; lia| | |].
    + rewrite mjoin_cons, Hj, Hck. rewrite <- (take_drop (Z.to_nat k) (drop (Z.to_nat off) cipher)) at 2.
      rewrite drop_drop. do 2 f_equal. lia.
    + apply List.Forall_cons; [|exact Hf]. unfold chunk_ok, len in *. rewrite Hck, length_take, length_drop. lia.
    + intros [|fuel] acc; [done|]. cbn [splitLoop]. rewrite (proj2 (Z.ltb_lt off (len cipher))), Hi by lia. fold c.
      rewrite Hs, <- app_assoc. done.
Qed.

(** The number of rounds is the quotient rounded up. *)
Lemma split_spec cipher k : 0 < k <= 65536 -> len cipher < 2 ^ 62 ->
  exists cs, len cs = (len cipher + k - 1) / k /\ mjoin cs = cipher /\ Forall (chunk_ok k) cs /\
    forall fuel, splitLoop fuel cipher k 0 [] = if (length cs <? fuel)%nat then Some cs else None.
Proof.
  intros Hk Hc. set (q := (len cipher + k - 1) / k).
  assert (0 <= len cipher) by (unfold len; lia).
  assert (k * q <= len cipher + k - 1 < k * q + k) as Hq.
  { pose proof (Z.div_mod (len cipher + k - 1) k ltac:(lia)). pose proof (Z.mod_pos_bound (len cipher + k - 1) k ltac:(lia)). unfold q. lia. }
  assert (0 <= q) by (apply Z.div_pos; lia).
  destruct (split_rounds cipher k (Z.to_nat q) Hk Hc 0) as (cs & Hl & Hj & Hf & Hs); [lia|intros; nia|intros; nia|].
  exists cs. conjs; [unfold len; lia|done|done|]. intros fuel. by rewrite Hs, Hl.
Qed.

Lemma rounds_le cs k (cipher : bytes) : mjoin cs = cipher -> Forall (chunk_ok k) cs -> (length cs <= length cipher)%nat.
Proof.
  intros <- Hf. induction Hf as [|c cs Hc _ IH]; [done|]. rewrite mjoin_cons, length_app. cbn [length].
  unfold chunk_ok, len in Hc. lia.
Qed.

Lemma effectiveChunk_pos n : 0 < effectiveChunk n.
Proof. unfold effectiveChunk, DefaultChunkSize. destruct (Z.leb_spec n 0); lia. Qed.

Lemma reassemble_join k chunks : Forall (chunk_ok k) chunks ->
  forall i acc, reassemble i chunks acc = Ok (acc ++ mjoin chunks).
Proof.
  induction 1 as [|c cs Hc _ IH]; intros i acc; cbn [reassemble]; [by rewrite app_nil_r|]. rewrite mjoin_cons.
  unfold chunk_ok in Hc. rewrite (proj2 (Z.eqb_neq (len c) 0)) by lia. by rewrite IH, <- app_assoc.
Qed.

(** ** Manifests and tickets *)
Section Formats.
Context `{N : Nanopack} `{NL : !NanopackLaws}.

Definition manifest_ok (m : Manifest) : Prop :=
  0 <= mf_PlainSize m < 2 ^ 63 /\ 0 < mf_CipherSize m < 2 ^ 63 /\ 0 < mf_ChunkSize m < 2 ^ 32 /\
  0 < mf_ChunkCount m < 2 ^ 32 /\ length (mf_FileHash m) = 32%nat /\ length (mf_CipherHash m) = 32%nat.

Lemma manifest_u64_put v : 0 <= v < 2 ^ 63 -> getU64 (putU64 (u64 v)) = Ok v.
Proof. intros H. unfold getU64. rewrite len_putU64, unbe_putU64. cbn [Z.eqb negb Pos.eqb]. by rewrite !(u64_small v) by lia. Qed.

Lemma manifest_u32_put v : 0 <= v < 2 ^ 32 -> getU32 (putU32 (u32 v)) = Ok v.
Proof. intros H. unfold getU32. rewrite len_putU32, unbe_putU32. cbn [Z.eqb negb Pos.eqb]. by rewrite !(u32_small v) by lia. Qed.

(** The four numbers, one field at a time. *)
Lemma manifestField_plain n ps cs ck cc fh ch v : 0 <= v < 2 ^ 63 ->
  manifestField (mkManifest n ps cs ck cc fh ch) (x02, putU64 (u64 v)) = Ok (mkManifest n v cs ck cc fh ch).
Proof. intros H. unfold manifestField, fst, snd. rewrite manifest_u64_put, (ok_bind _ _ v eq_refl), i64_small by lia. done. Qed.

Lemma manifestField_cipher n ps cs ck cc fh ch v : 0 <= v < 2 ^ 63 ->
  manifestField (mkManifest n ps cs ck cc fh ch) (x03, putU64 (u64 v)) = Ok (mkManifest n ps v ck cc fh ch).
Proof. intros H. unfold manifestField, fst, snd. rewrite manifest_u64_put, (ok_bind _ _ v eq_refl), i64_small by lia. done. Qed.

Lemma manifestField_chunk n ps cs ck cc fh ch v : 0 <= v < 2 ^ 32 ->
  manifestField (mkManifest n ps cs ck cc fh ch) (x04, putU32 (u32 v)) = Ok (mkManifest n ps cs v cc fh ch).
Proof. intros H. unfold manifestField, fst, snd. by rewrite manifest_u32_put. Qed.

Lemma manifestField_count n ps cs ck cc fh ch v : 0 <= v < 2 ^ 32 ->
  manifestField (mkManifest n ps cs ck cc fh ch) (x05, putU32 (u32 v)) = Ok (mkManifest n ps cs ck v fh ch).
Proof. intros H. unfold manifestField, fst, snd. by rewrite manifest_u32_put. Qed.

Lemma manifest_roundtrip m raw : manifest_ok m -> Manifest_Bytes m = Some raw -> ParseManifest raw = Ok m.
Proof.
  intros (Hp & Hc & Hk & Hn & Hf & Hh) Hb. apply np_decode_encode in Hb. unfold ParseManifest. rewrite Hb. clear Hb.
  cbn [ofOption]. rewrite (ok_bind _ _ _ eq_refl).
  assert (foldFields manifestField [(x01, mf_FileName m); (x02, putU64 (u64 (mf_PlainSize m))); (x03, putU64 (u64 (mf_CipherSize m)));
    (x04, putU32 (u32 (mf_ChunkSize m))); (x05, putU32 (u32 (mf_ChunkCount m)));
    (x06, mf_FileHash m); (x07, mf_CipherHash m)] (mkManifest [] 0 0 0 0 [] []) = Ok m) as ->.
  { erewrite foldFields_step by reflexivity. erewrite foldFields_step by (apply manifestField_plain; lia).
    erewrite foldFields_step by (apply manifestField_cipher; lia). erewrite foldFields_step by (apply manifestField_chunk; lia).
    erewrite foldFields_step by (apply manifestField_count; lia). by destruct m. }
  rewrite (ok_bind _ _ m eq_refl). unfold len. rewrite Hf, Hh.
  rewrite (proj2 (Z.leb_gt (mf_ChunkCount m) 0)), (proj2 (Z.leb_gt (mf_ChunkSize m) 0)), (proj2 (Z.leb_gt (mf_CipherSize m) 0)) by lia. done.
Qed.

Lemma ticket_roundtrip t m raw : MarshalTicket t = Ok raw -> ParseManifest (tk_Manifest t) = Ok m ->
  (DecodeTicketString (EncodeTicketString raw) ≫= ParseTicket) = Ok t.
Proof.
  destruct t as [tr se sh ma fr]. unfold MarshalTicket. cbn [tk_Transfer tk_Secret tk_Shard tk_Manifest tk_From]. intros H Hm.
  destruct (len tr =? 16) eqn:H1; [|done]. destruct (len se =? 32) eqn:H2; [|done]. cbn [negb] in H.
  destruct (bytes_eqb sh [] || (len ma =? 0))%bool eqn:H3; [done|]. apply ofOption_Ok in H.
  unfold DecodeTicketString, EncodeTicketString. rewrite b64Decode_Encode. cbn [ofOption mbind res_bind].
  unfold ParseTicket. rewrite (np_encode_head _ _ H), bool_decide_eq_false_2 by (by vm_compute).
  rewrite (np_decode_encode _ _ H). cbn [ofOption foldFields ticketField fst snd mbind res_bind].
  rewrite bool_decide_eq_true_2 by done. cbn [negb foldFields ticketField fst snd mbind res_bind tk_Transfer tk_Secret tk_Shard tk_Manifest].
  apply orb_false_iff in H3 as [H3 H4]. rewrite H1, H2, H3, H4. cbn [negb orb]. by rewrite Hm.
Qed.

End Formats.

Section Theorems.
Context `{N : Nanopack} `{NL : !NanopackLaws} `{P : Prims} `{PL : !PrimLaws}.

(** A frame is never empty: it starts with its field count. *)
Lemma frame_nonempty rnd sp name pt sp' w : Encrypt rnd sp name pt = (sp', Ok w) -> 0 < len w.
Proof.
  unfold Encrypt. destruct (if negb lowSecurity then _ else _) as [[sp1 mk] dh]. case_match; [done|].
  cbv zeta. case_match; [|done]. destruct (np_encode _) as [wire|] eqn:Hw; [|done]. intros [= _ <-].
  apply np_encode_head in Hw. destruct wire; [done|]. unfold len. cbn [length]. lia.
Qed.

(** What a successful [EncryptFile] has done. *)
Lemma EncryptFile_inv io rnd c peer name file size c' cipher chunks mf :
  EncryptFile io rnd c peer name file size = (c', Ok (cipher, chunks, mf)) ->
  0 < len file <= MaxFilePlaintext /\ effectiveChunk size <= 65536 /\
  Client_Encrypt io rnd c peer file = (c', Ok cipher) /\
  splitLoop (S (length cipher)) cipher (effectiveChunk size) 0 [] = Some chunks /\
  mf = mkManifest name (len file) (len cipher) (effectiveChunk size) (len chunks) (sha256 file) (sha256 cipher).
Proof.
  unfold EncryptFile. destruct (_ || _)%bool eqn:H1; [done|]. cbv zeta. destruct (Z.ltb_spec 65536 (effectiveChunk size)) as [|H2]; [done|].
  destruct (Client_Encrypt io rnd c peer file) as [c1 r]. intros [= <- H]. res_inv. bool_prop. unfold len in *. conjs; try done; lia.
Qed.

(** C38: Encrypting a file ends and leaves nothing out.  When the session encrypts
    the file (of 1 byte to 8 MiB, with a chunk size of at most 64 KiB, the
    default standing in for a size that is not positive), [EncryptFile] succeeds;
    its loop stops after exactly as many rounds as the ciphertext has chunks (one
    round less does not finish it), the chunks are the ciphertext in order, and
    each of them holds at least one byte and at most a chunk size. *)
Theorem encrypt_file_terminates io rnd c c' peer name file size cipher :
  0 < len file <= MaxFilePlaintext -> size <= 65536 ->
  Client_Encrypt io rnd c peer file = (c', Ok cipher) -> len cipher < 2 ^ 62 ->
  let k := effectiveChunk size in
  exists chunks mf,
    EncryptFile io rnd c peer name file size = (c', Ok (cipher, chunks, mf)) /\
    mjoin chunks = cipher /\ Forall (chunk_ok k) chunks /\ len chunks = (len cipher + k - 1) / k /\
    (forall fuel, is_Some (splitLoop fuel cipher k 0 []) <-> (length chunks < fuel)%nat).
Proof.
  intros Hf Hs He Hc k. assert (0 < k <= 65536) as Hk.
  { split; [apply effectiveChunk_pos|]. unfold k, effectiveChunk, DefaultChunkSize. destruct (Z.leb_spec size 0); lia. }
  destruct (split_spec cipher k Hk Hc) as (cs & Hl & Hj & Ho & Hsp).
  pose proof (rounds_le _ _ _ Hj Ho) as Hr. exists cs. eexists. conjs; [|done|done|done|].
  - unfold EncryptFile. rewrite (proj2 (Z.eqb_neq (len file) 0)), (proj2 (Z.ltb_ge MaxFilePlaintext (len file))) by lia.
    cbv zeta. fold k. rewrite (proj2 (Z.ltb_ge 65536 k)) by lia. cbn [orb]. rewrite He. cbn [wrapErr].
    rewrite (ok_bind _ _ cipher eq_refl), Hsp, (proj2 (Nat.ltb_lt _ _)) by lia. reflexivity.
  - intros fuel. rewrite Hsp. destruct (Nat.ltb_spec (length cs) fuel) as [H|H].
    + split; [done|]. intros _. by eexists.
    + split; [by intros [? ?]|lia].
Qed.

(** The number of chunks, as the manifest has it. *)
Lemma EncryptFile_count io rnd ca ca' bob name file size cipher chunks mf :
  EncryptFile io rnd ca bob name file size = (ca', Ok (cipher, chunks, mf)) -> len cipher < 2 ^ 32 ->
  len chunks = mf_ChunkCount mf /\ 0 < mf_ChunkCount mf < 2 ^ 32.
Proof.
  intros H Hc. apply EncryptFile_inv in H as (_ & Hk & He & Hsp & ->). cbn [mf_ChunkCount]. split; [done|].
  pose proof (effectiveChunk_pos size) as Hk0. destruct (split_spec cipher (effectiveChunk size) ltac:(lia) ltac:(lia)) as (cs & _ & Hj & Ho & Hs).
  pose proof (rounds_le _ _ _ Hj Ho) as Hr. rewrite Hs, (proj2 (Nat.ltb_lt _ _)) in Hsp by lia. injection Hsp as ->.
  assert (0 < len cipher) as Hp.
  { unfold Client_Encrypt in He. destruct (cl_Sessions ca !! bob) as [l|]; [|done]. destruct (cl_heap ca !! l) as [sp|]; [|done].
    destruct (Encrypt rnd sp (cl_Id ca) file) as [sp' [w|e|]] eqn:Henc; [|done|done]. injection He as _ ->. by eapply frame_nonempty. }
  destruct chunks; [by subst cipher|]. unfold len in *. cbn [length] in *. lia.
Qed.

(** What the recipient makes of the chunks and the manifest of an encrypted file. *)
Lemma transfer_core io rnd ca ca' cb bob name file size cipher chunks mf la lb spA spB raw io' :
  let alice := cl_Id ca in
  EncryptFile io rnd ca bob name file size = (ca', Ok (cipher, chunks, mf)) -> len cipher < 2 ^ 32 -> Manifest_Bytes mf = Some raw ->
  cl_Sessions ca !! bob = Some la -> cl_heap ca !! la = Some spA ->
  sessionFor cb alice = Some lb -> cl_heap cb !! lb = Some spB ->
  synced (Net spA spB [] []) -> send_ok rnd spA ->
  exists cb' spA' spB',
    ParseManifest raw = Ok mf /\ ReassembleAndDecrypt io' cb alice chunks mf = (cb', Ok file) /\
    cl_heap ca' !! la = Some spA' /\ cl_heap cb' !! lb = Some spB' /\ synced (Net spA' spB' [] []).
Proof.
  intros alice Hef Hc Hmb Hsa Hha Hsb Hhb Hsync Hok.
  apply EncryptFile_inv in Hef as (Hlen & Hk & He & Hsp & ->).
  pose proof (effectiveChunk_pos size) as Hk0. set (k := effectiveChunk size) in *.
  destruct (split_spec cipher k ltac:(lia) ltac:(lia)) as (cs & Hl & Hj & Ho & Hs).
  pose proof (rounds_le _ _ _ Hj Ho) as Hr. rewrite Hs, (proj2 (Nat.ltb_lt _ _)) in Hsp by lia. injection Hsp as ->.
  unfold Client_Encrypt in He. rewrite Hsa, Hha in He. destruct (Encrypt rnd spA (cl_Id ca) file) as [spA' e] eqn:Henc.
  destruct e as [ct|e|]; [|done|done]. injection He as <- ->.
  pose proof (send_a _ _ _ _ _ _ _ _ _ Hok Henc Hsync) as Hsync1. cbn [app] in Hsync1.
  destruct (Decrypt spB cipher) as [spB' rB] eqn:Hdec.
  destruct (recv_b (Flight cipher (cl_Id ca) file) rB spA' spB spB' [] [] Hdec Hsync1) as [-> Hsync2]. cbn [fl_name fl_text] in Hdec.
  assert (0 < len cipher /\ 0 < len chunks) as [Hcp Hcs].
  { apply frame_nonempty in Henc. split; [done|]. destruct chunks; [by subst cipher|unfold len; cbn [length]; lia]. }
  assert (ParseManifest raw = Ok (mkManifest name (len file) (len cipher) k (len chunks) (sha256 file) (sha256 cipher))) as Hpm.
  { apply manifest_roundtrip; [|done]. unfold manifest_ok, MaxFilePlaintext, len in *.
    cbn [mf_PlainSize mf_CipherSize mf_ChunkSize mf_ChunkCount mf_FileHash mf_CipherHash]. rewrite !length_sha256. lia. }
  exists (SaveClient io' (store lb spB' cb)), spA', spB'. conjs; try done.
  - unfold ReassembleAndDecrypt. cbn [mf_ChunkCount mf_CipherSize mf_CipherHash mf_PlainSize mf_FileHash].
    rewrite Z.eqb_refl, (reassemble_join _ _ Ho). cbn [app negb]. rewrite Hj, Z.eqb_refl, bytes_eqb_refl. cbn [negb].
    unfold decryptFor, Client_Decrypt. rewrite (Decrypt_sender _ _ _ _ _ Hdec). fold alice. rewrite Hsb, Hhb, Hdec.
    cbn [wrapErr mbind res_bind]. by rewrite Z.eqb_refl, !bytes_eqb_refl, andb_false_r.
  - rewrite SaveClient_heap. apply lookup_insert_eq.
  - rewrite SaveClient_heap. apply lookup_insert_eq.
Qed.

(** A file arrives as it was sent.  When a client encrypts a file for a peer
    over a session in step with the peer's and hands over the ticket, the peer
    reads from the pasted ticket the fields it was made of and the sender's
    manifest, and from the chunks, in order, the file; the sessions are again in
    step, whichever sizes the chunks have. *)
Theorem file_transfer_faithful io rnd ca ca' cb bob name file size cipher chunks mf la lb spA spB t body io' :
  let alice := cl_Id ca in
  EncryptFile io rnd ca bob name file size = (ca', Ok (cipher, chunks, mf)) -> len cipher < 2 ^ 32 ->
  Manifest_Bytes mf = Some (tk_Manifest t) -> MarshalTicket t = Ok body ->
  cl_Sessions ca !! bob = Some la -> cl_heap ca !! la = Some spA ->
  sessionFor cb alice = Some lb -> cl_heap cb !! lb = Some spB ->
  synced (Net spA spB [] []) -> send_ok rnd spA ->
  exists cb' spA' spB',
    (DecodeTicketString (EncodeTicketString body) ≫= ParseTicket) = Ok t /\
    ParseManifest (tk_Manifest t) = Ok mf /\
    ReassembleAndDecrypt io' cb alice chunks mf = (cb', Ok file) /\
    cl_heap ca' !! la = Some spA' /\ cl_heap cb' !! lb = Some spB' /\ synced (Net spA' spB' [] []).
Proof.
  intros alice Hef Hc Hmb Hmt Hsa Hha Hsb Hhb Hsync Hok.
  destruct (transfer_core _ _ _ _ _ _ _ _ _ _ _ _ _ _ _ _ _ io' Hef Hc Hmb Hsa Hha Hsb Hhb Hsync Hok)
    as (cb' & spA' & spB' & H1 & H2 & H3 & H4 & H5).
  exists cb', spA', spB'. split; [by eapply ticket_roundtrip|done].
Qed.

End Theorems.

(** ** A concrete transfer *)
Definition fileA : Client := clientOf demoCreator (str "bo") demoA.
Definition fileB : Client := clientOf (str "bo") demoCreator demoB.
Definition demoFile : bytes := str "a few bytes of a file".

Definition demoEnc := EncryptFile true (demoBytes 32 x22) fileA (str "bo") (str "a.txt") demoFile 100.

Lemma putUvarint_short x : len (putUvarint x) <= 10.
Proof.
  unfold putUvarint. generalize (u64 x). intros z. unfold len.
  assert (forall n y, (length (putUvarint_go n y) <= n)%nat) as H.
  { induction n as [|n IH]; intros y; cbn [putUvarint_go]; [done|]. destruct (y <? 128); cbn [length]; [lia|]. specialize (IH (Z.shiftr y 7)). lia. }
  specialize (H 10%nat z). lia.
Qed.

(** Short fields encode to a short body. *)
Lemma ref_encode_small (fs : fields) : (length fs <= 16)%nat -> Forall (fun f => len f.2 <= 64) fs ->
  exists w, np_encode fs = Some w /\ 0 < len w < 2 ^ 31.
Proof.
  intros Hn Hf. destruct (np_encode_total fs Hn) as [w Hw].
  { eapply List.Forall_impl; [|exact Hf]. intros f H. cbv beta in H. lia. }
  exists w. split; [done|]. cbn [np_encode ref_nanopack] in Hw. unfold ref_encode in Hw. destruct (_ && _)%bool; [|done].
  injection Hw as <-. assert (len (mjoin (ref_field <$> fs)) <= 75 * len fs) as Hb.
  { clear Hn. induction Hf as [|f fs H _ IH]; [done|]. cbv beta in H. rewrite fmap_cons, mjoin_cons. unfold len in *. rewrite length_app.
    unfold ref_field at 1. cbn [length]. rewrite length_app. pose proof (putUvarint_short (len f.2)) as Hp. unfold len in *. lia. }
  unfold len in *. cbn [length]. lia.
Qed.

(** Any manifest of this name encodes, and its ticket as well. *)
Lemma demo_ticket ps cs ck cc fh ch : length fh = 32%nat -> length ch = 32%nat ->
  exists raw body, Manifest_Bytes (mkManifest (str "a.txt") ps cs ck cc fh ch) = Some raw /\
    MarshalTicket (mkTicket (demoBytes 16 x01) (demoBytes 32 x02) (str "https://relay") raw demoCreator) = Ok body.
Proof.
  intros Hf Hc.
  destruct (ref_encode_small [(x01, str "a.txt"); (x02, putU64 (u64 ps)); (x03, putU64 (u64 cs)); (x04, putU32 (u32 ck));
    (x05, putU32 (u32 cc)); (x06, fh); (x07, ch)]) as (raw & Hr & Hl); [cbn; lia| |].
  { repeat apply List.Forall_cons; try apply List.Forall_nil; cbn [snd]; rewrite ?len_putU64, ?len_putU32; try lia;
      unfold len; rewrite ?Hf, ?Hc; try lia. vm_compute. discriminate. }
  exists raw. unfold MarshalTicket. cbn [tk_Transfer tk_Secret tk_Shard tk_Manifest tk_From].
  destruct (np_encode_total [(x01, [TicketVersion]); (x02, demoBytes 16 x01); (x03, demoBytes 32 x02); (x04, str "https://relay");
    (x05, raw); (x06, demoCreator)]) as [w Hw]; [cbn; lia| |].
  { repeat apply List.Forall_cons; try apply List.Forall_nil; cbn [snd]; try lia; vm_compute; reflexivity. }
  exists w. split; [exact Hr|]. rewrite Hw, (proj2 (Z.eqb_neq (len raw) 0)) by lia. reflexivity.
Qed.

Lemma demoEnc_ok : match demoEnc.2 with Ok (cipher, chunks, _) => (len cipher <? 2 ^ 32) && (1 <? len chunks) | _ => false end = true.
Proof. vm_compute. reflexivity. Qed.

Lemma file_transfer_faithful_witness : exists ca' cipher chunks mf cb' body t,
  demoEnc = (ca', Ok (cipher, chunks, mf)) /\ 1 < len chunks /\
  (DecodeTicketString (EncodeTicketString body) ≫= ParseTicket) = Ok t /\
  ReassembleAndDecrypt true fileB demoCreator chunks mf = (cb', Ok demoFile).
Proof.
  destruct demoEnc as [ca' r] eqn:H. pose proof demoEnc_ok as Ho. rewrite H in Ho. cbn [snd] in Ho.
  destruct r as [[[cipher chunks] mf]|e|]; [|discriminate|discriminate]. apply andb_true_iff in Ho as [Hl%Z.ltb_lt Hn%Z.ltb_lt].
  pose proof (EncryptFile_inv _ _ _ _ _ _ _ _ _ _ _ H) as (_ & _ & _ & _ & Hmf).
  destruct (demo_ticket (len demoFile) (len cipher) (effectiveChunk 100) (len chunks) (sha256 demoFile) (sha256 cipher)
    (length_sha256 _) (length_sha256 _)) as (raw & body & Hraw & Hbody). rewrite <- Hmf in Hraw.
  destruct (file_transfer_faithful true (demoBytes 32 x22) fileA ca' fileB (str "bo") (str "a.txt") demoFile 100 cipher chunks mf
    0%nat 0%nat demoA demoB (mkTicket (demoBytes 16 x01) (demoBytes 32 x02) (str "https://relay") raw demoCreator) body true
    H Hl Hraw Hbody) as (cb' & spA' & spB' & H1 & H2 & H3 & _).
  - vm_compute. reflexivity.
  - reflexivity.
  - vm_compute. reflexivity.
  - reflexivity.
  - exact demo_synced.
  - split; [reflexivity|]. split; [vm_compute; discriminate|vm_compute; reflexivity].
  - exists ca', cipher, chunks, mf, cb', body. eexists. split; [reflexivity|]. split; [exact Hn|]. split; [exact H1|exact H3].
Defined.

Lemma encrypt_file_terminates_witness : exists chunks mf,
  len chunks = 3 /\ demoEnc.2 = Ok (match (Client_Encrypt true (demoBytes 32 x22) fileA (str "bo") demoFile).2 with Ok w => w | _ => [] end, chunks, mf).
Proof.
  destruct (Client_Encrypt true (demoBytes 32 x22) fileA (str "bo") demoFile) as [c' r] eqn:H.
  assert (match r with Ok w => (len w <? 2 ^ 62) && ((len w + 99) / 100 =? 3) | _ => false end = true) as Ho
    by (change r with (c', r).2; rewrite <- H; vm_compute; reflexivity).
  destruct r as [w|e|]; [|discriminate|discriminate]. apply andb_true_iff in Ho as [Hl%Z.ltb_lt Hn%Z.eqb_eq].
  destruct (encrypt_file_terminates true (demoBytes 32 x22) fileA c' (str "bo") (str "a.txt") demoFile 100 w) as (chunks & mf & He & _ & _ & Hc & _).
  - split; [vm_compute; reflexivity|vm_compute; discriminate].
  - vm_compute. discriminate.
  - exact H.
  - exact Hl.
  - exists chunks, mf. split; [|unfold demoEnc; rewrite He; reflexivity].
    rewrite Hc. change (effectiveChunk 100) with 100. rewrite <- Hn. f_equal. lia.
Defined.
