(* ===== verification/Registry.v ===== *)
(** * internal/registry: which peer an input means ([peers.go], [state.go])

    The peers a shell session knows, the completion candidates drawn from them,
    and the resolution of what the user typed to a peer ID.  A set is Go's
    [map[string]bool]; the order the runtime ranges over it comes from
    [storeIO]. *)
From S2P Require Import Prelude GoStd Client Contacts MultiMsg MultiStore MultiStoreTheorems Mailbox MailboxTheorems.
#[local] Open Scope Z_scope.

Module Registry.

Abbreviation set := (gmap bytes bool).

(** The fields of [State] that say which peers are known. *)
Record State := mkState {
  KnownPeers : set;                       (* a nil map reads as the empty one *)
  MailboxStore : option Mailbox.Store;
  ActiveClient : option Client;
}.

Definition pendingPrefix : bytes := str "pending".

Inductive reg_err := ErrEmptyPeer | AmbiguousPeerError (input : bytes) (matches : list bytes).

Definition isPending (key : bytes) : bool :=
  (bytes_eqb key pendingPrefix || hasPrefix (pendingPrefix ++ str "_") key)%bool.

Definition RememberPeer (s : State) (peerID : bytes) : State :=
  let peerID := trimSpace peerID in
  if (bytes_eqb peerID [] || isPending peerID)%bool then s
  else mkState (<[peerID := true]> (KnownPeers s)) (MailboxStore s) (ActiveClient s).

Definition SyncPeersFromClient (io : storeIO) (s : State) : State :=
  match ActiveClient s with
  | None => s
  | Some c => fold_left RememberPeer (io_range io (cl_Sessions c)).*1 s
  end.

(** [add] and the loops of [peerIDs]. *)
Definition add (m : set) (id : bytes) : set := if isPending id then m else <[id := true]> m.

Definition addMessage (m : set) (msg : Mailbox.Message) : set :=
  let sender := Mailbox.m_Sender msg in
  if (negb (bytes_eqb sender []) && negb (bytes_eqb sender (str "Me")))%bool then add m sender else m.

Definition addThread (m : set) (t : Mailbox.Thread) : set :=
  let m := if negb (Mailbox.IsGroupKey (Mailbox.t_Key t)) then add m (Mailbox.t_Key t) else m in
  fold_left addMessage (Mailbox.t_Messages t) m.

Definition peerIDs (io : storeIO) (s : State) : set :=
  let m := fold_left add (io_range io (KnownPeers s)).*1 ∅ in
  let m := match MailboxStore s with Some mb => fold_left addThread (Mailbox.List_ io mb) m | None => m end in
  match ActiveClient s with Some c => fold_left add (io_range io (cl_Sessions c)).*1 m | None => m end.

Definition sortedKeys (io : storeIO) (m : set) : list bytes := bytes_sort (io_range io m).*1.

(** [book] is what [contacts.Load] returned ([None]: it failed). *)
Definition addContact (m : set) (e : bytes * Contact) : set :=
  let m := if negb (bytes_eqb e.1 []) then <[e.1 := true]> m else m in
  if negb (bytes_eqb (c_UserID e.2) []) then <[c_UserID e.2 := true]> m else m.

Definition PeerCandidates (io : storeIO) (book : option Store) (s : State) : list bytes :=
  let m := peerIDs io s in
  let m := match book with Some b => fold_left addContact (io_range io b) m | None => m end in
  let m := match ActiveClient s with Some c => delete (cl_Id c) m | None => m end in
  sortedKeys io m.

Definition addGroupThread (m : set) (t : Mailbox.Thread) : set :=
  if Mailbox.IsGroupKey (Mailbox.t_Key t) then
    let m := <[Mailbox.t_Key t := true]> m in
    if negb (bytes_eqb (Mailbox.t_Title t) []) then <[Mailbox.t_Title t := true]> m else m
  else m.

Definition ThreadCandidates (io : storeIO) (book : option Store) (s : State) : list bytes :=
  let m := fold_left (fun m p => <[p := true]> m) (PeerCandidates io book s) (∅ : set) in
  let m := match MailboxStore s with Some mb => fold_left addGroupThread (Mailbox.List_ io mb) m | None => m end in
  sortedKeys io m.

Definition prefixMatches (input : bytes) (ids : list bytes) : list bytes :=
  List.filter (hasPrefix input) ids.

Definition ResolvePeer (io : storeIO) (book : option Store) (s : State) (input : bytes) : res reg_err bytes :=
  let input := trimSpace input in
  if bytes_eqb input [] then Err ErrEmptyPeer else
  let fallback :=
    let known := peerIDs io s in
    if default false (known !! input) then Ok input else
    match prefixMatches input (io_range io known).*1 with
    | [] => Ok input
    | [id] => Ok id
    | matches => Err (AmbiguousPeerError input (bytes_sort matches))
    end in
  match book with
  | Some b =>
      match b !! input with
      | Some c => if negb (bytes_eqb (c_UserID c) []) then Ok (c_UserID c) else fallback
      | None => fallback
      end
  | None => fallback
  end.

Definition ShortID (id : bytes) : bytes :=
  if len id <? 12 then id else take 6 id ++ str "..." ++ drop (length id - 4) id.

(** ** The known peers, as a set

    A peer is known when it is no handshake placeholder and was remembered, has
    a conversation, wrote a message, or has a session. *)
Definition appears (t : Mailbox.Thread) (id : bytes) : Prop :=
  (Mailbox.IsGroupKey (Mailbox.t_Key t) = false /\ id = Mailbox.t_Key t) \/
  (exists m, m ∈ Mailbox.t_Messages t /\ Mailbox.m_Sender m = id /\ id ≠ [] /\ id ≠ str "Me").

Definition knows (s : State) (id : bytes) : Prop :=
  isPending id = false /\
  (is_Some (KnownPeers s !! id) \/
   (exists mb key t, MailboxStore s = Some mb /\ Mailbox.threads mb !! key = Some t /\ appears t id) \/
   (exists c, ActiveClient s = Some c /\ is_Some (cl_Sessions c !! id))).

(** Sets hold [true] only. *)
Definition mem (m : set) (id : bytes) : Prop := m !! id = Some true.
Definition all_true (m : set) : Prop := forall id v, m !! id = Some v -> v = true.

(** A step of a loop that adds the IDs [P] allows. *)
Definition adds (f : set -> set) (P : bytes -> Prop) : Prop :=
  forall m, all_true m -> all_true (f m) /\ forall id, mem (f m) id <-> P id \/ mem m id.

Lemma insert_true m k : all_true m -> all_true (<[k := true]> m).
Proof. intros H id v. rewrite lookup_insert_Some. intros [[_ <-]|[_ Hv]]; [done|by eapply H]. Qed.

Lemma insert_mem (m : set) k id : mem (<[k := true]> m) id <-> k = id \/ mem m id.
Proof.
  unfold mem. rewrite lookup_insert_Some. split; [naive_solver|]. intros [->|H]; [by left|].
  destruct (decide (k = id)); [by left|by right].
Qed.

Lemma adds_insert k : adds (fun m => <[k := true]> m) (fun id => k = id).
Proof. intros m Hm. split; [by apply insert_true|]. intros id. apply insert_mem. Qed.

Lemma adds_id : adds (fun m => m) (fun _ => False).
Proof. intros m Hm. split; [done|]. naive_solver. Qed.

Lemma adds_if (b : bool) f g P Q : adds f P -> adds g Q ->
  adds (fun m => if b then f m else g m) (fun id => if b then P id else Q id).
Proof. by destruct b. Qed.

Lemma adds_comp f g P Q : adds f P -> adds g Q -> adds (fun m => f (g m)) (fun id => P id \/ Q id).
Proof.
  intros Hf Hg m Hm. destruct (Hg m Hm) as [H1 H2]. destruct (Hf _ H1) as [H3 H4]. split; [done|].
  intros id. rewrite H4, H2. tauto.
Qed.

Lemma adds_fold {A} (step : set -> A -> set) (P : A -> bytes -> Prop) (l : list A) :
  (forall a, adds (fun m => step m a) (P a)) -> adds (fun m => fold_left step l m) (fun id => exists a, a ∈ l /\ P a id).
Proof.
  intros Hs. induction l as [|a l IH]; intros m Hm; cbn [fold_left].
  - split; [done|]. intros id. split; [by right|]. intros [(a & Ha & _)|H]; [by apply not_elem_of_nil in Ha|done].
  - destruct (Hs a m Hm) as [H1 H2]. destruct (IH _ H1) as [H3 H4]. split; [done|]. intros id. rewrite H4, H2.
    setoid_rewrite elem_of_cons. naive_solver.
Qed.

Lemma adds_proper f P Q : (forall id, P id <-> Q id) -> adds f P -> adds f Q.
Proof. intros Hpq Hf m Hm. destruct (Hf m Hm) as [H1 H2]. split; [done|]. intros id. by rewrite H2, Hpq. Qed.

Lemma adds_add id : adds (fun m => add m id) (fun x => isPending x = false /\ id = x).
Proof.
  eapply adds_proper, (adds_if (isPending id)); [|apply adds_id|apply adds_insert].
  intros x. cbv beta. destruct (isPending id) eqn:H; (split; [|intros [Hx Hid]; subst x; congruence]); [done|intros <-; done].
Qed.

Lemma adds_message msg : adds (fun m => addMessage m msg)
  (fun id => isPending id = false /\ Mailbox.m_Sender msg = id /\ id ≠ [] /\ id ≠ str "Me").
Proof.
  unfold addMessage. eapply adds_proper, adds_if; [|apply adds_add|apply adds_id]. intros id. cbv beta.
  destruct (_ && _)%bool eqn:H.
  - bool_prop. naive_solver.
  - split; [done|]. intros (_ & <- & H1 & H2). rewrite !(proj2 (bytes_eqb_neq _ _)) in H by done. done.
Qed.

Lemma adds_thread t : adds (fun m => addThread m t)
  (fun id => isPending id = false /\ appears t id).
Proof.
  unfold addThread, appears. cbv zeta. eapply adds_proper, adds_comp; [|apply adds_fold, adds_message|apply adds_if; [apply adds_add|apply adds_id]].
  intros id. cbv beta. destruct (Mailbox.IsGroupKey _); cbn [negb]; naive_solver.
Qed.

Lemma range_keys {A} (io : storeIO) (m : gmap bytes A) (id : bytes) : range_ok io -> id ∈ (io_range io m).*1 <-> is_Some (m !! id).
Proof.
  intros Hio. rewrite (Hio _ m), list_elem_of_fmap. split.
  - intros ([k v] & -> & Hin). apply elem_of_map_to_list in Hin. by exists v.
  - intros [v Hv]. exists (id, v). split; [done|]. by apply elem_of_map_to_list.
Qed.

Lemma list_threads (io : storeIO) (mb : Mailbox.Store) (t : Mailbox.Thread) : range_ok io -> t ∈ Mailbox.List_ io mb <-> exists key, Mailbox.threads mb !! key = Some t.
Proof.
  intros Hio. unfold Mailbox.List_, Mailbox.byActivity. rewrite merge_sort_Permutation, (Hio _ (Mailbox.threads mb)), list_elem_of_fmap. split.
  - intros ([k v] & -> & Hin). apply elem_of_map_to_list in Hin. by exists k.
  - intros [k Hk]. exists (k, t). split; [done|]. by apply elem_of_map_to_list.
Qed.

(** Whatever order the maps are ranged over in, [peerIDs] is the set of known peers. *)
Lemma peerIDs_spec (io : storeIO) (s : State) : range_ok io -> all_true (peerIDs io s) /\ forall id, mem (peerIDs io s) id <-> knows s id.
Proof.
  intros Hio.
  assert (all_true ∅ /\ forall id, ~ mem ∅ id) as [He Hn] by (split; [intros id v H; by rewrite lookup_empty in H|intros id H; unfold mem in H; by rewrite lookup_empty in H]).
  destruct (adds_fold add _ (io_range io (KnownPeers s)).*1 adds_add ∅ He) as [H1 H2].
  set (m1 := fold_left add (io_range io (KnownPeers s)).*1 ∅) in *.
  set (m2 := match MailboxStore s with Some mb => fold_left addThread (Mailbox.List_ io mb) m1 | None => m1 end).
  assert (all_true m2 /\ forall id, mem m2 id <-> (exists mb t, MailboxStore s = Some mb /\ t ∈ Mailbox.List_ io mb /\ isPending id = false /\ appears t id) \/ mem m1 id) as [H3 H4].
  { unfold m2. destruct (MailboxStore s) as [mb|]; [|split; [done|naive_solver]].
    destruct (adds_fold addThread _ (Mailbox.List_ io mb) adds_thread m1 H1) as [Ha Hb]. split; [done|]. intros id. rewrite Hb. naive_solver. }
  assert (all_true (peerIDs io s) /\ forall id, mem (peerIDs io s) id <->
    (exists c, ActiveClient s = Some c /\ id ∈ (io_range io (cl_Sessions c)).*1 /\ isPending id = false) \/ mem m2 id) as [H5 H6].
  { unfold peerIDs. fold m1. fold m2. destruct (ActiveClient s) as [c|]; [|split; [done|naive_solver]].
    destruct (adds_fold add _ (io_range io (cl_Sessions c)).*1 adds_add m2 H3) as [Ha Hb]. split; [done|]. intros id. rewrite Hb. naive_solver. }
  split; [done|]. intros id. rewrite H6, H4, H2. unfold knows. setoid_rewrite (range_keys io); [|done..].
  setoid_rewrite (list_threads io); [|done]. specialize (Hn id). naive_solver.
Qed.

(** ** Completion candidates *)
Definition listed (e : bytes * Contact) (id : bytes) : Prop := id ≠ [] /\ (id = e.1 \/ id = c_UserID e.2).

Lemma adds_contact e : adds (fun m => addContact m e) (listed e).
Proof.
  eapply adds_proper, (adds_comp (fun m => if negb (bytes_eqb (c_UserID e.2) []) then <[c_UserID e.2 := true]> m else m)
    (fun m => if negb (bytes_eqb e.1 []) then <[e.1 := true]> m else m)); [|apply adds_if; [apply adds_insert|apply adds_id]..].
  intros id. unfold listed. cbv beta. destruct (bytes_eqb e.1 []) eqn:H1, (bytes_eqb (c_UserID e.2) []) eqn:H2; bool_prop; cbn [negb]; naive_solver.
Qed.

Lemma sortedKeys_mem (io : storeIO) (m : set) (id : bytes) : range_ok io -> all_true m -> id ∈ sortedKeys io m <-> mem m id.
Proof.
  intros Hio Hm. unfold sortedKeys. rewrite bytes_sort_perm, range_keys by done. unfold mem. split; [|by eexists].
  intros [v Hv]. by rewrite Hv, (Hm _ _ Hv).
Qed.

(** Tab offers exactly the known peers, the aliases and the IDs behind them, and
    never the user's own ID. *)
Theorem peer_candidates_spec (io : storeIO) (book : option Store) (s : State) (id : bytes) : range_ok io ->
  id ∈ PeerCandidates io book s <->
  (knows s id \/ exists b k c, book = Some b /\ b !! k = Some c /\ listed (k, c) id) /\
  (forall c, ActiveClient s = Some c -> id ≠ cl_Id c).
Proof.
  intros Hio. destruct (peerIDs_spec io s Hio) as [Ht HK]. unfold PeerCandidates.
  set (m := match book with Some b => fold_left addContact (io_range io b) (peerIDs io s) | None => peerIDs io s end).
  assert (all_true m /\ (mem m id <-> knows s id \/ exists b k c, book = Some b /\ b !! k = Some c /\ listed (k, c) id)) as [Hm Hid].
  { unfold m. rewrite <- HK. destruct book as [b|]; [|split; [done|naive_solver]].
    destruct (adds_fold addContact _ (io_range io b) adds_contact _ Ht) as [Ha Hb]. split; [done|]. rewrite Hb.
    enough ((exists e, e ∈ io_range io b /\ listed e id) <-> exists b' k c, Some b = Some b' /\ b' !! k = Some c /\ listed (k, c) id) by tauto. split.
    - intros ([k c] & Hin & Hl). rewrite (Hio _ b) in Hin. apply elem_of_map_to_list in Hin. by exists b, k, c.
    - intros (b' & k & c & [= <-] & Hk & Hl). exists (k, c). split; [|done]. rewrite (Hio _ b). by apply elem_of_map_to_list. }
  rewrite <- Hid. destruct (ActiveClient s) as [c|].
  - rewrite sortedKeys_mem; [|done|intros i v [_ H]%lookup_delete_Some; by eapply Hm]. unfold mem. rewrite lookup_delete_Some.
    split; [intros [H1 H2]; split; [done|by intros c' [= <-] ?]|]. intros [H1 H2]. split; [by apply not_eq_sym, H2|done].
  - rewrite sortedKeys_mem by done. naive_solver.
Qed.

(** ** Resolution

    The runtime's orders do not reach the result. *)
Lemma peerIDs_order (io io' : storeIO) (s : State) : range_ok io -> range_ok io' -> peerIDs io s = peerIDs io' s.
Proof.
  intros H H'. destruct (peerIDs_spec io s H) as [Ht Hm], (peerIDs_spec io' s H') as [Ht' Hm'].
  apply map_eq. intros id. specialize (Hm id). rewrite <- Hm' in Hm. unfold mem in Hm.
  destruct (peerIDs io s !! id) as [v|] eqn:Hv, (peerIDs io' s !! id) as [v'|] eqn:Hv'; try done.
  - by rewrite (Ht _ _ Hv), (Ht' _ _ Hv').
  - rewrite (Ht _ _ Hv) in Hm. by destruct Hm as [Hm _]; discriminate (Hm eq_refl).
  - rewrite (Ht' _ _ Hv') in Hm. by destruct Hm as [_ Hm]; discriminate (Hm eq_refl).
Qed.

Definition no_alias (book : option Store) (p : bytes) : Prop :=
  forall b c, book = Some b -> b !! p = Some c -> c_UserID c = [].

(** Resolution without an alias, as a function of the known set and the order. *)
Definition byPrefix (known : set) (keys : list bytes) (p : bytes) : res reg_err bytes :=
  if default false (known !! p) then Ok p else
  match prefixMatches p keys with
  | [] => Ok p
  | [id] => Ok id
  | matches => Err (AmbiguousPeerError p (bytes_sort matches))
  end.

Lemma ResolvePeer_cases (io : storeIO) (book : option Store) (s : State) (input : bytes) :
  let p := trimSpace input in
  (p = [] /\ ResolvePeer io book s input = Err ErrEmptyPeer) \/
  (p ≠ [] /\ exists b c, book = Some b /\ b !! p = Some c /\ c_UserID c ≠ [] /\ ResolvePeer io book s input = Ok (c_UserID c)) \/
  (p ≠ [] /\ no_alias book p /\ ResolvePeer io book s input = byPrefix (peerIDs io s) (io_range io (peerIDs io s)).*1 p).
Proof.
  intros p. unfold ResolvePeer. fold p. cbv zeta. destruct (bytes_eqb p []) eqn:Hp; bool_prop; [by left|right].
  destruct book as [b|]; [|by right]. destruct (b !! p) as [c|] eqn:Hb; [|right; conjs; [done| |done]; intros b' c [= <-] Hc; congruence].
  destruct (bytes_eqb (c_UserID c) []) eqn:Hc; bool_prop; cbn [negb].
  - right. conjs; [done| |done]. intros b' c' [= <-] Hc'. congruence.
  - left. split; [done|]. by exists b, c.
Qed.

(** What the prefix search does, for keys in any order. *)
Definition resolved (K : bytes -> Prop) (p : bytes) (r : res reg_err bytes) : Prop :=
  match r with
  | Ok id => (id = p /\ (K p \/ forall q, K q -> ~ p `prefix_of` q)) \/
             (~ K p /\ K id /\ p `prefix_of` id /\ forall q, K q -> p `prefix_of` q -> q = id)
  | Err (AmbiguousPeerError i ms) =>
      i = p /\ ~ K p /\ (2 <= length ms)%nat /\ NoDup ms /\ Sorted bytes_le ms /\ forall q, q ∈ ms <-> K q /\ p `prefix_of` q
  | Err ErrEmptyPeer | Panic => False
  end.

Lemma byPrefix_resolved (known : set) (keys : list bytes) (p : bytes) (K : bytes -> Prop) :
  all_true known -> (forall id, mem known id <-> K id) -> NoDup keys -> (forall id, id ∈ keys <-> is_Some (known !! id)) ->
  resolved K p (byPrefix known keys p).
Proof.
  intros Ht HK Hnd Hkeys. unfold byPrefix. destruct (known !! p) as [v|] eqn:Hv.
  { rewrite (Ht _ _ Hv) in Hv |- *. left. split; [done|]. left. by apply HK. }
  assert (~ K p) as Hnk by (rewrite <- HK; unfold mem; by rewrite Hv). cbn [default].
  assert (forall q, q ∈ prefixMatches p keys <-> K q /\ p `prefix_of` q) as Hq.
  { intros q. unfold prefixMatches, hasPrefix. rewrite list_elem_of_In, filter_In, <- list_elem_of_In, bool_decide_eq_true, Hkeys, <- HK.
    unfold mem. split; intros [H ?]; (split; [|done]); [destruct H as [v H]; by rewrite H, (Ht _ _ H)|by exists true]. }
  assert (NoDup (prefixMatches p keys)) as Hnm by (apply NoDup_ListNoDup, List.NoDup_filter; by apply NoDup_ListNoDup).
  destruct (prefixMatches p keys) as [|a [|b ms]]; cbn [resolved].
  - left. split; [done|]. right. intros q Hk Hpre. destruct (not_elem_of_nil q). by apply Hq.
  - right. destruct (Hq a) as [Ha _]. destruct Ha as [Hka Hpa]; [by apply elem_of_cons; left|]. conjs; try done.
    intros q Hk Hpre. destruct (Hq q) as [_ H]. by apply list_elem_of_singleton, H.
  - conjs; try done.
    + rewrite bytes_sort_perm. cbn. lia.
    + by rewrite bytes_sort_perm.
    + apply bytes_sort_sorted.
    + intros q. by rewrite bytes_sort_perm.
Qed.

Lemma byPrefix_perm (known : set) (keys keys' : list bytes) (p : bytes) : keys ≡ₚ keys' -> byPrefix known keys p = byPrefix known keys' p.
Proof.
  intros Hp. unfold byPrefix. destruct (default false _); [done|]. pose proof (filter_perm (hasPrefix p) _ _ Hp) as Hf. fold (prefixMatches p keys) in Hf.
  fold (prefixMatches p keys') in Hf. destruct (prefixMatches p keys) as [|a [|b l]].
  - by apply Permutation_nil_l in Hf as <-.
  - symmetry in Hf. by apply Permutation_singleton_r in Hf as ->.
  - pose proof (Permutation_length Hf) as Hl. destruct (prefixMatches p keys') as [|a' [|b' l']]; [done|done|].
    by rewrite (bytes_sort_proper _ _ Hf).
Qed.

(** C37: An input never reaches a peer by guesswork.  Resolving what the user
    typed gives, whatever order the runtime ranges over its maps in: the contact
    whose alias it is; else the input itself, when it is a known peer or no known
    peer starts with it; else the one known peer that starts with it.  When
    several known peers start with it the result is an error that lists exactly
    those, sorted, and blank input is an error. *)
Theorem resolve_peer_never_guesses (io : storeIO) (book : option Store) (s : State) (input : bytes) :
  range_ok io ->
  let p := trimSpace input in
  let r := ResolvePeer io book s input in
  (p = [] -> r = Err ErrEmptyPeer) /\
  (p ≠ [] -> forall b c, book = Some b -> b !! p = Some c -> c_UserID c ≠ [] -> r = Ok (c_UserID c)) /\
  (p ≠ [] -> no_alias book p -> resolved (knows s) p r) /\
  (forall io', range_ok io' -> ResolvePeer io' book s input = r).
Proof.
  intros Hio p r. destruct (peerIDs_spec io s Hio) as [Ht HK]. set (known := peerIDs io s) in *.
  pose proof (ResolvePeer_cases io book s input) as Hc. cbv zeta in Hc. fold p r in Hc. conjs.
  - intros Hp. destruct Hc as [[_ H]|[[H _]|[H _]]]; done.
  - intros Hp b c -> Hb Hu. destruct Hc as [[H _]|[(_ & b' & c' & [= <-] & Hb' & _ & H)|(_ & H & _)]]; [done|congruence|].
    by specialize (H b c eq_refl Hb).
  - intros Hp Hna. destruct Hc as [[H _]|[(_ & b & c & Hbk & Hb & Hu & _)|(_ & _ & ->)]]; [done|by destruct (Hu (Hna b c Hbk Hb))|].
    apply byPrefix_resolved; try done.
    + fold known. rewrite (Hio _ known). apply NoDup_fst_map_to_list.
    + intros id. by apply range_keys.
  - intros io' Hio'. unfold r, ResolvePeer. fold p. cbv zeta. rewrite <- (peerIDs_order io io') by done. fold known.
    assert ((io_range io' known).*1 ≡ₚ (io_range io known).*1) as Hperm by (by rewrite (Hio _ known), (Hio' _ known)).
    apply (byPrefix_perm known _ _ p) in Hperm. unfold byPrefix in Hperm. by rewrite Hperm.
Qed.

Definition demoState : State := mkState {[str "abxy" := true; str "abcd" := true; str "zed" := true]} None None.

Example resolve_unique : ResolvePeer demoIO None demoState (str " z ") = Ok (str "zed").
Proof. vm_compute. reflexivity. Qed.

Lemma resolve_peer_never_guesses_witness :
  ResolvePeer demoIO None demoState (str " ab") = Err (AmbiguousPeerError (str "ab") [str "abcd"; str "abxy"]) /\
  resolved (knows demoState) (trimSpace (str " ab")) (ResolvePeer demoIO None demoState (str " ab")).
Proof.
  split; [vm_compute; reflexivity|].
  destruct (resolve_peer_never_guesses demoIO None demoState (str " ab") demoIO_range) as (_ & _ & H & _).
  apply H; [vm_compute; discriminate|intros b c Hb; discriminate].
Defined.

End Registry.
