(* ===== verification/Rpc.v ===== *)
(** * internal/transport: the RPC messages between the core and a transport
    ([rpc.go], [rpc_file.go])

    A transport runs as its own process; every request and response is one of
    the messages below, encoded field by field, inside an envelope that carries
    the operation and the request number.  A message that a Go function takes as
    separate arguments is the record its decoder returns. *)
From S2P Require Import Prelude GoStd External Records.
#[local] Open Scope Z_scope.

Module Rpc.

Definition MaxFrameBytes : Z := 40960.
Definition MaxRPCBytes : Z := 2097152.
Definition MaxXferManifest : Z := 4096.

Definition OpError : byte := x00.
Definition OpInitialize : byte := x01.
Definition OpIdentityRegister : byte := x11.
Definition ActionStart : byte := x01.
Definition ActionStop : byte := x02.

Inductive rpc_err :=
| RpcEncode | RpcDecode | RpcShortBody | RpcLength (n : Z) | RpcOp | RpcUnknownOp (op : byte)
| RpcInitialize | RpcNoID | RpcFrameBounds | RpcRecipient | RpcSenderHint | RpcMailbox | RpcTooLarge
| RpcAttach | RpcDetach | RpcPollMailbox | RpcTooMany | RpcPollResult | RpcPollTruncated | RpcTrailing
| RpcCapability | RpcCodeZero | RpcAction | RpcNoAction
| RpcRegister | RpcIdentity | RpcRegisterResult | RpcResolve | RpcResolveResult
| RpcManifest | RpcParams | RpcTransferID | RpcSecret | RpcChunk | RpcRanges | RpcEncoding
| RpcAuthTicket | RpcAuthBoth | RpcAuth | RpcComplete | RpcCancel.

Definition getU32 (b : bytes) : res rpc_err Z := if negb (len b =? 4) then Err RpcShortBody else Ok (unbe b).
Definition getU64 (b : bytes) : res rpc_err Z := if negb (len b =? 8) then Err RpcShortBody else Ok (unbe b).

(** [if len(f.Data) != 1 { return nil, ErrShortBody }], then the byte. *)
Definition getByte (e : rpc_err) (b : bytes) : res rpc_err byte := match b with [v] => Ok v | _ => Err e end.

(** A field that is empty or of one size. *)
Definition emptyOr (n : Z) (b : bytes) : bool := ((len b =? 0) || (len b =? n))%bool.

Definition boolByte (b : bool) : bytes := [if b then x01 else x00].

Record Envelope := mkEnvelope { e_Op : byte; e_ReqID : Z; e_Payload : bytes }.
Record Initialize := mkInitialize { in_TransportID : bytes; in_APIVersion : byte; in_Config : bytes }.
Record InitResult := mkInitResult { ir_OK : bool; ir_Detail : bytes; ir_ActualAPI : byte }.
Record Send := mkSend { s_Frame : bytes; s_RecipientPub : bytes; s_SenderHint : bytes; s_MailboxID : bytes; s_ShardURL : bytes }.
Record Ack := mkAck { a_OK : bool; a_Detail : bytes }.
Record Attach := mkAttach { at_MailboxID : bytes; at_ReadSecret : bytes; at_ShardURL : bytes; at_RouterURL : bytes }.
Record Poll := mkPoll { p_Limit : byte; p_MailboxID : bytes }.
Record Status := mkStatus { st_Running : bool; st_Detail : bytes }.
Record Caps := mkCaps { c_Capabilities : list bytes; c_TransportID : bytes; c_Version : bytes }.
Record RPCError := mkRPCError { er_Code : Z; er_Detail : bytes }.
Record RegisterReq := mkRegisterReq { rr_UserTag : bytes; rr_RouterURL : bytes }.
Record IdentityRegisterReq := mkIdentityRegisterReq { id_Pubkey : bytes; id_Timestamp : Z; id_Nonce : bytes; id_Signature : bytes; id_RouterURL : bytes }.
Record RegisterResult := mkRegisterResult { rs_MailboxID : bytes; rs_ReadSecret : bytes; rs_ShardURL : bytes; rs_RouterURL : bytes }.
Record ResolveReq := mkResolveReq { rq_RecipientPub : bytes; rq_RouterURL : bytes }.
Record ResolveResult := mkResolveResult { rv_MailboxID : bytes; rv_ShardURL : bytes }.
Record XferCreate := mkXferCreate { xc_Total : Z; xc_ChunkSize : Z; xc_ChunkCount : Z; xc_Manifest : bytes; xc_MailboxID : bytes; xc_RecipientPub : bytes; xc_ShardURL : bytes }.
Record XferCreated := mkXferCreated { xd_TransferID : bytes; xd_Expires : Z; xd_DownloadSecret : bytes; xd_ShardURL : bytes }.
Record XferPut := mkXferPut { xp_TransferID : bytes; xp_Index : Z; xp_Payload : bytes; xp_Hash : bytes; xp_Offset : Z }.
Record XferProgress := mkXferProgress { xg_Highest : Z; xg_Count : Z; xg_MissingRanges : bytes; xg_Bitmap : bytes; xg_Encoding : byte }.
Record XferResume := mkXferResume { xr_TransferID : bytes; xr_MailboxID : bytes; xr_ReadSecret : bytes; xr_Ticket : bytes; xr_ShardURL : bytes }.
Record XferGet := mkXferGet { xt_TransferID : bytes; xt_Index : Z; xt_MailboxID : bytes; xt_ReadSecret : bytes; xt_Ticket : bytes; xt_ShardURL : bytes }.
Record XferChunk := mkXferChunk { xk_Payload : bytes; xk_Hash : bytes }.
Record XferCompleteReq := mkXferCompleteReq { xm_TransferID : bytes; xm_ManifestHash : bytes }.
Record XferCancelReq := mkXferCancelReq { xl_TransferID : bytes; xl_MailboxID : bytes; xl_ReadSecret : bytes }.

(** ** The loops over decoded fields, one turn each *)
Definition Envelope_field (m : Envelope) (f : byte * bytes) : res rpc_err Envelope :=
  let '(mkEnvelope o r p) := m in
  match f.1 with
  | x01 => v ← getByte RpcOp f.2; Ok (mkEnvelope v r p)
  | x02 => v ← getU32 f.2; Ok (mkEnvelope o v p)
  | x03 => Ok (mkEnvelope o r f.2)
  | _ => Ok m
  end.

Definition Initialize_field (m : Initialize) (f : byte * bytes) : res rpc_err Initialize :=
  let '(mkInitialize i a c) := m in
  match f.1 with
  | x01 => Ok (mkInitialize f.2 a c)
  | x02 => v ← getByte RpcShortBody f.2; Ok (mkInitialize i v c)
  | x03 => Ok (mkInitialize i a f.2)
  | _ => Ok m
  end.

Definition InitResult_field (m : InitResult) (f : byte * bytes) : res rpc_err InitResult :=
  let '(mkInitResult o d a) := m in
  match f.1 with
  | x01 => v ← getByte RpcShortBody f.2; Ok (mkInitResult (bool_decide (v = x01)) d a)
  | x02 => Ok (mkInitResult o f.2 a)
  | x03 => v ← getByte RpcShortBody f.2; Ok (mkInitResult o d v)
  | _ => Ok m
  end.

Definition Send_field (m : Send) (f : byte * bytes) : res rpc_err Send :=
  let '(mkSend a b c d e) := m in
  match f.1 with
  | x01 => Ok (mkSend f.2 b c d e)
  | x02 => Ok (mkSend a f.2 c d e)
  | x03 => Ok (mkSend a b f.2 d e)
  | x04 => Ok (mkSend a b c f.2 e)
  | x05 => Ok (mkSend a b c d f.2)
  | _ => Ok m
  end.

Definition Ack_field (m : Ack) (f : byte * bytes) : res rpc_err Ack :=
  let '(mkAck o d) := m in
  match f.1 with
  | x01 => v ← getByte RpcShortBody f.2; Ok (mkAck (bool_decide (v = x01)) d)
  | x02 => Ok (mkAck o f.2)
  | _ => Ok m
  end.

Definition Attach_field (m : Attach) (f : byte * bytes) : res rpc_err Attach :=
  let '(mkAttach a b c d) := m in
  match f.1 with
  | x01 => Ok (mkAttach f.2 b c d)
  | x02 => Ok (mkAttach a f.2 c d)
  | x03 => Ok (mkAttach a b f.2 d)
  | x04 => Ok (mkAttach a b c f.2)
  | _ => Ok m
  end.

Definition Poll_field (m : Poll) (f : byte * bytes) : res rpc_err Poll :=
  let '(mkPoll l i) := m in
  match f.1 with
  | x01 => v ← getByte RpcShortBody f.2; Ok (mkPoll v i)
  | x02 => Ok (mkPoll l f.2)
  | _ => Ok m
  end.

Definition Status_field (m : Status) (f : byte * bytes) : res rpc_err Status :=
  let '(mkStatus o d) := m in
  match f.1 with
  | x01 => v ← getByte RpcShortBody f.2; Ok (mkStatus (bool_decide (v = x01)) d)
  | x02 => Ok (mkStatus o f.2)
  | _ => Ok m
  end.

(** The capability blob: entries of a 16-bit length and as many bytes.  The loop
    eats at least two bytes a turn, so [length d] turns are enough. *)
Fixpoint capsLoop (fuel : nat) (d : bytes) (out : list bytes) : res rpc_err (list bytes) :=
  match d with
  | [] => Ok out
  | h :: l :: rest =>
      match fuel with
      | O => Err RpcShortBody
      | S fuel =>
          let n := Z.lor (Z.shiftl (Zb h) 8) (Zb l) in
          if ((n <=? 0) || (len rest <? n))%bool then Err RpcShortBody
          else capsLoop fuel (drop (Z.to_nat n) rest) (out ++ [take (Z.to_nat n) rest])
      end
  | _ => Err RpcShortBody
  end.

Definition Caps_field (m : Caps) (f : byte * bytes) : res rpc_err Caps :=
  let '(mkCaps c i v) := m in
  match f.1 with
  | x01 => c ← capsLoop (length f.2) f.2 c; Ok (mkCaps c i v)
  | x02 => Ok (mkCaps c f.2 v)
  | x03 => Ok (mkCaps c i f.2)
  | _ => Ok m
  end.

Definition RPCError_field (m : RPCError) (f : byte * bytes) : res rpc_err RPCError :=
  let '(mkRPCError c d) := m in
  match f.1 with
  | x01 => v ← getU32 f.2; Ok (mkRPCError v d)
  | x02 => Ok (mkRPCError c f.2)
  | _ => Ok m
  end.

Definition RegisterReq_field (m : RegisterReq) (f : byte * bytes) : res rpc_err RegisterReq :=
  let '(mkRegisterReq u r) := m in
  match f.1 with
  | x01 => Ok (mkRegisterReq f.2 r)
  | x02 => Ok (mkRegisterReq u f.2)
  | _ => Ok m
  end.

Definition IdentityRegisterReq_field (m : IdentityRegisterReq) (f : byte * bytes) : res rpc_err IdentityRegisterReq :=
  let '(mkIdentityRegisterReq p t n s r) := m in
  match f.1 with
  | x01 => Ok (mkIdentityRegisterReq f.2 t n s r)
  | x02 => v ← getU64 f.2; Ok (mkIdentityRegisterReq p v n s r)
  | x03 => Ok (mkIdentityRegisterReq p t f.2 s r)
  | x04 => Ok (mkIdentityRegisterReq p t n f.2 r)
  | x05 => Ok (mkIdentityRegisterReq p t n s f.2)
  | _ => Ok m
  end.

Definition RegisterResult_field (m : RegisterResult) (f : byte * bytes) : res rpc_err RegisterResult :=
  let '(mkRegisterResult a b c d) := m in
  match f.1 with
  | x01 => Ok (mkRegisterResult f.2 b c d)
  | x02 => Ok (mkRegisterResult a f.2 c d)
  | x03 => Ok (mkRegisterResult a b f.2 d)
  | x04 => Ok (mkRegisterResult a b c f.2)
  | _ => Ok m
  end.

Definition ResolveReq_field (m : ResolveReq) (f : byte * bytes) : res rpc_err ResolveReq :=
  let '(mkResolveReq p r) := m in
  match f.1 with
  | x01 => Ok (mkResolveReq f.2 r)
  | x02 => Ok (mkResolveReq p f.2)
  | _ => Ok m
  end.

Definition ResolveResult_field (m : ResolveResult) (f : byte * bytes) : res rpc_err ResolveResult :=
  let '(mkResolveResult i s) := m in
  match f.1 with
  | x01 => Ok (mkResolveResult f.2 s)
  | x02 => Ok (mkResolveResult i f.2)
  | _ => Ok m
  end.

Definition XferCreate_field (m : XferCreate) (f : byte * bytes) : res rpc_err XferCreate :=
  let '(mkXferCreate t k c mf mb rp su) := m in
  match f.1 with
  | x01 => v ← getU64 f.2; Ok (mkXferCreate v k c mf mb rp su)
  | x02 => v ← getU32 f.2; Ok (mkXferCreate t v c mf mb rp su)
  | x03 => v ← getU32 f.2; Ok (mkXferCreate t k v mf mb rp su)
  | x04 => Ok (mkXferCreate t k c f.2 mb rp su)
  | x05 => Ok (mkXferCreate t k c mf f.2 rp su)
  | x06 => Ok (mkXferCreate t k c mf mb f.2 su)
  | x07 => Ok (mkXferCreate t k c mf mb rp f.2)
  | _ => Ok m
  end.

Definition XferCreated_field (m : XferCreated) (f : byte * bytes) : res rpc_err XferCreated :=
  let '(mkXferCreated t e d s) := m in
  match f.1 with
  | x01 => Ok (mkXferCreated f.2 e d s)
  | x02 => v ← getU64 f.2; Ok (mkXferCreated t v d s)
  | x03 => Ok (mkXferCreated t e f.2 s)
  | x04 => Ok (mkXferCreated t e d f.2)
  | _ => Ok m
  end.

Definition XferPut_field (m : XferPut) (f : byte * bytes) : res rpc_err XferPut :=
  let '(mkXferPut t i p h o) := m in
  match f.1 with
  | x01 => Ok (mkXferPut f.2 i p h o)
  | x02 => v ← getU32 f.2; Ok (mkXferPut t v p h o)
  | x03 => Ok (mkXferPut t i f.2 h o)
  | x04 => Ok (mkXferPut t i p f.2 o)
  | x05 => v ← getU64 f.2; Ok (mkXferPut t i p h v)
  | _ => Ok m
  end.

Definition XferProgress_field (m : XferProgress) (f : byte * bytes) : res rpc_err XferProgress :=
  let '(mkXferProgress h c r b e) := m in
  match f.1 with
  | x01 => v ← getU32 f.2; Ok (mkXferProgress v c r b e)
  | x02 => Ok (mkXferProgress h c f.2 b e)
  | x03 => Ok (mkXferProgress h c r f.2 e)
  | x04 => v ← getByte RpcEncoding f.2; Ok (mkXferProgress h c r b v)
  | x05 => v ← getU32 f.2; Ok (mkXferProgress h v r b e)
  | _ => Ok m
  end.

Definition XferResume_field (m : XferResume) (f : byte * bytes) : res rpc_err XferResume :=
  let '(mkXferResume t i r k s) := m in
  match f.1 with
  | x01 => Ok (mkXferResume f.2 i r k s)
  | x02 => Ok (mkXferResume t f.2 r k s)
  | x03 => Ok (mkXferResume t i f.2 k s)
  | x04 => Ok (mkXferResume t i r f.2 s)
  | x05 => Ok (mkXferResume t i r k f.2)
  | _ => Ok m
  end.

Definition XferGet_field (m : XferGet) (f : byte * bytes) : res rpc_err XferGet :=
  let '(mkXferGet t x i r k s) := m in
  match f.1 with
  | x01 => Ok (mkXferGet f.2 x i r k s)
  | x02 => v ← getU32 f.2; Ok (mkXferGet t v i r k s)
  | x03 => Ok (mkXferGet t x f.2 r k s)
  | x04 => Ok (mkXferGet t x i f.2 k s)
  | x05 => Ok (mkXferGet t x i r f.2 s)
  | x06 => Ok (mkXferGet t x i r k f.2)
  | _ => Ok m
  end.

Definition XferChunk_field (m : XferChunk) (f : byte * bytes) : res rpc_err XferChunk :=
  let '(mkXferChunk p h) := m in
  match f.1 with
  | x01 => Ok (mkXferChunk f.2 h)
  | x02 => Ok (mkXferChunk p f.2)
  | _ => Ok m
  end.

Definition XferCompleteReq_field (m : XferCompleteReq) (f : byte * bytes) : res rpc_err XferCompleteReq :=
  let '(mkXferCompleteReq t h) := m in
  match f.1 with
  | x01 => Ok (mkXferCompleteReq f.2 h)
  | x02 => Ok (mkXferCompleteReq t f.2)
  | _ => Ok m
  end.

Definition XferCancelReq_field (m : XferCancelReq) (f : byte * bytes) : res rpc_err XferCancelReq :=
  let '(mkXferCancelReq t i r) := m in
  match f.1 with
  | x01 => Ok (mkXferCancelReq f.2 i r)
  | x02 => Ok (mkXferCancelReq t f.2 r)
  | x03 => Ok (mkXferCancelReq t i f.2)
  | _ => Ok m
  end.

(** Exactly one way to authorise a download. *)
Definition checkXferAuth (mailboxID readSecret ticket : bytes) : res rpc_err unit :=
  if len ticket =? 32 then check (negb (len mailboxID =? 0) || negb (len readSecret =? 0)) RpcAuthBoth
  else if negb (len ticket =? 0) then Err RpcAuthTicket
  else check (negb (len mailboxID =? 16) || negb (len readSecret =? 32)) RpcAuth.

(** Appending frames to a poll result, and reading them back. *)
Fixpoint pollBlob (frames : list bytes) (blob : bytes) : res rpc_err bytes :=
  match frames with
  | [] => Ok blob
  | f :: frames =>
      if ((len f =? 0) || (MaxFrameBytes <? len f))%bool then Err RpcFrameBounds
      else pollBlob frames (blob ++ putU32 (u32 (len f)) ++ f)
  end.

(** [count] at most 32 turns; [rest] is [blob[pos:]]. *)
Fixpoint pollLoop (count : nat) (rest : bytes) : res rpc_err (list bytes) :=
  match count with
  | O => if negb (len rest =? 0) then Err RpcTrailing else Ok []
  | S count =>
      if len rest <? 4 then Err RpcPollTruncated else
      let n := unbe (take 4 rest) in
      let rest := drop 4 rest in
      if ((n <=? 0) || (MaxFrameBytes <? n) || (len rest <? n))%bool then Err RpcFrameBounds
      else out ← pollLoop count (drop (Z.to_nat n) rest); Ok (take (Z.to_nat n) rest :: out)
  end.

Fixpoint capsBlob (caps : list bytes) (blob : bytes) : res rpc_err bytes :=
  match caps with
  | [] => Ok blob
  | c :: caps =>
      if ((len c =? 0) || (64 <? len c))%bool then Err RpcCapability
      else capsBlob caps (blob ++ [byteZ (Z.shiftr (len c) 8); byteZ (len c)] ++ c)
  end.

(** The poll result's loop over fields: the blob and, once seen, the count. *)
Definition pollField (m : bytes * option Z) (f : byte * bytes) : res rpc_err (bytes * option Z) :=
  match f.1 with
  | x01 => Ok (f.2, m.2)
  | x02 => v ← getU32 f.2; Ok (m.1, Some v)
  | _ => Ok m
  end.

Definition detachField (id : bytes) (f : byte * bytes) : res rpc_err bytes :=
  if bool_decide (f.1 = x01) then Ok f.2 else Ok id.

(** [UnmarshalStartStop] returns at the first action it meets. *)
Fixpoint startStopLoop (fs : fields) : res rpc_err byte :=
  match fs with
  | [] => Err RpcNoAction
  | f :: fs =>
      if bool_decide (f.1 = x01) then
        v ← getByte RpcShortBody f.2;
        if (negb (bool_decide (v = ActionStart)) && negb (bool_decide (v = ActionStop)))%bool then Err RpcAction else Ok v
      else startStopLoop fs
  end.

(** [frameMessage]: the length goes in front. *)
Definition frameMessage (body : bytes) : bytes := putU32 (u32 (len body)) ++ body.

Section Codecs.
Context `{N : Nanopack}.

Definition encode (fs : fields) : res rpc_err bytes := ofOption RpcEncode (np_encode fs).

Definition decode {A} (field : A -> byte * bytes -> res rpc_err A) (zero : A) (body : bytes) : res rpc_err A :=
  fs ← ofOption RpcDecode (np_decode body); foldFields field fs zero.

Definition MarshalEnvelope (e : Envelope) : res rpc_err bytes :=
  encode [(x01, [e_Op e]); (x02, putU32 (e_ReqID e)); (x03, e_Payload e)].

Definition UnmarshalEnvelope (body : bytes) : res rpc_err Envelope :=
  if ((len body =? 0) || (MaxRPCBytes <? len body))%bool then Err (RpcLength (len body)) else
  out ← decode Envelope_field (mkEnvelope x00 0 []) body;
  if (negb (bool_decide (e_Op out = OpError)) && ((Zb (e_Op out) <? Zb OpInitialize) || (Zb OpIdentityRegister <? Zb (e_Op out))))%bool
  then Err (RpcUnknownOp (e_Op out)) else Ok out.

Definition MarshalInitialize (m : Initialize) : res rpc_err bytes :=
  if (bytes_eqb (in_TransportID m) [] || (65536 <? len (in_Config m)))%bool then Err RpcInitialize else
  encode [(x01, in_TransportID m); (x02, [in_APIVersion m]); (x03, in_Config m)].

Definition UnmarshalInitialize (body : bytes) : res rpc_err Initialize :=
  out ← decode Initialize_field (mkInitialize [] x00 []) body;
  if bytes_eqb (in_TransportID out) [] then Err RpcNoID else Ok out.

Definition MarshalInitResult (m : InitResult) : res rpc_err bytes :=
  encode [(x01, boolByte (ir_OK m)); (x02, ir_Detail m); (x03, [ir_ActualAPI m])].

Definition UnmarshalInitResult (body : bytes) : res rpc_err InitResult :=
  decode InitResult_field (mkInitResult false [] x00) body.

Definition MarshalSend (m : Send) : res rpc_err bytes :=
  if ((len (s_Frame m) =? 0) || (MaxFrameBytes <? len (s_Frame m)))%bool then Err RpcFrameBounds else
  if negb (emptyOr 32 (s_RecipientPub m)) then Err RpcRecipient else
  if negb (emptyOr 32 (s_SenderHint m)) then Err RpcSenderHint else
  if negb (emptyOr 16 (s_MailboxID m)) then Err RpcMailbox else
  encode [(x01, s_Frame m); (x02, s_RecipientPub m); (x03, s_SenderHint m); (x04, s_MailboxID m); (x05, s_ShardURL m)].

Definition UnmarshalSend (body : bytes) : res rpc_err Send :=
  if MaxFrameBytes + 1024 <? len body then Err RpcTooLarge else
  out ← decode Send_field (mkSend [] [] [] [] []) body;
  if ((len (s_Frame out) =? 0) || (MaxFrameBytes <? len (s_Frame out)))%bool then Err RpcFrameBounds else Ok out.

Definition MarshalAck (m : Ack) : res rpc_err bytes := encode [(x01, boolByte (a_OK m)); (x02, a_Detail m)].

Definition UnmarshalAck (body : bytes) : res rpc_err Ack := decode Ack_field (mkAck false []) body.

Definition badAttach (mailboxID readSecret shardURL : bytes) : bool :=
  (negb (len mailboxID =? 16) || negb (len readSecret =? 32) || bytes_eqb shardURL [])%bool.

Definition MarshalAttach (m : Attach) : res rpc_err bytes :=
  if badAttach (at_MailboxID m) (at_ReadSecret m) (at_ShardURL m) then Err RpcAttach else
  encode [(x01, at_MailboxID m); (x02, at_ReadSecret m); (x03, at_ShardURL m); (x04, at_RouterURL m)].

Definition UnmarshalAttach (body : bytes) : res rpc_err Attach :=
  out ← decode Attach_field (mkAttach [] [] [] []) body;
  if badAttach (at_MailboxID out) (at_ReadSecret out) (at_ShardURL out) then Err RpcAttach else Ok out.

Definition MarshalDetach (mailboxID : bytes) : res rpc_err bytes :=
  if negb (len mailboxID =? 16) then Err RpcDetach else encode [(x01, mailboxID)].

Definition UnmarshalDetach (body : bytes) : res rpc_err bytes :=
  id ← decode detachField [] body;
  if negb (len id =? 16) then Err RpcDetach else Ok id.

Definition defaultLimit (limit : byte) : byte := if bool_decide (limit = x00) then x20 else limit.

Definition MarshalPoll (m : Poll) : res rpc_err bytes :=
  if negb (emptyOr 16 (p_MailboxID m)) then Err RpcPollMailbox else
  encode [(x01, [defaultLimit (p_Limit m)]); (x02, p_MailboxID m)].

Definition UnmarshalPoll (body : bytes) : res rpc_err Poll :=
  out ← decode Poll_field (mkPoll x00 []) body;
  if negb (emptyOr 16 (p_MailboxID out)) then Err RpcPollMailbox else
  Ok (mkPoll (defaultLimit (p_Limit out)) (p_MailboxID out)).

Definition MarshalPollResult (frames : list bytes) : res rpc_err bytes :=
  if 32 <? len frames then Err RpcTooMany else
  blob ← pollBlob frames [];
  encode [(x01, blob); (x02, putU32 (u32 (len frames)))].

Definition UnmarshalPollResult (body : bytes) : res rpc_err (list bytes) :=
  '(blob, count) ← decode pollField ([], None) body;
  match count with
  | None => Err RpcPollResult
  | Some count => if 32 <? count then Err RpcPollResult else pollLoop (Z.to_nat count) blob
  end.

Definition MarshalStatus (m : Status) : res rpc_err bytes := encode [(x01, boolByte (st_Running m)); (x02, st_Detail m)].

Definition UnmarshalStatus (body : bytes) : res rpc_err Status := decode Status_field (mkStatus false []) body.

Definition MarshalCaps (m : Caps) : res rpc_err bytes :=
  blob ← capsBlob (c_Capabilities m) [];
  encode [(x01, blob); (x02, c_TransportID m); (x03, c_Version m)].

Definition UnmarshalCaps (body : bytes) : res rpc_err Caps :=
  out ← decode Caps_field (mkCaps [] [] []) body;
  if bytes_eqb (c_TransportID out) [] then Err RpcNoID else Ok out.

Definition MarshalError (m : RPCError) : res rpc_err bytes := encode [(x01, putU32 (er_Code m)); (x02, er_Detail m)].

Definition UnmarshalError (body : bytes) : res rpc_err RPCError :=
  out ← decode RPCError_field (mkRPCError 0 []) body;
  if er_Code out =? 0 then Err RpcCodeZero else Ok out.

Definition MarshalStartStop (action : byte) : res rpc_err bytes :=
  if (negb (bool_decide (action = ActionStart)) && negb (bool_decide (action = ActionStop)))%bool then Err RpcAction
  else encode [(x01, [action])].

Definition UnmarshalStartStop (body : bytes) : res rpc_err byte :=
  fs ← ofOption RpcDecode (np_decode body); startStopLoop fs.

(** ** rpc_file.go *)
Definition MarshalRegisterReq (m : RegisterReq) : res rpc_err bytes :=
  if (bytes_eqb (rr_UserTag m) [] || (128 <? len (rr_UserTag m)) || (512 <? len (rr_RouterURL m)))%bool then Err RpcRegister else
  encode [(x01, rr_UserTag m); (x02, rr_RouterURL m)].

Definition UnmarshalRegisterReq (body : bytes) : res rpc_err RegisterReq :=
  out ← decode RegisterReq_field (mkRegisterReq [] []) body;
  if bytes_eqb (rr_UserTag out) [] then Err RpcRegister else Ok out.

Definition badIdentity (m : IdentityRegisterReq) : bool :=
  (negb (len (id_Pubkey m) =? 32) || negb (len (id_Nonce m) =? 16) || negb (len (id_Signature m) =? 64) || (512 <? len (id_RouterURL m)))%bool.

Definition MarshalIdentityRegisterReq (m : IdentityRegisterReq) : res rpc_err bytes :=
  if badIdentity m then Err RpcIdentity else
  encode ([(x01, id_Pubkey m); (x02, putU64 (id_Timestamp m)); (x03, id_Nonce m); (x04, id_Signature m)]
          ++ if negb (bytes_eqb (id_RouterURL m) []) then [(x05, id_RouterURL m)] else []).

Definition UnmarshalIdentityRegisterReq (body : bytes) : res rpc_err IdentityRegisterReq :=
  out ← decode IdentityRegisterReq_field (mkIdentityRegisterReq [] 0 [] [] []) body;
  if badIdentity out then Err RpcIdentity else Ok out.

Definition MarshalRegisterResult (m : RegisterResult) : res rpc_err bytes :=
  if badAttach (rs_MailboxID m) (rs_ReadSecret m) (rs_ShardURL m) then Err RpcRegisterResult else
  encode [(x01, rs_MailboxID m); (x02, rs_ReadSecret m); (x03, rs_ShardURL m); (x04, rs_RouterURL m)].

Definition UnmarshalRegisterResult (body : bytes) : res rpc_err RegisterResult :=
  out ← decode RegisterResult_field (mkRegisterResult [] [] [] []) body;
  if badAttach (rs_MailboxID out) (rs_ReadSecret out) (rs_ShardURL out) then Err RpcRegisterResult else Ok out.

Definition MarshalResolveReq (m : ResolveReq) : res rpc_err bytes :=
  if negb (len (rq_RecipientPub m) =? 32) then Err RpcRecipient else
  encode [(x01, rq_RecipientPub m); (x02, rq_RouterURL m)].

Definition UnmarshalResolveReq (body : bytes) : res rpc_err ResolveReq :=
  out ← decode ResolveReq_field (mkResolveReq [] []) body;
  if negb (len (rq_RecipientPub out) =? 32) then Err RpcResolve else Ok out.

Definition MarshalResolveResult (m : ResolveResult) : res rpc_err bytes :=
  if (negb (len (rv_MailboxID m) =? 16) || bytes_eqb (rv_ShardURL m) [])%bool then Err RpcResolveResult else
  encode [(x01, rv_MailboxID m); (x02, rv_ShardURL m)].

Definition UnmarshalResolveResult (body : bytes) : res rpc_err ResolveResult :=
  out ← decode ResolveResult_field (mkResolveResult [] []) body;
  if (negb (len (rv_MailboxID out) =? 16) || bytes_eqb (rv_ShardURL out) [])%bool then Err RpcResolveResult else Ok out.

Definition badParams (total chunkSize chunkCount : Z) : bool :=
  ((chunkSize =? 0) || (65536 <? chunkSize) || (chunkCount =? 0) || (16384 <? chunkCount) || (total =? 0))%bool.

Definition MarshalXferCreate (m : XferCreate) : res rpc_err bytes :=
  if MaxXferManifest <? len (xc_Manifest m) then Err RpcManifest else
  if negb (emptyOr 16 (xc_MailboxID m)) then Err RpcMailbox else
  if negb (emptyOr 32 (xc_RecipientPub m)) then Err RpcRecipient else
  if badParams (xc_Total m) (xc_ChunkSize m) (xc_ChunkCount m) then Err RpcParams else
  encode [(x01, putU64 (xc_Total m)); (x02, putU32 (xc_ChunkSize m)); (x03, putU32 (xc_ChunkCount m)); (x04, xc_Manifest m);
          (x05, xc_MailboxID m); (x06, xc_RecipientPub m); (x07, xc_ShardURL m)].

Definition UnmarshalXferCreate (body : bytes) : res rpc_err XferCreate :=
  if MaxXferManifest + 256 <? len body then Err RpcTooLarge else
  out ← decode XferCreate_field (mkXferCreate 0 0 0 [] [] [] []) body;
  if badParams (xc_Total out) (xc_ChunkSize out) (xc_ChunkCount out) then Err RpcParams else Ok out.

Definition MarshalXferCreated (m : XferCreated) : res rpc_err bytes :=
  if negb (len (xd_TransferID m) =? 16) then Err RpcTransferID else
  if negb (len (xd_DownloadSecret m) =? 32) then Err RpcSecret else
  encode [(x01, xd_TransferID m); (x02, putU64 (xd_Expires m)); (x03, xd_DownloadSecret m); (x04, xd_ShardURL m)].

Definition UnmarshalXferCreated (body : bytes) : res rpc_err XferCreated :=
  out ← decode XferCreated_field (mkXferCreated [] 0 [] []) body;
  if negb (len (xd_TransferID out) =? 16) then Err RpcTransferID else
  if negb (len (xd_DownloadSecret out) =? 32) then Err RpcSecret else Ok out.

Definition MarshalXferPut (m : XferPut) : res rpc_err bytes :=
  if (negb (len (xp_TransferID m) =? 16) || (len (xp_Payload m) =? 0) || (65536 <? len (xp_Payload m)) || negb (len (xp_Hash m) =? 32))%bool
  then Err RpcChunk else
  encode [(x01, xp_TransferID m); (x02, putU32 (xp_Index m)); (x03, xp_Payload m); (x04, xp_Hash m); (x05, putU64 (xp_Offset m))].

Definition UnmarshalXferPut (body : bytes) : res rpc_err XferPut :=
  if 65536 + 256 <? len body then Err RpcTooLarge else
  out ← decode XferPut_field (mkXferPut [] 0 [] [] 0) body;
  if (negb (len (xp_TransferID out) =? 16) || (len (xp_Payload out) =? 0) || negb (len (xp_Hash out) =? 32))%bool then Err RpcChunk else Ok out.

Definition MarshalXferProgress (m : XferProgress) : res rpc_err bytes :=
  if (negb (len (xg_MissingRanges m) mod 8 =? 0) || (8192 <? len (xg_MissingRanges m)))%bool then Err RpcRanges else
  encode [(x01, putU32 (xg_Highest m)); (x02, xg_MissingRanges m); (x03, xg_Bitmap m); (x04, [xg_Encoding m]); (x05, putU32 (xg_Count m))].

Definition UnmarshalXferProgress (body : bytes) : res rpc_err XferProgress :=
  out ← decode XferProgress_field (mkXferProgress 0 0 [] [] x00) body;
  if negb (len (xg_MissingRanges out) mod 8 =? 0) then Err RpcRanges else Ok out.

Definition MarshalXferResume (m : XferResume) : res rpc_err bytes :=
  if negb (len (xr_TransferID m) =? 16) then Err RpcTransferID else
  _ ← checkXferAuth (xr_MailboxID m) (xr_ReadSecret m) (xr_Ticket m);
  encode [(x01, xr_TransferID m); (x02, xr_MailboxID m); (x03, xr_ReadSecret m); (x04, xr_Ticket m); (x05, xr_ShardURL m)].

Definition UnmarshalXferResume (body : bytes) : res rpc_err XferResume :=
  out ← decode XferResume_field (mkXferResume [] [] [] [] []) body;
  if negb (len (xr_TransferID out) =? 16) then Err RpcTransferID else
  _ ← checkXferAuth (xr_MailboxID out) (xr_ReadSecret out) (xr_Ticket out);
  Ok out.

Definition MarshalXferGet (m : XferGet) : res rpc_err bytes :=
  if negb (len (xt_TransferID m) =? 16) then Err RpcTransferID else
  _ ← checkXferAuth (xt_MailboxID m) (xt_ReadSecret m) (xt_Ticket m);
  encode [(x01, xt_TransferID m); (x02, putU32 (xt_Index m)); (x03, xt_MailboxID m); (x04, xt_ReadSecret m); (x05, xt_Ticket m); (x06, xt_ShardURL m)].

Definition UnmarshalXferGet (body : bytes) : res rpc_err XferGet :=
  out ← decode XferGet_field (mkXferGet [] 0 [] [] [] []) body;
  if negb (len (xt_TransferID out) =? 16) then Err RpcTransferID else
  _ ← checkXferAuth (xt_MailboxID out) (xt_ReadSecret out) (xt_Ticket out);
  Ok out.

Definition MarshalXferChunk (m : XferChunk) : res rpc_err bytes :=
  if ((len (xk_Payload m) =? 0) || (65536 <? len (xk_Payload m)) || negb (len (xk_Hash m) =? 32))%bool then Err RpcChunk else
  encode [(x01, xk_Payload m); (x02, xk_Hash m)].

Definition UnmarshalXferChunk (body : bytes) : res rpc_err XferChunk :=
  if 65536 + 128 <? len body then Err RpcTooLarge else
  out ← decode XferChunk_field (mkXferChunk [] []) body;
  if ((len (xk_Payload out) =? 0) || negb (len (xk_Hash out) =? 32))%bool then Err RpcChunk else Ok out.

Definition badComplete (m : XferCompleteReq) : bool :=
  (negb (len (xm_TransferID m) =? 16) || negb (len (xm_ManifestHash m) =? 32))%bool.

Definition MarshalXferCompleteReq (m : XferCompleteReq) : res rpc_err bytes :=
  if badComplete m then Err RpcComplete else encode [(x01, xm_TransferID m); (x02, xm_ManifestHash m)].

Definition UnmarshalXferCompleteReq (body : bytes) : res rpc_err XferCompleteReq :=
  out ← decode XferCompleteReq_field (mkXferCompleteReq [] []) body;
  if badComplete out then Err RpcComplete else Ok out.

Definition badCancel (m : XferCancelReq) : bool :=
  (negb (len (xl_TransferID m) =? 16) || negb (len (xl_MailboxID m) =? 16) || negb (len (xl_ReadSecret m) =? 32))%bool.

Definition MarshalXferCancelReq (m : XferCancelReq) : res rpc_err bytes :=
  if badCancel m then Err RpcCancel else encode [(x01, xl_TransferID m); (x02, xl_MailboxID m); (x03, xl_ReadSecret m)].

Definition UnmarshalXferCancelReq (body : bytes) : res rpc_err XferCancelReq :=
  out ← decode XferCancelReq_field (mkXferCancelReq [] [] []) body;
  if badCancel out then Err RpcCancel else Ok out.

End Codecs.

End Rpc.
