(* ===== verification/RpcTheorems.v ===== *)
(** * The RPC messages survive the wire

    Every message that encodes decodes to what was encoded, unless its decoder
    asks for more than its encoder checked. *)
From S2P Require Import Prelude GoStd External Records Rpc.
#[local] Open Scope Z_scope.
Import Rpc.

(** ** Any message *)
Inductive message :=
| MEnvelope (m : Envelope) | MInitialize (m : Initialize) | MInitResult (m : InitResult) | MSend (m : Send) | MAck (m : Ack)
| MAttach (m : Attach) | MDetach (m : bytes) | MPoll (m : Poll) | MPollResult (m : list bytes) | MStatus (m : Status)
| MCaps (m : Caps) | MError (m : RPCError) | MStartStop (m : byte) | MRegisterReq (m : RegisterReq)
| MIdentityRegisterReq (m : IdentityRegisterReq) | MRegisterResult (m : RegisterResult) | MResolveReq (m : ResolveReq)
| MResolveResult (m : ResolveResult) | MXferCreate (m : XferCreate) | MXferCreated (m : XferCreated) | MXferPut (m : XferPut)
| MXferProgress (m : XferProgress) | MXferResume (m : XferResume) | MXferGet (m : XferGet) | MXferChunk (m : XferChunk)
| MXferCompleteReq (m : XferCompleteReq) | MXferCancelReq (m : XferCancelReq).

Section Messages.
Context `{N : Nanopack}.

Definition marshal (m : message) : res rpc_err bytes :=
  match m with
  | MEnvelope m => MarshalEnvelope m | MInitialize m => MarshalInitialize m | MInitResult m => MarshalInitResult m
  | MSend m => MarshalSend m | MAck m => MarshalAck m | MAttach m => MarshalAttach m | MDetach m => MarshalDetach m
  | MPoll m => MarshalPoll m | MPollResult m => MarshalPollResult m | MStatus m => MarshalStatus m | MCaps m => MarshalCaps m
  | MError m => MarshalError m | MStartStop m => MarshalStartStop m | MRegisterReq m => MarshalRegisterReq m
  | MIdentityRegisterReq m => MarshalIdentityRegisterReq m | MRegisterResult m => MarshalRegisterResult m
  | MResolveReq m => MarshalResolveReq m | MResolveResult m => MarshalResolveResult m | MXferCreate m => MarshalXferCreate m
  | MXferCreated m => MarshalXferCreated m | MXferPut m => MarshalXferPut m | MXferProgress m => MarshalXferProgress m
  | MXferResume m => MarshalXferResume m | MXferGet m => MarshalXferGet m | MXferChunk m => MarshalXferChunk m
  | MXferCompleteReq m => MarshalXferCompleteReq m | MXferCancelReq m => MarshalXferCancelReq m
  end.

(** Decoding with the decoder for messages of the same kind as [like]. *)
Definition unmarshalAs (like : message) (body : bytes) : res rpc_err message :=
  match like with
  | MEnvelope _ => MEnvelope <$> UnmarshalEnvelope body | MInitialize _ => MInitialize <$> UnmarshalInitialize body
  | MInitResult _ => MInitResult <$> UnmarshalInitResult body | MSend _ => MSend <$> UnmarshalSend body
  | MAck _ => MAck <$> UnmarshalAck body | MAttach _ => MAttach <$> UnmarshalAttach body
  | MDetach _ => MDetach <$> UnmarshalDetach body | MPoll _ => MPoll <$> UnmarshalPoll body
  | MPollResult _ => MPollResult <$> UnmarshalPollResult body | MStatus _ => MStatus <$> UnmarshalStatus body
  | MCaps _ => MCaps <$> UnmarshalCaps body | MError _ => MError <$> UnmarshalError body
  | MStartStop _ => MStartStop <$> UnmarshalStartStop body | MRegisterReq _ => MRegisterReq <$> UnmarshalRegisterReq body
  | MIdentityRegisterReq _ => MIdentityRegisterReq <$> UnmarshalIdentityRegisterReq body
  | MRegisterResult _ => MRegisterResult <$> UnmarshalRegisterResult body | MResolveReq _ => MResolveReq <$> UnmarshalResolveReq body
  | MResolveResult _ => MResolveResult <$> UnmarshalResolveResult body | MXferCreate _ => MXferCreate <$> UnmarshalXferCreate body
  | MXferCreated _ => MXferCreated <$> UnmarshalXferCreated body | MXferPut _ => MXferPut <$> UnmarshalXferPut body
  | MXferProgress _ => MXferProgress <$> UnmarshalXferProgress body | MXferResume _ => MXferResume <$> UnmarshalXferResume body
  | MXferGet _ => MXferGet <$> UnmarshalXferGet body | MXferChunk _ => MXferChunk <$> UnmarshalXferChunk body
  | MXferCompleteReq _ => MXferCompleteReq <$> UnmarshalXferCompleteReq body
  | MXferCancelReq _ => MXferCancelReq <$> UnmarshalXferCancelReq body
  end.

End Messages.

Definition fits32 (z : Z) : Prop := 0 <= z < 2 ^ 32.
Definition fits64 (z : Z) : Prop := 0 <= z < 2 ^ 64.

(** The integers fit their Go types. *)
Definition typed (m : message) : Prop :=
  match m with
  | MEnvelope m => fits32 (e_ReqID m)
  | MError m => fits32 (er_Code m)
  | MIdentityRegisterReq m => fits64 (id_Timestamp m)
  | MXferCreate m => fits64 (xc_Total m) /\ fits32 (xc_ChunkSize m) /\ fits32 (xc_ChunkCount m)
  | MXferCreated m => fits64 (xd_Expires m)
  | MXferPut m => fits32 (xp_Index m) /\ fits64 (xp_Offset m)
  | MXferProgress m => fits32 (xg_Highest m) /\ fits32 (xg_Count m)
  | MXferGet m => fits32 (xt_Index m)
  | _ => True
  end.

(** They do, and the message has what a decoder asks for beyond what its encoder
    checks: a known operation, a transport ID, a nonzero error code. *)
Definition sendable (m : message) : Prop :=
  match m with
  | MEnvelope m => fits32 (e_ReqID m) /\ Zb (e_Op m) <= Zb OpIdentityRegister
  | MCaps m => c_TransportID m ≠ []
  | MError m => fits32 (er_Code m) /\ er_Code m ≠ 0
  | MIdentityRegisterReq m => fits64 (id_Timestamp m)
  | MXferCreate m => fits64 (xc_Total m) /\ fits32 (xc_ChunkSize m) /\ fits32 (xc_ChunkCount m)
  | MXferCreated m => fits64 (xd_Expires m)
  | MXferPut m => fits32 (xp_Index m) /\ fits64 (xp_Offset m)
  | MXferProgress m => fits32 (xg_Highest m) /\ fits32 (xg_Count m)
  | MXferGet m => fits32 (xt_Index m)
  | _ => True
  end.

(** The largest body a decoder takes. *)
Definition bodyLimit (m : message) : option Z :=
  match m with
  | MEnvelope _ => Some MaxRPCBytes
  | MSend _ => Some (MaxFrameBytes + 1024)
  | MXferCreate _ => Some (MaxXferManifest + 256)
  | MXferPut _ => Some (65536 + 256)
  | MXferChunk _ => Some (65536 + 128)
  | _ => None
  end.

Definition within (m : message) (w : bytes) : Prop := match bodyLimit m with Some n => len w <= n | None => True end.

(** What the decoders ask for beyond what the encoders check. *)
Definition accepts (m : message) (w : bytes) : bool :=
  (match bodyLimit m with Some n => len w <=? n | None => true end &&
   match m with
   | MEnvelope m => Zb (e_Op m) <=? Zb OpIdentityRegister
   | MCaps m => negb (bytes_eqb (c_TransportID m) [])
   | MError m => negb (er_Code m =? 0)
   | _ => true
   end)%bool.

Lemma accepts_sendable m w : typed m -> accepts m w = true -> sendable m /\ within m w.
Proof.
  intros Ht Ha. apply andb_true_iff in Ha as [Hl Hm]. split.
  - destruct m; cbn [typed sendable] in *; try done; bool_prop; [split; [done|lia]|done|split; [done|lia]].
  - unfold within. destruct (bodyLimit m); [lia|done].
Qed.

(** What arrives: a poll without a limit asks for 32 frames. *)
Definition received (m : message) : message :=
  match m with MPoll p => MPoll (mkPoll (defaultLimit (p_Limit p)) (p_MailboxID p)) | _ => m end.

(** ** Single fields *)
Lemma getU32_put v : fits32 v -> getU32 (putU32 v) = Ok v.
Proof. intros H. unfold getU32. rewrite len_putU32, unbe_putU32. cbn [Z.eqb negb Pos.eqb]. by rewrite u32_small. Qed.

Lemma getU64_put v : fits64 v -> getU64 (putU64 v) = Ok v.
Proof. intros H. unfold getU64. rewrite len_putU64, unbe_putU64. cbn [Z.eqb negb Pos.eqb]. by rewrite u64_small. Qed.

Lemma boolByte_back (b : bool) : bool_decide ((if b then x01 else x00) = x01) = b.
Proof. by destruct b. Qed.

Lemma defaultLimit_idem (l : byte) : defaultLimit (defaultLimit l) = defaultLimit l.
Proof. by_bytes l. Qed.

(** ** Blobs of several values *)
Lemma pollBlob_spec (frames : list bytes) : forall blob b : bytes, pollBlob frames blob = Ok b ->
  exists t, b = blob ++ t /\ pollLoop (length frames) t = Ok frames.
Proof.
  induction frames as [|f frames IH]; intros blob b H; cbn [pollBlob] in H.
  - injection H as <-. exists []. by rewrite app_nil_r.
  - destruct (_ || _)%bool eqn:Hf; [done|]. bool_prop. apply IH in H as (t & -> & Ht).
    exists (putU32 (u32 (len f)) ++ f ++ t). split; [by rewrite <- !app_assoc|]. cbn [length pollLoop].
    assert (length (putU32 (u32 (len f))) = 4%nat) as Hn by apply length_be. assert (0 <= len f) by (unfold len; lia).
    unfold MaxFrameBytes in *. assert (u32 (len f) = len f) as Hu by (apply u32_small; lia).
    assert ((len (putU32 (u32 (len f)) ++ f ++ t) <? 4) = false) as -> by (apply Z.ltb_ge; unfold len at 1; rewrite length_app, Hn; lia).
    rewrite take_app_length', drop_app_length' by done. rewrite unbe_putU32, !Hu.
    rewrite (proj2 (Z.leb_gt (len f) 0)), (proj2 (Z.ltb_ge 40960 (len f))) by lia.
    assert ((len (f ++ t) <? len f) = false) as -> by (apply Z.ltb_ge; unfold len; rewrite length_app; lia). cbn [orb].
    rewrite take_app_length', drop_app_length' by (unfold len; lia). by rewrite Ht.
Qed.

Lemma capsBlob_spec (caps : list bytes) : forall blob b : bytes, capsBlob caps blob = Ok b ->
  exists t, b = blob ++ t /\ forall fuel out, (length t <= fuel)%nat -> capsLoop fuel t out = Ok (out ++ caps).
Proof.
  induction caps as [|c caps IH]; intros blob b H; cbn [capsBlob] in H.
  - injection H as <-. exists []. rewrite app_nil_r. split; [done|]. intros [|fuel] out _; cbn [capsLoop]; by rewrite app_nil_r.
  - destruct (_ || _)%bool eqn:Hc; [done|]. bool_prop. apply IH in H as (t & -> & Ht).
    exists (byteZ (Z.shiftr (len c) 8) :: byteZ (len c) :: c ++ t). split; [by rewrite <- !app_assoc|].
    intros [|fuel] out Hf; cbn [length] in Hf; [lia|]. cbn [capsLoop].
    assert (Z.lor (Z.shiftl (Zb (byteZ (Z.shiftr (len c) 8))) 8) (Zb (byteZ (len c))) = len c) as ->.
    { rewrite !Zb_byteZ, Z.shiftr_div_pow2 by lia. change (2 ^ 8) with 256.
      rewrite (Z.div_small (len c) 256), (Z.mod_small (len c) 256) by (unfold len in *; lia). done. }
    rewrite (proj2 (Z.leb_gt (len c) 0)) by (unfold len in *; lia).
    assert ((len (c ++ t) <? len c) = false) as -> by (apply Z.ltb_ge; unfold len; rewrite length_app; lia). cbn [orb].
    rewrite take_app_length', drop_app_length' by (unfold len; lia). rewrite Ht by (rewrite length_app in Hf; lia).
    by rewrite <- app_assoc.
Qed.

(** More turns than bytes change nothing, whatever the transport sent. *)
Lemma capsLoop_fuel fuel : forall (d : bytes) (out : list bytes), (length d <= fuel)%nat -> capsLoop fuel d out = capsLoop (length d) d out.
Proof.
  assert (forall n m (d : bytes) (out : list bytes), (length d <= n)%nat -> (length d <= m)%nat -> capsLoop n d out = capsLoop m d out) as H;
    [|intros d out Hd; by apply H].
  induction n as [|n IH]; intros [|m] [|h [|l rest]] out Hn Hm; cbn [length] in *; try lia; try done. cbn [capsLoop]. cbv zeta.
  case_match; [done|]. apply IH; rewrite length_drop; lia.
Qed.

Section Roundtrip.
Context `{N : Nanopack} `{NL : !NanopackLaws}.

Lemma decode_encode {A} field (zero a : A) fs w :
  encode fs = Ok w -> foldFields field fs zero = Ok a -> decode field zero w = Ok a.
Proof. intros H Hf. apply ofOption_Ok, np_decode_encode in H. unfold decode. by rewrite H. Qed.

(** Run the loop over the fields of an encoded message. *)
Ltac fields fld :=
  repeat (erewrite foldFields_step by
    (cbv beta iota delta [fld fst snd]; rewrite ?getU32_put, ?getU64_put by done; reflexivity));
  reflexivity.

(** Take the guards of an encoder apart, decode, and meet the decoder's guards. *)
Ltac roundtrip fld H :=
  repeat match type of H with (if ?b then _ else _) = Ok _ => destruct b eqn:?; [discriminate H|] end;
  erewrite (decode_encode fld) by (first [exact H | fields fld]);
  cbn [mbind res_bind] in *; rewrite ?boolByte_back; bool_prop.

Lemma envelope_roundtrip m w : sendable (MEnvelope m) -> within (MEnvelope m) w -> MarshalEnvelope m = Ok w -> UnmarshalEnvelope w = Ok m.
Proof.
  destruct m as [o r p]. intros [Hr Ho] Hw H. cbn [e_ReqID e_Op within bodyLimit] in Hr, Ho, Hw. unfold UnmarshalEnvelope, MarshalEnvelope in *.
  assert (0 < len w) as Hp.
  { apply ofOption_Ok, np_encode_head in H. destruct w; [done|]. unfold len. cbn [length]. lia. }
  rewrite (proj2 (Z.eqb_neq (len w) 0)), (proj2 (Z.ltb_ge MaxRPCBytes (len w))) by lia. cbn [orb].
  cbn [e_Op e_ReqID e_Payload] in H. roundtrip Envelope_field H. cbn [e_Op].
  destruct (bool_decide (o = OpError)) eqn:Hoe; [done|]. bool_prop. cbn [negb andb].
  assert (0 < Zb o). { pose proof (Zb_range o). destruct (decide (Zb o = 0)) as [Hz|]; [|lia]. destruct Hoe. by apply Zb_inj. }
  rewrite (proj2 (Z.ltb_ge (Zb o) (Zb OpInitialize))), (proj2 (Z.ltb_ge (Zb OpIdentityRegister) (Zb o))) by (change (Zb OpInitialize) with 1; lia). done.
Qed.

(** The decoders refuse what [accepts] says. *)
Lemma envelope_refused m w : fits32 (e_ReqID m) -> Zb OpIdentityRegister < Zb (e_Op m) -> MarshalEnvelope m = Ok w -> exists e, UnmarshalEnvelope w = Err e.
Proof.
  destruct m as [o r p]. cbn [e_ReqID e_Op]. intros Hr Ho H. unfold UnmarshalEnvelope, MarshalEnvelope in *. destruct (_ || _)%bool; [by eexists|].
  cbn [e_Op e_ReqID e_Payload] in H. roundtrip Envelope_field H. cbn [e_Op].
  rewrite (bool_decide_eq_false_2 (o = OpError)) by (intros ->; vm_compute in Ho; discriminate Ho).
  rewrite (proj2 (Z.ltb_lt (Zb OpIdentityRegister) (Zb o))) by lia. rewrite orb_true_r. by eexists.
Qed.

Lemma too_long_refused m w n : bodyLimit m = Some n -> n < len w -> exists e, unmarshalAs m w = Err e.
Proof.
  intros Hb Hl. destruct m; cbn [bodyLimit] in Hb; try done; injection Hb as <-; cbn [unmarshalAs].
  - unfold UnmarshalEnvelope. rewrite (proj2 (Z.ltb_lt _ _) Hl), orb_true_r. by eexists.
  - unfold UnmarshalSend. rewrite (proj2 (Z.ltb_lt _ _) Hl). by eexists.
  - unfold UnmarshalXferCreate. rewrite (proj2 (Z.ltb_lt _ _) Hl). by eexists.
  - unfold UnmarshalXferPut. rewrite (proj2 (Z.ltb_lt _ _) Hl). by eexists.
  - unfold UnmarshalXferChunk. rewrite (proj2 (Z.ltb_lt _ _) Hl). by eexists.
Qed.

Lemma initialize_roundtrip m w : MarshalInitialize m = Ok w -> UnmarshalInitialize w = Ok m.
Proof.
  destruct m as [i a c]. intros H. unfold UnmarshalInitialize, MarshalInitialize in *. cbn [in_TransportID in_APIVersion in_Config] in H.
  roundtrip Initialize_field H. cbn [in_TransportID]. by rewrite (proj2 (bytes_eqb_neq i [])).
Qed.

Lemma initresult_roundtrip m w : MarshalInitResult m = Ok w -> UnmarshalInitResult w = Ok m.
Proof.
  destruct m as [o d a]. intros H. unfold UnmarshalInitResult, MarshalInitResult, boolByte in *. cbn [ir_OK ir_Detail ir_ActualAPI] in H.
  by roundtrip InitResult_field H.
Qed.

Lemma send_roundtrip m w : within (MSend m) w -> MarshalSend m = Ok w -> UnmarshalSend w = Ok m.
Proof.
  destruct m as [a b c d e]. intros Hw H. cbn [within bodyLimit] in Hw. unfold UnmarshalSend, MarshalSend in *.
  cbn [s_Frame s_RecipientPub s_SenderHint s_MailboxID s_ShardURL] in H.
  rewrite (proj2 (Z.ltb_ge (MaxFrameBytes + 1024) (len w))) by lia. roundtrip Send_field H. cbn [s_Frame].
  rewrite (proj2 (Z.eqb_neq (len a) 0)), (proj2 (Z.ltb_ge MaxFrameBytes (len a))) by lia. done.
Qed.

Lemma ack_roundtrip m w : MarshalAck m = Ok w -> UnmarshalAck w = Ok m.
Proof. destruct m as [o d]. intros H. unfold UnmarshalAck, MarshalAck, boolByte in *. cbn [a_OK a_Detail] in H. by roundtrip Ack_field H. Qed.

Lemma status_roundtrip m w : MarshalStatus m = Ok w -> UnmarshalStatus w = Ok m.
Proof. destruct m as [o d]. intros H. unfold UnmarshalStatus, MarshalStatus, boolByte in *. cbn [st_Running st_Detail] in H. by roundtrip Status_field H. Qed.

Lemma attach_roundtrip m w : MarshalAttach m = Ok w -> UnmarshalAttach w = Ok m.
Proof.
  destruct m as [a b c d]. intros H. unfold UnmarshalAttach, MarshalAttach in *. cbn [at_MailboxID at_ReadSecret at_ShardURL at_RouterURL] in H.
  roundtrip Attach_field H. cbn [at_MailboxID at_ReadSecret at_ShardURL]. by case_match.
Qed.

Lemma detach_roundtrip m w : MarshalDetach m = Ok w -> UnmarshalDetach w = Ok m.
Proof.
  intros H. unfold UnmarshalDetach, MarshalDetach in *. destruct (len m =? 16) eqn:Hm; [|done]. cbn [negb] in H.
  erewrite (decode_encode detachField) by (first [exact H|erewrite foldFields_step by reflexivity; reflexivity]).
  cbn [mbind res_bind snd]. by rewrite Hm.
Qed.

Lemma poll_roundtrip m w : MarshalPoll m = Ok w -> UnmarshalPoll w = Ok (mkPoll (defaultLimit (p_Limit m)) (p_MailboxID m)).
Proof.
  destruct m as [l i]. intros H. unfold UnmarshalPoll, MarshalPoll in *. cbn [p_Limit p_MailboxID] in *.
  destruct (emptyOr 16 i) eqn:Hi; [|done]. cbn [negb] in H. roundtrip Poll_field H. cbn [p_Limit p_MailboxID].
  by rewrite Hi, defaultLimit_idem.
Qed.

Lemma pollresult_roundtrip m w : MarshalPollResult m = Ok w -> UnmarshalPollResult w = Ok m.
Proof.
  intros H. unfold UnmarshalPollResult, MarshalPollResult in *. destruct (Z.ltb_spec 32 (len m)) as [|Hm]; [done|].
  destruct (pollBlob m []) as [blob|e|] eqn:Hb; [|done|done]. apply pollBlob_spec in Hb as (t & -> & Ht). cbn [mbind res_bind app] in H.
  assert (u32 (len m) = len m) as Hu by (apply u32_small; unfold len in *; lia). rewrite Hu in H.
  assert (fits32 (len m)) by (unfold fits32, len in *; lia).
  roundtrip pollField H. rewrite (proj2 (Z.ltb_ge 32 (len m))) by lia. by replace (Z.to_nat (len m)) with (length m) by (unfold len; lia).
Qed.

Lemma caps_decode m w : MarshalCaps m = Ok w -> decode Caps_field (mkCaps [] [] []) w = Ok m.
Proof.
  destruct m as [c i v]. intros H. unfold MarshalCaps in *. cbn [c_Capabilities c_TransportID c_Version] in *.
  destruct (capsBlob c []) as [blob|e|] eqn:Hb; [|done|done]. apply capsBlob_spec in Hb as (t & -> & Ht). cbn [mbind res_bind app] in H.
  eapply (decode_encode Caps_field); [exact H|].
  erewrite foldFields_step; [|cbv beta iota delta [Caps_field fst snd]; rewrite Ht by done; reflexivity]. reflexivity.
Qed.

Lemma caps_roundtrip m w : c_TransportID m ≠ [] -> MarshalCaps m = Ok w -> UnmarshalCaps w = Ok m.
Proof. intros Hi H. unfold UnmarshalCaps. rewrite (caps_decode _ _ H). cbn [mbind res_bind]. by rewrite (proj2 (bytes_eqb_neq _ [])). Qed.

Lemma caps_refused m w : c_TransportID m = [] -> MarshalCaps m = Ok w -> exists e, UnmarshalCaps w = Err e.
Proof. intros Hi H. unfold UnmarshalCaps. rewrite (caps_decode _ _ H). cbn [mbind res_bind]. rewrite Hi. by eexists. Qed.

Lemma error_decode m w : fits32 (er_Code m) -> MarshalError m = Ok w -> decode RPCError_field (mkRPCError 0 []) w = Ok m.
Proof.
  destruct m as [c d]. cbn [er_Code]. intros Hc H. unfold MarshalError in *. cbn [er_Code er_Detail] in H.
  eapply (decode_encode RPCError_field); [exact H|fields RPCError_field].
Qed.

Lemma error_roundtrip m w : sendable (MError m) -> MarshalError m = Ok w -> UnmarshalError w = Ok m.
Proof. intros [Hc Hz] H. unfold UnmarshalError. rewrite (error_decode _ _ Hc H). cbn [mbind res_bind]. by rewrite (proj2 (Z.eqb_neq _ 0)). Qed.

Lemma error_refused m w : fits32 (er_Code m) -> er_Code m = 0 -> MarshalError m = Ok w -> exists e, UnmarshalError w = Err e.
Proof. intros Hc Hz H. unfold UnmarshalError. rewrite (error_decode _ _ Hc H). cbn [mbind res_bind]. rewrite Hz. by eexists. Qed.

Lemma startstop_roundtrip m w : MarshalStartStop m = Ok w -> UnmarshalStartStop w = Ok m.
Proof.
  intros H. unfold UnmarshalStartStop, MarshalStartStop in *. destruct (_ && _)%bool eqn:Ha; [done|].
  apply ofOption_Ok, np_decode_encode in H. rewrite H. cbn [ofOption mbind res_bind startStopLoop fst snd getByte].
  rewrite bool_decide_eq_true_2 by done. by rewrite Ha.
Qed.

Lemma registerreq_roundtrip m w : MarshalRegisterReq m = Ok w -> UnmarshalRegisterReq w = Ok m.
Proof.
  destruct m as [u r]. intros H. unfold UnmarshalRegisterReq, MarshalRegisterReq in *. cbn [rr_UserTag rr_RouterURL] in H.
  roundtrip RegisterReq_field H. cbn [rr_UserTag]. by rewrite (proj2 (bytes_eqb_neq u [])).
Qed.

Lemma identity_roundtrip m w : sendable (MIdentityRegisterReq m) -> MarshalIdentityRegisterReq m = Ok w -> UnmarshalIdentityRegisterReq w = Ok m.
Proof.
  destruct m as [p t n s r]. intros Ht H. cbn [sendable id_Timestamp] in Ht. unfold UnmarshalIdentityRegisterReq, MarshalIdentityRegisterReq in *.
  destruct (badIdentity _) eqn:Hb in H; [done|]. cbn [id_Pubkey id_Timestamp id_Nonce id_Signature id_RouterURL] in H.
  destruct (bytes_eqb r []) eqn:Hr; cbn [negb app] in H; bool_prop; [subst r|];
    (roundtrip IdentityRegisterReq_field H; by rewrite Hb).
Qed.

Lemma registerresult_roundtrip m w : MarshalRegisterResult m = Ok w -> UnmarshalRegisterResult w = Ok m.
Proof.
  destruct m as [a b c d]. intros H. unfold UnmarshalRegisterResult, MarshalRegisterResult in *. cbn [rs_MailboxID rs_ReadSecret rs_ShardURL rs_RouterURL] in H.
  roundtrip RegisterResult_field H. cbn [rs_MailboxID rs_ReadSecret rs_ShardURL]. by case_match.
Qed.

Lemma resolvereq_roundtrip m w : MarshalResolveReq m = Ok w -> UnmarshalResolveReq w = Ok m.
Proof.
  destruct m as [p r]. intros H. unfold UnmarshalResolveReq, MarshalResolveReq in *. cbn [rq_RecipientPub rq_RouterURL] in H.
  roundtrip ResolveReq_field H. cbn [rq_RecipientPub]. by rewrite (proj2 (Z.eqb_eq (len p) 32)).
Qed.

Lemma resolveresult_roundtrip m w : MarshalResolveResult m = Ok w -> UnmarshalResolveResult w = Ok m.
Proof.
  destruct m as [i s]. intros H. unfold UnmarshalResolveResult, MarshalResolveResult in *. cbn [rv_MailboxID rv_ShardURL] in H.
  roundtrip ResolveResult_field H. cbn [rv_MailboxID rv_ShardURL]. by rewrite (proj2 (Z.eqb_eq (len i) 16)), (proj2 (bytes_eqb_neq s [])).
Qed.

Lemma xfercreate_roundtrip m w : sendable (MXferCreate m) -> within (MXferCreate m) w -> MarshalXferCreate m = Ok w -> UnmarshalXferCreate w = Ok m.
Proof.
  destruct m as [t k c mf mb rp su]. intros (Ht & Hk & Hc) Hw H. cbn [xc_Total xc_ChunkSize xc_ChunkCount within bodyLimit] in Ht, Hk, Hc, Hw.
  unfold UnmarshalXferCreate, MarshalXferCreate in *. cbn [xc_Total xc_ChunkSize xc_ChunkCount xc_Manifest xc_MailboxID xc_RecipientPub xc_ShardURL] in H.
  rewrite (proj2 (Z.ltb_ge (MaxXferManifest + 256) (len w))) by lia. destruct (badParams t k c) eqn:Hb; [by repeat case_match|].
  roundtrip XferCreate_field H. cbn [xc_Total xc_ChunkSize xc_ChunkCount]. by rewrite Hb.
Qed.

Lemma xfercreated_roundtrip m w : sendable (MXferCreated m) -> MarshalXferCreated m = Ok w -> UnmarshalXferCreated w = Ok m.
Proof.
  destruct m as [t e d s]. intros He H. cbn [sendable xd_Expires] in He. unfold UnmarshalXferCreated, MarshalXferCreated in *.
  cbn [xd_TransferID xd_Expires xd_DownloadSecret xd_ShardURL] in H. roundtrip XferCreated_field H. cbn [xd_TransferID xd_DownloadSecret].
  by rewrite (proj2 (Z.eqb_eq (len t) 16)), (proj2 (Z.eqb_eq (len d) 32)).
Qed.

Lemma xferput_roundtrip m w : sendable (MXferPut m) -> within (MXferPut m) w -> MarshalXferPut m = Ok w -> UnmarshalXferPut w = Ok m.
Proof.
  destruct m as [t i p h o]. intros [Hi Ho] Hw H. cbn [xp_Index xp_Offset within bodyLimit] in Hi, Ho, Hw. unfold UnmarshalXferPut, MarshalXferPut in *.
  cbn [xp_TransferID xp_Index xp_Payload xp_Hash xp_Offset] in H. rewrite (proj2 (Z.ltb_ge (65536 + 256) (len w))) by lia.
  roundtrip XferPut_field H. cbn [xp_TransferID xp_Payload xp_Hash].
  by rewrite (proj2 (Z.eqb_eq (len t) 16)), (proj2 (Z.eqb_neq (len p) 0)), (proj2 (Z.eqb_eq (len h) 32)).
Qed.

Lemma xferprogress_roundtrip m w : sendable (MXferProgress m) -> MarshalXferProgress m = Ok w -> UnmarshalXferProgress w = Ok m.
Proof.
  destruct m as [h c r b e]. intros [Hh Hc] H. cbn [xg_Highest xg_Count] in Hh, Hc. unfold UnmarshalXferProgress, MarshalXferProgress in *.
  cbn [xg_Highest xg_Count xg_MissingRanges xg_Bitmap xg_Encoding] in H. roundtrip XferProgress_field H. cbn [xg_MissingRanges].
  by rewrite (proj2 (Z.eqb_eq (len r mod 8) 0)).
Qed.

Lemma xferresume_roundtrip m w : MarshalXferResume m = Ok w -> UnmarshalXferResume w = Ok m.
Proof.
  destruct m as [t i r k s]. intros H. unfold UnmarshalXferResume, MarshalXferResume in *. cbn [xr_TransferID xr_MailboxID xr_ReadSecret xr_Ticket xr_ShardURL] in H.
  destruct (len t =? 16) eqn:Ht; [|done]. destruct (checkXferAuth i r k) as [[]|e|] eqn:Ha; [|done|done]. cbn [negb mbind res_bind] in H.
  roundtrip XferResume_field H. cbn [xr_TransferID xr_MailboxID xr_ReadSecret xr_Ticket]. by rewrite (proj2 (Z.eqb_eq (len t) 16)), Ha.
Qed.

Lemma xferget_roundtrip m w : sendable (MXferGet m) -> MarshalXferGet m = Ok w -> UnmarshalXferGet w = Ok m.
Proof.
  destruct m as [t x i r k s]. intros Hx H. cbn [sendable xt_Index] in Hx. unfold UnmarshalXferGet, MarshalXferGet in *.
  cbn [xt_TransferID xt_Index xt_MailboxID xt_ReadSecret xt_Ticket xt_ShardURL] in H.
  destruct (len t =? 16) eqn:Ht; [|done]. destruct (checkXferAuth i r k) as [[]|e|] eqn:Ha; [|done|done]. cbn [negb mbind res_bind] in H.
  roundtrip XferGet_field H. cbn [xt_TransferID xt_MailboxID xt_ReadSecret xt_Ticket]. by rewrite (proj2 (Z.eqb_eq (len t) 16)), Ha.
Qed.

Lemma xferchunk_roundtrip m w : within (MXferChunk m) w -> MarshalXferChunk m = Ok w -> UnmarshalXferChunk w = Ok m.
Proof.
  destruct m as [p h]. intros Hw H. cbn [within bodyLimit] in Hw. unfold UnmarshalXferChunk, MarshalXferChunk in *. cbn [xk_Payload xk_Hash] in H.
  rewrite (proj2 (Z.ltb_ge (65536 + 128) (len w))) by lia. roundtrip XferChunk_field H. cbn [xk_Payload xk_Hash].
  by rewrite (proj2 (Z.eqb_neq (len p) 0)), (proj2 (Z.eqb_eq (len h) 32)).
Qed.

Lemma xfercomplete_roundtrip m w : MarshalXferCompleteReq m = Ok w -> UnmarshalXferCompleteReq w = Ok m.
Proof.
  destruct m as [t h]. intros H. unfold UnmarshalXferCompleteReq, MarshalXferCompleteReq in *. destruct (badComplete _) eqn:Hb in H; [done|].
  cbn [xm_TransferID xm_ManifestHash] in H. roundtrip XferCompleteReq_field H. by rewrite Hb.
Qed.

Lemma xfercancel_roundtrip m w : MarshalXferCancelReq m = Ok w -> UnmarshalXferCancelReq w = Ok m.
Proof.
  destruct m as [t i r]. intros H. unfold UnmarshalXferCancelReq, MarshalXferCancelReq in *. destruct (badCancel _) eqn:Hb in H; [done|].
  cbn [xl_TransferID xl_MailboxID xl_ReadSecret] in H. roundtrip XferCancelReq_field H. by rewrite Hb.
Qed.

Lemma decodes m w : sendable m -> marshal m = Ok w -> within m w -> unmarshalAs m w = Ok (received m).
Proof.
  intros Hs H Hw. destruct m; cbn [marshal unmarshalAs received] in *.
  - by rewrite (envelope_roundtrip _ _ Hs Hw H).
  - by rewrite (initialize_roundtrip _ _ H).
  - by rewrite (initresult_roundtrip _ _ H).
  - by rewrite (send_roundtrip _ _ Hw H).
  - by rewrite (ack_roundtrip _ _ H).
  - by rewrite (attach_roundtrip _ _ H).
  - by rewrite (detach_roundtrip _ _ H).
  - by rewrite (poll_roundtrip _ _ H).
  - by rewrite (pollresult_roundtrip _ _ H).
  - by rewrite (status_roundtrip _ _ H).
  - by rewrite (caps_roundtrip _ _ Hs H).
  - by rewrite (error_roundtrip _ _ Hs H).
  - by rewrite (startstop_roundtrip _ _ H).
  - by rewrite (registerreq_roundtrip _ _ H).
  - by rewrite (identity_roundtrip _ _ Hs H).
  - by rewrite (registerresult_roundtrip _ _ H).
  - by rewrite (resolvereq_roundtrip _ _ H).
  - by rewrite (resolveresult_roundtrip _ _ H).
  - by rewrite (xfercreate_roundtrip _ _ Hs Hw H).
  - by rewrite (xfercreated_roundtrip _ _ Hs H).
  - by rewrite (xferput_roundtrip _ _ Hs Hw H).
  - by rewrite (xferprogress_roundtrip _ _ Hs H).
  - by rewrite (xferresume_roundtrip _ _ H).
  - by rewrite (xferget_roundtrip _ _ Hs H).
  - by rewrite (xferchunk_roundtrip _ _ Hw H).
  - by rewrite (xfercomplete_roundtrip _ _ H).
  - by rewrite (xfercancel_roundtrip _ _ H).
Qed.

Lemma refused m w : typed m -> marshal m = Ok w -> accepts m w = false -> exists e, unmarshalAs m w = Err e.
Proof.
  intros Ht H Ha. apply andb_false_iff in Ha as [Hl|Hm].
  - destruct (bodyLimit m) as [n|] eqn:Hb; [|done]. eapply too_long_refused; [exact Hb|lia].
  - destruct m; cbn [typed marshal unmarshalAs] in *; try done; bool_prop.
    + destruct (envelope_refused m w Ht ltac:(lia) H) as [e ->]. by eexists.
    + destruct (caps_refused m w Hm H) as [e ->]. by eexists.
    + destruct (error_refused m w Ht ltac:(lia) H) as [e ->]. by eexists.
Qed.

(** C39: What the decoders make of an encoded message.  For each of the 27 kinds
    of RPC message, with integers in the range of their Go types: if the message
    encodes, its bytes decode to the message itself, except that a poll without a
    limit arrives asking for 32 frames ([received]); and they are refused exactly
    when an envelope has an unknown operation, a capability message no transport
    ID or an error the code 0, or when an envelope, a frame to send, a transfer
    to create, a chunk to put or a chunk is longer than its decoder takes - none of
    which the encoders check ([accepts]). *)
Theorem rpc_roundtrip m w : typed m -> marshal m = Ok w ->
  if accepts m w then unmarshalAs m w = Ok (received m) else exists e, unmarshalAs m w = Err e.
Proof.
  intros Ht H. destruct (accepts m w) eqn:Ha; [|by apply refused].
  destruct (accepts_sendable m w Ht Ha) as [Hs Hw]. by apply decodes.
Qed.

End Roundtrip.

Definition demoSend : message := MSend (mkSend (str "a frame") (repeat x07 32) [] (repeat x09 16) (str "https://shard")).
Definition demoPut : message := MXferPut (mkXferPut (repeat x01 16) 3 (str "chunk") (repeat x02 32) 49152).
Definition demoNoCode : message := MError (mkRPCError 0 (str "no code")).
Definition demoAnyPoll : message := MPoll (mkPoll x00 []).

Definition encodes (m : message) : bytes := match marshal m with Ok w => w | _ => [] end.

(** A frame and a chunk arrive, a poll without a limit arrives with one, an error
    without a code does not arrive. *)
Lemma rpc_roundtrip_witness :
  unmarshalAs demoSend (encodes demoSend) = Ok demoSend /\ unmarshalAs demoPut (encodes demoPut) = Ok demoPut /\
  unmarshalAs demoAnyPoll (encodes demoAnyPoll) = Ok (MPoll (mkPoll x20 [])) /\
  exists e, unmarshalAs demoNoCode (encodes demoNoCode) = Err e.
Proof.
  split; [|split; [|split]].
  - apply (rpc_roundtrip demoSend (encodes demoSend) I). vm_compute. reflexivity.
  - apply (rpc_roundtrip demoPut (encodes demoPut)); [split; split; [discriminate|reflexivity|discriminate|reflexivity]|]. vm_compute. reflexivity.
  - apply (rpc_roundtrip demoAnyPoll (encodes demoAnyPoll) I). vm_compute. reflexivity.
  - apply (rpc_roundtrip demoNoCode (encodes demoNoCode)); [split; [discriminate|reflexivity]|]. vm_compute. reflexivity.
Defined.
