(* ===== verification/Process.v ===== *)
(** * internal/transport: requests to a transport process ([process.go])

    [Process] multiplexes calls over one pair of pipes.  [Call] numbers the
    request, leaves a channel for its answer in [pend], and lets a goroutine
    write the request while holding the mutex; the read loop takes answers off
    the child's output, looks the channel up under the same mutex and hands the
    answer over.  Each event below is one such step between two points where
    goroutines can interleave; [exec] is [None] where the step would block. *)
From S2P Require Import Prelude GoStd External Records Rpc RpcTheorems.
#[local] Open Scope Z_scope.
Import Rpc.

Module Process.

Inductive proc_err :=
| PMarshal (e : rpc_err) | PWrite | PTimeout | PExited | PStream (e : rpc_err) | PEOF
| PRemote (e : RPCError) | PUndecodable (e : rpc_err) | PMismatch (got want : byte).

Inductive rpcResult := ResEnv (e : Envelope) | ResErr (e : proc_err).

(** A call in progress; [c_sent] once the write has been reported. *)
Record CallInfo := mkCall { c_id : Z; c_op : byte; c_sent : bool }.

Record state := mkState {
  next : Z;                      (* uint32 *)
  pend : gmap Z nat;             (* request -> channel *)
  chans : gmap nat rpcResult;    (* what a channel (of capacity 1) holds *)
  calls : gmap nat CallInfo;     (* by channel *)
  queued : gset nat;             (* writers waiting for the mutex *)
  holder : option nat;           (* the writer that holds it *)
  stdout : bytes;                (* written by the child, not read yet *)
  dying : bool;                  (* the read loop has ended *)
  fresh : nat;                   (* channels from here on are unused *)
}.

Definition start : state := mkState 0 ∅ ∅ ∅ ∅ None [] false 0.

Definition set_calls (m : gmap nat CallInfo) (p : state) : state :=
  mkState (next p) (pend p) (chans p) m (queued p) (holder p) (stdout p) (dying p) (fresh p).
Definition set_pend (m : gmap Z nat) (c : gmap nat rpcResult) (p : state) : state :=
  mkState (next p) m c (calls p) (queued p) (holder p) (stdout p) (dying p) (fresh p).
Definition set_writers (q : gset nat) (h : option nat) (p : state) : state :=
  mkState (next p) (pend p) (chans p) (calls p) q h (stdout p) (dying p) (fresh p).
Definition set_stdout (o : bytes) (d : bool) (p : state) : state :=
  mkState (next p) (pend p) (chans p) (calls p) (queued p) (holder p) o d (fresh p).

(** The read loop's two [ReadFull]s: a length, then a body. *)
Inductive frameRead := FrameBlocked | FrameLength (n : Z) | FrameBody (body rest : bytes).

Definition readFrame (s : bytes) : frameRead :=
  if len s <? 4 then FrameBlocked else
  let n := unbe (take 4 s) in
  let rest := drop 4 s in
  if ((n =? 0) || (MaxRPCBytes <? n))%bool then FrameLength n else
  if len rest <? n then FrameBlocked else FrameBody (take (Z.to_nat n) rest) (drop (Z.to_nat n) rest).

(** [failAll]: an error for every pending request; a full channel is skipped. *)
Definition failAll (e : proc_err) (p : state) : state :=
  set_pend ∅ (foldr (fun ch m => match m !! ch with Some _ => m | None => <[ch := ResErr e]> m end) (chans p) (map_to_list (pend p)).*2) p.

(** The read loop hands an answer over, if anybody waits for its number.  It
    would block on a full channel. *)
Definition deliver (env : Envelope) (p : state) : option state :=
  match pend p !! e_ReqID env with
  | None => Some p
  | Some ch =>
      match chans p !! ch with
      | Some _ => None
      | None => Some (set_pend (delete (e_ReqID env) (pend p)) (<[ch := ResEnv env]> (chans p)) p)
      end
  end.

Inductive event :=
| EBegin (op : byte) (payload : bytes)   (* [Call], up to starting the writer *)
| ELock (ch : nat)                       (* a writer takes the mutex *)
| EWritten (ch : nat) (ok : bool)        (* its write returns *)
| EChild (b : bytes)                     (* the child writes *)
| ERead                                  (* one turn of the read loop *)
| EEnd                                   (* the child's output ends or fails *)
| EReceive (ch : nat)                    (* a call takes its answer *)
| EExpire (ch : nat)                     (* a call's time is up, or its context is done *)
| EExited (ch : nat).                    (* a call notices that the read loop has ended *)

(** How a call returned. *)
Record outcome := mkOutcome { o_ch : nat; o_call : CallInfo; o_result : res proc_err Envelope }.

Section Process.
Context `{N : Nanopack}.

(** What [Call] makes of the answer on its channel. *)
Definition answer (op : byte) (r : rpcResult) : res proc_err Envelope :=
  match r with
  | ResErr e => Err e
  | ResEnv env =>
      if bool_decide (e_Op env = OpError) then
        match UnmarshalError (e_Payload env) with
        | Ok e => Err (PRemote e)
        | Err e => Err (PUndecodable e)
        | Panic => Panic
        end
      else if bool_decide (e_Op env = op) then Ok env else Err (PMismatch (e_Op env) op)
  end.

(** A call returns: its channel is garbage, its entry in [pend] stays. *)
Definition finish (ch : nat) (c : CallInfo) (r : res proc_err Envelope) (p : state) : state * list outcome :=
  (set_calls (delete ch (calls p)) p, [mkOutcome ch c r]).

(** One turn of the read loop on the output at hand; both of its ends close
    [dying].  Without a whole frame, or while a writer holds the mutex, it waits. *)
Definition readTurn (p : state) : option state :=
  if dying p then None else
  match readFrame (stdout p) with
  | FrameBlocked => None
  | FrameLength n =>
      match holder p with Some _ => None | None => Some (set_stdout (drop 4 (stdout p)) true (failAll (PStream (RpcLength n)) p)) end
  | FrameBody body rest =>
      match holder p with Some _ => None | None =>
        match UnmarshalEnvelope body with
        | Ok env => deliver env (set_stdout rest false p)
        | Err e => Some (set_stdout rest true (failAll (PStream e) p))
        | Panic => None
        end
      end
  end.

Definition readEnd (p : state) : option state :=
  if dying p then None else
  match holder p with Some _ => None | None => Some (set_stdout [] true (failAll PEOF p)) end.

Definition exec (e : event) (p : state) : option (state * list outcome) :=
  match e with
  | EBegin op payload =>
      match holder p with Some _ => None | None =>
        let id := u32 (next p + 1) in
        let ch := fresh p in
        let p := mkState id (<[id := ch]> (pend p)) (chans p) (calls p) (queued p) None (stdout p) (dying p) (S ch) in
        let c := mkCall id op false in
        match MarshalEnvelope (mkEnvelope op id payload) with
        | Ok _ => Some (set_calls (<[ch := c]> (calls p)) (set_writers ({[ch]} ∪ queued p) None p), [])
        | Err e => Some (p, [mkOutcome ch c (Err (PMarshal e))])
        | Panic => Some (p, [mkOutcome ch c Panic])
        end
      end
  | ELock ch =>
      match holder p with Some _ => None | None =>
        if bool_decide (ch ∈ queued p) then Some (set_writers (queued p ∖ {[ch]}) (Some ch) p, []) else None
      end
  | EWritten ch ok =>
      if bool_decide (holder p = Some ch) then
        let p := set_writers (queued p) None p in
        match calls p !! ch with
        | Some c => if ok then Some (set_calls (<[ch := mkCall (c_id c) (c_op c) true]> (calls p)) p, [])
                    else Some (finish ch c (Err PWrite) p)
        | None => Some (p, [])
        end
      else None
  | EChild b => Some (set_stdout (stdout p ++ b) (dying p) p, [])
  | ERead => p ← readTurn p; Some (p, [])
  | EEnd => p ← readEnd p; Some (p, [])
  | EReceive ch =>
      match calls p !! ch, chans p !! ch with
      | Some c, Some r => if c_sent c then Some (finish ch c (answer (c_op c) r) p) else None
      | _, _ => None
      end
  | EExpire ch => match calls p !! ch with Some c => Some (finish ch c (Err PTimeout) p) | None => None end
  | EExited ch =>
      match calls p !! ch with
      | Some c => if (c_sent c && dying p)%bool then
                    match holder p with Some _ => None | None => Some (finish ch c (Err PExited) p) end (* [Stderr] locks the mutex *)
                  else None
      | None => None
      end
  end.

(** A run: the events it takes and the calls that return on the way. *)
Inductive run : state -> list event -> state -> list outcome -> Prop :=
| run_nil p : run p [] p []
| run_step p e p' o es p'' os : exec e p = Some (p', o) -> run p' es p'' os -> run p (e :: es) p'' (o ++ os).

End Process.

End Process.
