(* ===== verification/ProcessTheorems.v ===== *)
(** * Calls to a transport process, under any interleaving *)
From S2P Require Import Prelude GoStd External Records Rpc RpcTheorems Process.
#[local] Open Scope Z_scope.
Import Rpc Process.

(** ** Framing *)
Lemma readFrame_framed (body rest : bytes) : 0 < len body <= MaxRPCBytes -> readFrame (frameMessage body ++ rest) = FrameBody body rest.
Proof.
  intros Hb. unfold readFrame, frameMessage. unfold MaxRPCBytes in *.
  assert (length (putU32 (u32 (len body))) = 4%nat) as Hn by apply length_be.
  assert (u32 (len body) = len body) as Hu by (apply u32_small; lia). rewrite <- app_assoc.
  assert ((len (putU32 (u32 (len body)) ++ body ++ rest) <? 4) = false) as -> by (apply Z.ltb_ge; unfold len at 1; rewrite length_app, Hn; lia).
  rewrite take_app_length', drop_app_length' by done. rewrite unbe_putU32, !Hu.
  rewrite (proj2 (Z.eqb_neq (len body) 0)), (proj2 (Z.ltb_ge 2097152 (len body))) by lia.
  assert ((len (body ++ rest) <? len body) = false) as -> by (apply Z.ltb_ge; unfold len; rewrite length_app; lia). cbn [orb].
  by rewrite take_app_length', drop_app_length' by (unfold len; lia).
Qed.

(** ** What holds between events *)
Record inv (p : state) : Prop := {
  inv_pend id ch : pend p !! id = Some ch -> (ch < fresh p)%nat /\ chans p !! ch = None;
  inv_inj i j ch : pend p !! i = Some ch -> pend p !! j = Some ch -> i = j;
  inv_calls ch c : calls p !! ch = Some c -> (ch < fresh p)%nat /\ forall id, pend p !! id = Some ch -> id = c_id c;
  inv_chans ch env : chans p !! ch = Some (ResEnv env) -> forall c, calls p !! ch = Some c -> e_ReqID env = c_id c;
  inv_fresh ch r : chans p !! ch = Some r -> (ch < fresh p)%nat;
}.

Lemma inv_start : inv start.
Proof. split; cbn; intros; match goal with H : ∅ !! _ = Some _ |- _ => by rewrite lookup_empty in H end. Qed.

(** A call that leaves, or whose write is reported. *)
Lemma inv_finish p ch : inv p -> inv (set_calls (delete ch (calls p)) p).
Proof.
  intros [H1 H2 H3 H4 H5]. split; cbn; intros; try eauto.
  - apply lookup_delete_Some in H as [_ H]. eauto.
  - apply lookup_delete_Some in H0 as [_ H0]. eauto.
Qed.

Lemma inv_sent p ch c : inv p -> calls p !! ch = Some c -> inv (set_calls (<[ch := mkCall (c_id c) (c_op c) true]> (calls p)) p).
Proof.
  intros [H1 H2 H3 H4 H5] Hc. split; cbn; intros; try eauto.
  - apply lookup_insert_Some in H as [[-> <-]|[_ H]]; [|eauto]. cbn. destruct (H3 _ _ Hc). eauto.
  - apply lookup_insert_Some in H0 as [[-> <-]|[_ H0]]; cbn; eauto.
Qed.

Lemma inv_writers p q h : inv p -> inv (set_writers q h p).
Proof. by intros [H1 H2 H3 H4 H5]; split. Qed.

Lemma inv_stdout p o d : inv p -> inv (set_stdout o d p).
Proof. by intros [H1 H2 H3 H4 H5]; split. Qed.

(** Failing every pending request fills channels with errors only. *)
Lemma failAll_chans e l : forall (m : gmap nat rpcResult) ch r,
  foldr (fun ch m => match m !! ch with Some _ => m | None => <[ch := ResErr e]> m end) m l !! ch = Some r ->
  m !! ch = Some r \/ (r = ResErr e /\ ch ∈ l).
Proof.
  induction l as [|x l IH]; intros m ch r H; cbn [foldr] in H; [by left|].
  destruct (foldr _ m l !! x) eqn:Hx.
  - apply IH in H as [H|[-> H]]; [by left|right]. split; [done|]. apply elem_of_cons. by right.
  - apply lookup_insert_Some in H as [[-> <-]|[_ H]]; [right; split; [done|]; apply elem_of_cons; by left|].
    apply IH in H as [H|[-> H]]; [by left|right]. split; [done|]. apply elem_of_cons. by right.
Qed.

Lemma inv_failAll p e : inv p -> inv (failAll e p).
Proof.
  intros [H1 H2 H3 H4 H5]. split; cbn; intros.
  - by rewrite lookup_empty in H.
  - by rewrite lookup_empty in H.
  - destruct (H3 _ _ H) as [? _]. split; [done|]. intros id Hi. by rewrite lookup_empty in Hi.
  - apply failAll_chans in H as [H|[? _]]; [eauto|done].
  - apply failAll_chans in H as [H|[_ H]]; [eauto|]. apply list_elem_of_fmap in H as ([i c] & -> & H).
    apply elem_of_map_to_list in H. by apply H1 in H as [? _].
Qed.

(** Handing an answer over never blocks, and keeps answers with their requests. *)
Lemma inv_deliver p env : inv p -> exists p', deliver env p = Some p' /\ inv p' /\ calls p' = calls p /\ fresh p' = fresh p.
Proof.
  intros [H1 H2 H3 H4 H5]. unfold deliver. destruct (pend p !! e_ReqID env) as [ch|] eqn:Hp; [|by exists p].
  destruct (H1 _ _ Hp) as [Hf Hc]. rewrite Hc. eexists. conjs; [done| |done|done]. split; cbn; intros.
  - apply lookup_delete_Some in H as [Hne H]. destruct (H1 _ _ H) as [? Hn]. split; [done|].
    rewrite lookup_insert_ne; [done|]. intros <-. by destruct Hne; eapply H2.
  - apply lookup_delete_Some in H as [_ H]. apply lookup_delete_Some in H0 as [_ H0]. eauto.
  - destruct (H3 _ _ H) as [? Hi]. split; [done|]. intros id [_ Hid]%lookup_delete_Some. eauto.
  - apply lookup_insert_Some in H as [[<- [= <-]]|[_ H]]; [|eauto]. destruct (H3 _ _ H0) as [_ Hi]. by apply Hi.
  - apply lookup_insert_Some in H as [[<- _]|[_ H]]; eauto.
Qed.

Section Calls.
Context `{N : Nanopack}.

(** What an outcome says: the call it belongs to was in progress, or started and
    failed at once; and an answer carries the call's number and operation. *)
Definition sound (p : state) (o : outcome) : Prop :=
  (calls p !! o_ch o = Some (o_call o) \/ o_ch o = fresh p) /\
  match o_result o with Ok env => e_ReqID env = c_id (o_call o) /\ e_Op env = c_op (o_call o) | _ => True end.

Definition gone (p : state) (o : outcome) : Prop := calls p !! o_ch o = None /\ (o_ch o < fresh p)%nat.

(** One event, and everything the runs below need of it. *)
Definition kept (p p' : state) (os : list outcome) : Prop :=
  inv p' /\ (fresh p <= fresh p')%nat /\
  (forall ch, is_Some (calls p' !! ch) -> is_Some (calls p !! ch) \/ ch = fresh p) /\
  match os with [] => True | [o] => sound p o /\ gone p' o | _ => False end.

Lemma kept_finish p ch c r : inv p -> calls p !! ch = Some c ->
  match r with Ok env => e_ReqID env = c_id c /\ e_Op env = c_op c | _ => True end ->
  kept p (set_calls (delete ch (calls p)) p) [mkOutcome ch c r].
Proof.
  intros Hi Hc Hr. split; [by apply inv_finish|]. split; [done|]. split.
  - intros x [y Hx]. cbn in Hx. apply lookup_delete_Some in Hx as [_ Hx]. left. by exists y.
  - split; [split; [by left|done]|]. split; cbn; [by rewrite lookup_delete_eq|]. by destruct (inv_calls _ Hi _ _ Hc).
Qed.

Lemma kept_same p p' : inv p' -> fresh p' = fresh p -> calls p' = calls p -> kept p p' [].
Proof. intros Hi Hf Hc. split; [done|]. split; [by rewrite Hf|]. split; [|done]. rewrite Hc. by left. Qed.

Lemma answer_ok op r env : answer op r = Ok env -> r = ResEnv env /\ e_Op env = op.
Proof.
  destruct r as [e|e]; [|done]. cbn [answer]. case_bool_decide; [by destruct (UnmarshalError _)|]. case_bool_decide; [|done].
  by intros [= <-].
Qed.

Lemma begin_kept op payload p p' os : inv p -> exec (EBegin op payload) p = Some (p', os) -> kept p p' os.
Proof.
  intros Hi H. cbn [exec] in H. destruct (holder p); [done|]. cbv zeta in H. set (id := u32 (next p + 1)) in *.
  set (q := mkState id (<[id := fresh p]> (pend p)) (chans p) (calls p) (queued p) None (stdout p) (dying p) (S (fresh p))) in *.
  pose proof Hi as [H1 H2 H3 H4 H5].
  assert (chans p !! fresh p = None) as Hcf by (apply eq_None_not_Some; intros [r Hr]; apply H5 in Hr; lia).
  assert (calls p !! fresh p = None) as Hkf by (apply eq_None_not_Some; intros [c Hc]; apply H3 in Hc as [Hc _]; lia).
  assert (forall i ch, pend p !! i = Some ch -> ch ≠ fresh p) as Hpf by (intros i ch Hc; apply H1 in Hc as [Hc _]; lia).
  assert (inv q) as Hq.
  { split; cbn; intros.
    - apply lookup_insert_Some in H0 as [[_ <-]|[_ H0]]; [split; [lia|done]|]. destruct (H1 _ _ H0). split; [lia|done].
    - apply lookup_insert_Some in H0 as [[<- <-]|[_ H0]], H6 as [[<- Hx]|[_ H6]]; [done| |subst ch|by eapply H2]; exfalso; by eapply Hpf.
    - destruct (H3 _ _ H0) as [? Hx]. split; [lia|]. intros i [[_ <-]|[_ Hy]]%lookup_insert_Some; [congruence|eauto].
    - eauto.
    - apply H5 in H0. lia. }
  destruct (MarshalEnvelope _) as [w|e|]; injection H as <- <-.
  - split; [|split; [cbn; lia|split; [|done]]].
    + pose proof Hq as [Q1 Q2 Q3 Q4 Q5]. split; cbn; intros; try (by eapply Q1) || (by eapply Q2) || (by eapply Q5); try eauto.
      * apply lookup_insert_Some in H as [[<- <-]|[_ H]]; [|by apply Q3 in H]. cbn. split; [lia|].
        intros i [[<- _]|[_ Hx]]%lookup_insert_Some; [done|]. by apply Hpf in Hx.
      * apply lookup_insert_Some in H0 as [[<- _]|[_ H0]]; [congruence|eauto].
    + intros ch [c Hc]. cbn in Hc. apply lookup_insert_Some in Hc as [[<- _]|[_ Hc]]; [by right|left; by exists c].
  - split; [done|]. split; [cbn; lia|]. split; [by left|]. split; [split; [by right|done]|]. split; cbn; [done|lia].
  - split; [done|]. split; [cbn; lia|]. split; [by left|]. split; [split; [by right|done]|]. split; cbn; [done|lia].
Qed.

Lemma exec_kept e p p' os : inv p -> exec e p = Some (p', os) -> kept p p' os.
Proof.
  intros Hi H. destruct e as [op payload|ch|ch ok|b| | |ch|ch|ch]; [by eapply begin_kept| | | | | | | |]; cbn [exec] in H.
  - destruct (holder p); [done|]. case_bool_decide; [|done]. injection H as <- <-. by apply kept_same; [apply inv_writers| |].
  - case_bool_decide; [|done]. cbv zeta in H. destruct (calls (set_writers _ _ p) !! ch) as [c|] eqn:Hc; cbn in Hc.
    + destruct ok; injection H as <- <-.
      * split; [exact (inv_sent (set_writers (queued p) None p) ch c (inv_writers _ _ _ Hi) Hc)|]. split; [done|]. split; [|done]. intros x [y Hy]. left. cbn in Hy.
        apply lookup_insert_Some in Hy as [[<- _]|[_ Hy]]; by eexists.
      * exact (kept_finish (set_writers (queued p) None p) ch c (Err PWrite) (inv_writers _ _ _ Hi) Hc I).
    + injection H as <- <-. by apply kept_same; [apply inv_writers| |].
  - injection H as <- <-. by apply kept_same; [apply inv_stdout| |].
  - unfold readTurn in H. destruct (dying p); [done|]. destruct (readFrame _) as [|n|body rest]; [done| |]; destruct (holder p); try done.
    + injection H as <- <-. by apply kept_same; [apply inv_stdout, inv_failAll| |].
    + destruct (UnmarshalEnvelope body) as [env|e|]; [| |done].
      * destruct (inv_deliver (set_stdout rest false p) env) as (q & Hd & Hq & Hc & Hf); [by apply inv_stdout|].
        rewrite Hd in H. cbn in H. injection H as <- <-. by apply kept_same.
      * injection H as <- <-. by apply kept_same; [apply inv_stdout, inv_failAll| |].
  - unfold readEnd in H. destruct (dying p); [done|]. destruct (holder p); [done|]. injection H as <- <-. by apply kept_same; [apply inv_stdout, inv_failAll| |].
  - destruct (calls p !! ch) as [c|] eqn:Hc; [|done]. destruct (chans p !! ch) as [r|] eqn:Hr; [|done]. destruct (c_sent c); [|done].
    injection H as <- <-. apply kept_finish; [done|done|]. destruct (answer (c_op c) r) as [env|e|] eqn:Ha; [|done|done].
    apply answer_ok in Ha as [-> Ha]. split; [|done]. by eapply inv_chans.
  - destruct (calls p !! ch) as [c|] eqn:Hc; [|done]. injection H as <- <-. by apply kept_finish.
  - destruct (calls p !! ch) as [c|] eqn:Hc; [|done]. destruct (c_sent c && dying p)%bool; [|done]. destruct (holder p); [done|].
    injection H as <- <-. by apply kept_finish.
Qed.

(** Runs: answers stay with their calls, and a call returns once. *)
Definition answered (o : outcome) : Prop :=
  match o_result o with Ok env => e_ReqID env = c_id (o_call o) /\ e_Op env = c_op (o_call o) | _ => True end.

Lemma run_kept p es p' os : run p es p' os -> inv p ->
  inv p' /\ Forall (fun o => answered o /\ (is_Some (calls p !! o_ch o) \/ (fresh p <= o_ch o)%nat)) os /\ NoDup (o_ch <$> os).
Proof.
  induction 1 as [p|p e p' o es p'' os He _ IH]; intros Hi; [split; [done|split; [apply List.Forall_nil|apply NoDup_nil_2]]|].
  destruct (exec_kept _ _ _ _ Hi He) as (Hi' & Hf & Hc & Ho). destruct (IH Hi') as (Hi'' & Hall & Hnd). split; [done|].
  assert (Forall (fun o => answered o /\ (is_Some (calls p !! o_ch o) \/ (fresh p <= o_ch o)%nat)) os) as Hall'.
  { eapply List.Forall_impl; [|exact Hall]. intros x [Ha [Hx|Hx]]; (split; [done|]).
    - apply Hc in Hx as [Hx|Hx]; [by left|right; lia].
    - right. lia. }
  destruct o as [|o [|]]; [by split| |done]. destruct Ho as [[Hs Ha] [Hg1 Hg2]]. cbn [app fmap list_fmap]. split.
  - apply List.Forall_cons; [|done]. split; [done|]. destruct Hs as [Hs|Hs]; [left; by eexists|right; lia].
  - apply list.NoDup_cons. split; [|done]. intros Hin. apply list_elem_of_fmap in Hin as (x & Hx & Hin).
    rewrite List.Forall_forall in Hall. destruct (Hall x) as [_ H]; [by apply list_elem_of_In|].
    rewrite <- Hx in H. destruct H as [[y Hy]|H]; [congruence|lia].
Qed.

Lemma foldFields_no_panic {E A} (f : A -> byte * bytes -> res E A) fs : (forall a x, f a x ≠ Panic) -> forall a, foldFields f fs a ≠ Panic.
Proof.
  intros Hf. induction fs as [|x fs IH]; intros a; cbn [foldFields]; [done|].
  destruct (f a x) as [b|e|] eqn:Hx; cbn; [apply IH|done|by apply Hf in Hx].
Qed.

Lemma UnmarshalEnvelope_no_panic w : UnmarshalEnvelope w ≠ Panic.
Proof.
  unfold UnmarshalEnvelope, decode. case_match; [done|]. destruct (np_decode w) as [fs|]; cbn [ofOption mbind res_bind]; [|done].
  destruct (foldFields Envelope_field fs _) as [e|e|] eqn:Hf; cbn [mbind res_bind]; [by case_match|done|].
  exfalso. revert Hf. apply foldFields_no_panic. intros [o r p] [i d]. unfold Envelope_field, getByte, getU32. cbn [fst snd].
  destruct i; try done; repeat case_match; done.
Qed.

Lemma exec_read p body rest : inv p -> dying p = false -> holder p = None -> readFrame (stdout p) = FrameBody body rest ->
  is_Some (exec ERead p).
Proof.
  intros Hi Hd Hh Hr. cbn [exec]. unfold readTurn. rewrite Hd, Hr, Hh. pose proof (UnmarshalEnvelope_no_panic body) as Hn.
  destruct (UnmarshalEnvelope body) as [env|e|]; [|by eexists|done].
  destruct (inv_deliver (set_stdout rest false p) env (inv_stdout _ _ _ Hi)) as (q & -> & _). by eexists.
Qed.

Context `{NL : !NanopackLaws}.

(** C30: Calls to a transport process do not mix up their answers.  Whatever the
    interleaving of calls, writes, answers, failures and timeouts: a call returns
    at most once; a call that returns an envelope gets one with its own request
    number and operation; the read loop never blocks on handing an answer over;
    and when the answer to a call that waits for it comes up in the child's
    output, reading it and taking it returns it. *)
Theorem process_calls_correlated es p os : run start es p os ->
  NoDup (o_ch <$> os) /\ Forall answered os /\
  (forall body rest, dying p = false -> holder p = None -> readFrame (stdout p) = FrameBody body rest -> is_Some (exec ERead p)) /\
  (forall ch c env w rest, calls p !! ch = Some c -> c_sent c = true -> pend p !! c_id c = Some ch ->
     dying p = false -> holder p = None -> stdout p = frameMessage w ++ rest ->
     MarshalEnvelope env = Ok w -> fits32 (e_ReqID env) -> len w <= MaxRPCBytes ->
     e_ReqID env = c_id c -> e_Op env = c_op c -> Zb OpInitialize <= Zb (c_op c) <= Zb OpIdentityRegister ->
     exists p', run p [ERead; EReceive ch] p' [mkOutcome ch c (Ok env)]).
Proof.
  intros Hr. destruct (run_kept _ _ _ _ Hr inv_start) as (Hi & Hall & Hnd). conjs; [done| | |].
  - eapply List.Forall_impl; [|exact Hall]. by intros o [? _].
  - intros body rest. by apply exec_read.
  - intros ch c env w rest Hc Hs Hp Hd Hh Ho Hm Hf Hl Hid Hop Hrange.
    assert (UnmarshalEnvelope w = Ok env) as Hu by (apply envelope_roundtrip; [split; [done|rewrite Hop; lia]|done|done]).
    assert (0 < len w) as Hw by (apply ofOption_Ok, np_encode_head in Hm; destruct w; [done|unfold len; cbn [length]; lia]).
    destruct (inv_pend _ Hi _ _ Hp) as [_ Hcn].
    assert (exec ERead p = Some (set_pend (delete (e_ReqID env) (pend p)) (<[ch := ResEnv env]> (chans p)) (set_stdout rest false p), [])) as Hread.
    { cbn [exec]. unfold readTurn. rewrite Hd, Ho, readFrame_framed, Hh, Hu by lia. unfold deliver.
      change (pend (set_stdout rest false p)) with (pend p). change (chans (set_stdout rest false p)) with (chans p). by rewrite Hid, Hp, Hcn. }
    eexists. eapply (run_step _ _ _ []); [exact Hread|]. eapply (run_step _ _ _ [mkOutcome ch c (Ok env)]); [|apply run_nil].
    cbn [exec]. change (calls (set_pend _ _ (set_stdout rest false p))) with (calls p).
    rewrite Hc. cbn [chans set_pend]. rewrite lookup_insert_eq, Hs. cbn [answer].
    rewrite (bool_decide_eq_false_2 (e_Op env = OpError)), (bool_decide_eq_true_2 (e_Op env = c_op c)) by (try done; rewrite Hop; intros Hz; rewrite Hz in Hrange; change (Zb OpError) with 0 in Hrange; change (Zb OpInitialize) with 1 in Hrange; lia).
    reflexivity.
Qed.

(** One request the child does not read stops the transport for good.  The
    write of a request holds the mutex every call, answer and failure needs; when
    the child does not read it the call itself times out, but as long as the write
    does not return no other call can even begin, no answer is read, and the end
    of the child is not noticed: nothing happens any more but the child writing. *)
Theorem unread_request_blocks_transport op payload w :
  MarshalEnvelope (mkEnvelope op 1 payload) = Ok w ->
  exists p, run start [EBegin op payload; ELock 0; EExpire 0] p [mkOutcome 0 (mkCall 1 op false) (Err PTimeout)] /\
    forall es p' os, run p es p' os -> (forall ok, EWritten 0 ok ∉ es) -> os = [] /\ Forall (fun e => exists b, e = EChild b) es.
Proof.
  intros Hm. eexists. split.
  - eapply (run_step _ _ _ []).
    { cbn [exec holder start next fresh]. change (u32 (0 + 1)) with 1. rewrite Hm. reflexivity. }
    eapply (run_step _ _ _ []); [cbn [exec holder set_calls set_writers queued]; rewrite bool_decide_eq_true_2 by set_solver; reflexivity|].
    eapply (run_step _ _ _ [_]); [|apply run_nil]. cbn [exec calls set_calls set_writers]. rewrite lookup_insert_eq. reflexivity.
  - set (p := set_calls _ _). assert (holder p = Some 0%nat /\ calls p = ∅) as [Hh Hc].
    { split; [done|]. unfold p. cbn [calls set_calls set_writers start]. by rewrite delete_insert_eq. }
    clearbody p. intros es p' os Hr. revert Hh Hc. induction Hr as [|p e q o es p' os He _ IH]; intros Hh Hc Hw; [by split|].
    assert ((exists b, e = EChild b) /\ o = [] /\ holder q = Some 0%nat /\ calls q = ∅) as (Hb & -> & Hq & Hqc).
    { destruct e as [op' pl|ch|ch ok|b| | |ch|ch|ch]; cbn [exec] in He; unfold readTurn, readEnd in He; rewrite ?Hh, ?Hc, ?lookup_empty in He; try done.
      - case_bool_decide as Hx; [|done]. injection Hx as <-. by destruct (Hw ok); apply elem_of_cons; left.
      - injection He as <- <-. conjs; [by eexists|done|done|done].
      - by repeat case_match.
      - by case_match. }
    destruct (IH Hq Hqc) as [-> Hes]; [intros ok Hin; destruct (Hw ok); apply elem_of_cons; by right|]. split; [done|by apply List.Forall_cons].
Qed.

End Calls.

(** ** A concrete run: two calls, answered in the other order *)
Section Run.
Context `{N : Nanopack}.

Fixpoint execAll (es : list event) (p : state) : option (state * list outcome) :=
  match es with
  | [] => Some (p, [])
  | e :: es => '(p, o) ← exec e p; '(p, os) ← execAll es p; Some (p, o ++ os)
  end.

Lemma execAll_run es : forall p p' os, execAll es p = Some (p', os) -> run p es p' os.
Proof.
  induction es as [|e es IH]; intros p p' os H; cbn [execAll] in H; [injection H as <- <-; apply run_nil|].
  destruct (exec e p) as [[q o]|] eqn:He; [|done]. cbn in H. destruct (execAll es q) as [[q' os']|] eqn:Hes; [|done].
  injection H as <- <-. eapply run_step; [exact He|by apply IH].
Qed.

End Run.

Definition demoAnswer (id : Z) : bytes :=
  match MarshalEnvelope (mkEnvelope x07 id (str "ok")) with Ok w => frameMessage w | _ => [] end.

Definition demoEvents : list event :=
  [EBegin x07 []; EBegin x07 []; ELock 1; EWritten 1 true; ELock 0; EWritten 0 true;
   EChild (demoAnswer 2 ++ demoAnswer 1); ERead; ERead; EReceive 0; EReceive 1].

Lemma process_calls_correlated_witness : exists p os,
  run start demoEvents p os /\ o_ch <$> os = [0; 1]%nat /\ List.forallb (fun o => isOk (o_result o)) os = true /\ Forall answered os.
Proof.
  destruct (execAll demoEvents start) as [[p os]|] eqn:H; [|vm_compute in H; discriminate H].
  assert (o_ch <$> os = [0; 1]%nat /\ List.forallb (fun o => isOk (o_result o)) os = true) as [H1 H2].
  { change os with (snd (p, os)). replace (p, os) with (default (start, []) (execAll demoEvents start)) by (rewrite H; reflexivity).
    vm_compute. split; reflexivity. }
  exists p, os. apply execAll_run in H. destruct (process_calls_correlated demoEvents p os H) as (_ & H3 & _).
  split; [exact H|]. split; [exact H1|]. split; [exact H2|exact H3].
Defined.

Lemma unread_request_blocks_transport_witness : exists p,
  run start [EBegin x07 []; ELock 0; EExpire 0] p [mkOutcome 0 (mkCall 1 x07 false) (Err PTimeout)] /\
  forall es p' os, run p es p' os -> (forall ok, EWritten 0 ok ∉ es) -> os = [] /\ Forall (fun e => exists b, e = EChild b) es.
Proof.
  destruct (MarshalEnvelope (mkEnvelope x07 1 [])) as [w|e|] eqn:H; [|discriminate H|discriminate H].
  exact (unread_request_blocks_transport x07 [] w H).
Defined.
