(* ===== verification/Manager.v ===== *)
(** * internal/transport: the transport manager ([manager.go], [manifest.go])

    Transports are packages installed into a directory, pinned by a hash, enabled
    and started.  The file system maps paths (lists of names, absolute) to file
    contents; [unzip] and [json_manifest] stand for [archive/zip] and
    [encoding/json].  A started transport is known by the bytes it runs. *)
From S2P Require Import Prelude GoStd Sha256 MultiStore.
#[local] Open Scope Z_scope.

Module Manager.

Abbreviation path := (list bytes).
Abbreviation FS := (gmap path bytes).

(** ** manifest.go *)
Record Manifest := mkManifest {
  mf_ID : bytes; mf_Name : bytes; mf_Version : bytes; mf_APIVersion : bytes; mf_Entry : bytes;
  mf_Capabilities : list bytes; mf_Permissions : list bytes;
}.

Definition KnownCapabilities : list bytes := [str "message"; str "binary-transfer"; str "presence"; str "local-network"; str "p2p"].
Definition KnownPermissions : list bytes := [str "network"; str "storage"].

Definition inRange (lo hi : byte) (b : byte) : bool := ((Zb lo <=? Zb b) && (Zb b <=? Zb hi))%bool.

(** [^[a-z0-9][a-z0-9-]{0,63}$] *)
Definition idChar (b : byte) : bool := (inRange x61 x7a b || inRange x30 x39 b)%bool.
Definition idRe (s : bytes) : bool :=
  match s with
  | [] => false
  | b :: t => (idChar b && forallb (fun c => idChar c || bool_decide (c = x2d)) t && (len t <=? 63))%bool
  end.

Definition entryChar (b : byte) : bool :=
  (inRange x61 x7a b || inRange x41 x5a b || inRange x30 x39 b || bool_decide (b = x2e) || bool_decide (b = x2d) || bool_decide (b = x5f))%bool.

Definition safeEntry (e : bytes) : bytes :=
  if negb (forallb entryChar e) then []
  else if (bytes_eqb e (str ".") || bytes_eqb e (str ".."))%bool then [] else e.

Inductive mg_err :=
| MgJSON | MgID | MgName | MgVersion | MgAPI | MgEntry | MgNoCapabilities | MgCapability | MgPermission
| MgZip | MgNoManifest | MgNoEntry | MgTooLarge | MgRunning | MgMkdir | MgRead | MgWrite | MgSave
| MgNotInstalled | MgDisabled | MgNoPin | MgIntegrity | MgSpawn | MgStart | MgMailbox | MgSecret | MgReplay
| MgNotRunning | MgConfigSize | MgConfigJSON | MgAttachMailbox | MgAttachSecret | MgAttachShard | MgNotAttached | MgRemove | MgState.

Definition Validate (m : Manifest) : res mg_err unit :=
  if negb (idRe (mf_ID m)) then Err MgID else
  if bytes_eqb (mf_Name m) [] then Err MgName else
  if bytes_eqb (mf_Version m) [] then Err MgVersion else
  if negb (bytes_eqb (mf_APIVersion m) (str "1")) then Err MgAPI else
  if (bytes_eqb (mf_Entry m) [] || negb (bytes_eqb (mf_Entry m) (safeEntry (mf_Entry m))))%bool then Err MgEntry else
  if len (mf_Capabilities m) =? 0 then Err MgNoCapabilities else
  if negb (forallb (fun c => bool_decide (c ∈ KnownCapabilities)) (mf_Capabilities m)) then Err MgCapability else
  check (negb (forallb (fun p => bool_decide (p ∈ KnownPermissions)) (mf_Permissions m))) MgPermission.

Definition HasCapability (m : Manifest) (cap : bytes) : bool := existsb (fun c => bytes_eqb c cap) (mf_Capabilities m).

(** ** State *)
Record Attachment := mkAttachment {
  at_MailboxID : bytes; at_ReadSecret : bytes; at_ShardURL : bytes; at_RouterURL : bytes; at_Owner : bytes;
}.

Record stateFile := mkStateFile {
  sf_Enabled : gmap bytes bool;
  sf_Hash : gmap bytes bytes;
  sf_Files : gmap bytes bytes;
  sf_Config : gmap bytes bytes;
  sf_Attach : gmap bytes (list Attachment);
}.

Definition emptyState : stateFile := mkStateFile ∅ ∅ ∅ ∅ ∅.

(** A running transport: what it runs, and the mailboxes it was told. *)
Record Live := mkLive { lv_ID : bytes; lv_run : bytes; lv_caps : list bytes; lv_attached : list (bytes * bytes * bytes * bytes) }.

(** [mn_saved] is the content of [state.json]. *)
Record Manager := mkManager {
  mn_dir : path; mn_fs : FS; mn_state : stateFile; mn_saved : option stateFile; mn_live : gmap bytes Live;
}.

Definition set_fs (f : FS) (m : Manager) : Manager := mkManager (mn_dir m) f (mn_state m) (mn_saved m) (mn_live m).
Definition set_state (s : stateFile) (m : Manager) : Manager := mkManager (mn_dir m) (mn_fs m) s (mn_saved m) (mn_live m).
Definition set_saved (s : option stateFile) (m : Manager) : Manager := mkManager (mn_dir m) (mn_fs m) (mn_state m) s (mn_live m).
Definition set_live (l : gmap bytes Live) (m : Manager) : Manager := mkManager (mn_dir m) (mn_fs m) (mn_state m) (mn_saved m) l.

Definition set_Enabled (v : gmap bytes bool) (s : stateFile) : stateFile := mkStateFile v (sf_Hash s) (sf_Files s) (sf_Config s) (sf_Attach s).
Definition set_Hash (v : gmap bytes bytes) (s : stateFile) : stateFile := mkStateFile (sf_Enabled s) v (sf_Files s) (sf_Config s) (sf_Attach s).
Definition set_Files (v : gmap bytes bytes) (s : stateFile) : stateFile := mkStateFile (sf_Enabled s) (sf_Hash s) v (sf_Config s) (sf_Attach s).
Definition set_Config (v : gmap bytes bytes) (s : stateFile) : stateFile := mkStateFile (sf_Enabled s) (sf_Hash s) (sf_Files s) v (sf_Attach s).
Definition set_Attach (v : gmap bytes (list Attachment)) (s : stateFile) : stateFile := mkStateFile (sf_Enabled s) (sf_Hash s) (sf_Files s) (sf_Config s) v.

(** What the environment does during one operation: whether a call to the
    operating system or to the transport succeeds, the order of a map, and what
    happens to the files between the check of a transport and its start. *)
Record env := mkEnv {
  ev_save : bool; ev_mkdir : bool; ev_write : bytes -> bool; ev_remove : bool;
  ev_spawn : bool; ev_start : bool; ev_attach : nat -> bool; ev_caps : list bytes;
  ev_io : storeIO; ev_meanwhile : FS -> FS;
}.

(** [filepath.Join] of an absolute path: empty and [.] names are dropped, [..]
    goes up and stays at the root. *)
Definition cleanStep (acc : path) (name : bytes) : path :=
  if (bytes_eqb name [] || bytes_eqb name (str "."))%bool then acc
  else if bytes_eqb name (str "..") then removelast acc
  else acc ++ [name].

Definition join (dir : path) (names : list bytes) : path :=
  fold_left cleanStep (mjoin (splitOn x2f <$> names)) dir.

Definition manifestName : bytes := str "manifest.json".

(** [os.RemoveAll]: the path and everything below it. *)
Definition removeAll (p : path) (f : FS) : FS := filter (fun kv => ~ p `prefix_of` kv.1) f.

(** The manager after [os.RemoveAll p]: its own [state.json] is a file too. *)
Definition purge (p : path) (m : Manager) : Manager :=
  set_saved (if decide (p `prefix_of` mn_dir m ++ [str "state.json"]) then None else mn_saved m) (set_fs (removeAll p (mn_fs m)) m).

Definition saveState (ev : env) (m : Manager) : Manager * res mg_err unit :=
  if ev_save ev then (set_saved (Some (mn_state m)) m, Ok tt) else (m, Err MgSave).

Definition filesPin (manifest entry : bytes) : bytes :=
  hexEncode (sha256 (putU64 (u64 (len manifest)) ++ manifest ++ putU64 (u64 (len entry)) ++ entry)).

Definition isHex (s : bytes) : bool := forallb (fun b => inRange x30 x39 b || inRange x61 x66 b || inRange x41 x46 b)%bool s.

Record zipEntry := mkZip { ze_Name : bytes; ze_Size : Z; ze_Data : option bytes }.

(** [io.ReadAll(io.LimitReader(rc, n))] of a reader that holds [d]. *)
Definition limitRead (n : Z) (d : bytes) : bytes := if len d <=? n then d else take (Z.to_nat n) d.

(** The first pass over the package: the last entry of a name counts. *)
Fixpoint scan (entries : list zipEntry) (files : gmap bytes zipEntry) (mfRaw : option bytes)
  : res mg_err (gmap bytes zipEntry * option bytes) :=
  match entries with
  | [] => Ok (files, mfRaw)
  | f :: entries =>
      let files := <[ze_Name f := f]> files in
      if bytes_eqb (ze_Name f) manifestName then
        match ze_Data f with
        | None => Err MgRead
        | Some d => scan entries files (Some (limitRead 65536 d))
        end
      else scan entries files mfRaw
  end.

(** The second pass writes the manifest and the entry. *)
Fixpoint extract (ev : env) (dest : path) (entry : bytes) (files : list (bytes * zipEntry)) (f : FS) (mfBytes entryBytes : bytes)
  : FS * res mg_err (bytes * bytes) :=
  match files with
  | [] => (f, Ok (mfBytes, entryBytes))
  | (name, zf) :: files =>
      if (negb (bytes_eqb name manifestName) && negb (bytes_eqb name entry))%bool then extract ev dest entry files f mfBytes entryBytes else
      match ze_Data zf with
      | None => (f, Err MgRead)
      | Some d =>
          let data := limitRead 115343360 d in
          let mfBytes := if bytes_eqb name manifestName then data else mfBytes in
          let entryBytes := if bytes_eqb name entry then data else entryBytes in
          if ev_write ev name then extract ev dest entry files (<[join dest [name] := data]> f) mfBytes entryBytes
          else (f, Err MgWrite)
      end
  end.

Section Manager.
Context (unzip : bytes -> option (list zipEntry)) (json_manifest : bytes -> option Manifest) (json_object : bytes -> bool).
(** [strings.ToLower] outside ASCII, [hex.DecodeString]. *)
Context (uni : bytes -> bytes).

Definition ParseManifest (raw : bytes) : res mg_err Manifest :=
  m ← ofOption MgJSON (json_manifest raw); _ ← Validate m; Ok m.

(** [NewManager] over an existing directory. *)
Definition NewManager (dir : path) (f : FS) (saved : option stateFile) : Manager :=
  mkManager dir f (default emptyState saved) saved ∅.

(** The checks of a package before anything is written. *)
Definition inspect (pkgRaw : bytes) : res mg_err (gmap bytes zipEntry * Manifest) :=
  entries ← ofOption MgZip (unzip pkgRaw);
  '(files, mfRaw) ← scan entries ∅ None;
  mfRaw ← ofOption MgNoManifest mfRaw;
  mf ← ParseManifest mfRaw;
  entry ← ofOption MgNoEntry (files !! mf_Entry mf);
  _ ← check (104857600 <? ze_Size entry) MgTooLarge;
  Ok (files, mf).

Definition Install (ev : env) (m : Manager) (pkgRaw : bytes) (enable : bool) : Manager * res mg_err Manifest :=
  match inspect pkgRaw with
  | Panic => (m, Panic)
  | Err e => (m, Err e)
  | Ok (files, mf) =>
      let id := mf_ID mf in
      let hash := hexEncode (sha256 pkgRaw) in
      let update := match sf_Hash (mn_state m) !! id with
                    | Some old => (negb (bytes_eqb old []) && negb (bytes_eqb old hash))%bool
                    | None => false
                    end in
      if (negb update && bool_decide (is_Some (mn_live m !! id)))%bool then (m, Err MgRunning) else
      let dest := join (mn_dir m) [id] in
      if negb (ev_mkdir ev) then (m, Err MgMkdir) else
      let '(f, r) := extract ev dest (mf_Entry mf) (io_range (ev_io ev) files) (mn_fs m) [] [] in
      let m := set_fs f m in
      match r with
      | Panic => (m, Panic)
      | Err e => (m, Err e)
      | Ok (mfBytes, entryBytes) =>
          let s := mn_state m in
          let s := set_Hash (<[id := hash]> (sf_Hash s)) s in
          let s := set_Files (<[id := filesPin mfBytes entryBytes]> (sf_Files s)) s in
          let s := match sf_Enabled s !! id with
                   | None => set_Enabled (<[id := enable]> (sf_Enabled s)) s
                   | Some _ => if enable then set_Enabled (<[id := true]> (sf_Enabled s)) s else s
                   end in
          let '(m, r) := saveState ev (set_state s m) in
          (m, _ ← r; Ok mf)
      end
  end.

Definition Remove (ev : env) (m : Manager) (id : bytes) : Manager * res mg_err unit :=
  let m := set_live (delete id (mn_live m)) m in
  let s := mn_state m in
  let s := mkStateFile (delete id (sf_Enabled s)) (delete id (sf_Hash s)) (delete id (sf_Files s)) (delete id (sf_Config s)) (delete id (sf_Attach s)) in
  match saveState ev (set_state s m) with
  | (m, Ok _) => if ev_remove ev then (purge (join (mn_dir m) [id]) m, Ok tt) else (m, Err MgRemove)
  | (m, e) => (m, e)
  end.

(** [os.Stat] of [<dir>/<id>/manifest.json]. *)
Definition installed (m : Manager) (id : bytes) : bool := bool_decide (is_Some (mn_fs m !! join (mn_dir m) [id; manifestName])).

Definition Enable (ev : env) (m : Manager) (id : bytes) : Manager * res mg_err unit :=
  if negb (installed m id) then (m, Err MgNotInstalled) else
  saveState ev (set_state (set_Enabled (<[id := true]> (sf_Enabled (mn_state m))) (mn_state m)) m).

Definition Disable (ev : env) (m : Manager) (id : bytes) : Manager * res mg_err unit :=
  let m := set_live (delete id (mn_live m)) m in
  saveState ev (set_state (set_Enabled (<[id := false]> (sf_Enabled (mn_state m))) (mn_state m)) m).

(** The manifest and the entry's bytes, as read and compared with the pin. *)
Definition verifyInstalled (m : Manager) (id : bytes) : res mg_err (Manifest * bytes) :=
  let pinned := default [] (sf_Files (mn_state m) !! id) in
  if bytes_eqb pinned [] then Err MgNoPin else
  mfRaw ← ofOption MgRead (mn_fs m !! join (mn_dir m) [id; manifestName]);
  mf ← ParseManifest mfRaw;
  entryRaw ← ofOption MgRead (mn_fs m !! join (mn_dir m) [id; mf_Entry mf]);
  if negb (bytes_eqb (filesPin mfRaw entryRaw) pinned) then Err MgIntegrity else
  Ok (mf, entryRaw).

Definition isWasm (mf : Manifest) : bool := bool_decide (str ".wasm" `suffix_of` toLower uni (mf_Entry mf)).

(** A module runs the bytes it is handed; a process runs what lies at its path. *)
Definition spawn (ev : env) (f : FS) (bin : path) (entryRaw : bytes) (mf : Manifest) : res mg_err bytes :=
  if negb (ev_spawn ev) then Err MgSpawn else
  if isWasm mf then Ok entryRaw else ofOption MgSpawn (f !! bin).

(** Telling a started transport the mailboxes attached before. *)
Fixpoint replay (ev : env) (i : nat) (pending : list Attachment) (done : list (bytes * bytes * bytes * bytes))
  : res mg_err (list (bytes * bytes * bytes * bytes)) :=
  match pending with
  | [] => Ok done
  | a :: pending =>
      match hexDecode (at_MailboxID a) with
      | None => Err MgMailbox
      | Some mbox =>
          if negb (len mbox =? 16) then Err MgMailbox else
          match hexDecode (at_ReadSecret a) with
          | None => Err MgSecret
          | Some sec =>
              if negb (len sec =? 32) then Err MgSecret else
              if ev_attach ev i then replay ev (S i) pending (done ++ [(mbox, sec, at_ShardURL a, at_RouterURL a)]) else Err MgReplay
          end
      end
  end.

Definition Start (ev : env) (m : Manager) (id : bytes) : Manager * res mg_err Live :=
  if negb (default false (sf_Enabled (mn_state m) !! id)) then (m, Err MgDisabled) else
  if negb (installed m id) then (m, Err MgNotInstalled) else
  match verifyInstalled m id with
  | Panic => (m, Panic)
  | Err e => (m, Err e)
  | Ok (mf, entryRaw) =>
      let m := set_fs (ev_meanwhile ev (mn_fs m)) m in
      match (run ← spawn ev (mn_fs m) (join (mn_dir m) [id; mf_Entry mf]) entryRaw mf;
             _ ← check (negb (ev_start ev)) MgStart;
             attached ← replay ev 0 (default [] (sf_Attach (mn_state m) !! id)) [];
             Ok (mkLive (mf_ID mf) run (ev_caps ev) attached)) with
      | Panic => (m, Panic)
      | Err e => (m, Err e)
      | Ok t => (set_live (<[id := t]> (mn_live m)) m, Ok t)
      end
  end.

Definition Stop (m : Manager) (id : bytes) : Manager * res mg_err unit :=
  match mn_live m !! id with
  | None => (m, Err MgNotRunning)
  | Some _ => (set_live (delete id (mn_live m)) m, Ok tt)
  end.

Definition EnsureRunning (ev : env) (m : Manager) (id : bytes) : Manager * res mg_err Live :=
  match mn_live m !! id with Some t => (m, Ok t) | None => Start ev m id end.

(** [StartEnabled] over the listed IDs ([List]); a failure disables only its own
    transport.  The result of saving is dropped. *)
Fixpoint StartEnabled (envs : bytes -> env) (m : Manager) (list : list (bytes * bool)) : Manager * gmap bytes mg_err :=
  match list with
  | [] => (m, ∅)
  | (id, enabled) :: list =>
      if negb enabled then StartEnabled envs m list else
      match Start (envs id) m id with
      | (m, Err e) =>
          let m := set_state (set_Enabled (<[id := false]> (sf_Enabled (mn_state m))) (mn_state m)) m in
          let '(m, errs) := StartEnabled envs (saveState (envs id) m).1 list in
          (m, match errs !! id with Some _ => errs | None => <[id := e]> errs end)
      | (m, _) => StartEnabled envs m list
      end
  end.

(** The names directly below the directory that hold a manifest. *)
Definition entryName (dir p : path) : option bytes :=
  match drop (length dir) p with
  | [name; f] => if (bool_decide (take (length dir) p = dir) && bytes_eqb f manifestName)%bool then Some name else None
  | _ => None
  end.

Record Installed := mkInstalled { in_Manifest : Manifest; in_Dir : path; in_Enabled : bool; in_Hash : bytes; in_Running : bool }.

Definition describe (m : Manager) (name : bytes) : option Installed :=
  raw ← mn_fs m !! (mn_dir m ++ [name; manifestName]);
  match ParseManifest raw with
  | Ok mf => Some (mkInstalled mf (mn_dir m ++ [name]) (default false (sf_Enabled (mn_state m) !! mf_ID mf))
               (default [] (sf_Hash (mn_state m) !! mf_ID mf)) (bool_decide (is_Some (mn_live m !! mf_ID mf))))
  | _ => None
  end.

(** [os.ReadDir] yields the entries by name; [None]: it fails. *)
Definition List_ (readable : bool) (m : Manager) : res mg_err (list Installed) :=
  if negb readable then Err MgRead else
  Ok (sortBy (fun i => mf_ID (in_Manifest i)) (omap (describe m) (bytes_sort (omap (entryName (mn_dir m)) (map_to_list (mn_fs m)).*1)))).

Definition Running (m : Manager) : gmap bytes Live := mn_live m.

Definition Route (io : storeIO) (m : Manager) (cap : bytes) : list Live :=
  sortBy lv_ID (List.filter (fun t => existsb (fun c => bytes_eqb c cap) (lv_caps t)) (io_range io (mn_live m)).*2).

Definition SetConfig (ev : env) (m : Manager) (id configJSON : bytes) : Manager * res mg_err unit :=
  if negb (installed m id) then (m, Err MgNotInstalled) else
  if 65536 <? len configJSON then (m, Err MgConfigSize) else
  if (negb (bytes_eqb (trimSpace configJSON) []) && negb (json_object configJSON))%bool then (m, Err MgConfigJSON) else
  saveState ev (set_state (set_Config (<[id := configJSON]> (sf_Config (mn_state m))) (mn_state m)) m).

Definition Config (m : Manager) (id : bytes) : bytes := default [] (sf_Config (mn_state m) !! id).

(** The first attachment of the same mailbox is replaced, else one is added. *)
Fixpoint upsert (l : list Attachment) (a : Attachment) : list Attachment :=
  match l with
  | [] => [a]
  | x :: l => if bytes_eqb (at_MailboxID x) (at_MailboxID a) then a :: l else x :: upsert l a
  end.

Definition AddAttachment (ev : env) (m : Manager) (id : bytes) (a : Attachment) : Manager * res mg_err unit :=
  if (negb (len (at_MailboxID a) =? 32) || negb (isHex (at_MailboxID a)))%bool then (m, Err MgAttachMailbox) else
  if (negb (len (at_ReadSecret a) =? 64) || negb (isHex (at_ReadSecret a)))%bool then (m, Err MgAttachSecret) else
  if bytes_eqb (at_ShardURL a) [] then (m, Err MgAttachShard) else
  if negb (installed m id) then (m, Err MgNotInstalled) else
  saveState ev (set_state (set_Attach (<[id := upsert (default [] (sf_Attach (mn_state m) !! id)) a]> (sf_Attach (mn_state m))) (mn_state m)) m).

Definition Attachments (m : Manager) (id : bytes) : list Attachment := default [] (sf_Attach (mn_state m) !! id).

Definition RemoveAttachment (ev : env) (m : Manager) (id mailboxID : bytes) : Manager * res mg_err unit :=
  let l := Attachments m id in
  let kept := List.filter (fun a => negb (bytes_eqb (at_MailboxID a) mailboxID)) l in
  if negb (existsb (fun a => bytes_eqb (at_MailboxID a) mailboxID) l) then (m, Err MgNotAttached) else
  saveState ev (set_state (set_Attach (<[id := kept]> (sf_Attach (mn_state m))) (mn_state m)) m).

End Manager.

End Manager.
