(* ===== verification/ManagerTheorems.v ===== *)
(** * What the transport manager runs, and what it deletes

    Which package a started transport is, through any operations, failures and
    restarts, and which files a removal takes away. *)
From S2P Require Import Prelude GoStd Sha256 MultiStore MultiStoreTheorems Registry Manager.
#[local] Open Scope Z_scope.
Import Manager.

(** ** Paths *)
Definition plain (n : bytes) : Prop := (x2f ∉ n) /\ n ≠ [] /\ n ≠ str "." /\ n ≠ str "..".

Lemma join_plain (dir : path) (names : list bytes) : Forall plain names -> join dir names = dir ++ names.
Proof.
  unfold join. revert dir. induction names as [|n names IH]; intros dir H; [by rewrite app_nil_r|].
  apply List.Forall_cons_iff in H as [(Hs & H1 & H2 & H3) H]. rewrite fmap_cons, (splitOn_word _ _ Hs).
  change (mjoin ([n] :: (splitOn x2f <$> names))) with (n :: mjoin (splitOn x2f <$> names)). cbn [fold_left].
  unfold cleanStep at 2. rewrite !(proj2 (bytes_eqb_neq n _)) by done. cbn [orb]. rewrite IH by done. by rewrite <- app_assoc.
Qed.

Lemma chars_plain (f : byte -> bool) n : f x2f = false -> forallb f n = true -> x2f ∉ n.
Proof. intros Hf Hn Hin. apply list_elem_of_In in Hin. rewrite forallb_forall in Hn. apply Hn in Hin. congruence. Qed.

Lemma idRe_plain id : idRe id = true -> plain id.
Proof.
  destruct id as [|b t]; [done|]. cbn [idRe]. intros H. apply andb_true_iff in H as [H _]. apply andb_true_iff in H as [Hb Ht].
  split; [|split; [done|split]].
  - apply (chars_plain (fun c => idChar c || bool_decide (c = x2d))%bool); [by vm_compute|]. cbn [forallb]. by rewrite Hb, Ht.
  - intros [= -> ->]. by vm_compute in Hb.
  - intros [= -> ->]. by vm_compute in Hb.
Qed.

Lemma safeEntry_plain e : e ≠ [] -> e = safeEntry e -> plain e.
Proof.
  unfold safeEntry. intros Hne H. destruct (forallb entryChar e) eqn:Hc; cbn [negb] in H; [|done].
  destruct (_ || _)%bool eqn:Hd; [done|]. apply orb_false_iff in Hd as [H1%bytes_eqb_neq H2%bytes_eqb_neq].
  split; [|done]. by apply (chars_plain entryChar); [vm_compute|].
Qed.

Lemma manifestName_plain : plain manifestName.
Proof. split; [|split; [|split]]; try (by vm_compute). apply (chars_plain entryChar); by vm_compute. Qed.

Lemma Validate_plain m u : Validate m = Ok u -> plain (mf_ID m) /\ plain (mf_Entry m).
Proof.
  unfold Validate. destruct (idRe (mf_ID m)) eqn:Hid; [|done]. intros H. split; [by apply idRe_plain|]. cbn [negb] in H.
  do 3 (case_match; [done|]). destruct (_ || _)%bool eqn:He in H; [done|].
  apply orb_false_iff in He as [H3%bytes_eqb_neq H4]. apply negb_false_iff, bytes_eqb_eq in H4. by apply safeEntry_plain.
Qed.

(** ** Removal *)
Lemma removeAll_lookup (p : path) (f : FS) (q : path) : removeAll p f !! q = if decide (p `prefix_of` q) then None else f !! q.
Proof.
  unfold removeAll. destruct (decide (p `prefix_of` q)) as [H|H].
  - apply map_lookup_filter_None. right. intros v _. cbn. naive_solver.
  - destruct (f !! q) as [v|] eqn:Hv.
    + apply map_lookup_filter_Some. split; [done|]. exact H.
    + apply map_lookup_filter_None. by left.
Qed.

Definition forgets (id : bytes) (s s' : stateFile) : Prop :=
  sf_Enabled s' = delete id (sf_Enabled s) /\ sf_Hash s' = delete id (sf_Hash s) /\ sf_Files s' = delete id (sf_Files s) /\
  sf_Config s' = delete id (sf_Config s) /\ sf_Attach s' = delete id (sf_Attach s).

(** Removing a transport deletes exactly that transport, unless its ID is a
    path.  For an ID a manifest can have, a successful [Remove] deletes the files
    under the transport's directory and no others, forgets everything about that
    ID only, and leaves the new state on disk.  But the ID is not checked:
    removing [..] deletes everything in the parent of the manager's directory,
    and removing the empty ID everything the manager has installed, both with
    the saved state. *)
Theorem remove_deletes_what_id_names ev m id m' : Remove ev m id = (m', Ok tt) ->
  (idRe id = true -> mn_saved m' = Some (mn_state m') /\
     forall q, mn_fs m' !! q = if decide ((mn_dir m ++ [id]) `prefix_of` q) then None else mn_fs m !! q) /\
  (id = str ".." -> forall parent name, mn_dir m = parent ++ [name] ->
     mn_saved m' = None /\ forall q, parent `prefix_of` q -> mn_fs m' !! q = None) /\
  (id = [] -> mn_saved m' = None /\ forall q, mn_dir m `prefix_of` q -> mn_fs m' !! q = None) /\
  forgets id (mn_state m) (mn_state m') /\ mn_live m' = delete id (mn_live m).
Proof.
  unfold Remove, saveState. intros H. destruct (ev_save ev); [|done]. destruct (ev_remove ev); [|done]. injection H as <-.
  unfold purge. cbn [mn_fs mn_dir mn_state mn_saved mn_live set_fs set_saved set_state set_live]. conjs.
  - intros Hid. rewrite join_plain by (apply List.Forall_cons; [by apply idRe_plain|apply List.Forall_nil]).
    split; [|intros q; apply removeAll_lookup]. rewrite decide_False; [done|]. intros [k Hk].
    rewrite <- app_assoc in Hk. apply app_inv_head in Hk. by injection Hk as <- _.
  - intros -> parent name ->.
    assert (join (parent ++ [name]) [str ".."] = parent) as ->.
    { change (join (parent ++ [name]) [str ".."]) with (removelast (parent ++ [name])). by rewrite removelast_last. }
    split; [|intros q Hq; rewrite removeAll_lookup; by rewrite decide_True].
    rewrite decide_True; [done|]. rewrite <- app_assoc. by apply prefix_app_r.
  - intros ->. change (join (mn_dir m) [[]]) with (mn_dir m).
    split; [|intros q Hq; rewrite removeAll_lookup; by rewrite decide_True].
    rewrite decide_True; [done|]. by apply prefix_app_r.
  - done.
  - done.
Qed.

(** ** The pin *)
Definition pinInput (manifest entry : bytes) : bytes :=
  putU64 (u64 (len manifest)) ++ manifest ++ putU64 (u64 (len entry)) ++ entry.

Lemma filesPin_eq m e : filesPin m e = hexEncode (sha256 (pinInput m e)).
Proof. done. Qed.

Lemma app_inj_len {A} (a b c d : list A) : length a = length b -> a ++ c = b ++ d -> a = b /\ c = d.
Proof. apply app_inj_1. Qed.

(** The lengths in front make the boundary unambiguous. *)
Lemma pinInput_inj m e m' e' : len m' + len e' < 2 ^ 64 -> pinInput m e = pinInput m' e' -> m = m' /\ e = e'.
Proof.
  intros Hm' H. assert (len m + len e = len m' + len e') as Hlen.
  { apply (f_equal length) in H. unfold pinInput, putU64 in H. rewrite !length_app, !length_be in H. unfold len. lia. }
  unfold pinInput in H. apply app_inj_len in H as [H1 H]; [|unfold putU64; by rewrite !length_be].
  assert (0 <= len m /\ 0 <= len e /\ 0 <= len m' /\ 0 <= len e') as (?&?&?&?) by (unfold len; lia).
  assert (len m = len m') as Hl.
  { apply (f_equal unbe) in H1. rewrite !unbe_putU64 in H1. rewrite !(u64_small (u64 _)) in H1 by apply u64_range. rewrite !u64_small in H1 by lia. done. }
  apply app_inj_len in H as [-> H]; [|unfold len in Hl; lia]. split; [done|].
  by apply app_inj_len in H as [_ H]; [|unfold putU64; by rewrite !length_be].
Qed.

(** ** Installing *)
(** What a package holds under a name: the data of the last such entry, of
    which at most 110 MiB is written. *)
Definition packageFiles (entries : list zipEntry) (files : gmap bytes zipEntry) : gmap bytes zipEntry :=
  fold_left (fun m f => <[ze_Name f := f]> m) entries files.

Definition content (files : gmap bytes zipEntry) (name : bytes) : option bytes :=
  f ← files !! name; d ← ze_Data f; Some (limitRead 115343360 d).

Lemma content_short files name b : content files name = Some b -> len b <= 115343360.
Proof.
  unfold content. destruct (files !! name) as [f|]; [|done]. cbn [mbind option_bind]. destruct (ze_Data f) as [d|]; [|done].
  cbn [mbind option_bind]. intros H. assert (limitRead 115343360 d = b) as <- by congruence. unfold limitRead. destruct (len d <=? 115343360) eqn:Hl; [lia|]. unfold len. rewrite length_take. lia.
Qed.

Lemma scan_files entries : forall files mf files' mf', scan entries files mf = Ok (files', mf') -> files' = packageFiles entries files.
Proof.
  induction entries as [|f entries IH]; intros files mf files' mf' H; cbn [scan] in H; [by injection H as <- <-|].
  cbn [packageFiles fold_left]. destruct (bytes_eqb _ _); [destruct (ze_Data f); [|done]|]; by eapply IH.
Qed.

Definition pick (name : bytes) (files : list (bytes * zipEntry)) (old : bytes) : bytes :=
  fold_left (fun acc x => if bytes_eqb x.1 name then match ze_Data x.2 with Some d => limitRead 115343360 d | None => acc end else acc) files old.

Lemma extract_bytes ev dest entry files : forall f mb eb f' mb' eb',
  extract ev dest entry files f mb eb = (f', Ok (mb', eb')) -> mb' = pick manifestName files mb /\ eb' = pick entry files eb.
Proof.
  induction files as [|[name zf] files IH]; intros f mb eb f' mb' eb' H; cbn [extract] in H; [by injection H as <- <- <-|].
  cbn [pick fold_left fst snd]. destruct (bytes_eqb name manifestName) eqn:H1, (bytes_eqb name entry) eqn:H2; cbn [negb andb] in H;
    [..|by eapply IH]; (destruct (ze_Data zf) as [d|]; [|done]); (destruct (ev_write ev name); [|done]); by eapply IH.
Qed.

Lemma pick_none name (files : list (bytes * zipEntry)) : name ∉ files.*1 -> forall old, pick name files old = old.
Proof.
  induction files as [|[n zf] files IH]; intros H old; [done|]. apply not_elem_of_cons in H as [Hn H]. cbn [pick fold_left fst snd].
  cbn [fst] in Hn. rewrite (proj2 (bytes_eqb_neq n name)) by congruence. by apply IH.
Qed.

Lemma pick_spec name zf (files : list (bytes * zipEntry)) : NoDup files.*1 -> (name, zf) ∈ files ->
  forall d old, ze_Data zf = Some d -> pick name files old = limitRead 115343360 d.
Proof.
  induction files as [|[n z] files IH]; intros Hnd Hin d old Hd; [by apply not_elem_of_nil in Hin|].
  cbn [fmap list_fmap fst] in Hnd. apply list.NoDup_cons in Hnd as [Hni Hnd]. cbn [pick fold_left fst snd].
  apply elem_of_cons in Hin as [[= <- <-]|Hin].
  - rewrite bytes_eqb_refl, Hd. by apply pick_none.
  - destruct (bytes_eqb n name) eqn:Hn; [|by apply IH]. apply bytes_eqb_eq in Hn as ->. destruct Hni. apply list_elem_of_fmap. by exists (name, zf).
Qed.

Lemma scan_manifest entries : forall files mf files' mf', scan entries files mf = Ok (files', mf') ->
  (is_Some mf -> exists f d, files !! manifestName = Some f /\ ze_Data f = Some d) ->
  is_Some mf' -> exists f d, files' !! manifestName = Some f /\ ze_Data f = Some d.
Proof.
  induction entries as [|f entries IH]; intros files mf files' mf' H Hi Hm; cbn [scan] in H; [injection H as <- <-; by apply Hi|].
  destruct (bytes_eqb (ze_Name f) manifestName) eqn:Hn; bool_prop.
  - destruct (ze_Data f) as [d|] eqn:Hd; [|done]. eapply IH; [exact H| |done]. intros _. exists f, d. by rewrite Hn, lookup_insert_eq.
  - eapply IH; [exact H| |done]. intros (g & d & Hg & Hd)%Hi. exists g, d. by rewrite lookup_insert_ne.
Qed.

Lemma extract_data ev dest entry files : forall f mb eb f' r, extract ev dest entry files f mb eb = (f', Ok r) ->
  forall name zf, (name, zf) ∈ files -> name = manifestName \/ name = entry -> is_Some (ze_Data zf).
Proof.
  induction files as [|[n z] files IH]; intros f mb eb f' r H name zf Hin Hn; [by apply not_elem_of_nil in Hin|].
  cbn [extract] in H. apply elem_of_cons in Hin as [[= <- <-]|Hin].
  - destruct (_ && _)%bool eqn:Hb in H.
    + apply andb_true_iff in Hb as [H1 H2]. apply negb_true_iff, bytes_eqb_neq in H1. apply negb_true_iff, bytes_eqb_neq in H2. by destruct Hn.
    + destruct (ze_Data zf); [by eexists|done].
  - destruct (_ && _)%bool in H; [by eapply IH|]. destruct (ze_Data z); [|done]. destruct (ev_write ev n); [|done]. by eapply IH.
Qed.

Section Pinned.
Context (unzip : bytes -> option (list zipEntry)) (json_manifest : bytes -> option Manifest) (json_object : bytes -> bool) (uni : bytes -> bytes).

Lemma ParseManifest_plain raw m : ParseManifest json_manifest raw = Ok m -> plain (mf_ID m) /\ plain (mf_Entry m).
Proof. unfold ParseManifest. intros H. res_inv. by eapply Validate_plain. Qed.

Lemma inspect_inv pkg files mf : inspect unzip json_manifest pkg = Ok (files, mf) ->
  exists entries zf, unzip pkg = Some entries /\ files = packageFiles entries ∅ /\ plain (mf_ID mf) /\
    files !! mf_Entry mf = Some zf /\ exists f d, files !! manifestName = Some f /\ ze_Data f = Some d.
Proof.
  unfold inspect. intros H. destruct (unzip pkg) as [entries|]; [|done]. cbn [ofOption mbind res_bind] in H.
  destruct (scan entries ∅ None) as [[fs [mfRaw|]]|e|] eqn:Hs; cbn [ofOption mbind res_bind] in H; [|done|done|done].
  destruct (ParseManifest json_manifest mfRaw) as [mf'|e|] eqn:Hp; cbn [mbind res_bind] in H; [|done|done].
  destruct (fs !! mf_Entry mf') as [zf|] eqn:He; cbn [ofOption mbind res_bind] in H; [|done].
  destruct (check _ _) as [u|e|]; cbn [mbind res_bind] in H; [|done|done]. injection H as <- <-.
  exists entries, zf. conjs; [done|by eapply scan_files|by eapply ParseManifest_plain|done|].
  eapply scan_manifest; [exact Hs|by intros [? ?]|by eexists].
Qed.

Lemma extract_error ev dest entry l : forall f mb eb f' e, extract ev dest entry l f mb eb = (f', Err e) -> e = MgRead \/ e = MgWrite.
Proof.
  induction l as [|[n z] l IH]; intros f mb eb f' e H; [done|]. cbn [extract] in H. destruct (_ && _)%bool in H; [by eapply IH|].
  destruct (ze_Data z); [|injection H as _ <-; by left]. destruct (ev_write ev n); [by eapply IH|injection H as _ <-; by right].
Qed.

(** A successful extraction has read what the package holds. *)
Lemma extract_content (ev : env) (dest : path) (entry : bytes) (files : gmap bytes zipEntry) (f f' : FS) (mb eb : bytes) : range_ok (ev_io ev) -> is_Some (files !! entry) ->
  (exists z d, files !! manifestName = Some z /\ ze_Data z = Some d) ->
  extract ev dest entry (io_range (ev_io ev) files) f [] [] = (f', Ok (mb, eb)) ->
  content files manifestName = Some mb /\ content files entry = Some eb.
Proof.
  intros Hio [zf Hzf] (z & d & Hz & Hd) Hx.
  assert (NoDup (io_range (ev_io ev) files).*1) as Hnd by (rewrite (Hio _ files); apply NoDup_fst_map_to_list).
  assert (forall n z, files !! n = Some z -> (n, z) ∈ io_range (ev_io ev) files) as Hmem by (intros n x Hn; rewrite (Hio _ files); by apply elem_of_map_to_list).
  pose proof (extract_data _ _ _ _ _ _ _ _ _ Hx _ _ (Hmem _ _ Hzf) (or_intror eq_refl)) as [ed Hed].
  apply extract_bytes in Hx as [-> ->]. rewrite (pick_spec _ _ _ Hnd (Hmem _ _ Hz) _ _ Hd), (pick_spec _ _ _ Hnd (Hmem _ _ Hzf) _ _ Hed).
  unfold content. rewrite Hz, Hzf. cbn [mbind option_bind]. by rewrite Hd, Hed.
Qed.

(** ** Whose pin it is
    The operations a manager can be put through, in any order: those of the
    code, anything done to the installed files, and the end of the process and a
    new manager over the same directory ([NewManager] reads [state.json]). *)
Inductive mop :=
| OInstall (ev : env) (pkg : bytes) (enable : bool) | ORemove (ev : env) (id : bytes) | OEnable (ev : env) (id : bytes)
| ODisable (ev : env) (id : bytes) | OStart (ev : env) (id : bytes) | OStop (id : bytes) | OStartEnabled (envs : bytes -> env) (l : list (bytes * bool))
| OSetConfig (ev : env) (id c : bytes) | OAttach (ev : env) (id : bytes) (a : Attachment) | ODetach (ev : env) (id mb : bytes)
| OTamper (f : FS -> FS) | ORestart.

Definition mstep (m : Manager) (o : mop) : Manager :=
  match o with
  | OInstall ev pkg en => (Install unzip json_manifest ev m pkg en).1
  | ORemove ev id => (Remove ev m id).1
  | OEnable ev id => (Enable ev m id).1
  | ODisable ev id => (Disable ev m id).1
  | OStart ev id => (Start json_manifest uni ev m id).1
  | OStop id => (Stop m id).1
  | OStartEnabled envs l => (StartEnabled json_manifest uni envs m l).1
  | OSetConfig ev id c => (SetConfig json_object ev m id c).1
  | OAttach ev id a => (AddAttachment ev m id a).1
  | ODetach ev id mb => (RemoveAttachment ev m id mb).1
  | OTamper f => set_fs (f (mn_fs m)) m
  | ORestart => NewManager (mn_dir m) (mn_fs m) (mn_saved m)
  end.

(** An installation of [id] that gets as far as the pin, whether or not the
    state could then be saved. *)
Definition takes (id : bytes) (m : Manager) (ev : env) (pkg : bytes) (en : bool) : bool :=
  match inspect unzip json_manifest pkg, (Install unzip json_manifest ev m pkg en).2 with
  | Ok (_, mf), Ok _ | Ok (_, mf), Err MgSave => bytes_eqb (mf_ID mf) id
  | _, _ => false
  end.

Definition isOk {E A} (r : res E A) : bool := match r with Ok _ => true | _ => false end.

(** The operation writes [state.json]. *)
Definition saves (m : Manager) (o : mop) : bool :=
  match o with
  | OInstall ev pkg en => isOk (Install unzip json_manifest ev m pkg en).2
  | ORemove ev _ => ev_save ev
  | OEnable ev id => isOk (Enable ev m id).2
  | ODisable ev id => isOk (Disable ev m id).2
  | OSetConfig ev id c => isOk (SetConfig json_object ev m id c).2
  | OAttach ev id a => isOk (AddAttachment ev m id a).2
  | ODetach ev id mb => isOk (RemoveAttachment ev m id mb).2
  | OStartEnabled envs l => existsb (fun kv => ev_save (envs kv.1)) (map_to_list (StartEnabled json_manifest uni envs m l).2)
  | OStart _ _ | OStop _ | OTamper _ | ORestart => false
  end.

(** The package [id] was last installed from, as the manager has it in memory
    and as [state.json] has it. *)
Definition track (id : bytes) (m : Manager) (p : option bytes * option bytes) (o : mop) : option bytes * option bytes :=
  let memory := match o with
                | OInstall ev pkg en => if takes id m ev pkg en then Some pkg else p.1
                | ORemove _ i => if bytes_eqb i id then None else p.1
                | ORestart => p.2
                | _ => p.1
                end in
  (memory, _ ← mn_saved (mstep m o); if saves m o then memory else p.2).

Fixpoint tracked (id : bytes) (m : Manager) (p : option bytes * option bytes) (ops : list mop) : option bytes * option bytes :=
  match ops with [] => p | o :: ops => tracked id (mstep m o) (track id m p o) ops end.

(** The pin of [id] is that of the package. *)
Definition pinOf (id : bytes) (s : stateFile) (p : option bytes) : Prop :=
  match p with
  | None => sf_Files s !! id = None
  | Some pkg => exists files mf mb eb, inspect unzip json_manifest pkg = Ok (files, mf) /\ mf_ID mf = id /\
      content files manifestName = Some mb /\ content files (mf_Entry mf) = Some eb /\ sf_Files s !! id = Some (filesPin mb eb)
  end.

Definition pinned (id : bytes) (m : Manager) (p : option bytes * option bytes) : Prop :=
  pinOf id (mn_state m) p.1 /\ pinOf id (default emptyState (mn_saved m)) p.2.

Definition ranges_ok (o : mop) : Prop := match o with OInstall ev _ _ => range_ok (ev_io ev) | _ => True end.

Lemma pinOf_eq id s s' p : sf_Files s' !! id = sf_Files s !! id -> pinOf id s p -> pinOf id s' p.
Proof. intros H. destruct p; unfold pinOf; by rewrite H. Qed.

(** [b] tells whether an operation wrote [state.json]. *)
Definition saved_as (b : bool) (m m' : Manager) : Prop :=
  if b then exists s, mn_saved m' = Some s /\ sf_Files s = sf_Files (mn_state m') else mn_saved m' = mn_saved m.

Lemma pinned_saved id m m' b p mem : saved_as b m m' -> pinned id m p -> pinOf id (mn_state m') mem ->
  pinned id m' (mem, _ ← mn_saved m'; if b then mem else p.2).
Proof.
  intros Hs [_ H2] H1. split; [done|]. cbn [snd]. destruct b.
  - destruct Hs as (s & -> & Hs). cbn. eapply pinOf_eq; [by rewrite Hs|done].
  - red in Hs. rewrite Hs. destruct (mn_saved m) as [s|]; [done|]. by cbn.
Qed.

(** An operation that leaves the pins in memory alone. *)
Definition keepsPins (b : bool) (m m' : Manager) : Prop :=
  saved_as b m m' /\ sf_Files (mn_state m') = sf_Files (mn_state m) /\ mn_dir m' = mn_dir m.

Lemma keepsPins_pinned id m m' b p : keepsPins b m m' -> pinned id m p -> pinned id m' (p.1, _ ← mn_saved m'; if b then p.1 else p.2).
Proof. intros (Hs & Hf & _) Hp. eapply pinned_saved; [exact Hs|exact Hp|]. destruct Hp as [H1 _]. by eapply pinOf_eq; [rewrite Hf|]. Qed.

Lemma keepsPins_trans b1 b2 m1 m2 m3 : keepsPins b1 m1 m2 -> keepsPins b2 m2 m3 -> keepsPins (b1 || b2)%bool m1 m3.
Proof.
  intros (H1 & H2 & H3) (H4 & H5 & H6). split; [|split; congruence]. destruct b2; [by rewrite orb_true_r|]. red in H4. rewrite orb_false_r.
  destruct b1; red; [|by rewrite H4]. destruct H1 as (s & Hs & Hf). exists s. split; congruence.
Qed.

Lemma saveState_saved ev m : saved_as (isOk (saveState ev m).2) m (saveState ev m).1.
Proof. unfold saveState. destruct (ev_save ev); [by eexists|done]. Qed.

Lemma saveState_keeps ev m m' : mn_saved m' = mn_saved m -> sf_Files (mn_state m') = sf_Files (mn_state m) -> mn_dir m' = mn_dir m ->
  keepsPins (isOk (saveState ev m').2) m (saveState ev m').1.
Proof. intros H1 H2 H3. unfold saveState. destruct (ev_save ev); [|done]. split; [by exists (mn_state m')|done]. Qed.

Lemma Start_keeps ev m id : keepsPins false m (Start json_manifest uni ev m id).1.
Proof.
  unfold Start. case_match; [done|]. case_match; [done|]. destruct (verifyInstalled _ m id) as [[mf e]|e|]; [|done|done]. cbv zeta. by case_match.
Qed.

Lemma existsb_insert (f : bytes -> bool) (m : gmap bytes mg_err) k v : m !! k = None ->
  existsb (fun kv => f kv.1) (map_to_list (<[k := v]> m)) = (f k || existsb (fun kv => f kv.1) (map_to_list m))%bool.
Proof.
  intros H. apply eq_true_iff_eq. rewrite orb_true_iff, !existsb_exists. split.
  - intros ([k' v'] & Hin%list_elem_of_In & Hf). apply elem_of_map_to_list, lookup_insert_Some in Hin as [[-> _]|[_ Hin]]; [by left|].
    right. exists (k', v'). split; [by apply list_elem_of_In, elem_of_map_to_list|done].
  - intros [Hf|([k' v'] & Hin%list_elem_of_In & Hf)].
    + exists (k, v). split; [apply list_elem_of_In, elem_of_map_to_list; by rewrite lookup_insert_eq|done].
    + apply elem_of_map_to_list in Hin. exists (k', v'). split; [|done]. apply list_elem_of_In, elem_of_map_to_list. rewrite lookup_insert_ne; [done|congruence].
Qed.

Lemma existsb_lookup (f : bytes -> bool) (m : gmap bytes mg_err) k v : m !! k = Some v ->
  existsb (fun kv => f kv.1) (map_to_list m) = (f k || existsb (fun kv => f kv.1) (map_to_list m))%bool.
Proof.
  intros H. destruct (f k) eqn:Hf; [|done]. apply existsb_exists. exists (k, v). split; [by apply list_elem_of_In, elem_of_map_to_list|done].
Qed.

Lemma StartEnabled_keeps envs l : forall m, let r := StartEnabled json_manifest uni envs m l in
  keepsPins (existsb (fun kv => ev_save (envs kv.1)) (map_to_list r.2)) m r.1.
Proof.
  induction l as [|[i en] l IH]; intros m; cbn [StartEnabled]; [done|]. destruct en; cbn [negb]; [|apply IH].
  pose proof (Start_keeps (envs i) m i) as Hk. destruct (Start json_manifest uni (envs i) m i) as [m1 [t|e|]]; cbn [fst] in Hk;
    [exact (keepsPins_trans _ _ _ _ _ Hk (IH m1))| |exact (keepsPins_trans _ _ _ _ _ Hk (IH m1))].
  set (m2 := set_state _ m1). assert (keepsPins (ev_save (envs i)) m (saveState (envs i) m2).1) as H2.
  { eapply (keepsPins_trans false (ev_save (envs i))); [exact Hk|]. unfold saveState. destruct (ev_save (envs i)); [split; [by exists (mn_state m2)|done]|by repeat split]. }
  specialize (IH (saveState (envs i) m2).1). cbv zeta in IH. destruct (StartEnabled _ _ _ _ _) as [m3 errs]. cbn [fst snd] in *.
  pose proof (keepsPins_trans _ _ _ _ _ H2 IH) as H. destruct (errs !! i) as [e'|] eqn:He.
  - by rewrite (existsb_lookup (fun k => ev_save (envs k)) _ _ _ He).
  - by rewrite (existsb_insert (fun k => ev_save (envs k)) _ _ _ He).
Qed.

(** A refused installation changes no pin and saves nothing. *)
Lemma Install_cases ev m pkg en id p : range_ok (ev_io ev) -> pinned id m p ->
  let o := OInstall ev pkg en in
  saved_as (saves m o) m (mstep m o) /\ pinOf id (mn_state (mstep m o)) (if takes id m ev pkg en then Some pkg else p.1) /\
  mn_dir (mstep m o) = mn_dir m.
Proof.
  intros Hio [Hp _]. cbn [saves mstep]. cbv zeta. unfold takes. destruct (Install unzip json_manifest ev m pkg en) as [m' r] eqn:H. cbn [fst snd].
  unfold Install in H. destruct (inspect unzip json_manifest pkg) as [[files mf]|e|] eqn:Hin; [|by injection H as <- <-|by injection H as <- <-].
  pose proof Hin as Hin'. apply inspect_inv in Hin' as (entries & zf & _ & Hfs & _ & Hzf & f & d & Hf & Hd).
  cbv zeta in H. destruct (_ && _)%bool in H; [by injection H as <- <-|]. destruct (ev_mkdir ev); cbn [negb] in H; [|by injection H as <- <-].
  destruct (extract ev _ _ _ _ _ _) as [fs x] eqn:Hx. destruct x as [[mb eb]|e|];
    [|apply extract_error in Hx; injection H as <- <-; by destruct Hx as [-> | ->]|by injection H as <- <-].
  apply (extract_content _ _ _ _ _ _ _ _ Hio (mk_is_Some _ _ Hzf) (ex_intro _ f (ex_intro _ d (conj Hf Hd)))) in Hx as [Hmb Heb].
  set (s := set_Files _ _) in H. set (s2 := match sf_Enabled s !! mf_ID mf with Some _ => _ | None => _ end) in H.
  assert (sf_Files s2 = <[mf_ID mf := filesPin mb eb]> (sf_Files (mn_state m))) as Hs2 by (unfold s2; destruct (sf_Enabled s !! mf_ID mf); [by destruct en|done]).
  pose proof (saveState_saved ev (set_state s2 (set_fs fs m))) as Hs. unfold saveState in H, Hs.
  assert (pinOf id s2 (if bytes_eqb (mf_ID mf) id then Some pkg else p.1)) as Hpin.
  { destruct (bytes_eqb (mf_ID mf) id) eqn:Hi; bool_prop.
    - exists files, mf, mb, eb. conjs; try done. by rewrite Hs2, Hi, lookup_insert_eq.
    - eapply pinOf_eq; [|exact Hp]. by rewrite Hs2, lookup_insert_ne. }
  destruct (ev_save ev); cbn [mbind res_bind] in H; injection H as <- <-; done.
Qed.

Lemma purge_pinned id d m mem x : pinned id m (mem, _ ← mn_saved m; x) -> pinned id (purge d m) (mem, _ ← mn_saved (purge d m); x).
Proof. intros [H1 H2]. split; [exact H1|]. unfold purge. cbn [mn_saved set_saved]. case_decide; [done|exact H2]. Qed.

Lemma Remove_pinned ev m i id p : pinned id m p -> pinned id (mstep m (ORemove ev i)) (track id m p (ORemove ev i)).
Proof.
  intros Hp. unfold track. cbn [mstep saves]. unfold Remove. set (m1 := set_state _ _).
  assert (pinOf id (mn_state m1) (if bytes_eqb i id then None else p.1)) as H1.
  { destruct (bytes_eqb i id) eqn:Hi; bool_prop; [subst i; by apply lookup_delete_eq|].
    destruct Hp as [Hp _]. eapply pinOf_eq; [|exact Hp]. by apply lookup_delete_ne. }
  unfold saveState. destruct (ev_save ev).
  - assert (pinned id (set_saved (Some (mn_state m1)) m1) (if bytes_eqb i id then None else p.1, _ ← mn_saved (set_saved (Some (mn_state m1)) m1); if bytes_eqb i id then None else p.1)) as H by (split; done).
    destruct (ev_remove ev); [|exact H]. by apply purge_pinned.
  - by eapply (pinned_saved id m m1 false).
Qed.

Lemma mstep_keeps m o : match o with OInstall _ _ _ | ORemove _ _ | ORestart => True | _ => keepsPins (saves m o) m (mstep m o) end.
Proof.
  destruct o as [ev pkg en|ev i|ev i|ev i|ev i|i|envs l|ev i c|ev i a|ev i mb|f|]; cbn [mstep saves]; try done.
  - unfold Enable. destruct (installed m i); [|done]. by apply saveState_keeps.
  - unfold Disable. by apply saveState_keeps.
  - apply Start_keeps.
  - unfold Stop. by case_match.
  - apply StartEnabled_keeps.
  - unfold SetConfig. repeat (case_match; [done|]). by apply saveState_keeps.
  - unfold AddAttachment. repeat (case_match; [done|]). by apply saveState_keeps.
  - unfold RemoveAttachment. cbv zeta. case_match; [done|]. by apply saveState_keeps.
Qed.

Lemma track_pinned id m p o : ranges_ok o -> pinned id m p -> pinned id (mstep m o) (track id m p o).
Proof.
  intros Hr Hp. pose proof (mstep_keeps m o) as Hk.
  destruct o; cbn [ranges_ok] in Hr; try exact (keepsPins_pinned _ _ _ _ _ Hk Hp).
  - destruct (Install_cases ev m pkg enable id p Hr Hp) as (H1 & H2 & _). by eapply pinned_saved.
  - by apply Remove_pinned.
  - destruct Hp as [_ H2]. split; [exact H2|]. unfold track. cbn. by destruct (mn_saved m).
Qed.

Lemma mstep_dir m o : ranges_ok o -> mn_dir (mstep m o) = mn_dir m.
Proof.
  intros Hr. pose proof (mstep_keeps m o) as Hk. destruct o; try (by destruct Hk as (_ & _ & ?)); [| |done].
  - unfold mstep, Install. destruct (inspect _ _ _) as [[files mf]|e|]; [|done|done]. cbv zeta.
    destruct (_ && _)%bool; [done|]. destruct (ev_mkdir ev); cbn [negb]; [|done].
    destruct (extract _ _ _ _ _ _ _) as [fs [[mb eb]|e|]]; [|done|done]. unfold saveState. by destruct (ev_save ev).
  - unfold mstep, Remove, saveState. destruct (ev_save ev); [|done]. by destruct (ev_remove ev).
Qed.

Lemma tracked_pinned id ops : forall m p, Forall ranges_ok ops -> pinned id m p ->
  pinned id (fold_left mstep ops m) (tracked id m p ops) /\ mn_dir (fold_left mstep ops m) = mn_dir m.
Proof.
  induction ops as [|o ops IH]; intros m p Hr Hp; [done|]. apply List.Forall_cons_iff in Hr as [Ho Hr]. cbn [fold_left tracked].
  destruct (IH _ _ Hr (track_pinned id m p o Ho Hp)) as [H1 H2]. split; [exact H1|]. rewrite H2. by apply mstep_dir.
Qed.

(** Only packages handed to [Install] are tracked. *)
Lemma tracked_in id pkg ops : forall m p, (tracked id m p ops).1 = Some pkg \/ (tracked id m p ops).2 = Some pkg ->
  p.1 = Some pkg \/ p.2 = Some pkg \/ exists ev en, OInstall ev pkg en ∈ ops.
Proof.
  induction ops as [|o ops IH]; intros m p H; [naive_solver|]. cbn [tracked] in H.
  assert (forall q, q ∈ ops -> q ∈ o :: ops) as Hin by (intros; by right).
  apply IH in H as [H|[H|(ev & en & H)]]; [| |naive_solver]; clear IH; unfold track in H; cbn [fst snd] in H.
  - destruct o; try (by left); [|destruct (bytes_eqb _ _); [done|by left]|by right; left].
    destruct (takes _ _ _ _ _); [|by left]. injection H as ->. right; right. exists ev, enable. by left.
  - destruct (mn_saved (mstep m o)); [|done]. cbn in H. destruct (saves m o); [|by right; left].
    destruct o; try (by left); [|destruct (bytes_eqb _ _); [done|by left]|by right; left].
    destruct (takes _ _ _ _ _); [|by left]. injection H as ->. right; right. exists ev, enable. by left.
Qed.

(** Not an installation or removal of [id]. *)
Definition spares (id : bytes) (o : mop) : Prop :=
  match o with
  | OInstall _ pkg _ => match inspect unzip json_manifest pkg with Ok (_, mf) => mf_ID mf ≠ id | _ => True end
  | ORemove _ id' => id' ≠ id
  | _ => True
  end.

Definition only (pkg : bytes) (p : option bytes * option bytes) : Prop :=
  (p.1 = Some pkg \/ p.1 = None) /\ (p.2 = Some pkg \/ p.2 = None).

Lemma track_spared id pkg m p o : spares id o -> only pkg p -> only pkg (track id m p o).
Proof.
  intros Hs [H1 H2].
  assert (match o with OInstall ev pkg en => takes id m ev pkg en = false | ORemove _ i => bytes_eqb i id = false | _ => True end) as Ho.
  { destruct o; try done; cbn [spares] in Hs; [|by apply bytes_eqb_neq]. unfold takes. destruct (inspect _ _ _) as [[files mf]|e|]; [|done|done].
    apply bytes_eqb_neq in Hs. rewrite Hs. by repeat case_match. }
  unfold track. match goal with |- only _ (?x, _) => set (memory := x) end.
  assert (memory = Some pkg \/ memory = None) as Hm by (unfold memory; destruct o; try rewrite Ho; done).
  clearbody memory. split; [exact Hm|]. cbn [snd]. destruct (mn_saved _); [|by right]. cbn. by destruct (saves _ _).
Qed.

Lemma tracked_spared id pkg ops : forall m p, Forall (spares id) ops -> only pkg p -> only pkg (tracked id m p ops).
Proof.
  induction ops as [|o ops IH]; intros m p H Hp; [done|]. apply List.Forall_cons_iff in H as [Ho H]. apply IH; [done|]. by apply track_spared.
Qed.

Lemma tracked_app id ops1 ops2 : forall m p, tracked id m p (ops1 ++ ops2) = tracked id (fold_left mstep ops1 m) (tracked id m p ops1) ops2.
Proof. induction ops1 as [|o ops1 IH]; intros m p; [done|]. apply IH. Qed.

(** After a successful installation memory and [state.json] have its package. *)
Lemma track_installed id m p ev pkg en mf : (Install unzip json_manifest ev m pkg en).2 = Ok mf -> mf_ID mf = id ->
  only pkg (track id m p (OInstall ev pkg en)).
Proof.
  intros Hi Hid. assert (takes id m ev pkg en = true) as Ht.
  { unfold takes. rewrite Hi. unfold Install in Hi. destruct (inspect _ _ pkg) as [[files mf']|e|]; [|done|done]. cbv zeta in Hi.
    destruct (_ && _)%bool in Hi; [done|]. destruct (negb _) in Hi; [done|]. destruct (extract _ _ _ _ _ _ _) as [fs [[mb eb]|e|]]; [|done|done].
    destruct (saveState _ _) as [m' [u|e|]]; [|done|done]. cbn in Hi. injection Hi as ->. rewrite Hid. apply bytes_eqb_refl. }
  unfold track, only. cbn [fst snd saves]. rewrite Ht, Hi. cbn [isOk]. split; [by left|]. destruct (mn_saved _); [by left|by right].
Qed.

(** The running transport [t] of [id] was started from the files of [pkg], up to
    two different inputs with the same SHA-256. *)
Definition runs (id pkg : bytes) (ev : env) (m : Manager) (t : Live) : Prop :=
  exists files mf mb eb mraw eraw mf',
    inspect unzip json_manifest pkg = Ok (files, mf) /\ mf_ID mf = id /\
    content files manifestName = Some mb /\ content files (mf_Entry mf) = Some eb /\
    mn_fs m !! (mn_dir m ++ [id; manifestName]) = Some mraw /\ ParseManifest json_manifest mraw = Ok mf' /\
    mn_fs m !! (mn_dir m ++ [id; mf_Entry mf']) = Some eraw /\
    ((mraw = mb /\ eraw = eb) \/ (pinInput mraw eraw ≠ pinInput mb eb /\ sha256 (pinInput mraw eraw) = sha256 (pinInput mb eb))) /\
    (if isWasm uni mf' then lv_run t = eraw
     else ev_meanwhile ev (mn_fs m) !! (mn_dir m ++ [id; mf_Entry mf']) = Some (lv_run t)).

Lemma filesPin_inj m e m' e' : filesPin m e = filesPin m' e' -> len m' + len e' < 2 ^ 64 ->
  (m = m' /\ e = e') \/ (pinInput m e ≠ pinInput m' e' /\ sha256 (pinInput m e) = sha256 (pinInput m' e')).
Proof.
  intros H Hl. rewrite !filesPin_eq in H. apply (f_equal hexDecode) in H. rewrite !hexDecode_Encode in H. injection H as Hsha.
  destruct (decide (pinInput m e = pinInput m' e')) as [He|Hn]; [left|by right]. by apply pinInput_inj in He.
Qed.

(** What runs after a successful [Start]. *)
Lemma Start_run ev m id m2 t mf er : plain id -> plain (mf_Entry mf) -> verifyInstalled json_manifest m id = Ok (mf, er) ->
  Start json_manifest uni ev m id = (m2, Ok t) ->
  if isWasm uni mf then lv_run t = er else ev_meanwhile ev (mn_fs m) !! (mn_dir m ++ [id; mf_Entry mf]) = Some (lv_run t).
Proof.
  intros Hid Hent Hv Hst. unfold Start in Hst. repeat (case_match; [done|]). rewrite Hv in Hst. cbv zeta in Hst.
  unfold spawn in Hst. destruct (ev_spawn ev); cbn [negb mbind res_bind] in Hst; [|done].
  change (mn_fs (set_fs ?f m)) with f in Hst. change (mn_dir (set_fs ?f m)) with (mn_dir m) in Hst.
  rewrite join_plain in Hst by (apply List.Forall_cons; [done|apply List.Forall_cons; [done|apply List.Forall_nil]]).
  destruct (isWasm uni mf); [|destruct (ev_meanwhile _ _ !! _) as [r|]; cbn [ofOption] in Hst; [|done]]; cbn [mbind res_bind] in Hst;
    (destruct (check _ _); cbn [mbind res_bind] in Hst; [|done|done]);
    (destruct (replay _ _ _ _); cbn [mbind res_bind] in Hst; [|done|done]); by injection Hst as _ <-.
Qed.

Lemma pinned_runs id pkg ev m m2 t : pinOf id (mn_state m) (Some pkg) -> Start json_manifest uni ev m id = (m2, Ok t) -> runs id pkg ev m t.
Proof.
  intros (files & mf & mb & eb & Hin & Hid & Hmb & Heb & Hp) Hst.
  assert (plain id) as Hpl by (apply inspect_inv in Hin as (? & ? & _ & _ & H & _); by rewrite <- Hid).
  assert (exists mf' eraw, verifyInstalled json_manifest m id = Ok (mf', eraw)) as (mf' & eraw & Hv).
  { unfold Start in Hst. repeat (case_match; [done|]). destruct (verifyInstalled json_manifest m id) as [[mf' eraw]|e|]; [by eauto|done|done]. }
  pose proof Hv as Hv'. unfold verifyInstalled in Hv. rewrite Hp in Hv. change (default [] (Some (filesPin mb eb))) with (filesPin mb eb) in Hv.
  destruct (bytes_eqb (filesPin mb eb) []) eqn:Hne; [done|].
  rewrite join_plain in Hv by (apply List.Forall_cons; [done|apply List.Forall_cons; [apply manifestName_plain|apply List.Forall_nil]]).
  destruct (mn_fs m !! (mn_dir m ++ [id; manifestName])) as [mraw|] eqn:Hmraw; [|done]. cbn [ofOption mbind res_bind] in Hv.
  destruct (ParseManifest json_manifest mraw) as [mf''|e|] eqn:Hpm; [|done|done]. cbn [mbind res_bind] in Hv.
  destruct (ParseManifest_plain _ _ Hpm) as [_ Hent].
  rewrite join_plain in Hv by (apply List.Forall_cons; [done|apply List.Forall_cons; [done|apply List.Forall_nil]]).
  destruct (mn_fs m !! (mn_dir m ++ [id; mf_Entry mf''])) as [er|] eqn:Her; [|done]. cbn [ofOption mbind res_bind] in Hv.
  destruct (bytes_eqb (filesPin mraw er) (filesPin mb eb)) eqn:Hpe; cbn [negb] in Hv; [|done]. injection Hv as -> ->.
  exists files, mf, mb, eb, mraw, eraw, mf'. conjs; try done.
  - bool_prop. apply filesPin_inj; [done|]. apply content_short in Hmb, Heb. lia.
  - exact (Start_run _ _ _ _ _ _ _ Hpl Hent Hv' Hst).
Qed.

Lemma Start_has_pin ev m id m2 t : Start json_manifest uni ev m id = (m2, Ok t) -> sf_Files (mn_state m) !! id ≠ None.
Proof.
  intros Hst Hn. unfold Start in Hst. repeat (case_match; [done|]). unfold verifyInstalled in Hst. by rewrite Hn in Hst.
Qed.

(** C31: A started transport runs what was installed.  Take a manager over a
    directory without [state.json] through any sequence of operations, the
    installation of other packages under the same ID, failures half way through
    one, changes to the installed files and restarts included.  A successful
    [Start] of a transport then has found on disk the manifest and the entry of
    one of the packages handed to [Install] for that ID, or two different inputs
    with the same SHA-256: the last one that got as far as the pin, even if the
    state could not be saved and [Install] reported an error, or, after a restart,
    the last one that [state.json] has.  So after a successful installation with
    no installation or removal of that ID since, it is that package.  A
    WebAssembly module runs exactly the bytes that were checked; a native
    transport runs what lies at its path when it is spawned, which is checked only
    if the file is not touched in between. *)
Theorem start_runs_what_was_installed dir f ops id ev' m2 t : Forall ranges_ok ops ->
  let m0 := NewManager dir f None in
  let m := fold_left mstep ops m0 in
  Start json_manifest uni ev' m id = (m2, Ok t) ->
  exists pkg, (tracked id m0 (None, None) ops).1 = Some pkg /\ (exists ev en, OInstall ev pkg en ∈ ops) /\ runs id pkg ev' m t /\
    forall ops1 ev pkg' en ops2 mf, ops = ops1 ++ OInstall ev pkg' en :: ops2 ->
      (Install unzip json_manifest ev (fold_left mstep ops1 m0) pkg' en).2 = Ok mf -> mf_ID mf = id -> Forall (spares id) ops2 -> pkg' = pkg.
Proof.
  intros Hr m0 m Hst. destruct (tracked_pinned id ops m0 (None, None) Hr (conj eq_refl eq_refl)) as [[Hp _] _]. fold m in Hp.
  destruct (tracked id m0 (None, None) ops).1 as [pkg|] eqn:Ht; [|by destruct (Start_has_pin _ _ _ _ _ Hst)].
  exists pkg. conjs; [done| |by eapply pinned_runs|].
  - destruct (tracked_in id pkg ops m0 (None, None) (or_introl Ht)) as [H|[H|H]]; done.
  - intros ops1 ev pkg' en ops2 mf -> Hi Hid Hs. rewrite tracked_app in Ht. cbn [tracked] in Ht.
    destruct (tracked_spared id pkg' ops2 (mstep (fold_left mstep ops1 m0) (OInstall ev pkg' en)) _ Hs (track_installed id (fold_left mstep ops1 m0) (tracked id m0 (None, None) ops1) ev pkg' en mf Hi Hid)) as [[H|H] _]; rewrite H in Ht; [by injection Ht|done].
Qed.

(** Conversely, an enabled transport whose files match their pin starts. *)
Lemma Start_pinned ev m id mf mraw eraw r l : sf_Enabled (mn_state m) !! id = Some true ->
  sf_Files (mn_state m) !! id = Some (filesPin mraw eraw) ->
  mn_fs m !! join (mn_dir m) [id; manifestName] = Some mraw -> ParseManifest json_manifest mraw = Ok mf ->
  mn_fs m !! join (mn_dir m) [id; mf_Entry mf] = Some eraw ->
  spawn uni ev (ev_meanwhile ev (mn_fs m)) (join (mn_dir m) [id; mf_Entry mf]) eraw mf = Ok r -> ev_start ev = true ->
  replay ev 0 (default [] (sf_Attach (mn_state m) !! id)) [] = Ok l ->
  (Start json_manifest uni ev m id).2 = Ok (mkLive (mf_ID mf) r (ev_caps ev) l).
Proof.
  intros Hen Hf Hm Hp He Hs Hst Hr. unfold Start. rewrite Hen. change (default false (Some true)) with true. cbn [negb].
  assert (installed m id = true) as -> by (unfold installed; rewrite Hm; by apply bool_decide_eq_true_2; eexists). cbn [negb].
  assert (verifyInstalled json_manifest m id = Ok (mf, eraw)) as ->.
  { unfold verifyInstalled. rewrite Hf, Hm. change (default [] (Some (filesPin mraw eraw))) with (filesPin mraw eraw).
    assert (bytes_eqb (filesPin mraw eraw) [] = false) as ->.
    { apply bytes_eqb_neq. intros H. apply (f_equal length) in H. unfold filesPin in H. rewrite length_hexEncode, length_sha256 in H. done. }
    cbn [ofOption mbind res_bind]. rewrite Hp. cbn [mbind res_bind]. rewrite He. cbn [ofOption mbind res_bind]. by rewrite bytes_eqb_refl. }
  cbv zeta. change (mn_fs (set_fs ?f m)) with f. change (mn_dir (set_fs ?f m)) with (mn_dir m). change (mn_state (set_fs ?f m)) with (mn_state m).
  rewrite Hs. cbn [mbind res_bind]. rewrite Hst. cbn [negb check mbind res_bind]. by rewrite Hr.
Qed.

End Pinned.

(** ** A concrete package *)
Definition demoZip (b : bytes) : option (list zipEntry) :=
  Some [mkZip manifestName 2 (Some (str "{}")); mkZip (str "icon.png") 1 (Some [x00]); mkZip (str "t.wasm") 4 (Some b)].

Definition demoJSON (b : bytes) : option Manifest :=
  Some (mkManifest (str "demo") (str "Demo") (str "1.0") (str "1") (str "t.wasm") [str "message"] []).

Definition demoEnv : env := mkEnv true true (fun _ => true) true true true (fun _ => true) [str "message"] demoIO (fun f => f).

Definition demoManager : Manager := NewManager [str "home"; str "transports"] {[ [str "home"; str "notes"] := str "private" ]} None.

(** The same, except that the state cannot be saved. *)
Definition demoFull : env := mkEnv false true (fun _ => true) true true true (fun _ => true) [str "message"] demoIO (fun f => f).

(** The second version is installed over the first, but the state cannot be
    saved. *)
Definition demoOps : list mop := [OInstall demoEnv (str "one") true; OInstall demoFull (str "two") true].

Definition demoAfter (ops : list mop) : Manager := fold_left (mstep demoZip demoJSON (fun _ => true) id) ops demoManager.

Lemma remove_deletes_what_id_names_witness :
  mn_fs (Remove demoEnv demoManager (str "..")).1 !! [str "home"; str "notes"] = None.
Proof.
  destruct (Remove demoEnv demoManager (str "..")) as [m' r] eqn:H.
  assert (r = Ok tt) as -> by (change r with (m', r).2; rewrite <- H; vm_compute; reflexivity).
  destruct (remove_deletes_what_id_names demoEnv demoManager (str "..") m' H) as (_ & H2 & _).
  apply (H2 eq_refl [str "home"] (str "transports") eq_refl). exists [str "notes"]. reflexivity.
Defined.

(** The second installation fails; the module that then starts is the second
    one; after a restart none starts. *)
Lemma start_runs_what_was_installed_witness : exists m2 t,
  (Install demoZip demoJSON demoFull (demoAfter [OInstall demoEnv (str "one") true]) (str "two") true).2 = Err MgSave /\
  Start demoJSON id demoEnv (demoAfter demoOps) (str "demo") = (m2, Ok t) /\ lv_run t = str "two" /\
  runs demoZip demoJSON id (str "demo") (str "two") demoEnv (demoAfter demoOps) t /\
  (Start demoJSON id demoEnv (demoAfter (demoOps ++ [ORestart])) (str "demo")).2 = Err MgIntegrity.
Proof.
  destruct (Start demoJSON id demoEnv (demoAfter demoOps) (str "demo")) as [m2 r] eqn:Hs.
  assert (r = Ok (mkLive (str "demo") (str "two") [str "message"] [])) as ->
    by (change r with (m2, r).2; rewrite <- Hs; vm_compute; reflexivity).
  assert (Forall ranges_ok demoOps) as Hr by (repeat constructor; exact demoIO_range).
  unfold demoAfter, demoManager in Hs.
  destruct (start_runs_what_was_installed demoZip demoJSON (fun _ => true) id [str "home"; str "transports"]
    {[ [str "home"; str "notes"] := str "private" ]} demoOps (str "demo") demoEnv m2 _ Hr Hs) as (pkg & Ht & _ & Hrun & _).
  assert (pkg = str "two") as ->.
  { assert (Some pkg = Some (str "two")) as [= ->]; [|reflexivity]. rewrite <- Ht. vm_compute. reflexivity. }
  exists m2. eexists. split; [vm_compute; reflexivity|]. split; [reflexivity|]. split; [reflexivity|]. split; [exact Hrun|].
  vm_compute. reflexivity.
Defined.
