(* ===== verification/Shell.v ===== *)
(** * The interactive shell ([internal/shellcmd], [cmd/shell/unified.go])

    A line is split into words, an alias is expanded, the words are walked down
    the tree of commands, the rest is parsed against the command's parameters and
    handed to its handler.  A handler is a field of its command, as in the code:
    a function of the context that changes the session and the world [W] (files,
    transports, the terminal).  [uni] is [strings.ToLower] outside ASCII. *)
From S2P Require Import Prelude GoStd.
#[local] Open Scope Z_scope.

Module Shell.

(** ** lexer.go *)

(** [strings.Builder.WriteRune]. *)
Definition writeRune (r : Z) : bytes :=
  if ((0 <=? r) && (r <? 0x80))%bool then [byteZ r]
  else if ((0 <=? r) && (r <? 0x800))%bool then [byteZ (0xC0 + r / 64); byteZ (0x80 + r mod 64)]
  else if ((r <? 0) || (0x10FFFF <? r) || ((0xD800 <=? r) && (r <=? 0xDFFF)))%bool then [xef; xbf; xbd]
  else if r <? 0x10000 then [byteZ (0xE0 + r / 4096); byteZ (0x80 + r / 64 mod 64); byteZ (0x80 + r mod 64)]
  else [byteZ (0xF0 + r / 262144); byteZ (0x80 + r / 4096 mod 64); byteZ (0x80 + r / 64 mod 64); byteZ (0x80 + r mod 64)].

Definition fromRunes (rs : list Z) : bytes := rs ≫= writeRune.

Definition isQuote (r : Z) : bool := ((r =? 39) || (r =? 34))%bool.
Definition isBlank (r : Z) : bool := ((r =? 32) || (r =? 9) || (r =? 13) || (r =? 10))%bool.

Definition flush (out : list bytes) (b : bytes) (have : bool) : list bytes := if have then out ++ [b] else out.

(** The loop over the runes of the line: [quote] is 0 outside quotes. *)
Fixpoint splitLoop (line : list Z) (out : list bytes) (b : bytes) (quote : Z) (have : bool) : list bytes * bytes * Z * bool :=
  match line with
  | [] => (out, b, quote, have)
  | r :: line =>
      if negb (quote =? 0) then
        if r =? quote then splitLoop line out b 0 true else splitLoop line out (b ++ writeRune r) quote true
      else if isQuote r then splitLoop line out b r true
      else if isBlank r then splitLoop line (flush out b have) (if have then [] else b) quote false
      else splitLoop line out (b ++ writeRune r) quote true
  end.

Inductive sh_err :=
| ShQuote (r : Z)
| ShNeedsValue (name : bytes)
| ShBadBool (name value : bytes)
| ShDash (w : bytes)
| ShMissing (names : list bytes)
| ShParams (path : list bytes) (e : sh_err)
| ShTooFew (path : list bytes)
| ShTooMany (path : list bytes)
| ShUnknown (words sug : list bytes)
| ShIncomplete (words children path : list bytes)
| ShCommand (text : bytes)
| ShRun (path : list bytes) (e : sh_err)
| ShExit.

Definition SplitLine (line : bytes) : res sh_err (list bytes) :=
  let '(out, b, quote, have) := splitLoop (toRunes line) [] [] 0 false in
  if negb (quote =? 0) then Err (ShQuote quote) else Ok (flush out b have).

(** ** command.go, flags.go *)
Record Flag := mkFlag { fl_Name : bytes; fl_Default : bytes; fl_Required : bool; fl_IsBool : bool }.

Section Shell.
Context {W : Type} (uni : bytes -> bytes).

Definition byNameStep (m : gmap bytes Flag) (f : Flag) : gmap bytes Flag := <[fl_Name f := f]> m.

Definition defaultStep (m : gmap bytes bytes) (f : Flag) : gmap bytes bytes :=
  let m := if (negb (fl_IsBool f) && negb (bytes_eqb (fl_Default f) []))%bool then <[fl_Name f := fl_Default f]> m else m in
  if fl_IsBool f then <[fl_Name f := str "false"]> m else m.

Definition setParam (values : gmap bytes bytes) (value : bytes) (f : Flag) : res sh_err (gmap bytes bytes) :=
  if fl_IsBool f then
    let lower := toLower uni value in
    if bool_decide (lower ∈ [str "true"; str "false"; str "1"; str "0"; str "yes"; str "no"]) then Ok (<[fl_Name f := lower]> values)
    else Err (ShBadBool (fl_Name f) value)
  else Ok (<[fl_Name f := value]> values).

Fixpoint parseLoop (byName : gmap bytes Flag) (argv : list bytes) (positional : list bytes) (values : gmap bytes bytes)
  : res sh_err (list bytes * gmap bytes bytes) :=
  match argv with
  | [] => Ok (positional, values)
  | w :: argv =>
      match byName !! w with
      | Some f =>
          if fl_IsBool f then parseLoop byName argv positional (<[fl_Name f := str "true"]> values) else
          match argv with
          | [] => Err (ShNeedsValue (fl_Name f))
          | v :: argv => values ← setParam values v f; parseLoop byName argv positional values
          end
      | None =>
          if hasPrefix (str "-") w then Err (ShDash w)
          else parseLoop byName argv (positional ++ [w]) values
      end
  end.

Definition Parse (argv : list bytes) (spec : list Flag) : res sh_err (list bytes * gmap bytes bytes) :=
  '(positional, values) ← parseLoop (fold_left byNameStep spec ∅) argv [] (fold_left defaultStep spec ∅);
  let missing := fl_Name <$> List.filter (fun f => fl_Required f && bytes_eqb (default [] (values !! fl_Name f)) [])%bool spec in
  _ ← check (negb (bool_decide (missing = []))) (ShMissing missing);
  Ok (positional, values).

(** ** session.go *)
Record TransferRef := mkTransfer { tr_ID : bytes; tr_File : bytes; tr_Size : Z; tr_TicketB64 : bytes }.
Record PeerAddr := mkPeerAddr { pa_PeerID : bytes; pa_MailboxID : bytes; pa_ShardURL : bytes }.

Record Session := mkSession {
  se_Identity : bytes; se_Relay : bytes; se_TransportsDir : bytes; se_Aliases : gmap bytes bytes; se_History : list bytes;
  se_JSON : bool; se_ShowSecrets : bool; se_Transfers : list TransferRef; se_Interactive : bool; se_Peers : list bytes;
  se_PeerMailboxes : gmap bytes PeerAddr;
}.

Definition NewSession : Session :=
  mkSession [] [] [] (<[str "xsend" := str "xfer send"]> {[str "xget" := str "xfer recv"]}) [] false false [] false [] ∅.

Definition set_History (h : list bytes) (s : Session) : Session :=
  mkSession (se_Identity s) (se_Relay s) (se_TransportsDir s) (se_Aliases s) h (se_JSON s) (se_ShowSecrets s) (se_Transfers s)
    (se_Interactive s) (se_Peers s) (se_PeerMailboxes s).
Definition set_Transfers (t : list TransferRef) (s : Session) : Session :=
  mkSession (se_Identity s) (se_Relay s) (se_TransportsDir s) (se_Aliases s) (se_History s) (se_JSON s) (se_ShowSecrets s) t
    (se_Interactive s) (se_Peers s) (se_PeerMailboxes s).
Definition set_Peers (p : list bytes) (s : Session) : Session :=
  mkSession (se_Identity s) (se_Relay s) (se_TransportsDir s) (se_Aliases s) (se_History s) (se_JSON s) (se_ShowSecrets s)
    (se_Transfers s) (se_Interactive s) p (se_PeerMailboxes s).

(** [strings.Fields]; as many rounds as bytes. *)
Definition field (w : bytes) : list bytes := if bytes_eqb w [] then [] else [w].

Fixpoint fieldsLoop (fuel : nat) (s : bytes) (w : bytes) : list bytes :=
  match fuel, s with
  | S f, b :: t =>
      match stripOne spaces s with
      | Some s => field w ++ fieldsLoop f s []
      | None => fieldsLoop f t (w ++ [b])
      end
  | _, _ => field w
  end.

Definition Fields (s : bytes) : list bytes := fieldsLoop (length s) s [].

Definition ExpandAlias (s : Session) (words : list bytes) : list bytes :=
  match words with
  | [] => words
  | w :: rest =>
      match se_Aliases s !! toLower uni w with
      | Some exp => if bytes_eqb exp [] then words else Fields exp ++ rest
      | None => words
      end
  end.

Fixpoint upsertTransfer (l : list TransferRef) (ref : TransferRef) : list TransferRef :=
  match l with
  | [] => [ref]
  | t :: l => if bytes_eqb (tr_ID t) (tr_ID ref) then ref :: l else t :: upsertTransfer l ref
  end.

Definition RecordTransfer (ref : TransferRef) (s : Session) : Session := set_Transfers (upsertTransfer (se_Transfers s) ref) s.

Definition RememberPeer (id : bytes) (s : Session) : Session :=
  if bytes_eqb id [] then s else
  if existsb (fun p => bytes_eqb p id) (se_Peers s) then s else set_Peers (se_Peers s ++ [id]) s.

Definition shortID (s : bytes) : bytes :=
  if len s <=? 12 then s else take 6 s ++ str "..." ++ drop (length s - 4) s.

(** ** Commands *)
Record Context := mkContext { cx_Args : list bytes; cx_Flags : gmap bytes bytes }.

Definition Get (ctx : Context) (name : bytes) : bytes := default [] (cx_Flags ctx !! name).

Definition Bool (ctx : Context) (name : bytes) : bool :=
  match cx_Flags ctx !! name with
  | None => false
  | Some v => (bytes_eqb v (str "true") || bytes_eqb v (str "1") || bytes_eqb v (str "yes"))%bool
  end.

Definition Need (ctx : Context) (n : Z) (what : bytes) : res sh_err unit := check (len (cx_Args ctx) <=? n) (ShCommand what).

(** What a handler may change: the session and the world. *)
Abbreviation world := (Session * W)%type.

(** ** cmd/shell/commands.go: the [alias] command *)
Definition joinWords (words : list bytes) : bytes := joinWith (str " ") words.

Definition set_Aliases (m : gmap bytes bytes) (s : Session) : Session :=
  mkSession (se_Identity s) (se_Relay s) (se_TransportsDir s) m (se_History s) (se_JSON s) (se_ShowSecrets s) (se_Transfers s)
    (se_Interactive s) (se_Peers s) (se_PeerMailboxes s).

Definition aliasRun (ctx : Context) (w : world) : world * res sh_err unit :=
  match cx_Args ctx with
  | [] => (w, Ok tt)
  | [name] => (w, check (bool_decide (se_Aliases w.1 !! name = None)) (ShCommand name))
  | name :: words => ((set_Aliases (<[name := joinWords words]> (se_Aliases w.1)) w.1, w.2), Ok tt)
  end.

Record Command := mkCommand {
  cm_Name : bytes; cm_Aliases : list bytes; cm_MinArgs : Z; cm_MaxArgs : Z; cm_Flags : list Flag;
  cm_Run : Context -> world -> world * res sh_err unit;
}.

Definition Names (c : Command) : list bytes := cm_Name c :: cm_Aliases c.

(** ** registry.go: the tree.  Children are listed with distinct names; Go's
    [range] visits them in the order given by [order]. *)
#[warnings="-register-all"]
Inductive node := mkNode (nd_cmd : option Command) (nd_children : list (bytes * node)).

Definition nd_cmd (n : node) : option Command := match n with mkNode c _ => c end.
Definition nd_children (n : node) : list (bytes * node) := match n with mkNode _ ch => ch end.

Record Registry := mkRegistry { rg_roots : list (bytes * node); rg_order : list bytes }.

Definition NewRegistry : Registry := mkRegistry [] [].

(** [m[word]] and [m[word] = child]. *)
Fixpoint get (m : list (bytes * node)) (word : bytes) : option node :=
  match m with
  | [] => None
  | (name, child) :: m => if bytes_eqb name word then Some child else get m word
  end.

Fixpoint put (m : list (bytes * node)) (word : bytes) (child : node) : list (bytes * node) :=
  match m with
  | [] => [(word, child)]
  | (name, c) :: m => if bytes_eqb name word then (name, child) :: m else (name, c) :: put m word child
  end.

(** The walk of [Register]: [None] is the panic on a duplicate. *)
Fixpoint place (m : list (bytes * node)) (path : list bytes) (cmd : Command) : option (list (bytes * node)) :=
  match path with
  | [] => None
  | word :: path =>
      let word := toLower uni word in
      let child := default (mkNode None []) (get m word) in
      match path with
      | [] => match nd_cmd child with Some _ => None | None => Some (put m word (mkNode (Some cmd) (nd_children child))) end
      | _ :: _ => ch ← place (nd_children child) path cmd; Some (put m word (mkNode (nd_cmd child) ch))
      end
  end.

Definition Register (r : Registry) (path : list bytes) (cmd : Command) : res sh_err Registry :=
  match path with
  | [] => Panic
  | _ :: _ =>
      match place (rg_roots r) path cmd with
      | None => Panic
      | Some m => Ok (mkRegistry m (rg_order r ++ [joinWith (str " ") path]))
      end
  end.

(** Whether a child answers to [w]: by its name or an alias of its command. *)
Definition answers (w : bytes) (child : bytes * node) : bool :=
  (bytes_eqb child.1 w ||
   match nd_cmd child.2 with
   | None => false
   | Some c => existsb (fun a => bytes_eqb (toLower uni a) w) (cm_Aliases c)
   end)%bool.

Section Order.
Context (order : list (bytes * node) -> list (bytes * node)).

Fixpoint resolveLoop (words : list bytes) (m : list (bytes * node)) (cmd : option Command) (consumed : nat) (path : list bytes)
  : option Command * nat * list bytes :=
  match words with
  | [] => (cmd, consumed, path)
  | w :: words =>
      match List.find (answers (toLower uni w)) (order m) with
      | None => (cmd, consumed, path)
      | Some (name, next) =>
          resolveLoop words (nd_children next) (match nd_cmd next with Some c => Some c | None => cmd end) (S consumed) (path ++ [name])
      end
  end.

Definition Resolve (r : Registry) (words : list bytes) : option Command * nat * list bytes :=
  resolveLoop words (rg_roots r) None 0 [].

Fixpoint childrenAt (m : list (bytes * node)) (path : list bytes) : option (list (bytes * node)) :=
  match path with
  | [] => Some m
  | w :: path => child ← get m (toLower uni w); childrenAt (nd_children child) path
  end.

Definition Children (r : Registry) (path : list bytes) : list bytes :=
  match childrenAt (rg_roots r) path with None => [] | Some m => bytes_sort m.*1 end.

Definition byName (a b : bytes * list (list bytes * Command)) : Prop := bytes_le a.1 b.1.
#[local] Instance byName_dec : RelDecision byName := fun a b => bytes_le_dec a.1 b.1.

(** The commands below a node, children in the order of their names. *)
Fixpoint walk (prefix : list bytes) (name : bytes) (n : node) : list (list bytes * Command) :=
  let p := prefix ++ [name] in
  match n with
  | mkNode c ch =>
      match c with Some cmd => [(p, cmd)] | None => [] end ++
      mjoin (merge_sort byName ((fix go ch := match ch with
                                             | [] => []
                                             | (k, n) :: ch => (k, walk p k n) :: go ch
                                             end) ch)).*2
  end.

Definition AllCommands (r : Registry) : list (list bytes * Command) :=
  mjoin (merge_sort byName ((fun kn => (kn.1, walk [] kn.1 kn.2)) <$> rg_roots r)).*2.

(** ** suggest.go *)

(** One row of the table, from the row above ([up], with [diag] to its left). *)
Fixpoint fillRow (x : Z) (b : list Z) (diag : Z) (up : list Z) (left : Z) : list Z :=
  match b, up with
  | y :: b, u :: up =>
      let cost := if x =? y then 0 else 1 in
      let del := u + 1 in
      let ins := left + 1 in
      let sub := diag + cost in
      let c := del in
      let c := if ins <? c then ins else c in
      let c := if sub <? c then sub else c in
      c :: fillRow x b u up c
  | _, _ => []
  end.

Fixpoint fillRows (a b : list Z) (i : Z) (prev : list Z) : list Z :=
  match a with
  | [] => prev
  | x :: a => fillRows a b (i + 1) (i :: fillRow x b (default 0 (head prev)) (tail prev) i)
  end.

Definition levenshtein (a b : bytes) : Z :=
  let ar := toRunes a in
  let br := toRunes b in
  List.last (fillRows ar br 1 (Z.of_nat <$> seq 0 (S (length br)))) 0.

Definition seenStep (cands : list bytes) (c : bytes) : list bytes := if bool_decide (c ∈ cands) then cands else cands ++ [c].

Definition candidates (r : Registry) : list bytes :=
  fold_left seenStep (AllCommands r ≫= fun pc => joinWith (str " ") pc.1 :: List.last pc.1 [] :: cm_Aliases pc.2) [].

Definition ranked_le (a b : bytes * Z) : Prop := a.2 < b.2 \/ (a.2 = b.2 /\ bytes_le a.1 b.1).
#[local] Instance ranked_le_dec : RelDecision ranked_le.
Proof. intros a b. unfold ranked_le. apply _. Defined.

Definition Suggest (r : Registry) (word : bytes) : list bytes :=
  let word := toLower uni word in
  let ranked := List.filter (fun cd => (cd.2 <=? 2) || ((4 <? len word) && (cd.2 * 2 <=? len cd.1)))%bool
                  ((fun c => (c, levenshtein word c)) <$> candidates r) in
  take 3 (merge_sort ranked_le ranked).*1.

(** ** cmd/shell/unified.go *)

(** The error for words that name no command. *)
Definition unknown (r : Registry) (words : list bytes) (consumed : nat) (path : list bytes) : res sh_err unit :=
  let sug := match words !! consumed with Some w => Suggest r w | None => [] end in
  if negb (bool_decide (sug = [])) then
    Err (ShUnknown words ((fun s => if bool_decide (s ∈ Children r path) then joinWith (str " ") (path ++ [s]) else s) <$> sug))
  else if negb (bool_decide (path = [])) then Err (ShIncomplete words (Children r path) path)
  else match words with w :: _ => Err (ShUnknown [w] (Suggest r w)) | [] => Panic end.

(** What a line did besides its result. *)
Inductive action := Nothing | Helped (path : list bytes) | Ran (path : list bytes) (ctx : Context).

(** What follows the words that name the command. *)
Definition runCommand (cmd : Command) (path rest : list bytes) (w : world) : world * action * res sh_err unit :=
  if existsb (fun x => bytes_eqb x (str "help")) rest then (w, Helped path, Ok tt) else
  match Parse rest (cm_Flags cmd) with
  | Panic => (w, Nothing, Panic)
  | Err e => (w, Nothing, Err (ShParams path e))
  | Ok (positional, values) =>
      if match values !! str "help" with Some v => (bytes_eqb v (str "true") || bytes_eqb v (str "1"))%bool | None => false end
      then (w, Helped path, Ok tt) else
      if ((0 <? cm_MinArgs cmd) && (len positional <? cm_MinArgs cmd))%bool then (w, Nothing, Err (ShTooFew path)) else
      if ((0 <? cm_MaxArgs cmd) && (cm_MaxArgs cmd <? len positional))%bool then (w, Nothing, Err (ShTooMany path)) else
      let ctx := mkContext positional values in
      let '(w, r) := cm_Run cmd ctx w in
      (w, Ran path ctx, match r with Err ShExit => Err ShExit | Err e => Err (ShRun path e) | r => r end)
  end.

Definition execute (r : Registry) (line : bytes) (w : world) : world * action * res sh_err unit :=
  match SplitLine line with
  | Panic => (w, Nothing, Panic)
  | Err e => (w, Nothing, Err e)
  | Ok [] => (w, Nothing, Ok tt)
  | Ok words =>
      let words := ExpandAlias w.1 words in
      match Resolve r words with
      | (None, consumed, path) => (w, Nothing, unknown r words consumed path)
      | (Some cmd, consumed, path) => runCommand cmd path (drop consumed words) w
      end
  end.

(** [bufio.Scanner] with a buffer of 1 MiB: a line that does not fit ends the scan. *)
Definition dropCR (l : bytes) : bytes := trimSuffix [x0d] l.

Fixpoint scanLines (lines : list bytes) : list bytes :=
  match lines with
  | [] => []
  | [l] => if 1048576 <=? len l then [] else if bytes_eqb l [] then [] else [dropCR l]
  | l :: lines => if 1048576 <=? len l then [] else dropCR l :: scanLines lines
  end.

Fixpoint runLines (r : Registry) (lines : list bytes) (w : world) (code : Z) : world * Z :=
  match lines with
  | [] => (w, code)
  | l :: lines =>
      let line := trimSpace l in
      if (bytes_eqb line [] || hasPrefix (str "#") line)%bool then runLines r lines w code else
      match SplitLine line with
      | Ok words =>
          if bool_decide (words = []) then runLines r lines w code else
          if bytes_eqb (toLower uni (default [] (head words))) (str "switch") then runLines r lines w 1 else
          let w := (set_History (se_History w.1 ++ [line]) w.1, w.2) in
          match execute r line w with
          | (w, _, Ok _) => runLines r lines w code
          | (w, _, Err ShExit) => (w, code)
          | (w, _, _) => runLines r lines w 1
          end
      | _ => runLines r lines w 1
      end
  end.

Definition RunScript (r : Registry) (script : bytes) (w : world) : world * Z := runLines r (scanLines (splitOn x0a script)) w 0.

End Order.
End Shell.
End Shell.
