(* ===== verification/Utf8.v ===== *)
(** * UTF-8

    Decoding undoes encoding, of a whole text ([toRunes_fromRunes]) and of the
    beginning of one ([toRunes_word]). *)
From S2P Require Import Prelude GoStd Shell.
Import Shell.
#[local] Open Scope Z_scope.

Definition validRune (r : Z) : Prop := 0 <= r < 0xD800 \/ 0xE000 <= r <= 0x10FFFF.

Lemma Zb_byteZ_small z : 0 <= z < 256 -> Zb (byteZ z) = z.
Proof. intros H. rewrite Zb_byteZ. by apply Z.mod_small. Qed.

Lemma cont_ok lo hi z : 0 <= lo <= z -> z <= hi <= 255 -> contByte lo hi (byteZ z) = true.
Proof. intros H1 H2. unfold contByte. rewrite Zb_byteZ_small by lia. apply andb_true_iff. split; lia. Qed.

(** Linear arithmetic with quotients and remainders by constants. *)
Ltac div_lia := Z.div_mod_to_equations; lia.

Lemma writeRune_length r : (1 <= length (writeRune r))%nat.
Proof. unfold writeRune. repeat case_match; cbn; lia. Qed.

Lemma writeRune_cases r : validRune r ->
  (0 <= r < 0x80 /\ writeRune r = [byteZ r]) \/
  (0x80 <= r < 0x800 /\ writeRune r = [byteZ (0xC0 + r / 64); byteZ (0x80 + r mod 64)]) \/
  (0x800 <= r < 0x10000 /\ (r < 0xD800 \/ 0xE000 <= r) /\ writeRune r = [byteZ (0xE0 + r / 4096); byteZ (0x80 + r / 64 mod 64); byteZ (0x80 + r mod 64)]) \/
  (0x10000 <= r <= 0x10FFFF /\ writeRune r = [byteZ (0xF0 + r / 262144); byteZ (0x80 + r / 4096 mod 64); byteZ (0x80 + r / 64 mod 64); byteZ (0x80 + r mod 64)]).
Proof.
  unfold validRune, writeRune. intros H.
  destruct (((0 <=? r) && (r <? 0x80))%bool) eqn:H1; [left; split; [lia|done]|].
  destruct (((0 <=? r) && (r <? 0x800))%bool) eqn:H2; [right; left; split; [lia|done]|].
  destruct (((r <? 0) || (0x10FFFF <? r) || ((0xD800 <=? r) && (r <=? 0xDFFF)))%bool) eqn:H3; [lia|].
  destruct (r <? 0x10000) eqn:H4; right; right; [left|right]; repeat split; try lia.
Qed.

Lemma runes_2 f b0 b1 t : (Zb b0 <? 0x80) = false -> ((0xC2 <=? Zb b0) && (Zb b0 <=? 0xDF))%bool = true -> contByte 0x80 0xBF b1 = true ->
  runes (S f) (b0 :: b1 :: t) = ((Zb b0 - 0xC0) * 64 + (Zb b1 - 0x80)) :: runes f t.
Proof. intros H1 H2 H3. cbn [runes]. by rewrite H1, H2, H3. Qed.

Lemma runes_3 f b0 b1 b2 t : (Zb b0 <? 0x80) = false -> ((0xC2 <=? Zb b0) && (Zb b0 <=? 0xDF))%bool = false ->
  ((0xE0 <=? Zb b0) && (Zb b0 <=? 0xEF))%bool = true ->
  contByte (if Zb b0 =? 0xE0 then 0xA0 else 0x80) (if Zb b0 =? 0xED then 0x9F else 0xBF) b1 = true -> contByte 0x80 0xBF b2 = true ->
  runes (S f) (b0 :: b1 :: b2 :: t) = ((Zb b0 - 0xE0) * 4096 + (Zb b1 - 0x80) * 64 + (Zb b2 - 0x80)) :: runes f t.
Proof. intros H1 H2 H3 H4 H5. cbn [runes]. by rewrite H1, H2, H3, H4, H5. Qed.

Lemma runes_4 f b0 b1 b2 b3 t : (Zb b0 <? 0x80) = false -> ((0xC2 <=? Zb b0) && (Zb b0 <=? 0xDF))%bool = false ->
  ((0xE0 <=? Zb b0) && (Zb b0 <=? 0xEF))%bool = false -> ((0xF0 <=? Zb b0) && (Zb b0 <=? 0xF4))%bool = true ->
  contByte (if Zb b0 =? 0xF0 then 0x90 else 0x80) (if Zb b0 =? 0xF4 then 0x8F else 0xBF) b1 = true ->
  contByte 0x80 0xBF b2 = true -> contByte 0x80 0xBF b3 = true ->
  runes (S f) (b0 :: b1 :: b2 :: b3 :: t) =
    ((Zb b0 - 0xF0) * 262144 + (Zb b1 - 0x80) * 4096 + (Zb b2 - 0x80) * 64 + (Zb b3 - 0x80)) :: runes f t.
Proof. intros H1 H2 H3 H4 H5 H6 H7. cbn [runes]. by rewrite H1, H2, H3, H4, H5, H6, H7. Qed.

Lemma runes_write f r t : validRune r -> runes (S f) (writeRune r ++ t) = r :: runes f t.
Proof.
  intros H. pose proof (writeRune_cases r H) as [[Hr ->]|[[Hr ->]|[[Hr [Hs ->]]|[Hr ->]]]]; cbn [app].
  - cbn [runes]. rewrite Zb_byteZ_small by lia. by destruct (r <? 0x80) eqn:?; [|lia].
  - assert (2 <= r / 64 < 32 /\ 0 <= r mod 64 < 64 /\ r = r / 64 * 64 + r mod 64) as (?&?&?) by div_lia.
    rewrite runes_2; rewrite ?Zb_byteZ_small by lia; [f_equal; lia|lia|lia|apply cont_ok; lia].
  - assert (0 <= r / 4096 < 16 /\ 0 <= r / 64 mod 64 < 64 /\ 0 <= r mod 64 < 64 /\ r = r / 4096 * 4096 + r / 64 mod 64 * 64 + r mod 64) as (?&?&?&?) by div_lia.
    rewrite runes_3; rewrite ?Zb_byteZ_small by lia; [f_equal; lia|lia|lia|lia| |apply cont_ok; lia].
    destruct (0xE0 + r / 4096 =? 0xE0) eqn:?, (0xE0 + r / 4096 =? 0xED) eqn:?; apply cont_ok; lia.
  - assert (0 <= r / 262144 < 5 /\ 0 <= r / 4096 mod 64 < 64 /\ 0 <= r / 64 mod 64 < 64 /\ 0 <= r mod 64 < 64 /\
      r = r / 262144 * 262144 + r / 4096 mod 64 * 4096 + r / 64 mod 64 * 64 + r mod 64) as (?&?&?&?&?) by div_lia.
    rewrite runes_4; rewrite ?Zb_byteZ_small by lia; [f_equal; lia|lia|lia|lia|lia| |apply cont_ok; lia|apply cont_ok; lia].
    destruct (0xF0 + r / 262144 =? 0xF0) eqn:?, (0xF0 + r / 262144 =? 0xF4) eqn:?; apply cont_ok; lia.
Qed.

Lemma runes_fromRunes rs : forall f, (length (fromRunes rs) <= f)%nat -> Forall validRune rs -> runes f (fromRunes rs) = rs.
Proof.
  induction rs as [|r rs IH]; intros f Hf H; [by destruct f|]. apply List.Forall_cons_iff in H as [Hr H].
  change (fromRunes (r :: rs)) with (writeRune r ++ fromRunes rs) in *. rewrite length_app in Hf. pose proof (writeRune_length r).
  destruct f as [|f]; [lia|]. rewrite runes_write by done. f_equal. apply IH; [lia|done].
Qed.

(** Decoding undoes encoding. *)
Lemma toRunes_fromRunes rs : Forall validRune rs -> toRunes (fromRunes rs) = rs.
Proof. intros H. by apply runes_fromRunes. Qed.

(** ** In front of a text *)
Lemma runes_fuel n : forall f s, (length s <= n)%nat -> (length s <= f)%nat -> runes f s = runes (length s) s.
Proof.
  induction n as [|n IH]; intros f s Hn Hf.
  - destruct s; [by destruct f|]. cbn in Hn. lia.
  - destruct s as [|b0 t]; [by destruct f|]. destruct f as [|f]; [cbn in Hf; lia|]. cbn [length] in *.
    assert (forall t', (length t' <= length t)%nat -> runes f t' = runes (length t) t') as H
      by (intros t' Ht; rewrite (IH f t'), (IH (length t) t') by lia; done).
    cbn [runes]. repeat case_match; subst; rewrite ?H by (cbn; lia); done.
Qed.

Lemma toRunes_word rs s : Forall validRune rs -> toRunes (fromRunes rs ++ s) = rs ++ toRunes s.
Proof.
  induction 1 as [|r rs Hr _ IH]; [done|]. change (fromRunes (r :: rs)) with (writeRune r ++ fromRunes rs). cbn [app]. rewrite <- IH, <- app_assoc.
  unfold toRunes. pose proof (writeRune_length r). rewrite length_app. destruct (length (writeRune r)) as [|k] eqn:Hk; [lia|].
  cbn [Nat.add]. rewrite runes_write by done. f_equal. apply (runes_fuel (length (fromRunes rs ++ s))); lia.
Qed.
