(* ===== verification/ShellTheorems.v ===== *)
(** * The interactive shell: theorems

    The lexer gives back the words that were typed, the edit distance of the
    suggestions is the edit distance, registered commands resolve to themselves,
    and a typed command reaches its handler with the arguments that were typed,
    unless a word of them is taken as syntax. *)
From S2P Require Import Prelude GoStd Shell Utf8.
Import Shell.
#[local] Open Scope Z_scope.

(** ** UTF-8 *)
Lemma fromRunes_app a b : fromRunes (a ++ b) = fromRunes a ++ fromRunes b.
Proof. apply bind_app. Qed.

(** ** The lexer *)

(** How a word can be typed: bare, or between quotes it does not contain. *)
Inductive typed : list Z -> list Z -> Prop :=
| T_bare w : w ≠ [] -> Forall (fun r => isQuote r = false /\ isBlank r = false) w -> typed w w
| T_quoted q w : isQuote q = true -> q ∉ w -> typed w (q :: w ++ [q]).

Fixpoint lineOf (ts : list (list Z)) : list Z :=
  match ts with
  | [] => []
  | [t] => t
  | t :: ts => t ++ 32 :: lineOf ts
  end.

Lemma splitLoop_bare w : forall rest out b have, Forall (fun r => isQuote r = false /\ isBlank r = false) w -> w ≠ [] ->
  splitLoop (w ++ rest) out b 0 have = splitLoop rest out (b ++ fromRunes w) 0 true.
Proof.
  induction w as [|r w IH]; intros rest out b have H Hne; [done|]. apply List.Forall_cons_iff in H as [[Hq Hb] H].
  cbn [app splitLoop]. rewrite Hq, Hb. change (negb (0 =? 0)) with false. cbv iota.
  change (fromRunes (r :: w)) with (writeRune r ++ fromRunes w). rewrite app_assoc.
  destruct w as [|r' w]; [by rewrite app_nil_r|]. by apply IH.
Qed.

Lemma splitLoop_quoted q w : forall rest out b have, isQuote q = true -> q ∉ w ->
  splitLoop (w ++ q :: rest) out b q have = splitLoop rest out (b ++ fromRunes w) 0 true.
Proof.
  intros rest out b have Hq. assert (negb (q =? 0) = true) as Hz by (unfold isQuote in Hq; lia). revert b have.
  induction w as [|r w IH]; intros b have Hin; cbn [app splitLoop]; rewrite Hz.
  - rewrite Z.eqb_refl. by rewrite app_nil_r.
  - apply not_elem_of_cons in Hin as [Hne Hin]. destruct (r =? q) eqn:Hr; [lia|]. rewrite IH by done.
    change (fromRunes (r :: w)) with (writeRune r ++ fromRunes w). by rewrite app_assoc.
Qed.

Lemma splitLoop_word w t rest out : typed w t -> splitLoop (t ++ rest) out [] 0 false = splitLoop rest out (fromRunes w) 0 true.
Proof.
  intros [w' Hne H|q w' Hq Hin].
  - by rewrite splitLoop_bare.
  - cbn [app splitLoop]. change (negb (0 =? 0)) with false. cbv iota. rewrite Hq, <- app_assoc. cbn [app]. by rewrite splitLoop_quoted.
Qed.

Lemma splitLoop_line ws ts : Forall2 typed ws ts -> forall out, ws ≠ [] ->
  exists l b, splitLoop (lineOf ts) out [] 0 false = (l, b, 0, true) /\ l ++ [b] = out ++ (fromRunes <$> ws).
Proof.
  induction 1 as [|w t ws ts Hw Hws IH]; intros out Hne; [done|].
  destruct Hws as [|w' t' ws ts Hw' Hws].
  - exists out, (fromRunes w). split; [|done]. rewrite <- (app_nil_r (lineOf [t])). cbn [lineOf]. by rewrite (splitLoop_word w).
  - change (lineOf (t :: t' :: ts)) with (t ++ 32 :: lineOf (t' :: ts)). rewrite (splitLoop_word w) by done.
    cbn [splitLoop]. destruct (IH (out ++ [fromRunes w])) as (l & b & Hl & He); [done|].
    exists l, b. split; [exact Hl|]. rewrite He. cbn [fmap list_fmap]. by rewrite <- app_assoc.
Qed.

(** The lexer gives back the words that were typed. *)
Lemma split_typed ws ts : Forall2 typed ws ts -> Forall (Forall validRune) ws -> SplitLine (fromRunes (lineOf ts)) = Ok (fromRunes <$> ws).
Proof.
  intros H Hv. destruct (decide (ws = [])) as [->|Hne]; [inversion H; by subst|].
  assert (Forall validRune (lineOf ts)) as Hl.
  { clear Hne. induction H as [|w t ws ts Hw Hws IH]; [by apply List.Forall_nil|]. apply List.Forall_cons_iff in Hv as [Hv1 Hv].
    assert (Forall validRune t) as Ht.
    { destruct Hw as [w Hn Hw|q w Hq Hn]; [done|]. assert (validRune q) by (unfold isQuote in Hq; left; lia).
      apply List.Forall_cons; [done|]. apply List.Forall_app. split; [done|]. by apply List.Forall_cons. }
    destruct ts as [|t' ts]; [done|]. change (lineOf (t :: t' :: ts)) with (t ++ 32 :: lineOf (t' :: ts)).
    apply List.Forall_app. split; [done|]. apply List.Forall_cons; [left; lia|by apply IH]. }
  unfold SplitLine. rewrite toRunes_fromRunes by done. destruct (splitLoop_line ws ts H [] Hne) as (l & b & -> & He). cbn.
  by rewrite He.
Qed.

(** ** Edit distance *)

(** [edits a b k]: the word [b] is made from [a] by [k] deletions, insertions and
    replacements of a rune. *)
Inductive edits : list Z -> list Z -> Z -> Prop :=
| E_nil : edits [] [] 0
| E_keep x a b k : edits a b k -> edits (x :: a) (x :: b) k
| E_replace x y a b k : edits a b k -> edits (x :: a) (y :: b) (k + 1)
| E_delete x a b k : edits a b k -> edits (x :: a) b (k + 1)
| E_insert y a b k : edits a b k -> edits a (y :: b) (k + 1).

Lemma edits_app a b k : edits a b k -> forall a' b' k', edits a' b' k' -> edits (a ++ a') (b ++ b') (k + k').
Proof.
  induction 1; intros a' b' k' H'; cbn [app].
  - by rewrite Z.add_0_l.
  - apply E_keep. by apply IHedits.
  - replace (k + 1 + k') with (k + k' + 1) by lia. apply E_replace. by apply IHedits.
  - replace (k + 1 + k') with (k + k' + 1) by lia. apply E_delete. by apply IHedits.
  - replace (k + 1 + k') with (k + k' + 1) by lia. apply E_insert. by apply IHedits.
Qed.

Lemma edits_rev a b k : edits a b k -> edits (rev a) (rev b) k.
Proof.
  induction 1; cbn [rev].
  - constructor.
  - rewrite <- (Z.add_0_r k). apply edits_app; [done|]. apply E_keep, E_nil.
  - apply edits_app; [done|]. apply (E_replace _ _ _ _ 0), E_nil.
  - rewrite <- (app_nil_r (rev b)). apply edits_app; [done|]. apply (E_delete _ _ _ 0), E_nil.
  - rewrite <- (app_nil_r (rev a)). apply edits_app; [done|]. apply (E_insert _ _ _ 0), E_nil.
Qed.

Lemma edits_nonneg a b k : edits a b k -> 0 <= k.
Proof. induction 1; lia. Qed.

(** The textbook recursion. *)
Fixpoint dist (a : list Z) : list Z -> Z :=
  match a with
  | [] => fun b => len b
  | x :: a' => fix go (b : list Z) : Z :=
      match b with
      | [] => len a
      | y :: b' => Z.min (Z.min (dist a' b + 1) (go b' + 1)) (dist a' b' + if x =? y then 0 else 1)
      end
  end.

Lemma dist_nil_r a : dist a [] = len a.
Proof. by destruct a. Qed.

Lemma dist_cons x a y b :
  dist (x :: a) (y :: b) = Z.min (Z.min (dist a (y :: b) + 1) (dist (x :: a) b + 1)) (dist a b + if x =? y then 0 else 1).
Proof. done. Qed.

(** Some script has the length the recursion computes. *)
Lemma dist_edits a : forall b, edits a b (dist a b).
Proof.
  assert (forall b, edits [] b (len b)) as Hins.
  { induction b as [|y b IH]; [constructor|]. replace (len (y :: b)) with (len b + 1) by (unfold len; cbn; lia). by apply E_insert. }
  induction a as [|x a IHa]; intros b; [apply Hins|]. induction b as [|y b IHb].
  - rewrite dist_nil_r. replace (len (x :: a)) with (len a + 1) by (unfold len; cbn; lia).
    apply E_delete. rewrite <- dist_nil_r. apply IHa.
  - rewrite dist_cons.
    destruct (Z.min_spec (Z.min (dist a (y :: b) + 1) (dist (x :: a) b + 1)) (dist a b + if x =? y then 0 else 1)) as [[_ ->]|[_ ->]].
    + destruct (Z.min_spec (dist a (y :: b) + 1) (dist (x :: a) b + 1)) as [[_ ->]|[_ ->]]; [by apply E_delete|by apply E_insert].
    + destruct (x =? y) eqn:Hxy; [|by apply E_replace]. assert (x = y) as -> by lia. rewrite Z.add_0_r. by apply E_keep.
Qed.

Lemma dist_step_l x a b : dist (x :: a) b <= dist a b + 1.
Proof.
  destruct b as [|y b]; [rewrite !dist_nil_r; unfold len; cbn [length]; lia|]. rewrite dist_cons. lia.
Qed.

Lemma dist_step_r a y b : dist a (y :: b) <= dist a b + 1.
Proof.
  destruct a as [|x a]; [cbn [dist]; unfold len; cbn [length]; lia|]. rewrite dist_cons. lia.
Qed.

(** No script is shorter. *)
Lemma edits_dist a b k : edits a b k -> dist a b <= k.
Proof.
  induction 1.
  - done.
  - rewrite dist_cons, Z.eqb_refl. lia.
  - rewrite dist_cons. destruct (x =? y); lia.
  - pose proof (dist_step_l x a b). lia.
  - pose proof (dist_step_r a y b). lia.
Qed.

(** The row of the table for the runes of [a] read so far ([ra], reversed). *)
Fixpoint row (ra rb b : list Z) : list Z :=
  dist ra rb :: match b with [] => [] | y :: b => row ra (y :: rb) b end.

Lemma row_tail ra rb b : row ra rb b = dist ra rb :: tail (row ra rb b).
Proof. by destruct b. Qed.

Lemma fillRow_row x ra b : forall rb,
  fillRow x b (dist ra rb) (tail (row ra rb b)) (dist (x :: ra) rb) = tail (row (x :: ra) rb b).
Proof.
  induction b as [|y b IH]; intros rb; [done|].
  cbn [row tail]. rewrite (row_tail ra (y :: rb) b), (row_tail (x :: ra) (y :: rb) b). cbn [fillRow].
  set (c := if _ <? (if _ <? _ then _ else _) then _ else _).
  assert (c = dist (x :: ra) (y :: rb)) as ->.
  { unfold c. rewrite dist_cons. destruct (x =? y), (dist (x :: ra) rb + 1 <? dist ra (y :: rb) + 1) eqn:?; case_match; lia. }
  f_equal. apply IH.
Qed.

Lemma fillRows_row a b : forall ra, fillRows a b (len ra + 1) (row ra [] b) = row (rev a ++ ra) [] b.
Proof.
  induction a as [|x a IH]; intros ra; [done|]. cbn [fillRows rev].
  assert (len ra + 1 = len (x :: ra)) as -> by (unfold len; cbn [length]; lia).
  assert (default 0 (head (row ra [] b)) = dist ra []) as -> by (by destruct b).
  pose proof (fillRow_row x ra b []) as Hf. rewrite (dist_nil_r (x :: ra)) in Hf. rewrite Hf.
  rewrite <- (dist_nil_r (x :: ra)) at 2. rewrite <- row_tail, IH, <- app_assoc. done.
Qed.

Lemma row_first b : forall rb, row [] rb b = Z.of_nat <$> seq (length rb) (S (length b)).
Proof.
  induction b as [|y b IH]; intros rb; [done|]. cbn [row]. rewrite IH. done.
Qed.

Lemma row_last ra b : forall rb, List.last (row ra rb b) 0 = dist ra (rev b ++ rb).
Proof.
  induction b as [|y b IH]; intros rb; [done|]. cbn [row rev]. rewrite <- app_assoc. cbn [app]. rewrite <- IH.
  destruct b; done.
Qed.

(** The distance behind "did you mean" is the edit distance.  The table that
    [levenshtein] fills row by row yields the length of a shortest script of
    deletions, insertions and replacements of runes that turns one word into the
    other: some script has that length and none is shorter. *)
Theorem levenshtein_edit_distance a b :
  edits (toRunes a) (toRunes b) (levenshtein a b) /\ forall k, edits (toRunes a) (toRunes b) k -> levenshtein a b <= k.
Proof.
  unfold levenshtein. set (x := toRunes a). set (y := toRunes b).
  change (seq 0 (S (length y))) with (seq (length (@nil Z)) (S (length y))). rewrite <- row_first.
  change 1 with (len (@nil Z) + 1). rewrite fillRows_row, row_last, !app_nil_r. split.
  - rewrite <- (rev_involutive x), <- (rev_involutive y) at 1. apply edits_rev, dist_edits.
  - intros k Hk. by apply edits_dist, edits_rev.
Qed.

(** ** The tree of commands *)
Section Tree.
Context {W : Type} (uni : bytes -> bytes).
#[local] Notation lower := (toLower uni).
#[local] Notation node := (@node W).
#[local] Notation Command := (@Command W).
#[local] Notation Registry := (@Registry W).

Fixpoint nodeAt (n : node) (path : list bytes) : option node :=
  match path with
  | [] => Some n
  | w :: path => c ← get (nd_children n) w; nodeAt c path
  end.

Definition root (r : Registry) : node := mkNode None (rg_roots r).

Definition cmdAt (n : node) (path : list bytes) : option Command := c ← nodeAt n path; nd_cmd c.

Lemma get_put m w (c : node) w' : get (put m w c) w' = if bytes_eqb w w' then Some c else get m w'.
Proof.
  induction m as [|[k n] m IH]; cbn [put get]; [done|].
  destruct (bytes_eqb k w) eqn:Hk; cbn [get].
  - apply bytes_eqb_eq in Hk as ->. by destruct (bytes_eqb w w').
  - rewrite IH. destruct (bytes_eqb k w') eqn:Hkw; [|done]. apply bytes_eqb_eq in Hkw as ->.
    destruct (bytes_eqb w w') eqn:Hw; [|done]. apply bytes_eqb_eq in Hw as ->. by rewrite bytes_eqb_refl in Hk.
Qed.

Lemma get_elem m w (c : node) : get m w = Some c -> (w, c) ∈ m.
Proof.
  induction m as [|[k n] m IH]; cbn [get]; [done|]. destruct (bytes_eqb k w) eqn:Hk.
  - intros [= ->]. apply bytes_eqb_eq in Hk as ->. apply elem_of_cons. by left.
  - intros H. apply elem_of_cons. right. by apply IH.
Qed.

(** A placed command is found at its path, and nowhere else anything changes. *)
Lemma place_cmdAt path cmd : forall (c : option Command) m m', path ≠ [] -> place uni m path cmd = Some m' ->
  cmdAt (mkNode c m) (lower <$> path) = None /\ cmdAt (mkNode c m') (lower <$> path) = Some cmd /\
  forall c' p, p ≠ lower <$> path -> cmdAt (mkNode c' m') p = cmdAt (mkNode c' m) p.
Proof.
  induction path as [|word path IH]; intros c m m' Hne H; [done|]. cbn [place] in H.
  set (child := default (mkNode None []) (get m (lower word))) in *.
  assert (forall c' p, cmdAt (mkNode c' m) (lower word :: p) = match p with [] => nd_cmd child | _ => cmdAt child p end) as Hold.
  { intros c' p. unfold cmdAt, child. cbn [nodeAt nd_children]. destruct (get m (lower word)) as [n|]; cbn.
    - by destruct p.
    - destruct p; done. }
  assert (forall new c' p, cmdAt (mkNode c' (put m (lower word) new)) (lower word :: p) = cmdAt new p) as Hnew.
  { intros new c' p. unfold cmdAt. cbn [nodeAt nd_children]. by rewrite get_put, bytes_eqb_refl. }
  assert (forall new c' w p, w ≠ lower word -> cmdAt (mkNode c' (put m (lower word) new)) (w :: p) = cmdAt (mkNode c' m) (w :: p)) as Hoth.
  { intros new c' w p Hw. unfold cmdAt. cbn [nodeAt nd_children]. rewrite get_put. rewrite (proj2 (bytes_eqb_neq _ _)) by congruence. done. }
  destruct path as [|word' path].
  - destruct (nd_cmd child) eqn:Hc; [done|]. injection H as <-. cbn [fmap list_fmap]. split; [by rewrite Hold|]. split; [by rewrite Hnew|].
    intros c' [|w p] Hp; [done|]. destruct (decide (w = lower word)) as [->|Hw]; [|by apply Hoth].
    destruct p as [|w' p]; [done|]. rewrite Hnew, Hold. unfold cmdAt. by destruct child.
  - destruct (place uni (nd_children child) (word' :: path) cmd) as [ch|] eqn:Hpl; [|done]. cbn in H. injection H as <-.
    destruct (IH (nd_cmd child) _ _ ltac:(done) Hpl) as (Hnone & Hin & Hout).
    assert (mkNode (nd_cmd child) (nd_children child) = child) as Heta by (by destruct child). rewrite Heta in Hnone.
    split; [|split].
    + cbn [fmap list_fmap]. rewrite Hold. exact Hnone.
    + cbn [fmap list_fmap]. rewrite Hnew. exact Hin.
    + intros c' [|w p] Hp; [done|]. destruct (decide (w = lower word)) as [->|Hw]; [|by apply Hoth].
      rewrite Hnew, Hold. destruct p as [|w' p]; [done|]. rewrite Hout by (intros Heq; apply Hp; cbn [fmap list_fmap]; by rewrite Heq).
      by rewrite Heta.
Qed.

(** The commands are registered one after the other ([buildRegistry]). *)
Fixpoint registerAll (r : Registry) (regs : list (list bytes * Command)) : res sh_err Registry :=
  match regs with
  | [] => Ok r
  | (path, cmd) :: regs => r ← Register uni r path cmd; registerAll r regs
  end.

Lemma Register_cmdAt r path cmd r' : Register uni r path cmd = Ok r' ->
  cmdAt (root r) (lower <$> path) = None /\ cmdAt (root r') (lower <$> path) = Some cmd /\
  forall p, p ≠ lower <$> path -> cmdAt (root r') p = cmdAt (root r) p.
Proof.
  unfold Register. destruct path as [|word path]; [done|]. destruct (place _ _ _ _) as [m|] eqn:H; [|done]. intros [= <-].
  destruct (place_cmdAt (word :: path) cmd None _ _ ltac:(done) H) as (H1 & H2 & H3). conjs; [exact H1|exact H2|apply H3].
Qed.

(** Every registered command is found at its path. *)
Lemma registerAll_cmdAt regs : forall r r', registerAll r regs = Ok r' ->
  (forall p c, cmdAt (root r) p = Some c -> cmdAt (root r') p = Some c) /\
  (forall path cmd, (path, cmd) ∈ regs -> cmdAt (root r') (lower <$> path) = Some cmd).
Proof.
  induction regs as [|[path cmd] regs IH]; intros r r' H; cbn [registerAll] in H.
  - injection H as <-. split; [done|]. intros p c Hp. by apply not_elem_of_nil in Hp.
  - destruct (Register uni r path cmd) as [r1|e|] eqn:Hr; [|done|done]. cbn in H.
    destruct (Register_cmdAt _ _ _ _ Hr) as (Hnone & Hin & Hout). destruct (IH _ _ H) as [Hkeep Hall]. split.
    + intros p c Hp. apply Hkeep. rewrite Hout; [done|]. intros ->. congruence.
    + intros p c Hp. apply elem_of_cons in Hp as [[= -> ->]|Hp]; [by apply Hkeep|by apply Hall].
Qed.

(** *** Resolution *)

(** The words a child answers to. *)
Definition heads (kn : bytes * node) : list bytes :=
  kn.1 :: match nd_cmd kn.2 with None => [] | Some c => lower <$> cm_Aliases c end.

(** No two children of a node share a word. *)
Fixpoint clearNode (n : node) : bool :=
  match n with
  | mkNode _ ch => (bool_decide (NoDup (ch ≫= heads)) && forallb (fun kn => clearNode kn.2) ch)%bool
  end.

Definition clear (r : Registry) : bool := clearNode (root r).

Lemma answers_heads w kn : answers uni w kn = true <-> w ∈ heads kn.
Proof.
  unfold answers, heads. rewrite orb_true_iff, bytes_eqb_eq, elem_of_cons. split.
  - intros [->|H]; [by left|]. right. destruct (nd_cmd kn.2) as [c|]; [|done]. apply existsb_exists in H as (a & Ha & Hw).
    apply bytes_eqb_eq in Hw as <-. apply list_elem_of_fmap. exists a. split; [done|]. by apply list_elem_of_In.
  - intros [->|H]; [by left|]. right. destruct (nd_cmd kn.2) as [c|]; [|by apply not_elem_of_nil in H].
    apply list_elem_of_fmap in H as (a & -> & Ha). apply existsb_exists. exists a. split; [by apply list_elem_of_In|apply bytes_eqb_refl].
Qed.

Lemma bind_NoDup_inj {A B} (f : A -> list B) l x y w : NoDup (l ≫= f) -> x ∈ l -> y ∈ l -> w ∈ f x -> w ∈ f y -> x = y.
Proof.
  induction l as [|a l IH]; [by intros _ H%not_elem_of_nil|]. cbn. intros Hnd Hx Hy Hwx Hwy.
  apply list.NoDup_app in Hnd as (_ & Hdisj & Hnd). apply elem_of_cons in Hx, Hy.
  destruct Hx as [->|Hx], Hy as [->|Hy]; [done| | |by apply IH].
  - destruct (Hdisj w Hwx). apply list_elem_of_bind. by exists y.
  - destruct (Hdisj w Hwy). apply list_elem_of_bind. by exists x.
Qed.

Lemma clearNode_spec c ch : clearNode (mkNode c ch) = true <-> NoDup (ch ≫= heads) /\ forall kn, kn ∈ ch -> clearNode kn.2 = true.
Proof.
  cbn [clearNode]. rewrite andb_true_iff, bool_decide_eq_true, forallb_forall. split; intros [H1 H2]; (split; [done|]); intros kn Hkn;
    apply H2; by apply list_elem_of_In.
Qed.

Section Resolved.
Context (order : list (bytes * node) -> list (bytes * node)) (order_ok : forall m, order m ≡ₚ m).

(** Among children that share no word, the order in which they are visited does
    not matter. *)
Lemma find_child n w c : clearNode n = true -> get (nd_children n) w = Some c ->
  List.find (answers uni w) (order (nd_children n)) = Some (w, c) /\ clearNode c = true.
Proof.
  destruct n as [cm ch]. intros [Hnd Hcl]%clearNode_spec Hget. apply get_elem in Hget. cbn [nd_children] in *. split; [|by apply (Hcl (w, c))].
  assert (answers uni w (w, c) = true) as Ha by (apply answers_heads; apply elem_of_cons; by left).
  destruct (List.find _ _) as [[k n]|] eqn:Hf.
  - apply find_some in Hf as [Hin Hk]. apply list_elem_of_In in Hin. rewrite order_ok in Hin. f_equal.
    apply (bind_NoDup_inj heads ch _ _ w Hnd Hin Hget); by apply answers_heads.
  - assert ((w, c) ∈ order ch) as Hin by (by rewrite order_ok). apply list_elem_of_In in Hin. by rewrite (find_none _ _ Hf _ Hin) in Ha.
Qed.

(** A child that none of the words can reach. *)
Definition subcommand (n : node) (w : bytes) : bool := existsb (answers uni (lower w)) (nd_children n).

Lemma find_none_child n w : subcommand n w = false -> List.find (answers uni (lower w)) (order (nd_children n)) = None.
Proof.
  intros H. destruct (List.find _ _) as [kn|] eqn:Hf; [|done]. apply find_some in Hf as [Hin Ha].
  apply list_elem_of_In in Hin. rewrite order_ok in Hin. apply list_elem_of_In in Hin.
  assert (subcommand n w = true) by (apply existsb_exists; by exists kn). congruence.
Qed.

Lemma resolveLoop_path words : forall rest n n' cm cmd k pre, clearNode n = true -> nodeAt n (lower <$> words) = Some n' ->
  nd_cmd n' = Some cm -> words ≠ [] ->
  match rest with a :: _ => subcommand n' a = false | [] => True end ->
  resolveLoop uni order (words ++ rest) (nd_children n) cmd k pre = (Some cm, (k + length words)%nat, pre ++ (lower <$> words)).
Proof.
  induction words as [|w words IH]; intros rest n n' cm cmd k pre Hcl Hn Hcm Hne Hrest; [done|].
  cbn [app resolveLoop fmap list_fmap] in *. cbn [nodeAt] in Hn. destruct (get (nd_children n) (lower w)) as [c|] eqn:Hget; [|done]. cbn in Hn.
  destruct (find_child n (lower w) c Hcl Hget) as [-> Hc]. destruct words as [|w' words].
  - injection Hn as ->. rewrite Hcm. cbn [app length fmap list_fmap].
    replace (k + 1)%nat with (S k) by lia. destruct rest as [|a rest]; [done|]. cbn [resolveLoop]. by rewrite find_none_child.
  - rewrite (IH rest c n' cm _ _ _ Hc Hn Hcm ltac:(done) Hrest). cbn [length]. rewrite <- app_assoc. f_equal. f_equal. lia.
Qed.

Lemma resolve_path r words rest n' cm : clear r = true -> nodeAt (root r) (lower <$> words) = Some n' -> nd_cmd n' = Some cm -> words ≠ [] ->
  match rest with a :: _ => subcommand n' a = false | [] => True end ->
  Resolve uni order r (words ++ rest) = (Some cm, length words, lower <$> words).
Proof. intros Hcl Hn Hcm Hne Hrest. unfold Resolve. by rewrite (resolveLoop_path words rest (root r) n' cm). Qed.

(** *** Parameters *)
Lemma byName_lookup spec : forall (m : gmap bytes Flag) w, w ∉ (fl_Name <$> spec) -> fold_left byNameStep spec m !! w = m !! w.
Proof.
  induction spec as [|f spec IH]; intros m w H; [done|]. cbn [fmap list_fmap fold_left] in *. apply not_elem_of_cons in H as [Hne H].
  rewrite IH by done. unfold byNameStep. by rewrite lookup_insert_ne by congruence.
Qed.

Lemma default_lookup spec : forall (m : gmap bytes bytes) w, w ∉ (fl_Name <$> spec) -> fold_left defaultStep spec m !! w = m !! w.
Proof.
  induction spec as [|f spec IH]; intros m w H; [done|]. cbn [fmap list_fmap fold_left] in *. apply not_elem_of_cons in H as [Hne H].
  rewrite IH by done. unfold defaultStep. repeat case_match; by rewrite ?lookup_insert_ne by congruence.
Qed.

(** A word that is only a word. *)
Definition plainWord (spec : list Flag) (a : bytes) : Prop := (a ∉ fl_Name <$> spec) /\ hasPrefix (str "-") a = false.

Lemma parseLoop_plain spec args : forall rest pos values, Forall (plainWord spec) args ->
  parseLoop uni (fold_left byNameStep spec ∅) (args ++ rest) pos values = parseLoop uni (fold_left byNameStep spec ∅) rest (pos ++ args) values.
Proof.
  induction args as [|a args IH]; intros rest pos values H; [by rewrite app_nil_r|]. apply List.Forall_cons_iff in H as [[Ha Hd] H].
  cbn [app parseLoop]. rewrite byName_lookup, lookup_empty, Hd by done. rewrite IH by done. by rewrite <- app_assoc.
Qed.

Lemma byName_some spec w : w ∈ fl_Name <$> spec -> forall m : gmap bytes Flag, is_Some (fold_left byNameStep spec m !! w).
Proof.
  induction spec as [|f spec IH]; intros H m; [by apply not_elem_of_nil in H|]. cbn [fmap list_fmap fold_left] in *.
  destruct (decide (w ∈ fl_Name <$> spec)) as [Hin|Hin]; [by apply IH|]. apply elem_of_cons in H as [->|H]; [|done].
  rewrite byName_lookup by done. unfold byNameStep. rewrite lookup_insert_eq. by eexists.
Qed.

(** What is left as an argument is no parameter name and no dash word. *)
Lemma parseLoop_positional spec n : forall argv pos values pos' values', (length argv <= n)%nat ->
  parseLoop uni (fold_left byNameStep spec ∅) argv pos values = Ok (pos', values') -> Forall (plainWord spec) pos ->
  Forall (plainWord spec) pos' /\ (forall a, a ∈ pos' -> a ∈ pos \/ a ∈ argv).
Proof.
  induction n as [|n IH]; intros argv pos values pos' values' Hlen H Hpos.
  - destruct argv; [|cbn in Hlen; lia]. injection H as <- <-. split; [done|by left].
  - destruct argv as [|w argv]; [injection H as <- <-; split; [done|by left]|]. cbn [parseLoop length] in *.
    destruct (fold_left byNameStep spec ∅ !! w) as [f|] eqn:Hw.
    + destruct (fl_IsBool f).
      * apply IH in H as [H1 H2]; [|lia|done]. split; [done|]. intros a Ha. destruct (H2 a Ha); [by left|]. right. apply elem_of_cons. by right.
      * destruct argv as [|v argv]; [done|]. destruct (setParam _ _ _ _) as [vs|e|]; [|done|done]. cbn [length] in Hlen.
        apply IH in H as [H1 H2]; [|lia|done]. split; [done|]. intros a Ha. destruct (H2 a Ha); [by left|].
        right. rewrite !elem_of_cons. by right; right.
    + destruct (hasPrefix (str "-") w) eqn:Hd; [done|]. apply IH in H as [H1 H2]; [|lia|].
      * split; [done|]. intros a Ha. destruct (H2 a Ha) as [Ha'|Ha']; [|right; apply elem_of_cons; by right].
        apply elem_of_app in Ha' as [Ha'|Ha']; [by left|]. apply list_elem_of_singleton in Ha' as ->. right. apply elem_of_cons. by left.
      * apply List.Forall_app. split; [done|]. apply List.Forall_cons; [|done]. split; [|done]. intros Hin.
        destruct (byName_some spec w Hin ∅). congruence.
Qed.

Lemma Parse_plain spec args : Forall (plainWord spec) args -> Forall (fun f => fl_Required f = false) spec ->
  Parse uni args spec = Ok (args, fold_left defaultStep spec ∅).
Proof.
  intros H Hreq. unfold Parse. rewrite <- (app_nil_r args) at 1. rewrite parseLoop_plain by done. cbn [parseLoop app mbind res_bind].
  assert (List.filter (fun f => fl_Required f && bytes_eqb (default [] (fold_left defaultStep spec ∅ !! fl_Name f)) [])%bool spec = []) as ->; [|done].
  generalize (fold_left defaultStep spec ∅) as v. intros v. clear H. induction Hreq as [|f spec Hf Hreq IH]; [done|]. cbn [List.filter]. by rewrite Hf.
Qed.

Lemma Parse_positional spec argv pos values : Parse uni argv spec = Ok (pos, values) ->
  Forall (plainWord spec) pos /\ forall a, a ∈ pos -> a ∈ argv.
Proof.
  unfold Parse. destruct (parseLoop _ _ _ _ _) as [[pos' values']|e|] eqn:H; [|done|done]. cbn [mbind res_bind].
  destruct (check _ _) as [[]|e|]; [|done|done]. intros [= <- <-].
  destruct (parseLoop_positional spec (length argv) argv [] _ _ _ ltac:(done) H) as [H1 H2]; [by apply List.Forall_nil|].
  split; [done|]. intros a Ha. destruct (H2 a Ha) as [Hx|Hx]; [by apply not_elem_of_nil in Hx|done].
Qed.

Definition noHelp (args : list bytes) : Prop := str "help" ∉ args.

Lemma existsb_help args : existsb (fun x => bytes_eqb x (str "help")) args = true <-> str "help" ∈ args.
Proof.
  rewrite existsb_exists. split.
  - intros (x & Hx & He). apply bytes_eqb_eq in He as <-. by apply list_elem_of_In.
  - intros H. exists (str "help"). split; [by apply list_elem_of_In|apply bytes_eqb_refl].
Qed.

(** How the result of a handler is reported. *)
Definition reported (path : list bytes) (r : res sh_err unit) : res sh_err unit :=
  match r with Err ShExit => Err ShExit | Err e => Err (ShRun path e) | r => r end.

Definition arity (cmd : Command) (n : Z) : Prop :=
  (0 < cm_MinArgs cmd -> cm_MinArgs cmd <= n) /\ (0 < cm_MaxArgs cmd -> n <= cm_MaxArgs cmd).

Lemma runCommand_plain cmd path args w : Forall (plainWord (cm_Flags cmd)) args -> noHelp args ->
  Forall (fun f => fl_Required f = false) (cm_Flags cmd) -> str "help" ∉ (fl_Name <$> cm_Flags cmd) -> arity cmd (len args) ->
  let ctx := mkContext args (fold_left defaultStep (cm_Flags cmd) ∅) in
  runCommand uni cmd path args w = ((cm_Run cmd ctx w).1, Ran path ctx, reported path (cm_Run cmd ctx w).2).
Proof.
  intros Hp Hh Hr Hn [Ha1 Ha2] ctx. unfold runCommand.
  assert (existsb (fun x => bytes_eqb x (str "help")) args = false) as ->.
  { destruct (existsb _ args) eqn:He; [|done]. by apply existsb_help in He. }
  rewrite Parse_plain by done. rewrite default_lookup, lookup_empty by done.
  assert (((0 <? cm_MinArgs cmd) && (len args <? cm_MinArgs cmd))%bool = false) as -> by lia.
  assert (((0 <? cm_MaxArgs cmd) && (cm_MaxArgs cmd <? len args))%bool = false) as -> by lia.
  fold ctx. by destruct (cm_Run cmd ctx w) as [w' r].
Qed.

(** A registered command, and a line that names it and passes it [args], each
    word typed bare or quoted. *)
Record invocation (r : Registry) (line : bytes) (w : Session * W) (path : list bytes) (cmd : Command) (args : list bytes) : Prop := {
  iv_regs : exists regs, registerAll NewRegistry regs = Ok r /\ (path, cmd) ∈ regs;
  iv_clear : clear r = true;
  iv_path : path ≠ [];
  iv_typed : exists words ws ts, line = fromRunes (lineOf ts) /\ Forall2 typed ws ts /\ Forall (Forall validRune) ws /\
    fromRunes <$> ws = words ++ args /\ lower <$> words = lower <$> path /\
    (forall x rest, words = x :: rest -> se_Aliases w.1 !! lower x = None);
  iv_leaf : forall n a rest, nodeAt (root r) (lower <$> path) = Some n -> args = a :: rest -> subcommand n a = false;
}.

Lemma execute_invocation r line w path cmd args : invocation r line w path cmd args ->
  execute uni order r line w = runCommand uni cmd (lower <$> path) args w.
Proof.
  intros [(regs & Hregs & Hin) Hcl Hpath (words & ws & ts & -> & Ht & Hv & Hw & Hlow & Hal) Hleaf].
  apply registerAll_cmdAt in Hregs as [_ Hat]. specialize (Hat _ _ Hin).
  assert (words ≠ []) as Hne by (intros ->; cbn in Hlow; by destruct path).
  unfold execute. rewrite (split_typed ws ts) by done. rewrite Hw.
  destruct words as [|x words]; [done|]. cbn [app]. unfold ExpandAlias. rewrite (Hal x words eq_refl).
  unfold cmdAt in Hat. destruct (nodeAt (root r) (lower <$> path)) as [n|] eqn:Hn; [|done]. cbn in Hat.
  change (x :: words ++ args) with ((x :: words) ++ args).
  rewrite (resolve_path r (x :: words) args n cmd); [|done|by rewrite Hlow|done|done|destruct args as [|a rest]; [done|by apply (Hleaf n a rest)]].
  rewrite Hlow. by rewrite drop_app_length.
Qed.

(** C32: What was typed reaches the command.  In a tree of registered commands
    whose siblings share no word, a line that names a command and gives it words,
    bare or between quotes, runs that command's handler exactly once, on exactly
    those words and the default parameters, in whatever order the runtime walks
    the tree, and reports the handler's result, provided that no word is
    [help], a parameter of the command or starts with a dash, and that their
    number fits. *)
Theorem typed_command_reaches_handler r line w path cmd args : invocation r line w path cmd args ->
  Forall (plainWord (cm_Flags cmd)) args -> noHelp args ->
  Forall (fun f => fl_Required f = false) (cm_Flags cmd) -> str "help" ∉ (fl_Name <$> cm_Flags cmd) -> arity cmd (len args) ->
  let ctx := mkContext args (fold_left defaultStep (cm_Flags cmd) ∅) in
  execute uni order r line w = ((cm_Run cmd ctx w).1, Ran (lower <$> path) ctx, reported (lower <$> path) (cm_Run cmd ctx w).2).
Proof. intros Hi Hp Hh Hr Hn Ha. cbv zeta. rewrite (execute_invocation _ _ _ _ _ _ Hi). by apply runCommand_plain. Qed.

(** Words of a message are taken as syntax, quoted or not.  If a word handed
    to a command is [help], the handler is not run, nothing changes, and the line
    counts as successful.  If the first word that is not a plain one starts with
    a dash, the line is refused.  And no argument that reaches a handler, from any
    line whatsoever, is [help], the name of a parameter of its command, or
    starts with a dash: a text with such a word cannot be sent. *)
Theorem text_words_taken_as_syntax r :
  (forall line w path cmd args, invocation r line w path cmd args ->
     (str "help" ∈ args -> execute uni order r line w = (w, Helped (lower <$> path), Ok tt)) /\
     (forall pre a post, args = pre ++ a :: post -> noHelp args -> Forall (plainWord (cm_Flags cmd)) pre ->
        a ∉ (fl_Name <$> cm_Flags cmd) -> hasPrefix (str "-") a = true ->
        execute uni order r line w = (w, Nothing, Err (ShParams (lower <$> path) (ShDash a))))) /\
  (forall line w w' path ctx e, execute uni order r line w = (w', Ran path ctx, e) ->
     exists words cmd k, Resolve uni order r words = (Some cmd, k, path) /\
       noHelp (cx_Args ctx) /\ Forall (plainWord (cm_Flags cmd)) (cx_Args ctx)).
Proof.
  split.
  - intros line w path cmd args Hi. rewrite (execute_invocation _ _ _ _ _ _ Hi). split.
    + intros Hh. unfold runCommand. apply existsb_help in Hh. by rewrite Hh.
    + intros pre a post -> Hh Hpre Ha Hd. unfold runCommand.
      assert (existsb (fun x => bytes_eqb x (str "help")) (pre ++ a :: post) = false) as ->.
      { destruct (existsb _ _) eqn:He; [|done]. by apply existsb_help in He. }
      unfold Parse. rewrite parseLoop_plain by done. cbn [parseLoop]. by rewrite byName_lookup, lookup_empty, Hd.
  - intros line w w' path ctx e. unfold execute. destruct (SplitLine line) as [[|x ws]|er|]; [done| |done|done].
    destruct (Resolve uni order r (ExpandAlias uni w.1 (x :: ws))) as [[[cmd|] k] p] eqn:Hres; [|done].
    set (rest := drop k _). unfold runCommand.
    destruct (existsb _ rest) eqn:Hh; [done|]. destruct (Parse uni rest (cm_Flags cmd)) as [[pos values]|er|] eqn:Hp; [|done|done].
    destruct (match values !! str "help" with Some v => _ | None => false end); [done|].
    destruct (_ && _)%bool; [done|]. destruct (_ && _)%bool; [done|].
    destruct (cm_Run cmd _ w) as [w2 r2]. intros [= <- <- <- _]. apply Parse_positional in Hp as [Hpl Hsub].
    exists (ExpandAlias uni w.1 (x :: ws)), cmd, k. conjs; [done| |done].
    intros Hin. apply Hsub in Hin. apply existsb_help in Hin. cbn [cx_Args] in Hin. congruence.
Qed.
End Resolved.
End Tree.

(** An alias set to blanks leaves no word, and the message for an unknown command
    indexes the first one. *)
Lemma blank_alias_panics {W} uni (order : list (bytes * @node W) -> list (bytes * node)) r (w : Session * W) x blank :
  typed x x -> Forall validRune x -> se_Aliases w.1 !! toLower uni (fromRunes x) = Some blank -> blank ≠ [] -> Fields blank = [] ->
  execute uni order r (fromRunes x) w = (w, Nothing, Panic).
Proof.
  intros Ht Hv Ha Hne Hf. unfold execute.
  assert (SplitLine (fromRunes x) = Ok [fromRunes x]) as ->.
  { apply (split_typed [x] [x]); [apply List.Forall2_cons; [done|apply List.Forall2_nil]|apply List.Forall_cons; [done|apply List.Forall_nil]]. }
  unfold ExpandAlias. rewrite Ha, Hf.
  rewrite (proj2 (bytes_eqb_neq _ _)) by done. done.
Qed.

(** ** A concrete shell *)
Definition runesOf (s : bytes) : list Z := Zb <$> s.

Ltac decided := apply (bool_decide_unpack _); vm_compute; exact I.
Ltac demo_runes := repeat (apply List.Forall_cons; [left; vm_compute; split; congruence|]); apply List.Forall_nil.

(** A handler that keeps what it would send. *)
Definition demoSend : @Command (list bytes) :=
  mkCommand (str "send") [] 0 0
    [mkFlag (str "id") [] false false; mkFlag (str "via") [] false false; mkFlag (str "json") [] false true]
    (fun ctx w => ((w.1, w.2 ++ [joinWith (str " ") (cx_Args ctx)]), Ok tt)).

Definition demoExit : @Command (list bytes) := mkCommand (str "exit") [str "quit"] 0 0 [] (fun ctx w => (w, Err ShExit)).

Definition demoAlias : @Command (list bytes) := mkCommand (str "alias") [] 0 0 [] aliasRun.

Definition demoRegs : list (list bytes * @Command (list bytes)) :=
  [([str "message"; str "send"], demoSend); ([str "exit"], demoExit); ([str "alias"], demoAlias)].

Definition demoShell : Registry := match registerAll id NewRegistry demoRegs with Ok r => r | _ => NewRegistry end.

(** [message send bob 'TEXT'] *)
Definition demoWords (text : bytes) : list (list Z) := runesOf <$> [str "message"; str "send"; str "bob"; text].
Definition demoLine (text : bytes) : bytes :=
  fromRunes (lineOf [runesOf (str "message"); runesOf (str "send"); runesOf (str "bob"); 39 :: runesOf text ++ [39]]).

Lemma demo_invocation text : fromRunes (runesOf text) = text -> 39 ∉ runesOf text -> Forall validRune (runesOf text) ->
  invocation id demoShell (demoLine text) (NewSession, []) [str "message"; str "send"] demoSend [str "bob"; text].
Proof.
  intros Htext Hq Hv. split.
  - exists demoRegs. split; [|apply elem_of_cons; by left].
    assert (isOk (registerAll id NewRegistry demoRegs) = true) as H by (vm_compute; reflexivity).
    unfold demoShell. by destruct (registerAll id NewRegistry demoRegs).
  - vm_compute. reflexivity.
  - done.
  - exists [str "message"; str "send"], (demoWords text), [runesOf (str "message"); runesOf (str "send"); runesOf (str "bob"); 39 :: runesOf text ++ [39]].
    split; [reflexivity|]. split; [|split; [|split; [|split]]].
    + repeat apply List.Forall2_cons; try apply List.Forall2_nil; [..|by apply T_quoted]; apply T_bare; try done;
        repeat (apply List.Forall_cons; [done|]); apply List.Forall_nil.
    + repeat (apply List.Forall_cons; [first [exact Hv|demo_runes]|]).
      apply List.Forall_nil.
    + unfold demoWords. cbn [fmap list_fmap]. rewrite Htext. reflexivity.
    + reflexivity.
    + intros x rest [= <- <-]. vm_compute. reflexivity.
  - intros n a rest Hn [= <- <-].
    assert (match nodeAt (root demoShell) (toLower id <$> [str "message"; str "send"]) with Some n => subcommand id n (str "bob") | None => false end = false)
      as H by (vm_compute; reflexivity).
    by rewrite Hn in H.
Qed.

(** Two lines that end the shell: an alias set to a blank, and its use. *)
Example blank_alias_ends_shell :
  (execute id id demoShell (str "x") (execute id id demoShell (str "alias x ' '") (NewSession, [])).1.1).2 = Panic.
Proof.
  assert ((execute id id demoShell (str "alias x ' '") (NewSession, [])).1.1.1 = set_Aliases (<[str "x" := str " "]> (se_Aliases NewSession)) NewSession) as H
    by (vm_compute; reflexivity).
  change (str "x") with (fromRunes (runesOf (str "x"))).
  rewrite (blank_alias_panics _ _ _ _ (runesOf (str "x")) (str " ")); [reflexivity| | | |done|vm_compute; reflexivity].
  - apply T_bare; [done|]. apply List.Forall_cons; [done|apply List.Forall_nil].
  - demo_runes.
  - rewrite H. vm_compute. reflexivity.
Qed.

Lemma levenshtein_edit_distance_witness :
  edits (toRunes (str "snd")) (toRunes (str "send")) (levenshtein (str "snd") (str "send")) /\ levenshtein (str "snd") (str "send") = 1.
Proof.
  split; [apply (levenshtein_edit_distance (str "snd") (str "send"))|vm_compute; reflexivity].
Defined.

Lemma typed_command_reaches_handler_witness :
  (execute id id demoShell (demoLine (str "hi there")) (NewSession, [])).1.1.2 = [str "bob hi there"].
Proof.
  rewrite (typed_command_reaches_handler id id (fun m => Permutation_refl m) demoShell (demoLine (str "hi there")) (NewSession, [])
    [str "message"; str "send"] demoSend [str "bob"; str "hi there"]).
  - vm_compute. reflexivity.
  - apply demo_invocation; [vm_compute; reflexivity|decided|demo_runes].
  - repeat (apply List.Forall_cons; [split; [decided|vm_compute; reflexivity]|]). apply List.Forall_nil.
  - decided.
  - repeat (apply List.Forall_cons; [reflexivity|]). apply List.Forall_nil.
  - decided.
  - split; vm_compute; congruence.
Defined.

Lemma text_words_taken_as_syntax_witness :
  execute id id demoShell (demoLine (str "help")) (NewSession, []) = ((NewSession, []), Helped [str "message"; str "send"], Ok tt) /\
  execute id id demoShell (demoLine (str "- 1")) (NewSession, []) =
    ((NewSession, []), Nothing, Err (ShParams [str "message"; str "send"] (ShDash (str "- 1")))).
Proof.
  pose proof (text_words_taken_as_syntax id id (fun m => Permutation_refl m) demoShell) as [H _]. split.
  - apply (H _ _ [str "message"; str "send"] demoSend [str "bob"; str "help"]).
    + apply demo_invocation; [vm_compute; reflexivity|decided|demo_runes].
    + decided.
  - apply (H (demoLine (str "- 1")) (NewSession, []) [str "message"; str "send"] demoSend [str "bob"; str "- 1"]) with (pre := [str "bob"]) (post := []).
    + apply demo_invocation; [vm_compute; reflexivity|decided|demo_runes].
    + reflexivity.
    + decided.
    + repeat (apply List.Forall_cons; [split; [decided|vm_compute; reflexivity]|]). apply List.Forall_nil.
    + decided.
    + vm_compute. reflexivity.
Defined.
