(* ===== verification/Transport.v ===== *)
(** * internal/transport: a transport as the core uses it
    ([frame.go], [file.go], [process_transport.go])

    [FrameTransport] and [FileTransport] are the interfaces of the Go code: what
    the core asks of a transport, whatever runs it.  [ProcessTransport] implements
    both by requests to a child process.  The child is outside the repository:
    [Child] is one request and its outcome ([Process.v] models how a request
    travels), and killing. *)
From S2P Require Import Prelude GoStd External Records Rpc Process Manager.
#[local] Open Scope Z_scope.

Module Transport.
Import Rpc.

(** ** frame.go *)
Record RouteHint := mkRoute { RecipientPub : bytes; SenderHint : bytes; MailboxID : bytes; ShardURL : bytes }.

Definition WrapFrame (t : byte) (payload : bytes) : bytes := t :: payload.

Definition SupportsCapability (caps : list bytes) (cap : bytes) : bool := existsb (fun c => bytes_eqb c cap) caps.

Definition TransportAPIVersion : byte := x01.

Inductive tr_err :=
| TrCall (e : Process.proc_err)        (* the call failed, or the transport answered with an error *)
| TrRpc (e : rpc_err)                  (* a message did not encode or decode *)
| TrTransport (detail : bytes)         (* an answer that is not OK *)
| TrNotReady | TrNotStarted
| TrRefused (detail : bytes) (api : byte) | TrIDMismatch (id : bytes)
| TrStart (detail : bytes) | TrStop (detail : bytes)
| TrRanges | TrUnsupported.

(** ** The interfaces *)
Class FrameTransport (T : Type) := {
  ft_ID : T -> bytes;
  ft_Capabilities : T -> list bytes;
  ft_Start : T -> T * res tr_err unit;
  ft_Stop : T -> T * res tr_err unit;
  ft_SendFrame : T -> bytes -> RouteHint -> T * res tr_err unit;
  ft_AttachMailbox : T -> bytes -> bytes -> bytes -> bytes -> T * res tr_err unit;
  ft_DetachMailbox : T -> bytes -> T * res tr_err unit;
  ft_PollFrames : T -> Z -> bytes -> T * res tr_err (list bytes);
  ft_Status : T -> T * res tr_err (bool * bytes);
}.

(** [ft_isFile] is the type assertion [t.(FileTransport)]. *)
Class FileTransport (T : Type) := {
  ft_isFile : T -> bool;
  ft_XferCreate : T -> XferCreate -> T * res tr_err XferCreated;
  ft_XferPut : T -> XferPut -> T * res tr_err Z;
  ft_XferResume : T -> bytes -> bytes -> bytes -> T * res tr_err (Z * Z * list (Z * Z));
  ft_XferGet : T -> bytes -> Z -> bytes -> bytes -> T * res tr_err (bytes * bytes);
  ft_XferResumeByTicket : T -> bytes -> bytes -> bytes -> T * res tr_err (Z * Z * list (Z * Z));
  ft_XferGetByTicket : T -> bytes -> Z -> bytes -> bytes -> T * res tr_err (bytes * bytes);
  ft_XferComplete : T -> bytes -> bytes -> T * res tr_err unit;
  ft_XferCancel : T -> bytes -> bytes -> bytes -> T * res tr_err unit;
  ft_XferRegister : T -> bytes -> bytes -> T * res tr_err RegisterResult;
  ft_IdentityRegister : T -> IdentityRegisterReq -> T * res tr_err RegisterResult;
  ft_XferResolve : T -> bytes -> bytes -> T * res tr_err (bytes * bytes);
}.

(** [RequiresFile] *)
Definition RequiresFile {T} `{FileTransport T} (t : T) : res tr_err unit := check (negb (ft_isFile t)) TrUnsupported.

(** ** The operation numbers of [rpc.go] *)
Definition OpStartStop : byte := x02.
Definition OpSend : byte := x03.
Definition OpAttach : byte := x04.
Definition OpDetach : byte := x05.
Definition OpPoll : byte := x06.
Definition OpStatus : byte := x07.
Definition OpCapabilities : byte := x08.
Definition OpRegister : byte := x09.
Definition OpResolve : byte := x0a.
Definition OpXferCreate : byte := x0b.
Definition OpXferPut : byte := x0c.
Definition OpXferResume : byte := x0d.
Definition OpXferGet : byte := x0e.
Definition OpXferComplete : byte := x0f.
Definition OpXferCancel : byte := x10.

(** ** process_transport.go *)
Class Child (C : Type) := {
  ch_call : C -> byte -> bytes -> C * res Process.proc_err Envelope;
  ch_kill : C -> C;
}.

(** The missing ranges: pairs of a first index and a count. *)
Fixpoint decodeRanges (fuel : nat) (blob : bytes) : list (Z * Z) :=
  match fuel, blob with
  | S f, _ :: _ => (unbe (take 4 blob), unbe (take 4 (drop 4 blob))) :: decodeRanges f (drop 8 blob)
  | _, _ => []
  end.

Definition DecodeRanges (blob : bytes) : res tr_err (list (Z * Z)) :=
  if negb (len blob mod 8 =? 0) then Err TrRanges else Ok (decodeRanges (length blob) blob).

Section ProcessTransport.
Context `{N : Nanopack} {C : Type} `{CH : Child C}.

Record ProcessTransport := mkPT {
  pt_manifest : Manager.Manifest; pt_proc : C; pt_config : bytes; pt_started : bool; pt_caps : list bytes; pt_version : bytes;
}.

Definition set_proc (c : C) (t : ProcessTransport) : ProcessTransport :=
  mkPT (pt_manifest t) c (pt_config t) (pt_started t) (pt_caps t) (pt_version t).
Definition set_started (b : bool) (t : ProcessTransport) : ProcessTransport :=
  mkPT (pt_manifest t) (pt_proc t) (pt_config t) b (pt_caps t) (pt_version t).

(** The shape every method shares: encode, call, decode the answer's payload. *)
Definition roundTrip {A} (t : ProcessTransport) (op : byte) (payload : res rpc_err bytes) (decode : bytes -> res rpc_err A)
  : ProcessTransport * res tr_err A :=
  match payload with
  | Panic => (t, Panic)
  | Err e => (t, Err (TrRpc e))
  | Ok p =>
      let '(c, r) := ch_call (pt_proc t) op p in
      (set_proc c t, env ← wrapErr TrCall r; wrapErr TrRpc (decode (e_Payload env)))
  end.

(** An answer that is only an acknowledgement. *)
Definition acked (r : res tr_err Ack) : res tr_err unit := a ← r; check (negb (a_OK a)) (TrTransport (a_Detail a)).

Definition queryCaps (t : ProcessTransport) : ProcessTransport * res tr_err Caps := roundTrip t OpCapabilities (Ok [x00]) UnmarshalCaps.

(** [proc] is the child that [Spawn] started; on a failure it is killed. *)
Definition NewProcessTransport (proc : C) (m : Manager.Manifest) (config : bytes) : C + ProcessTransport :=
  let t := mkPT m proc config false [] [] in
  let '(t, r) := roundTrip t OpInitialize (MarshalInitialize (mkInitialize (Manager.mf_ID m) TransportAPIVersion config)) UnmarshalInitResult in
  match r with
  | Ok res =>
      if (negb (ir_OK res) || negb (bool_decide (ir_ActualAPI res = TransportAPIVersion)))%bool then inl (ch_kill (pt_proc t)) else
      let '(t, r) := queryCaps t in
      match r with
      | Ok caps =>
          if negb (bytes_eqb (c_TransportID caps) (Manager.mf_ID m)) then inl (ch_kill (pt_proc t))
          else inr (mkPT m (pt_proc t) config false (c_Capabilities caps) (c_Version caps))
      | _ => inl (ch_kill (pt_proc t))
      end
  | _ => inl (ch_kill (pt_proc t))
  end.

(** [payload, _ := MarshalStartStop(action)] *)
Definition startStop (action : byte) : res rpc_err bytes := Ok (match MarshalStartStop action with Ok w => w | _ => [] end).

Definition Start (t : ProcessTransport) : ProcessTransport * res tr_err unit :=
  let '(t, r) := roundTrip t OpStartStop (startStop ActionStart) UnmarshalAck in
  match r with
  | Panic => (t, Panic)
  | Err e => (t, Err e)
  | Ok ack => if negb (a_OK ack) then (t, Err (TrStart (a_Detail ack))) else (set_started true t, Ok tt)
  end.

Definition Stop (t : ProcessTransport) : ProcessTransport * res tr_err unit :=
  let '(t, r) := roundTrip t OpStartStop (startStop ActionStop) UnmarshalAck in
  match r with
  | Panic => (t, Panic)
  | Err e => (t, Err e)
  | Ok ack => (set_started false t, check (negb (a_OK ack)) (TrStop (a_Detail ack)))
  end.

Definition requireStarted (t : ProcessTransport) : bool := pt_started t.

Definition SendFrame (t : ProcessTransport) (frame : bytes) (to : RouteHint) : ProcessTransport * res tr_err unit :=
  if negb (requireStarted t) then (t, Err TrNotReady) else
  let '(t, r) := roundTrip t OpSend (MarshalSend (mkSend frame (RecipientPub to) (SenderHint to) (MailboxID to) (ShardURL to))) UnmarshalAck in
  (t, acked r).

Definition AttachMailbox (t : ProcessTransport) (mailboxID readSecret shardURL routerURL : bytes) : ProcessTransport * res tr_err unit :=
  if negb (requireStarted t) then (t, Err TrNotStarted) else
  let '(t, r) := roundTrip t OpAttach (MarshalAttach (mkAttach mailboxID readSecret shardURL routerURL)) UnmarshalAck in
  (t, acked r).

Definition DetachMailbox (t : ProcessTransport) (mailboxID : bytes) : ProcessTransport * res tr_err unit :=
  if negb (requireStarted t) then (t, Err TrNotStarted) else
  let '(t, r) := roundTrip t OpDetach (MarshalDetach mailboxID) UnmarshalAck in
  (t, acked r).

Definition PollFrames (t : ProcessTransport) (limit : Z) (mailboxID : bytes) : ProcessTransport * res tr_err (list bytes) :=
  if negb (requireStarted t) then (t, Err TrNotStarted) else
  let limit := if ((limit <=? 0) || (32 <? limit))%bool then 32 else limit in
  roundTrip t OpPoll (MarshalPoll (mkPoll (byteZ limit) mailboxID)) UnmarshalPollResult.

Definition Status (t : ProcessTransport) : ProcessTransport * res tr_err (bool * bytes) :=
  let '(t, r) := roundTrip t OpStatus (Ok [x00]) UnmarshalStatus in
  (t, st ← r; Ok (st_Running st, st_Detail st)).

Definition Kill (t : ProcessTransport) : ProcessTransport := set_proc (ch_kill (pt_proc t)) t.

(** ** file.go *)
Definition Xfer_Create (t : ProcessTransport) (m : XferCreate) : ProcessTransport * res tr_err XferCreated :=
  roundTrip t OpXferCreate (MarshalXferCreate m) UnmarshalXferCreated.

Definition Xfer_Put (t : ProcessTransport) (m : XferPut) : ProcessTransport * res tr_err Z :=
  let '(t, r) := roundTrip t OpXferPut (MarshalXferPut m) UnmarshalXferProgress in
  (t, prog ← r; Ok (xg_Highest prog)).

Definition progress (r : res tr_err XferProgress) : res tr_err (Z * Z * list (Z * Z)) :=
  prog ← r; missing ← DecodeRanges (xg_MissingRanges prog); Ok (xg_Count prog, xg_Highest prog, missing).

Definition Xfer_Resume (t : ProcessTransport) (transferID mailboxID readSecret : bytes) : ProcessTransport * res tr_err (Z * Z * list (Z * Z)) :=
  let '(t, r) := roundTrip t OpXferResume (MarshalXferResume (mkXferResume transferID mailboxID readSecret [] [])) UnmarshalXferProgress in
  (t, progress r).

Definition chunk (r : res tr_err XferChunk) : res tr_err (bytes * bytes) := c ← r; Ok (xk_Payload c, xk_Hash c).

Definition Xfer_Get (t : ProcessTransport) (transferID : bytes) (index : Z) (mailboxID readSecret : bytes) : ProcessTransport * res tr_err (bytes * bytes) :=
  let '(t, r) := roundTrip t OpXferGet (MarshalXferGet (mkXferGet transferID index mailboxID readSecret [] [])) UnmarshalXferChunk in
  (t, chunk r).

Definition XferResumeByTicket (t : ProcessTransport) (transferID ticket shardURL : bytes) : ProcessTransport * res tr_err (Z * Z * list (Z * Z)) :=
  let '(t, r) := roundTrip t OpXferResume (MarshalXferResume (mkXferResume transferID [] [] ticket shardURL)) UnmarshalXferProgress in
  (t, progress r).

Definition XferGetByTicket (t : ProcessTransport) (transferID : bytes) (index : Z) (ticket shardURL : bytes) : ProcessTransport * res tr_err (bytes * bytes) :=
  let '(t, r) := roundTrip t OpXferGet (MarshalXferGet (mkXferGet transferID index [] [] ticket shardURL)) UnmarshalXferChunk in
  (t, chunk r).

Definition XferComplete (t : ProcessTransport) (transferID manifestHash : bytes) : ProcessTransport * res tr_err unit :=
  let '(t, r) := roundTrip t OpXferComplete (MarshalXferCompleteReq (mkXferCompleteReq transferID manifestHash)) UnmarshalAck in
  (t, acked r).

Definition XferCancel (t : ProcessTransport) (transferID mailboxID readSecret : bytes) : ProcessTransport * res tr_err unit :=
  let '(t, r) := roundTrip t OpXferCancel (MarshalXferCancelReq (mkXferCancelReq transferID mailboxID readSecret)) UnmarshalAck in
  (t, acked r).

Definition IdentityRegister (t : ProcessTransport) (m : IdentityRegisterReq) : ProcessTransport * res tr_err RegisterResult :=
  roundTrip t OpIdentityRegister (MarshalIdentityRegisterReq m) UnmarshalRegisterResult.

Definition XferRegister (t : ProcessTransport) (userTag routerURL : bytes) : ProcessTransport * res tr_err RegisterResult :=
  roundTrip t OpRegister (MarshalRegisterReq (mkRegisterReq userTag routerURL)) UnmarshalRegisterResult.

Definition XferResolve (t : ProcessTransport) (recipientPub routerURL : bytes) : ProcessTransport * res tr_err (bytes * bytes) :=
  let '(t, r) := roundTrip t OpResolve (MarshalResolveReq (mkResolveReq recipientPub routerURL)) UnmarshalResolveResult in
  (t, v ← r; Ok (rv_MailboxID v, rv_ShardURL v)).

#[export] Instance process_frames : FrameTransport ProcessTransport := {|
  ft_ID t := Manager.mf_ID (pt_manifest t); ft_Capabilities := pt_caps; ft_Start := Start; ft_Stop := Stop; ft_SendFrame := SendFrame;
  ft_AttachMailbox := AttachMailbox; ft_DetachMailbox := DetachMailbox; ft_PollFrames := PollFrames; ft_Status := Status |}.

#[export] Instance process_files : FileTransport ProcessTransport := {|
  ft_isFile _ := true; ft_XferCreate := Xfer_Create; ft_XferPut := Xfer_Put; ft_XferResume := Xfer_Resume; ft_XferGet := Xfer_Get;
  ft_XferResumeByTicket := XferResumeByTicket; ft_XferGetByTicket := XferGetByTicket; ft_XferComplete := XferComplete;
  ft_XferCancel := XferCancel; ft_XferRegister := XferRegister; ft_IdentityRegister := IdentityRegister; ft_XferResolve := XferResolve |}.

End ProcessTransport.
Arguments ProcessTransport C : clear implicits.

(** [FileRoute]: the running transports that declare and implement the capability. *)
Definition FileRoute (isFile : Manager.Live -> bool) (io : MultiStore.storeIO) (m : Manager.Manager) : list Manager.Live :=
  MultiStore.sortBy Manager.lv_ID
    (List.filter (fun t => isFile t && SupportsCapability (Manager.lv_caps t) (str "binary-transfer"))%bool (MultiStore.io_range io (Manager.mn_live m)).*2).

End Transport.
