(* ===== verification/Wasm.v ===== *)
(** * internal/transport: the host of WebAssembly transports ([wasm.go])

    A module is outside the repository, and so is the runtime that executes it:
    [WasmModule] is what the host uses of them, the exported functions and the
    linear memory.  A call gives the module's state afterwards, the lines it
    logged through the imported [ntx.log] and its results.  Addresses and lengths
    are [uint32], arguments and results [uint64].

    The mutex [callMu] is held throughout [SendFrame], [AttachMailbox],
    [DetachMailbox] and [PollFrames], which are atomic steps. *)
From S2P Require Import Prelude Steps GoStd External Rpc Manager Transport.
#[local] Open Scope Z_scope.

Module Wasm.
Import Steps Transport.

Inductive wasm_err :=
| WaHost | WaCompile | WaInstantiate (id : bytes) | WaInit (id : bytes) (e : wasm_err) | WaInitRefused (id : bytes) (rc : Z)
| WaCaps (id : bytes) (e : wasm_err) | WaCapability (id c : bytes) | WaNoCapabilities (id : bytes)
| WaNoMemory | WaAlloc | WaWriteBounds | WaScratch | WaGrow
| WaMissing (name : bytes) | WaCall (name : bytes) | WaResult (name : bytes)
| WaBlobSize (name : bytes) (n : Z) | WaBlobBounds (name : bytes)
| WaStart (rc : Z) | WaStop (rc : Z)
| WaNotReady | WaInvalid (detail : bytes) | WaTransport (detail : bytes).   (* [RPCError] *)

Class WasmModule (M : Type) := {
  wm_exports : M -> bytes -> bool;                                  (* [ExportedFunction(name) != nil] *)
  wm_call : M -> bytes -> list Z -> M * list bytes * option (list Z);
  wm_hasMemory : M -> bool;
  wm_read : M -> Z -> Z -> option bytes;                            (* [Memory.Read] *)
  wm_write : M -> Z -> bytes -> option M;
  wm_grow : M -> Z -> option M;                                     (* by pages *)
  wm_close : M -> M;
}.

(** [logFn]: a line the module logs is kept if it is short enough. *)
Definition logged (lines : list bytes) : list bytes := List.filter (fun b => len b <? 4096) lines.

Definition scratch : Z := 1048576.
Definition span : Z := 1048576.

(** [(n + 7) &^ 7] *)
Definition align8 (n : Z) : Z := Z.ldiff (u32 (n + 7)) 7.

(** The frames of a poll blob, from position [pos]; each round passes a length. *)
Fixpoint splitPoll (fuel : nat) (blob : bytes) (pos : Z) (out : list bytes) : res wasm_err (list bytes) :=
  match fuel with
  | O => Ok out
  | S fuel =>
      if len blob <=? pos then Ok out else
      if len blob <? pos + 4 then Err (WaTransport (str "poll blob truncated")) else
      let n := unbe (take 4 (drop (Z.to_nat pos) blob)) in
      let pos := pos + 4 in
      if ((n <=? 0) || (Rpc.MaxFrameBytes <? n) || (len blob <? pos + n))%bool then Err (WaTransport (str "poll frame out of bounds")) else
      splitPoll fuel blob (pos + n) (out ++ [take (Z.to_nat n) (drop (Z.to_nat pos) blob)])
  end.

Definition splitPollBlob (blob : bytes) : res wasm_err (list bytes) := splitPoll (S (length blob)) blob 0 [].

Section Wasm.
Context {M : Type} `{WM : WasmModule M}.

Record WASMTransport := mkWT {
  wt_manifest : Manager.Manifest; wt_mod : M; wt_scratchOff : Z; wt_started : bool; wt_caps : list bytes; wt_version : bytes; wt_logs : list bytes }.

Definition set_mod (m : M) (t : WASMTransport) : WASMTransport :=
  mkWT (wt_manifest t) m (wt_scratchOff t) (wt_started t) (wt_caps t) (wt_version t) (wt_logs t).
Definition set_scratchOff (o : Z) (t : WASMTransport) : WASMTransport :=
  mkWT (wt_manifest t) (wt_mod t) o (wt_started t) (wt_caps t) (wt_version t) (wt_logs t).
Definition set_started (b : bool) (t : WASMTransport) : WASMTransport :=
  mkWT (wt_manifest t) (wt_mod t) (wt_scratchOff t) b (wt_caps t) (wt_version t) (wt_logs t).
Definition set_caps (l : list bytes) (t : WASMTransport) : WASMTransport :=
  mkWT (wt_manifest t) (wt_mod t) (wt_scratchOff t) (wt_started t) l (wt_version t) (wt_logs t).
Definition add_logs (l : list bytes) (t : WASMTransport) : WASMTransport :=
  mkWT (wt_manifest t) (wt_mod t) (wt_scratchOff t) (wt_started t) (wt_caps t) (wt_version t) (wt_logs t ++ logged l).

Abbreviation Call A := (Step WASMTransport wasm_err A).

(** [fn.Call] *)
Definition invoke (e : wasm_err) (name : bytes) (args : list Z) : Call (list Z) := fun t =>
  let '(m, lines, r) := wm_call (wt_mod t) name args in
  (add_logs lines (set_mod m t), ofOption e r).

(** ** Memory *)
Definition poke (e : wasm_err) (ptr : Z) (data : bytes) : Call unit := fun t =>
  match wm_write (wt_mod t) ptr data with Some m => (set_mod m t, Ok tt) | None => (t, Err e) end.

Definition grow (pages : Z) : Call unit := fun t =>
  match wm_grow (wt_mod t) pages with Some m => (set_mod m t, Ok tt) | None => (t, Err WaGrow) end.

(** Written to memory the module allocates. *)
Definition writeAlloc (data : bytes) : Call Z :=
  r ← invoke WaAlloc (str "ntx_alloc") [len data];
  match r with
  | [x] => let ptr := u32 x in _ ← poke WaWriteBounds ptr data; mret ptr
  | _ => fail WaAlloc
  end.

(** Written behind the arguments that are there already, the memory grown once. *)
Definition writeScratch (data : bytes) : Call Z :=
  off ← gets wt_scratchOff;
  _ ← failIf ((span <? len data) || (span <? off + len data))%bool WaScratch;
  let at_ := u32 (scratch + off) in
  first ← attempt (poke WaWriteBounds at_ data);
  _ ← match first with inr _ => mret tt | inl _ => _ ← grow 16; poke WaWriteBounds at_ data end;
  _ ← modify (set_scratchOff (u32 (off + align8 (u32 (len data)))));
  mret at_.

Definition writeMem (data : bytes) : Call Z :=
  m ← gets wt_mod;
  _ ← failIf (negb (wm_hasMemory m)) WaNoMemory;
  if wm_exports m (str "ntx_alloc") then writeAlloc data else writeScratch data.

(** ** Calls *)
Definition callU32x2 (name : bytes) (args : list Z) : Call Z :=
  m ← gets wt_mod;
  _ ← failIf (negb (wm_exports m name)) (WaMissing name);
  r ← invoke (WaCall name) name args;
  match r with [x] => mret x | _ => fail (WaResult name) end.

Definition callU32 (name : bytes) (args : list Z) : Call Z := x ← callU32x2 name args; mret (u32 x).

(** The region a call returned, copied out; no memory is a nil pointer. *)
Definition callBlob (name : bytes) (args : list Z) : Call bytes :=
  u ← callU32x2 name args;
  let ptr := u32 (Z.shiftr u 32) in
  let length := u32 u in
  _ ← failIf (Rpc.MaxFrameBytes * 33 + 16 <? length) (WaBlobSize name length);
  m ← gets wt_mod;
  if negb (wm_hasMemory m) then lift Panic else lift (ofOption (WaBlobBounds name) (wm_read m ptr length)).

(** ** Starting *)
Fixpoint addCaps (id : bytes) (words : list bytes) (caps : list bytes) : res wasm_err (list bytes) :=
  match words with
  | [] => Ok caps
  | c :: words =>
      let c := trimSpace c in
      if bytes_eqb c [] then addCaps id words caps else
      if bool_decide (c ∈ Manager.KnownCapabilities) then addCaps id words (caps ++ [c]) else Err (WaCapability id c)
  end.

Definition initModule (id config : bytes) : Call unit :=
  cfgPtr ← writeMem config;
  rc ← wrap (WaInit id) (callU32 (str "ntx_init") [cfgPtr; len config]);
  _ ← failIf (negb (rc =? 0)) (WaInitRefused id rc);
  capsCSV ← wrap (WaCaps id) (callBlob (str "ntx_caps") []);
  caps ← lift (addCaps id (splitOn x2c capsCSV) []);
  _ ← failIf (bool_decide (caps = [])) (WaNoCapabilities id);
  modify (set_caps caps).

Section New.
Context {C : Type} (hostModule : bool) (CompileModule : bytes -> option C) (InstantiateModule : C -> bytes -> option M).

Definition NewWASMTransport (moduleBytes : bytes) (mf : Manager.Manifest) (config : bytes) : res wasm_err WASMTransport :=
  _ ← check (negb hostModule) WaHost;
  compiled ← ofOption WaCompile (CompileModule moduleBytes);
  mod_ ← ofOption (WaInstantiate (Manager.mf_ID mf)) (InstantiateModule compiled (str "ntx-" ++ Manager.mf_ID mf));
  let '(t, r) := initModule (Manager.mf_ID mf) config (mkWT mf mod_ 0 false [] (Manager.mf_Version mf) []) in
  _ ← r; Ok t.

End New.

Definition Close (t : WASMTransport) : WASMTransport := set_mod (wm_close (wt_mod t)) t.
Definition Kill (t : WASMTransport) : WASMTransport := Close t.
Definition Logs (t : WASMTransport) : list bytes := wt_logs t.
Definition ID (t : WASMTransport) : bytes := Manager.mf_ID (wt_manifest t).
Definition Capabilities (t : WASMTransport) : list bytes := wt_caps t.
Definition Version (t : WASMTransport) : bytes := wt_version t.

Definition Start : Call unit :=
  rc ← callU32 (str "ntx_start") [];
  _ ← failIf (negb (rc =? 0)) (WaStart rc);
  modify (set_started true).

Definition Stop : Call unit :=
  rc ← callU32 (str "ntx_stop") [];
  _ ← modify (set_started false);
  failIf (negb (rc =? 0)) (WaStop rc).

Definition requireStarted : Call unit := b ← gets wt_started; failIf (negb b) WaNotReady.

(** ** Frames *)
Definition sendResult (rc : Z) : res wasm_err unit :=
  if rc =? 0 then Ok tt else
  if rc =? 1 then Err WaNotReady else
  if rc =? 3 then Err (WaTransport (str "transport queue full")) else Err (WaTransport (str "send refused: " ++ dec rc)).

Definition SendFrame (frame : bytes) (to : RouteHint) : Call unit :=
  _ ← modify (set_scratchOff 0);
  _ ← requireStarted;
  _ ← failIf ((len frame =? 0) || (Rpc.MaxFrameBytes <? len frame) || (64 <? len (RecipientPub to)) || (64 <? len (SenderHint to)))%bool
        (WaInvalid (str "frame out of bounds"));
  fptr ← writeMem frame;
  rptr ← writeMem (RecipientPub to);
  rc ← callU32 (str "ntx_send") [fptr; len frame; rptr; len (RecipientPub to)];
  lift (sendResult rc).

Definition refused (what : bytes) (rc : Z) : Call unit := failIf (negb (rc =? 0)) (WaTransport (what ++ str " refused: " ++ dec rc)).

Definition AttachMailbox (mailboxID readSecret : bytes) : Call unit :=
  _ ← modify (set_scratchOff 0);
  _ ← requireStarted;
  _ ← failIf (negb (len mailboxID =? 16) || negb (len readSecret =? 32))%bool (WaInvalid (str "bad attach"));
  mptr ← writeMem mailboxID;
  sptr ← writeMem readSecret;
  rc ← callU32 (str "ntx_attach") [mptr; sptr; 0; 0; 0; 0];
  refused (str "attach") rc.

Definition DetachMailbox (mailboxID : bytes) : Call unit :=
  _ ← modify (set_scratchOff 0);
  _ ← requireStarted;
  _ ← failIf (negb (len mailboxID =? 16)) (WaInvalid (str "bad detach"));
  mptr ← writeMem mailboxID;
  rc ← callU32 (str "ntx_detach") [mptr];
  refused (str "detach") rc.

Definition pollLimit (limit : Z) : Z := if ((limit <=? 0) || (32 <? limit))%bool then 32 else limit.

(** The blob [ntx_poll] returns. *)
Definition pollBlob (limit : Z) (mailboxID : bytes) : Call bytes :=
  _ ← modify (set_scratchOff 0);
  _ ← requireStarted;
  args ← (if len mailboxID =? 16 then p ← writeMem mailboxID; mret [p; 1] else mret [0; 0]);
  callBlob (str "ntx_poll") (pollLimit limit :: args).

Definition PollFrames (limit : Z) (mailboxID : bytes) : Call (list bytes) := blob ← pollBlob limit mailboxID; lift (splitPollBlob blob).

Definition Status : Call (bool * bytes) := rc ← callU32 (str "ntx_status") []; mret (rc =? 1, str "wasm").

(** ** The interface

    [text] is [Error()]. *)
Definition trErr (text : wasm_err -> bytes) (e : wasm_err) : tr_err := match e with WaNotReady => TrNotReady | e => TrTransport (text e) end.

Definition as_frames (text : wasm_err -> bytes) : FrameTransport WASMTransport := {|
  ft_ID := ID;
  ft_Capabilities := Capabilities;
  ft_Start := wrap (trErr text) Start;
  ft_Stop := wrap (trErr text) Stop;
  ft_SendFrame t frame to := wrap (trErr text) (SendFrame frame to) t;
  ft_AttachMailbox t mbox sec _ _ := wrap (trErr text) (AttachMailbox mbox sec) t;
  ft_DetachMailbox t mbox := wrap (trErr text) (DetachMailbox mbox) t;
  ft_PollFrames t limit mbox := wrap (trErr text) (PollFrames limit mbox) t;
  ft_Status := wrap (trErr text) Status;
|}.

End Wasm.
Arguments WASMTransport M : clear implicits.

(** ** What is assumed of a module

    A write is read back and leaves the rest alone; growing keeps what is there;
    what a module exports is settled when it is compiled. *)
Class WasmMemoryLaws (M : Type) `{WasmModule M} : Prop := {
  wl_read_len m p n b : wm_read m p n = Some b -> len b = n;
  wl_write_read m p d m' : wm_write m p d = Some m' -> wm_read m' p (len d) = Some d;
  wl_write_other m p d m' q n : wm_write m p d = Some m' -> q + n <= p \/ p + len d <= q -> wm_read m' q n = wm_read m q n;
  wl_write_exports m p d m' : wm_write m p d = Some m' -> wm_exports m' = wm_exports m /\ wm_hasMemory m' = wm_hasMemory m;
  wl_grow_read m k m' q n b : wm_grow m k = Some m' -> wm_read m q n = Some b -> wm_read m' q n = Some b;
  wl_grow_exports m k m' : wm_grow m k = Some m' -> wm_exports m' = wm_exports m /\ wm_hasMemory m' = wm_hasMemory m;
  wl_call_exports m name args m' l r : wm_call m name args = (m', l, r) -> wm_exports m' = wm_exports m /\ wm_hasMemory m' = wm_hasMemory m;
}.

(** What an allocator promises, if the module exports one: memory that it hands out
    for a short argument (a key, a secret) is not that of the argument before it,
    which it leaves as it was written. *)
Class WasmAllocLaws (M : Type) `{WasmModule M} : Prop := {
  wl_alloc_kept m n m1 l x d m2 k m3 l' y : wm_exports m (str "ntx_alloc") = true -> 0 <= k <= 64 -> len d = n ->
    wm_call m (str "ntx_alloc") [n] = (m1, l, Some [x]) -> wm_write m1 (u32 x) d = Some m2 -> wm_call m2 (str "ntx_alloc") [k] = (m3, l', Some [y]) ->
    wm_read m3 (u32 x) n = Some d /\ (u32 x + n <= u32 y \/ u32 y + k <= u32 x);
}.

End Wasm.
