(* ===== verification/Worker.v ===== *)
(** * internal/relay/worker: the adapter to routers and shards ([adapter.go])

    A router mints mailboxes and says on which shard one lives; messages are
    posted to and read from the shards themselves.  The services are outside the
    repository: [Http] is one exchange, [WorkerJSON] is [encoding/json] on the
    documents exchanged.  Errors are their texts, because one of them is searched
    for a phrase.  A method is one atomic step and gets the clock as an argument. *)
From S2P Require Import Prelude GoStd Sha256 External SecurePeer Engine Frame.
#[local] Open Scope Z_scope.

Module Worker.

(** ** Documents of relay.go *)
Record MailboxCapability := mkCapability {
  mc_MailboxID : bytes; mc_ReadSecret : bytes; mc_ShardURL : bytes; mc_ReplicaShardURLs : list bytes; mc_ExpiresAt : Z; mc_TableVersion : Z }.

Record PeerResolution := mkResolution {
  pr_MailboxID : bytes; pr_ShardURL : bytes; pr_ReplicaShardURLs : list bytes; pr_TableVersion : Z }.

Record ShardIdentity := mkShard { si_URL : bytes; si_Pubkey : bytes }.

Record RoutingTable := mkTable {
  rt_Version : Z; rt_GeneratedAt : Z; rt_ExpiresAt : Z; rt_Algorithm : bytes; rt_ShardURLs : list bytes; rt_Shards : list ShardIdentity;
  rt_ReplicationFactor : Z; rt_PriorShardCounts : list Z; rt_RouterPublicKey : bytes; rt_Signature : bytes }.

Definition Expired (now : Z) (rt : RoutingTable) : bool := rt_ExpiresAt rt <? now.

(** ** Requests *)
Record request := mkRequest { rq_POST : bool; rq_URL : bytes; rq_Body : bytes }.
Record response := mkResponse { rs_Status : Z; rs_ContentType : bytes; rs_Body : bytes }.

(** [h_new]: the text of the error of [http.NewRequest], if any; [h_do] gives the
    text of the error of [Client.Do] or the answer. *)
Class Http (W : Type) := { h_new : bytes -> option bytes; h_do : W -> request -> W * (bytes + response) }.

(** Decoders give the text of their error or the value; [wj_quote] writes a
    string as JSON, [go_quote] is [%q]. *)
Class WorkerJSON := {
  wj_table : bytes -> bytes + RoutingTable;
  wj_encodeTable : RoutingTable -> bytes;
  wj_capability : bytes -> bytes + MailboxCapability;
  wj_resolution : bytes -> bytes + PeerResolution;
  wj_send : bytes -> bytes + bool;
  wj_read : bytes -> bytes + list bytes;
  wj_error : bytes -> option bytes;
  wj_quote : bytes -> bytes;
  go_quote : bytes -> bytes;
}.

(** [strings.TrimRight(s, "/")], [strings.Contains] *)
Fixpoint trimSlash (s : bytes) : bytes :=
  match s with
  | [] => []
  | b :: s => match trimSlash s with [] => if bool_decide (b = x2f) then [] else [b] | t => b :: t end
  end.

Fixpoint contains (sub s : bytes) : bool :=
  (hasPrefix sub s || match s with [] => false | _ :: s => contains sub s end)%bool.

(** [url.QueryEscape] *)
Definition unreserved (b : byte) : bool :=
  let z := Zb b in
  ((97 <=? z) && (z <=? 122) || (65 <=? z) && (z <=? 90) || (48 <=? z) && (z <=? 57)
   || (z =? 45) || (z =? 95) || (z =? 46) || (z =? 126))%bool.

Definition upperHex (z : Z) : byte := if z <? 10 then byteZ (48 + z) else byteZ (55 + z).

Definition escapeByte (b : byte) : bytes :=
  if unreserved b then [b] else if bool_decide (b = x20) then [x2b] else [x25; upperHex (Zb b / 16); upperHex (Zb b mod 16)].

Definition QueryEscape (s : bytes) : bytes := s ≫= escapeByte.

(** The text of a decoder's error, or its value. *)
Definition decoded {A} (wrap : bytes -> bytes) (r : bytes + A) : res bytes A := match r with inl e => Err (wrap e) | inr a => Ok a end.

Section Worker.
Context `{P : Prims} {W : Type} `{H : Http W} `{WJ : WorkerJSON}.
(** [strings.ToLower] outside ASCII. *)
Context (uni : bytes -> bytes).

(** Marshalling the table itself, signature field included. *)
Definition verifyRoutingTableSignature (table : RoutingTable) (routerPubkeyHex signatureHex : bytes) : res bytes unit :=
  match hexDecode routerPubkeyHex with
  | None => Err (str "invalid router public key")
  | Some pub =>
      if negb (len pub =? 32) then Err (str "invalid router public key") else
      sig ← ofOption (str "invalid routing table signature encoding") (hexDecode signatureHex);
      check (negb (ed25519_verify pub (wj_encodeTable table) sig)) (str "routing table signature verification failed")
  end.

Record RouterClient := mkRouter {
  rc_routerURL : bytes; rc_table : option RoutingTable;
  rc_capabilities : gmap bytes MailboxCapability; rc_resolutions : gmap bytes PeerResolution }.

Definition NewRouterClient (routerURL : bytes) : RouterClient := mkRouter (trimSlash routerURL) None ∅ ∅.

Definition set_table (t : option RoutingTable) (rc : RouterClient) : RouterClient :=
  mkRouter (rc_routerURL rc) t (rc_capabilities rc) (rc_resolutions rc).
Definition set_capabilities (m : gmap bytes MailboxCapability) (rc : RouterClient) : RouterClient :=
  mkRouter (rc_routerURL rc) (rc_table rc) m (rc_resolutions rc).
Definition set_resolutions (m : gmap bytes PeerResolution) (rc : RouterClient) : RouterClient :=
  mkRouter (rc_routerURL rc) (rc_table rc) (rc_capabilities rc) m.

(** A request made and sent; [wrap] is what the caller puts before the error. *)
Definition exchange (w : W) (rq : request) (wrapNew wrapDo : bytes -> bytes) : W * res bytes response :=
  match h_new (rq_URL rq) with
  | Some e => (w, Err (wrapNew e))
  | None => let '(w, r) := h_do w rq in (w, decoded wrapDo r)
  end.

Definition readAPIError (resp : response) : bytes :=
  let raw := take 201 (rs_Body resp) in
  let head := str "request returned status " ++ dec (rs_Status resp) in
  match wj_error raw with
  | Some ((_ :: _) as e) => head ++ str ": " ++ e
  | _ =>
      if 0 <? len raw then
        head ++ str ": " ++ go_quote (if 200 <? len raw then take 200 raw else raw) ++ (if 200 <? len raw then str "... (truncated)" else [])
      else head
  end.

Definition notJSON (resp : response) (e : bytes) : bytes :=
  str "response was not valid JSON (status " ++ dec (rs_Status resp) ++ str ", content-type " ++ go_quote (rs_ContentType resp) ++ str "): " ++ e.

Definition decodeJSONResponse {A} (resp : response) (r : bytes + A) : res bytes A := decoded (notJSON resp) r.

Definition fetchRoutingTableFrom (w : W) (target : bytes) : W * res bytes RoutingTable :=
  let '(w, r) := exchange w (mkRequest false target []) (app (str "create routing_table request: "))
                   (app (str "fetch routing_table from " ++ target ++ str ": ")) in
  (w,
   resp ← r;
   _ ← check (negb (rs_Status resp =? 200)) (target ++ str " returned status " ++ dec (rs_Status resp) ++ str " for routing_table.json");
   decoded (app (str "decode routing_table from " ++ target ++ str ": ")) (wj_table (rs_Body resp))).

(** The shards of the old table, in turn, until one answers. *)
Fixpoint tryShards (w : W) (shards : list bytes) : W * res bytes (option RoutingTable) :=
  match shards with
  | [] => (w, Ok None)
  | s :: shards =>
      match fetchRoutingTableFrom w (trimSlash s ++ str "/routing_table.json") with
      | (w, Ok table) => (w, Ok (Some table))
      | (w, Err _) => tryShards w shards
      | (w, Panic) => (w, Panic)
      end
  end.

Definition RoutingTable_ (now : Z) (rc : RouterClient) (w : W) : RouterClient * W * res bytes RoutingTable :=
  let refetch (w : W) :=
    match fetchRoutingTableFrom w (rc_routerURL rc ++ str "/routing_table.json") with
    | (w, Ok table) => (set_table (Some table) rc, w, Ok table)
    | (w, Err e) => (rc, w, match rc_table rc with Some cached => Ok cached | None => Err e end)
    | (w, Panic) => (rc, w, Panic)
    end in
  match rc_table rc with
  | Some cached =>
      if negb (Expired now cached) then (rc, w, Ok cached) else
      match tryShards w (rt_ShardURLs cached) with
      | (w, Ok (Some table)) => (set_table (Some table) rc, w, Ok table)
      | (w, Ok None) => refetch w
      | (w, Err e) => (rc, w, Err e)
      | (w, Panic) => (rc, w, Panic)
      end
  | None => refetch w
  end.

(** Public key, timestamp and signature, in hex; a key that is not 64 bytes panics. *)
Definition signPubkeyTimestamp (now : Z) (priv action : bytes) : res bytes (bytes * bytes * bytes) :=
  if negb (len priv =? 64) then Panic else
  let pubkeyHex := hexEncode (ed25519_public priv) in
  let timestamp := dec now in
  sig ← ed25519Sign priv (action ++ str ":" ++ pubkeyHex ++ str ":" ++ timestamp);
  Ok (pubkeyHex, timestamp, hexEncode sig).

Definition quoted (s : bytes) : bytes := x22 :: s ++ [x22].

(** [json.Marshal] of a map writes the keys in order; the values are hex digits
    and decimals. *)
Definition registerBody (pubkeyHex timestamp sig : bytes) : bytes :=
  str "{" ++ quoted (str "pubkey") ++ str ":" ++ quoted pubkeyHex ++ str "," ++ quoted (str "signature") ++ str ":" ++ quoted sig
  ++ str "," ++ quoted (str "timestamp") ++ str ":" ++ quoted timestamp ++ str "}".

Definition Router_Register (now : Z) (rc : RouterClient) (w : W) (priv : bytes) : RouterClient * W * res bytes MailboxCapability :=
  match signPubkeyTimestamp now priv (str "register") with
  | Panic => (rc, w, Panic)
  | Err e => (rc, w, Err e)
  | Ok (pubkeyHex, timestamp, sig) =>
      let mint :=
        let '(w, r) := exchange w (mkRequest true (rc_routerURL rc ++ str "/register") (registerBody pubkeyHex timestamp sig))
                         id (app (str "register request: ")) in
        match (resp ← r; _ ← check (negb (rs_Status resp =? 200)) (readAPIError resp);
               wrapErr (app (str "decode register response: ")) (decodeJSONResponse resp (wj_capability (rs_Body resp)))) with
        | Ok cap => (set_capabilities (<[pubkeyHex := cap]> (rc_capabilities rc)) rc, w, Ok cap)
        | Err e => (rc, w, Err e)
        | Panic => (rc, w, Panic)
        end in
      match rc_capabilities rc !! pubkeyHex with
      | Some cached => if now <? mc_ExpiresAt cached then (rc, w, Ok cached) else mint
      | None => mint
      end
  end.

Definition Resolve (rc : RouterClient) (w : W) (peerPubkeyHex : bytes) : RouterClient * W * res bytes PeerResolution :=
  let peerPubkeyHex := toLower uni peerPubkeyHex in
  match rc_resolutions rc !! peerPubkeyHex with
  | Some cached => (rc, w, Ok cached)
  | None =>
      let '(w, r) := exchange w (mkRequest false (rc_routerURL rc ++ str "/resolve?pubkey=" ++ QueryEscape peerPubkeyHex) [])
                       id (app (str "resolve request: ")) in
      match (resp ← r; _ ← check (negb (rs_Status resp =? 200)) (readAPIError resp);
             wrapErr (app (str "decode resolve response: ")) (decodeJSONResponse resp (wj_resolution (rs_Body resp)))) with
      | Ok pr => (set_resolutions (<[peerPubkeyHex := pr]> (rc_resolutions rc)) rc, w, Ok pr)
      | Err e => (rc, w, Err e)
      | Panic => (rc, w, Panic)
      end
  end.

Definition ForgetResolution (rc : RouterClient) (peerPubkeyHex : bytes) : RouterClient :=
  set_resolutions (delete (toLower uni peerPubkeyHex) (rc_resolutions rc)) rc.

(** ** The adapter: the client of the router is its state *)
Definition New (routerURL : bytes) : res bytes RouterClient :=
  if bytes_eqb routerURL [] then Err (str "router URL must not be empty") else Ok (NewRouterClient routerURL).

Definition Register (now : Z) (rc : RouterClient) (w : W) (privateKey : bytes) : RouterClient * W * res bytes bytes :=
  let '(rc, w, r) := Router_Register now rc w privateKey in
  (rc, w, _ ← r; Ok (hexEncode (ed25519_public privateKey))).

(** [json.Marshal] of [sendRequestBody]. *)
Definition sendBody (mailbox message : bytes) (s : SenderAuth) : bytes :=
  str "{" ++ quoted (str "mailbox_id") ++ str ":" ++ wj_quote mailbox ++ str "," ++ quoted (str "message") ++ str ":" ++ wj_quote message
  ++ str "," ++ quoted (str "sender") ++ str ":{" ++ quoted (str "pubkey") ++ str ":" ++ wj_quote (sa_PubKey s)
  ++ str "," ++ quoted (str "timestamp") ++ str ":" ++ wj_quote (sa_Timestamp s)
  ++ str "," ++ quoted (str "signature") ++ str ":" ++ wj_quote (sa_Signature s) ++ str "}}".

(** The request that carries a message to a shard. *)
Definition sendRequest (now : Z) (shardURL mailbox payload senderPriv : bytes) : res bytes request :=
  let encodedMessage := b64Encode payload in
  senderAuth ← wrapErr (fun _ => str "build sender auth") (BuildSenderAuth uni now senderPriv mailbox encodedMessage);
  Ok (mkRequest true (trimSlash shardURL ++ str "/send") (sendBody (toLower uni mailbox) encodedMessage senderAuth)).

Definition sendToShard (now : Z) (w : W) (shardURL mailbox payload senderPriv : bytes) : W * res bytes unit :=
  match sendRequest now shardURL mailbox payload senderPriv with
  | Panic => (w, Panic)
  | Err e => (w, Err e)
  | Ok rq =>
      let '(w, r) := exchange w rq id (app (str "send request to " ++ shardURL ++ str ": ")) in
      (w,
       resp ← r;
       _ ← check (negb (rs_Status resp =? 200)) (readAPIError resp);
       success ← wrapErr (app (str "decode send response: ")) (decodeJSONResponse resp (wj_send (rs_Body resp)));
       check (negb success) (str "shard " ++ shardURL ++ str " rejected the message"))
  end.

Fixpoint addReplicas (seen out replicas : list bytes) : list bytes :=
  match replicas with
  | [] => out
  | u :: replicas =>
      if (bytes_eqb u [] || bool_decide (u ∈ seen))%bool then addReplicas seen out replicas
      else addReplicas (u :: seen) (out ++ [u]) replicas
  end.

Definition candidateShardURLs (primary : bytes) (replicas : list bytes) : list bytes := addReplicas [primary] [primary] replicas.

(** The candidates in turn, until one accepts; the last error, and whether every
    error says that the mailbox is not there. *)
Fixpoint sendLoop (now : Z) (w : W) (candidates : list bytes) (mailbox payload senderPriv lastErr : bytes) (allNotFound : bool)
  : W * res bytes (option (bytes * bool)) :=
  match candidates with
  | [] => (w, Ok (Some (lastErr, allNotFound)))
  | shardURL :: candidates =>
      match sendToShard now w shardURL mailbox payload senderPriv with
      | (w, Ok _) => (w, Ok None)
      | (w, Err e) => sendLoop now w candidates mailbox payload senderPriv e (allNotFound && contains (str "Mailbox not found") e)%bool
      | (w, Panic) => (w, Panic)
      end
  end.

Definition SendToPubkey (now : Z) (rc : RouterClient) (w : W) (recipientPubKey payload senderPriv : bytes) : RouterClient * W * res bytes unit :=
  let peerPubkeyHex := hexEncode recipientPubKey in
  let '(rc, w, r) := Resolve rc w peerPubkeyHex in
  match r with
  | Panic => (rc, w, Panic)
  | Err e => (rc, w, Err (str "resolve recipient: " ++ e))
  | Ok pr =>
      let candidates := candidateShardURLs (pr_ShardURL pr) (pr_ReplicaShardURLs pr) in
      match sendLoop now w candidates (pr_MailboxID pr) payload senderPriv [] true with
      | (w, Panic) => (rc, w, Panic)
      | (w, Err e) => (rc, w, Err e)
      | (w, Ok None) => (rc, w, Ok tt)
      | (w, Ok (Some (lastErr, allNotFound))) =>
          (if allNotFound then ForgetResolution rc peerPubkeyHex else rc, w,
           Err (str "send failed on all " ++ dec (len candidates) ++ str " known replica(s): " ++ lastErr))
      end
  end.

Definition Send := SendToPubkey.

Definition SendDirect (now : Z) (w : W) (shardURL mailbox payload senderPriv : bytes) : W * res bytes unit :=
  sendToShard now w shardURL mailbox payload senderPriv.

(** A message that is not base64 is taken as it is. *)
Definition decodeMessage (m : bytes) : bytes := match b64Decode m with Some d => d | None => m end.

(** [url.Values.Encode] writes the keys in order. *)
Definition readURL (shardURL mailbox readSecret : bytes) : bytes :=
  trimSlash shardURL ++ str "/read?mailbox_id=" ++ QueryEscape mailbox ++ str "&read_secret=" ++ QueryEscape readSecret.

(** A mailbox that is not there is an empty one. *)
Definition readMessages (resp : response) : res bytes (list bytes) :=
  if rs_Status resp =? 404 then Ok [] else
  _ ← (check (negb (rs_Status resp =? 200)) (readAPIError resp) : res bytes unit);
  messages ← decoded (app (str "decode read response: ")) (wj_read (rs_Body resp));
  Ok (map decodeMessage messages).

Definition receiveCapability (w : W) (cap : MailboxCapability) (shardURL : bytes) : W * res bytes (list bytes) :=
  let '(w, r) := exchange w (mkRequest false (readURL shardURL (mc_MailboxID cap) (mc_ReadSecret cap)) [])
                   id (app (str "read request to " ++ shardURL ++ str ": ")) in
  (w, resp ← r; readMessages resp).

Fixpoint receiveLoop (w : W) (cap : MailboxCapability) (candidates : list bytes) (lastErr : bytes) : W * res bytes (list bytes) :=
  match candidates with
  | [] => (w, Err (str "receive failed on all known replica(s): " ++ lastErr))
  | shardURL :: candidates =>
      match receiveCapability w cap shardURL with
      | (w, Ok msgs) => (w, Ok msgs)
      | (w, Err e) => receiveLoop w cap candidates e
      | (w, Panic) => (w, Panic)
      end
  end.

Definition Receive (now : Z) (rc : RouterClient) (w : W) (privateKey : bytes) : RouterClient * W * res bytes (list bytes) :=
  let '(rc, w, r) := Router_Register now rc w privateKey in
  match r with
  | Panic => (rc, w, Panic)
  | Err e => (rc, w, Err e)
  | Ok cap => let '(w, r) := receiveLoop w cap (candidateShardURLs (mc_ShardURL cap) (mc_ReplicaShardURLs cap)) [] in (rc, w, r)
  end.

End Worker.
End Worker.
