(* ===== verification/WorkerTheorems.v ===== *)
(** * The worker adapter: theorems

    Over a recording of the exchanges: a message is offered to the replicas in
    order and to none after the first that accepts it; a registration proves the
    key and is not repeated while it is valid; a routing table, once known, is
    always served. *)
From S2P Require Import Prelude GoStd Sha256 External SecurePeer Engine EngineFacts Frame Worker.
#[local] Open Scope Z_scope.

Import Worker.

(** ** Recording *)
Abbreviation exchange_t := (request * (bytes + response))%type.

#[export] Instance recorded (W : Type) `{Http W} : Http (W * list exchange_t) := {|
  h_new := h_new (W := W);
  h_do wl rq := let '(w, r) := h_do wl.1 rq in ((w, wl.2 ++ [(rq, r)]), r) |}.

Lemma exchange_recorded {W} `{Http W} (w : W) l rq f g :
  let wl := exchange (w, l) rq f g in
  match h_new (W := W) (rq_URL rq) with
  | Some e => wl = ((w, l), Err (f e))
  | None => wl = (((h_do w rq).1, l ++ [(rq, (h_do w rq).2)]), decoded g (h_do w rq).2)
  end.
Proof. unfold exchange. cbn [h_new recorded h_do fst snd]. destruct (h_new _); [done|]. by destruct (h_do w rq). Qed.

Section WorkerTheorems.
Context `{P : Prims} `{PL : !PrimLaws} {W : Type} `{H : Http W} `{WJ : WorkerJSON} (uni : bytes -> bytes).

(** A shard took the message. *)
Definition accepted (e : exchange_t) : bool :=
  match e.2 with
  | inr resp => (rs_Status resp =? 200) && match wj_send (rs_Body resp) with inr b => b | inl _ => false end
  | inl _ => false
  end.

Definition postable (shardURL : bytes) : bool := bool_decide (h_new (W := W) (trimSlash shardURL ++ str "/send") = None).

(** The exchange is the posting of the message to the shard. *)
Definition offers now mailbox payload priv (shardURL : bytes) (e : exchange_t) : Prop :=
  sendRequest uni now shardURL mailbox payload priv = Ok e.1.

Lemma sendToShard_recorded now (w : W) l s mailbox payload priv rq w' l' r :
  sendRequest uni now s mailbox payload priv = Ok rq ->
  sendToShard uni now (w, l) s mailbox payload priv = ((w', l'), r) ->
  if postable s then exists a, l' = l ++ [(rq, a)] /\ (isOk r = accepted (rq, a)) /\ r ≠ Panic
  else l' = l /\ exists e, r = Err e.
Proof.
  intros Hrq Hs. unfold sendToShard in Hs. rewrite Hrq in Hs.
  assert (rq_URL rq = trimSlash s ++ str "/send") as Hu.
  { unfold sendRequest in Hrq. apply bind_Ok in Hrq as (sa & _ & Hrq). by injection Hrq as <-. }
  pose proof (exchange_recorded w l rq id (app (str "send request to " ++ s ++ str ": "))) as He. cbv zeta in He.
  unfold postable. rewrite <- Hu. destruct (h_new (rq_URL rq)) as [e|]; rewrite He in Hs; injection Hs as <- <- <-.
  - rewrite bool_decide_eq_false_2 by done. split; [done|]. by eexists.
  - rewrite bool_decide_eq_true_2 by done. destruct (h_do w rq) as [w1 a]. cbn [fst snd]. exists a. split; [done|].
    unfold accepted. cbn [snd]. destruct a as [e|resp]; cbn; [done|]. unfold check, decodeJSONResponse, decoded.
    destruct (rs_Status resp =? 200); cbn; [|done]. by destruct (wj_send (rs_Body resp)) as [|[]].
Qed.

Lemma sendRequest_total now s mailbox payload priv : length priv = 64%nat -> exists rq, sendRequest uni now s mailbox payload priv = Ok rq.
Proof.
  intros Hl. unfold sendRequest, BuildSenderAuth, ed25519Sign, len. rewrite Hl. eexists. reflexivity.
Qed.

(** The loop over the candidates, and what it has recorded. *)
Lemma sendLoop_recorded now mailbox payload priv : length priv = 64%nat ->
  forall cands (w : W) l e0 b w' l' r,
  sendLoop uni now (w, l) cands mailbox payload priv e0 b = ((w', l'), r) ->
  exists k tried, l' = l ++ tried /\ Forall2 (offers now mailbox payload priv) (List.filter postable (take k cands)) tried /\
    ((r = Ok None /\ exists front last, tried = front ++ [last] /\ accepted last = true /\ Forall (fun e => accepted e = false) front) \/
     ((exists e b, r = Ok (Some (e, b))) /\ (length cands <= k)%nat /\ Forall (fun e => accepted e = false) tried)).
Proof.
  intros Hpriv. induction cands as [|s cands IH]; intros w l e0 b w' l' r Hs; cbn [sendLoop] in Hs.
  - injection Hs as <- <- <-. exists 0%nat, []. rewrite app_nil_r. split; [done|]. split; [constructor|]. right. split; [by eexists _, _|].
    split; [cbn; lia|constructor].
  - destruct (sendRequest_total now s mailbox payload priv Hpriv) as [rq Hrq].
    destruct (sendToShard uni now (w, l) s mailbox payload priv) as [[w1 l1] r1] eqn:H1.
    pose proof (sendToShard_recorded _ _ _ _ _ _ _ _ _ _ _ Hrq H1) as Hp.
    destruct (postable s) eqn:Hpost.
    + destruct Hp as (a & -> & Ha & Hnp). destruct r1 as [[]|e|]; [| |done].
      * injection Hs as <- <- <-. exists 1%nat, [(rq, a)]. split; [done|]. cbn [take List.filter]. rewrite Hpost. split; [by repeat constructor|].
        left. split; [done|]. exists [], (rq, a). split; [done|]. split; [by symmetry|constructor].
      * apply IH in Hs as (k & tried & -> & Hf & Hr). exists (S k), ((rq, a) :: tried). rewrite <- app_assoc. split; [done|].
        cbn [take List.filter]. rewrite Hpost. split; [by constructor|]. cbn [isOk] in Ha.
        destruct Hr as [(Hr & front & last & -> & Hl & Hfr)|(Hr & Hk & Hfr)]; [left|right].
        { split; [done|]. exists ((rq, a) :: front), last. split; [done|]. split; [done|]. by constructor. }
        { split; [done|]. split; [cbn; lia|]. by constructor. }
    + destruct Hp as (-> & e & ->). apply IH in Hs as (k & tried & -> & Hf & Hr). exists (S k), tried. split; [done|].
      cbn [take List.filter]. rewrite Hpost. split; [done|]. destruct Hr as [Hr|(Hr & Hk & Hfr)]; [by left|right]. split; [done|]. split; [cbn; lia|done].
Qed.

Lemma addReplicas_spec replicas : forall seen out,
  NoDup out -> (forall u, u ∈ out -> u ∈ seen) -> exists more, addReplicas seen out replicas = out ++ more /\ NoDup (out ++ more) /\
    (forall u, u ∈ more -> u ∈ replicas /\ u ≠ []) /\ (forall u, u ∈ replicas -> u ≠ [] -> u ∈ seen \/ u ∈ more).
Proof.
  induction replicas as [|u replicas IH]; intros seen out Hn Hs; cbn [addReplicas].
  - exists []. rewrite app_nil_r. conjs; [done|done|by intros ? ?%not_elem_of_nil|by intros ? ?%not_elem_of_nil].
  - destruct (_ || _)%bool eqn:Hb.
    + destruct (IH seen out Hn Hs) as (more & -> & Hnm & Hin & Hall). exists more. split; [done|]. split; [done|]. split.
      * intros v Hv. destruct (Hin v Hv). split; [by apply elem_of_cons; right|done].
      * intros v [->|Hv]%elem_of_cons Hne; [|by auto]. apply orb_true_iff in Hb as [Hb|Hb]; [by apply bool_decide_eq_true in Hb|].
        left. by apply bool_decide_eq_true in Hb.
    + apply orb_false_iff in Hb as [Hb1 Hb2]. apply bool_decide_eq_false in Hb1, Hb2.
      destruct (IH (u :: seen) (out ++ [u])) as (more & -> & Hnm & Hin & Hall).
      * apply list.NoDup_app. split; [done|]. split; [|by apply list.NoDup_singleton]. intros v Hv Hu%list_elem_of_singleton. subst v. by apply Hb2, Hs.
      * intros v [Hv|Hv%list_elem_of_singleton]%elem_of_app; apply elem_of_cons; [right; by apply Hs|by left].
      * exists (u :: more). rewrite <- app_assoc in Hnm |- *. cbn [app] in *. split; [done|]. split; [done|]. split.
        { intros v [->|Hv]%elem_of_cons; [by split; [apply elem_of_cons; left|]|]. destruct (Hin v Hv). split; [by apply elem_of_cons; right|done]. }
        { intros v [->|Hv]%elem_of_cons Hne; [right; by apply elem_of_cons; left|]. destruct (Hall v Hv Hne) as [[->|Hx]%elem_of_cons|Hx].
          - right. by apply elem_of_cons; left. - by left. - right. by apply elem_of_cons; right. }
Qed.

(** The replicas of a mailbox, primary first, each once. *)
Lemma candidates_spec primary replicas :
  exists more, candidateShardURLs primary replicas = primary :: more /\ NoDup (primary :: more) /\
    (forall u, u ∈ replicas -> u ≠ [] -> u ∈ primary :: more).
Proof.
  destruct (addReplicas_spec replicas [primary] [primary]) as (more & He & Hn & _ & Hall); [by apply list.NoDup_singleton|done|].
  exists more. split; [done|]. split; [done|]. intros u Hu Hne. destruct (Hall u Hu Hne) as [Hm%list_elem_of_singleton|Hm]; apply elem_of_cons; auto.
Qed.

(** A message is offered to the replicas of its recipient's mailbox in order,
    the primary first and each at most once, and to none after the first that
    accepts it; it is reported sent exactly when one accepted it, and a failure
    is reported only after every replica has been tried.  What was known of other
    recipients is untouched. *)
Theorem send_stops_at_first_acceptance now rc (w : W) l pub payload priv rc1 w1 l1 pr rc' w' l' r :
  length priv = 64%nat ->
  Resolve uni rc (w, l) (hexEncode pub) = (rc1, (w1, l1), Ok pr) ->
  SendToPubkey uni now rc (w, l) pub payload priv = (rc', (w', l'), r) ->
  let cands := candidateShardURLs (pr_ShardURL pr) (pr_ReplicaShardURLs pr) in
  NoDup cands /\ head cands = Some (pr_ShardURL pr) /\
  exists k tried, l' = l1 ++ tried /\ Forall2 (offers now (pr_MailboxID pr) payload priv) (List.filter postable (take k cands)) tried /\
    match r with
    | Ok _ => exists front last, tried = front ++ [last] /\ accepted last = true /\ Forall (fun e => accepted e = false) front
    | Err _ => (length cands <= k)%nat /\ Forall (fun e => accepted e = false) tried
    | Panic => False
    end /\
    (forall k, k ≠ toLower uni (hexEncode pub) -> rc_resolutions rc' !! k = rc_resolutions rc1 !! k).
Proof.
  intros Hpriv Hres Hs cands. unfold SendToPubkey in Hs. rewrite Hres in Hs. fold cands in Hs.
  destruct (candidates_spec (pr_ShardURL pr) (pr_ReplicaShardURLs pr)) as (more & Hc & Hn & _). fold cands in Hc. rewrite Hc at 1 2.
  split; [done|]. split; [done|].
  destruct (sendLoop uni now (w1, l1) cands (pr_MailboxID pr) payload priv [] true) as [[w2 l2] r2] eqn:Hl.
  apply (sendLoop_recorded _ _ _ _ Hpriv) in Hl as (k & tried & -> & Hf & Hr). exists k, tried.
  destruct Hr as [(-> & Hacc)|((e & b & ->) & Hk & Hall)]; injection Hs as <- <- <- <-.
  - done.
  - split; [done|]. split; [done|]. split; [done|]. intros q Hq. destruct b; [|done]. unfold ForgetResolution. cbn. by rewrite lookup_delete_ne by congruence.
Qed.

(** ** Registration *)

(** A registration that is still valid is not repeated; any other one is a
    single request whose signature the router can check with the public key it
    names, and what the router answers is kept for the key. *)
Theorem registration_proves_key now rc (w : W) l priv rc' w' l' cap :
  length priv = 64%nat ->
  Router_Register now rc (w, l) priv = (rc', (w', l'), Ok cap) ->
  let pub := ed25519_public priv in
  (exists old, rc_capabilities rc !! hexEncode pub = Some old /\ now < mc_ExpiresAt old /\ cap = old /\ rc' = rc /\ l' = l) \/
  (exists sig a, l' = l ++ [(mkRequest true (rc_routerURL rc ++ str "/register") (registerBody (hexEncode pub) (dec now) (hexEncode sig)), inr a)] /\
     ed25519_verify pub (str "register:" ++ hexEncode pub ++ str ":" ++ dec now) sig = true /\
     wj_capability (rs_Body a) = inr cap /\
     rc_capabilities rc' = <[hexEncode pub := cap]> (rc_capabilities rc) /\
     (now < mc_ExpiresAt cap -> forall wl, Router_Register (W := W * list exchange_t) now rc' wl priv = (rc', wl, Ok cap))).
Proof.
  intros Hl Hr pub. unfold Router_Register in Hr.
  destruct (signPubkeyTimestamp now priv (str "register")) as [[[pk ts] sg]|e|] eqn:Hs; [|done|done].
  assert (exists sig, sg = hexEncode sig /\ pk = hexEncode pub /\ ts = dec now /\
    ed25519_verify pub (str "register:" ++ hexEncode pub ++ str ":" ++ dec now) sig = true) as (sig & -> & -> & -> & Hv).
  { unfold signPubkeyTimestamp, ed25519Sign, len in Hs. rewrite Hl in Hs. cbn in Hs. injection Hs as <- <- <-.
    eexists. split; [done|]. split; [done|]. split; [done|]. by apply ed25519_correct. }
  pose proof (exchange_recorded w l (mkRequest true (rc_routerURL rc ++ str "/register") (registerBody (hexEncode pub) (dec now) (hexEncode sig)))
    id (app (str "register request: "))) as He. cbv zeta in He.
  assert (forall res, res = (let '(w0, r) := exchange (w, l) (mkRequest true (rc_routerURL rc ++ str "/register") (registerBody (hexEncode pub) (dec now) (hexEncode sig))) id (app (str "register request: ")) in
     match (resp ← r; _ ← check (negb (rs_Status resp =? 200)) (readAPIError resp);
            wrapErr (app (str "decode register response: ")) (decodeJSONResponse resp (wj_capability (rs_Body resp)))) with
     | Ok cap => (set_capabilities (<[hexEncode pub := cap]> (rc_capabilities rc)) rc, w0, Ok cap)
     | Err e => (rc, w0, Err e) | Panic => (rc, w0, Panic) end) -> res = (rc', (w', l'), Ok cap) ->
     exists a, l' = l ++ [(mkRequest true (rc_routerURL rc ++ str "/register") (registerBody (hexEncode pub) (dec now) (hexEncode sig)), inr a)] /\
       wj_capability (rs_Body a) = inr cap /\ rc' = set_capabilities (<[hexEncode pub := cap]> (rc_capabilities rc)) rc) as Hmint.
  { intros res -> Hm. cbn [rq_URL] in He. destruct (h_new _) as [e|]; rewrite He in Hm; [done|]. destruct (h_do w _) as [w1 [e|a]]; cbn [fst snd decoded] in Hm; [done|].
    cbn [mbind res_bind] in Hm. unfold check in Hm. destruct (negb _); [done|]. cbn [mbind res_bind] in Hm. unfold decodeJSONResponse, decoded in Hm.
    destruct (wj_capability (rs_Body a)) as [e|c] eqn:Hc; cbn [wrapErr] in Hm; [done|]. injection Hm as <- <- <- <-. exists a. by rewrite Hc. }
  assert (rc' = set_capabilities (<[hexEncode pub := cap]> (rc_capabilities rc)) rc -> now < mc_ExpiresAt cap ->
    forall wl, Router_Register (W := W * list exchange_t) now rc' wl priv = (rc', wl, Ok cap)) as Hagain.
  { intros -> Hexp wl. unfold Router_Register. rewrite Hs. cbn [rc_capabilities set_capabilities].
    by rewrite lookup_insert_eq, (proj2 (Z.ltb_lt _ _) Hexp). }
  destruct (rc_capabilities rc !! hexEncode pub) as [old|] eqn:Hold; [destruct (Z.ltb_spec now (mc_ExpiresAt old)) as [Hexp|_]|].
  - injection Hr as <- <- <- <-. left. by exists old.
  - destruct (Hmint _ eq_refl Hr) as (a & -> & Hc & Hrc). right. exists sig, a. rewrite Hrc at 1. by auto 10.
  - destruct (Hmint _ eq_refl Hr) as (a & -> & Hc & Hrc). right. exists sig, a. rewrite Hrc at 1. by auto 10.
Qed.

(** ** The routing table *)
Lemma fetch_no_panic (w : W) target : (fetchRoutingTableFrom w target).2 ≠ Panic.
Proof.
  unfold fetchRoutingTableFrom, exchange. destruct (h_new _); [done|]. destruct (h_do _ _) as [w1 [e|resp]]; cbn; [done|].
  unfold check, decoded. destruct (negb _); cbn; [done|]. by destruct (wj_table _).
Qed.

Lemma tryShards_total shards : forall w : W, exists t, (tryShards w shards).2 = Ok t.
Proof.
  induction shards as [|s shards IH]; intros w; cbn [tryShards]; [by eexists|].
  pose proof (fetch_no_panic w (trimSlash s ++ str "/routing_table.json")) as Hn.
  destruct (fetchRoutingTableFrom w _) as [w1 [t|e|]]; [by eexists|apply IH|done].
Qed.

(** Once a routing table is known, one is always served, however the shards and
    the router behave: a fresh one, one that was just fetched, or the old one. *)
Theorem routing_table_always_served now (rc : RouterClient) (w : W) cached :
  rc_table rc = Some cached ->
  exists rc' w' t, RoutingTable_ now rc w = (rc', w', Ok t) /\ rc_table rc' = Some t /\ (Expired now cached = false -> t = cached /\ w' = w).
Proof.
  intros Hc. unfold RoutingTable_. rewrite Hc. destruct (Expired now cached) eqn:He; cbn [negb]; [|by exists rc, w, cached].
  destruct (tryShards_total (rt_ShardURLs cached) w) as [t Ht]. destruct (tryShards w (rt_ShardURLs cached)) as [w1 r1]. cbn in Ht. subst r1.
  destruct t as [t|]; [by eexists _, _, t|]. pose proof (fetch_no_panic w1 (rc_routerURL rc ++ str "/routing_table.json")) as Hn.
  destruct (fetchRoutingTableFrom w1 _) as [w2 [t|e|]]; [by eexists _, _, t| |done]. by exists rc, w2, cached.
Qed.

End WorkerTheorems.

(** ** A router with two shards, the first of which refuses *)
#[local] Instance demoHttp : Http unit := {|
  h_new _ := None;
  h_do w rq := (w, inr (if hasPrefix (str "https://s1") (rq_URL rq) then mkResponse 500 [] [] else mkResponse 200 [] [])) |}.

#[local] Instance demoWorkerJSON : WorkerJSON := {|
  wj_table _ := inr (mkTable 1 0 100 [] [str "https://s1"; str "https://s2"] [] 2 [] [] []);
  wj_encodeTable _ := [];
  wj_capability _ := inr (mkCapability (str "m1") (str "secret") (str "https://s1") [str "https://s2"] 100 1);
  wj_resolution _ := inr (mkResolution (str "m1") (str "https://s1") [str "https://s2"; str "https://s1"] 1);
  wj_send _ := inr true; wj_read _ := inr []; wj_error _ := None; wj_quote := id; go_quote := id |}.

Definition demoRouter : RouterClient := NewRouterClient (str "https://router/").

Lemma send_stops_at_first_acceptance_witness : exists rc' l',
  SendToPubkey id 5 demoRouter (tt, []) (repeat x42 32) (str "hi") (repeat x41 64) = (rc', (tt, l'), Ok tt) /\
  exists rc1 l1 front last, Resolve id demoRouter (tt, []) (hexEncode (repeat x42 32)) = (rc1, (tt, l1), Ok (mkResolution (str "m1") (str "https://s1") [str "https://s2"; str "https://s1"] 1)) /\
    l' = l1 ++ front ++ [last] /\ accepted last = true.
Proof.
  destruct (SendToPubkey id 5 demoRouter (tt, []) (repeat x42 32) (str "hi") (repeat x41 64)) as [[rc' [[] l']] r] eqn:H.
  assert ((SendToPubkey id 5 demoRouter (tt, @nil exchange_t) (repeat x42 32) (str "hi") (repeat x41 64)).2 = Ok tt) as Hr by (vm_compute; reflexivity).
  rewrite H in Hr. cbn [snd] in Hr. subst r. exists rc', l'. split; [reflexivity|].
  destruct (Resolve id demoRouter (tt, []) (hexEncode (repeat x42 32))) as [[rc1 [[] l1]] r1] eqn:H1.
  assert ((Resolve id demoRouter (tt, @nil exchange_t) (hexEncode (repeat x42 32))).2 = Ok (mkResolution (str "m1") (str "https://s1") [str "https://s2"; str "https://s1"] 1)) as Hr1
    by (vm_compute; reflexivity).
  rewrite H1 in Hr1. cbn [snd] in Hr1. subst r1.
  destruct (send_stops_at_first_acceptance id 5 demoRouter tt [] (repeat x42 32) (str "hi") (repeat x41 64) rc1 tt l1
    (mkResolution (str "m1") (str "https://s1") [str "https://s2"; str "https://s1"] 1) rc' tt l' (Ok tt) eq_refl H1 H)
    as (_ & _ & k & tried & Hl & _ & (front & last & Ht & Ha & _) & _).
  exists rc1, l1, front, last. split; [reflexivity|]. split; [|exact Ha]. rewrite Hl, Ht. reflexivity.
Defined.

Lemma registration_proves_key_witness : exists rc' l' sig,
  Router_Register 5 demoRouter (tt, []) (repeat x41 64) = (rc', (tt, l'), Ok (mkCapability (str "m1") (str "secret") (str "https://s1") [str "https://s2"] 100 1)) /\
  ed25519_verify (ed25519_public (repeat x41 64)) (str "register:" ++ hexEncode (ed25519_public (repeat x41 64)) ++ str ":" ++ dec 5) sig = true.
Proof.
  destruct (Router_Register 5 demoRouter (tt, []) (repeat x41 64)) as [[rc' [[] l']] r] eqn:H.
  assert ((Router_Register 5 demoRouter (tt, @nil exchange_t) (repeat x41 64)).2 = Ok (mkCapability (str "m1") (str "secret") (str "https://s1") [str "https://s2"] 100 1)) as Hr
    by (vm_compute; reflexivity).
  rewrite H in Hr. cbn [snd] in Hr. subst r.
  destruct (registration_proves_key 5 demoRouter tt [] (repeat x41 64) rc' tt l' (mkCapability (str "m1") (str "secret") (str "https://s1") [str "https://s2"] 100 1) eq_refl H)
    as [(old & Ho & _)|(sig & a & _ & Hv & _)].
  - discriminate Ho.
  - exists rc', l', sig. split; [reflexivity|exact Hv].
Defined.

Lemma routing_table_always_served_witness :
  let cached := mkTable 1 0 3 [] [str "https://s1"] [] 1 [] [] [] in
  exists rc' w' t, RoutingTable_ 5 (set_table (Some cached) demoRouter) tt = (rc', w', Ok t) /\ rc_table rc' = Some t.
Proof.
  intros cached. destruct (routing_table_always_served 5 (set_table (Some cached) demoRouter) tt cached) as (rc' & w' & t & H1 & H2 & _).
  - reflexivity.
  - exists rc', w', t. split; [exact H1|exact H2].
Defined.
