(* ===== verification/Ops.v ===== *)
(** * internal/transportops: the operations behind the front ends
    ([transportops.go], [transport.go], [relay.go], [identity.go], [mailbox.go],
    [contacts.go])

    An operation runs in a state-and-error monad over the [World]: the transport
    manager, what lies behind the transports, the files, the profiles, the shell's
    session and what was written to the standard output.  What is printed for a
    human goes to the standard error and is left out; the JSON documents are kept.
    A step that is not under the program's control takes its outcome from
    [opEnv]. *)
From S2P Require Import Prelude GoStd Sha256 External SecurePeer Session Engine Client Binstore Records MultiMsg MultiStore Fanout Mailbox Contacts Dispatch FileTransfer.
From S2P Require Import Manager Shell Transport.
#[local] Open Scope Z_scope.

Module Ops.
Import Transport.

(** ** Documents *)
#[warnings="-register-all"]
Inductive json :=
| JStr (s : bytes)
| JNum (z : Z)
| JBool (b : bool)
| JList (l : list json)
| JObj (l : list (bytes * json))
| JEvents (l : list Event)
| JMessages (l : list Mailbox.Message).

Definition jstrs (l : list bytes) : json := JList (JStr <$> l).
Definition field (name : String.string) (v : json) : bytes * json := (str name, v).
Arguments field _%_string_scope _.

(** ** The world *)
Record World (T : Type) := mkWorld {
  w_mgr : Manager.Manager;          (* the transports directory, and what runs *)
  w_open : bool;                    (* [Deps.manager] is set *)
  w_net : T;                        (* the transports and what is behind them *)
  w_disk : fs;                      (* the stores and the user's files *)
  w_clients : gmap bytes Client;    (* the profiles [<id>.json], by ID *)
  w_session : option Shell.Session; (* the live shell session, if any *)
  w_stdout : list json;
}.
Arguments mkWorld {T}. Arguments w_mgr {T}. Arguments w_open {T}. Arguments w_net {T}. Arguments w_disk {T}.
Arguments w_clients {T}. Arguments w_session {T}. Arguments w_stdout {T}.

Inductive op_err :=
| OpManager (e : Manager.mg_err) | OpTransport (e : tr_err) | OpClient (e : client_err) | OpFile (e : ft_err)
| OpMailbox (e : Mailbox.mailbox_err) | OpContacts (e : contact_err) | OpRouter (text : bytes)
| OpOpenManager | OpStdout | OpLoadIdentity | OpNoIdentity | OpNoRelay | OpNoSession | OpAborted | OpPrompt | OpNoSecret | OpEmptySecret
| OpNotInstalled | OpStopped | OpNoThread | OpFormat | OpNotAttached | OpNoMailboxes | OpReadFile | OpWriteFile | OpFrameSize (n : Z)
| OpMailboxHex | OpNoShard | OpRecipient | OpNothing | OpNoRouter | OpBadKey | OpNonce | OpIncomplete | OpReadSecret | OpNoResolve | OpAlias (n : Z)
| OpNoSender | OpNoOut | OpNoFlags | OpTransferHex | OpTicketSecret | OpSecretHex | OpManifestBase64 | OpMissing (highest : Z) (ranges : Z)
| OpChunkHash (i : Z) | OpEncode.

Definition M (T A : Type) : Type := World T -> World T * res op_err A.

#[export] Instance M_ret T : MRet (M T) := fun A a w => (w, Ok a).
#[export] Instance M_bind T : MBind (M T) := fun A B f m w =>
  match m w with
  | (w, Ok a) => f a w
  | (w, Err e) => (w, Err e)
  | (w, Panic) => (w, Panic)
  end.

Section Monad.
Context {T : Type}.

Definition lift {A} (r : res op_err A) : M T A := fun w => (w, r).
Definition fail {A} (e : op_err) : M T A := lift (Err e).
Definition gets {A} (f : World T -> A) : M T A := fun w => (w, Ok (f w)).

(** [if err := ...; err != nil] without leaving the function. *)
Definition attempt {A} (m : M T A) : M T (op_err + A) := fun w =>
  match m w with
  | (w, Ok a) => (w, Ok (inr a))
  | (w, Err e) => (w, Ok (inl e))
  | (w, Panic) => (w, Panic)
  end.

Definition set_mgr (m : Manager.Manager) (w : World T) : World T := mkWorld m (w_open w) (w_net w) (w_disk w) (w_clients w) (w_session w) (w_stdout w).
Definition set_open (b : bool) (w : World T) : World T := mkWorld (w_mgr w) b (w_net w) (w_disk w) (w_clients w) (w_session w) (w_stdout w).
Definition set_net (t : T) (w : World T) : World T := mkWorld (w_mgr w) (w_open w) t (w_disk w) (w_clients w) (w_session w) (w_stdout w).
Definition set_disk (d : fs) (w : World T) : World T := mkWorld (w_mgr w) (w_open w) (w_net w) d (w_clients w) (w_session w) (w_stdout w).
Definition set_clients (c : gmap bytes Client) (w : World T) : World T := mkWorld (w_mgr w) (w_open w) (w_net w) (w_disk w) c (w_session w) (w_stdout w).
Definition set_session (s : option Shell.Session) (w : World T) : World T := mkWorld (w_mgr w) (w_open w) (w_net w) (w_disk w) (w_clients w) s (w_stdout w).
Definition set_stdout (l : list json) (w : World T) : World T := mkWorld (w_mgr w) (w_open w) (w_net w) (w_disk w) (w_clients w) (w_session w) l.

(** Calls into the parts of the world. *)
Definition netCall {A} (f : T -> T * res tr_err A) : M T A := fun w => let '(t, r) := f (w_net w) in (set_net t w, wrapErr OpTransport r).
Definition onManager {A} (f : Manager.Manager -> Manager.Manager * res Manager.mg_err A) : M T A := fun w =>
  let '(m, r) := f (w_mgr w) in (set_mgr m w, wrapErr OpManager r).
Definition onDisk {E A} (wrap : E -> op_err) (f : fs -> fs * res E A) : M T A := fun w =>
  let '(d, r) := f (w_disk w) in (set_disk d w, wrapErr wrap r).

(** [if d.Session != nil { ... }] *)
Definition onSession (f : Shell.Session -> Shell.Session) : M T unit := fun w => (set_session (f <$> w_session w) w, Ok tt).

(** A call on a loaded client: what it saved is in its profile, also when it fails. *)
Definition onClient {E A} (wrap : E -> op_err) (f : Client -> Client * res E A) (cl : Client) : M T (Client * A) := fun w =>
  let '(cl, r) := f cl in
  (set_clients (<[cl_Id cl := cl]> (w_clients w)) w, a ← wrapErr wrap r; Ok (cl, a)).

Definition SaveClient_ (io : bool) (cl : Client) : M T Client :=
  '(cl, _) ← onClient OpClient (fun c => (SaveClient io c, Ok tt)) cl; mret cl.

End Monad.

(** ** What an operation gets from outside *)
Inductive written := Written | NotOpened | Truncated (rest : bytes).

Record opEnv := mkOpEnv {
  oe_open : bool;                          (* [NewManager] succeeds *)
  oe_manager : nat -> Manager.env;         (* the calls of the manager *)
  oe_list : bool;                          (* reading the transports directory succeeds *)
  oe_stdout : bool;                        (* writing to the standard output succeeds *)
  oe_save : nat -> bool;                   (* writing the profile succeeds *)
  oe_write : written;                      (* writing the received file *)
  oe_rand : bytes;                         (* key material of [Encrypt] *)
  oe_ed : bytes; oe_dil : bytes;           (* a new identity's keys *)
  oe_peer : PeerRand; oe_offer : bytes;    (* an offer's keys and ID *)
  oe_nonce : option bytes; oe_now : Z;     (* a registration's nonce, the clock *)
  oe_contacts : faults; oe_order : Contacts.Store -> list (bytes * Contact);
  oe_mailbox : storeIO; oe_contexts : storeIO; oe_deliveries : storeIO;
  oe_frames : nat -> nat -> dispatchEnv;   (* the frame j of the mailbox i *)
  oe_latency : Z;
}.

(** [encoding/json], [archive/zip], [strings] outside ASCII, and the texts of errors. *)
Class Surroundings := {
  ex_unzip : bytes -> option (list Manager.zipEntry);
  ex_manifest : bytes -> option Manager.Manifest;
  ex_object : bytes -> bool;
  ex_strings : bytes -> option (gmap bytes bytes);
  ex_contacts : bytes -> option Contacts.Store;
  ex_threads : bytes -> option (list Mailbox.Thread);
  ex_contexts : bytes -> option (list MessageContext);
  ex_policies : bytes -> option (list LocalRecipientPolicy);
  ex_deliveries : bytes -> option (list MessageDelivery);
  ex_uni : bytes -> bytes;
  ex_dpText : dp_err -> bytes;
  ex_trText : op_err -> bytes;
}.

(** ** transportops.go *)
Record Deps := mkDeps {
  dp_JSON : bool; dp_ShowSecrets : bool;
  dp_PromptSecret : option (option bytes);  (* not wired, or what it returns *)
  dp_Confirm : option (option bool);
}.

Definition shortHex (s : bytes) : bytes := if len s <=? 12 then s else take 6 s ++ str "..." ++ drop (length s - 4) s.

Definition Redacted : bytes := str "********".

(** [shellcmd.Secret] *)
Definition Secret (d : Deps) (v : bytes) : bytes := if dp_ShowSecrets d then v else if bytes_eqb v [] then [] else Redacted.

Definition ConfirmOr (d : Deps) : res op_err bool :=
  match dp_Confirm d with None => Ok true | Some None => Err OpPrompt | Some (Some b) => Ok b end.

Definition confirmed (d : Deps) : res op_err unit := ok ← ConfirmOr d; check (negb ok) OpAborted.

Definition SecretOr (d : Deps) (flagValue : bytes) : res op_err bytes :=
  if negb (bytes_eqb flagValue []) then Ok flagValue else
  match dp_PromptSecret d with
  | None => Err OpNoSecret
  | Some None => Err OpPrompt
  | Some (Some v) => if bytes_eqb v [] then Err OpEmptySecret else Ok v
  end.

Section Ops.
Context `{N : Nanopack} `{P : Prims} `{R : RecordStore} `{X : Surroundings} {T : Type}.
Context (env : opEnv) (d : Deps).

Definition JSONOut (v : json) : M T unit := fun w => if oe_stdout env then (set_stdout (w_stdout w ++ [v]) w, Ok tt) else (w, Err OpStdout).

(** A document in JSON mode, else lines for a human. *)
Definition report (v : json) : M T unit := if dp_JSON d then JSONOut v else mret tt.

(** [Deps.Manager]: a manager opened anew has nothing running. *)
Definition OpenManager : M T unit := fun w =>
  if w_open w then (w, Ok tt) else
  if oe_open env then
    (set_open true (set_mgr (Manager.NewManager (Manager.mn_dir (w_mgr w)) (Manager.mn_fs (w_mgr w)) (Manager.mn_saved (w_mgr w))) w), Ok tt)
  else (w, Err OpOpenManager).

Definition LoadProfile (id : bytes) : M T Client := fun w =>
  (w, ofOption OpLoadIdentity (c ← w_clients w !! id; LoadClient c)).

Definition sessionIdentity (w : World T) : bytes := match w_session w with Some s => Shell.se_Identity s | None => [] end.
Definition sessionRelay (w : World T) : bytes := match w_session w with Some s => Shell.se_Relay s | None => [] end.

Definition set_Identity (id : bytes) (s : Shell.Session) : Shell.Session :=
  Shell.mkSession id (Shell.se_Relay s) (Shell.se_TransportsDir s) (Shell.se_Aliases s) (Shell.se_History s) (Shell.se_JSON s)
    (Shell.se_ShowSecrets s) (Shell.se_Transfers s) (Shell.se_Interactive s) (Shell.se_Peers s) (Shell.se_PeerMailboxes s).

Definition identityOr (id : bytes) : M T bytes :=
  dflt ← gets sessionIdentity;
  let id := if bytes_eqb id [] then dflt else id in
  if bytes_eqb id [] then fail OpNoIdentity else mret id.

(** ** transport.go *)
Record TransportInfo := mkInfo {
  ti_ID : bytes; ti_Enabled : bool; ti_Running : bool; ti_Version : bytes; ti_APIVersion : bytes; ti_Capabilities : list bytes; ti_Permissions : list bytes }.

Definition toInfo (i : Manager.Installed) : TransportInfo :=
  let mf := Manager.in_Manifest i in
  mkInfo (Manager.mf_ID mf) (Manager.in_Enabled i) (Manager.in_Running i) (Manager.mf_Version mf) (Manager.mf_APIVersion mf)
    (Manager.mf_Capabilities mf) (Manager.mf_Permissions mf).

Definition infoJSON (t : TransportInfo) : json :=
  JObj [field "id" (JStr (ti_ID t)); field "enabled" (JBool (ti_Enabled t)); field "running" (JBool (ti_Running t));
        field "version" (JStr (ti_Version t)); field "api_version" (JStr (ti_APIVersion t));
        field "capabilities" (jstrs (ti_Capabilities t)); field "permissions" (jstrs (ti_Permissions t))].

Definition listInstalled : M T (list Manager.Installed) :=
  r ← gets (fun w => Manager.List_ ex_manifest (oe_list env) (w_mgr w)); lift (wrapErr OpManager r).

Definition List_ : M T (list TransportInfo) :=
  _ ← OpenManager;
  inst ← listInstalled;
  let out := sortBy ti_ID (toInfo <$> inst) in
  _ ← report (JObj [field "transports" (JList (infoJSON <$> out))]);
  mret out.

Definition Install (path : bytes) (enable : bool) : M T unit :=
  _ ← OpenManager;
  pkg ← gets (fun w => w_disk w !! path);
  pkg ← lift (ofOption (OpManager Manager.MgZip) pkg);
  mf ← onManager (fun m => Manager.Install ex_unzip ex_manifest (oe_manager env 0) m pkg enable);
  report (JObj [field "id" (JStr (Manager.mf_ID mf)); field "version" (JStr (Manager.mf_Version mf)); field "enabled" (JBool enable)]).

Definition Remove (id : bytes) : M T unit :=
  _ ← lift (confirmed d);
  _ ← OpenManager;
  _ ← onManager (fun m => Manager.Remove (oe_manager env 0) m id);
  report (JObj [field "removed" (JStr id)]).

Definition Enable (id : bytes) : M T unit :=
  _ ← OpenManager;
  _ ← onManager (fun m => Manager.Enable (oe_manager env 0) m id);
  report (JObj [field "enabled" (JStr id)]).

Definition Disable (id : bytes) : M T unit :=
  _ ← OpenManager;
  _ ← onManager (fun m => Manager.Disable (oe_manager env 0) m id);
  report (JObj [field "disabled" (JStr id)]).

Definition Status_ (id : bytes) : M T unit :=
  _ ← OpenManager;
  list ← listInstalled;
  if negb (bytes_eqb id []) then
    match List.find (fun i => bytes_eqb (Manager.mf_ID (Manager.in_Manifest i)) id) list with
    | None => fail OpNotInstalled
    | Some i => report (infoJSON (toInfo i))
    end
  else
    running ← gets (fun w => bytes_sort (map_to_list (Manager.Running (w_mgr w))).*1);
    report (JObj [field "running" (jstrs running)]).

Definition SetConfig (id configJSON : bytes) : M T unit :=
  _ ← OpenManager;
  _ ← onManager (fun m => Manager.SetConfig ex_object (oe_manager env 0) m id configJSON);
  report (JObj [field "config_stored" (JStr id)]).

(** ** relay.go *)
Record RelayListEntry := mkRelay { rl_ID : bytes; rl_Enabled : bool; rl_Running : bool }.

Definition relayEntry (i : Manager.Installed) : option RelayListEntry :=
  if Manager.HasCapability (Manager.in_Manifest i) (str "message")
  then Some (mkRelay (Manager.mf_ID (Manager.in_Manifest i)) (Manager.in_Enabled i) (Manager.in_Running i)) else None.

Definition relayJSON (r : RelayListEntry) : json :=
  JObj [field "id" (JStr (rl_ID r)); field "enabled" (JBool (rl_Enabled r)); field "running" (JBool (rl_Running r))].

Definition RelayList : M T (list RelayListEntry) :=
  _ ← OpenManager;
  inst ← listInstalled;
  let out := sortBy rl_ID (omap relayEntry inst) in
  _ ← report (JObj [field "relays" (JList (relayJSON <$> out))]);
  mret out.

(** The transports the manager runs, as the core sees them: their methods, what
    they can, and what starting one does to the outside. *)
Context (frames : Manager.Live -> FrameTransport T) (files : Manager.Live -> FileTransport T) (boot : Manager.Live -> T -> T).

Definition EnsureRunning (k : nat) (id : bytes) : M T Manager.Live := fun w =>
  let before := Manager.mn_live (w_mgr w) !! id in
  let '(m, r) := Manager.EnsureRunning ex_manifest ex_uni (oe_manager env k) (w_mgr w) id in
  let w := set_mgr m w in
  match r, before with
  | Ok tr, None => (set_net (boot tr (w_net w)) w, Ok tr)
  | _, _ => (w, wrapErr OpManager r)
  end.

Definition trStatus (tr : Manager.Live) : M T (bool * bytes) := netCall (@ft_Status T (frames tr)).
Definition trSendFrame (tr : Manager.Live) (frame : bytes) (to : RouteHint) : M T unit := netCall (fun t => @ft_SendFrame T (frames tr) t frame to).

Definition RelayPing (id : bytes) : M T unit :=
  _ ← OpenManager;
  tr ← EnsureRunning 0 id;
  '(running, detail) ← trStatus tr;
  if dp_JSON d then
    JSONOut (JObj [field "id" (JStr id); field "running" (JBool running); field "detail" (JStr detail); field "latency_ms" (JNum (oe_latency env))])
  else if negb running then fail OpStopped else mret tt.

Definition RelayInfo (id : bytes) : M T unit :=
  _ ← OpenManager;
  list ← listInstalled;
  match List.find (fun i => bytes_eqb (Manager.mf_ID (Manager.in_Manifest i)) id) list with
  | None => fail OpNotInstalled
  | Some i =>
      atts ← gets (fun w => Manager.Attachments (w_mgr w) id);
      let mf := Manager.in_Manifest i in
      report (JObj [field "id" (JStr (Manager.mf_ID mf)); field "name" (JStr (Manager.mf_Name mf)); field "version" (JStr (Manager.mf_Version mf));
        field "api_version" (JStr (Manager.mf_APIVersion mf)); field "enabled" (JBool (Manager.in_Enabled i)); field "running" (JBool (Manager.in_Running i));
        field "capabilities" (jstrs (Manager.mf_Capabilities mf)); field "permissions" (jstrs (Manager.mf_Permissions mf));
        field "mailboxes_attached" (JNum (len atts))])
  end.

(** ** identity.go *)
Definition IdentityInit : M T unit :=
  let cl := NewClient (oe_save env 0) (oe_ed env) (oe_dil env) in
  '(cl, _) ← onClient OpClient (fun c => (c, Ok tt)) cl;
  _ ← onSession (set_Identity (cl_Id cl));
  report (JObj [field "id" (JStr (cl_Id cl))]).

Definition IdentityLoad (id : bytes) : M T unit :=
  cl ← LoadProfile id;
  _ ← onSession (set_Identity (cl_Id cl));
  report (JObj [field "id" (JStr (cl_Id cl)); field "sessions" (JNum (Z.of_nat (size (cl_Sessions cl))))]).

(** [filepath.Glob("*.json")]: the profiles, and the stores' files of that name. *)
Definition localNames (w : World T) : list bytes :=
  elements (list_to_set ((fun c => c.1 ++ str ".json") <$> map_to_list (filter (fun c => cl_disk c.2 ≠ None) (w_clients w))) ∪
            list_to_set (List.filter (fun p => hasSuffix (str ".json") p && negb (bool_decide (x2f ∈ p)))%bool (map_to_list (w_disk w)).*1) : gset bytes).

Definition IdentityList : M T (list bytes) :=
  names ← gets localNames;
  let ids := bytes_sort (List.filter (fun id => negb (bytes_eqb id (str "contacts"))) (trimSuffix (str ".json") <$> names)) in
  _ ← report (JObj [field "identities" (jstrs ids)]);
  mret ids.

Definition IdentityUse (id : bytes) : M T unit :=
  _ ← LoadProfile id;
  _ ← onSession (set_Identity id);
  report (JObj [field "identity" (JStr id)]).

Definition IdentityInfo : M T unit :=
  id ← gets sessionIdentity;
  if bytes_eqb id [] then fail OpNoIdentity else
  cl ← LoadProfile id;
  report (JObj [field "id" (JStr (cl_Id cl)); field "sessions" (JNum (Z.of_nat (size (cl_Sessions cl))))]).

(** ** mailbox.go *)
Definition loadMailbox (id : bytes) : M T Mailbox.Store := fun w =>
  match Mailbox.Load ex_threads (oe_mailbox env) id (w_disk w) with
  | Ok st => (set_disk (Mailbox.disk st) w, Ok st)
  | Err e => (w, Err (OpMailbox e))
  | Panic => (w, Panic)
  end.

Definition threadRow (t : Mailbox.Thread) : json :=
  JObj [field "key" (JStr (Mailbox.t_Key t)); field "title" (JStr (Mailbox.t_Title t)); field "messages" (JNum (len (Mailbox.t_Messages t)))].

Definition MailboxList (identity : bytes) : M T unit :=
  identity ← identityOr identity;
  st ← loadMailbox identity;
  report (JObj [field "threads" (JList (threadRow <$> Mailbox.List_ (oe_mailbox env) st))]).

Definition named (thread : bytes) (t : Mailbox.Thread) : bool :=
  (bytes_eqb (Mailbox.t_Key t) thread || bytes_eqb (Mailbox.t_Title t) thread
   || hasPrefix thread (Mailbox.t_Key t) || hasPrefix thread (Mailbox.t_Title t))%bool.

Definition MailboxRead (identity thread : bytes) : M T Mailbox.Thread :=
  identity ← identityOr identity;
  st ← loadMailbox identity;
  match List.find (named thread) (Mailbox.List_ (oe_mailbox env) st) with
  | None => fail OpNoThread
  | Some t =>
      _ ← report (JObj [field "thread" (JStr (Mailbox.t_Key t)); field "messages" (JMessages (Mailbox.t_Messages t))]);
      mret t
  end.

(** ** contacts.go *)
Definition loadContacts : M T Contacts.Store := onDisk OpContacts (Contacts.Load ex_contacts (oe_contacts env) (oe_order env)).

(** Load, change, save. *)
Definition editContacts (f : Contacts.Store -> Contacts.Store * res contact_err unit) : M T unit :=
  s ← loadContacts;
  let '(s, r) := f s in
  _ ← lift (wrapErr OpContacts r);
  onDisk OpContacts (Contacts.Save (oe_contacts env) (oe_order env s) s).

Definition ContactAdd (name userID : bytes) : M T unit :=
  _ ← editContacts (fun s => Contacts.Add s name userID);
  report (JObj [field "added" (JStr name); field "user_id" (JStr userID)]).

Definition ContactRemove (name : bytes) : M T unit :=
  _ ← lift (confirmed d);
  _ ← editContacts (fun s => Contacts.Remove s name);
  report (JObj [field "removed" (JStr name)]).

Definition ContactRename (oldName newName : bytes) : M T unit :=
  _ ← editContacts (fun s => Contacts.Rename s oldName newName);
  report (JObj [field "renamed" (JStr oldName); field "to" (JStr newName)]).

Definition ContactNote (name note : bytes) : M T unit :=
  _ ← editContacts (fun s => Contacts.SetNote s name note);
  report (JObj [field "noted" (JStr name)]).

Definition contactRow (name : bytes) (c : Contact) : json :=
  JObj [field "name" (JStr name); field "user_id" (JStr (c_UserID c)); field "note" (JStr (c_Note c))].

Definition ContactInfo (name : bytes) : M T unit :=
  s ← loadContacts;
  c ← lift (wrapErr OpContacts (Contacts.Get s name));
  report (contactRow name c).

Definition ContactList : M T unit :=
  s ← loadContacts;
  let names := bytes_sort (map_to_list s).*1 in
  report (JObj [field "contacts" (JList ((fun name => contactRow name (default (mkContact [] [] []) (s !! name))) <$> names))]).

End Ops.
End Ops.
