(* ===== verification/OpsFrames.v ===== *)
(** * internal/transportops: frames, messages and registration
    ([frames.go], [messaging.go], [register.go]; [OpenDeps] of
    [internal/dispatch/dispatch.go])

    Polling composes the manager, a transport and the receive path: what the
    receive path sends in reply goes out over the same transport, and the outcome
    of that sending decides what it reports. *)
From S2P Require Import Prelude GoStd Sha256 External SecurePeer Session Engine Client Frame Binstore Records MultiMsg MultiStore Fanout Mailbox Contacts Dispatch FileTransfer.
From S2P Require Import Rpc Manager Shell Transport Worker Ops.
#[local] Open Scope Z_scope.

(** ** A store of either kind *)
#[export] Instance sum_contexts {A B : Type} `{ContextStore A} `{ContextStore B} : ContextStore (A + B) := {|
  SaveContext io s c := match s with inl a => let '(a, r) := SaveContext io a c in (inl a, r) | inr b => let '(b, r) := SaveContext io b c in (inr b, r) end;
  LoadContext s c := match s with inl a => LoadContext a c | inr b => LoadContext b c end;
  ListContexts io s := match s with inl a => ListContexts io a | inr b => ListContexts io b end;
  DeleteContext io s c := match s with inl a => let '(a, r) := DeleteContext io a c in (inl a, r) | inr b => let '(b, r) := DeleteContext io b c in (inr b, r) end;
  SavePolicy io s p := match s with inl a => let '(a, r) := SavePolicy io a p in (inl a, r) | inr b => let '(b, r) := SavePolicy io b p in (inr b, r) end;
  LoadPolicy s c q := match s with inl a => LoadPolicy a c q | inr b => LoadPolicy b c q end;
  ListPolicies io s c := match s with inl a => ListPolicies io a c | inr b => ListPolicies io b c end;
  DeletePolicy io s c q := match s with inl a => let '(a, r) := DeletePolicy io a c q in (inl a, r) | inr b => let '(b, r) := DeletePolicy io b c q in (inr b, r) end |}.

#[export] Instance sum_deliveries {A B : Type} `{DeliveryStore A} `{DeliveryStore B} : DeliveryStore (A + B) := {|
  ds_SaveDelivery io s x := match s with inl a => let '(a, r) := ds_SaveDelivery io a x in (inl a, r) | inr b => let '(b, r) := ds_SaveDelivery io b x in (inr b, r) end;
  ds_MarkDelivered io s x := match s with inl a => let '(a, r) := ds_MarkDelivered io a x in (inl a, r) | inr b => let '(b, r) := ds_MarkDelivered io b x in (inr b, r) end;
  ds_ListUndelivered io s := match s with inl a => ds_ListUndelivered io a | inr b => ds_ListUndelivered io b end |}.

Module Frames.
Import Rpc Transport Ops.

Abbreviation contexts := (Memory.MemoryContextStore + File.FileContextStore)%type.
Abbreviation deliveries := (deliveries_t + FileDeliveryStore)%type.
Abbreviation deps := (Dispatch.Deps contexts deliveries).

(** [hex.DecodeString] with its error dropped: the bytes before the first bad pair. *)
Fixpoint hexPrefix (l : bytes) : bytes :=
  match l with
  | a :: b :: l => match hexval a, hexval b with Some x, Some y => byteZ (16 * x + y) :: hexPrefix l | _, _ => [] end
  | _ => []
  end.

(** The stores of the receive path each see the disk; [patch] brings what one of
    them changed since [base] to the common one. *)
Definition patch (base new cur : fs) : fs :=
  filter (fun kv => base !! kv.1 ≠ Some kv.2) new ∪ filter (fun kv => base !! kv.1 = None \/ is_Some (new !! kv.1)) cur.

Definition set_storeDisk (b : fs) (s : Mailbox.Store) : Mailbox.Store := Mailbox.mkStore (Mailbox.file s) (Mailbox.threads s) b.
Definition set_deliveriesDisk (b : fs) (s : FileDeliveryStore) : FileDeliveryStore := mkDeliveryStore (fd_file s) (fd_maps s) b.

Definition withSend (o : option bool) (e : dispatchEnv) : dispatchEnv :=
  mkDispatchEnv (de_save e) (de_rand e) (de_encaps e) o (de_io e) (de_mbio e) (de_nanos e) (de_millis e).

(** ** Parameters *)
Record AttachParams := mkAttachParams { ap_TransportID : bytes; ap_MailboxID : bytes; ap_ReadSecret : bytes; ap_ShardURL : bytes; ap_RouterURL : bytes }.
Record PollParams := mkPollParams { pp_TransportID : bytes; pp_Identity : bytes; pp_Mailbox : bytes; pp_Limit : Z; pp_Format : bytes }.
Record SendFrameParams := mkSendFrameParams { sp_TransportID : bytes; sp_Peer : bytes; sp_MailboxID : bytes; sp_ShardURL : bytes; sp_File : bytes }.
Record MessageSendParams := mkMessageParams {
  mp_TransportID : bytes; mp_Identity : bytes; mp_Peer : bytes; mp_Text : bytes; mp_TicketB64 : bytes; mp_MailboxID : bytes; mp_ShardURL : bytes }.
Record PeerConnectParams := mkConnectParams { cp_TransportID : bytes; cp_Identity : bytes; cp_Peer : bytes; cp_MailboxID : bytes; cp_ShardURL : bytes }.
Record PeerRecordParams := mkRecordParams { rp_Peer : bytes; rp_MailboxID : bytes; rp_ShardURL : bytes }.

Section Frames.
Context `{N : Nanopack} `{P : Prims} `{J : LegacyJSON} `{R : RecordStore} `{X : Surroundings} {T : Type}.
Context (frames : Manager.Live -> FrameTransport T) (files : Manager.Live -> FileTransport T) (boot : Manager.Live -> T -> T).
Context (env : opEnv) (d : Ops.Deps).

Definition resolveRecipient (s : bytes) : res op_err bytes :=
  let s := trimSpace s in
  match (if len s =? 64 then hexDecode s else None) with
  | Some raw => Ok raw
  | None => wrapErr (fun _ => OpRecipient) (PeerIDToEd25519Pub s)
  end.

Definition trAttach (tr : Manager.Live) (mid sec shard router : bytes) : M T unit := netCall (fun t => @ft_AttachMailbox T (frames tr) t mid sec shard router).
Definition trPoll (tr : Manager.Live) (limit : Z) (mid : bytes) : M T (list bytes) := netCall (fun t => @ft_PollFrames T (frames tr) t limit mid).

(** [ntx.RequiresFile] *)
Definition requireFile (tr : Manager.Live) : M T unit := r ← gets (fun w => @RequiresFile T (files tr) (w_net w)); lift (wrapErr OpTransport r).

Definition AddAttachment (k : nat) (id : bytes) (a : Manager.Attachment) : M T unit := onManager (fun m => Manager.AddAttachment (oe_manager env k) m id a).

(** ** frames.go: attaching *)
Definition Attach (p : AttachParams) : M T unit :=
  secret ← lift (SecretOr d (ap_ReadSecret p));
  _ ← OpenManager env;
  owner ← gets sessionIdentity;
  _ ← AddAttachment 0 (ap_TransportID p) (Manager.mkAttachment (ap_MailboxID p) secret (ap_ShardURL p) (ap_RouterURL p) owner);
  report env d (JObj [field "attached" (JStr (shortHex (ap_MailboxID p))); field "transport" (JStr (ap_TransportID p))]).

Definition Detach (transportID mailboxID : bytes) : M T unit :=
  _ ← lift (confirmed d);
  _ ← OpenManager env;
  _ ← onManager (fun m => Manager.RemoveAttachment (oe_manager env 0) m transportID mailboxID);
  report env d (JObj [field "detached" (JStr (shortHex mailboxID)); field "transport" (JStr transportID)]).

(** ** messaging.go: addresses *)
Definition peerAddrFor (s : option Shell.Session) (pub : bytes) : option Shell.PeerAddr :=
  match s with
  | None => None
  | Some s =>
      if bytes_eqb pub [] then None else
      match Shell.se_PeerMailboxes s !! toLower ex_uni (hexEncode pub) with
      | Some addr => if (bytes_eqb (Shell.pa_MailboxID addr) [] || bytes_eqb (Shell.pa_ShardURL addr) [])%bool then None else Some addr
      | None => None
      end
  end.

(** An address given in full: a mailbox needs its shard. *)
Definition explicitHint (mailboxID shardURL senderHint : bytes) : res op_err RouteHint :=
  match hexDecode mailboxID with
  | None => Err OpMailboxHex
  | Some mbox =>
      if negb (len mbox =? 16) then Err OpMailboxHex else
      if bytes_eqb shardURL [] then Err OpNoShard else Ok (mkRoute [] senderHint mbox shardURL)
  end.

(** The recorded address of a peer, else its key. *)
Definition knownHint (s : option Shell.Session) (pub senderHint : bytes) : RouteHint :=
  match peerAddrFor s pub with
  | Some addr => mkRoute [] senderHint (hexPrefix (Shell.pa_MailboxID addr)) (Shell.pa_ShardURL addr)
  | None => mkRoute pub senderHint [] []
  end.

(** ** dispatch.go: [OpenDeps] *)
Definition OpenDeps (cl : Client) : M T deps := fun w =>
  match Mailbox.Load ex_threads (oe_mailbox env) (cl_Id cl) (w_disk w) with
  | Panic => (w, Panic)
  | ml =>
      let mb := match ml with Ok st => Some st | _ => None end in
      let w := match mb with Some st => set_disk (Mailbox.disk st) w | None => w end in
      match OpenIdentityStores ex_contexts ex_policies ex_deliveries (oe_contexts env) (oe_deliveries env) (cl_Id cl) (w_disk w) with
      | Panic => (w, Panic)
      | Ok (cs, ds) =>
          let w := set_disk (fd_disk ds) w in
          let b := w_disk w in
          (w, Ok (Dispatch.mkDeps (NewFanout cl (inr (File.set_disk b cs) : contexts) (inr (set_deliveriesDisk b ds) : deliveries) DefaultFanoutConfig) true
                    (set_storeDisk b <$> mb)))
      | Err _ =>
          (w, Ok (Dispatch.mkDeps (NewFanout cl (inl Memory.NewMemoryContextStore : contexts) (inl noDeliveries : deliveries) DefaultFanoutConfig) true mb))
      end
  end.

(** The disk when the receive path is done with it. *)
Definition settle (dd : deps) (base : fs) : fs :=
  let cur := match dp_mailbox dd with Some st => Mailbox.disk st | None => base end in
  let cur := match CtxStore (dp_fanout dd) with inr s => patch base (File.disk s) cur | inl _ => cur end in
  match fo_deliveryStore (dp_fanout dd) with inr s => patch base (fd_disk s) cur | inl _ => cur end.

(** ** frames.go: polling *)

(** The mailboxes a poll asks for. *)
Definition foreign (identity : bytes) (a : Manager.Attachment) : bool :=
  (negb (bytes_eqb (Manager.at_Owner a) []) && negb (bytes_eqb (Manager.at_Owner a) identity))%bool.

Definition selectMailboxes (identity mailbox : bytes) (atts : list Manager.Attachment) : res op_err (list Manager.Attachment) :=
  if negb (bytes_eqb mailbox []) then
    match List.find (fun a => bytes_eqb (Manager.at_MailboxID a) mailbox) atts with
    | Some a => Ok [a]
    | None => Err OpNotAttached
    end
  else
    let atts :=
      if negb (bytes_eqb identity []) && existsb (fun a => negb (bytes_eqb (Manager.at_Owner a) [])) atts then
        match List.filter (fun a => negb (foreign identity a)) atts with [] => atts | filtered => filtered end
      else atts in
    if bool_decide (atts = []) then Err OpNoMailboxes else Ok atts.

(** The callback the receive path replies with. *)
Definition sendReply (tr : Manager.Live) (self : bytes) (r : reply) : M T unit :=
  let '(recipientPub, t, payload) := r in
  s ← gets w_session;
  trSendFrame frames tr (WrapFrame t payload) (knownHint s recipientPub self).

Fixpoint sendReplies (tr : Manager.Live) (self : bytes) (l : list reply) : M T bool :=
  match l with
  | [] => mret true
  | r :: l => x ← attempt (sendReply tr self r); match x with inl _ => mret false | inr _ => sendReplies tr self l end
  end.

(** One frame: what is to be sent does not depend on whether it can be. *)
Definition dispatchFrame (tr : Manager.Live) (self : bytes) (e : dispatchEnv) (dd : deps) (f : bytes) : M T (deps * list Event) :=
  let '(_, replies, _) := DispatchFrame (withSend (Some true) e) dd f in
  ok ← sendReplies tr self replies;
  let '(dd, _, r) := DispatchFrame (withSend (Some ok) e) dd f in
  match r with
  | Panic => lift Panic
  | Err e => mret (dd, [errorEvent ex_dpText e])
  | Ok None => mret (dd, [])
  | Ok (Some ev) => mret (dd, [ev])
  end.

Fixpoint dispatchFrames (tr : Manager.Live) (self : bytes) (i j : nat) (dd : deps) (l : list bytes) : M T (deps * list Event) :=
  match l with
  | [] => mret (dd, [])
  | f :: l =>
      '(dd, evs) ← dispatchFrame tr self (oe_frames env i j) dd f;
      '(dd, more) ← dispatchFrames tr self i (S j) dd l;
      mret (dd, evs ++ more)
  end.

Definition pollError (e : bytes) : Event := mkEvent (str "error") [] [] [] e [] [] [] [] [].

Definition pollMailbox (tr : Manager.Live) (self : bytes) (limit : Z) (i : nat) (a : Manager.Attachment) (dd : deps) : M T (deps * list Event) :=
  let mid := hexPrefix (Manager.at_MailboxID a) in
  x ← attempt (trAttach tr mid (hexPrefix (Manager.at_ReadSecret a)) (Manager.at_ShardURL a) (Manager.at_RouterURL a));
  match x with
  | inl e => mret (dd, [pollError (str "attach " ++ shortHex (Manager.at_MailboxID a) ++ str ": " ++ ex_trText e)])
  | inr _ =>
      y ← attempt (trPoll tr limit mid);
      match y with
      | inl e => mret (dd, [pollError (ex_trText e)])
      | inr l => dispatchFrames tr self i 0 dd l
      end
  end.

Fixpoint pollAll (tr : Manager.Live) (self : bytes) (limit : Z) (i : nat) (atts : list Manager.Attachment) (dd : deps) : M T (deps * list Event) :=
  match atts with
  | [] => mret (dd, [])
  | a :: atts =>
      '(dd, evs) ← pollMailbox tr self limit i a dd;
      '(dd, more) ← pollAll tr self limit (S i) atts dd;
      mret (dd, evs ++ more)
  end.

Definition rememberEvent (s : Shell.Session) (e : Event) : Shell.Session := Shell.RememberPeer (ev_Peer e) (Shell.RememberPeer (ev_Sender e) s).

Definition formatOK (f : bytes) : bool := (bytes_eqb f [] || bytes_eqb f (str "human") || bytes_eqb f (str "json"))%bool.

Definition Poll (p : PollParams) : M T (list Event) :=
  if negb (formatOK (pp_Format p)) then fail OpFormat else
  identity ← identityOr (pp_Identity p);
  _ ← OpenManager env;
  tr ← EnsureRunning env boot 0 (pp_TransportID p);
  cl ← LoadProfile identity;
  atts ← gets (fun w => Manager.Attachments (w_mgr w) (pp_TransportID p));
  atts ← lift (selectMailboxes identity (pp_Mailbox p) atts);
  let limit := if ((pp_Limit p <=? 0) || (32 <? pp_Limit p))%bool then 32 else pp_Limit p in
  dd ← OpenDeps cl;
  base ← gets w_disk;
  '(dd, events) ← pollAll tr (cl_IdentityPublic cl) limit 0 atts dd;
  _ ← (fun w => (set_disk (settle dd base) w, Ok tt));
  _ ← SaveClient_ (oe_save env 0) (dp_client dd);
  _ ← onSession (fun s => fold_left rememberEvent events s);
  _ ← (if (dp_JSON d || bytes_eqb (pp_Format p) (str "json"))%bool then JSONOut env (JObj [field "events" (JEvents events)]) else mret tt);
  mret events.

(** ** frames.go: a frame from a file *)
Definition SendFrame (p : SendFrameParams) : M T unit :=
  _ ← OpenManager env;
  raw ← gets (fun w => w_disk w !! sp_File p);
  raw ← lift (ofOption OpReadFile raw);
  if ((len raw <? 2) || (40960 <? len raw))%bool then fail (OpFrameSize (len raw)) else
  hint ← lift (if negb (bytes_eqb (sp_MailboxID p) []) then explicitHint (sp_MailboxID p) (sp_ShardURL p) []
               else pub ← resolveRecipient (sp_Peer p); Ok (mkRoute pub [] [] []));
  tr ← EnsureRunning env boot 0 (sp_TransportID p);
  _ ← trSendFrame frames tr raw hint;
  report env d (JObj [field "delivered" (JBool true); field "bytes" (JNum (len raw))]).

(** ** messaging.go *)
Definition relayOr (id : bytes) : M T bytes :=
  dflt ← gets sessionRelay;
  let id := if bytes_eqb id [] then dflt else id in
  if bytes_eqb id [] then fail OpNoRelay else mret id.

Definition messageBody (text ticket : bytes) : bytes :=
  if bytes_eqb ticket [] then text else (if bytes_eqb text [] then [] else text ++ [x0a]) ++ ticket.

(** The address of a message: the explicit one, the recorded one, the key. *)
Definition messageHint (mailboxID shardURL pub self : bytes) : M T RouteHint :=
  s ← gets w_session;
  lift (if negb (bytes_eqb mailboxID []) then explicitHint mailboxID shardURL self else Ok (knownHint s pub self)).

Definition MessageSend (p : MessageSendParams) : M T unit :=
  transportID ← relayOr (mp_TransportID p);
  identity ← identityOr (mp_Identity p);
  if (bytes_eqb (mp_Text p) [] && bytes_eqb (mp_TicketB64 p) [])%bool then fail OpNothing else
  cl ← LoadProfile identity;
  '(cl, cipher) ← onClient OpClient (fun c => Client_Encrypt (oe_save env 0) (oe_rand env) c (mp_Peer p) (messageBody (mp_Text p) (mp_TicketB64 p))) cl;
  cl ← SaveClient_ (oe_save env 1) cl;
  pub ← lift (resolveRecipient (mp_Peer p));
  hint ← messageHint (mp_MailboxID p) (mp_ShardURL p) pub (cl_IdentityPublic cl);
  _ ← OpenManager env;
  tr ← EnsureRunning env boot 0 transportID;
  _ ← trSendFrame frames tr (WrapFrame TypeMessage cipher) hint;
  _ ← onSession (Shell.RememberPeer (mp_Peer p));
  report env d (JObj [field "sent" (JBool true); field "to" (JStr (mp_Peer p)); field "ticket" (JBool (negb (bytes_eqb (mp_TicketB64 p) [])))]).

Definition PeerConnect (p : PeerConnectParams) : M T unit :=
  transportID ← relayOr (cp_TransportID p);
  identity ← identityOr (cp_Identity p);
  cl ← LoadProfile identity;
  '(cl, offer) ← onClient OpClient (fun c => Client_CreateOffer (oe_save env 0) (oe_peer env) (oe_offer env) c (cp_Peer p)) cl;
  cl ← SaveClient_ (oe_save env 1) cl;
  pub ← lift (resolveRecipient (cp_Peer p));
  hint ← messageHint (cp_MailboxID p) (cp_ShardURL p) pub (cl_IdentityPublic cl);
  _ ← OpenManager env;
  tr ← EnsureRunning env boot 0 transportID;
  _ ← trSendFrame frames tr (WrapFrame TypeOffer offer) hint;
  _ ← onSession (Shell.RememberPeer (cp_Peer p));
  report env d (JObj [field "offer_sent" (JBool true); field "to" (JStr (cp_Peer p))]).

Definition set_PeerMailboxes (m : gmap bytes Shell.PeerAddr) (s : Shell.Session) : Shell.Session :=
  Shell.mkSession (Shell.se_Identity s) (Shell.se_Relay s) (Shell.se_TransportsDir s) (Shell.se_Aliases s) (Shell.se_History s) (Shell.se_JSON s)
    (Shell.se_ShowSecrets s) (Shell.se_Transfers s) (Shell.se_Interactive s) (Shell.se_Peers s) m.

Definition PeerRecord (p : PeerRecordParams) : M T unit :=
  pub ← lift (resolveRecipient (rp_Peer p));
  hint ← lift (explicitHint (rp_MailboxID p) (rp_ShardURL p) []);
  s ← gets w_session;
  if bool_decide (s = None) then fail OpNoSession else
  let mbox := toLower ex_uni (hexEncode (MailboxID hint)) in
  let addr := Shell.mkPeerAddr (rp_Peer p) mbox (rp_ShardURL p) in
  _ ← onSession (fun s => Shell.RememberPeer (rp_Peer p)
                            (set_PeerMailboxes (<[toLower ex_uni (hexEncode pub) := addr]> (Shell.se_PeerMailboxes s)) s));
  report env d (JObj [field "peer" (JStr (rp_Peer p)); field "mailbox_id" (JStr mbox); field "shard_url" (JStr (rp_ShardURL p))]).

(** ** frames.go, register.go: mailboxes *)
Definition deriveUserTag (peerID : bytes) : bytes := if bytes_eqb peerID [] then [] else hexEncode (take 8 (sha256 peerID)).

Definition routerURLFor (m : Manager.Manager) (transportID : bytes) : bytes :=
  let cfg := Manager.Config m transportID in
  match (if bytes_eqb cfg [] then None else obj ← ex_strings cfg; obj !! str "router_url") with
  | Some ((_ :: _) as url) => url
  | _ =>
      match List.find (fun a => negb (bytes_eqb (Manager.at_RouterURL a) [])) (Manager.Attachments m transportID) with
      | Some a => Manager.at_RouterURL a
      | None => []
      end
  end.

Definition blank (s : bytes) : bool := bytes_eqb (trimSpace s) [].

(** The identity given, else the session's. *)
Definition identityTrimmed (id : bytes) : M T bytes :=
  dflt ← gets sessionIdentity;
  let id := if blank id then dflt else id in
  if blank id then fail OpNoIdentity else mret id.

Definition FilerelayRegister (transportID identity router : bytes) : M T RegisterResult :=
  identity ← identityTrimmed identity;
  let user := deriveUserTag identity in
  router ← (if blank router then
              x ← attempt (OpenManager env);
              match x with inr _ => gets (fun w => routerURLFor (w_mgr w) transportID) | inl _ => mret router end
            else mret router);
  _ ← OpenManager env;
  tr ← EnsureRunning env boot 0 transportID;
  _ ← requireFile tr;
  r ← netCall (fun t => @ft_XferRegister T (files tr) t user router);
  owner ← gets sessionIdentity;
  _ ← attempt (AddAttachment 1 transportID
                 (Manager.mkAttachment (hexEncode (rs_MailboxID r)) (hexEncode (rs_ReadSecret r)) (rs_ShardURL r) (rs_RouterURL r) owner));
  _ ← report env d (JObj [field "mailbox_id" (JStr (hexEncode (rs_MailboxID r))); field "read_secret" (JStr (hexEncode (rs_ReadSecret r)));
        field "shard_url" (JStr (rs_ShardURL r)); field "router_url" (JStr (rs_RouterURL r)); field "attached" (JBool true)]);
  mret r.

Definition FilerelayResolve (transportID peer router : bytes) : M T (bytes * bytes) :=
  pub ← lift (resolveRecipient peer);
  _ ← OpenManager env;
  tr ← EnsureRunning env boot 0 transportID;
  _ ← requireFile tr;
  r ← netCall (fun t => @ft_XferResolve T (files tr) t pub router);
  _ ← report env d (JObj [field "mailbox_id" (JStr (hexEncode r.1)); field "shard_url" (JStr r.2)]);
  mret r.

(** ** register.go *)
Record IdentityRegistration := mkRegistration {
  ir_Identity : bytes; ir_Pubkey : bytes; ir_MailboxID : bytes; ir_Alias : bytes; ir_ReadSecret : bytes; ir_ShardURL : bytes; ir_RouterURL : bytes; ir_Attached : bool }.

Definition registrationJSON (o : IdentityRegistration) : json :=
  JObj [field "identity" (JStr (ir_Identity o)); field "pubkey" (JStr (ir_Pubkey o)); field "mailbox_id" (JStr (ir_MailboxID o)); field "alias" (JStr (ir_Alias o));
        field "read_secret" (JStr (ir_ReadSecret o)); field "shard_url" (JStr (ir_ShardURL o)); field "router_url" (JStr (ir_RouterURL o)); field "attached" (JBool (ir_Attached o))].

Definition canonicalFileRelayRegister (pub : bytes) (timestamp : Z) (nonce : bytes) : bytes :=
  str "FR1/REGISTER" ++ [x00] ++ pub ++ putU64 (u64 timestamp) ++ nonce.

Definition filerelay : bytes := str "filerelay".

(** What registering yields: the router's name of the mailbox, its bearer (raw and
    as given), the shard and the router to report. *)
Record registered := mkRegistered { rg_display : bytes; rg_secret : bytes; rg_readSecret : bytes; rg_shard : bytes; rg_router : bytes }.

Definition registerFilerelay (cl : Client) (transportID router : bytes) : M T registered :=
  tr ← EnsureRunning env boot 0 transportID;
  isFile ← gets (fun w => @ft_isFile T (files tr) (w_net w));
  if negb isFile then fail OpNoResolve else
  nonce ← lift (ofOption OpNonce (oe_nonce env));
  let ts := u64 (oe_now env) in
  sig ← lift (ed25519Sign (cl_IdentityPrivate cl) (canonicalFileRelayRegister (cl_IdentityPublic cl) ts nonce));
  r ← netCall (fun t => @ft_IdentityRegister T (files tr) t (mkIdentityRegisterReq (cl_IdentityPublic cl) ts nonce sig router));
  if (negb (len (rs_MailboxID r) =? 16) || negb (len (rs_ReadSecret r) =? 32) || bytes_eqb (rs_ShardURL r) [])%bool then fail OpIncomplete else
  mret (mkRegistered (hexEncode (rs_MailboxID r)) (rs_ReadSecret r) (hexEncode (rs_ReadSecret r)) (rs_ShardURL r) (rs_RouterURL r)).

Context `{H : Worker.Http T} `{WJ : Worker.WorkerJSON}.

Definition routerRegister (router priv : bytes) : M T Worker.MailboxCapability := fun w =>
  let '(_, t, r) := Worker.Router_Register (oe_now env) (Worker.NewRouterClient router) (w_net w) priv in
  (set_net t w, wrapErr OpRouter r).

Definition registerRouter (cl : Client) (router : bytes) : M T registered :=
  cap ← routerRegister router (cl_IdentityPrivate cl);
  if (bytes_eqb (Worker.mc_MailboxID cap) [] || bytes_eqb (Worker.mc_ReadSecret cap) [] || bytes_eqb (Worker.mc_ShardURL cap) [])%bool then fail OpIncomplete else
  match hexDecode (Worker.mc_ReadSecret cap) with
  | Some secret =>
      if negb (len secret =? 32) then fail OpReadSecret else
      mret (mkRegistered (Worker.mc_MailboxID cap) secret (Worker.mc_ReadSecret cap) (Worker.mc_ShardURL cap) router)
  | None => fail OpReadSecret
  end.

(** The 16 bytes by which the transport knows the mailbox. *)
Definition mailboxAlias (tr : Manager.Live) (transportID display pub router : bytes) : M T bytes :=
  if bytes_eqb transportID filerelay then
    match hexDecode display with
    | Some mailbox => if negb (len mailbox =? 16) then fail (OpAlias (len mailbox)) else mret mailbox
    | None => fail (OpAlias 0)
    end
  else
    isFile ← gets (fun w => @ft_isFile T (files tr) (w_net w));
    if negb isFile then fail OpNoResolve else
    '(alias, _) ← netCall (fun t => @ft_XferResolve T (files tr) t pub router);
    if negb (len alias =? 16) then fail (OpAlias (len alias)) else mret alias.

Definition IdentityRegister (transportID identity router : bytes) : M T IdentityRegistration :=
  identity ← identityTrimmed identity;
  cl ← LoadProfile identity;
  if (bytes_eqb (cl_IdentityPrivate cl) [] || negb (len (cl_IdentityPublic cl) =? 32))%bool then fail OpBadKey else
  let pubHex := hexEncode (cl_IdentityPublic cl) in
  _ ← OpenManager env;
  router ← (if blank router then gets (fun w => routerURLFor (w_mgr w) transportID) else mret router);
  if blank router then fail OpNoRouter else
  g ← (if bytes_eqb transportID filerelay then registerFilerelay cl transportID router else registerRouter cl router);
  let out := mkRegistration identity pubHex (rg_display g) [] (rg_readSecret g) (rg_shard g) (rg_router g) false in
  x ← attempt (EnsureRunning env boot 1 transportID);
  match x with
  | inl _ => mret out
  | inr tr =>
      mailbox ← mailboxAlias tr transportID (rg_display g) (cl_IdentityPublic cl) router;
      let alias := hexEncode mailbox in
      y ← attempt (trAttach tr mailbox (rg_secret g) (rg_shard g) router);
      match y with
      | inl _ => mret (mkRegistration identity pubHex (rg_display g) alias (rg_readSecret g) (rg_shard g) (rg_router g) false)
      | inr _ =>
          _ ← attempt (AddAttachment 2 transportID (Manager.mkAttachment alias (rg_readSecret g) (rg_shard g) router identity));
          let out := mkRegistration identity pubHex (rg_display g) alias (rg_readSecret g) (rg_shard g) (rg_router g) true in
          _ ← report env d (registrationJSON out);
          mret out
      end
  end.

End Frames.
End Frames.
