(* ===== verification/OpsXfer.v ===== *)
(** * internal/transportops: file transfers ([xfer.go])

    A file is encrypted, uploaded in chunks through a transport and described by a
    ticket; whoever holds the ticket downloads the chunks and decrypts. *)
From S2P Require Import Prelude GoStd Sha256 External SecurePeer Session Engine Client Binstore FileTransfer.
From S2P Require Import Rpc Manager Shell Transport Ops OpsFrames.
#[local] Open Scope Z_scope.

Module Xfer.
Import Rpc Transport Ops Frames.

Record XferSendParams := mkSendParams {
  xs_TransportID : bytes; xs_Identity : bytes; xs_Peer : bytes; xs_MailboxID : bytes; xs_ShardURL : bytes; xs_File : bytes; xs_ChunkSize : Z }.

Record XferRecvParams := mkRecvParams {
  xr_TransportID : bytes; xr_Identity : bytes; xr_Peer : bytes; xr_TicketB64 : bytes; xr_TransferID : bytes; xr_MailboxID : bytes;
  xr_Secret : bytes; xr_ShardURL : bytes; xr_ManifestB64 : bytes; xr_Out : bytes }.

Record XferResumeParams := mkResumeParams {
  xm_TransportID : bytes; xm_TransferID : bytes; xm_MailboxID : bytes; xm_Secret : bytes; xm_TicketB64 : bytes; xm_ShardURL : bytes }.

Record XferCancelParams := mkCancelParams { xl_TransportID : bytes; xl_TransferID : bytes; xl_MailboxID : bytes; xl_Secret : bytes }.

(** What follows the last separator. *)
Definition isSep (b : byte) : bool := (bool_decide (b = x2f) || bool_decide (b = x5c))%bool.

Fixpoint afterSep (s rest : bytes) : bytes := match s with [] => rest | b :: s => afterSep s (if isSep b then s else rest) end.
Definition baseName (p : bytes) : bytes := afterSep p p.

(** Hex of a fixed length. *)
Definition hexOf (n : Z) (e : op_err) (s : bytes) : res op_err bytes :=
  match hexDecode s with Some b => if negb (len b =? n) then Err e else Ok b | None => Err e end.

(** How the recipient proves that it may download. *)
Inductive access := ByTicket (ticket shard : bytes) | ByMailbox (mailbox secret : bytes).

Section Xfer.
Context `{N : Nanopack} `{P : Prims} `{X : Surroundings} {T : Type}.
Context (frames : Manager.Live -> FrameTransport T) (files : Manager.Live -> FileTransport T) (boot : Manager.Live -> T -> T).
Context (env : opEnv) (d : Ops.Deps).

Definition trCreate (tr : Manager.Live) (m : XferCreate) : M T XferCreated := netCall (fun t => @ft_XferCreate T (files tr) t m).
Definition trPut (tr : Manager.Live) (m : XferPut) : M T Z := netCall (fun t => @ft_XferPut T (files tr) t m).
Definition trComplete (tr : Manager.Live) (tid hash : bytes) : M T unit := netCall (fun t => @ft_XferComplete T (files tr) t tid hash).

Definition trResume (tr : Manager.Live) (tid : bytes) (a : access) : M T (Z * Z * list (Z * Z)) :=
  netCall (fun t => match a with
                    | ByTicket ticket shard => @ft_XferResumeByTicket T (files tr) t tid ticket shard
                    | ByMailbox mbox sec => @ft_XferResume T (files tr) t tid mbox sec
                    end).

Definition trGet (tr : Manager.Live) (tid : bytes) (i : Z) (a : access) : M T (bytes * bytes) :=
  netCall (fun t => match a with
                    | ByTicket ticket shard => @ft_XferGetByTicket T (files tr) t tid i ticket shard
                    | ByMailbox mbox sec => @ft_XferGet T (files tr) t tid i mbox sec
                    end).

(** ** Sending *)
Fixpoint putChunks (tr : Manager.Live) (tid : bytes) (chunkSize : Z) (i : Z) (chunks : list bytes) : M T unit :=
  match chunks with
  | [] => mret tt
  | c :: chunks =>
      _ ← trPut tr (mkXferPut tid (u32 i) c (sha256 c) (u64 (i64 (i * chunkSize))));
      putChunks tr tid chunkSize (i + 1) chunks
  end.

(** The address of the recipient's mailbox, or its key. *)
Definition xferAddress (peer mailboxID shardURL : bytes) : res op_err (bytes * bytes) :=
  pub ← resolveRecipient peer;
  if bytes_eqb mailboxID [] then Ok (pub, []) else
  match hexDecode mailboxID with
  | Some mbox =>
      if negb (len mbox =? 16) then Err OpMailboxHex else
      if bytes_eqb shardURL [] then Err OpNoShard else Ok ([], mbox)
  | None => Err OpMailboxHex
  end.

Definition manifestBytes (mf : Manifest) : bytes := default [] (Manifest_Bytes mf).

(** The upload of what [EncryptFile] made, up to the ticket. *)
Definition upload (tr : Manager.Live) (pub mbox shardURL identity : bytes) (cipher : bytes) (chunks : list bytes) (mf : Manifest) : M T (bytes * bytes) :=
  created ← trCreate tr (mkXferCreate (u64 (len cipher)) (u32 (mf_ChunkSize mf)) (u32 (mf_ChunkCount mf)) (manifestBytes mf) mbox pub shardURL);
  let tid := xd_TransferID created in
  _ ← putChunks tr tid (mf_ChunkSize mf) 0 chunks;
  _ ← trComplete tr tid (sha256 cipher);
  ticketRaw ← lift (wrapErr OpFile (MarshalTicket (mkTicket tid (xd_DownloadSecret created) (xd_ShardURL created) (manifestBytes mf) identity)));
  mret (tid, EncodeTicketString ticketRaw).

Definition XferSend (p : XferSendParams) : M T bytes :=
  identity ← identityOr (xs_Identity p);
  raw ← gets (fun w => w_disk w !! xs_File p);
  raw ← lift (ofOption OpReadFile raw);
  cl ← LoadProfile identity;
  _ ← OpenManager env;
  tr ← EnsureRunning env boot 0 (xs_TransportID p);
  _ ← requireFile files tr;
  '(pub, mbox) ← lift (xferAddress (xs_Peer p) (xs_MailboxID p) (xs_ShardURL p));
  let chunkSize := if xs_ChunkSize p <=? 0 then 32768 else xs_ChunkSize p in
  '(cl, (cipher, chunks, mf)) ← onClient OpFile (fun c => EncryptFile (oe_save env 0) (oe_rand env) c (xs_Peer p) (baseName (xs_File p)) raw chunkSize) cl;
  _ ← SaveClient_ (oe_save env 1) cl;
  '(tid, ticketB64) ← upload tr pub mbox (xs_ShardURL p) identity cipher chunks mf;
  _ ← onSession (Shell.RecordTransfer (Shell.mkTransfer (hexEncode tid) (mf_FileName mf) (mf_PlainSize mf) ticketB64));
  _ ← report env d (JObj [field "transfer_id" (JStr (hexEncode tid)); field "manifest" (JStr (b64Encode (manifestBytes mf)));
        field "chunks" (JNum (len chunks)); field "ticket" (JStr ticketB64)]);
  mret ticketB64.

(** ** Receiving *)

(** The ticket replaces what would be given one by one. *)
Definition recvFields (p : XferRecvParams) : res op_err (bytes * bytes * bytes * bytes * bytes * bytes) :=
  if bytes_eqb (xr_TicketB64 p) [] then
    Ok (xr_TransferID p, xr_MailboxID p, xr_Secret p, xr_ShardURL p, xr_ManifestB64 p, xr_Peer p)
  else
    ticketRaw ← wrapErr OpFile (DecodeTicketString (xr_TicketB64 p));
    ticket ← wrapErr OpFile (ParseTicket ticketRaw);
    Ok (hexEncode (tk_Transfer ticket), [], hexEncode (tk_Secret ticket), tk_Shard ticket, b64Encode (tk_Manifest ticket),
        if bytes_eqb (xr_Peer p) [] then tk_From ticket else xr_Peer p).

Definition recvAccess (ticketMode : bool) (mailboxHex secretHex shard : bytes) : res op_err access :=
  if ticketMode then
    ticket ← hexOf 32 OpTicketSecret secretHex;
    if bytes_eqb shard [] then Err OpNoShard else Ok (ByTicket ticket shard)
  else
    mbox ← hexOf 16 OpMailboxHex mailboxHex;
    sec ← hexOf 32 OpSecretHex secretHex;
    Ok (ByMailbox mbox sec).

(** The arguments, checked in the order of the code. *)
Definition recvPlan (p : XferRecvParams) : res op_err (bytes * access * bytes * Manifest) :=
  let ticketMode := negb (bytes_eqb (xr_TicketB64 p) []) in
  '(transferHex, mailboxHex, secretHex, shard, manifestB64, peer) ← recvFields p;
  if bytes_eqb peer [] then Err OpNoSender else
  if bytes_eqb (xr_Out p) [] then Err OpNoOut else
  if (negb ticketMode && (bytes_eqb transferHex [] || bytes_eqb mailboxHex [] || bytes_eqb secretHex [] || bytes_eqb manifestB64 []))%bool then Err OpNoFlags else
  tid ← hexOf 16 OpTransferHex transferHex;
  secretHex ← SecretOr d secretHex;
  a ← recvAccess ticketMode mailboxHex secretHex shard;
  mfRaw ← ofOption OpManifestBase64 (b64Decode manifestB64);
  mf ← wrapErr OpFile (ParseManifest mfRaw);
  Ok (tid, a, peer, mf).

(** [n] chunks from index [i] on; each is checked against the hash that came with it. *)
Fixpoint getChunks (tr : Manager.Live) (tid : bytes) (a : access) (n : nat) (i : Z) : M T (list bytes) :=
  match n with
  | O => mret []
  | S n =>
      '(payload, h) ← trGet tr tid (u32 i) a;
      if negb (bytes_eqb (hexEncode (sha256 payload)) (hexEncode h)) then fail (OpChunkHash i) else
      rest ← getChunks tr tid a n (i + 1);
      mret (payload :: rest)
  end.

Definition writeFile (p content : bytes) : M T unit := fun w =>
  match oe_write env with
  | Written => (set_disk (<[p := content]> (w_disk w)) w, Ok tt)
  | NotOpened => (w, Err OpWriteFile)
  | Truncated rest => (set_disk (<[p := rest]> (w_disk w)) w, Err OpWriteFile)
  end.

(** The download: every chunk the manifest counts, once nothing is missing. *)
Definition download (tr : Manager.Live) (tid : bytes) (a : access) (mf : Manifest) : M T (list bytes) :=
  '(_, highest, missing) ← trResume tr tid a;
  if 0 <? len missing then fail (OpMissing highest (len missing)) else
  getChunks tr tid a (Z.to_nat (mf_ChunkCount mf)) 0.

(** Everything up to the plaintext. *)
Definition receive (p : XferRecvParams) : M T bytes :=
  identity ← identityOr (xr_Identity p);
  '(tid, a, peer, mf) ← lift (recvPlan p);
  cl ← LoadProfile identity;
  _ ← OpenManager env;
  tr ← EnsureRunning env boot 0 (xr_TransportID p);
  _ ← requireFile files tr;
  chunks ← download tr tid a mf;
  '(cl, plain) ← onClient OpFile (fun c => ReassembleAndDecrypt (oe_save env 0) c peer chunks mf) cl;
  _ ← SaveClient_ (oe_save env 1) cl;
  mret plain.

Definition XferRecv (p : XferRecvParams) : M T unit :=
  plain ← receive p;
  _ ← writeFile (xr_Out p) plain;
  report env d (JObj [field "received_bytes" (JNum (len plain)); field "out" (JStr (xr_Out p))]).

(** ** Progress, cancelling, looking at a ticket *)
Definition rangesJSON (l : list (Z * Z)) : json := JList ((fun r => JList [JNum r.1; JNum r.2]) <$> l).

Definition XferResume (p : XferResumeParams) : M T (Z * Z * list (Z * Z)) :=
  let ticketMode := negb (bytes_eqb (xm_TicketB64 p) []) in
  tid ← lift (if ticketMode then Ok [] else hexOf 16 OpTransferHex (xm_TransferID p));
  _ ← OpenManager env;
  tr ← EnsureRunning env boot 0 (xm_TransportID p);
  _ ← requireFile files tr;
  '(tid, a) ← lift (if ticketMode then
                      ticketRaw ← wrapErr OpFile (DecodeTicketString (xm_TicketB64 p));
                      ticket ← wrapErr OpFile (ParseTicket ticketRaw);
                      Ok (tk_Transfer ticket, ByTicket (tk_Secret ticket) (if bytes_eqb (xm_ShardURL p) [] then tk_Shard ticket else xm_ShardURL p))
                    else
                      secretHex ← SecretOr d (xm_Secret p);
                      mbox ← hexOf 16 OpMailboxHex (xm_MailboxID p);
                      sec ← hexOf 32 OpSecretHex secretHex;
                      Ok (tid, ByMailbox mbox sec));
  '(count, highest, missing) ← trResume tr tid a;
  _ ← report env d (JObj [field "transfer_id" (JStr (xm_TransferID p)); field "chunk_count" (JNum count); field "highest" (JNum highest);
        field "missing" (rangesJSON missing)]);
  mret (count, highest, missing).

Definition XferCancel (p : XferCancelParams) : M T unit :=
  tid ← lift (hexOf 16 OpTransferHex (xl_TransferID p));
  mbox ← lift (hexOf 16 OpMailboxHex (xl_MailboxID p));
  secretHex ← lift (SecretOr d (xl_Secret p));
  sec ← lift (hexOf 32 OpSecretHex secretHex);
  _ ← lift (confirmed d);
  _ ← OpenManager env;
  tr ← EnsureRunning env boot 0 (xl_TransportID p);
  _ ← requireFile files tr;
  _ ← netCall (fun t => @ft_XferCancel T (files tr) t tid mbox sec);
  report env d (JObj [field "cancelled" (JStr (shortHex (xl_TransferID p)))]).

Definition XferInspect (ticketB64 : bytes) : M T (Ticket * Manifest) :=
  '(ticket, mf) ← lift (raw ← wrapErr OpFile (DecodeTicketString ticketB64);
                        ticket ← wrapErr OpFile (ParseTicket raw);
                        mf ← wrapErr OpFile (ParseManifest (tk_Manifest ticket));
                        Ok (ticket, mf));
  _ ← report env d (JObj [field "transfer_id" (JStr (hexEncode (tk_Transfer ticket))); field "shard_url" (JStr (tk_Shard ticket));
        field "from" (JStr (tk_From ticket)); field "file" (JStr (mf_FileName mf)); field "plain_size" (JNum (mf_PlainSize mf));
        field "chunks" (JNum (mf_ChunkCount mf)); field "secret" (JStr (Secret d (hexEncode (tk_Secret ticket))))]);
  mret (ticket, mf).

End Xfer.
End Xfer.
