(* ===== verification/OpsFacts.v ===== *)
(** * Facts about the operations' monad

    How a run that succeeds decomposes, which parts of the world a step leaves
    alone, and what the calls on clients and transports amount to. *)
From S2P Require Import Prelude GoStd Sha256 External SecurePeer Session Engine Client Binstore FileTransfer.
From S2P Require Import Rpc Manager Shell Transport Worker Ops OpsFrames OpsXfer.
#[local] Open Scope Z_scope.

Import Transport Ops Frames Xfer.

Create HintDb world.

Section Monad.
Context {T : Type}.

Lemma M_bind_Ok {A B} (m : M T A) (f : A -> M T B) w w' b :
  (m ≫= f) w = (w', Ok b) <-> exists a w1, m w = (w1, Ok a) /\ f a w1 = (w', Ok b).
Proof. unfold mbind, M_bind. destruct (m w) as [w1 [a|e|]]; naive_solver. Qed.

Lemma M_bind_run {A B} (m : M T A) (f : A -> M T B) w w1 a : m w = (w1, Ok a) -> (m ≫= f) w = f a w1.
Proof. intros H. unfold mbind, M_bind. by rewrite H. Qed.

Lemma lift_Ok {A} (r : res op_err A) (w w' : World T) a : lift r w = (w', Ok a) <-> r = Ok a /\ w' = w.
Proof. unfold lift. naive_solver. Qed.

Lemma gets_Ok {A} (f : World T -> A) (w w' : World T) a : gets f w = (w', Ok a) <-> a = f w /\ w' = w.
Proof. unfold gets. naive_solver. Qed.

(** A step that never changes what [f] sees of the world. *)
Definition keeps {B A} (f : World T -> B) (m : M T A) : Prop := forall w, f (m w).1 = f w.

Section Keeps.
Context {B : Type} (f : World T -> B).

Lemma keeps_ret {A} (a : A) : keeps f (mret a).
Proof. by intros w. Qed.
Lemma keeps_lift {A} (r : res op_err A) : keeps f (lift r).
Proof. by intros w. Qed.
Lemma keeps_fail {A} e : keeps f (fail (A := A) e).
Proof. by intros w. Qed.
Lemma keeps_gets {A} (g : World T -> A) : keeps f (gets g).
Proof. by intros w. Qed.
Lemma keeps_bind {A C} (m : M T A) (k : A -> M T C) : keeps f m -> (forall a, keeps f (k a)) -> keeps f (m ≫= k).
Proof. intros Hm Hk w. specialize (Hm w). unfold mbind, M_bind. destruct (m w) as [w1 [a|e|]]; cbn in *; [|done|done]. by rewrite Hk. Qed.
(** Only the results that occur count. *)
Lemma keeps_bind_on {A C} (m : M T A) (k : A -> M T C) w :
  f (m w).1 = f w -> (forall a w1, m w = (w1, Ok a) -> f (k a w1).1 = f w1) -> f ((m ≫= k) w).1 = f w.
Proof. intros Hm Hk. unfold mbind, M_bind. destruct (m w) as [w1 [a|e|]] eqn:E; cbn in *; [by rewrite Hk|done|done]. Qed.
Lemma keeps_attempt {A} (m : M T A) : keeps f m -> keeps f (attempt m).
Proof. intros Hm w. specialize (Hm w). unfold attempt. by destruct (m w) as [w1 [a|e|]]. Qed.
Lemma keeps_netCall {A} (g : T -> T * res tr_err A) : (forall t w, f (set_net t w) = f w) -> keeps f (netCall g).
Proof. intros Hf w. unfold netCall. destruct (g _). apply Hf. Qed.
Lemma keeps_onManager {A} (g : Manager.Manager -> Manager.Manager * res Manager.mg_err A) : (forall m w, f (set_mgr m w) = f w) -> keeps f (onManager g).
Proof. intros Hf w. unfold onManager. destruct (g _). apply Hf. Qed.
Lemma keeps_onSession g : (forall s w, f (set_session s w) = f w) -> keeps f (onSession g).
Proof. intros Hf w. apply Hf. Qed.
Lemma keeps_onDisk {E A} (wrap : E -> op_err) (g : fs -> fs * res E A) : (forall s w, f (set_disk s w) = f w) -> keeps f (onDisk wrap g).
Proof. intros Hf w. unfold onDisk. destruct (g _). apply Hf. Qed.
Lemma keeps_onClient {E A} (wrap : E -> op_err) (g : Client -> Client * res E A) cl : (forall c w, f (set_clients c w) = f w) -> keeps f (onClient wrap g cl).
Proof. intros Hf w. unfold onClient. destruct (g cl). apply Hf. Qed.
Lemma keeps_SaveClient io cl : (forall c w, f (set_clients c w) = f w) -> keeps f (SaveClient_ io cl).
Proof. intros Hf. apply keeps_bind; [by apply keeps_onClient|]. intros []. apply keeps_ret. Qed.
Lemma keeps_JSONOut env v : (forall l w, f (set_stdout l w) = f w) -> keeps f (JSONOut env v).
Proof. intros Hf w. unfold JSONOut. destruct (oe_stdout env); [apply Hf|done]. Qed.
Lemma keeps_report env d v : (forall l w, f (set_stdout l w) = f w) -> keeps f (report env d v).
Proof. intros Hf. unfold report. destruct (dp_JSON d); [by apply keeps_JSONOut|apply keeps_ret]. Qed.
End Keeps.

End Monad.

#[export] Hint Resolve keeps_ret keeps_lift keeps_fail keeps_gets keeps_attempt keeps_netCall keeps_onManager keeps_onSession keeps_onDisk
  keeps_onClient keeps_SaveClient keeps_JSONOut keeps_report : world.

(** A run that ended well, taken apart step by step. *)
Ltac split_pair a :=
  match type of a with
  | (_ * _)%type => let b := fresh "b" in destruct a as [a b]; split_pair a; split_pair b
  | unit => destruct a
  | _ => idtac
  end.

Ltac m_step H :=
  let a := fresh "a" in let w := fresh "w" in let Hs := fresh "Hs" in
  apply M_bind_Ok in H as (a & w & Hs & H);
  split_pair a; cbv beta iota in H;
  match type of Hs with
  | lift _ _ = _ => apply lift_Ok in Hs as [Hs ->]
  | gets _ _ = _ => apply gets_Ok in Hs as [-> ->]
  | _ => idtac
  end.

(** A step of several parts keeps what each of them keeps. *)
Ltac keeps_tac :=
  repeat (first [progress intros | solve [eauto with world] | apply keeps_bind | case_match | progress cbv beta iota zeta]).

Lemma keeps_Ok {T A B} (f : World T -> B) (m : M T A) w w' r : keeps f m -> m w = (w', r) -> f w' = f w.
Proof. intros H Hm. specialize (H w). by rewrite Hm in H. Qed.

Tactic Notation "keep" open_constr(f) hyp(H) :=
  let K := fresh "K" in
  match type of H with ?m ?w = (?w', ?r) => assert (f w' = f w) as K; [apply (keeps_Ok f m w w' r); [keeps_tac|exact H]|] end.

Section Steps.
Context `{N : Nanopack} `{P : Prims} `{R : RecordStore} `{X : Surroundings} {T : Type} {B : Type} (f : World T -> B) (env : opEnv) (d : Ops.Deps).
Context (frames : Manager.Live -> FrameTransport T) (files : Manager.Live -> FileTransport T) (boot : Manager.Live -> T -> T).

Lemma keeps_LoadProfile id : keeps f (LoadProfile (T := T) id).
Proof. by intros w. Qed.

Lemma keeps_identityOr id : keeps f (identityOr (T := T) id).
Proof. unfold identityOr. keeps_tac. Qed.

Lemma keeps_OpenManager : (forall m w, f (set_mgr m w) = f w) -> (forall b w, f (set_open b w) = f w) -> keeps f (OpenManager (T := T) env).
Proof. intros Hm Ho w. unfold OpenManager. destruct (w_open w); [done|]. destruct (oe_open env); cbn [fst]; [by rewrite Ho, Hm|done]. Qed.

Lemma keeps_EnsureRunning k id : (forall m w, f (set_mgr m w) = f w) -> (forall t w, f (set_net t w) = f w) -> keeps f (EnsureRunning env boot k id).
Proof.
  intros Hm Hn w. unfold EnsureRunning. destruct (Manager.EnsureRunning _ _ _ _ _) as [m r].
  destruct r, (Manager.mn_live (w_mgr w) !! id); cbn [fst]; by rewrite ?Hn, ?Hm.
Qed.

Lemma keeps_requireFile tr : keeps f (requireFile files tr).
Proof. unfold requireFile. keeps_tac. Qed.
End Steps.

#[export] Hint Resolve keeps_LoadProfile keeps_identityOr keeps_OpenManager keeps_EnsureRunning keeps_requireFile : world.

(** ** The files of the working directory

    A profile is kept as a record, under its ID; its file is [<id>.json]. *)
Definition profilePath (id : bytes) : bytes := id ++ str ".json".

Definition profileAt {T} (w : World T) (p : bytes) : option Client :=
  if hasSuffix (str ".json") p then w_clients w !! trimSuffix (str ".json") p else None.

(** What lies at a path: a profile, or the bytes of another file. *)
Definition fileAt {T} (w : World T) (p : bytes) : option Client * option bytes := (profileAt w p, w_disk w !! p).

Lemma profilePath_ext p : hasSuffix (str ".json") p = true -> p = profilePath (trimSuffix (str ".json") p).
Proof.
  intros H. unfold trimSuffix. rewrite H. apply bool_decide_eq_true in H as [k ->]. unfold profilePath. rewrite length_app.
  replace (length k + length (str ".json") - length (str ".json"))%nat with (length k) by lia. by rewrite take_app_length.
Qed.

Lemma fileAt_same {T} (w w' : World T) p id :
  (forall i, i ≠ id -> w_clients w' !! i = w_clients w !! i) -> w_disk w' !! p = w_disk w !! p -> p ≠ profilePath id -> fileAt w' p = fileAt w p.
Proof.
  intros Hc Hd Hp. unfold fileAt, profileAt. rewrite Hd. destruct (hasSuffix _ p) eqn:Hs; [|done]. f_equal. apply Hc. intros <-. by apply Hp, profilePath_ext.
Qed.

(** ** What the steps of a transfer leave alone *)
Section Transfers.
Context `{N : Nanopack} `{P : Prims} `{R : RecordStore} `{X : Surroundings} {T : Type} (env : opEnv) (d : Ops.Deps).
Context (files : Manager.Live -> FileTransport T) (boot : Manager.Live -> T -> T).

Lemma keeps_getChunks {B} (f : World T -> B) tr tid a n : forall i, (forall t w, f (set_net t w) = f w) -> keeps f (getChunks files tr tid a n i).
Proof. induction n as [|n IH]; intros i Hf; cbn [getChunks]; [apply keeps_ret|]. unfold trGet. keeps_tac. Qed.

Lemma keeps_download {B} (f : World T -> B) tr tid a mf : (forall t w, f (set_net t w) = f w) -> keeps f (download files tr tid a mf).
Proof. intros Hf. unfold download, trResume. pose proof (keeps_getChunks f tr tid a) as Hg. keeps_tac. Qed.

(** Nothing is written before the plaintext is known to be the file. *)
Lemma receive_disk p : keeps w_disk (receive files boot env d p).
Proof. unfold receive. pose proof (keeps_download (B := fs) w_disk) as Hd. keeps_tac. Qed.

Lemma identityOr_Ok id (w w' : World T) a : identityOr id w = (w', Ok a) -> w' = w /\ a = (if bytes_eqb id [] then sessionIdentity w else id) /\ a ≠ [].
Proof.
  unfold identityOr. intros H. m_step H. cbv zeta in H. set (i := if bytes_eqb id [] then _ else _) in *.
  destruct (bytes_eqb i []) eqn:Hi; [done|]. injection H as <- <-. apply bool_decide_eq_false in Hi. done.
Qed.

Lemma onClient_Ok {E A} (wrap : E -> op_err) (f : Client -> Client * res E A) cl (w w' : World T) cl' a :
  onClient wrap f cl w = (w', Ok (cl', a)) -> f cl = (cl', Ok a) /\ w' = set_clients (<[cl_Id cl' := cl']> (w_clients w)) w.
Proof.
  unfold onClient. destruct (f cl) as [c r]. intros [= <- H]. destruct r as [a'|e|]; cbn in H; [|done|done]. by injection H as <- <-.
Qed.

Lemma SaveClient_Id io c : cl_Id (SaveClient io c) = cl_Id c.
Proof. unfold SaveClient. by repeat case_match. Qed.

Lemma Decrypt_Id io c frame : cl_Id (Client_Decrypt io c frame).1 = cl_Id c.
Proof.
  unfold Client_Decrypt. destruct (SenderIDFromFrame _); [|done..]. destruct (sessionFor _ _) as [l|]; [|done]. destruct (cl_heap c !! l); [|done].
  destruct (Decrypt _ _) as [? [?|?|]]; cbn [fst]; by rewrite ?SaveClient_Id.
Qed.

Lemma Reassemble_Id io cl peer chunks mf : cl_Id (ReassembleAndDecrypt io cl peer chunks mf).1 = cl_Id cl.
Proof.
  unfold ReassembleAndDecrypt, decryptFor. destruct (negb _); [done|]. destruct (reassemble 0 chunks []) as [cipher|e|]; [|done|done].
  destruct (negb _); [done|]. destruct (negb _); [done|]. pose proof (Decrypt_Id io cl cipher) as H.
  by destruct (Client_Decrypt io cl cipher) as [c r].
Qed.

(** The profile of the recipient is the only one rewritten. *)
Lemma receive_clients p (w : World T) id :
  (forall cl, LoadProfile (if bytes_eqb (xr_Identity p) [] then sessionIdentity w else xr_Identity p) w = (w, Ok cl) -> cl_Id cl ≠ id) ->
  w_clients (receive files boot env d p w).1 !! id = w_clients w !! id.
Proof.
  intros Hid. set (f := fun w : World T => w_clients w !! id). change (f (receive files boot env d p w).1 = f w). unfold receive.
  apply keeps_bind_on; [by apply keeps_identityOr|]. intros a w1 (-> & -> & _)%identityOr_Ok.
  apply keeps_bind_on; [done|]. intros [[[tid acc] peer] mf] w1 [_ ->]%lift_Ok.
  apply keeps_bind_on; [done|]. intros cl w1 Hl. assert (w1 = w) as -> by (by injection Hl). apply Hid in Hl. revert w Hid Hl. intros w _ Hl. revert w.
  pose proof (keeps_download f) as Hd.
  do 4 (apply keeps_bind; [unfold f; solve [keeps_tac]|intros ?]). intros w0.
  pose proof (Reassemble_Id (oe_save env 0) cl peer a2 mf) as HI. apply keeps_bind_on.
  - unfold onClient. destruct (ReassembleAndDecrypt _ _ _ _ _) as [c r]. cbn in *. unfold f. cbn. apply lookup_insert_ne. by rewrite HI.
  - intros [c plain] w1 [Hr ->]%onClient_Ok. rewrite Hr in HI. cbn in HI. unfold f. unfold SaveClient_, onClient, mbind, M_bind, mret, M_ret, wrapErr. cbn -[SaveClient].
    rewrite SaveClient_Id, HI, !lookup_insert_ne by done. done.
Qed.

Lemma reassembled io cl peer chunks mf cl' plain : ReassembleAndDecrypt io cl peer chunks mf = (cl', Ok plain) -> peer ≠ [] ->
  exists cipher, Client_Decrypt io cl cipher = (cl', Ok (peer, plain)) /\ sha256 cipher = mf_CipherHash mf /\ len cipher = mf_CipherSize mf /\
    sha256 plain = mf_FileHash mf /\ len plain = mf_PlainSize mf.
Proof.
  unfold ReassembleAndDecrypt. intros H Hp. destruct (negb _); [done|]. destruct (reassemble 0 chunks []) as [cipher|e|]; [|done|done].
  destruct (len cipher =? mf_CipherSize mf) eqn:H1; cbn [negb] in H; [|done]. destruct (bytes_eqb (sha256 cipher) _) eqn:H2; cbn [negb] in H; [|done].
  unfold decryptFor in H. destruct (Client_Decrypt io cl cipher) as [c r] eqn:Hd. destruct r as [[sender pt]|e|]; cbn in H; [|done|done].
  injection H as <- H. destruct (_ && _)%bool eqn:Hs; [done|]. destruct (len pt =? _) eqn:H3; cbn [negb] in H; [|done].
  destruct (bytes_eqb (sha256 pt) _) eqn:H4; cbn [negb] in H; [|done]. injection H as <-. unfold bytes_eqb in *.
  rewrite (bool_decide_eq_false_2 (peer = [])) in Hs by done. cbn in Hs. apply negb_false_iff in Hs.
  repeat match goal with H : bool_decide _ = true |- _ => apply bool_decide_eq_true in H | H : (_ =? _) = true |- _ => apply Z.eqb_eq in H end.
  subst sender. by exists cipher.
Qed.

Lemma recvPlan_peer p tid a peer mf : recvPlan d p = Ok (tid, a, peer, mf) -> peer ≠ [].
Proof.
  unfold recvPlan. intros H. apply bind_Ok in H as ([[[[[x1 x2] x3] x4] x5] x6] & _ & H). destruct (bytes_eqb x6 []) eqn:Hx; [done|].
  unfold bytes_eqb in Hx. apply bool_decide_eq_false in Hx. destruct (bytes_eqb (xr_Out p) []); [done|]. destruct (_ && _)%bool; [done|]. res_inv. by subst.
Qed.

(** What a received plaintext has gone through. *)
Lemma receive_Ok p (w w' : World T) plain : receive files boot env d p w = (w', Ok plain) ->
  exists tid a peer mf cl cl' cipher, recvPlan d p = Ok (tid, a, peer, mf) /\
    LoadProfile (if bytes_eqb (xr_Identity p) [] then sessionIdentity w else xr_Identity p) w = (w, Ok cl) /\
    Client_Decrypt (oe_save env 0) cl cipher = (cl', Ok (peer, plain)) /\ sha256 cipher = mf_CipherHash mf /\ len cipher = mf_CipherSize mf /\
    sha256 plain = mf_FileHash mf /\ len plain = mf_PlainSize mf.
Proof.
  unfold receive. intros H. m_step H. apply identityOr_Ok in Hs as (-> & -> & _). m_step H. rename Hs into Hplan. m_step H. assert (w0 = w) as -> by (by injection Hs).
  rename Hs into Hload. do 4 m_step H. m_step H. apply onClient_Ok in Hs3 as [Hr ->]. m_step H. injection H as _ <-.
  destruct (reassembled _ _ _ _ _ _ _ Hr (recvPlan_peer _ _ _ _ _ Hplan)) as (cipher & Hd). by exists a, b1, b0, b, a0, a3, cipher.
Qed.
End Transfers.
