(* ===== verification/OpsTheorems.v ===== *)
(** * The operations: theorems on file transfers

    [HonestRelay] is what a file relay promises to the transports in front of it.
    Over such a relay a file sent with [XferSend] is received with [XferRecv];
    over any relay nothing is written but the file asked for and the receiver's
    own profile. *)
From S2P Require Import Prelude GoStd Sha256 External SecurePeer SecurePeerFacts Session Engine EngineFacts SessionTheorems Client ClientFacts Binstore MultiMsg MultiStore MultiStoreTheorems Fanout FanoutTheorems GroupDelivery Mailbox Dispatch DispatchTheorems FileTransfer.
From S2P Require Import Rpc Manager Shell Transport Ops OpsFrames OpsXfer OpsFacts.
#[local] Open Scope Z_scope.

Import Rpc Transport Ops Frames Xfer.

(** ** What a file relay promises *)
Record transfer := mkTx { tx_secret : bytes; tx_shard : bytes; tx_count : Z; tx_chunks : gmap Z bytes; tx_sealed : bool }.

Definition addChunk (i : Z) (c : bytes) (x : transfer) : transfer := mkTx (tx_secret x) (tx_shard x) (tx_count x) (<[i := c]> (tx_chunks x)) (tx_sealed x).
Definition seal (x : transfer) : transfer := mkTx (tx_secret x) (tx_shard x) (tx_count x) (tx_chunks x) true.

(** Sealed, with every chunk in place. *)
Definition complete (x : transfer) : Prop := tx_sealed x = true /\ forall i, 0 <= i < tx_count x -> is_Some (tx_chunks x !! i).

Class HonestRelay {T : Type} (files : Manager.Live -> FileTransport T) (boot : Manager.Live -> T -> T) := {
  held : T -> bytes -> option transfer;
  hr_boot tr t tid : held (boot tr t) tid = held t tid;
  hr_create tr t m t' c : @ft_XferCreate T (files tr) t m = (t', Ok c) ->
    held t' (xd_TransferID c) = Some (mkTx (xd_DownloadSecret c) (xd_ShardURL c) (xc_ChunkCount m) ∅ false);
  hr_put tr t m t' h x : held t (xp_TransferID m) = Some x -> @ft_XferPut T (files tr) t m = (t', Ok h) ->
    held t' (xp_TransferID m) = Some (addChunk (xp_Index m) (xp_Payload m) x);
  hr_complete tr t tid hash t' x : held t tid = Some x -> @ft_XferComplete T (files tr) t tid hash = (t', Ok tt) -> held t' tid = Some (seal x);
  hr_resume tr t tid x : held t tid = Some x -> complete x ->
    exists t' n h, @ft_XferResumeByTicket T (files tr) t tid (tx_secret x) (tx_shard x) = (t', Ok (n, h, [])) /\ held t' tid = Some x;
  hr_get tr t tid x i c : held t tid = Some x -> complete x -> tx_chunks x !! i = Some c ->
    exists t', @ft_XferGetByTicket T (files tr) t tid i (tx_secret x) (tx_shard x) = (t', Ok (c, sha256 c)) /\ held t' tid = Some x;
}.

(** The chunks of a file, from index [i] on. *)
Fixpoint numbered (i : Z) (chunks : list bytes) (m : gmap Z bytes) : gmap Z bytes :=
  match chunks with [] => m | c :: chunks => numbered (i + 1) chunks (<[i := c]> m) end.

Lemma numbered_lookup chunks : forall i m j,
  numbered i chunks m !! j = if decide (i <= j < i + len chunks) then chunks !! Z.to_nat (j - i) else m !! j.
Proof.
  induction chunks as [|c chunks IH]; intros i m j; cbn [numbered]; unfold len in *; cbn [length].
  - by rewrite decide_False by lia.
  - rewrite IH. destruct (decide (j = i)) as [->|Hne].
    + rewrite decide_False by lia. rewrite lookup_insert_eq, decide_True by lia. by rewrite Z.sub_diag.
    + rewrite lookup_insert_ne by done. destruct (decide (i <= j < i + Z.of_nat (S (length chunks)))).
      * rewrite decide_True by lia. replace (Z.to_nat (j - i)) with (S (Z.to_nat (j - (i + 1)))) by lia. done.
      * by rewrite decide_False by lia.
Qed.

Section Transfers.
Context `{N : Nanopack} `{NL : !NanopackLaws} `{P : Prims} `{PL : !PrimLaws} `{R : RecordStore} `{X : Surroundings} {T : Type}.
Context (files : Manager.Live -> FileTransport T) (boot : Manager.Live -> T -> T) `{HR : !HonestRelay files boot}.

Lemma netCall_Ok {A} (f : T -> T * res tr_err A) (w w' : World T) a : netCall f w = (w', Ok a) -> exists t, f (w_net w) = (t, Ok a) /\ w' = set_net t w.
Proof. unfold netCall. destruct (f (w_net w)) as [t [x|e|]]; cbn; intros [=]; subst; eauto. Qed.

Lemma netCall_run {A} (f : T -> T * res tr_err A) (w : World T) t a : f (w_net w) = (t, Ok a) -> netCall f w = (set_net t w, Ok a).
Proof. unfold netCall. by intros ->. Qed.

(** ** Uploading *)
Lemma putChunks_held tr tid k : forall chunks i (w w' : World T) x,
  held (w_net w) tid = Some x -> 0 <= i -> i + len chunks <= 2 ^ 32 ->
  putChunks files tr tid k i chunks w = (w', Ok tt) ->
  held (w_net w') tid = Some (mkTx (tx_secret x) (tx_shard x) (tx_count x) (numbered i chunks (tx_chunks x)) (tx_sealed x)).
Proof.
  induction chunks as [|c chunks IH]; intros i w w' x Hx Hi Hl H; cbn [putChunks] in H.
  - injection H as <-. rewrite Hx. by destruct x.
  - m_step H. unfold trPut in Hs. apply netCall_Ok in Hs as (t & Hp & ->). unfold len in *. cbn [length] in Hl.
    assert (u32 i = i) as Hu by (apply u32_small; lia). rewrite Hu in Hp.
    pose proof (hr_put tr (w_net w) (mkXferPut tid i c (sha256 c) (u64 (i64 (i * k)))) t a x Hx Hp) as Hh. cbn in Hh.
    apply (IH (i + 1)) with (x := addChunk i c x) in H; [done|done|lia|lia].
Qed.

(** The ticket of an upload, and what the relay holds after it. *)
Lemma upload_held tr pub mbox shardURL identity cipher chunks mf (w w' : World T) tid ticketB64 :
  upload files tr pub mbox shardURL identity cipher chunks mf w = (w', Ok (tid, ticketB64)) ->
  len chunks = mf_ChunkCount mf -> 0 < mf_ChunkCount mf < 2 ^ 32 ->
  exists t raw x, Manifest_Bytes mf = Some (tk_Manifest t) /\ MarshalTicket t = Ok raw /\ ticketB64 = EncodeTicketString raw /\
    tk_From t = identity /\ held (w_net w') (tk_Transfer t) = Some x /\
    tx_secret x = tk_Secret t /\ tx_shard x = tk_Shard t /\ tx_count x = mf_ChunkCount mf /\ tx_chunks x = numbered 0 chunks ∅ /\ tx_sealed x = true.
Proof.
  intros H Hn Hc. unfold upload in H. m_step H. unfold trCreate in Hs. apply netCall_Ok in Hs as (t0 & Hcr & ->). apply hr_create in Hcr.
  cbv zeta in H. m_step H. apply putChunks_held with (x := mkTx (xd_DownloadSecret a) (xd_ShardURL a) (u32 (mf_ChunkCount mf)) ∅ false) in Hs; [|done|lia|lia].
  m_step H. unfold trComplete in Hs0. apply netCall_Ok in Hs0 as (t1 & Hco & ->). eapply hr_complete in Hco; [|exact Hs]. m_step H. injection H as <- <- <-.
  rewrite u32_small in Hco by lia. cbn in Hco.
  destruct (MarshalTicket _) as [raw|e|] eqn:Hm; [|done|done]. injection Hs0 as <-.
  exists (mkTicket (xd_TransferID a) (xd_DownloadSecret a) (xd_ShardURL a) (manifestBytes mf) identity), raw.
  eexists. conjs; [|done|done|done|exact Hco|done|done|done|done|done].
  unfold manifestBytes in *. cbn [tk_Manifest]. destruct (Manifest_Bytes mf) as [b|]; [done|]. exfalso. cbn [default] in Hm. revert Hm. unfold MarshalTicket. cbn.
  destruct (negb _); [done|]. destruct (negb _); [done|]. by rewrite orb_true_r.
Qed.

(** ** Downloading *)
Lemma getChunks_held tr tid x : complete x -> forall n i (w : World T),
  held (w_net w) tid = Some x -> 0 <= i -> i + Z.of_nat n <= tx_count x -> tx_count x <= 2 ^ 32 ->
  exists t' chunks, getChunks files tr tid (ByTicket (tx_secret x) (tx_shard x)) n i w = (set_net t' w, Ok chunks) /\ held t' tid = Some x /\
    length chunks = n /\ forall j, (j < n)%nat -> chunks !! j = tx_chunks x !! (i + Z.of_nat j).
Proof.
  intros Hx. induction n as [|n IH]; intros i w Hh Hi Hn Hc; cbn [getChunks].
  - exists (w_net w), []. split; [by destruct w|]. split; [done|]. split; [done|]. intros j Hj. lia.
  - destruct (proj2 Hx i) as [c Hi']; [lia|]. destruct (hr_get tr (w_net w) tid x i c Hh Hx Hi') as (t1 & Hg & Hh1).
    unfold trGet. rewrite u32_small by lia. erewrite M_bind_run by (apply netCall_run; exact Hg).
    cbv beta iota. unfold bytes_eqb. rewrite bool_decide_eq_true_2 by done. cbn [negb].
    destruct (IH (i + 1) (set_net t1 w)) as (t2 & cs & Hr & Hh2 & Hl & Hj); [done|lia|lia|lia|].
    erewrite M_bind_run by exact Hr. exists t2, (c :: cs). split; [done|]. split; [done|]. split; [cbn; lia|]. intros [|j] Hlt; cbn.
    + by rewrite Z.add_0_r.
    + rewrite Hj by lia. f_equal. lia.
Qed.

Lemma download_held tr tid x mf (w : World T) chunks :
  held (w_net w) tid = Some x -> tx_sealed x = true -> tx_count x = mf_ChunkCount mf -> tx_chunks x = numbered 0 chunks ∅ ->
  len chunks = mf_ChunkCount mf -> 0 < mf_ChunkCount mf < 2 ^ 32 ->
  exists t', download files tr tid (ByTicket (tx_secret x) (tx_shard x)) mf w = (set_net t' w, Ok chunks).
Proof.
  intros Hh Hse Hct Hch Hn Hc. assert (complete x) as Hx.
  { split; [done|]. intros i Hi. rewrite Hch, numbered_lookup, decide_True by lia. apply lookup_lt_is_Some. unfold len in *. lia. }
  unfold download, trResume. destruct (hr_resume tr (w_net w) tid x Hh Hx) as (t1 & n & h & Hr & Hh1). erewrite M_bind_run by (apply netCall_run; exact Hr).
  cbv beta iota. change (0 <? len []) with false. cbv iota.
  destruct (getChunks_held tr tid x Hx (Z.to_nat (mf_ChunkCount mf)) 0 (set_net t1 w)) as (t2 & cs & Hg & Hh2 & Hl & Hj); [done|lia|lia|lia|].
  exists t2. rewrite Hg. f_equal. f_equal. apply list_eq. intros j. destruct (decide (j < Z.to_nat (mf_ChunkCount mf))%nat) as [Hlt|Hge].
  - rewrite Hj, Hch, numbered_lookup, decide_True by lia. f_equal. lia.
  - rewrite !lookup_ge_None_2; [done| |]; unfold len in *; lia.
Qed.

End Transfers.

(** ** From the sender's disk to the recipient's *)
Section EndToEnd.
Context `{N : Nanopack} `{NL : !NanopackLaws} `{P : Prims} `{PL : !PrimLaws} `{R : RecordStore} `{X : Surroundings} {T : Type}.
Context (files : Manager.Live -> FileTransport T) (boot : Manager.Live -> T -> T).

Lemma SaveClient_run io cl (w w' : World T) cl' : SaveClient_ io cl w = (w', Ok cl') ->
  cl' = SaveClient io cl /\ w' = set_clients (<[cl_Id cl' := cl']> (w_clients w)) w.
Proof. unfold SaveClient_. intros H. m_step H. apply onClient_Ok in Hs as [[= <-] ->]. injection H as <- <-. done. Qed.

Lemma LoadProfile_Ok id (w w' : World T) cl : LoadProfile id w = (w', Ok cl) -> w' = w /\ LoadProfile id w = (w, Ok cl).
Proof. unfold LoadProfile. intros [= <- ->]. done. Qed.

Definition identityOf (id : bytes) (w : World T) : bytes := if bytes_eqb id [] then sessionIdentity w else id.

Lemma keeps_upload {B} (f : World T -> B) tr pub mbox shardURL identity cipher chunks mf :
  (forall t w, f (set_net t w) = f w) -> keeps f (upload files tr pub mbox shardURL identity cipher chunks mf).
Proof.
  intros Hf. assert (forall tid k l i, keeps f (putChunks files tr tid k i l)) as Hp.
  { intros tid k l. induction l as [|c l IH]; intros i; cbn [putChunks]; [apply keeps_ret|]. unfold trPut. keeps_tac. }
  unfold upload, trCreate, trComplete. keeps_tac.
Qed.

(** What a successful sending has done. *)
Lemma XferSend_Ok env d p (w w' : World T) ticketB64 : XferSend files boot env d p w = (w', Ok ticketB64) ->
  exists content cl cl' cipher chunks mf tr pub mbox w1 w2 tid,
    identityOf (xs_Identity p) w ≠ [] /\ w_disk w !! xs_File p = Some content /\ LoadProfile (identityOf (xs_Identity p) w) w = (w, Ok cl) /\
    EncryptFile (oe_save env 0) (oe_rand env) cl (xs_Peer p) (baseName (xs_File p)) content (if xs_ChunkSize p <=? 0 then 32768 else xs_ChunkSize p)
      = (cl', Ok (cipher, chunks, mf)) /\
    upload files tr pub mbox (xs_ShardURL p) (identityOf (xs_Identity p) w) cipher chunks mf w1 = (w2, Ok (tid, ticketB64)) /\
    w_net w' = w_net w2 /\ w_clients w' !! cl_Id cl' = Some (SaveClient (oe_save env 1) cl').
Proof.
  unfold XferSend. intros H. m_step H. apply identityOr_Ok in Hs as (-> & -> & Hid). fold (identityOf (xs_Identity p) w) in H, Hid.
  m_step H. m_step H. apply ofOption_Ok in Hs. rename Hs into Hfile. m_step H. apply LoadProfile_Ok in Hs as [-> Hload].
  do 4 m_step H. m_step H. apply onClient_Ok in Hs3 as [He ->]. m_step H. apply SaveClient_run in Hs3 as [-> ->]. m_step H. rename Hs3 into Hup. m_step H. m_step H.
  injection H as <- <-. keep w_net Hs3. keep w_clients Hs3. keep w_net Hs4. keep w_clients Hs4.
  assert (w_clients w3 !! cl_Id a3 = Some (SaveClient (oe_save env 1) a3)) as Hcl.
  { rewrite (keeps_Ok w_clients _ _ _ _ (keeps_upload w_clients _ _ _ _ _ _ _ _ ltac:(done)) Hup). cbn.
    rewrite (proj2 (SaveClient_same (oe_save env 1) a3)). apply lookup_insert_eq. }
  eexists a, a0, a3, b0, b2, b1, a1, a2, b, _, w3, a4. conjs; [done|done|done|done|exact Hup| |]; congruence.
Qed.
(** What the recipient reads from a ticket. *)
Lemma recvPlan_ticket d p t raw mf :
  MarshalTicket t = Ok raw -> ParseManifest (tk_Manifest t) = Ok mf -> xr_TicketB64 p = EncodeTicketString raw ->
  xr_Peer p = [] \/ xr_Peer p = tk_From t -> tk_From t ≠ [] -> xr_Out p ≠ [] ->
  recvPlan d p = Ok (tk_Transfer t, ByTicket (tk_Secret t) (tk_Shard t), tk_From t, mf).
Proof.
  intros Hm Hp Ht Hpeer Hfrom Hout. pose proof (ticket_roundtrip _ _ _ Hm Hp) as Hrt. apply bind_Ok in Hrt as (raw' & Hd & Hpt).
  assert (len (tk_Transfer t) = 16 /\ len (tk_Secret t) = 32 /\ tk_Shard t ≠ [] /\ raw ≠ []) as (L1 & L2 & L3 & L4).
  { unfold MarshalTicket in Hm. destruct (len (tk_Transfer t) =? 16) eqn:E1; [|done]. destruct (len (tk_Secret t) =? 32) eqn:E2; [|done]. cbn [negb] in Hm.
    destruct (_ || _)%bool eqn:E3; [done|]. apply orb_false_iff in E3 as [E3 _]. apply bool_decide_eq_false in E3. apply ofOption_Ok in Hm.
    apply np_encode_head in Hm. apply Z.eqb_eq in E1, E2. split; [done|]. split; [done|]. split; [done|]. by destruct raw. }
  assert (bytes_eqb (xr_TicketB64 p) [] = false) as Hne.
  { apply bool_decide_eq_false. rewrite Ht. intros He. apply (f_equal b64Decode) in He. unfold EncodeTicketString in He. rewrite b64Decode_Encode in He. by injection He. }
  unfold recvPlan, recvFields. cbv zeta. rewrite Hne. rewrite Ht, Hd. cbn [wrapErr]. rewrite (ok_bind _ _ raw' eq_refl), Hpt. cbn [wrapErr negb]. rewrite (ok_bind _ _ t eq_refl).
  set (peer := if bytes_eqb (xr_Peer p) [] then tk_From t else xr_Peer p). assert (peer = tk_From t) as ->.
  { unfold peer. destruct Hpeer as [->| ->]; [done|]. by destruct (bytes_eqb (tk_From t) []). }
  cbn [mbind res_bind]. rewrite (proj2 (bool_decide_eq_false (tk_From t = [])) Hfrom : bytes_eqb _ _ = false).
  rewrite (proj2 (bool_decide_eq_false (xr_Out p = [])) Hout : bytes_eqb _ _ = false). cbn [andb].
  unfold hexOf at 1. rewrite hexDecode_Encode, L1. cbn [Z.eqb negb mbind res_bind].
  assert (forall s : bytes, len s = 32 -> SecretOr d (hexEncode s) = Ok (hexEncode s)) as Hsec.
  { intros s Hs. unfold SecretOr. destruct s as [|b s]; [done|]. done. }
  rewrite Hsec by done. cbn [mbind res_bind]. unfold recvAccess, hexOf. rewrite hexDecode_Encode, L2. cbn [negb mbind res_bind].
  rewrite (proj2 (bool_decide_eq_false (tk_Shard t = [])) L3 : bytes_eqb _ _ = false). cbn [mbind res_bind]. rewrite b64Decode_Encode. cbn [ofOption mbind res_bind].
  by rewrite Hp.
Qed.

Lemma EnsureRunning_live env k id tr (w : World T) : Manager.mn_live (w_mgr w) !! id = Some tr -> EnsureRunning env boot k id w = (w, Ok tr).
Proof. intros H. unfold EnsureRunning, Manager.EnsureRunning. rewrite H. by destruct w. Qed.

Lemma OpenManager_open env (w : World T) : w_open w = true -> OpenManager env w = (w, Ok tt).
Proof. intros H. unfold OpenManager. by rewrite H. Qed.

(** The transport the recipient uses runs and takes files. *)
Record can_download (p : XferRecvParams) (tr : Manager.Live) (w : World T) : Prop := {
  cd_open : w_open w = true;
  cd_live : Manager.mn_live (w_mgr w) !! xr_TransportID p = Some tr;
  cd_file : @ft_isFile T (files tr) (w_net w) = true;
}.

Context `{HR : !HonestRelay files boot}.

(** The receiving side, when everything is there. *)
Lemma receive_run env d p tr tid acc peer mf chunks cl cl' plain t' (w : World T) :
  identityOf (xr_Identity p) w ≠ [] -> recvPlan d p = Ok (tid, acc, peer, mf) -> LoadProfile (identityOf (xr_Identity p) w) w = (w, Ok cl) ->
  can_download p tr w -> download files tr tid acc mf w = (set_net t' w, Ok chunks) ->
  ReassembleAndDecrypt (oe_save env 0) cl peer chunks mf = (cl', Ok plain) ->
  exists w', receive files boot env d p w = (w', Ok plain) /\ w_clients w' !! cl_Id cl' = Some (SaveClient (oe_save env 1) cl').
Proof.
  intros Hid Hplan Hload [Hop Hlive Hfile] Hdl Hre. eexists. unfold receive. split.
  - erewrite M_bind_run; [|unfold identityOr; erewrite M_bind_run by done; cbv zeta; fold (identityOf (xr_Identity p) w);
      rewrite (proj2 (bool_decide_eq_false (identityOf (xr_Identity p) w = [])) Hid : bytes_eqb _ _ = false); reflexivity].
    rewrite Hplan. erewrite M_bind_run by done. cbv beta iota. erewrite M_bind_run by exact Hload.
    erewrite M_bind_run by (apply OpenManager_open; exact Hop). erewrite M_bind_run by (apply EnsureRunning_live; exact Hlive).
    erewrite M_bind_run; [|unfold requireFile; erewrite M_bind_run by done; unfold RequiresFile; rewrite Hfile; reflexivity].
    erewrite M_bind_run by exact Hdl. cbv beta. erewrite M_bind_run; [|unfold onClient; rewrite Hre; reflexivity]. cbv beta iota.
    erewrite M_bind_run; [|unfold SaveClient_; erewrite M_bind_run by reflexivity; reflexivity]. reflexivity.
  - cbn. rewrite (proj2 (SaveClient_same (oe_save env 1) cl')). apply lookup_insert_eq.
Qed.

(** A file sent comes out of [receive]. *)
Lemma file_arrives envA envB dA dB pA pB (wA wA' wB : World T) ticketB64 clA clB la lb spA spB trB :
  XferSend files boot envA dA pA wA = (wA', Ok ticketB64) ->
  LoadProfile (identityOf (xs_Identity pA) wA) wA = (wA, Ok clA) -> cl_Id clA = identityOf (xs_Identity pA) wA ->
  cl_Sessions clA !! xs_Peer pA = Some la -> cl_heap clA !! la = Some spA -> send_ok (oe_rand envA) spA ->
  (forall io cl' w, Client_Encrypt io (oe_rand envA) clA (xs_Peer pA) (default [] (w_disk wA !! xs_File pA)) = (cl', Ok w) -> len w < 2 ^ 32) ->
  (forall tid, held (w_net wB) tid = held (w_net wA') tid) -> can_download pB trB wB ->
  xr_TicketB64 pB = ticketB64 -> xr_Peer pB = [] \/ xr_Peer pB = cl_Id clA -> xr_Out pB ≠ [] ->
  identityOf (xr_Identity pB) wB ≠ [] -> LoadProfile (identityOf (xr_Identity pB) wB) wB = (wB, Ok clB) ->
  sessionFor clB (cl_Id clA) = Some lb -> cl_heap clB !! lb = Some spB -> synced (Net spA spB [] []) ->
  exists content wB' clA' clB' spA' spB',
    w_disk wA !! xs_File pA = Some content /\ receive files boot envB dB pB wB = (wB', Ok content) /\
    w_clients wA' !! cl_Id clA' = Some clA' /\ cl_heap clA' !! la = Some spA' /\
    cl_Id clB' = cl_Id clB /\ w_clients wB' !! cl_Id clB' = Some clB' /\ cl_heap clB' !! lb = Some spB' /\ synced (Net spA' spB' [] []).
Proof.
  intros Hsend HloadA HidA HsA HhA Hok Hsize Hnet [Hop Hlive Hfile] Hticket Hpeer Hout HidB HloadB HsB HhB Hsync.
  apply XferSend_Ok in Hsend as (content & cl & cl' & cipher & chunks & mf & tr & pub & mbox & w1 & w2 & tid & HidA' & Hdisk & Hl & He & Hup & Hn & Hc).
  rewrite HloadA in Hl. injection Hl as <-. pose proof He as (_ & _ & Henc & _)%EncryptFile_inv. rewrite Hdisk in Hsize. apply Hsize in Henc.
  destruct (EncryptFile_count _ _ _ _ _ _ _ _ _ _ _ He Henc) as [Hcnt Hrng].
  destruct (upload_held files boot _ _ _ _ _ _ _ _ _ _ _ _ Hup Hcnt Hrng) as (t & raw & x & Hmb & Hmt & -> & Hfrom & Hheld & Hsec & Hsh & Hct & Hch & Hse).
  destruct (transfer_core _ _ _ _ _ _ _ _ _ _ _ _ _ _ _ _ _ (oe_save envB 0) He Henc Hmb HsA HhA HsB HhB Hsync Hok)
    as (clB' & spA' & spB' & Hpm & Hre & HhA' & HhB' & Hsync').
  pose proof (recvPlan_ticket dB pB t raw mf Hmt Hpm Hticket ltac:(rewrite Hfrom, <- HidA; exact Hpeer) ltac:(by rewrite Hfrom) Hout) as Hplan.
  destruct (download_held files boot trB (tk_Transfer t) x mf wB chunks) as (t' & Hdl); try done; [by rewrite Hnet, Hn|].
  rewrite Hsec, Hsh in Hdl.
  destruct (receive_run envB dB pB trB _ _ _ _ _ _ _ _ _ wB HidB Hplan HloadB ltac:(by split) Hdl ltac:(by rewrite Hfrom, <- HidA; exact Hre)) as (wB1 & Hrec & HcB).
  pose proof (Reassemble_Id (oe_save envB 0) clB (cl_Id clA) chunks mf) as HI. rewrite Hre in HI. cbn in HI.
  exists content, wB1, (SaveClient (oe_save envA 1) cl'), (SaveClient (oe_save envB 1) clB'), spA', spB'.
  by rewrite !SaveClient_heap, !(proj2 (SaveClient_same _ _)), Hc, HI in *.
Qed.

(** C8: A file sent is a file received.  When [XferSend] succeeds over an honest
    relay, the recipient who is handed the ticket and whose session is in step
    with the sender's gets, with [XferRecv] and over a transport of their own, the
    bytes of the sender's file, written where they asked.  Of the other files only
    the recipient's own profile is rewritten; both profiles then hold sessions
    that are again in step. *)
Theorem file_sent_is_received envA envB dA dB pA pB (wA wA' wB : World T) ticketB64 clA clB la lb spA spB trB :
  XferSend files boot envA dA pA wA = (wA', Ok ticketB64) ->
  LoadProfile (identityOf (xs_Identity pA) wA) wA = (wA, Ok clA) -> cl_Id clA = identityOf (xs_Identity pA) wA ->
  cl_Sessions clA !! xs_Peer pA = Some la -> cl_heap clA !! la = Some spA -> send_ok (oe_rand envA) spA ->
  (forall io cl' w, Client_Encrypt io (oe_rand envA) clA (xs_Peer pA) (default [] (w_disk wA !! xs_File pA)) = (cl', Ok w) -> len w < 2 ^ 32) ->
  (forall tid, held (w_net wB) tid = held (w_net wA') tid) -> can_download pB trB wB ->
  xr_TicketB64 pB = ticketB64 -> xr_Peer pB = [] \/ xr_Peer pB = cl_Id clA -> xr_Out pB ≠ [] ->
  identityOf (xr_Identity pB) wB ≠ [] -> LoadProfile (identityOf (xr_Identity pB) wB) wB = (wB, Ok clB) -> xr_Out pB ≠ profilePath (cl_Id clB) ->
  sessionFor clB (cl_Id clA) = Some lb -> cl_heap clB !! lb = Some spB -> synced (Net spA spB [] []) ->
  oe_write envB = Written -> oe_stdout envB = true ->
  exists content wB' clA' clB' spA' spB',
    w_disk wA !! xs_File pA = Some content /\ XferRecv files boot envB dB pB wB = (wB', Ok tt) /\
    w_disk wB' = <[xr_Out pB := content]> (w_disk wB) /\
    (forall q, q ≠ xr_Out pB -> q ≠ profilePath (cl_Id clB) -> fileAt wB' q = fileAt wB q) /\
    w_clients wA' !! cl_Id clA' = Some clA' /\ cl_heap clA' !! la = Some spA' /\
    cl_Id clB' = cl_Id clB /\ w_clients wB' !! cl_Id clB' = Some clB' /\ cl_heap clB' !! lb = Some spB' /\ synced (Net spA' spB' [] []).
Proof.
  intros Hsend HloadA HidA HsA HhA Hok Hsize Hnet Hcd Hticket Hpeer Hout HidB HloadB _ HsB HhB Hsync Hwr Hstd.
  destruct (file_arrives envA envB dA dB pA pB wA wA' wB ticketB64 clA clB la lb spA spB trB) as (content & wB1 & clA' & clB' & spA' & spB' & Hc & Hrec & H); try done.
  pose proof (receive_disk envB dB files boot pB wB) as Hd. rewrite Hrec in Hd. cbn [fst] in Hd.
  assert (forall i, i ≠ cl_Id clB -> w_clients wB1 !! i = w_clients wB !! i) as Hcl.
  { intros i Hi. pose proof (receive_clients envB dB files boot pB wB i) as Hk. rewrite Hrec in Hk. apply Hk. intros cl E.
    unfold identityOf in HloadB. rewrite HloadB in E. by injection E as <-. }
  exists content. eexists. exists clA', clB', spA', spB'. split; [done|]. split.
  { unfold XferRecv. erewrite M_bind_run by exact Hrec. erewrite M_bind_run by (unfold writeFile; rewrite Hwr; reflexivity).
    unfold report, JSONOut. rewrite Hstd. instantiate (1 := if dp_JSON dB then _ else _). destruct (dp_JSON dB); reflexivity. }
  split; [destruct (dp_JSON dB); cbn; by rewrite Hd|]. split; [|by destruct (dp_JSON dB)].
  intros q Hq Hp. apply (fileAt_same _ _ _ (cl_Id clB)); [destruct (dp_JSON dB); exact Hcl| |done].
  destruct (dp_JSON dB); cbn; by rewrite lookup_insert_ne, Hd.
Qed.
End EndToEnd.

(** ** Any relay *)
Section Safety.
Context `{N : Nanopack} `{P : Prims} `{R : RecordStore} `{X : Surroundings} {T : Type}.
Context (files : Manager.Live -> FileTransport T) (boot : Manager.Live -> T -> T) (env : opEnv) (d : Ops.Deps).

(** The file of the ticket lies where it was asked for, and nothing else does. *)
Definition deliveredTo (p : XferRecvParams) (w w' : World T) : Prop := exists tid acc peer mf plain cl cl' cipher,
  recvPlan d p = Ok (tid, acc, peer, mf) /\ w_disk w' = <[xr_Out p := plain]> (w_disk w) /\
  sha256 plain = mf_FileHash mf /\ len plain = mf_PlainSize mf /\
  LoadProfile (identityOf (xr_Identity p) w) w = (w, Ok cl) /\
  Client_Decrypt (oe_save env 0) cl cipher = (cl', Ok (peer, plain)) /\ sha256 cipher = mf_CipherHash mf /\ len cipher = mf_CipherSize mf.

(** C11: Whatever the relay answers, only the file of the ticket is written.  On
    every outcome of [XferRecv] the only files that may have changed are the one
    asked for and the profile of the identity that receives, which decrypting
    saves.  When it succeeds the file asked for holds a text of the length and
    SHA-256 of the manifest, decrypted from a frame of the expected sender whose
    SHA-256 is the manifest's as well; when it fails before writing the file asked
    for is as it was. *)
Theorem received_file_is_the_manifests p (w w' : World T) r :
  XferRecv files boot env d p w = (w', r) ->
  (forall q, q ≠ xr_Out p -> (forall cl, LoadProfile (identityOf (xr_Identity p) w) w = (w, Ok cl) -> q ≠ profilePath (cl_Id cl)) -> fileAt w' q = fileAt w q) /\
  match r with
  | Ok _ => deliveredTo p w w'
  | Err OpStdout => deliveredTo p w w' \/ w_disk w' = w_disk w
  | Err OpWriteFile => True
  | _ => w_disk w' = w_disk w
  end.
Proof.
  unfold XferRecv. intros H. pose proof (receive_disk env d files boot p w) as Hd. pose proof (receive_clients env d files boot p w) as Hcl.
  unfold mbind at 1, M_bind at 1 in H. destruct (receive files boot env d p w) as [w1 [plain|e|]] eqn:Hr; cbn [fst] in Hd, Hcl.
  - apply receive_Ok in Hr as (tid & acc & peer & mf & cl & cl' & cipher & Hp & Hl & Hdec & Hc1 & Hc2 & Hp1 & Hp2).
    assert (w_clients w' = w_clients w1 /\ (forall q, q ≠ xr_Out p -> w_disk w' !! q = w_disk w !! q) /\
      ((r = Ok tt \/ r = Err OpStdout) /\ w_disk w' = <[xr_Out p := plain]> (w_disk w) \/ r = Err OpWriteFile)) as (Hc & Hq & Hcase).
    { unfold writeFile, mbind, M_bind, report, JSONOut in H. destruct (oe_write env), (dp_JSON d), (oe_stdout env);
        injection H as <- <-; cbn; rewrite <- Hd; conjs; eauto; intros q Hn; by rewrite ?lookup_insert_ne. }
    split.
    + intros q Hn Hid. apply (fileAt_same _ _ _ (cl_Id cl)); [|by apply Hq|by apply Hid].
      intros i Hi. rewrite Hc. apply Hcl. intros cl2 E. fold (identityOf (xr_Identity p) w) in E. fold (identityOf (xr_Identity p) w) in Hl. rewrite Hl in E. by injection E as <-.
    + assert (w_disk w' = <[xr_Out p := plain]> (w_disk w) -> deliveredTo p w w') as Hdt by (intros; by exists tid, acc, peer, mf, plain, cl, cl', cipher).
      destruct Hcase as [[[->| ->] Hw]| ->]; auto.
  - injection H as <- <-. split; [|by destruct e; auto]. intros q _ Hid. unfold fileAt, profileAt. rewrite Hd.
    destruct (hasSuffix _ q) eqn:Hs; [|done]. f_equal. apply Hcl. intros cl Hl E. apply (Hid cl Hl). rewrite E. by apply profilePath_ext.
  - injection H as <- <-. split; [|done]. intros q _ Hid. unfold fileAt, profileAt. rewrite Hd.
    destruct (hasSuffix _ q) eqn:Hs; [|done]. f_equal. apply Hcl. intros cl Hl E. apply (Hid cl Hl). rewrite E. by apply profilePath_ext.
Qed.

(** An answer of no to the question leaves everything as it is. *)
Theorem unconfirmed_changes_nothing (w : World T) id mailbox name p :
  dp_Confirm d = Some (Some false) ->
  Ops.Remove env d id w = (w, Err OpAborted) /\ Detach env d id mailbox w = (w, Err OpAborted) /\
  ContactRemove env d name w = (w, Err OpAborted) /\ (XferCancel files boot env d p w).1 = w /\ isOk (XferCancel files boot env d p w).2 = false.
Proof.
  intros Hc. assert (confirmed d = Err OpAborted) as Hn by (unfold confirmed, ConfirmOr; by rewrite Hc).
  assert (forall A (k : unit -> M T A), (lift (confirmed d) ≫= k) w = (w, Err OpAborted)) as Hl by (intros; by rewrite Hn).
  conjs; [apply Hl|apply Hl|apply Hl| |]; unfold XferCancel, mbind, M_bind, lift; rewrite Hn;
    destruct (hexOf 16 OpTransferHex (xl_TransferID p)); try done; destruct (hexOf 16 OpMailboxHex (xl_MailboxID p)); try done;
    destruct (SecretOr d (xl_Secret p)); try done; by destruct (hexOf 32 OpSecretHex _).
Qed.
End Safety.

(** ** A relay in memory, and a transfer over it *)
Abbreviation relay_t := (gmap bytes transfer).

Definition inPlace (x : transfer) : bool :=
  forallb (fun i => bool_decide (is_Some (tx_chunks x !! Z.of_nat i))) (seq 0 (Z.to_nat (tx_count x))).

Definition admits (x : transfer) (secret shard : bytes) : bool := (bytes_eqb (tx_secret x) secret && bytes_eqb (tx_shard x) shard)%bool.

#[local] Instance memoryRelay : FileTransport relay_t := {|
  ft_isFile _ := true;
  ft_XferCreate t m := (<[demoBytes 16 x01 := mkTx (demoBytes 32 x02) (str "https://relay") (xc_ChunkCount m) ∅ false]> t,
                        Ok (mkXferCreated (demoBytes 16 x01) 0 (demoBytes 32 x02) (str "https://relay")));
  ft_XferPut t m := match t !! xp_TransferID m with
                    | Some x => (<[xp_TransferID m := addChunk (xp_Index m) (xp_Payload m) x]> t, Ok (xp_Index m))
                    | None => (t, Err TrUnsupported)
                    end;
  ft_XferResume t _ _ _ := (t, Err TrUnsupported);
  ft_XferGet t _ _ _ _ := (t, Err TrUnsupported);
  ft_XferResumeByTicket t tid secret shard :=
    (t, match t !! tid with
        | Some x => if admits x secret shard then Ok (tx_count x, tx_count x, if (tx_sealed x && inPlace x)%bool then [] else [(0, tx_count x)]) else Err TrUnsupported
        | None => Err TrUnsupported
        end);
  ft_XferGetByTicket t tid i secret shard :=
    (t, match (x ← t !! tid; if admits x secret shard then tx_chunks x !! i else None) with Some c => Ok (c, sha256 c) | None => Err TrUnsupported end);
  ft_XferComplete t tid _ := match t !! tid with Some x => (<[tid := seal x]> t, Ok tt) | None => (t, Err TrUnsupported) end;
  ft_XferCancel t tid _ _ := (delete tid t, Ok tt);
  ft_XferRegister t _ _ := (t, Err TrUnsupported);
  ft_IdentityRegister t _ := (t, Err TrUnsupported);
  ft_XferResolve t _ _ := (t, Err TrUnsupported) |}.

Lemma admits_own x : admits x (tx_secret x) (tx_shard x) = true.
Proof. unfold admits, bytes_eqb. by rewrite !bool_decide_eq_true_2. Qed.

Lemma complete_inPlace x : complete x -> (tx_sealed x && inPlace x)%bool = true.
Proof.
  intros [-> H]. unfold inPlace. apply forallb_forall. intros i Hi%in_seq. apply bool_decide_eq_true_2, H. lia.
Qed.

#[local] Instance memoryRelay_honest : HonestRelay (fun _ => memoryRelay) (fun _ t => t).
Proof.
  refine {| held := fun (t : relay_t) tid => t !! tid |}.
  - done.
  - intros _ t m t' c [= <- <-]. apply lookup_insert_eq.
  - intros _ t m t' h x Hx. cbn. rewrite Hx. intros [= <- _]. apply lookup_insert_eq.
  - intros _ t tid hash t' x Hx. cbn. rewrite Hx. intros [= <-]. apply lookup_insert_eq.
  - intros _ t tid x Hx Hc. cbn. rewrite Hx, admits_own, complete_inPlace by done. by eexists _, _, _.
  - intros _ t tid x i c Hx Hc Hi. exists t. cbn. by rewrite Hx; cbn; rewrite admits_own, Hi.
Defined.

Lemma memory_put (tr : Manager.Live) (tid : bytes) (k : Z) (chunks : list bytes) : forall i (w : World relay_t), is_Some (w_net w !! tid) ->
  exists w', putChunks (fun _ => memoryRelay) tr tid k i chunks w = (w', Ok tt) /\ is_Some (w_net w' !! tid).
Proof.
  induction chunks as [|c chunks IH]; intros i w [x Hx]; cbn [putChunks]; [exists w; split; [done|by exists x]|].
  unfold trPut. erewrite M_bind_run by (apply netCall_run; cbn; rewrite Hx; reflexivity). apply IH. cbn. rewrite lookup_insert_eq. by eexists.
Qed.

Lemma memory_upload (tr : Manager.Live) (pub mbox shardURL identity cipher : bytes) (chunks : list bytes) (mf : Manifest) (body : bytes) (w : World relay_t) :
  MarshalTicket (mkTicket (demoBytes 16 x01) (demoBytes 32 x02) (str "https://relay") (manifestBytes mf) identity) = Ok body ->
  exists w' tid, upload (fun _ => memoryRelay) tr pub mbox shardURL identity cipher chunks mf w = (w', Ok (tid, EncodeTicketString body)).
Proof.
  intros Hm. unfold upload, trCreate. erewrite M_bind_run by (apply netCall_run; reflexivity). cbv zeta.
  cbn [xd_TransferID xd_DownloadSecret xd_ShardURL]. set (w1 := set_net _ w).
  destruct (memory_put tr (demoBytes 16 x01) (mf_ChunkSize mf) chunks 0 w1) as (w2 & Hp & x & Hx); [cbn; rewrite lookup_insert_eq; by eexists|].
  erewrite M_bind_run by exact Hp. unfold trComplete. erewrite M_bind_run by (apply netCall_run; cbn [ft_XferComplete memoryRelay]; rewrite Hx; reflexivity).
  rewrite Hm. by eexists _, _.
Qed.

(** The sending side, when everything is there. *)
Lemma XferSend_run `{Surroundings} (env : opEnv) (d : Ops.Deps) (p : XferSendParams) (tr : Manager.Live) (cl cl' : Client) (content cipher : bytes) (chunks : list bytes) (mf : Manifest) (pub mbox body : bytes) (w : World relay_t) :
  let files := fun _ : Manager.Live => memoryRelay in
  xs_Identity p ≠ [] -> w_disk w !! xs_File p = Some content -> LoadProfile (xs_Identity p) w = (w, Ok cl) -> w_open w = true ->
  Manager.mn_live (w_mgr w) !! xs_TransportID p = Some tr -> xferAddress (xs_Peer p) (xs_MailboxID p) (xs_ShardURL p) = Ok (pub, mbox) ->
  EncryptFile (oe_save env 0) (oe_rand env) cl (xs_Peer p) (baseName (xs_File p)) content (if xs_ChunkSize p <=? 0 then 32768 else xs_ChunkSize p)
    = (cl', Ok (cipher, chunks, mf)) ->
  MarshalTicket (mkTicket (demoBytes 16 x01) (demoBytes 32 x02) (str "https://relay") (manifestBytes mf) (xs_Identity p)) = Ok body -> oe_stdout env = true ->
  exists w', XferSend files (fun _ t => t) env d p w = (w', Ok (EncodeTicketString body)).
Proof.
  intros files Hid Hf Hl Hop Hlive Hx He Hm Hs. unfold XferSend.
  erewrite M_bind_run; [|unfold identityOr; erewrite M_bind_run by done; cbv zeta;
    rewrite (proj2 (bool_decide_eq_false (xs_Identity p = [])) Hid : bytes_eqb _ _ = false);
    rewrite (proj2 (bool_decide_eq_false (xs_Identity p = [])) Hid : bytes_eqb _ _ = false); reflexivity].
  erewrite M_bind_run by done. rewrite Hf. erewrite M_bind_run by done. erewrite M_bind_run by exact Hl.
  erewrite M_bind_run by (apply OpenManager_open; exact Hop). erewrite M_bind_run by (apply EnsureRunning_live; exact Hlive).
  erewrite M_bind_run; [|unfold requireFile; erewrite M_bind_run by done; reflexivity].
  rewrite Hx. erewrite M_bind_run by done. cbv beta iota zeta. erewrite M_bind_run; [|unfold onClient; rewrite He; reflexivity]. cbv beta iota.
  erewrite M_bind_run; [|unfold SaveClient_; erewrite M_bind_run by reflexivity; reflexivity].
  match goal with |- context [upload files tr pub mbox ?s ?i cipher chunks mf ≫= _] =>
    match goal with |- exists w', (_ ≫= _) ?w1 = _ => destruct (memory_upload tr pub mbox s i cipher chunks mf body w1 Hm) as (w2 & tid & Hup) end end.
  erewrite M_bind_run by exact Hup. cbv beta iota. erewrite M_bind_run by reflexivity.
  unfold report, JSONOut. rewrite Hs. destruct (dp_JSON d); by eexists.
Qed.

Definition xferPeer : bytes := hexEncode (demoBytes 32 x42).
Definition relayName : bytes := str "filerelay".
Definition relayLive : Manager.Live := Manager.mkLive relayName [] [] [].

Definition profileOf (id peer : bytes) (sp : SecurePeer) (loaded : bool) : Client :=
  mkClient id (demoBytes 64 x41) (demoBytes 32 x43) [] [] (if loaded then {[peer := 0%nat]} else ∅) false (if loaded then {[0%nat := sp]} else ∅)
    (if loaded then 1%nat else 0%nat) (Some {[peer := sp]}).

Lemma profile_loads id peer sp : LoadClient (profileOf id peer sp false) = Some (profileOf id peer sp true).
Proof. unfold LoadClient, profileOf. cbn [cl_disk mbind option_bind]. rewrite map_to_list_singleton. cbn. by rewrite !insert_empty. Qed.

Definition xferWorld (id peer : bytes) (sp : SecurePeer) (net : relay_t) (disk : fs) : World relay_t :=
  mkWorld (Manager.mkManager [] ∅ Manager.emptyState None {[relayName := relayLive]}) true net disk {[id := profileOf id peer sp false]} None [].

Lemma world_profile id peer sp net disk : LoadProfile id (xferWorld id peer sp net disk) = (xferWorld id peer sp net disk, Ok (profileOf id peer sp true)).
Proof. unfold LoadProfile, xferWorld. cbn [w_clients]. rewrite lookup_singleton_eq. cbn [mbind option_bind]. by rewrite profile_loads. Qed.

Definition demoManagerEnv : Manager.env := Manager.mkEnv true true (fun _ => true) true true true (fun _ => true) [] demoIO id.

Definition demoOpEnv : opEnv :=
  mkOpEnv true (fun _ => demoManagerEnv) true true (fun _ => true) Written (demoBytes 32 x22) [] [] (demoRand x01 x02) [] None 0 noFaults map_to_list
    demoIO demoIO demoIO (fun _ _ => demoDispatch) 0.

Definition demoDeps_ : Ops.Deps := Ops.mkDeps true false None None.

#[local] Instance noSurroundings : Surroundings := {|
  ex_unzip _ := None; ex_manifest _ := None; ex_object _ := false; ex_strings _ := None; ex_contacts _ := None; ex_threads _ := None;
  ex_contexts _ := None; ex_policies _ := None; ex_deliveries _ := None; ex_uni s := s; ex_dpText _ := str "failed"; ex_trText _ := str "failed" |}.

Definition xferSend : XferSendParams := mkSendParams relayName demoCreator xferPeer [] [] (str "in/a.txt") 100.
Definition xferRecv (ticket : bytes) : XferRecvParams := mkRecvParams relayName (str "bo") [] ticket [] [] [] [] [] (str "out.txt").

Definition xferA : Client := profileOf demoCreator xferPeer demoA true.
Definition xferEnc := EncryptFile true (demoBytes 32 x22) xferA xferPeer (str "a.txt") demoFile 100.

Lemma xferEnc_ok : match xferEnc.2 with Ok (cipher, chunks, _) => (len cipher <? 2 ^ 32) && (1 <? len chunks) | _ => false end = true.
Proof. vm_compute. reflexivity. Qed.

Lemma xfer_size io cl' w : Client_Encrypt io (demoBytes 32 x22) xferA xferPeer demoFile = (cl', Ok w) -> len w < 2 ^ 32.
Proof.
  intros H. assert (match (Client_Encrypt io (demoBytes 32 x22) xferA xferPeer demoFile).2 with Ok w => len w <? 2 ^ 32 | _ => true end = true) as Hs
    by (destruct io; vm_compute; reflexivity).
  rewrite H in Hs. by apply Z.ltb_lt.
Qed.

Definition xferWorldA : World relay_t := xferWorld demoCreator xferPeer demoA ∅ {[str "in/a.txt" := demoFile]}.
Definition xferWorldB (net : relay_t) : World relay_t := xferWorld (str "bo") demoCreator demoB net {[str "notes.txt" := str "mine"]}.

(** The sending succeeds. *)
Lemma demo_sent : exists wA' ticket, XferSend (fun _ => memoryRelay) (fun _ t => t) demoOpEnv demoDeps_ xferSend xferWorldA = (wA', Ok ticket).
Proof.
  destruct xferEnc as [ca' r] eqn:H. pose proof xferEnc_ok as Ho. rewrite H in Ho. cbn [snd] in Ho.
  destruct r as [[[cipher chunks] mf]|e|]; [|discriminate|discriminate].
  pose proof (EncryptFile_inv _ _ _ _ _ _ _ _ _ _ _ H) as (_ & _ & _ & _ & Hmf).
  destruct (demo_ticket (len demoFile) (len cipher) (effectiveChunk 100) (len chunks) (sha256 demoFile) (sha256 cipher)
    (length_sha256 _) (length_sha256 _)) as (raw & body & Hraw & Hbody). rewrite <- Hmf in Hraw.
  assert (manifestBytes mf = raw) as Hmb by (unfold manifestBytes; rewrite Hraw; reflexivity). rewrite <- Hmb in Hbody.
  destruct (XferSend_run demoOpEnv demoDeps_ xferSend relayLive xferA ca' demoFile cipher chunks mf (demoBytes 32 x42) [] body xferWorldA) as (wA' & Hsend).
  - vm_compute. discriminate.
  - exact (lookup_singleton_eq _ _).
  - apply world_profile.
  - reflexivity.
  - exact (lookup_singleton_eq _ _).
  - vm_compute. reflexivity.
  - exact H.
  - exact Hbody.
  - reflexivity.
  - by exists wA', (EncodeTicketString body).
Qed.

Lemma demo_A_ready : send_ok (oe_rand demoOpEnv) demoA.
Proof. split; [reflexivity|]. split; [vm_compute; discriminate|vm_compute; reflexivity]. Qed.

Lemma demo_A_size (io : bool) (cl' : Client) (w : bytes) :
  Client_Encrypt io (oe_rand demoOpEnv) xferA (xs_Peer xferSend) (default [] (w_disk xferWorldA !! xs_File xferSend)) = (cl', Ok w) -> len w < 2 ^ 32.
Proof. change (default [] _) with demoFile. apply xfer_size. Qed.

Lemma demo_B_ready net ticket : can_download (fun _ => memoryRelay) (xferRecv ticket) relayLive (xferWorldB net).
Proof. split; [reflexivity|exact (lookup_singleton_eq _ _)|reflexivity]. Qed.

(** The receiving succeeds. *)
Lemma demo_received wA' ticket :
  XferSend (fun _ => memoryRelay) (fun _ t => t) demoOpEnv demoDeps_ xferSend xferWorldA = (wA', Ok ticket) ->
  exists wB', XferRecv (fun _ => memoryRelay) (fun _ t => t) demoOpEnv demoDeps_ (xferRecv ticket) (xferWorldB (w_net wA')) = (wB', Ok tt).
Proof.
  intros Hsend. destruct (file_arrives (fun _ => memoryRelay) (fun _ t => t) demoOpEnv demoOpEnv demoDeps_ demoDeps_ xferSend
      (xferRecv ticket) xferWorldA wA' (xferWorldB (w_net wA')) ticket xferA (profileOf (str "bo") demoCreator demoB true)
      0%nat 0%nat demoA demoB relayLive) as (content & wB' & ca & cb & sa & sb & _ & Hr & _).
  - exact Hsend.
  - apply world_profile.
  - reflexivity.
  - vm_compute. reflexivity.
  - reflexivity.
  - exact demo_A_ready.
  - exact demo_A_size.
  - reflexivity.
  - apply demo_B_ready.
  - reflexivity.
  - left. reflexivity.
  - vm_compute. discriminate.
  - vm_compute. discriminate.
  - apply world_profile.
  - vm_compute. reflexivity.
  - reflexivity.
  - exact demo_synced.
  - unfold XferRecv. erewrite M_bind_run by exact Hr. by eexists.
Qed.

Lemma file_sent_is_received_witness : exists wA' ticket wB',
  XferSend (fun _ => memoryRelay) (fun _ t => t) demoOpEnv demoDeps_ xferSend xferWorldA = (wA', Ok ticket) /\
  XferRecv (fun _ => memoryRelay) (fun _ t => t) demoOpEnv demoDeps_ (xferRecv ticket) (xferWorldB (w_net wA')) = (wB', Ok tt) /\
  fileAt wB' (str "out.txt") = (None, Some demoFile) /\ fileAt wB' (str "notes.txt") = (None, Some (str "mine")).
Proof.
  destruct demo_sent as (wA' & ticket & Hsend).
  destruct (file_sent_is_received (fun _ => memoryRelay) (fun _ t => t) demoOpEnv demoOpEnv demoDeps_ demoDeps_ xferSend
      (xferRecv ticket) xferWorldA wA' (xferWorldB (w_net wA')) ticket xferA (profileOf (str "bo") demoCreator demoB true)
      0%nat 0%nat demoA demoB relayLive) as (content & wB' & ca & cb & sa & sb & Hd & Hr & Hw & Hq & _).
  - exact Hsend.
  - apply world_profile.
  - reflexivity.
  - vm_compute. reflexivity.
  - reflexivity.
  - exact demo_A_ready.
  - exact demo_A_size.
  - reflexivity.
  - apply demo_B_ready.
  - reflexivity.
  - left. reflexivity.
  - vm_compute. discriminate.
  - vm_compute. discriminate.
  - apply world_profile.
  - vm_compute. discriminate.
  - vm_compute. reflexivity.
  - reflexivity.
  - exact demo_synced.
  - reflexivity.
  - reflexivity.
  - exists wA', ticket, wB'. split; [exact Hsend|]. split; [exact Hr|].
    change (Some demoFile = Some content) in Hd. injection Hd as <-. split.
    + unfold fileAt. rewrite Hw, lookup_insert_eq. reflexivity.
    + rewrite Hq; [reflexivity|discriminate|discriminate].
Defined.

Lemma received_file_is_the_manifests_witness : exists wA' ticket wB',
  XferRecv (fun _ => memoryRelay) (fun _ t => t) demoOpEnv demoDeps_ (xferRecv ticket) (xferWorldB (w_net wA')) = (wB', Ok tt) /\
  deliveredTo demoOpEnv demoDeps_ (xferRecv ticket) (xferWorldB (w_net wA')) wB' /\ fileAt wB' (str "notes.txt") = (None, Some (str "mine")).
Proof.
  destruct demo_sent as (wA' & ticket & Hsend). destruct (demo_received wA' ticket Hsend) as (wB' & Hr).
  exists wA', ticket, wB'. split; [exact Hr|].
  destruct (received_file_is_the_manifests (fun _ => memoryRelay) (fun _ t => t) demoOpEnv demoDeps_ (xferRecv ticket) (xferWorldB (w_net wA')) wB' (Ok tt) Hr) as [Hq Hd].
  split; [exact Hd|]. rewrite Hq; [reflexivity|discriminate|].
  intros cl Hl. unfold xferWorldB in Hl. change (identityOf _ _) with (str "bo") in Hl. rewrite world_profile in Hl. injection Hl as <-. discriminate.
Defined.

Lemma unconfirmed_changes_nothing_witness :
  let w := xferWorld (str "bo") demoCreator demoB ∅ ∅ in Ops.Remove demoOpEnv (Ops.mkDeps true false None (Some (Some false))) relayName w = (w, Err OpAborted).
Proof.
  intros w. apply (unconfirmed_changes_nothing (fun _ => memoryRelay) (fun _ t => t) demoOpEnv (Ops.mkDeps true false None (Some (Some false))) w
    relayName [] [] (mkCancelParams [] [] [] [])). reflexivity.
Defined.
