(* ===== verification/OpsMessages.v ===== *)
(** * The operations: theorems on polling and messages

    Which mailboxes a poll asks for, that a poll is the receive path run on the
    frames it got with every reply sent once, and that a message sent with [MessageSend] over an honest relay
    is in the mailbox after the recipient's [Poll], in memory and on disk. *)
From S2P Require Import Prelude GoStd Sha256 External SecurePeer SecurePeerFacts Session Engine EngineFacts SessionTheorems Client ClientFacts Frame Binstore.
From S2P Require Import Records MultiMsg MultiStore MultiStoreTheorems Fanout FanoutTheorems GroupDelivery Mailbox MailboxTheorems MailboxSaved Dispatch DispatchTheorems FileTransfer.
From S2P Require Import Rpc Manager Shell Transport Ops OpsFrames OpsXfer OpsFacts OpsTheorems.
#[local] Open Scope Z_scope.

Import Rpc Transport Ops Frames.

(** ** Which mailboxes a poll asks for *)

(** Without a mailbox to look for, a poll asks for the mailboxes that are not
    owned by somebody else, all of them and in order, unless there are none: then
    it asks for every mailbox, the foreign ones included.  With a mailbox, for
    that one, whoever owns it. *)
Theorem poll_selects identity mailbox atts :
  identity ≠ [] ->
  selectMailboxes identity mailbox atts =
    if negb (bytes_eqb mailbox []) then
      match List.find (fun a => bytes_eqb (Manager.at_MailboxID a) mailbox) atts with Some a => Ok [a] | None => Err OpNotAttached end
    else if bool_decide (atts = []) then Err OpNoMailboxes
    else if forallb (foreign identity) atts then Ok atts
    else Ok (List.filter (fun a => negb (foreign identity a)) atts).
Proof.
  intros Hid. unfold selectMailboxes. destruct (negb (bytes_eqb mailbox [])); [done|].
  rewrite (bool_decide_eq_false_2 (identity = []) Hid : bytes_eqb _ _ = false). cbn [negb andb].
  assert (forall l, existsb (fun a => negb (bytes_eqb (Manager.at_Owner a) [])) l = false -> List.filter (fun a => negb (foreign identity a)) l = l /\
    (l = [] \/ forallb (foreign identity) l = false)) as Hno.
  { clear atts. induction l as [|a l IH]; [by auto|]. cbn [existsb List.filter forallb]. intros [Ha Hl]%orb_false_iff. assert (foreign identity a = false) as -> by (unfold foreign; by rewrite Ha). cbn [andb negb].
    destruct (IH Hl) as [-> _]. split; [done|by right]. }
  assert (forall l, List.filter (fun a => negb (foreign identity a)) l = [] <-> forallb (foreign identity) l = true) as Hall.
  { clear. induction l as [|a l IH]; [done|]. cbn [List.filter forallb]. destruct (foreign identity a); cbn [negb andb]; [done|]. by split. }
  destruct (existsb _ atts) eqn:Hex.
  - destruct (List.filter (fun a => negb (foreign identity a)) atts) as [|a l] eqn:Hf.
    + rewrite (proj1 (Hall atts) Hf). by destruct atts.
    + destruct (forallb (foreign identity) atts) eqn:Hfa; [by rewrite (proj2 (Hall atts) Hfa) in Hf|]. case_bool_decide as H1; [done|]. by case_bool_decide; [subst|].
  - destruct (Hno _ Hex) as [-> Hor]. case_bool_decide as Hn; [done|]. destruct Hor as [?| ->]; [done|]. done.
Qed.

Lemma poll_selects_witness :
  let a := Manager.mkAttachment (str "m1") [] [] [] (str "bob") in selectMailboxes (str "alice") [] [a] = Ok [a].
Proof. intros a. rewrite (poll_selects (str "alice") [] [a]); [reflexivity|discriminate]. Defined.

Section Polling.
Context `{N : Nanopack} `{P : Prims} `{J : LegacyJSON} `{R : RecordStore} `{X : Surroundings} {T : Type}.
Context (frames : Manager.Live -> FrameTransport T).

(** ** A poll is the receive path *)

(** What is handed to the callback does not depend on what it answers. *)
Lemma replies_same (e : dispatchEnv) (dd : deps) f o o' :
  is_Some o -> is_Some o' -> (DispatchFrame (withSend o e) dd f).1.2 = (DispatchFrame (withSend o' e) dd f).1.2.
Proof.
  intros [b ->] [b' ->]. unfold DispatchFrame. destruct (Unwrap f) as [[t data]|e0|]; [|done|done].
  assert ((handleOffer (withSend (Some b) e) dd data).1.2 = (handleOffer (withSend (Some b') e) dd data).1.2) as Ho.
  { unfold handleOffer. destruct (decodeOffer data) as [o|e0|]; [|done|done]. cbn [de_save de_rand de_encaps de_send withSend].
    destruct (Client_AcceptOffer _ _ _ _ _) as [cl r]. destruct r as [w|e0|]; [|done|done]. by destruct b, b'. }
  destruct t; done.
Qed.

(** A frame is replied to at most once. *)
Lemma replies_one (e : dispatchEnv) (dd dd' : deps) f l r : DispatchFrame e dd f = (dd', l, r) -> (length l <= 1)%nat.
Proof.
  unfold DispatchFrame, handleOffer, handleAnswer, handleMessage, handleMultiMessage. cbv zeta.
  repeat case_match; intros [= _ <- _]; cbn; lia.
Qed.

(** The worlds a list of replies leads through, each sent over the transport in
    turn, with the outcome of its sending. *)
Inductive sent (tr : Manager.Live) (self : bytes) : World T -> list (reply * bool) -> World T -> Prop :=
| sent_none w : sent tr self w [] w
| sent_ok w r w1 l w2 : sendReply frames tr self r w = (w1, Ok tt) -> sent tr self w1 l w2 -> sent tr self w ((r, true) :: l) w2
| sent_failed w r e w1 l w2 : sendReply frames tr self r w = (w1, Err e) -> sent tr self w1 l w2 -> sent tr self w ((r, false) :: l) w2.

Lemma sent_app tr self w l w1 l' w2 : sent tr self w l w1 -> sent tr self w1 l' w2 -> sent tr self w (l ++ l') w2.
Proof. induction 1; intros H2; [done|eapply sent_ok; by eauto|eapply sent_failed; by eauto]. Qed.

Lemma sendReplies_sent tr self l (w w' : World T) ok : (length l <= 1)%nat -> sendReplies frames tr self l w = (w', Ok ok) ->
  exists log, sent tr self w log w' /\ log.*1 = l /\ ok = forallb snd log.
Proof.
  intros Hl H. destruct l as [|r [|? ?]]; [| |cbn in Hl; lia]; cbn [sendReplies] in H.
  - injection H as <- <-. exists []. split; [constructor|done].
  - destruct (sendReply frames tr self r w) as [w1 [[]|e|]] eqn:Hr; unfold mbind, M_bind, attempt in H; rewrite Hr in H; [| |done]; injection H as <- <-.
    + exists [(r, true)]. split; [|done]. eapply sent_ok; [done|constructor].
    + exists [(r, false)]. split; [|done]. eapply sent_failed; [done|constructor].
Qed.

(** The frames of a mailbox with what their replies came to. *)
Definition batchOf (env : opEnv) (i j : nat) (logs : list (list (reply * bool))) (l : list bytes) : list (dispatchEnv * bytes) :=
  zip_with (fun log jf => (withSend (Some (forallb snd log)) (oe_frames env i jf.1), jf.2)) logs (zip (seq j (length l)) l).

(** C36: The frames of a mailbox are dispatched as one batch, and the replies of the
    batch are what is sent over the transport: those of each frame in turn, each
    exactly once and in order, the outcome of sending it being the outcome the
    batch is told.  The events are the batch's, and the world changes by the
    sending alone. *)
Theorem poll_is_dispatch tr self env i : forall l j (dd dd' : deps) (w w' : World T) events,
  dispatchFrames frames env tr self i j dd l w = (w', Ok (dd', events)) ->
  exists logs, length logs = length l /\ sent tr self w (mjoin logs) w' /\
    DispatchBatch ex_dpText dd (batchOf env i j logs l) = (dd', (mjoin logs).*1, Ok events) /\
    forall n, exists d evs, DispatchBatch ex_dpText dd (take n (batchOf env i j logs l)) = (d, (mjoin (take n logs)).*1, Ok evs).
Proof.
  induction l as [|f l IH]; intros j dd dd' w w' events H; cbn [dispatchFrames] in H.
  - injection H as <- <- <-. exists []. split; [done|]. split; [constructor|]. split; [done|]. intros n. exists dd, []. by destruct n.
  - m_step H. m_step H. injection H as <- <- <-. unfold dispatchFrame in Hs.
    destruct (DispatchFrame (withSend (Some true) (oe_frames env i j)) dd f) as [[d0 replies] r0] eqn:H0. m_step Hs.
    apply sendReplies_sent in Hs1 as (log & Hsent & Hfst & ->); [|by eapply replies_one].
    destruct (DispatchFrame (withSend (Some (forallb snd log)) (oe_frames env i j)) dd f) as [[d1 replies1] r1] eqn:Hd.
    assert (replies1 = log.*1) as ->.
    { rewrite Hfst. pose proof (replies_same (oe_frames env i j) dd f (Some true) (Some (forallb snd log)) ltac:(by eexists) ltac:(by eexists)) as E.
      rewrite H0, Hd in E. cbn in E. done. }
    destruct (IH (S j) a a0 _ _ _ Hs0) as (logs & Hl & Hmore & Hb & Hpre).
    exists (log :: logs). split; [by cbn; f_equal|]. unfold batchOf. cbn [seq length zip zip_with fst snd]. fold (length l).
    fold (batchOf env i (S j) logs l). change (mjoin (log :: logs)) with (log ++ mjoin logs). rewrite fmap_app. cbn [DispatchBatch]. rewrite Hd.
    assert (r1 ≠ Panic /\ a = d1 /\ sent tr self w log w0) as (Hr & -> & Hsent').
    { destruct r1 as [[ev|]|e|]; cbv beta iota in Hs; [| | |done]; inversion Hs; subst; done. }
    split; [by eapply sent_app|]. split.
    + destruct r1 as [[ev|]|e|]; cbv beta iota in Hs; [| | |done]; injection Hs as _ <-; by rewrite Hb.
    + intros [|n]; [exists dd, []; done|]. cbn [take DispatchBatch]. rewrite Hd. destruct (Hpre n) as (d & evs & Hn). rewrite Hn.
      change (mjoin (log :: take n logs)) with (log ++ mjoin (take n logs)). rewrite fmap_app.
      destruct r1 as [[ev|]|e|]; [| | |done]; eexists _, _; reflexivity.
Qed.

End Polling.

(** ** What a relay promises about messages *)

(** What there is to know of a relay: the frames that wait in a mailbox, the
    mailbox a route leads to, which mailboxes are attached, which addresses open
    one, and that the relay works. *)
Class MailView (T : Type) := {
  queue : T -> bytes -> list bytes;
  dest : RouteHint -> bytes;
  attached : T -> bytes -> Prop;
  opens : T -> Manager.Attachment -> Prop;
  sound : T -> Prop;
}.

Definition mailboxOf (att : Manager.Attachment) : bytes := hexPrefix (Manager.at_MailboxID att).

(** A frame that a relay accepts is added to the mailbox its route leads to; who
    has attached a mailbox gets frames of it, as many as they ask for, and those
    are then gone.  In which order the frames come is left open. *)
Class HonestMail {T : Type} `{MailView T} (frames : Manager.Live -> FrameTransport T) (boot : Manager.Live -> T -> T) : Prop := {
  hm_boot tr t mid : sound t -> sound (boot tr t) /\ queue (boot tr t) mid = queue t mid;
  hm_send tr t f h t' : sound t -> @ft_SendFrame T (frames tr) t f h = (t', Ok tt) ->
    sound t' /\ queue t' (dest h) ≡ₚ queue t (dest h) ++ [f];
  hm_attach tr t att : sound t -> opens t att ->
    exists t', @ft_AttachMailbox T (frames tr) t (mailboxOf att) (hexPrefix (Manager.at_ReadSecret att)) (Manager.at_ShardURL att) (Manager.at_RouterURL att) = (t', Ok tt) /\
      sound t' /\ attached t' (mailboxOf att) /\ queue t' (mailboxOf att) = queue t (mailboxOf att);
  hm_poll tr t limit mid : sound t -> attached t mid -> 0 < limit <= 32 ->
    exists t' got, @ft_PollFrames T (frames tr) t limit mid = (t', Ok got) /\ sound t' /\
      length got = Nat.min (Z.to_nat limit) (length (queue t mid)) /\ queue t mid ≡ₚ got ++ queue t' mid;
}.

Section Delivery.
Context `{N : Nanopack} `{NL : !NanopackLaws} `{NS : !NanopackSize} `{P : Prims} `{PL : !PrimLaws} `{J : LegacyJSON} `{R : RecordStore} `{RL : !RecordStoreLaws} `{X : Surroundings} {T : Type}.
Context (frames : Manager.Live -> FrameTransport T) (boot : Manager.Live -> T -> T) `{MV : MailView T} `{HM : !HonestMail frames boot}.

Lemma EnsureRunning_queue env k id (w w' : World T) r mid : sound (w_net w) -> EnsureRunning env boot k id w = (w', r) ->
  sound (w_net w') /\ queue (w_net w') mid = queue (w_net w) mid.
Proof.
  intros Hs. unfold EnsureRunning. destruct (Manager.EnsureRunning _ _ _ _ _) as [m o].
  destruct o as [a|e|], (Manager.mn_live (w_mgr w) !! id); intros [= <- _]; cbn; try done. by apply hm_boot.
Qed.

Lemma Client_Encrypt_public io rnd c bob pt c' r : Client_Encrypt io rnd c bob pt = (c', r) -> cl_IdentityPublic c' = cl_IdentityPublic c.
Proof. unfold Client_Encrypt, SaveClient. repeat case_match; intros [= <- _]; done. Qed.

Lemma SaveClient_public io c : cl_IdentityPublic (SaveClient io c) = cl_IdentityPublic c.
Proof. unfold SaveClient. by repeat case_match. Qed.

(** What a successful sending has done. *)
Lemma MessageSend_Ok env d p (w w' : World T) : sound (w_net w) -> MessageSend frames boot env d p w = (w', Ok tt) ->
  exists cl cl' cipher pub hint,
    LoadProfile (identityOf (mp_Identity p) w) w = (w, Ok cl) /\
    Client_Encrypt (oe_save env 0) (oe_rand env) cl (mp_Peer p) (messageBody (mp_Text p) (mp_TicketB64 p)) = (cl', Ok cipher) /\
    resolveRecipient (mp_Peer p) = Ok pub /\ messageHint (mp_MailboxID p) (mp_ShardURL p) pub (cl_IdentityPublic cl) w = (w, Ok hint) /\
    queue (w_net w') (dest hint) ≡ₚ queue (w_net w) (dest hint) ++ [WrapFrame TypeMessage cipher] /\
    w_clients w' !! cl_Id cl' = Some (SaveClient (oe_save env 1) cl').
Proof.
  unfold MessageSend. intros Hsound H. m_step H. assert (w0 = w) as ->.
  { unfold relayOr in Hs. m_step Hs. cbv zeta in Hs. destruct (bytes_eqb _ []) in Hs; by injection Hs. }
  m_step H. apply identityOr_Ok in Hs0 as (-> & -> & _). fold (identityOf (mp_Identity p) w) in H.
  destruct (_ && _)%bool; [done|]. m_step H. apply LoadProfile_Ok in Hs0 as [-> Hload].
  m_step H. apply onClient_Ok in Hs0 as [Henc ->]. m_step H. apply SaveClient_run in Hs0 as [-> ->]. m_step H. m_step H.
  assert (w0 = set_clients (<[cl_Id (SaveClient (oe_save env 1) a1) := SaveClient (oe_save env 1) a1]> (<[cl_Id a1 := a1]> (w_clients w))) w /\
    messageHint (mp_MailboxID p) (mp_ShardURL p) a2 (cl_IdentityPublic a0) w = (w, Ok a3)) as [-> Hh].
  { revert Hs1. unfold messageHint. rewrite SaveClient_public, (Client_Encrypt_public _ _ _ _ _ _ _ Henc). cbn. intros [= <- <-]. done. }
  clear Hs1. m_step H. keep w_net Hs1. keep w_clients Hs1. m_step H. assert (sound (w_net w0)) as Hsound0 by (by rewrite K). destruct (EnsureRunning_queue _ _ _ _ _ _ (dest a3) Hsound0 Hs2) as [Hsound' Hq]. keep w_clients Hs2.
  m_step H. unfold trSendFrame in Hs3. apply netCall_Ok in Hs3 as (t & Hsend & ->). apply (hm_send _ _ _ _ _ Hsound') in Hsend as [_ Hsend].
  m_step H. keep w_net Hs3. keep w_clients Hs3. keep w_net H. keep w_clients H. cbn in *.
  exists a0, a1, b, a2, a3. conjs; [done|done|done|done| |].
  - by rewrite K4, K2, Hsend, Hq, K.
  - rewrite K5, K3, K1, K0, (proj2 (SaveClient_same (oe_save env 1) a1)). apply lookup_insert_eq.
Qed.

(** Handling a message leaves the group stores alone. *)
Lemma handleMessage_stores {S D} `{ContextStore S} `{DeliveryStore D} (e : dispatchEnv) (dd dd' : Dispatch.Deps S D) data o : handleMessage e dd data = (dd', [], o) ->
  CtxStore (dp_fanout dd') = CtxStore (dp_fanout dd) /\ fo_deliveryStore (dp_fanout dd') = fo_deliveryStore (dp_fanout dd).
Proof. unfold handleMessage. repeat case_match; by intros [= <- _]. Qed.

Lemma patch_same (b c : fs) : patch b b c = c.
Proof.
  unfold patch. apply map_eq. intros k. rewrite lookup_union. 
  assert (filter (fun kv => b !! kv.1 ≠ Some kv.2) b !! k = None) as ->.
  { apply map_lookup_filter_None. right. intros x Hx. cbn. by intros []. }
  rewrite (left_id_L None _). destruct (c !! k) as [x|] eqn:Hc.
  - apply map_lookup_filter_Some. split; [done|]. cbn. destruct (b !! k); [right; by eexists|by left].
  - apply map_lookup_filter_None. by left.
Qed.

(** What the stores that [OpenDeps] opened have not changed is not settled anew. *)
Lemma settle_opened env cl (w w' : World T) (dd dd' : deps) mb : OpenDeps env cl w = (w', Ok dd) ->
  CtxStore (dp_fanout dd') = CtxStore (dp_fanout dd) -> fo_deliveryStore (dp_fanout dd') = fo_deliveryStore (dp_fanout dd) ->
  dp_mailbox dd' = Some mb -> settle dd' (w_disk w') = Mailbox.disk mb.
Proof.
  intros H Hc Hd Hm. unfold settle. rewrite Hc, Hd, Hm. revert H. unfold OpenDeps.
  destruct (Mailbox.Load _ _ _ _) as [st|e|]; [| |done]; destruct (OpenIdentityStores _ _ _ _ _ _ _) as [[cs ds]|e1|]; try done;
    intros [= <- <-]; cbn; by rewrite ?patch_same.
Qed.

Lemma OpenDeps_client env cl (w w' : World T) dd : OpenDeps env cl w = (w', Ok dd) -> dp_client dd = cl.
Proof.
  unfold OpenDeps. destruct (Mailbox.Load _ _ _ _) as [st|e|]; [| |done]; destruct (OpenIdentityStores _ _ _ _ _ _ _) as [[cs ds]|e1|]; try done;
    by intros [= _ <-].
Qed.

Definition eventsOf (r : res dp_err (option Event)) : list Event :=
  match r with Ok (Some ev) => [ev] | Err e => [errorEvent ex_dpText e] | _ => [] end.

Lemma dispatchFrame_run tr self e (dd dd' : deps) r (w : World T) f :
  DispatchFrame (withSend (Some true) e) dd f = (dd', [], r) -> r ≠ Panic -> dispatchFrame frames tr self e dd f w = (w, Ok (dd', eventsOf r)).
Proof.
  intros Hd Hr. unfold dispatchFrame. rewrite Hd. cbn [sendReplies]. erewrite M_bind_run by reflexivity. rewrite Hd. by destruct r as [[ev|]|e'|].
Qed.

(** Polling a mailbox with one frame that is not replied to. *)
Lemma pollMailbox_run env tr self limit i att (dd dd' : deps) r (w : World T) f :
  let mid := mailboxOf att in
  sound (w_net w) -> opens (w_net w) att -> queue (w_net w) mid = [f] -> 0 < limit <= 32 ->
  DispatchFrame (withSend (Some true) (oe_frames env i 0)) dd f = (dd', [], r) -> r ≠ Panic ->
  exists t, pollMailbox frames env tr self limit i att dd w = (set_net t w, Ok (dd', eventsOf r)).
Proof.
  intros mid Hs Hop Hq Hl Hd Hr. destruct (hm_attach tr (w_net w) att Hs Hop) as (t1 & Ha & Hs1 & Hat & Hq1). fold mid in Ha, Hat, Hq1.
  destruct (hm_poll tr t1 limit mid Hs1 Hat Hl) as (t2 & got & Hp & _ & Hlen & Hperm). rewrite Hq1, Hq in Hlen, Hperm. cbn [length] in Hlen.
  assert (got = [f]) as ->.
  { assert (length got = 1%nat) as Hl1 by lia. destruct got as [|g [|? ?]]; [done| |done]. apply Permutation_length in Hperm as Hn. cbn [length app] in Hn.
    destruct (queue t2 mid); [|done]. symmetry in Hperm. by apply Permutation_singleton_r in Hperm. }
  exists t2. unfold pollMailbox. fold (mailboxOf att). fold mid. erewrite M_bind_run; [|unfold attempt, trAttach; rewrite (netCall_run _ _ _ _ Ha); reflexivity]. cbv beta iota.
  erewrite M_bind_run; [|unfold attempt, trPoll; erewrite netCall_run by exact Hp; reflexivity]. cbv beta iota. cbn [dispatchFrames].
  rewrite (M_bind_run _ _ _ _ _ (dispatchFrame_run _ _ _ _ _ _ _ _ Hd Hr)). cbv beta iota. unfold mbind, M_bind, mret, M_ret. by rewrite app_nil_r.
Qed.

(** The transport polled with runs, and the mailbox is the one to poll. *)
Record can_poll (p : PollParams) (tr : Manager.Live) (att : Manager.Attachment) (w : World T) : Prop := {
  cq_format : formatOK (pp_Format p) = true;
  cq_identity : identityOf (pp_Identity p) w ≠ [];
  cq_open : w_open w = true;
  cq_live : Manager.mn_live (w_mgr w) !! pp_TransportID p = Some tr;
  cq_select : selectMailboxes (identityOf (pp_Identity p) w) (pp_Mailbox p) (Manager.Attachments (w_mgr w) (pp_TransportID p)) = Ok [att];
}.

Lemma optional_out env (c : bool) v (w : World T) : oe_stdout env = true ->
  exists w', (if c then JSONOut env v else mret tt) w = (w', Ok tt) /\ w_disk w' = w_disk w /\ w_clients w' = w_clients w.
Proof. intros Hs. destruct c; [|by exists w]. unfold JSONOut. rewrite Hs. by eexists. Qed.

Lemma Poll_run env d p tr att cl (dd dd' : deps) r (w w1 : World T) f :
  let mid := mailboxOf att in
  sound (w_net w) -> can_poll p tr att w -> LoadProfile (identityOf (pp_Identity p) w) w = (w, Ok cl) -> OpenDeps env cl w = (w1, Ok dd) ->
  opens (w_net w) att -> queue (w_net w) mid = [f] ->
  DispatchFrame (withSend (Some true) (oe_frames env 0 0)) dd f = (dd', [], r) -> r ≠ Panic -> oe_stdout env = true ->
  exists w', Poll frames boot env d p w = (w', Ok (eventsOf r)) /\ w_disk w' = settle dd' (w_disk w1) /\
    w_clients w' !! cl_Id (dp_client dd') = Some (SaveClient (oe_save env 0) (dp_client dd')).
Proof.
  intros mid Hsound [Hf Hid Hop Hlive Hsel] Hload Hdd Hopens Hq Hd Hr Hs.
  assert (w_net w1 = w_net w) as Hn.
  { revert Hdd. unfold OpenDeps. destruct (Mailbox.Load _ _ _ _) as [st|e|]; [| |done]; destruct (OpenIdentityStores _ _ _ _ _ _ _) as [[cs ds]|e1|]; try done;
      by intros [= <- _]. }
  set (limit := if ((pp_Limit p <=? 0) || (32 <? pp_Limit p))%bool then 32 else pp_Limit p).
  assert (0 < limit <= 32) as Hlim by (unfold limit; destruct (pp_Limit p <=? 0) eqn:?, (32 <? pp_Limit p) eqn:?; cbn; lia).
  destruct (pollMailbox_run env tr (cl_IdentityPublic cl) limit 0 att dd dd' r w1 f) as [t Hp]; [by rewrite Hn|by rewrite Hn|by rewrite Hn|done..|].
  set (c := (dp_JSON d || bytes_eqb (pp_Format p) (str "json"))%bool).
  pose (w2 := set_clients (<[cl_Id (SaveClient (oe_save env 0) (dp_client dd')) := SaveClient (oe_save env 0) (dp_client dd')]> (w_clients w1))
      (set_disk (settle dd' (w_disk w1)) (set_net t w1))).
  pose (w3 := set_session (fold_left rememberEvent (eventsOf r) <$> w_session w1) w2).
  destruct (optional_out env c (JObj [field "events" (JEvents (eventsOf r))]) w3 Hs) as (w' & Ho & Hdk & Hcl).
  exists w'. rewrite Hdk, Hcl. split.
  - unfold Poll. rewrite Hf. cbn [negb].
    erewrite M_bind_run; [|unfold identityOr; erewrite M_bind_run by done; cbv zeta; fold (identityOf (pp_Identity p) w);
      rewrite (proj2 (bool_decide_eq_false (identityOf (pp_Identity p) w = [])) Hid : bytes_eqb _ _ = false); reflexivity].
    erewrite M_bind_run by (apply OpenManager_open; exact Hop). erewrite M_bind_run by (apply EnsureRunning_live; exact Hlive).
    erewrite M_bind_run by exact Hload. erewrite M_bind_run by reflexivity. rewrite Hsel. erewrite M_bind_run by reflexivity. cbv zeta. fold limit.
    erewrite M_bind_run by exact Hdd. erewrite M_bind_run by reflexivity. cbn [pollAll].
    erewrite M_bind_run; [|erewrite M_bind_run by exact Hp; cbv beta iota; reflexivity]. cbv beta iota.
    erewrite M_bind_run by reflexivity. erewrite M_bind_run; [|unfold SaveClient_; erewrite M_bind_run by reflexivity; reflexivity].
    erewrite M_bind_run by reflexivity. rewrite app_nil_r. fold c. by erewrite M_bind_run by exact Ho.
  - unfold w3, w2. cbn. rewrite (proj2 (SaveClient_same (oe_save env 0) (dp_client dd'))). split; [done|apply lookup_insert_eq].
Qed.

(** What a poll reports of a message that is to be stored: the event, and the file
    of the mailbox holds what the mailbox holds; or a write of that file failed,
    the event is that error, and the file is what it was. *)
Definition polled (e : dispatchEnv) (id : bytes) (mb mb' : Mailbox.Store) (ev : Event) (d : fs) (got : Event) : Prop :=
  (got = ev /\ stored id d (Mailbox.threads mb')) \/
  (io_first (de_mbio e) ≠ noFaults /\ (exists e', got = errorEvent ex_dpText (DpStore (Mailbox.MbStore e'))) /\
   d !! Mailbox.fileFor id = Mailbox.disk mb !! Mailbox.fileFor id).

Lemma reported_polled e id mb mb' ev d r : reported e id mb mb' ev r -> d = Mailbox.disk mb' ->
  exists got, eventsOf r = [got] /\ polled e id mb mb' ev d got.
Proof.
  intros H ->. destruct r as [o|e0|]; cbn [reported] in H; [| |done].
  - destruct H as [-> H]. exists ev. split; [done|by left].
  - destruct H as (H1 & [e' ->] & H2). eexists. split; [reflexivity|]. right. split; [done|]. split; [by eexists|done].
Qed.

(** C4: A message sent is a message received.  When [MessageSend] succeeds over a
    relay that keeps its promises, and nothing else waits in the mailbox it went to,
    the recipient whose session is in step with the sender's finds with [Poll] one
    event, the sender's ID with the text; the text is the newest message of the
    sender's conversation, also in the mailbox that is loaded from the disk
    afterwards, and both profiles hold sessions that are again in step.  Only if a
    write of the mailbox file fails is the event that error; the file is then as
    it was. *)
Theorem message_sent_is_polled envA envB dA dB pA pB (wA wA' wB wB1 : World T) clA clB la lb spA spB trB att (dd : deps) mb :
  let mid := mailboxOf att in
  let text := shown (messageBody (mp_Text pA) (mp_TicketB64 pA)) in
  let e := oe_frames envB 0 0 in
  MessageSend frames boot envA dA pA wA = (wA', Ok tt) ->
  LoadProfile (identityOf (mp_Identity pA) wA) wA = (wA, Ok clA) ->
  cl_Sessions clA !! mp_Peer pA = Some la -> cl_heap clA !! la = Some spA -> send_ok (oe_rand envA) spA ->
  (forall pub hint, resolveRecipient (mp_Peer pA) = Ok pub ->
     messageHint (mp_MailboxID pA) (mp_ShardURL pA) pub (cl_IdentityPublic clA) wA = (wA, Ok hint) -> dest hint = mid) ->
  sound (w_net wA) -> sound (w_net wB) -> queue (w_net wA) mid = [] -> queue (w_net wB) mid = queue (w_net wA') mid ->
  can_poll pB trB att wB -> LoadProfile (identityOf (pp_Identity pB) wB) wB = (wB, Ok clB) ->
  opens (w_net wB) att ->
  OpenDeps envB clB wB = (wB1, Ok dd) -> dp_mailbox dd = Some mb -> can_store (cl_Id clB) (de_mbio e) mb (cl_Id clA) (incoming e text.1) ->
  sessionFor clB (cl_Id clA) = Some lb -> cl_heap clB !! lb = Some spB -> synced (Net spA spB [] []) ->
  oe_stdout envB = true ->
  exists wB' ev mb' clA' clB' spA' spB',
    Poll frames boot envB dB pB wB = (wB', Ok [ev]) /\
    polled e (cl_Id clB) mb mb' (mkEvent (str "message") [] (cl_Id clA) text.2 text.1 [] [] [] [] []) (w_disk wB') ev /\
    (forall k, msgsAt (Mailbox.threads mb') k = msgsAt (Mailbox.threads mb) k ++ (if bool_decide (k = cl_Id clA) then [incoming e text.1] else [])) /\
    w_clients wA' !! cl_Id clA' = Some clA' /\ cl_heap clA' !! la = Some spA' /\
    w_clients wB' !! cl_Id clB' = Some clB' /\ cl_heap clB' !! lb = Some spB' /\ synced (Net spA' spB' [] []).
Proof.
  intros mid text e Hsend HloadA HsA HhA Hok Hdest HsoA HsoB HqA HqB Hcan HloadB Hopens Hdd Hmb Hstore HsB HhB Hsync Hstd.
  apply (MessageSend_Ok _ _ _ _ _ HsoA) in Hsend as (cl & clA' & cipher & pub & hint & Hl & Henc & Hpub & Hhint & Hq & HcA).
  rewrite HloadA in Hl. injection Hl as <-. rewrite (Hdest _ _ Hpub Hhint), HqA in Hq. cbn [app] in Hq. apply Permutation_singleton_r in Hq.
  rewrite <- (OpenDeps_client _ _ _ _ _ Hdd) in HsB, HhB.
  destruct (direct_message_core (withSend (Some true) e) _ _ _ _ _ _ _ _ _ _ _ _ _ (cl_Id clB) Henc HsA HhA Hok HsB HhB Hsync Hmb Hstore)
    as (dd' & mb' & r & spA' & spB' & Hh & Hr & Hmb' & Hmsgs & HhA' & HhB' & Hsync' & _).
  assert (DispatchFrame (withSend (Some true) e) dd (WrapFrame TypeMessage cipher) = (dd', [], r)) as Hd.
  { unfold DispatchFrame. change (WrapFrame TypeMessage cipher) with (Wrap TypeMessage cipher). rewrite Unwrap_Wrap; [exact Hh|done|by eapply Client_Encrypt_nonempty]. }
  rewrite Hq in HqB. destruct (Poll_run envB dB pB trB att clB dd dd' r wB wB1 _ HsoB Hcan HloadB Hdd Hopens HqB Hd ltac:(by intros ->) Hstd)
    as (wB' & Hp & Hdk & HcB).
  destruct (handleMessage_stores _ _ _ _ _ Hh) as [H1 H2]. rewrite (settle_opened envB clB wB wB1 dd dd' mb' Hdd H1 H2 Hmb') in Hdk.
  destruct (reported_polled _ _ _ _ _ (w_disk wB') _ Hr Hdk) as (ev & Hev & Hpolled).
  exists wB', ev, mb', (SaveClient (oe_save envA 1) clA'), (SaveClient (oe_save envB 0) (dp_client dd')), spA', spB'.
  rewrite !SaveClient_heap, !(proj2 (SaveClient_same _ _)), <- Hev. conjs; done.
Qed.

End Delivery.

(** ** A relay of messages in memory, and a message over it *)
Record mail_t := mkMail { ml_queues : gmap bytes (list bytes); ml_secrets : gmap bytes bytes; ml_attached : gset bytes }.

Definition routeMailbox (h : RouteHint) : bytes := if bytes_eqb (MailboxID h) [] then take 16 (sha256 (RecipientPub h)) else MailboxID h.

Definition mailQueue (t : mail_t) (mid : bytes) : list bytes := default [] (ml_queues t !! mid).

#[local] Instance memoryMail : FrameTransport mail_t := {|
  ft_ID _ := str "memory";
  ft_Capabilities _ := [str "message"];
  ft_Start t := (t, Ok tt);
  ft_Stop t := (t, Ok tt);
  ft_SendFrame t f h := (mkMail (<[routeMailbox h := mailQueue t (routeMailbox h) ++ [f]]> (ml_queues t)) (ml_secrets t) (ml_attached t), Ok tt);
  ft_AttachMailbox t mid secret _ _ :=
    if bool_decide (ml_secrets t !! mid = Some secret) then (mkMail (ml_queues t) (ml_secrets t) ({[mid]} ∪ ml_attached t), Ok tt) else (t, Err TrUnsupported);
  ft_DetachMailbox t mid := (mkMail (ml_queues t) (ml_secrets t) (ml_attached t ∖ {[mid]}), Ok tt);
  ft_PollFrames t limit mid :=
    if bool_decide (mid ∈ ml_attached t) then
      (mkMail (<[mid := drop (Z.to_nat limit) (mailQueue t mid)]> (ml_queues t)) (ml_secrets t) (ml_attached t), Ok (take (Z.to_nat limit) (mailQueue t mid)))
    else (t, Err TrUnsupported);
  ft_Status t := (t, Ok (true, [])) |}.

#[local] Instance mailView : MailView mail_t := {|
  queue := mailQueue; dest := routeMailbox; attached t mid := mid ∈ ml_attached t;
  opens t att := ml_secrets t !! mailboxOf att = Some (hexPrefix (Manager.at_ReadSecret att)); sound _ := True |}.

#[local] Instance memoryMail_honest : HonestMail (fun _ => memoryMail) (fun _ t => t).
Proof.
  split.
  - done.
  - intros _ t f h t' _ [= <-]. split; [done|]. cbn. unfold mailQueue at 1. cbn. by rewrite lookup_insert_eq.
  - intros _ t att _ H. cbn in H |- *. rewrite bool_decide_eq_true_2 by done. eexists. split; [reflexivity|]. cbn. split; [done|]. split; [set_solver|done].
  - intros _ t limit mid _ H _. cbn in H |- *. rewrite bool_decide_eq_true_2 by done. eexists _, _. split; [reflexivity|]. split; [done|].
    rewrite length_take. split; [done|]. unfold mailQueue at 3. cbn. rewrite lookup_insert_eq. cbn. by rewrite take_drop.
Defined.

#[local] Existing Instance noSurroundings.

Definition mailSecret : bytes := demoBytes 32 x33.
Definition mailAttachment : Manager.Attachment := Manager.mkAttachment (hexEncode (demoBytes 16 x44)) (hexEncode mailSecret) (str "https://shard") [] (str "bo").
Definition mailLive : Manager.Live := Manager.mkLive relayName [] [] [].

Definition mailWorld (id peer : bytes) (sp : SecurePeer) (net : mail_t) : World mail_t :=
  mkWorld (Manager.mkManager [] ∅ (Manager.mkStateFile ∅ ∅ ∅ ∅ {[relayName := [mailAttachment]]}) None {[relayName := mailLive]}) true net ∅
    {[id := profileOf id peer sp false]} None [].

Lemma mailWorld_profile id peer sp net : LoadProfile id (mailWorld id peer sp net) = (mailWorld id peer sp net, Ok (profileOf id peer sp true)).
Proof. unfold LoadProfile, mailWorld. cbn [w_clients]. rewrite lookup_singleton_eq. cbn [mbind option_bind]. by rewrite profile_loads. Qed.

Definition mailNet : mail_t := mkMail ∅ {[demoBytes 16 x44 := mailSecret]} ∅.
Definition mailSend : MessageSendParams := mkMessageParams relayName demoCreator xferPeer (str "hi") [] (hexEncode (demoBytes 16 x44)) (str "https://shard").
Definition mailPoll : PollParams := mkPollParams relayName (str "bo") [] 0 [].

Definition mailSent := MessageSend (fun _ => memoryMail) (fun _ t => t) demoOpEnv demoDeps_ mailSend (mailWorld demoCreator xferPeer demoA mailNet).

Lemma mailSent_ok : mailSent.2 = Ok tt /\ ml_secrets (w_net mailSent.1) !! demoBytes 16 x44 = Some mailSecret.
Proof. split; vm_compute; reflexivity. Qed.

Lemma mailHint pub self (w : World mail_t) : (messageHint (mp_MailboxID mailSend) (mp_ShardURL mailSend) pub self w).2
  = Ok (mkRoute [] self (demoBytes 16 x44) (str "https://shard")).
Proof. reflexivity. Qed.

Definition mailOpened (net : mail_t) := OpenDeps demoOpEnv (profileOf (str "bo") demoCreator demoB true) (mailWorld (str "bo") demoCreator demoB net).

Lemma mailOpened_ok net : match (mailOpened net).2 with
  | Ok dd => exists mb, dp_mailbox dd = Some mb /\ Mailbox.threads mb = ∅ /\ Mailbox.file mb = Mailbox.fileFor (str "bo") | _ => False end.
Proof.
  assert (match (mailOpened net).2 with Ok dd => match dp_mailbox dd with Some mb => bool_decide (Mailbox.threads mb = ∅ /\ Mailbox.file mb = Mailbox.fileFor (str "bo"))
    | None => false end | _ => false end = true) as H by (vm_compute; reflexivity).
  destruct (mailOpened net).2 as [dd|e|]; [|done|done]. destruct (dp_mailbox dd) as [mb|]; [|done]. apply bool_decide_eq_true in H. by exists mb.
Qed.

Lemma message_sent_is_polled_witness :
  let json := noJSON in
  exists wA' wB' mb',
    MessageSend (fun _ => memoryMail) (fun _ t => t) demoOpEnv demoDeps_ mailSend (mailWorld demoCreator xferPeer demoA mailNet) = (wA', Ok tt) /\
    Poll (fun _ => memoryMail) (fun _ t => t) demoOpEnv demoDeps_ mailPoll (mailWorld (str "bo") demoCreator demoB (w_net wA'))
      = (wB', Ok [mkEvent (str "message") [] demoCreator (str "utf-8") (str "hi") [] [] [] [] []]) /\
    stored (str "bo") (w_disk wB') (Mailbox.threads mb') /\ msgsAt (Mailbox.threads mb') demoCreator = [incoming (oe_frames demoOpEnv 0 0) (str "hi")].
Proof.
  intros json. destruct mailSent as [wA' r] eqn:H. pose proof mailSent_ok as [Hr Hs]. rewrite H in Hr, Hs. cbn [fst snd] in Hr, Hs. subst r.
  pose proof (mailOpened_ok (w_net wA')) as Ho. destruct (mailOpened (w_net wA')) as [wB1 o] eqn:Hopen. cbn [snd] in Ho. destruct o as [dd|e|]; [|contradiction|contradiction].
  destruct Ho as (mb & Hmb & Hthreads & Hfile).
  assert (shown (messageBody (mp_Text mailSend) (mp_TicketB64 mailSend)) = (str "hi", str "utf-8")) as E by (vm_compute; reflexivity).
  destruct (message_sent_is_polled (fun _ => memoryMail) (fun _ t => t) demoOpEnv demoOpEnv demoDeps_ demoDeps_ mailSend mailPoll
    (mailWorld demoCreator xferPeer demoA mailNet) wA' (mailWorld (str "bo") demoCreator demoB (w_net wA')) wB1
    (profileOf demoCreator xferPeer demoA true) (profileOf (str "bo") demoCreator demoB true) 0%nat 0%nat demoA demoB mailLive mailAttachment dd mb)
    as (wB' & ev & mb' & cA & cB & sA & sB & Hp & Hev & Hmsgs & _).
  - exact H.
  - apply mailWorld_profile.
  - vm_compute. reflexivity.
  - reflexivity.
  - split; [reflexivity|]. split; [vm_compute; discriminate|vm_compute; reflexivity].
  - intros pub hint _ Hh. apply (f_equal snd) in Hh. cbn [snd] in Hh. rewrite mailHint in Hh. injection Hh as <-. reflexivity.
  - exact I.
  - exact I.
  - reflexivity.
  - reflexivity.
  - split; try reflexivity; vm_compute; (discriminate || reflexivity).
  - apply mailWorld_profile.
  - change (ml_secrets (w_net wA') !! hexPrefix (hexEncode (demoBytes 16 x44)) = Some (hexPrefix (hexEncode mailSecret))). exact Hs.
  - exact Hopen.
  - exact Hmb.
  - rewrite E. split; [exact Hfile|unfold mb_ok; rewrite Hthreads; apply map_Forall_empty|exact demoIO_range|vm_compute; discriminate|unfold msg_ok; cbn; auto with lia|].
    rewrite Hthreads. vm_compute. reflexivity.
  - vm_compute. reflexivity.
  - reflexivity.
  - exact demo_synced.
  - reflexivity.
  - rewrite E in Hev, Hmsgs. destruct Hev as [[-> Hst]|[Hne _]]; [|exfalso; apply Hne; reflexivity].
    exists wA', wB', mb'. split; [exact H|]. split; [exact Hp|]. split; [exact Hst|]. specialize (Hmsgs demoCreator). rewrite Hthreads in Hmsgs. exact Hmsgs.
Defined.

#[local] Existing Instance noJSON.

(** A frame that is replied to: an offer, dispatched by who it is for. *)
Definition offeredFrame : bytes := Eval vm_compute in
  Wrap TypeOffer (default [] (match (Client_CreateOffer true (demoRand x01 x02) (demoBytes 16 x05) (identityClient (demoId x41)) (idOf (demoId x42))).2 with Ok w => Some w | _ => None end)).

Definition offeredTo : deps :=
  Dispatch.mkDeps (NewFanout (identityClient (demoId x42)) (inl Memory.NewMemoryContextStore : contexts) (inl noDeliveries : deliveries) DefaultFanoutConfig) true None.

Definition offerWorld : World mail_t := mailWorld (str "bo") demoCreator demoB mailNet.

Definition offerPolled := dispatchFrames (fun _ => memoryMail) demoOpEnv mailLive [] 0 0 offeredTo [offeredFrame] offerWorld.

Lemma offerPolled_ok : match offerPolled.2 with Ok (_, [ev]) => ev_Type ev = str "offer" /\ ev_Actions ev ≠ [] | _ => False end.
Proof. vm_compute. split; [reflexivity|discriminate]. Qed.

Lemma poll_is_dispatch_witness :
  exists logs w' dd' ev,
    length logs = 1%nat /\ sent (fun _ => memoryMail) mailLive [] offerWorld (mjoin logs) w' /\
    DispatchBatch ex_dpText offeredTo (batchOf demoOpEnv 0 0 logs [offeredFrame]) = (dd', (mjoin logs).*1, Ok [ev]) /\ ev_Type ev = str "offer".
Proof.
  pose proof offerPolled_ok as Hok. destruct offerPolled as [w' [[dd' events]|e|]] eqn:H; [|contradiction|contradiction]. cbn [snd] in Hok.
  destruct events as [|ev [|? ?]]; [contradiction| |contradiction]. destruct Hok as [Hok _].
  destruct (poll_is_dispatch (fun _ => memoryMail) mailLive [] demoOpEnv 0%nat [offeredFrame] 0%nat offeredTo dd' offerWorld w' [ev] H)
    as (logs & Hl & Hsent & Hb & _). exists logs, w', dd', ev. exact (conj Hl (conj Hsent (conj Hb Hok))).
Defined.
