(* ===== verification/RelayExample.v ===== *)
(** * example-transports/relay-example: a transport in the repository
    ([main.go], [rpc.go])

    The template for transports: a queue of files per mailbox behind the stdio
    RPC, with a codec of its own.  Its process is the state [queue], one request
    is [dispatchOp], and [serveLoop] reads requests from its standard input until
    one does not parse.  [exampleChild] puts the process behind
    [Transport.ProcessTransport], byte for byte over the wire. *)
From S2P Require Import Prelude GoStd Sha256 External Records Binstore.
From S2P Require Import Rpc Process Transport.
#[local] Open Scope Z_scope.

Module Example.

(** The texts of errors of nanopack and of the operating system. *)
Class Texts := { tx_decode : bytes -> bytes; tx_short : bytes; tx_os : bytes }.

(** ** rpc.go *)
Definition opError : byte := x00.
Definition opInitialize : byte := x01.
Definition opStartStop : byte := x02.
Definition opSend : byte := x03.
Definition opAttach : byte := x04.
Definition opDetach : byte := x05.
Definition opPoll : byte := x06.
Definition opStatus : byte := x07.
Definition opCapabilities : byte := x08.
Definition actionStart : byte := x01.
Definition transportAPIVer : byte := x01.
Definition exampleID : bytes := str "relay-example".
Definition exampleVersion : bytes := str "1.0.0".
Definition errUnsupported : Z := 2.
Definition errNotReady : Z := 3.
Definition errTransport : Z := 4.
Definition maxFrameBytes : Z := 40960.
Definition maxRPCBytes : Z := 2097152.

Record envelope := mkEnv { op : byte; reqID : Z; payload : bytes }.
Record initialize := mkInit { transportID : bytes; apiVersion : byte }.
Record sendReq := mkSendReq { frame : bytes; recipientPub : bytes }.
Record attachReq := mkAttachReq { mailboxID : bytes; readSecret : bytes }.
Record pollReq := mkPollReq { limit : byte; pollMailboxID : bytes }.

Section Codec.
Context `{N : Nanopack} `{X : Texts}.

(** [b, _ := enc.Bytes()] *)
Definition encoded (fs : fields) : bytes := default [] (np_encode fs).

Definition decode {A} (field : A -> byte * bytes -> res bytes A) (zero : A) (body : bytes) : res bytes A :=
  fs ← ofOption (tx_decode body) (np_decode body); foldFields field fs zero.

Definition oneByte (e : bytes) (b : bytes) : res bytes byte := match b with [v] => Ok v | _ => Err e end.

Definition marshalEnvelope (o : byte) (r : Z) (p : bytes) : option bytes := np_encode [(x01, [o]); (x02, putU32 r); (x03, p)].

Definition envelopeField (m : envelope) (f : byte * bytes) : res bytes envelope :=
  match f.1 with
  | x01 => v ← oneByte (str "rpc: bad op") f.2; Ok (mkEnv v (reqID m) (payload m))
  | x02 => if negb (len f.2 =? 4) then Err tx_short else Ok (mkEnv (op m) (unbe f.2) (payload m))
  | x03 => Ok (mkEnv (op m) (reqID m) f.2)
  | _ => Ok m
  end.

Definition unmarshalEnvelope (body : bytes) : res bytes envelope :=
  if ((len body =? 0) || (maxRPCBytes <? len body))%bool then Err (str "rpc: bad envelope length") else
  decode envelopeField (mkEnv x00 0 []) body.

Definition frameMessage (body : bytes) : bytes := putU32 (u32 (len body)) ++ body.

Definition initializeField (m : initialize) (f : byte * bytes) : res bytes initialize :=
  match f.1 with
  | x01 => Ok (mkInit f.2 (apiVersion m))
  | x02 => v ← oneByte tx_short f.2; Ok (mkInit (transportID m) v)
  | _ => Ok m
  end.

Definition unmarshalInitialize (body : bytes) : res bytes initialize := decode initializeField (mkInit [] x00) body.

Definition flag (b : bool) : bytes := if b then [x01] else [x00].

Definition marshalInitResult (ok : bool) (detail : bytes) (api : byte) : bytes := encoded [(x01, flag ok); (x02, detail); (x03, [api])].
Definition marshalAck (ok : bool) (detail : bytes) : bytes := encoded [(x01, flag ok); (x02, detail)].

Definition sendField (m : sendReq) (f : byte * bytes) : res bytes sendReq :=
  match f.1 with
  | x01 => Ok (mkSendReq f.2 (recipientPub m))
  | x02 => Ok (mkSendReq (frame m) f.2)
  | _ => Ok m
  end.

Definition unmarshalSend (body : bytes) : res bytes sendReq :=
  out ← decode sendField (mkSendReq [] []) body;
  if ((len (frame out) =? 0) || (maxFrameBytes <? len (frame out)))%bool then Err (str "rpc: frame out of bounds") else Ok out.

Definition attachField (m : attachReq) (f : byte * bytes) : res bytes attachReq :=
  match f.1 with
  | x01 => Ok (mkAttachReq f.2 (readSecret m))
  | x02 => Ok (mkAttachReq (mailboxID m) f.2)
  | _ => Ok m
  end.

Definition unmarshalAttach (body : bytes) : res bytes attachReq :=
  out ← decode attachField (mkAttachReq [] []) body;
  if (negb (len (mailboxID out) =? 16) || negb (len (readSecret out) =? 32))%bool then Err (str "rpc: bad attach") else Ok out.

(** The first field 1 decides. *)
Fixpoint detachLoop (fs : fields) : res bytes bytes :=
  match fs with
  | [] => Err (str "rpc: bad detach")
  | f :: fs => if bool_decide (f.1 = x01) then (if negb (len f.2 =? 16) then Err (str "rpc: bad detach") else Ok f.2) else detachLoop fs
  end.

Definition unmarshalDetach (body : bytes) : res bytes bytes := fs ← ofOption (tx_decode body) (np_decode body); detachLoop fs.

Definition pollField (m : pollReq) (f : byte * bytes) : res bytes pollReq :=
  match f.1 with
  | x01 => v ← oneByte tx_short f.2; Ok (mkPollReq v (pollMailboxID m))
  | x02 => Ok (mkPollReq (limit m) f.2)
  | _ => Ok m
  end.

Definition unmarshalPoll (body : bytes) : res bytes pollReq :=
  out ← decode pollField (mkPollReq x00 []) body;
  Ok (if bool_decide (limit out = x00) then mkPollReq x20 (pollMailboxID out) else out).

Definition pollEntry (f : bytes) : bytes := putU32 (u32 (len f)) ++ f.

Definition marshalPollResult (frames : list bytes) : bytes := encoded [(x01, frames ≫= pollEntry); (x02, putU32 (u32 (len frames)))].
Definition marshalStatus (running : bool) (detail : bytes) : bytes := encoded [(x01, flag running); (x02, detail)].

Definition capEntry (c : bytes) : bytes := byteZ (Z.shiftr (len c) 8) :: byteZ (len c) :: c.

Definition marshalCaps : bytes := encoded [(x01, [str "message"] ≫= capEntry); (x02, exampleID); (x03, exampleVersion)].
Definition marshalErrorPayload (code : Z) (detail : bytes) : bytes := encoded [(x01, putU32 code); (x02, detail)].

(** A field 1 of another length is passed over. *)
Fixpoint startStopLoop (fs : fields) : res bytes byte :=
  match fs with
  | [] => Err (str "rpc: missing action")
  | f :: fs => match f.1, f.2 with x01, [v] => Ok v | _, _ => startStopLoop fs end
  end.

Definition unmarshalStartStop (body : bytes) : res bytes byte := fs ← ofOption (tx_decode body) (np_decode body); startStopLoop fs.

End Codec.

(** ** main.go: the queue *)

(** The outcomes of system calls during one request: creating a directory, the
    eight random bytes, writing the temporary file, renaming it, listing,
    reading and removing a file. *)
Inductive wrote := Wrote | NotCreated | Short (n : nat).

Record sys := mkSys {
  sy_mkdir : bool; sy_rand : option bytes; sy_write : wrote; sy_rename : bool; sy_readdir : bool; sy_read : bytes -> bool; sy_remove : bytes -> bool;
}.

Abbreviation dir := (gmap bytes bytes).

(** [q_dirs]: the mailboxes' directories below [base]; [q_attached] is the map of
    [serveLoop]. *)
Record queue := mkQueue { q_running : bool; q_secrets : gmap bytes bytes; q_dirs : gmap bytes dir; q_attached : gmap bytes bytes }.

Definition set_running (b : bool) (q : queue) : queue := mkQueue b (q_secrets q) (q_dirs q) (q_attached q).
Definition set_secrets (m : gmap bytes bytes) (q : queue) : queue := mkQueue (q_running q) m (q_dirs q) (q_attached q).
Definition set_dirs (m : gmap bytes dir) (q : queue) : queue := mkQueue (q_running q) (q_secrets q) m (q_attached q).
Definition set_attached (m : gmap bytes bytes) (q : queue) : queue := mkQueue (q_running q) (q_secrets q) (q_dirs q) m.

Definition hexDigit (b : byte) : bool :=
  let z := Zb b in ((48 <=? z) && (z <=? 57) || (97 <=? z) && (z <=? 102) || (65 <=? z) && (z <=? 70))%bool.

Definition isHex (s : bytes) : bool := forallb hexDigit s.

Definition mailboxOf (pub : bytes) : bytes := hexEncode (take 16 (sha256 pub)).

(** [os.MkdirAll] of a mailbox's directory. *)
Definition mkdir (mbox : bytes) (q : queue) : queue := set_dirs (<[mbox := default ∅ (q_dirs q !! mbox)]> (q_dirs q)) q.

Definition frameName (rnd : bytes) : bytes := hexEncode rnd ++ str ".frame".
Definition tmpName (rnd : bytes) : bytes := str ".tmp-" ++ hexEncode rnd.

Section Queue.
Context `{X : Texts}.

Definition attach (io : sys) (q : queue) (mailboxHex secret : bytes) : queue * res bytes unit :=
  if (negb (len mailboxHex =? 32) || negb (isHex mailboxHex))%bool then (q, Err (str "mailbox must be 32 hex chars")) else
  if negb (len secret =? 32) then (q, Err (str "read_secret must be 32 bytes")) else
  let q := set_secrets (<[mailboxHex := sha256 secret]> (q_secrets q)) q in
  if sy_mkdir io then (mkdir mailboxHex q, Ok tt) else (q, Err tx_os).

Definition check_ (q : queue) (mailboxHex secret : bytes) : bool :=
  match q_secrets q !! mailboxHex with None => false | Some want => bytes_eqb (sha256 secret) want end.

Definition send (io : sys) (q : queue) (pub fr : bytes) : queue * res bytes unit :=
  if negb (len pub =? 32) then (q, Err (str "recipient_pub must be 32 bytes")) else
  if ((len fr =? 0) || (maxFrameBytes <? len fr))%bool then (q, Err (str "frame out of bounds")) else
  let mbox := mailboxOf pub in
  if negb (sy_mkdir io) then (q, Err tx_os) else
  let q := mkdir mbox q in
  match sy_rand io with
  | None => (q, Err tx_os)
  | Some rnd =>
      let d := default ∅ (q_dirs q !! mbox) in
      match sy_write io with
      | NotCreated => (q, Err tx_os)
      | Short n => (set_dirs (<[mbox := <[tmpName rnd := take n fr]> d]> (q_dirs q)) q, Err tx_os)
      | Wrote =>
          if sy_rename io then (set_dirs (<[mbox := <[frameName rnd := fr]> (delete (tmpName rnd) d)]> (q_dirs q)) q, Ok tt)
          else (set_dirs (<[mbox := <[tmpName rnd := fr]> d]> (q_dirs q)) q, Err tx_os)
      end
  end.

(** Reading the named files in turn, up to the limit; what was read is removed. *)
Fixpoint drain (io : sys) (d : dir) (names : list bytes) (lim : Z) (out : list bytes) : dir * list bytes :=
  match names with
  | [] => (d, out)
  | n :: names =>
      if lim <=? len out then (d, out) else
      match (if sy_read io n then d !! n else None) with
      | None => drain io d names lim out
      | Some raw =>
          if ((len raw =? 0) || (maxFrameBytes <? len raw))%bool then drain io d names lim out
          else drain io (if sy_remove io n then delete n d else d) names lim (out ++ [raw])
      end
  end.

Definition frameNames (d : dir) : list bytes := bytes_sort (List.filter (hasSuffix (str ".frame")) (map_to_list d).*1).

Definition poll (io : sys) (q : queue) (mailboxHex secret : bytes) (lim : Z) : queue * res bytes (list bytes) :=
  if negb (check_ q mailboxHex secret) then (q, Err (str "not attached or bad secret")) else
  match (if sy_readdir io then q_dirs q !! mailboxHex else None) with
  | None => (q, Err tx_os)
  | Some d =>
      let lim := if ((lim <=? 0) || (32 <? lim))%bool then 32 else lim in
      let '(d, out) := drain io d (frameNames d) lim [] in
      (set_dirs (<[mailboxHex := d]> (q_dirs q)) q, Ok out)
  end.

(** Every attached mailbox in turn; a failure of one is passed over. *)
Fixpoint pollEach (io : sys) (q : queue) (ids : list bytes) (lim : Z) (out : list bytes) : queue * list bytes :=
  match ids with
  | [] => (q, out)
  | id :: ids =>
      if lim <=? len out then (q, out) else
      match poll io q id (default [] (q_attached q !! id)) (lim - len out) with
      | (q, Ok got) => pollEach io q ids lim (out ++ got)
      | (q, _) => pollEach io q ids lim out
      end
  end.

Definition pollAny (io : sys) (q : queue) (only : bytes) (lim : Z) : queue * res bytes (list bytes) :=
  if negb (bytes_eqb only []) then
    match q_attached q !! only with
    | None => (q, Err (str "mailbox not attached"))
    | Some sec => poll io q only sec lim
    end
  else let '(q, out) := pollEach io q (bytes_sort (map_to_list (q_attached q)).*1) lim [] in (q, Ok out).

Context `{N : Nanopack}.

Definition failed (e : bytes) : byte * bytes := (opError, marshalErrorPayload errTransport e).

(** An operation that is answered by an acknowledgement or its error. *)
Definition ack (o : byte) {A} (r : queue * res bytes A) : queue * (byte * bytes) :=
  match r with
  | (q, Ok _) => (q, (o, marshalAck true []))
  | (q, Err e) => (q, failed e)
  | (q, Panic) => (q, failed [])
  end.

Definition dispatchOp (io : sys) (q : queue) (o : byte) (p : bytes) : queue * (byte * bytes) :=
  match o with
  | x01 =>
      (q, (opInitialize,
           match unmarshalInitialize p with
           | Ok init =>
               if (negb (bytes_eqb (transportID init) exampleID) || negb (bool_decide (apiVersion init = transportAPIVer)))%bool
               then marshalInitResult false (str "id/api mismatch") transportAPIVer else marshalInitResult true [] transportAPIVer
           | _ => marshalInitResult false (str "id/api mismatch") transportAPIVer
           end))
  | x08 => (q, (opCapabilities, marshalCaps))
  | x02 =>
      match unmarshalStartStop p with
      | Ok action => (set_running (bool_decide (action = actionStart)) q, (opStartStop, marshalAck true []))
      | Err e => (q, failed e)
      | Panic => (q, failed [])
      end
  | x03 =>
      if negb (q_running q) then (q, (opError, marshalErrorPayload errNotReady (str "not started"))) else
      match unmarshalSend p with
      | Ok s => ack opSend (send io q (recipientPub s) (frame s))
      | Err e => (q, failed e)
      | Panic => (q, failed [])
      end
  | x04 =>
      match unmarshalAttach p with
      | Ok a =>
          let id := hexEncode (mailboxID a) in
          match attach io q id (readSecret a) with
          | (q, Ok _) => (set_attached (<[id := readSecret a]> (q_attached q)) q, (opAttach, marshalAck true []))
          | r => ack opAttach r
          end
      | Err e => (q, failed e)
      | Panic => (q, failed [])
      end
  | x05 =>
      match unmarshalDetach p with
      | Ok id =>
          let id := hexEncode id in
          (set_attached (delete id (q_attached q)) (set_secrets (delete id (q_secrets q)) q), (opDetach, marshalAck true []))
      | Err e => (q, failed e)
      | Panic => (q, failed [])
      end
  | x06 =>
      match unmarshalPoll p with
      | Ok r =>
          match pollAny io q (if len (pollMailboxID r) =? 16 then hexEncode (pollMailboxID r) else []) (Zb (limit r)) with
          | (q, Ok frames) => (q, (opPoll, marshalPollResult frames))
          | (q, Err e) => (q, failed e)
          | (q, Panic) => (q, failed [])
          end
      | Err e => (q, failed e)
      | Panic => (q, failed [])
      end
  | x07 => (q, (opStatus, if q_running q then marshalStatus true (str "queue running") else marshalStatus false (str "stopped")))
  | _ => (q, (opError, marshalErrorPayload errUnsupported (str "unknown op")))
  end.

(** One turn of [serveLoop] on a request that has been read; without an answer
    the process ends. *)
Definition serveOne (io : sys) (q : queue) (body : bytes) : queue * option bytes :=
  match unmarshalEnvelope body with
  | Ok env => let '(q, (respOp, p)) := dispatchOp io q (op env) (payload env) in (q, marshalEnvelope respOp (reqID env) p)
  | _ => (q, None)
  end.

(** The requests on the standard input and what is written to the standard
    output; a turn reads at least five bytes. *)
Fixpoint serveLoop (fuel : nat) (io : nat -> sys) (q : queue) (stdin : bytes) : queue * bytes :=
  match fuel with
  | O => (q, [])
  | S fuel =>
      if len stdin <? 4 then (q, []) else
      let n := unbe (take 4 stdin) in
      let rest := drop 4 stdin in
      if ((n =? 0) || (maxRPCBytes <? n) || (len rest <? n))%bool then (q, []) else
      match serveOne (io O) q (take (Z.to_nat n) rest) with
      | (q, None) => (q, [])
      | (q, Some rbody) =>
          let '(q, out) := serveLoop fuel (fun i => io (S i)) q (drop (Z.to_nat n) rest) in (q, frameMessage rbody ++ out)
      end
  end.

(** [main], with [--ntx-serve]: the mailboxes of earlier runs are still there. *)
Definition serve (dirs : gmap bytes dir) : queue := mkQueue false ∅ dirs ∅.

End Queue.

(** ** The process, seen by the core *)

(** [sv_turn] counts the requests served, [sv_req] those made. *)
Record server := mkServer { sv_queue : queue; sv_alive : bool; sv_req : Z; sv_turn : nat }.

Section Child.
Context `{N : Nanopack} `{X : Texts} (io : nat -> sys).

(** The answer carries the number of the request. *)
Definition e_reply (env : Rpc.Envelope) (req : Z) : bool := Rpc.e_ReqID env =? req.

Definition gone (c : server) (req : Z) : server := mkServer (sv_queue c) false req (sv_turn c).

(** [Process.Call] with nobody else calling: the request is written, read and
    answered by [serveLoop], and the answer is read back. *)
Definition call (c : server) (o : byte) (p : bytes) : server * res Process.proc_err Rpc.Envelope :=
  let req := u32 (sv_req c + 1) in
  match Rpc.MarshalEnvelope (Rpc.mkEnvelope o req p) with
  | Panic => (c, Panic)
  | Err e => (mkServer (sv_queue c) (sv_alive c) req (sv_turn c), Err (Process.PMarshal e))
  | Ok body =>
      if negb (sv_alive c) then (gone c req, Err Process.PWrite) else
      if ((len body =? 0) || (maxRPCBytes <? len body))%bool then (gone c req, Err Process.PEOF) else
      match serveOne (io (sv_turn c)) (sv_queue c) body with
      | (q, None) => (mkServer q false req (S (sv_turn c)), Err Process.PEOF)
      | (q, Some rbody) =>
          (mkServer q true req (S (sv_turn c)),
           match Rpc.UnmarshalEnvelope rbody with
           | Panic => Panic
           | Err e => Err (Process.PStream e)
           | Ok env => if e_reply env req then Process.answer o (Process.ResEnv env) else Err Process.PTimeout
           end)
      end
  end.

#[export] Instance exampleChild : Transport.Child server := {| Transport.ch_call := call; Transport.ch_kill c := gone c (sv_req c) |}.

End Child.
End Example.
