(* ===== verification/RelayExampleTheorems.v ===== *)
(** * The transport of the repository: theorems

    Its codec and the core's agree on every message they exchange, it loses no
    frame and repeats none it could remove, and behind [Transport.ProcessTransport] it keeps the
    promises of [OpsMessages.HonestMail]. *)
From S2P Require Import Prelude GoStd Sha256 External Records Binstore.
From S2P Require Import Rpc RpcTheorems Process Manager Transport Ops OpsFrames OpsFacts OpsTheorems OpsMessages RelayExample.
#[local] Open Scope Z_scope.

Import Transport Example.

(** ** The two codecs *)
Lemma flag_len b : len (flag b) < 2 ^ 31.
Proof. by destruct b. Qed.

(** The fields of a message are small. *)
Ltac sizes := repeat (apply List.Forall_cons; cbn [snd]; [first [done | apply flag_len | by rewrite len_putU32 | lia]|]); apply List.Forall_nil.

Section Codecs.
Context `{N : Nanopack} `{NL : !NanopackLaws} `{X : Texts}.

Lemma ex_decode {A} field (zero a : A) fs w : np_encode fs = Some w -> foldFields field fs zero = Ok a -> Example.decode field zero w = Ok a.
Proof. intros H Hf. unfold Example.decode. by rewrite (np_decode_encode _ _ H). Qed.

(** Run the loop of a decoder over the fields of an encoded message. *)
Ltac fold_fields := repeat (erewrite foldFields_step by (cbn; rewrite ?len_putU32; cbn; reflexivity)); reflexivity.
Ltac guards H := repeat match type of H with (if ?b then _ else _) = Ok _ => destruct b eqn:?; [discriminate H|] end; apply ofOption_Ok in H.

(** *** What the core sends *)
Lemma init_read m w : Rpc.MarshalInitialize m = Ok w -> unmarshalInitialize w = Ok (mkInit (Rpc.in_TransportID m) (Rpc.in_APIVersion m)).
Proof. unfold Rpc.MarshalInitialize. intros H. guards H. unfold unmarshalInitialize. erewrite ex_decode; [reflexivity|exact H|fold_fields]. Qed.

Lemma startStop_read a w : Rpc.MarshalStartStop a = Ok w -> unmarshalStartStop w = Ok a.
Proof. unfold Rpc.MarshalStartStop. intros H. guards H. unfold unmarshalStartStop. by rewrite (np_decode_encode _ _ H). Qed.

Lemma send_read m w : Rpc.MarshalSend m = Ok w -> unmarshalSend w = Ok (mkSendReq (Rpc.s_Frame m) (Rpc.s_RecipientPub m)).
Proof.
  unfold Rpc.MarshalSend. intros H. guards H. unfold unmarshalSend. erewrite ex_decode; [|exact H|fold_fields]. cbn [mbind res_bind frame].
  change maxFrameBytes with Rpc.MaxFrameBytes. by rewrite Heqb.
Qed.

Lemma attach_read m w : Rpc.MarshalAttach m = Ok w -> unmarshalAttach w = Ok (mkAttachReq (Rpc.at_MailboxID m) (Rpc.at_ReadSecret m)).
Proof.
  unfold Rpc.MarshalAttach. intros H. guards H. unfold unmarshalAttach. erewrite ex_decode; [|exact H|fold_fields]. cbn [mbind res_bind mailboxID readSecret].
  unfold Rpc.badAttach in Heqb. apply orb_false_iff in Heqb as [-> _]. done.
Qed.

Lemma detach_read m w : Rpc.MarshalDetach m = Ok w -> unmarshalDetach w = Ok m.
Proof. unfold Rpc.MarshalDetach. intros H. guards H. unfold unmarshalDetach. rewrite (np_decode_encode _ _ H). cbn. by rewrite Heqb. Qed.

Lemma poll_read m w : Rpc.MarshalPoll m = Ok w -> unmarshalPoll w = Ok (mkPollReq (Rpc.defaultLimit (Rpc.p_Limit m)) (Rpc.p_MailboxID m)).
Proof.
  unfold Rpc.MarshalPoll. intros H. guards H. unfold unmarshalPoll. erewrite ex_decode; [|exact H|fold_fields]. cbn [mbind res_bind limit pollMailboxID].
  assert (Rpc.defaultLimit (Rpc.p_Limit m) ≠ x00) as Hn by (unfold Rpc.defaultLimit; by case_bool_decide). by rewrite bool_decide_eq_false_2.
Qed.

Lemma envelope_read m w : fits32 (Rpc.e_ReqID m) -> len w <= maxRPCBytes -> Rpc.MarshalEnvelope m = Ok w ->
  unmarshalEnvelope w = Ok (mkEnv (Rpc.e_Op m) (Rpc.e_ReqID m) (Rpc.e_Payload m)).
Proof.
  intros Hf Hl H. unfold Rpc.MarshalEnvelope in H. apply ofOption_Ok in H. unfold unmarshalEnvelope.
  assert (0 < len w) as Hp by (apply np_encode_head in H; destruct w; [done|]; unfold len; cbn [length]; lia).
  rewrite (proj2 (Z.eqb_neq (len w) 0)), (proj2 (Z.ltb_ge maxRPCBytes (len w))) by lia. cbn [orb].
  apply (ex_decode _ _ _ _ _ H). unfold fits32 in Hf.
  repeat (erewrite foldFields_step by (cbv beta iota delta [envelopeField fst snd]; rewrite ?len_putU32, ?unbe_putU32, ?u32_small by done; reflexivity)). reflexivity.
Qed.

(** *** What the transport answers *)
Lemma encoded_Ok fs w : Rpc.encode fs = Ok w -> encoded fs = w.
Proof. unfold Rpc.encode, encoded. intros H%ofOption_Ok. by rewrite H. Qed.

Lemma encode_total fs : (length fs <= 16)%nat -> Forall (fun f => len f.2 < 2 ^ 31) fs -> exists w, Rpc.encode fs = Ok w.
Proof. intros Hn Hf. destruct (np_encode_total fs Hn Hf) as [w Hw]. exists w. unfold Rpc.encode. by rewrite Hw. Qed.

Lemma ack_answer ok detail : len detail < 2 ^ 31 -> Rpc.UnmarshalAck (marshalAck ok detail) = Ok (Rpc.mkAck ok detail).
Proof.
  intros Hd. destruct (encode_total [(x01, flag ok); (x02, detail)]) as [w Hw]; [cbn; lia|sizes|].
  unfold marshalAck. rewrite (encoded_Ok _ _ Hw). apply ack_roundtrip. unfold Rpc.MarshalAck. cbn. by destruct ok.
Qed.

Lemma init_answer ok detail api : len detail < 2 ^ 31 -> Rpc.UnmarshalInitResult (marshalInitResult ok detail api) = Ok (Rpc.mkInitResult ok detail api).
Proof.
  intros Hd. destruct (encode_total [(x01, flag ok); (x02, detail); (x03, [api])]) as [w Hw]; [cbn; lia|sizes|].
  unfold marshalInitResult. rewrite (encoded_Ok _ _ Hw). apply initresult_roundtrip. unfold Rpc.MarshalInitResult. cbn. by destruct ok.
Qed.

Lemma status_answer running detail : len detail < 2 ^ 31 -> Rpc.UnmarshalStatus (marshalStatus running detail) = Ok (Rpc.mkStatus running detail).
Proof.
  intros Hd. destruct (encode_total [(x01, flag running); (x02, detail)]) as [w Hw]; [cbn; lia|sizes|].
  unfold marshalStatus. rewrite (encoded_Ok _ _ Hw). apply status_roundtrip. unfold Rpc.MarshalStatus. cbn. by destruct running.
Qed.

Lemma error_answer code detail : fits32 code -> code ≠ 0 -> len detail < 2 ^ 31 -> Rpc.UnmarshalError (marshalErrorPayload code detail) = Ok (Rpc.mkRPCError code detail).
Proof.
  intros Hc Hn Hd. destruct (encode_total [(x01, putU32 code); (x02, detail)]) as [w Hw]; [cbn; lia|sizes|].
  unfold marshalErrorPayload. rewrite (encoded_Ok _ _ Hw). by apply error_roundtrip.
Qed.

Lemma caps_answer : Rpc.UnmarshalCaps marshalCaps = Ok (Rpc.mkCaps [str "message"] exampleID exampleVersion).
Proof.
  destruct (encode_total [(x01, [str "message"] ≫= capEntry); (x02, exampleID); (x03, exampleVersion)]) as [w Hw]; [cbn; lia|sizes|].
  unfold marshalCaps. rewrite (encoded_Ok _ _ Hw). apply caps_roundtrip; [done|]. exact Hw.
Qed.

Lemma pollBlob_entries l : forall blob, Forall (fun f => 0 < len f <= Rpc.MaxFrameBytes) l -> Rpc.pollBlob l blob = Ok (blob ++ (l ≫= pollEntry)).
Proof.
  induction l as [|f l IH]; intros blob Hl; cbn [Rpc.pollBlob].
  - by rewrite app_nil_r.
  - apply List.Forall_cons_iff in Hl as [Hf Hl]. rewrite (proj2 (Z.eqb_neq _ 0)), (proj2 (Z.ltb_ge _ _)) by lia. cbn [orb]. rewrite IH by done.
    rewrite bind_cons. unfold pollEntry at 2. by rewrite !app_assoc.
Qed.

Lemma entries_len l : Forall (fun f => 0 < len f <= Rpc.MaxFrameBytes) l -> len (l ≫= pollEntry) <= 40964 * len l.
Proof.
  induction l as [|f l IH]; intros Hl; [done|]. apply List.Forall_cons_iff in Hl as [Hf Hl]. specialize (IH Hl).
  rewrite bind_cons. unfold pollEntry at 1. unfold len, Rpc.MaxFrameBytes in *. rewrite !length_app. cbn [length].
  pose proof (length_be 4 (u32 (Z.of_nat (length f)))). unfold putU32. lia.
Qed.

Lemma poll_answer l : Forall (fun f => 0 < len f <= Rpc.MaxFrameBytes) l -> len l <= 32 -> Rpc.UnmarshalPollResult (marshalPollResult l) = Ok l.
Proof.
  intros Hl Hn. pose proof (entries_len l Hl) as He.
  destruct (encode_total [(x01, l ≫= pollEntry); (x02, putU32 (u32 (len l)))]) as [w Hw]; [cbn; lia|sizes|].
  unfold marshalPollResult. rewrite (encoded_Ok _ _ Hw). apply pollresult_roundtrip. unfold Rpc.MarshalPollResult.
  rewrite (proj2 (Z.ltb_ge _ _)) by lia. rewrite pollBlob_entries by done. exact Hw.
Qed.

End Codecs.

(** ** The frames that wait *)
Definition framesIn (d : dir) : list bytes := omap (d !!.) (frameNames d).
Definition inboxAt (q : queue) (k : bytes) : list bytes := framesIn (default ∅ (q_dirs q !! k)).
Definition allFrames (q : queue) : list bytes := map_to_list (q_dirs q) ≫= fun kd => framesIn kd.2.

Definition isFrame (n : bytes) : bool := hasSuffix (str ".frame") n.

Lemma framesIn_perm d : framesIn d ≡ₚ (List.filter (fun kv => isFrame kv.1) (map_to_list d)).*2.
Proof.
  unfold framesIn, frameNames. rewrite bytes_sort_perm.
  assert (forall l : list (bytes * bytes), Forall (fun kv => d !! kv.1 = Some kv.2) l ->
    omap (d !!.) (List.filter (hasSuffix (str ".frame")) l.*1) = (List.filter (fun kv => isFrame kv.1) l).*2) as H.
  { induction l as [|[k x] l IH]; [done|]. intros [Hk Hl]%List.Forall_cons_iff. cbn [fmap list_fmap List.filter fst]. fold (isFrame k). specialize (IH Hl).
    destruct (isFrame k); [|exact IH]. cbn [omap list_omap fmap list_fmap snd]. cbn in Hk. rewrite Hk. f_equal. exact IH. }
  rewrite H; [done|]. apply list.Forall_forall. intros [k x] Hx. by apply elem_of_map_to_list in Hx.
Qed.

Lemma framesIn_empty : framesIn ∅ = [].
Proof. reflexivity. Qed.

Lemma framesIn_insert d n x : d !! n = None -> framesIn (<[n := x]> d) ≡ₚ framesIn d ++ (if isFrame n then [x] else []).
Proof.
  intros Hn. rewrite !framesIn_perm.
  assert (forall l l' : list (bytes * bytes), l ≡ₚ l' -> List.filter (fun kv => isFrame kv.1) l ≡ₚ List.filter (fun kv => isFrame kv.1) l') as Hf.
  { induction 1; cbn [List.filter]; repeat case_match; try done; [by constructor|by constructor|by etrans]. }
  rewrite (Hf _ _ (map_to_list_insert d n x Hn)). cbn [List.filter fst]. destruct (isFrame n); [|by rewrite app_nil_r]. cbn. apply Permutation_cons_append.
Qed.

Lemma framesIn_delete d n x : d !! n = Some x -> framesIn d ≡ₚ framesIn (delete n d) ++ (if isFrame n then [x] else []).
Proof. intros H. rewrite <- (framesIn_insert (delete n d) n x) by apply lookup_delete_eq. by rewrite insert_delete_id. Qed.

Lemma hexEncode_no_r l : x72 ∉ hexEncode l.
Proof.
  induction l as [|b l IH]; [apply not_elem_of_nil|]. cbn [hexEncode]. rewrite !not_elem_of_cons. split; [|split; [|exact IH]]; clear IH; by_bytes b.
Qed.

Lemma tmp_no_frame rnd : isFrame (tmpName rnd) = false.
Proof.
  apply bool_decide_eq_false. intros [pre H]. assert (x72 ∈ tmpName rnd) as Hin by (rewrite H; apply elem_of_app; right; cbn; set_solver).
  unfold tmpName in Hin. apply elem_of_app in Hin as [Hin|Hin]; [|by apply hexEncode_no_r in Hin]. cbn in Hin. set_solver.
Qed.

Lemma frame_is_frame rnd : isFrame (frameName rnd) = true.
Proof. apply bool_decide_eq_true_2. by exists (hexEncode rnd). Qed.

(** Replacing one mailbox's directory. *)
Lemma allFrames_insert q k d : allFrames (set_dirs (<[k := d]> (q_dirs q)) q) ++ inboxAt q k ≡ₚ allFrames q ++ framesIn d.
Proof.
  unfold allFrames, inboxAt. cbn [q_dirs set_dirs]. destruct (q_dirs q !! k) as [d0|] eqn:Hk; cbn [default].
  - rewrite <- (insert_delete_id (q_dirs q) k d0 Hk) at 2. rewrite <- (insert_delete_eq (q_dirs q) k d).
    rewrite !map_to_list_insert by apply lookup_delete_eq. rewrite !bind_cons. cbn [snd]. solve_Permutation.
  - rewrite map_to_list_insert by done. rewrite bind_cons. cbn [snd]. rewrite framesIn_empty. solve_Permutation.
Qed.

Lemma inboxAt_insert q k d k' : inboxAt (set_dirs (<[k := d]> (q_dirs q)) q) k' = if decide (k' = k) then framesIn d else inboxAt q k'.
Proof. unfold inboxAt. cbn [q_dirs set_dirs]. destruct (decide (k' = k)) as [->|Hne]; [by rewrite lookup_insert_eq|by rewrite lookup_insert_ne by done]. Qed.

Lemma mkdir_all k q : allFrames (mkdir k q) ≡ₚ allFrames q.
Proof. pose proof (allFrames_insert q k (default ∅ (q_dirs q !! k))) as H. fold (mkdir k q) in H. unfold inboxAt in H. by apply Permutation_app_inv_r in H. Qed.

Lemma mkdir_inbox k q k' : inboxAt (mkdir k q) k' = inboxAt q k'.
Proof. unfold mkdir. rewrite inboxAt_insert. case_decide as H; [by subst|done]. Qed.

(** The names drawn are not in use. *)
Definition unused (q : queue) (rnd : bytes) : Prop :=
  forall k d, q_dirs q !! k = Some d -> d !! frameName rnd = None /\ d !! tmpName rnd = None.

Section QueueFacts.
Context `{X : Texts}.

(** Sending puts the frame into the mailbox of its recipient, or nothing anywhere. *)
Lemma send_frames io q pub fr q' r : send io q pub fr = (q', r) -> (forall rnd, sy_rand io = Some rnd -> unused q rnd) ->
  let new := if isOk r then [fr] else [] in
  allFrames q' ≡ₚ allFrames q ++ new /\
  (forall k, inboxAt q' k ≡ₚ inboxAt q k ++ (if decide (k = Example.mailboxOf pub) then new else [])) /\ r ≠ Panic.
Proof.
  intros H Hu new. revert H. unfold send. set (k0 := Example.mailboxOf pub).
  assert (forall q1, (q_dirs q1 = q_dirs q \/ q_dirs q1 = q_dirs (mkdir k0 q)) -> allFrames q1 ≡ₚ allFrames q ++ [] /\
    forall k, inboxAt q1 k ≡ₚ inboxAt q k ++ (if decide (k = k0) then [] else [])) as Hsame.
  { intros q1 [Hq|Hq].
    - unfold allFrames, inboxAt. rewrite Hq, app_nil_r. split; [done|]. intros k. case_decide; by rewrite app_nil_r.
    - assert (allFrames q1 = allFrames (mkdir k0 q)) as -> by (unfold allFrames; by rewrite Hq). rewrite mkdir_all, app_nil_r. split; [done|].
      intros k. assert (inboxAt q1 k = inboxAt (mkdir k0 q) k) as -> by (unfold inboxAt; by rewrite Hq). rewrite mkdir_inbox. case_decide; by rewrite app_nil_r. }
  destruct (negb (len pub =? 32)); [intros [= <- <-]; destruct (Hsame q) as [? ?]; auto|].
  destruct (_ || _)%bool; [intros [= <- <-]; destruct (Hsame q) as [? ?]; auto|].
  destruct (sy_mkdir io); cbn [negb]; [|intros [= <- <-]; destruct (Hsame q) as [? ?]; auto].
  destruct (sy_rand io) as [rnd|] eqn:Hr; [|intros [= <- <-]; destruct (Hsame (mkdir k0 q)) as [? ?]; auto].
  set (d := default ∅ (q_dirs (mkdir k0 q) !! k0)).
  assert (d = default ∅ (q_dirs q !! k0)) as Hd by (unfold d, mkdir; cbn; by rewrite lookup_insert_eq).
  assert (d !! frameName rnd = None /\ d !! tmpName rnd = None) as [Hfn Htn].
  { rewrite Hd. destruct (q_dirs q !! k0) as [d0|] eqn:Hk; cbn; [by apply (Hu rnd eq_refl k0)|by rewrite !lookup_empty]. }
  assert (forall x dd, framesIn dd ≡ₚ framesIn d ++ x ->
    allFrames (set_dirs (<[k0 := dd]> (q_dirs (mkdir k0 q))) (mkdir k0 q)) ≡ₚ allFrames q ++ x /\
    forall k, inboxAt (set_dirs (<[k0 := dd]> (q_dirs (mkdir k0 q))) (mkdir k0 q)) k ≡ₚ inboxAt q k ++ (if decide (k = k0) then x else [])) as Hset.
  { intros x dd Hdd. split.
    - pose proof (allFrames_insert (mkdir k0 q) k0 dd) as Ha. rewrite mkdir_all, mkdir_inbox, Hdd in Ha. unfold inboxAt in Ha. rewrite <- Hd in Ha.
      rewrite (Permutation_app_comm (framesIn d)), app_assoc in Ha. by apply Permutation_app_inv_r in Ha.
    - intros k. rewrite inboxAt_insert. case_decide as Hk; [|by rewrite mkdir_inbox, app_nil_r]. subst k. unfold inboxAt. by rewrite <- Hd. }
  destruct (sy_write io) as [| |n].
  - destruct (sy_rename io); intros [= <- <-].
    + destruct (Hset new (<[frameName rnd := fr]> (delete (tmpName rnd) d))) as [? ?]; [|auto].
      rewrite delete_id by done. rewrite framesIn_insert by done. by rewrite frame_is_frame.
    + destruct (Hset [] (<[tmpName rnd := fr]> d)) as [? ?]; [|auto]. rewrite framesIn_insert by done. by rewrite tmp_no_frame.
  - intros [= <- <-]. destruct (Hsame (mkdir k0 q)) as [? ?]; auto.
  - intros [= <- <-]. destruct (Hset [] (<[tmpName rnd := take n fr]> d)) as [? ?]; [|auto]. rewrite framesIn_insert by done. by rewrite tmp_no_frame.
Qed.

Definition fits (f : bytes) : Prop := 0 < len f <= maxFrameBytes.

(** What was there is handed out or still there; what could not be removed is both. *)
Definition handed (removes : Prop) (before got after : list bytes) : Prop :=
  exists again, before ++ again ≡ₚ got ++ after /\ again ⊆+ got /\ (removes -> again = []).

Lemma handed_nothing (removes : Prop) before after : before ≡ₚ after -> handed removes before [] after.
Proof. intros H. exists []. by rewrite app_nil_r. Qed.

Lemma handed_more (removes : Prop) before g1 mid g2 after : handed removes before g1 mid -> handed removes mid g2 after -> handed removes before (g1 ++ g2) after.
Proof.
  intros (a1 & H1 & S1 & N1) (a2 & H2 & S2 & N2). exists (a1 ++ a2). split; [|split].
  - by rewrite app_assoc, H1, <- !app_assoc, H2.
  - by apply submseteq_app.
  - intros Hr. by rewrite N1, N2.
Qed.

Lemma handed_removed (removes : Prop) before got after : handed removes before got after -> removes -> before ≡ₚ got ++ after.
Proof. intros (again & H & _ & Hn) Hr. by rewrite (Hn Hr), app_nil_r in H. Qed.

Lemma drain_frames io lim names : Forall (fun n => isFrame n = true) names -> forall d out d' out',
  drain io d names lim out = (d', out') ->
  exists got, out' = out ++ got /\ handed (forall n, sy_remove io n = true) (framesIn d) got (framesIn d') /\ Forall fits got /\ (len out <= lim -> len out' <= lim).
Proof.
  induction names as [|n names IH]; intros Hn d out d' out' H; cbn [drain] in H.
  - injection H as <- <-. exists []. rewrite app_nil_r. split; [done|]. split; [by apply handed_nothing|done].
  - apply List.Forall_cons_iff in Hn as [Hn Hns]. specialize (IH Hns). destruct (Z.leb_spec lim (len out)) as [|Hlt].
    { injection H as <- <-. exists []. rewrite app_nil_r. split; [done|]. split; [by apply handed_nothing|done]. }
    destruct (if sy_read io n then d !! n else None) as [raw|] eqn:Hraw; [|by apply IH in H].
    destruct (_ || _)%bool eqn:Hb; [by apply IH in H|]. apply IH in H as (got & -> & Hp & Hf & Hl).
    exists (raw :: got). split; [by rewrite <- app_assoc|]. split; [|split].
    + apply (handed_more _ _ [raw] _ got) with (2 := Hp). destruct (sy_read io n); [|done]. destruct (sy_remove io n) eqn:Hr.
      * exists []. rewrite app_nil_r, (framesIn_delete _ _ _ Hraw), Hn. split; [by rewrite <- Permutation_cons_append|]. split; [apply submseteq_nil_l|done].
      * exists [raw]. split; [by rewrite (Permutation_app_comm (framesIn d))|]. split; [done|]. intros Hall. by rewrite Hall in Hr.
    + constructor; [|done]. apply orb_false_iff in Hb as [H1 H2]. apply Z.eqb_neq in H1. apply Z.ltb_ge in H2. unfold fits, len in *. lia.
    + intros _. apply Hl. unfold len in *. rewrite length_app. cbn [length]. lia.
Qed.

Lemma drain_length io lim names : (forall n, sy_remove io n = true /\ sy_read io n = true) -> NoDup names -> forall d out,
  (forall n, n ∈ names -> exists raw, d !! n = Some raw /\ fits raw) -> len out <= lim ->
  length (drain io d names lim out).2 = Nat.min (Z.to_nat lim) (length out + length names).
Proof.
  intros Hio. induction names as [|n names IH]; intros Hnd d out Hd Hl; cbn [drain].
  - cbn [snd length]. unfold len in *. lia.
  - apply list.NoDup_cons in Hnd as [Hn Hnd]. destruct (Z.leb_spec lim (len out)) as [|Hlt]; [cbn [snd length]; unfold len in *; lia|].
    destruct (Hio n) as [-> ->]. destruct (Hd n) as (raw & -> & Hraw); [apply list_elem_of_here|]. unfold fits in Hraw.
    rewrite (proj2 (Z.eqb_neq _ 0)), (proj2 (Z.ltb_ge _ _)) by lia. cbn [orb]. rewrite IH; [rewrite length_app; cbn [length]; lia|done| |unfold len in *; rewrite length_app; cbn [length]; lia].
    intros m Hm. rewrite lookup_delete_ne by (intros ->; done). apply Hd. by apply list_elem_of_further.
Qed.

Lemma frameNames_spec d n : n ∈ frameNames d <-> isFrame n = true /\ is_Some (d !! n).
Proof.
  unfold frameNames. rewrite bytes_sort_perm, list_elem_of_In, List.filter_In, <- list_elem_of_In. fold (isFrame n). rewrite list_elem_of_fmap. split.
  - intros [([k x] & -> & Hx%elem_of_map_to_list) Hf]. cbn in *. split; [done|by exists x].
  - intros [Hf [x Hx]]. split; [|done]. exists (n, x). split; [done|]. by apply elem_of_map_to_list.
Qed.

Lemma frameNames_NoDup d : NoDup (frameNames d).
Proof. unfold frameNames. rewrite bytes_sort_perm. apply NoDup_ListNoDup, List.NoDup_filter, NoDup_ListNoDup, NoDup_fst_map_to_list. Qed.

Lemma framesIn_length d : length (framesIn d) = length (frameNames d).
Proof.
  unfold framesIn. assert (Forall (fun n => is_Some (d !! n)) (frameNames d)) as H by (apply list.Forall_forall; intros n Hn; by apply frameNames_spec in Hn as [_ ?]).
  induction H as [|n l [x Hx] _ IH]; [done|]. cbn [omap list_omap length]. rewrite Hx. cbn [length]. by f_equal.
Qed.

Lemma poll_frames io q k sec lim q' r : poll io q k sec lim = (q', r) ->
  let got := match r with Ok l => l | _ => [] end in let removes := forall n, sy_remove io n = true in
  handed removes (allFrames q) got (allFrames q') /\ (forall k', handed removes (inboxAt q k') (if decide (k' = k) then got else []) (inboxAt q' k')) /\
  Forall fits got /\ len got <= 32 /\ (0 < lim <= 32 -> len got <= lim) /\ r ≠ Panic.
Proof.
  intros H got removes. revert H. unfold poll. destruct (negb _).
  { intros [= <- <-]. cbn. split; [by apply handed_nothing|]. split; [intros k'; case_decide; by apply handed_nothing|]. split; [done|]. split; [done|]. split; [unfold len; cbn; lia|done]. }
  destruct (if sy_readdir io then q_dirs q !! k else None) as [d|] eqn:Hd.
  2: { intros [= <- <-]. cbn. split; [by apply handed_nothing|]. split; [intros k'; case_decide; by apply handed_nothing|]. split; [done|]. split; [done|]. split; [unfold len; cbn; lia|done]. }
  set (lim' := if ((lim <=? 0) || (32 <? lim))%bool then 32 else lim).
  assert (0 < lim' <= 32 /\ (0 < lim <= 32 -> lim' = lim)) as [Hl Hl'] by (unfold lim'; destruct (Z.leb_spec lim 0), (Z.ltb_spec 32 lim); cbn; lia).
  destruct (drain io d (frameNames d) lim' []) as [d' out] eqn:Hdr. intros [= <- <-].
  apply drain_frames in Hdr as (g & -> & Hp & Hf & Hn); [|apply list.Forall_forall; intros n Hn; by apply frameNames_spec in Hn as [? _]]. cbn [app] in *. subst got.
  assert (inboxAt q k = framesIn d) as Hi by (unfold inboxAt; destruct (sy_readdir io); [|done]; by rewrite Hd).
  assert (len g <= lim') as Hg by (apply Hn; unfold len; cbn; lia).
  split; [|split; [|split; [|split; [lia|split; [lia|done]]]]]; [| |done].
  - destruct Hp as (again & Hp & Hs & Hr). exists again. split; [|done].
    pose proof (allFrames_insert q k d') as Ha. rewrite Hi in Ha. apply (Permutation_app_inv_r (framesIn d')).
    transitivity ((allFrames q ++ framesIn d') ++ again); [by rewrite <- !app_assoc, (Permutation_app_comm again)|].
    rewrite <- Ha, <- app_assoc, Hp, !app_assoc. apply Permutation_app_tail, Permutation_app_comm.
  - intros k'. rewrite inboxAt_insert. case_decide as Hk; [|by apply handed_nothing]. subst k'. by rewrite Hi.
Qed.

Lemma pollEach_frames io lim : 0 < lim <= 32 -> forall ids q out q' out', len out <= lim -> pollEach io q ids lim out = (q', out') ->
  exists got, out' = out ++ got /\ handed (forall n, sy_remove io n = true) (allFrames q) got (allFrames q') /\ Forall fits got /\ len out' <= lim.
Proof.
  intros Hlim. induction ids as [|id ids IH]; intros q out q' out' Ho H; cbn [pollEach] in H.
  - injection H as <- <-. exists []. rewrite app_nil_r. split; [done|]. split; [by apply handed_nothing|done].
  - destruct (Z.leb_spec lim (len out)) as [|Hlt].
    { injection H as <- <-. exists []. rewrite app_nil_r. split; [done|]. split; [by apply handed_nothing|done]. }
    destruct (poll io q id _ (lim - len out)) as [q1 r] eqn:Hp. apply poll_frames in Hp as (Ha & _ & Hf & _ & Hl & Hn).
    assert (0 <= len out) by (unfold len; lia). specialize (Hl ltac:(lia)). destruct r as [g|e|]; [| |done].
    + apply IH in H as (got & -> & Ha' & Hf' & Hl'); [|unfold len in *; rewrite length_app; lia]. exists (g ++ got).
      rewrite app_assoc. split; [done|]. split; [by eapply handed_more|]. split; [by apply List.Forall_app|done].
    + apply IH in H as (got & -> & Ha' & Hf' & Hl'); [|done]. exists got. split; [done|]. split; [exact (handed_more _ _ [] _ _ _ Ha Ha')|done].
Qed.

Lemma pollAny_frames io q only lim q' r : 0 < lim <= 32 -> pollAny io q only lim = (q', r) ->
  let got := match r with Ok l => l | _ => [] end in
  handed (forall n, sy_remove io n = true) (allFrames q) got (allFrames q') /\ Forall fits got /\ len got <= 32 /\ r ≠ Panic.
Proof.
  intros Hlim. unfold pollAny. destruct (negb _).
  - destruct (q_attached q !! only) as [sec|]; [|by intros [= <- <-]; split; [apply handed_nothing|]]. intros H. apply poll_frames in H as (Ha & _ & Hf & Hl & _ & Hn). done.
  - destruct (pollEach _ _ _ _ _) as [q1 out] eqn:Hp. intros [= <- <-]. apply pollEach_frames in Hp as (got & -> & Ha & Hf & Hl); [|done|unfold len; cbn; lia].
    cbn [app] in *. split; [done|]. split; [done|]. split; [lia|done].
Qed.
End QueueFacts.

(** ** Names in use *)
Section Names.
Context `{X : Texts}.

(** No name drawn elsewhere comes into use. *)
Definition quiet (rnd : bytes) (q q' : queue) : Prop := unused q rnd -> unused q' rnd.

Lemma unused_set rnd q k d : (unused q rnd -> d !! frameName rnd = None /\ d !! tmpName rnd = None) -> quiet rnd q (set_dirs (<[k := d]> (q_dirs q)) q).
Proof.
  intros Hd Hu k' d' H. cbn [q_dirs set_dirs] in H. destruct (decide (k' = k)) as [->|Hne].
  - rewrite lookup_insert_eq in H. injection H as <-. by apply Hd.
  - rewrite lookup_insert_ne in H by done. by apply (Hu k').
Qed.

Lemma unused_dir rnd q k : unused q rnd -> default ∅ (q_dirs q !! k) !! frameName rnd = None /\ default ∅ (q_dirs q !! k) !! tmpName rnd = None.
Proof. intros Hu. destruct (q_dirs q !! k) as [d|] eqn:H; cbn; [by apply (Hu k)|by rewrite !lookup_empty]. Qed.

Lemma mkdir_quiet rnd k q : quiet rnd q (mkdir k q).
Proof. apply unused_set. intros Hu. by apply unused_dir. Qed.

Lemma frameName_inj r1 r2 : frameName r1 = frameName r2 -> r1 = r2.
Proof. unfold frameName. intros H%app_inv_tail. by apply (inj hexEncode) in H. Qed.

Lemma tmpName_inj r1 r2 : tmpName r1 = tmpName r2 -> r1 = r2.
Proof. unfold tmpName. intros H%app_inv_head. by apply (inj hexEncode) in H. Qed.

Lemma frame_ne_tmp r1 r2 : frameName r1 ≠ tmpName r2.
Proof. intros H. pose proof (frame_is_frame r1) as Hf. rewrite H, tmp_no_frame in Hf. done. Qed.

Lemma send_quiet rnd io q pub fr : sy_rand io ≠ Some rnd -> quiet rnd q (send io q pub fr).1.
Proof.
  intros Hr Hu. unfold send. destruct (negb (len pub =? 32)); [done|]. destruct (_ || _)%bool; [done|]. destruct (negb (sy_mkdir io)); [done|].
  pose proof (mkdir_quiet rnd (Example.mailboxOf pub) q Hu) as Hm. destruct (sy_rand io) as [rnd0|]; [|done]. assert (rnd0 ≠ rnd) as Hne by (by intros ->).
  assert (frameName rnd0 ≠ frameName rnd) as H1 by (by intros ?%frameName_inj). assert (tmpName rnd0 ≠ tmpName rnd) as H2 by (by intros ?%tmpName_inj).
  assert (frameName rnd0 ≠ tmpName rnd) as H3 by apply frame_ne_tmp. assert (tmpName rnd0 ≠ frameName rnd) as H4 by (intros H; by apply (frame_ne_tmp rnd rnd0)).
  destruct (unused_dir rnd (mkdir (Example.mailboxOf pub) q) (Example.mailboxOf pub) Hm) as [Ha Hb].
  destruct (sy_write io); [destruct (sy_rename io)|done|]; cbn [fst]; apply unused_set; try done; intros _;
    rewrite ?lookup_insert_ne, ?lookup_delete_ne by done; done.
Qed.

Lemma drain_quiet io lim n names : forall d out, d !! n = None -> (drain io d names lim out).1 !! n = None.
Proof.
  induction names as [|m names IH]; intros d out H; cbn [drain]; [done|]. destruct (_ <=? _); [done|].
  destruct (if sy_read io m then d !! m else None); [|by apply IH]. destruct (_ || _)%bool; [by apply IH|]. apply IH.
  destruct (sy_remove io m); [|done]. by apply lookup_delete_None; right.
Qed.

Lemma poll_quiet rnd io q k sec lim : quiet rnd q (poll io q k sec lim).1.
Proof.
  intros Hu. unfold poll. destruct (negb _); [done|]. destruct (sy_readdir io); [|done]. destruct (q_dirs q !! k) as [d|] eqn:Hd; [|done].
  set (lim' := if ((lim <=? 0) || (32 <? lim))%bool then 32 else lim). destruct (drain io d _ lim' []) as [d' out] eqn:Hdr. cbn [fst]. apply unused_set; [|done]. intros _. destruct (Hu k d Hd) as [H1 H2].
  pose proof (drain_quiet io lim' _ (frameNames d) d [] H1) as H1'. pose proof (drain_quiet io lim' _ (frameNames d) d [] H2) as H2'.
  by rewrite Hdr in H1', H2'.
Qed.

Lemma pollEach_quiet rnd io lim ids : forall q out, quiet rnd q (pollEach io q ids lim out).1.
Proof.
  induction ids as [|id ids IH]; intros q out Hu; cbn [pollEach]; [done|]. destruct (_ <=? _); [done|].
  pose proof (poll_quiet rnd io q id (default [] (q_attached q !! id)) (lim - len out) Hu) as Hp.
  destruct (poll io q id _ _) as [q1 [g|e|]]; by apply IH.
Qed.

Lemma pollAny_quiet rnd io q only lim : quiet rnd q (pollAny io q only lim).1.
Proof.
  intros Hu. unfold pollAny. destruct (negb _).
  - destruct (q_attached q !! only); [|done]. by apply poll_quiet.
  - pose proof (pollEach_quiet rnd io lim (bytes_sort (map_to_list (q_attached q)).*1) q [] Hu) as H. by destruct (pollEach _ _ _ _ _).
Qed.

Lemma attach_quiet rnd io q k sec : quiet rnd q (attach io q k sec).1.
Proof. intros Hu. unfold attach. destruct (_ || _)%bool; [done|]. destruct (negb _); [done|]. destruct (sy_mkdir io); [|done]. by apply mkdir_quiet. Qed.

Context `{N : Nanopack}.

Lemma dispatch_quiet rnd io q o p : 2 <= Zb o <= 7 -> sy_rand io ≠ Some rnd -> quiet rnd q (dispatchOp io q o p).1.
Proof.
  intros Ho Hr Hu.
  assert (o = x02 \/ o = x03 \/ o = x04 \/ o = x05 \/ o = x06 \/ o = x07) as Hc.
  { assert (forall b, Zb o = Zb b -> o = b) as Hb by (intros b; apply Zb_inj).
    assert (Zb o = 2 \/ Zb o = 3 \/ Zb o = 4 \/ Zb o = 5 \/ Zb o = 6 \/ Zb o = 7) as Hz by lia.
    destruct Hz as [H|[H|[H|[H|[H|H]]]]]; [left|right; left|do 2 right; left|do 3 right; left|do 4 right; left|do 5 right]; by apply Hb. }
  destruct Hc as [->|[->|[->|[->|[->| ->]]]]]; cbn [dispatchOp].
  - by destruct (unmarshalStartStop p).
  - destruct (negb _); [done|]. destruct (unmarshalSend p) as [s|e|]; [|done|done].
    pose proof (send_quiet rnd io q (recipientPub s) (frame s) Hr Hu) as H. by destruct (send _ _ _ _) as [q1 [u|e|]].
  - destruct (unmarshalAttach p) as [a|e|]; [|done|done].
    pose proof (attach_quiet rnd io q (hexEncode (mailboxID a)) (readSecret a) Hu) as H. by destruct (attach _ _ _ _) as [q1 [u|e|]].
  - by destruct (unmarshalDetach p).
  - destruct (unmarshalPoll p) as [r|e|]; [|done|done].
    pose proof (pollAny_quiet rnd io q (if len (pollMailboxID r) =? 16 then hexEncode (pollMailboxID r) else []) (Zb (limit r)) Hu) as H.
    by destruct (pollAny _ _ _ _) as [q1 [u|e|]].
  - by destruct (q_running q).
Qed.
End Names.

(** ** Over the wire *)
Abbreviation proc := (ProcessTransport server).

Section Wire.
Context `{N : Nanopack} `{NL : !NanopackLaws} `{NS : !NanopackSize} `{X : Texts} (io : nat -> sys).

Definition isOp (o : byte) : Prop := 1 <= Zb o <= Zb Rpc.OpIdentityRegister.

Lemma envelope_size o r p w : np_encode [(x01, [o]); (x02, putU32 r); (x03, p)] = Some w -> 0 < len w <= len p + 85.
Proof.
  intros H. split.
  - apply np_encode_head in H. destruct w; [done|]. unfold len. cbn [length]. lia.
  - apply np_encode_size in H. cbn [foldr snd] in H. rewrite len_putU32 in H. unfold len in *. cbn [length] in *. lia.
Qed.

Lemma envelope_answer o req p w : fits32 req -> Zb o <= Zb Rpc.OpIdentityRegister -> marshalEnvelope o req p = Some w ->
  if len w <=? Rpc.MaxRPCBytes then Rpc.UnmarshalEnvelope w = Ok (Rpc.mkEnvelope o req p) else exists e, Rpc.UnmarshalEnvelope w = Err e.
Proof.
  intros Hreq Ho H. destruct (Z.leb_spec (len w) Rpc.MaxRPCBytes) as [Hl|Hl].
  - apply envelope_roundtrip; [by split|exact Hl|exact (f_equal (ofOption Rpc.RpcEncode) H)].
  - unfold Rpc.UnmarshalEnvelope. rewrite (proj2 (Z.ltb_lt _ _)) by lia. rewrite orb_true_r. by eexists.
Qed.

(** One request is one operation of the queue, or has no effect at all; a
    response to it arrives. *)
Lemma call_cases c o p c' r : isOp o -> call io c o p = (c', r) ->
  (sv_queue c' = sv_queue c /\ sv_turn c' = sv_turn c /\ isOk r = false) \/
  (exists rop rp, sv_alive c = true /\ dispatchOp (io (sv_turn c)) (sv_queue c) o p = (sv_queue c', (rop, rp)) /\ sv_turn c' = S (sv_turn c) /\
    (rop = o \/ rop = opError -> (forall env, r = Ok env -> rop = o /\ Rpc.e_Payload env = rp)) /\
    (rop = o -> len rp <= 2000000 -> sv_alive c' = true /\ exists req, r = Ok (Rpc.mkEnvelope o req rp))).
Proof.
  intros Ho. unfold call. cbv zeta. set (req := u32 (sv_req c + 1)). assert (fits32 req) as Hreq by apply Z.mod_pos_bound, eq_refl.
  destruct (Rpc.MarshalEnvelope _) as [body|e|] eqn:Hm; [|intros [= <- <-]; by left..].
  destruct (sv_alive c) eqn:Hal; cbn [negb]; [|intros [= <- <-]; by left].
  destruct (_ || _)%bool eqn:Hlen; [intros [= <- <-]; by left|].
  apply orb_false_iff in Hlen as [_ Hlen]. apply Z.ltb_ge in Hlen. unfold serveOne. rewrite (envelope_read (Rpc.mkEnvelope o req p) _ Hreq Hlen Hm). cbn [op reqID payload Rpc.e_Op Rpc.e_ReqID Rpc.e_Payload].
  destruct (dispatchOp _ _ o p) as [q [rop rp]] eqn:Hd. intros H. right. exists rop, rp. split; [done|].
  assert (o ≠ opError) as Hoe by (intros ->; unfold isOp in Ho; change (Zb opError) with 0 in Ho; lia).
  destruct (marshalEnvelope rop req rp) as [rbody|] eqn:Hr; injection H as <- <-.
  - split; [done|]. split; [done|]. split.
    + intros Hrop env Henv. assert (Zb rop <= Zb Rpc.OpIdentityRegister) as Hle by (unfold isOp in Ho; destruct Hrop as [->| ->]; [lia|by vm_compute]).
      pose proof (envelope_answer _ _ _ _ Hreq Hle Hr) as Ha. destruct (_ <=? _); [rewrite Ha in Henv|by destruct Ha as [e Ha]; rewrite Ha in Henv].
      unfold e_reply in Henv. cbn [Rpc.e_ReqID] in Henv. rewrite Z.eqb_refl in Henv. unfold Process.answer in Henv. cbn [Rpc.e_Op Rpc.e_Payload] in Henv.
      case_bool_decide; [by destruct (Rpc.UnmarshalError rp)|]. case_bool_decide; [|done]. by injection Henv as <-.
    + intros -> Hl. split; [done|]. exists req. unfold marshalEnvelope in Hr. pose proof (envelope_size _ _ _ _ Hr) as Hs.
      pose proof (envelope_answer _ _ _ _ Hreq (proj2 Ho) Hr) as Ha. rewrite (proj2 (Z.leb_le _ _)) in Ha by (change Rpc.MaxRPCBytes with 2097152; lia). rewrite Ha.
      unfold e_reply. cbn [Rpc.e_ReqID]. rewrite Z.eqb_refl. unfold Process.answer. cbn [Rpc.e_Op]. rewrite bool_decide_eq_false_2 by done. by rewrite bool_decide_eq_true_2.
  - split; [done|]. split; [done|]. split; [done|]. intros -> Hl. exfalso.
    destruct (encode_total [(x01, [o]); (x02, putU32 req); (x03, rp)]) as [w Hw]; [cbn; lia|sizes|].
    unfold Rpc.encode in Hw. apply ofOption_Ok in Hw. unfold marshalEnvelope in Hr. congruence.
Qed.

(** *** The calls of the core *)
#[local] Instance child : Transport.Child server := exampleChild io.

Definition qOf (t : proc) : queue := sv_queue (pt_proc t).
Definition turnOf (t : proc) : nat := sv_turn (pt_proc t).

Lemma roundTrip_cases {A} (t t' : proc) o pl (dec : bytes -> res Rpc.rpc_err A) r : isOp o -> roundTrip t o pl dec = (t', r) ->
  pt_started t' = pt_started t /\
  ((qOf t' = qOf t /\ turnOf t' = turnOf t /\ isOk r = false) \/
  exists p rop rp, pl = Ok p /\ dispatchOp (io (turnOf t)) (qOf t) o p = (qOf t', (rop, rp)) /\ turnOf t' = S (turnOf t) /\
    (rop = o \/ rop = opError -> forall a, r = Ok a -> rop = o /\ dec rp = Ok a) /\
    (rop = o -> len rp <= 2000000 -> sv_alive (pt_proc t') = true /\ r = wrapErr TrRpc (dec rp))).
Proof.
  intros Ho. unfold roundTrip. destruct pl as [p|e|]; [|by intros [= <- <-]; split; [done|left]..].
  cbn [ch_call child exampleChild]. destruct (call io (pt_proc t) o p) as [c r0] eqn:Hc. intros [= <- <-]. split; [done|].
  apply call_cases in Hc as [(Hq & Ht & Hr)|(rop & rp & _ & Hd & Ht & Hok & Hgood)]; [left|right|done].
  - split; [done|]. split; [done|]. by destruct r0.
  - exists p, rop, rp. split; [done|]. split; [done|]. split; [done|]. split.
    + intros Hrop a Ha. destruct r0 as [env|e|]; [|done|done]. destruct (Hok Hrop env eq_refl) as [-> <-]. split; [done|].
      cbn in Ha. by apply wrapErr_Ok in Ha.
    + intros Hrop Hl. destruct (Hgood Hrop Hl) as [Hal [req ->]]. done.
Qed.

Lemma acked_Ok r : isOk (acked r) = true <-> exists d, r = Ok (Rpc.mkAck true d).
Proof.
  unfold acked. destruct r as [[b d]|e|]; cbn; [|naive_solver..]. destruct b; cbn; naive_solver.
Qed.

Lemma encoded_size fs : len (encoded fs) <= 16 + foldr (fun f n => len f.2 + 16 + n) 0 fs.
Proof.
  unfold encoded. destruct (np_encode fs) as [w|] eqn:H; [by apply np_encode_size in H|]. change (len (default [] None)) with 0. clear H.
  assert (0 <= foldr (fun f n => len f.2 + 16 + n) 0 fs); [|lia]. induction fs as [|f fs IH]; cbn; unfold len in *; lia.
Qed.

Lemma ack_size : len (marshalAck true []) <= 2000000.
Proof. unfold marshalAck. etrans; [apply encoded_size|by vm_compute]. Qed.

(** A frame that is accepted is in the mailbox of its recipient, one that is not
    is nowhere. *)
Lemma SendFrame_frames (t t' : proc) f h r : SendFrame t f h = (t', r) -> (forall rnd, sy_rand (io (turnOf t)) = Some rnd -> unused (qOf t) rnd) ->
  let new := if isOk r then [f] else [] in
  allFrames (qOf t') ≡ₚ allFrames (qOf t) ++ new /\
  (forall k, inboxAt (qOf t') k ≡ₚ inboxAt (qOf t) k ++ (if decide (k = Example.mailboxOf (RecipientPub h)) then new else [])).
Proof.
  intros H Hu new. subst new. unfold SendFrame in H. destruct (requireStarted t); cbn [negb] in H.
  2: { injection H as <- <-. cbn. rewrite app_nil_r. split; [done|]. intros k. by case_decide; rewrite app_nil_r. }
  destruct (roundTrip t OpSend _ Rpc.UnmarshalAck) as [t1 r1] eqn:Hrt. injection H as <- <-.
  apply roundTrip_cases in Hrt as [_ [(Hq & _ & Hr)|(p & rop & rp & Hp & Hd & _ & Hok & Hgood)]]; [| |by vm_compute].
  - rewrite Hq. assert (isOk (acked r1) = false) as -> by (by destruct r1). rewrite app_nil_r. split; [done|]. intros k. by case_decide; rewrite app_nil_r.
  - change (dispatchOp (io (turnOf t)) (qOf t) x03 p = (qOf t1, (rop, rp))) in Hd. cbn [dispatchOp] in Hd.
    assert (isOk (acked r1) = true -> rop = opSend \/ rop = opError -> rop = opSend) as Hacc.
    { intros [d Hr1]%acked_Ok Hrop. by destruct (Hok Hrop _ Hr1). }
    destruct (negb (q_running (qOf t))).
    { injection Hd as <- <- _. assert (isOk (acked r1) = false) as -> by (destruct (isOk (acked r1)); [by discriminate (Hacc eq_refl (or_intror eq_refl))|done]).
      rewrite app_nil_r. split; [done|]. intros k. by case_decide; rewrite app_nil_r. }
    rewrite (send_read _ _ Hp) in Hd. cbn [recipientPub frame Rpc.s_Frame Rpc.s_RecipientPub] in Hd.
    destruct (send (io (turnOf t)) (qOf t) (RecipientPub h) f) as [q1 r2] eqn:Hs. apply send_frames in Hs as (Ha & Hi & Hnp); [|exact Hu].
    assert (isOk (acked r1) = isOk r2) as ->; [|destruct r2; cbn [ack] in Hd; injection Hd as <- _ _; auto].
    destruct r2 as [u|e|]; [| |done]; cbn [ack] in Hd; injection Hd as _ <- <-.
    + apply acked_Ok. destruct (Hgood eq_refl) as [_ ->]; [apply ack_size|].
      rewrite ack_answer by done. by eexists.
    + destruct (isOk (acked r1)); [by discriminate (Hacc eq_refl (or_intror eq_refl))|done].
Qed.

Lemma poll_size l : Forall fits l -> len l <= 32 -> len (marshalPollResult l) <= 2000000.
Proof.
  intros Hf Hl. unfold marshalPollResult. etrans; [apply encoded_size|]. cbn [foldr snd]. rewrite len_putU32. pose proof (entries_len l Hf). lia.
Qed.

Lemma Zb_limit limit : 0 < limit <= 32 -> Zb (Rpc.defaultLimit (byteZ limit)) = limit.
Proof.
  intros H. unfold Rpc.defaultLimit. rewrite bool_decide_eq_false_2; [rewrite Zb_byteZ; by apply Z.mod_small; lia|].
  intros H0. apply (f_equal Zb) in H0. rewrite Zb_byteZ, Z.mod_small in H0 by lia. change (Zb x00) with 0 in H0. lia.
Qed.

(** What [PollFrames] returns is gone from the mailboxes, and nothing else is. *)
Lemma PollFrames_frames (t t' : proc) limit mid r : PollFrames t limit mid = (t', r) ->
  handed (forall n, sy_remove (io (turnOf t)) n = true) (allFrames (qOf t)) (match r with Ok l => l | _ => [] end) (allFrames (qOf t')).
Proof.
  intros H. unfold PollFrames in H. destruct (requireStarted t); cbn [negb] in H; [|by injection H as <- <-; apply handed_nothing].
  set (lim := if ((limit <=? 0) || (32 <? limit))%bool then 32 else limit) in H.
  assert (0 < lim <= 32) as Hlim by (unfold lim; destruct (Z.leb_spec limit 0), (Z.ltb_spec 32 limit); cbn; lia).
  apply roundTrip_cases in H as [_ [(Hq & _ & Hr)|(p & rop & rp & Hp & Hd & _ & Hok & Hgood)]]; [| |by vm_compute].
  - rewrite Hq. destruct r; [done|by apply handed_nothing..].
  - change (dispatchOp (io (turnOf t)) (qOf t) x06 p = (qOf t', (rop, rp))) in Hd. cbn [dispatchOp] in Hd.
    rewrite (poll_read _ _ Hp) in Hd. cbn [Example.limit pollMailboxID Rpc.p_Limit Rpc.p_MailboxID] in Hd. rewrite Zb_limit in Hd by done.
    destruct (pollAny _ _ _ lim) as [q1 r1] eqn:Hpl. apply pollAny_frames in Hpl as (Ha & Hf & Hl & Hnp); [|done].
    destruct r1 as [l|e|]; [| |done]; injection Hd as <- <- <-.
    + destruct (Hgood eq_refl (poll_size _ Hf Hl)) as [_ ->]. by rewrite poll_answer.
    + destruct r as [l|e'|]; [|done|done]. by destruct (Hok (or_intror eq_refl) l eq_refl).
Qed.

(** The calls that move no frames. *)
Lemma other_frames {A} (t t' : proc) o pl (dec : bytes -> res Rpc.rpc_err A) r : o = OpStartStop \/ o = OpAttach \/ o = OpDetach \/ o = OpStatus ->
  roundTrip t o pl dec = (t', r) -> allFrames (qOf t') ≡ₚ allFrames (qOf t).
Proof.
  intros Ho H. apply roundTrip_cases in H as [_ [(Hq & _ & _)|(p & rop & rp & _ & Hd & _)]]; [by rewrite Hq| |by destruct Ho as [->|[->|[->| ->]]]; vm_compute].
  destruct Ho as [->|[->|[->| ->]]].
  - change (dispatchOp (io (turnOf t)) (qOf t) x02 p = (qOf t', (rop, rp))) in Hd. cbn [dispatchOp] in Hd. by destruct (unmarshalStartStop p); injection Hd as <- _ _.
  - change (dispatchOp (io (turnOf t)) (qOf t) x04 p = (qOf t', (rop, rp))) in Hd. cbn [dispatchOp] in Hd.
    destruct (unmarshalAttach p) as [a|e|]; [|by injection Hd as <- _ _..]. unfold attach in Hd.
    destruct (_ || _)%bool; [by injection Hd as <- _ _|]. destruct (negb _); [by injection Hd as <- _ _|].
    destruct (sy_mkdir _); injection Hd as <- _ _; [|done].
    match goal with |- allFrames (set_attached _ (mkdir ?k ?q)) ≡ₚ _ => exact (mkdir_all k q) end.
  - change (dispatchOp (io (turnOf t)) (qOf t) x05 p = (qOf t', (rop, rp))) in Hd. cbn [dispatchOp] in Hd. by destruct (unmarshalDetach p); injection Hd as <- _ _.
  - change (dispatchOp (io (turnOf t)) (qOf t) x07 p = (qOf t', (rop, rp))) in Hd. cbn [dispatchOp] in Hd. by injection Hd as <- _ _.
Qed.

(** A request that fits is served. *)
Lemma call_live c o p : isOp o -> sv_alive c = true -> len p <= 2000000 -> sv_turn (call io c o p).1 = S (sv_turn c).
Proof.
  intros Ho Ha Hl. unfold call. cbv zeta. set (req := u32 (sv_req c + 1)). assert (fits32 req) as Hreq by apply Z.mod_pos_bound, eq_refl.
  destruct (encode_total [(x01, [o]); (x02, putU32 req); (x03, p)]) as [w Hw]; [cbn; lia|sizes|]. pose proof Hw as Hw'. apply ofOption_Ok, envelope_size in Hw'.
  change (Rpc.MarshalEnvelope (Rpc.mkEnvelope o req p)) with (Rpc.encode [(x01, [o]); (x02, putU32 req); (x03, p)]). rewrite Hw, Ha. cbn [negb].
  rewrite (proj2 (Z.eqb_neq (len w) 0)), (proj2 (Z.ltb_ge maxRPCBytes (len w))) by (change maxRPCBytes with 2097152; lia). cbn [orb].
  by destruct (serveOne _ _ _) as [q [rbody|]].
Qed.

Lemma roundTrip_run {A} (t : proc) o pl p (dec : bytes -> res Rpc.rpc_err A) q rp : isOp o -> sv_alive (pt_proc t) = true -> pl = Ok p -> len p <= 2000000 ->
  dispatchOp (io (turnOf t)) (qOf t) o p = (q, (o, rp)) -> len rp <= 2000000 ->
  exists c, roundTrip t o pl dec = (set_proc c t, wrapErr TrRpc (dec rp)) /\ sv_queue c = q /\ sv_turn c = S (turnOf t) /\ sv_alive c = true.
Proof.
  intros Ho Ha -> Hl Hd Hr. pose proof (call_live (pt_proc t) o p Ho Ha Hl) as Ht. unfold roundTrip. cbn [ch_call child exampleChild].
  destruct (call io (pt_proc t) o p) as [c r] eqn:Hc. cbn [fst] in Ht. exists c.
  apply call_cases in Hc as [(_ & Ht' & _)|(rop & rp' & _ & Hd' & _ & _ & Hgood)]; [lia| |done].
  unfold qOf, turnOf in Hd. rewrite Hd in Hd'. injection Hd' as <- <- <-. destruct (Hgood eq_refl Hr) as [Hal [req ->]]. done.
Qed.

(** *** Any sequence of calls *)
Inductive tcall :=
| TStart | TStop | TSend (f : bytes) (h : RouteHint) | TAttach (mid secret shard router : bytes) | TDetach (mid : bytes)
| TPoll (limit : Z) (mid : bytes) | TStatus.

(** A call, the frame it was said to have accepted, the frames it returned. *)
Definition tstep (t : proc) (c : tcall) : proc * list bytes * list bytes :=
  match c with
  | TStart => ((Start t).1, [], [])
  | TStop => ((Stop t).1, [], [])
  | TSend f h => let '(t, r) := SendFrame t f h in (t, if isOk r then [f] else [], [])
  | TAttach m s sh ro => ((AttachMailbox t m s sh ro).1, [], [])
  | TDetach m => ((DetachMailbox t m).1, [], [])
  | TPoll limit m => let '(t, r) := PollFrames t limit m in (t, [], match r with Ok l => l | _ => [] end)
  | TStatus => ((Status t).1, [], [])
  end.

Fixpoint trun (t : proc) (cs : list tcall) : proc * list bytes * list bytes :=
  match cs with
  | [] => (t, [], [])
  | c :: cs =>
      let '(t, acc, got) := tstep t c in
      let '(t, acc', got') := trun t cs in (t, acc ++ acc', got ++ got')
  end.

(** The random names that are still to be drawn are new. *)
Definition drawn (t : proc) : Prop := forall j rnd, (turnOf t <= j)%nat -> sy_rand (io j) = Some rnd -> unused (qOf t) rnd.

Context (Hdist : forall i j rnd, sy_rand (io i) = Some rnd -> sy_rand (io j) = Some rnd -> i = j).

Lemma roundTrip_drawn {A} (t t' : proc) o pl (dec : bytes -> res Rpc.rpc_err A) r : 2 <= Zb o <= 7 -> roundTrip t o pl dec = (t', r) -> drawn t -> drawn t'.
Proof.
  intros Ho H Hd. apply roundTrip_cases in H as [_ [(Hq & Ht & _)|(p & rop & rp & _ & Hdo & Ht & _)]];
    [| |unfold isOp; change (Zb Rpc.OpIdentityRegister) with 17; lia]; intros j rnd Hj Hr.
  - rewrite Hq. apply (Hd j); [lia|done].
  - assert (sy_rand (io (turnOf t)) ≠ Some rnd) as Hne by (intros Hr'; pose proof (Hdist _ _ _ Hr Hr'); lia).
    pose proof (dispatch_quiet rnd (io (turnOf t)) (qOf t) o p Ho Hne) as Hq. rewrite Hdo in Hq. cbn [fst] in Hq. apply Hq. apply (Hd j); [lia|done].
Qed.

Lemma tstep_drawn t c : drawn t -> drawn (tstep t c).1.1.
Proof.
  assert (forall b u, drawn u -> drawn (set_started b u)) as Hset by done.
  intros Hd. destruct c; cbn [tstep fst].
  - unfold Start. destruct (roundTrip _ _ _ _) as [t1 r] eqn:H. apply roundTrip_drawn in H; [|by vm_compute|done].
    destruct r as [a|e|]; [|done|done]. by destruct (negb _).
  - unfold Stop. destruct (roundTrip _ _ _ _) as [t1 r] eqn:H. apply roundTrip_drawn in H; [|by vm_compute|done]. by destruct r.
  - unfold SendFrame. destruct (negb _); [done|]. destruct (roundTrip _ _ _ _) as [t1 r] eqn:H. by apply roundTrip_drawn in H; [|by vm_compute|].
  - unfold AttachMailbox. destruct (negb _); [done|]. destruct (roundTrip _ _ _ _) as [t1 r] eqn:H. by apply roundTrip_drawn in H; [|by vm_compute|].
  - unfold DetachMailbox. destruct (negb _); [done|]. destruct (roundTrip _ _ _ _) as [t1 r] eqn:H. by apply roundTrip_drawn in H; [|by vm_compute|].
  - unfold PollFrames. destruct (negb _); [done|]. destruct (roundTrip _ _ _ _) as [t1 r] eqn:H. by apply roundTrip_drawn in H; [|by vm_compute|].
  - unfold Status. destruct (roundTrip _ _ _ _) as [t1 r] eqn:H. by apply roundTrip_drawn in H; [|by vm_compute|].
Qed.

(** Every removal succeeds. *)
Definition removing : Prop := forall i n, sy_remove (io i) n = true.

Lemma tstep_frames t c t' acc got : drawn t -> tstep t c = (t', acc, got) ->
  handed removing (allFrames (qOf t) ++ acc) got (allFrames (qOf t')).
Proof.
  assert (forall b u, allFrames (qOf (set_started b u)) = allFrames (qOf u)) as Hset by done.
  intros Hd. destruct c as [| |f h|m s sh ro|m|lim m|]; cbn [tstep].
  - intros [= <- <- <-]. apply handed_nothing. rewrite app_nil_r. unfold Start. destruct (roundTrip _ _ _ _) as [t1 r] eqn:H. apply other_frames in H; [|by auto].
    destruct r as [a|e|]; [destruct (negb _)|..]; cbn [fst app]; by rewrite ?Hset.
  - intros [= <- <- <-]. apply handed_nothing. rewrite app_nil_r. unfold Stop. destruct (roundTrip _ _ _ _) as [t1 r] eqn:H. apply other_frames in H; [|by auto].
    destruct r as [a|e|]; cbn [fst app]; by rewrite ?Hset.
  - destruct (SendFrame t f h) as [t1 r] eqn:H. intros [= <- <- <-]. apply handed_nothing. apply SendFrame_frames in H as [Ha _]; [by rewrite Ha|]. intros rnd Hr. by apply (Hd (turnOf t)).
  - intros [= <- <- <-]. apply handed_nothing. rewrite app_nil_r. unfold AttachMailbox. destruct (negb _); [done|]. destruct (roundTrip _ _ _ _) as [t1 r] eqn:H. apply other_frames in H; [done|by auto].
  - intros [= <- <- <-]. apply handed_nothing. rewrite app_nil_r. unfold DetachMailbox. destruct (negb _); [done|]. destruct (roundTrip _ _ _ _) as [t1 r] eqn:H. apply other_frames in H; [done|by auto].
  - destruct (PollFrames t lim m) as [t1 r] eqn:H. intros [= <- <- <-]. rewrite app_nil_r. apply PollFrames_frames in H as (again & H & Hs & Hn).
    exists again. split; [done|]. split; [done|]. intros Hr. apply Hn. intros n. apply Hr.
  - intros [= <- <- <-]. apply handed_nothing. rewrite app_nil_r. unfold Status. destruct (roundTrip _ _ _ _) as [t1 r] eqn:H. apply other_frames in H; [done|by auto].
Qed.

(** C16: The transport of the repository loses no frame.  Whatever the core asks of its
    process, in whatever order, and whichever of its system calls fail: every frame
    that was there or that [SendFrame] reported as sent has been returned by
    [PollFrames] or is still there.  None is returned twice, or returned and still
    there, as long as files are removed when that is asked for; when a removal
    fails, which the program does not notice, the frames that were returned and
    stayed are those [again] counts.  The names it draws have to be new. *)
Theorem relay_keeps_every_frame cs : forall t t' acc got, drawn t -> trun t cs = (t', acc, got) ->
  exists again, (allFrames (qOf t) ++ acc) ++ again ≡ₚ got ++ allFrames (qOf t') /\ again ⊆+ got /\ (removing -> again = []).
Proof.
  change (forall t t' acc got, drawn t -> trun t cs = (t', acc, got) -> handed removing (allFrames (qOf t) ++ acc) got (allFrames (qOf t'))).
  induction cs as [|c cs IH]; intros t t' acc got Hd H; cbn [trun] in H.
  - injection H as <- <- <-. apply handed_nothing. by rewrite app_nil_r.
  - destruct (tstep t c) as [[t1 acc1] got1] eqn:Hs. pose proof (tstep_drawn t c Hd) as Hd1. rewrite Hs in Hd1. cbn [fst] in Hd1.
    apply tstep_frames in Hs as (a1 & Hs & S1 & N1); [|done]. destruct (trun t1 cs) as [[t2 acc2] got2] eqn:Hr. injection H as <- <- <-.
    apply IH in Hr as (a2 & Hr & S2 & N2); [|done]. exists (a1 ++ a2). split; [|split; [by apply submseteq_app|intros Hrm; by rewrite N1, N2]].
    transitivity (((allFrames (qOf t) ++ acc1) ++ a1) ++ (acc2 ++ a2)).
    + rewrite <- !app_assoc. do 2 apply Permutation_app_head. rewrite !app_assoc. apply Permutation_app_tail, Permutation_app_comm.
    + rewrite Hs, <- (app_assoc got1), (app_assoc (allFrames (qOf t1))), Hr. by rewrite app_assoc.
Qed.

(** *** The promises of [HonestMail] *)

(** The system calls succeed, and the names that are drawn differ. *)
Record works : Prop := {
  wk_calls i : sy_mkdir (io i) = true /\ sy_write (io i) = Wrote /\ sy_rename (io i) = true /\ sy_readdir (io i) = true;
  wk_files i n : sy_remove (io i) n = true /\ sy_read (io i) n = true;
  wk_rand i j rnd : sy_rand (io i) = Some rnd -> sy_rand (io j) = Some rnd -> i = j;
}.
Context (Hw : works).

(** Every frame that waits is one the relay would take. *)
Definition allFit (q : Example.queue) : Prop := forall k d n x, q_dirs q !! k = Some d -> d !! n = Some x -> isFrame n = true -> fits x.

Record running (t : proc) : Prop := {
  rn_drawn : drawn t;
  rn_started : pt_started t = true;
  rn_alive : sv_alive (pt_proc t) = true;
  rn_running : q_running (qOf t) = true;
  rn_fit : allFit (qOf t);
  rn_id : Manager.mf_ID (pt_manifest t) = exampleID;
  rn_config : len (pt_config t) <= 65536;
}.

(** A new process on the directory of the old one. *)
Definition restart (_ : Manager.Live) (t : proc) : proc :=
  match NewProcessTransport (mkServer (serve (q_dirs (qOf t))) true 0 (turnOf t)) (pt_manifest t) (pt_config t) with
  | inr pt => (Start pt).1
  | inl c => set_proc c t
  end.

#[local] Instance exampleView : MailView proc := {|
  OpsMessages.queue t mid := inboxAt (qOf t) (hexEncode mid);
  dest h := take 16 (sha256 (RecipientPub h));
  attached t mid := len mid = 16 /\ exists sec, q_attached (qOf t) !! hexEncode mid = Some sec /\
    q_secrets (qOf t) !! hexEncode mid = Some (sha256 sec) /\ is_Some (q_dirs (qOf t) !! hexEncode mid);
  opens _ att := len (OpsMessages.mailboxOf att) = 16 /\ len (Frames.hexPrefix (Manager.at_ReadSecret att)) = 32 /\ Manager.at_ShardURL att ≠ [] /\
    len (Manager.at_ShardURL att) <= 65536 /\ len (Manager.at_RouterURL att) <= 65536;
  sound := running |}.

(** *** Starting *)
Lemma init_size ok detail api : len detail <= 64 -> len (marshalInitResult ok detail api) <= 2000000.
Proof. intros H. unfold marshalInitResult. etrans; [apply encoded_size|]. cbn [foldr snd]. unfold len in *. destruct ok; cbn [flag length]; lia. Qed.

Lemma caps_size : len marshalCaps <= 2000000.
Proof. unfold marshalCaps. etrans; [apply encoded_size|by vm_compute]. Qed.

Lemma startStop_ok : exists p, startStop Rpc.ActionStart = Ok p /\ Rpc.MarshalStartStop Rpc.ActionStart = Ok p /\ len p <= 2000000.
Proof.
  destruct (encode_total [(x01, [Rpc.ActionStart])]) as [p Hp]; [cbn; lia|sizes|]. exists p. unfold startStop.
  change (Rpc.MarshalStartStop Rpc.ActionStart) with (Rpc.encode [(x01, [Rpc.ActionStart])]). rewrite Hp. split; [done|]. split; [done|].
  apply ofOption_Ok, np_encode_size in Hp. cbn [foldr snd] in Hp. unfold len in *. cbn [length] in Hp. lia.
Qed.

(** A process is started in three requests. *)
Lemma starts (q : Example.queue) turn m config : Manager.mf_ID m = exampleID -> len config <= 65536 ->
  exists pt c, NewProcessTransport (mkServer q true 0 turn) m config = inr pt /\ Start pt = (set_started true (set_proc c pt), Ok tt) /\
    pt_manifest pt = m /\ pt_config pt = config /\ sv_alive c = true /\ sv_queue c = set_running true q /\ sv_turn c = S (S (S turn)).
Proof.
  intros Hid Hc. unfold NewProcessTransport. set (t0 := mkPT _ _ _ _ _ _).
  destruct (encode_total [(x01, exampleID); (x02, [TransportAPIVersion]); (x03, config)]) as [p Hp]; [cbn; lia|sizes|].
  assert (Rpc.MarshalInitialize (Rpc.mkInitialize (Manager.mf_ID m) TransportAPIVersion config) = Ok p) as Hm.
  { unfold Rpc.MarshalInitialize. cbn [Rpc.in_TransportID Rpc.in_Config Rpc.in_APIVersion]. rewrite Hid, (proj2 (Z.ltb_ge _ _)) by lia. exact Hp. }
  pose proof Hp as Hsz. apply ofOption_Ok, np_encode_size in Hsz. cbn [foldr snd] in Hsz.
  destruct (roundTrip_run t0 Rpc.OpInitialize (Rpc.MarshalInitialize (Rpc.mkInitialize (Manager.mf_ID m) TransportAPIVersion config)) p Rpc.UnmarshalInitResult q (marshalInitResult true [] transportAPIVer)) as (c1 & -> & Hq1 & Ht1 & Ha1);
    [by vm_compute|done|exact Hm|change (len exampleID) with 13 in Hsz; change (len [TransportAPIVersion]) with 1 in Hsz; lia| |by apply init_size|].
  { change (dispatchOp (io turn) q x01 p = (q, (x01, marshalInitResult true [] transportAPIVer))). cbn [dispatchOp]. rewrite (init_read _ _ Hm). cbn [transportID apiVersion Rpc.in_TransportID Rpc.in_APIVersion].
    by rewrite Hid. }
  rewrite init_answer by done. cbn [wrapErr]. cbn [Rpc.ir_OK Rpc.ir_ActualAPI]. rewrite bool_decide_eq_true_2 by done. cbn [negb orb].
  unfold queryCaps. set (t1 := set_proc c1 t0).
  destruct (roundTrip_run t1 OpCapabilities (Ok [x00]) [x00] Rpc.UnmarshalCaps q marshalCaps) as (c2 & -> & Hq2 & Ht2 & Ha2);
    [by vm_compute|done|done|by vm_compute| |apply caps_size|].
  { change (dispatchOp (io (sv_turn c1)) (sv_queue c1) x08 [x00] = (q, (x08, marshalCaps))). by rewrite Hq1. }
  rewrite caps_answer. cbn [wrapErr Rpc.c_TransportID]. rewrite Hid. cbn [negb]. rewrite (bool_decide_eq_true_2 (exampleID = exampleID) eq_refl : bytes_eqb _ _ = true). cbn [negb].
  set (pt := mkPT _ _ _ _ _ _). destruct startStop_ok as (p3 & Hp3 & Hm3 & Hl3).
  destruct (roundTrip_run pt OpStartStop (startStop Rpc.ActionStart) p3 Rpc.UnmarshalAck (set_running true q) (marshalAck true [])) as (c3 & H3 & Hq3 & Ht3 & Ha3);
    [by vm_compute|done|exact Hp3|done| |apply ack_size|].
  { change (dispatchOp (io (sv_turn c2)) (sv_queue c2) x02 p3 = (set_running true q, (x02, marshalAck true []))). cbn [dispatchOp]. rewrite (startStop_read _ _ Hm3), Hq2. done. }
  exists pt, c3. split; [done|]. split; [|split; [done|split; [done|split; [done|split; [done|]]]]].
  - unfold Start. rewrite H3, ack_answer by done. done.
  - rewrite Ht3. unfold turnOf in *. cbn in Ht2 |- *. rewrite Ht2. cbn. by rewrite Ht1.
Qed.

(** A process that is started on directories whose frames it would take works. *)
Lemma start_running dirs turn m config : Manager.mf_ID m = exampleID -> len config <= 65536 -> allFit (serve dirs) ->
  (forall j rnd, (turn <= j)%nat -> sy_rand (io j) = Some rnd -> unused (serve dirs) rnd) ->
  exists pt, NewProcessTransport (mkServer (serve dirs) true 0 turn) m config = inr pt /\ (Start pt).2 = Ok tt /\
    running (Start pt).1 /\ q_dirs (qOf (Start pt).1) = dirs.
Proof.
  intros Hid Hc Hf Hd. destruct (starts (serve dirs) turn _ _ Hid Hc) as (pt & c & Hn & Hs & Hm & Hcf & Hal & Hq & Ht).
  exists pt. rewrite Hs. cbn [fst snd]. assert (q_dirs (sv_queue c) = dirs) as Hdirs by (by rewrite Hq). split; [done|]. split; [done|]. split; [|exact Hdirs]. split.
  - intros j rnd Hj Hrnd k d Hk. change (q_dirs (sv_queue c) !! k = Some d) in Hk. rewrite Hdirs in Hk.
    change (sv_turn c <= j)%nat in Hj. rewrite Ht in Hj. refine (Hd j rnd _ Hrnd k d Hk). lia.
  - done.
  - exact Hal.
  - change (q_running (sv_queue c) = true). by rewrite Hq.
  - intros k d n x Hk. change (q_dirs (sv_queue c) !! k = Some d) in Hk. rewrite Hdirs in Hk. exact (Hf k d n x Hk).
  - change (Manager.mf_ID (pt_manifest pt) = exampleID). by rewrite Hm.
  - change (len (pt_config pt) <= 65536). by rewrite Hcf.
Qed.

Lemma restart_runs tr t : running t -> running (restart tr t) /\ q_dirs (qOf (restart tr t)) = q_dirs (qOf t).
Proof.
  intros [Hd Hst Ha Hr Hf Hid Hc]. destruct (start_running (q_dirs (qOf t)) (turnOf t) _ _ Hid Hc Hf Hd) as (pt & Hn & _ & Hrun).
  unfold restart. by rewrite Hn.
Qed.

(** *** Sending *)
Lemma running_proc t c : running t -> drawn (set_proc c t) -> sv_alive c = true -> q_running (sv_queue c) = true -> allFit (sv_queue c) -> running (set_proc c t).
Proof. intros [? ? ? ? ? ? ?] ? ? ? ?. by split. Qed.

Lemma roundTrip_proc {A} (t t' : proc) o pl (dec : bytes -> res Rpc.rpc_err A) r : roundTrip t o pl dec = (t', r) -> exists c, t' = set_proc c t.
Proof.
  unfold roundTrip. destruct pl as [p|e|]; [|intros [= <- <-]; exists (pt_proc t); by destruct t..].
  destruct (ch_call _ _ _) as [c r0]. intros [= <- <-]. by exists c.
Qed.

Lemma send_fits sy q pub fr q' : send sy q pub fr = (q', Ok tt) -> allFit q -> allFit q' /\ q_running q' = q_running q.
Proof.
  unfold send. intros H Hf. destruct (negb (len pub =? 32)); [done|]. destruct (_ || _)%bool eqn:Hb; [done|]. destruct (negb (sy_mkdir sy)); [done|].
  destruct (sy_rand sy) as [rnd|]; [|done]. destruct (sy_write sy); [|done|done]. destruct (sy_rename sy); [|done]. injection H as <-. split; [|done].
  apply orb_false_iff in Hb as [H1 H2]. apply Z.eqb_neq in H1. apply Z.ltb_ge in H2.
  assert (forall n x, default ∅ (q_dirs q !! Example.mailboxOf pub) !! n = Some x -> isFrame n = true -> fits x) as Hd0.
  { intros n x. destruct (q_dirs q !! Example.mailboxOf pub) as [d0|] eqn:Hk; cbn; [intros Hx Hi; exact (Hf _ d0 n x Hk Hx Hi)|by rewrite lookup_empty]. }
  intros k d n x Hk Hn Hfr. cbn in Hk. destruct (decide (k = Example.mailboxOf pub)) as [->|Hne].
  - rewrite lookup_insert_eq in Hk. injection Hk as <-. destruct (decide (n = frameName rnd)) as [->|Hnn].
    + rewrite lookup_insert_eq in Hn. injection Hn as <-. unfold fits, len in *. lia.
    + rewrite lookup_insert_ne in Hn by done. apply lookup_delete_Some in Hn as [_ Hn]. rewrite lookup_insert_eq in Hn. by apply (Hd0 n).
  - rewrite !lookup_insert_ne in Hk by done. by apply (Hf k d n x).
Qed.

Lemma SendFrame_runs t t' f h : running t -> SendFrame t f h = (t', Ok tt) -> running t'.
Proof.
  intros Hr H. pose proof (rn_drawn t Hr) as Hdr. unfold SendFrame in H. destruct (requireStarted t); cbn [negb] in H; [|done].
  destruct (roundTrip t OpSend _ Rpc.UnmarshalAck) as [t1 r1] eqn:Hrt. injection H as <- Hok1.
  destruct (roundTrip_proc _ _ _ _ _ _ Hrt) as [c ->]. pose proof Hrt as Hdr'. apply roundTrip_drawn in Hdr'; [|by vm_compute|done].
  assert (isOk (acked r1) = true) as [d ->]%acked_Ok by (by rewrite Hok1).
  apply roundTrip_cases in Hrt as [_ [(_ & _ & Hn)|(p & rop & rp & Hp & Hd & _ & Hok & Hgood)]]; [done| |by vm_compute].
  change (dispatchOp (io (turnOf t)) (qOf t) x03 p = (sv_queue c, (rop, rp))) in Hd. cbn [dispatchOp] in Hd.
  rewrite (rn_running t Hr) in Hd. cbn [negb] in Hd. rewrite (send_read _ _ Hp) in Hd. cbn [recipientPub frame Rpc.s_Frame Rpc.s_RecipientPub] in Hd.
  destruct (send (io (turnOf t)) (qOf t) (RecipientPub h) f) as [q1 [[]|e|]] eqn:Hs; cbn [ack] in Hd; injection Hd as Hq1 <- <-.
  - subst q1. destruct (send_fits _ _ _ _ _ Hs (rn_fit t Hr)) as [Hf Hq]. destruct (Hgood eq_refl ack_size) as [Ha _]. apply running_proc; try done.
    by rewrite Hq, (rn_running t Hr).
  - by destruct (Hok (or_intror eq_refl) _ eq_refl).
  - by destruct (Hok (or_intror eq_refl) _ eq_refl).
Qed.

(** *** Attaching *)
Lemma hexEncode_isHex l : isHex (hexEncode l) = true.
Proof. unfold isHex. induction l as [|b l IH]; [done|]. cbn [hexEncode forallb]. rewrite IH. clear IH. by_bytes b. Qed.

Lemma len_hexEncode l : len (hexEncode l) = 2 * len l.
Proof. unfold len. rewrite length_hexEncode. lia. Qed.

Lemma AttachMailbox_runs t mid secret shard router : running t -> len mid = 16 -> len secret = 32 -> shard ≠ [] -> len shard <= 65536 -> len router <= 65536 ->
  exists t', AttachMailbox t mid secret shard router = (t', Ok tt) /\ running t' /\ q_dirs (qOf t') = q_dirs (mkdir (hexEncode mid) (qOf t)) /\
    q_attached (qOf t') !! hexEncode mid = Some secret /\ q_secrets (qOf t') !! hexEncode mid = Some (sha256 secret).
Proof.
  intros Hr Hm Hs Hsh Hl1 Hl2. unfold AttachMailbox, requireStarted. rewrite (rn_started t Hr). cbn [negb].
  destruct (encode_total [(x01, mid); (x02, secret); (x03, shard); (x04, router)]) as [p Hp]; [cbn; lia|sizes|].
  assert (Rpc.MarshalAttach (Rpc.mkAttach mid secret shard router) = Ok p) as Hma.
  { unfold Rpc.MarshalAttach, Rpc.badAttach. cbn [Rpc.at_MailboxID Rpc.at_ReadSecret Rpc.at_ShardURL Rpc.at_RouterURL]. rewrite Hm, Hs.
    rewrite (bool_decide_eq_false_2 (shard = []) Hsh : bytes_eqb _ _ = false). exact Hp. }
  pose proof Hp as Hsz. apply ofOption_Ok, np_encode_size in Hsz. cbn [foldr snd] in Hsz. destruct (wk_calls Hw (turnOf t)) as (Hmk & _).
  set (id := hexEncode mid). set (q1 := set_secrets (<[id := sha256 secret]> (q_secrets (qOf t))) (qOf t)).
  set (q2 := set_attached (<[id := secret]> (q_attached (mkdir id q1))) (mkdir id q1)).
  destruct (roundTrip_run t OpAttach (Rpc.MarshalAttach (Rpc.mkAttach mid secret shard router)) p Rpc.UnmarshalAck q2 (marshalAck true [])) as (c & Hrt & Hq & Ht & Ha);
    [by vm_compute|apply (rn_alive t Hr)|exact Hma|lia| |apply ack_size|].
  { change (dispatchOp (io (turnOf t)) (qOf t) x04 p = (q2, (x04, marshalAck true []))). cbn [dispatchOp]. rewrite (attach_read _ _ Hma).
    cbn [mailboxID readSecret Rpc.at_MailboxID Rpc.at_ReadSecret]. unfold attach. rewrite len_hexEncode, Hm, hexEncode_isHex, Hs. cbn [negb orb]. by rewrite Hmk. }
  pose proof Hrt as Hdr. apply roundTrip_drawn in Hdr; [|by vm_compute|apply (rn_drawn t Hr)].
  rewrite Hrt, ack_answer by done. exists (set_proc c t). split; [done|].
  change (qOf (set_proc c t)) with (sv_queue c). rewrite Hq. split.
  - apply running_proc; try done; rewrite Hq; [apply (rn_running t Hr)|]. intros k d n x Hk Hn. change (q_dirs (mkdir id (qOf t)) !! k = Some d) in Hk. unfold mkdir in Hk. cbn in Hk.
    destruct (decide (k = id)) as [->|Hne].
    + rewrite lookup_insert_eq in Hk. injection Hk as <-. destruct (q_dirs (qOf t) !! id) as [d0|] eqn:Hd0; cbn in Hn; [by apply (rn_fit t Hr id d0)|done].
    + rewrite lookup_insert_ne in Hk by done. by apply (rn_fit t Hr k d).
  - split; [done|]. unfold q2, q1. cbn. by rewrite !lookup_insert_eq.
Qed.

(** *** Polling *)
Lemma drain_subset sy lim names : forall d out, (drain sy d names lim out).1 ⊆ d.
Proof.
  induction names as [|n names IH]; intros d out; cbn [drain]; [done|]. destruct (_ <=? _); [done|].
  destruct (if sy_read sy n then d !! n else None); [|apply IH]. destruct (_ || _)%bool; [apply IH|]. etrans; [apply IH|].
  destruct (sy_remove sy n); [apply delete_subseteq|done].
Qed.

(** An attached mailbox is read, as far as was asked for. *)
Lemma poll_runs i q id sec d lim : allFit q -> q_secrets q !! id = Some (sha256 sec) -> q_dirs q !! id = Some d -> 0 < lim <= 32 ->
  exists d' got, poll (io i) q id sec lim = (set_dirs (<[id := d']> (q_dirs q)) q, Ok got) /\ d' ⊆ d /\ length got = Nat.min (Z.to_nat lim) (length (framesIn d)).
Proof.
  intros Hf Hs Hd Hl. unfold poll, check_. rewrite Hs, (bool_decide_eq_true_2 (sha256 sec = sha256 sec) eq_refl : bytes_eqb _ _ = true). cbn [negb].
  destruct (wk_calls Hw i) as (_ & _ & _ & ->). rewrite Hd. rewrite (proj2 (Z.leb_gt lim 0)), (proj2 (Z.ltb_ge 32 lim)) by lia. cbn [orb].
  pose proof (drain_length (io i) lim (frameNames d) (wk_files Hw i) (frameNames_NoDup d) d []) as Hlen. pose proof (drain_subset (io i) lim (frameNames d) d []) as Hsub.
  destruct (drain (io i) d (frameNames d) lim []) as [d' got]. cbn [fst snd length] in *. exists d', got. split; [done|]. split; [done|].
  rewrite framesIn_length. apply Hlen; [|unfold len; cbn; lia]. intros n [Hn [x Hx]]%frameNames_spec. exists x. split; [done|]. exact (Hf id d n x Hd Hx Hn).
Qed.

Lemma PollFrames_runs t limit mid : running t -> attached t mid -> 0 < limit <= 32 ->
  exists t' got, PollFrames t limit mid = (t', Ok got) /\ running t' /\
    length got = Nat.min (Z.to_nat limit) (length (inboxAt (qOf t) (hexEncode mid))) /\
    inboxAt (qOf t) (hexEncode mid) ≡ₚ got ++ inboxAt (qOf t') (hexEncode mid).
Proof.
  intros Hr (Hm & sec & Hat & Hsec & [d Hd]) Hl. unfold PollFrames, requireStarted. rewrite (rn_started t Hr). cbn [negb].
  rewrite (proj2 (Z.leb_gt limit 0)), (proj2 (Z.ltb_ge 32 limit)) by lia. cbn [orb].
  destruct (poll_runs (turnOf t) _ _ _ _ _ (rn_fit t Hr) Hsec Hd Hl) as (d' & got & Hpoll & Hsub & Hlen). set (q' := set_dirs _ _) in Hpoll.
  pose proof (poll_frames _ _ _ _ _ _ _ Hpoll) as (_ & Hbox & Hfit & Hcap & _ & _).
  specialize (Hbox (hexEncode mid)). rewrite decide_True in Hbox by done. apply (fun H => handed_removed _ _ _ _ H (fun n => proj1 (wk_files Hw (turnOf t) n))) in Hbox.
  destruct (encode_total [(x01, [Rpc.defaultLimit (byteZ limit)]); (x02, mid)]) as [p Hp]; [cbn; lia|sizes|].
  assert (Rpc.MarshalPoll (Rpc.mkPoll (byteZ limit) mid) = Ok p) as Hmp.
  { unfold Rpc.MarshalPoll. cbn [Rpc.p_MailboxID Rpc.p_Limit]. assert (Rpc.emptyOr 16 mid = true) as -> by (unfold Rpc.emptyOr; rewrite Hm; apply orb_true_r). exact Hp. }
  pose proof Hp as Hsz. apply ofOption_Ok, np_encode_size in Hsz. cbn [foldr snd] in Hsz. unfold len at 2 in Hsz. cbn [length] in Hsz.
  destruct (roundTrip_run t OpPoll (Rpc.MarshalPoll (Rpc.mkPoll (byteZ limit) mid)) p Rpc.UnmarshalPollResult q' (marshalPollResult got)) as (c & Hrt & Hq & Ht & Ha);
    [by vm_compute|apply (rn_alive t Hr)|exact Hmp|lia| |by apply poll_size|].
  { change (dispatchOp (io (turnOf t)) (qOf t) x06 p = (q', (x06, marshalPollResult got))). cbn [dispatchOp]. rewrite (poll_read _ _ Hmp).
    cbn [Example.limit pollMailboxID Rpc.p_Limit Rpc.p_MailboxID]. rewrite Zb_limit, Hm by done. change (16 =? 16) with true. cbv beta iota. unfold pollAny.
    assert (bytes_eqb (hexEncode mid) [] = false) as ->.
    { apply bool_decide_eq_false_2. intros Hn. pose proof (len_hexEncode mid) as Hle. rewrite Hn, Hm in Hle. done. }
    cbn [negb]. rewrite Hat. by rewrite Hpoll. }
  pose proof Hrt as Hdr. apply roundTrip_drawn in Hdr; [|by vm_compute|apply (rn_drawn t Hr)].
  rewrite Hrt, poll_answer by done. exists (set_proc c t), got. split; [done|]. change (qOf (set_proc c t)) with (sv_queue c). rewrite Hq.
  split; [|split; [unfold inboxAt; by rewrite Hd|exact Hbox]].
  apply running_proc; try done; rewrite Hq; [apply (rn_running t Hr)|]. intros k dd n x Hk Hn. unfold q' in Hk. cbn in Hk. destruct (decide (k = hexEncode mid)) as [->|Hne].
  - rewrite lookup_insert_eq in Hk. injection Hk as <-. apply (lookup_weaken _ _ _ _ Hn) in Hsub. exact (rn_fit t Hr _ d n x Hd Hsub).
  - rewrite lookup_insert_ne in Hk by done. exact (rn_fit t Hr k dd n x Hk Hn).
Qed.

Lemma process_frames_honest : HonestMail (fun _ => process_frames) restart.
Proof.
  split.
  - intros tr t mid Hr. destruct (restart_runs tr t Hr) as [? Hq]. split; [done|]. cbn. unfold inboxAt. by rewrite Hq.
  - intros tr t f h t' Hr H. pose proof (SendFrame_runs _ _ _ _ Hr H) as Hr'. split; [done|].
    apply SendFrame_frames in H as [_ Hi]; [|intros rnd Hrnd; by apply (rn_drawn t Hr (turnOf t))].
    specialize (Hi (Example.mailboxOf (RecipientPub h))). rewrite decide_True in Hi by done. exact Hi.
  - intros tr t att Hr (Hm & Hs & Hsh & H1 & H2).
    destruct (AttachMailbox_runs t _ _ _ _ Hr Hm Hs Hsh H1 H2) as (t' & Ha & Hr' & Hd & Hat & Hsec). exists t'. split; [exact Ha|]. split; [done|].
    assert (is_Some (q_dirs (qOf t') !! hexEncode (OpsMessages.mailboxOf att))) as Hdir by (rewrite Hd; unfold mkdir; cbn; rewrite lookup_insert_eq; by eexists).
    split; [by split; [|eexists; split; [|split]]|]. cbn. unfold inboxAt. rewrite Hd. change (inboxAt (mkdir (hexEncode (OpsMessages.mailboxOf att)) (qOf t)) (hexEncode (OpsMessages.mailboxOf att)) = inboxAt (qOf t) (hexEncode (OpsMessages.mailboxOf att))).
    apply mkdir_inbox.
  - intros tr t limit mid. exact (PollFrames_runs t limit mid).
Qed.

End Wire.

(** C5: The transport of the repository, run by the core as a child process, is an
    honest relay while its system calls succeed and the file names it draws differ:
    what is sent waits in the mailbox of the recipient's key, across restarts; who
    attaches a mailbox gets what waits there, as much as is asked for, and nothing
    is lost.  A process started on an empty or any well-formed directory is in such
    a state. *)
Theorem example_relay_is_honest `{N : Nanopack} `{NL : !NanopackLaws} `{NS : !NanopackSize} `{X : Texts} (io : nat -> sys) :
  works io ->
  @HonestMail _ (exampleView io) (fun _ => @process_frames _ _ (exampleChild io)) (restart io) /\
  forall dirs turn m config,
    Manager.mf_ID m = exampleID -> len config <= 65536 -> allFit (serve dirs) ->
    (forall j rnd, (turn <= j)%nat -> sy_rand (io j) = Some rnd -> unused (serve dirs) rnd) ->
    exists pt, @NewProcessTransport _ _ (exampleChild io) (mkServer (serve dirs) true 0 turn) m config = inr pt /\
      (@Start _ _ (exampleChild io) pt).2 = Ok tt /\ running io (@Start _ _ (exampleChild io) pt).1.
Proof.
  intros Hw. split; [by apply process_frames_honest; [apply (wk_rand io Hw)|]|].
  intros dirs turn m config Hid Hc Hf Hd. destruct (start_running io dirs turn m config Hid Hc Hf Hd) as (pt & ? & ? & ? & _). by exists pt.
Qed.

(** ** Witnesses *)
#[local] Instance demoTexts : Texts := {| tx_decode := id; tx_short := str "short"; tx_os := str "os" |}.

(** A counter for the random names, and system calls that succeed. *)
Definition demoIo (i : nat) : sys := mkSys true (if Z.of_nat i <? 2 ^ 64 then Some (be 8 (Z.of_nat i)) else None) Wrote true true (fun _ => true) (fun _ => true).

Lemma demoIo_distinct i j rnd : sy_rand (demoIo i) = Some rnd -> sy_rand (demoIo j) = Some rnd -> i = j.
Proof.
  unfold demoIo. cbn [sy_rand]. destruct (Z.ltb_spec (Z.of_nat i) (2 ^ 64)), (Z.ltb_spec (Z.of_nat j) (2 ^ 64)); try done.
  intros Hi Hj. apply (inj Some) in Hi, Hj. subst rnd. apply (f_equal unbe) in Hj. rewrite !unbe_be in Hj. rewrite !Z.mod_small in Hj by (change (8 * Z.of_nat 8) with 64; lia). lia.
Qed.

Lemma demoIo_works : works demoIo.
Proof. split; [done|done|exact demoIo_distinct]. Qed.

#[local] Instance demoChild : Transport.Child server := exampleChild demoIo.

Definition demoManifest : Manager.Manifest := Manager.mkManifest exampleID [] [] [x01] [] [] [].
Definition demoRelay : proc := mkPT demoManifest (mkServer (serve ∅) true 0 0) [] false [] [].
Definition demoPub : bytes := replicate 32 x21.
Definition demoMid : bytes := take 16 (sha256 demoPub).
Definition demoCalls : list tcall :=
  [TStart; TSend (str "one") (mkRoute demoPub [] [] []); TSend (str "two") (mkRoute demoPub [] [] []); TSend [] (mkRoute demoPub [] [] []);
   TAttach demoMid (replicate 32 x22) (str "s") []; TPoll 1 demoMid; TStop; TSend (str "three") (mkRoute demoPub [] [] [])].

(** Two of four frames are accepted, one of them is handed out, the other waits. *)
Lemma relay_keeps_every_frame_witness :
  exists t' acc got, trun demoIo demoRelay demoCalls = (t', acc, got) /\ acc = [str "one"; str "two"] /\ length got = 1%nat /\
    acc ≡ₚ got ++ allFrames (qOf t').
Proof.
  assert ((trun demoIo demoRelay demoCalls).1.2 = [str "one"; str "two"] /\ length (trun demoIo demoRelay demoCalls).2 = 1%nat) as [Ha Hg] by (split; vm_compute; reflexivity).
  destruct (trun demoIo demoRelay demoCalls) as [[t' acc] got] eqn:H. exists t', acc, got. cbn [fst snd] in Ha, Hg.
  destruct (relay_keeps_every_frame demoIo demoIo_distinct demoCalls demoRelay t' acc got) as (again & Hp & _ & Hn).
  - intros j rnd _ _ k d Hk. discriminate Hk.
  - exact H.
  - rewrite Hn, app_nil_r in Hp by (intros i n; reflexivity). exact (conj eq_refl (conj Ha (conj Hg Hp))).
Defined.

(** A frame whose file cannot be removed is handed out at every poll. *)
Lemma unremoved_frame_repeats :
  let io i := mkSys true (sy_rand (demoIo i)) Wrote true true (fun _ => true) (fun _ => false) in
  (@trun _ _ io demoRelay [TStart; TSend (str "one") (mkRoute demoPub [] [] []); TAttach demoMid (replicate 32 x22) (str "s") []; TPoll 1 demoMid; TPoll 1 demoMid]).2
  = [str "one"; str "one"].
Proof. vm_compute. reflexivity. Qed.

Lemma example_relay_is_honest_witness :
  works demoIo /\ @HonestMail _ (exampleView demoIo) (fun _ => process_frames) (restart demoIo) /\
  exists pt, NewProcessTransport (mkServer (serve ∅) true 0 0) demoManifest [] = inr pt /\ running demoIo (Start pt).1.
Proof.
  split; [exact demoIo_works|]. destruct (example_relay_is_honest demoIo demoIo_works) as [Hh Hs]. split; [exact Hh|].
  destruct (Hs ∅ 0%nat demoManifest []) as (pt & Hn & _ & Hr); [reflexivity|vm_compute; discriminate|intros k d n x Hk; discriminate Hk|intros j rnd _ _ k d Hk; discriminate Hk|].
  exists pt. split; [exact Hn|exact Hr].
Defined.
