(* ===== verification/Host.v ===== *)
(** * internal/ntxhost: transports in a browser tab
    ([pkg.go], [host.go], [ops.go], [export.go], [registrar.go], [xfer.go], [abi.go])

    The registry of the packages a tab has installed, the runtimes it has started,
    and what is done with them.  [archive/zip], [encoding/json] and Unicode are
    those of [Ops.Surroundings]; a runtime is what [spawn] makes of a module's
    bytes, known by a handle and reached through [FrameTransport] and
    [FileTransport]; the router is behind [Registrar].  An operation is a
    state-and-error computation; starting a runtime, which gives up the lock, is cut
    into the part before, the part without and the part after it, so that what
    other operations do in between can be said. *)
From S2P Require Import Prelude GoStd Sha256 External SecurePeer Engine Client Frame MultiMsg MultiStore Fanout Dispatch FileTransfer.
From S2P Require Import Rpc Manager Transport Worker Ops.
#[local] Open Scope Z_scope.

Module Host.
Import Transport.

Inductive h_err :=
| HEmpty | HPackageSize (n : Z) | HZip | HDuplicate (name : bytes) | HNoManifest | HManifestMember (e : h_err) | HManifest (e : Manager.mg_err)
| HProcessModel | HNoEntry | HEntryMember (e : h_err) | HNotWasm | HMemberSize | HRead
| HNoPin | HMismatch
| HNotInstalled | HRunning | HDisabled | HNoRuntime | HSpawn | HCapability | HTransport (e : tr_err) | HCorrupt (e : h_err) | HReplay (e : tr_err) | HChanged | HRemoved
| HMailboxHex | HSecretHex | HAttach (e : h_err) | HNoShard | HDetachHex | HNotAttached | HNoMailboxes
| HNoIdentity | HNoRouter | HRegister (text : bytes) | HIncomplete | HAttachFailed (e : h_err) | HResolve (text : bytes)
| HRecipient | HHintMailbox | HHintShard | HNoMessage | HClient (e : client_err) | HFrameSize (n : Z)
| HImport | HVersion (v : Z) | HBase64 | HImportPackage (e : h_err) | HImportID | HImportDuplicate | HImportAttach (e : h_err) | HImportShard
| HNoFiles | HNoXfer | HNoData | HDataSize (n : Z) | HCreate (e : tr_err) | HPut (i : Z) (e : tr_err) | HComplete (e : tr_err) | HFile (e : ft_err)
| HLimits | HNoSender | HResume (e : tr_err) | HMissing (highest : Z) (ranges : Z) | HGet (i : Z) (e : tr_err) | HChunkHash (i : Z)
| HBlobTruncated | HBlobBounds | HRPC (code : Z) (detail : bytes) | HRefused (op : bytes) (rc : Z).

(** ** pkg.go *)
Definition MaxPackageBytes : Z := 33554432.
Definition MaxEntryBytes : Z := 25165824.
Definition maxManifest : Z := 65536.

Record Package := mkPackage { pk_Manifest : Manager.Manifest; pk_Entry : bytes; pk_Raw : bytes; pk_Hash : bytes }.

Definition HashBytes (raw : bytes) : bytes := hexEncode (sha256 raw).

Definition Verify (p : Package) (pinned : bytes) : res h_err unit :=
  if bytes_eqb pinned [] then Err HNoPin else check (negb (bytes_eqb (HashBytes (pk_Raw p)) pinned)) HMismatch.

Definition readMember (f : Manager.zipEntry) (max : Z) : res h_err bytes :=
  if max <? Manager.ze_Size f then Err HMemberSize else
  match Manager.ze_Data f with
  | None => Err HRead
  | Some d => if max <? len d then Err HMemberSize else Ok d
  end.

Fixpoint members (entries : list Manager.zipEntry) (files : gmap bytes Manager.zipEntry) : res h_err (gmap bytes Manager.zipEntry) :=
  match entries with
  | [] => Ok files
  | f :: entries =>
      match files !! Manager.ze_Name f with
      | Some _ => Err (HDuplicate (Manager.ze_Name f))
      | None => members entries (<[Manager.ze_Name f := f]> files)
      end
  end.

Section Package.
Context `{X : Ops.Surroundings}.

Definition isWasm (entry : bytes) : bool := (negb (len entry <? 8) && bytes_eqb (take 4 entry) [x00; x61; x73; x6d])%bool.

Definition Inspect (raw : bytes) : res h_err Package :=
  if len raw =? 0 then Err HEmpty else
  if MaxPackageBytes <? len raw then Err (HPackageSize (len raw)) else
  entries ← ofOption HZip (Ops.ex_unzip raw);
  files ← members entries ∅;
  mfFile ← ofOption HNoManifest (files !! Manager.manifestName);
  mfRaw ← wrapErr HManifestMember (readMember mfFile maxManifest);
  mf ← wrapErr HManifest (Manager.ParseManifest Ops.ex_manifest mfRaw);
  if negb (hasSuffix (str ".wasm") (toLower Ops.ex_uni (Manager.mf_Entry mf))) then Err HProcessModel else
  entryFile ← ofOption HNoEntry (files !! Manager.mf_Entry mf);
  entry ← wrapErr HEntryMember (readMember entryFile MaxEntryBytes);
  if negb (isWasm entry) then Err HNotWasm else Ok (mkPackage mf entry raw (HashBytes raw)).

End Package.

(** ** abi.go *)

(** Frames with their lengths before them; each round reads at least a length. *)
Fixpoint pollBlob (fuel : nat) (blob : bytes) (out : list bytes) : res h_err (list bytes) :=
  match fuel, blob with
  | _, [] => Ok out
  | O, _ => Ok out
  | S fuel, _ =>
      if len blob <? 4 then Err HBlobTruncated else
      let n := unbe (take 4 blob) in
      let rest := drop 4 blob in
      if ((n <=? 0) || (Rpc.MaxFrameBytes <? n) || (len rest <? n))%bool then Err HBlobBounds else
      pollBlob fuel (drop (Z.to_nat n) rest) (out ++ [take (Z.to_nat n) rest])
  end.

Definition ParsePollBlob (blob : bytes) : res h_err (list bytes) := pollBlob (length blob) blob [].

Definition MaxPollBlob : Z := Rpc.MaxFrameBytes * 33 + 16.

Definition ErrNotReady : Z := 3.
Definition ErrTransport : Z := 4.

Definition ABIError (op : bytes) (rc : Z) : res h_err unit :=
  if rc =? 0 then Ok tt else
  if bytes_eqb op (str "send") then
    Err (if rc =? 1 then HRPC ErrNotReady (str "transport not started")
         else if rc =? 3 then HRPC ErrTransport (str "transport queue full")
         else HRPC ErrTransport (str "send refused: " ++ dec rc))
  else if (bytes_eqb op (str "attach") || bytes_eqb op (str "detach"))%bool then Err (HRPC ErrTransport (op ++ str " refused: " ++ dec rc))
  else Err (HRefused op rc).

(** ** registrar.go *)
Record Capability := mkCap { ca_MailboxID : bytes; ca_ReadSecret : bytes; ca_ShardURL : bytes }.
Record Resolution := mkRes { rn_MailboxID : bytes; rn_ShardURL : bytes }.

(** The errors of a router are texts. *)
Class Registrar (G : Type) := {
  rg_Register : G -> bytes -> bytes -> G * res bytes Capability;
  rg_Resolve : G -> bytes -> bytes -> G * res bytes Resolution;
}.

Section Router.
Context {W : Type} `{P : Prims} `{HT : Worker.Http W} `{WJ : Worker.WorkerJSON} (uni : bytes -> bytes) (now : Z).

(** One client per URL, made when it is first needed. *)
Record routerRegistrar := mkRegistrar { rr_clients : gmap bytes Worker.RouterClient; rr_web : W }.

Definition client (r : routerRegistrar) (url : bytes) : Worker.RouterClient := default (Worker.NewRouterClient url) (rr_clients r !! url).

Definition Register_ (r : routerRegistrar) (routerURL priv : bytes) : routerRegistrar * res bytes Capability :=
  let '(rc, w, cap) := Worker.Router_Register now (client r routerURL) (rr_web r) priv in
  (mkRegistrar (<[routerURL := rc]> (rr_clients r)) w, cap ← cap; Ok (mkCap (Worker.mc_MailboxID cap) (Worker.mc_ReadSecret cap) (Worker.mc_ShardURL cap))).

Definition Resolve_ (r : routerRegistrar) (routerURL peerPubkeyHex : bytes) : routerRegistrar * res bytes Resolution :=
  let '(rc, w, p) := Worker.Resolve uni (client r routerURL) (rr_web r) peerPubkeyHex in
  (mkRegistrar (<[routerURL := rc]> (rr_clients r)) w,
   p ← p;
   if (bytes_eqb (Worker.pr_MailboxID p) [] || bytes_eqb (Worker.pr_ShardURL p) [])%bool then Err (str "router returned an incomplete resolution")
   else Ok (mkRes (Worker.pr_MailboxID p) (Worker.pr_ShardURL p))).

#[export] Instance RouterRegistrar : Registrar routerRegistrar := {| rg_Register := Register_; rg_Resolve := Resolve_ |}.

End Router.
Arguments routerRegistrar W : clear implicits.

(** ** host.go: the registry *)

(** [r_ref] tells one record from another: the Go code compares pointers. *)
Record record (L : Type) := mkRec {
  r_ref : nat; r_pkg : Package; r_pinned : bytes; r_enabled : bool; r_attach : list Manager.Attachment; r_live : option L }.
Arguments mkRec {L}. Arguments r_ref {L}. Arguments r_pkg {L}. Arguments r_pinned {L}. Arguments r_enabled {L}. Arguments r_attach {L}. Arguments r_live {L}.

(** The registry, what is behind the runtimes, the identity and the routers.
    [hs_next] is the next fresh record. *)
Record host (L T D G : Type) := mkHost {
  hs_recs : gmap bytes (record L); hs_next : nat; hs_net : T; hs_ident : option D; hs_web : G }.
Arguments mkHost {L T D G}. Arguments hs_recs {L T D G}. Arguments hs_next {L T D G}. Arguments hs_net {L T D G}.
Arguments hs_ident {L T D G}. Arguments hs_web {L T D G}.

(** Computations over a state that can fail. *)
Definition Act (W A : Type) : Type := W -> W * res h_err A.

#[export] Instance Act_ret W : MRet (Act W) := fun A a w => (w, Ok a).
#[export] Instance Act_bind W : MBind (Act W) := fun A B f m w =>
  match m w with
  | (w, Ok a) => f a w
  | (w, Err e) => (w, Err e)
  | (w, Panic) => (w, Panic)
  end.

Definition lift {W A} (r : res h_err A) : Act W A := fun w => (w, r).
Definition gets {W A} (f : W -> A) : Act W A := fun w => (w, Ok (f w)).
Definition attempt {W A} (m : Act W A) : Act W (h_err + A) := fun w =>
  match m w with
  | (w, Ok a) => (w, Ok (inr a))
  | (w, Err e) => (w, Ok (inl e))
  | (w, Panic) => (w, Panic)
  end.

Record Info := mkInfo {
  in_ID : bytes; in_Name : bytes; in_Version : bytes; in_Enabled : bool; in_Capabilities : list bytes; in_Permissions : list bytes; in_Hash : bytes; in_Entry : bytes }.

Definition infoOf (p : Package) (enabled : bool) : Info :=
  let m := pk_Manifest p in
  mkInfo (Manager.mf_ID m) (Manager.mf_Name m) (Manager.mf_Version m) enabled (Manager.mf_Capabilities m) (Manager.mf_Permissions m) (pk_Hash p) (Manager.mf_Entry m).

(** ** ops.go, export.go, xfer.go: parameters and documents *)
Record AttachParams := mkAttachParams { ha_Mailbox : bytes; ha_Secret : bytes; ha_Shard : bytes; ha_Router : bytes }.
Record Registration := mkRegistration { hr_MailboxID : bytes; hr_ReadSecret : bytes; hr_ShardURL : bytes; hr_RouterURL : bytes }.
Record PollParams := mkPollParams { hp_Mailbox : bytes; hp_Limit : Z }.
Record SendOptions := mkSendOptions { so_Mailbox : bytes; so_Shard : bytes }.

Record exportAttach := mkExportAttach { ea_Mailbox : bytes; ea_ReadSecret : bytes; ea_Shard : bytes; ea_Router : bytes; ea_Owner : bytes }.
Record exportEntry := mkExportEntry { ee_ID : bytes; ee_Hash : bytes; ee_Package : bytes; ee_Enabled : bool; ee_Attachments : list exportAttach }.
Record exportDoc := mkExportDoc { ed_Version : Z; ed_Transports : list exportEntry }.

(** [encoding/json] on the document. *)
Class ExportJSON := { ej_Marshal : exportDoc -> bytes; ej_Unmarshal : bytes -> option exportDoc }.

Definition ExportVersion : Z := 1.

Record XferSendParams := mkXferSend { xs_Peer : bytes; xs_Name : bytes; xs_Data : bytes; xs_Mailbox : bytes; xs_Shard : bytes; xs_ChunkSize : Z }.
Record XferSent := mkXferSent { xt_Ticket : bytes; xt_TransferID : bytes; xt_Expires : Z }.
Record XferReceiveParams := mkXferReceive { xr_Ticket : bytes; xr_From : bytes }.
Record TicketInfo := mkTicketInfo { ti_TransferID : bytes; ti_Shard : bytes; ti_Name : bytes; ti_Size : Z; ti_Sender : bytes }.

Definition MaxXferBytes : Z := 8388608.
Definition DefaultChunkSize : Z := 32768.
Definition maxChunkCount : Z := 16384.

(** What one operation gets from outside. *)
Record hostEnv := mkHostEnv {
  he_save : bool;                         (* writing the profile succeeds *)
  he_rand : bytes;                        (* key material of [Encrypt] *)
  he_range : storeIO;                     (* the order of a map *)
  he_frames : nat -> nat -> dispatchEnv;  (* the frame j of the mailbox i *)
  he_dpText : dp_err -> bytes;
  he_text : h_err -> bytes;               (* the text of an error *)
}.

(** What [ensure] remembers while it has given up the lock. *)
Record start := mkStart { st_ref : nat; st_pkg : Package; st_pinned : bytes; st_atts : list Manager.Attachment }.

Definition isHex (s : bytes) : bool := match hexDecode s with Some _ => true | None => false end.

Definition decodeAttachment (a : Manager.Attachment) : res h_err (bytes * bytes) :=
  if (negb (len (Manager.at_MailboxID a) =? 32) || negb (isHex (Manager.at_MailboxID a)))%bool then Err HMailboxHex else
  if (negb (len (Manager.at_ReadSecret a) =? 64) || negb (isHex (Manager.at_ReadSecret a)))%bool then Err HSecretHex else
  Ok (default [] (hexDecode (Manager.at_MailboxID a)), default [] (hexDecode (Manager.at_ReadSecret a))).

(** [cleanName]: what follows the last slash of either kind. *)
Definition slashed (s : bytes) : bytes := (fun b => if bool_decide (b = x5c) then x2f else b) <$> s.

Fixpoint afterSlash (s rest : bytes) : bytes :=
  match s with [] => rest | b :: s => afterSlash s (if bool_decide (b = x2f) then s else rest) end.

Definition cleanName (n : bytes) : bytes :=
  let n := slashed n in
  let n := trimSpace (afterSlash n n) in
  if (bytes_eqb n [] || bytes_eqb n (str ".") || bytes_eqb n (str ".."))%bool then str "file" else n.

Section Host.
Context `{N : Nanopack} `{P : Prims} `{J : LegacyJSON} `{R : Binstore.RecordStore} `{X : Ops.Surroundings} `{EJ : ExportJSON}.
Context {S D : Type} `{CS : ContextStore S} `{DS : DeliveryStore D}.
Context {L T G : Type} `{RG : Registrar G}.
(** A runtime's interfaces; whether one is configured; starting one from a
    module's bytes and its manifest; [Kill], where there is one; [XferResolve],
    where there is one. *)
Context (frames : L -> FrameTransport T) (files : L -> FileTransport T).
Context (spawn : option (bytes -> Manager.Manifest -> T -> T * res h_err L)) (kill : L -> T -> T).
Context (resolver : L -> option (T -> bytes -> bytes -> T * res tr_err (bytes * bytes))).
Context (env : hostEnv).

Abbreviation deps := (Dispatch.Deps S D).
Abbreviation Host := (host L T deps G).
Abbreviation Op := (Act Host).

Definition set_recs (m : gmap bytes (record L)) (h : Host) : Host := mkHost m (hs_next h) (hs_net h) (hs_ident h) (hs_web h).
Definition set_next (n : nat) (h : Host) : Host := mkHost (hs_recs h) n (hs_net h) (hs_ident h) (hs_web h).
Definition set_net (t : T) (h : Host) : Host := mkHost (hs_recs h) (hs_next h) t (hs_ident h) (hs_web h).
Definition set_ident (d : option deps) (h : Host) : Host := mkHost (hs_recs h) (hs_next h) (hs_net h) d (hs_web h).
Definition set_web (g : G) (h : Host) : Host := mkHost (hs_recs h) (hs_next h) (hs_net h) (hs_ident h) g.
Definition put (id : bytes) (r : record L) (h : Host) : Host := set_recs (<[id := r]> (hs_recs h)) h.

Definition set_enabled (b : bool) (r : record L) : record L := mkRec (r_ref r) (r_pkg r) (r_pinned r) b (r_attach r) (r_live r).
Definition set_package (p : Package) (r : record L) : record L := mkRec (r_ref r) p (pk_Hash p) (r_enabled r) (r_attach r) (r_live r).
Definition set_attach (l : list Manager.Attachment) (r : record L) : record L := mkRec (r_ref r) (r_pkg r) (r_pinned r) (r_enabled r) l (r_live r).
Definition set_live (l : option L) (r : record L) : record L := mkRec (r_ref r) (r_pkg r) (r_pinned r) (r_enabled r) (r_attach r) l.

(** A call on a runtime. *)
Definition netCall {A} (f : T -> T * res tr_err A) : Op A := fun h => let '(t, r) := f (hs_net h) in (set_net t h, wrapErr HTransport r).

(** ** host.go *)
Definition New (t : T) (d : option deps) (g : G) : Host := mkHost ∅ 0 t d g.

(** The record of a package that is installed over the registry: a new one, or the
    one there is, unless it runs; with another package it is no longer enabled. *)
Definition installRecord (h : Host) (pkg : Package) : res h_err (record L) :=
  match hs_recs h !! Manager.mf_ID (pk_Manifest pkg) with
  | None => Ok (mkRec (hs_next h) pkg (pk_Hash pkg) false [] None)
  | Some rec =>
      match r_live rec with
      | Some _ => Err HRunning
      | None => Ok (set_package pkg (if negb (bytes_eqb (r_pinned rec) (pk_Hash pkg)) then set_enabled false rec else rec))
      end
  end.

(** The package is in the registry also when enabling it fails. *)
Definition Install (raw : bytes) (enable : bool) : Op Info := fun h =>
  match Inspect raw with
  | Panic => (h, Panic)
  | Err e => (h, Err e)
  | Ok pkg =>
      let id := Manager.mf_ID (pk_Manifest pkg) in
      match installRecord h pkg with
      | Panic => (h, Panic)
      | Err e => (h, Err e)
      | Ok rec =>
          let h := set_next (Datatypes.S (hs_next h)) h in
          if enable then
            match Verify pkg (r_pinned rec) with
            | Panic => (put id rec h, Panic)
            | Err e => (put id rec h, Err e)
            | Ok _ => (put id (set_enabled true rec) h, Ok (infoOf pkg true))
            end
          else (put id rec h, Ok (infoOf pkg (r_enabled rec)))
      end
  end.

Definition List_ (h : Host) : list Info := sortBy in_ID ((fun kr => infoOf (r_pkg kr.2) (r_enabled kr.2)) <$> io_range (he_range env) (hs_recs h)).

Definition Enable (id : bytes) : Op unit := fun h =>
  match hs_recs h !! id with
  | None => (h, Err HNotInstalled)
  | Some rec =>
      match Verify (r_pkg rec) (r_pinned rec) with
      | Panic => (h, Panic)
      | Err e => (put id (set_enabled false rec) h, Err e)
      | Ok _ => (put id (set_enabled true rec) h, Ok tt)
      end
  end.

Definition stopLive (l : option L) (t : T) : T := match l with None => t | Some l => kill l (@ft_Stop T (frames l) t).1 end.

Definition Disable (id : bytes) : Op unit := fun h =>
  match hs_recs h !! id with
  | None => (h, Err HNotInstalled)
  | Some rec => (set_net (stopLive (r_live rec) (hs_net h)) (put id (set_enabled false (set_live None rec)) h), Ok tt)
  end.

Definition Remove (id : bytes) : Op unit := fun h =>
  match hs_recs h !! id with
  | None => (h, Err HNotInstalled)
  | Some rec => (set_net (stopLive (r_live rec) (hs_net h)) (set_recs (delete id (hs_recs h)) h), Ok tt)
  end.

Definition Status (id : bytes) : Op (bool * bytes) := fun h =>
  match hs_recs h !! id with
  | None => (h, Err HNotInstalled)
  | Some rec =>
      match r_live rec with
      | Some l => netCall (@ft_Status T (frames l)) h
      | None => (h, Ok (false, if r_enabled rec then str "enabled, not started" else str "disabled"))
      end
  end.

(** *** [ensure], before it gives up the lock *)
Definition ensureBegin (id : bytes) (h : Host) : res h_err (L * Package + start) :=
  match hs_recs h !! id with
  | None => Err HNotInstalled
  | Some rec =>
      if negb (r_enabled rec) then Err HDisabled else
      match r_live rec with
      | Some l => Ok (inl (l, r_pkg rec))
      | None => Ok (inr (mkStart (r_ref rec) (r_pkg rec) (r_pinned rec) (r_attach rec)))
      end
  end.

(** The attachments are told to the new runtime. *)
Fixpoint replay (l : L) (atts : list Manager.Attachment) (t : T) : T * res h_err unit :=
  match atts with
  | [] => (t, Ok tt)
  | a :: atts =>
      match decodeAttachment a with
      | Panic => (t, Panic)
      | Err e => (t, Err (HCorrupt e))
      | Ok (mbox, sec) =>
          match @ft_AttachMailbox T (frames l) t mbox sec (Manager.at_ShardURL a) (Manager.at_RouterURL a) with
          | (t, Panic) => (t, Panic)
          | (t, Err e) => (t, Err (HReplay e))
          | (t, Ok _) => replay l atts t
          end
      end
  end.

Definition declared (mf : Manager.Manifest) (caps : list bytes) : bool := forallb (Manager.HasCapability mf) caps.

(** *** Without the lock: a runtime is made, checked and started. *)
Definition ensureRun (s : start) (t : T) : T * res h_err L :=
  match spawn with
  | None => (t, Err HNoRuntime)
  | Some spawn =>
      match Verify (st_pkg s) (st_pinned s) with
      | Panic => (t, Panic)
      | Err e => (t, Err e)
      | Ok _ =>
          match spawn (pk_Entry (st_pkg s)) (pk_Manifest (st_pkg s)) t with
          | (t, Panic) => (t, Panic)
          | (t, Err e) => (t, Err e)
          | (t, Ok l) =>
              if negb (declared (pk_Manifest (st_pkg s)) (@ft_Capabilities T (frames l) t)) then (stopLive (Some l) t, Err HCapability) else
              match @ft_Start T (frames l) t with
              | (t, Panic) => (t, Panic)
              | (t, Err e) => (stopLive (Some l) t, Err (HTransport e))
              | (t, Ok _) =>
                  match replay l (st_atts s) t with
                  | (t, Panic) => (t, Panic)
                  | (t, Err e) => (stopLive (Some l) t, Err e)
                  | (t, Ok _) => (t, Ok l)
                  end
              end
          end
      end
  end.

(** *** With the lock again: the record must still be there and enabled. *)
Definition ensureFinish (id : bytes) (s : start) (l : L) : Op (L * Package) := fun h =>
  match hs_recs h !! id with
  | Some rec =>
      if (bool_decide (r_ref rec = st_ref s) && r_enabled rec)%bool then (put id (set_live (Some l) rec) h, Ok (l, st_pkg s))
      else (set_net (stopLive (Some l) (hs_net h)) h, Err HChanged)
  | None => (set_net (stopLive (Some l) (hs_net h)) h, Err HChanged)
  end.

(** Nothing happens in between. *)
Definition ensure (id : bytes) : Op (L * Package) := fun h =>
  match ensureBegin id h with
  | Panic => (h, Panic)
  | Err e => (h, Err e)
  | Ok (inl lp) => (h, Ok lp)
  | Ok (inr s) =>
      match ensureRun s (hs_net h) with
      | (t, Panic) => (set_net t h, Panic)
      | (t, Err e) => (set_net t h, Err e)
      | (t, Ok l) => ensureFinish id s l (set_net t h)
      end
  end.

Definition identity : Op deps := fun h =>
  (h, match hs_ident h with
      | None => Err HNoIdentity
      | Some d => if bytes_eqb (cl_Id (dp_client d)) [] then Err HNoIdentity else Ok d
      end).

(** ** ops.go *)
Definition lower (s : bytes) : bytes := toLower Ops.ex_uni s.

(** [atts[i] = att] at the first with the mailbox, else appended. *)
Fixpoint upsert (att : Manager.Attachment) (l : list Manager.Attachment) : list Manager.Attachment :=
  match l with
  | [] => [att]
  | a :: l => if bytes_eqb (Manager.at_MailboxID a) (Manager.at_MailboxID att) then att :: l else a :: upsert att l
  end.

Definition recordAttachment (id : bytes) (att : Manager.Attachment) : Op unit := fun h =>
  match hs_recs h !! id with
  | None => (h, Err HRemoved)
  | Some rec => (put id (set_attach (upsert att (r_attach rec)) rec) h, Ok tt)
  end.

Definition Attach (id : bytes) (p : AttachParams) : Op unit :=
  let att := Manager.mkAttachment (lower (ha_Mailbox p)) (lower (ha_Secret p)) (ha_Shard p) (ha_Router p) [] in
  '(mbox, sec) ← lift (wrapErr HAttach (decodeAttachment att));
  _ ← lift (check (bytes_eqb (ha_Shard p) []) HNoShard);
  ident ← identity;
  let att := Manager.mkAttachment (lower (ha_Mailbox p)) (lower (ha_Secret p)) (ha_Shard p) (ha_Router p) (cl_Id (dp_client ident)) in
  '(tr, _) ← ensure id;
  _ ← netCall (fun t => @ft_AttachMailbox T (frames tr) t mbox sec (ha_Shard p) (ha_Router p));
  recordAttachment id att.

Definition Detach (id mailbox : bytes) : Op unit := fun h =>
  let mailbox := lower mailbox in
  if (negb (len mailbox =? 32) || negb (isHex mailbox))%bool then (h, Err HDetachHex) else
  match hs_recs h !! id with
  | None => (h, Err HNotInstalled)
  | Some rec =>
      if negb (existsb (fun a => bytes_eqb (Manager.at_MailboxID a) mailbox) (r_attach rec)) then (h, Err HNotAttached) else
      let h := put id (set_attach (List.filter (fun a => negb (bytes_eqb (Manager.at_MailboxID a) mailbox)) (r_attach rec)) rec) h in
      match r_live rec with
      | None => (h, Ok tt)
      | Some l => netCall (fun t => @ft_DetachMailbox T (frames l) t (default [] (hexDecode mailbox))) h
      end
  end.

Definition attachments (id : bytes) (h : Host) : list Manager.Attachment := match hs_recs h !! id with Some rec => r_attach rec | None => [] end.

Definition routerFor (id router : bytes) (h : Host) : bytes :=
  if negb (bytes_eqb (trimSpace router) []) then trimSpace router else
  match List.find (fun a => negb (bytes_eqb (Manager.at_RouterURL a) [])) (attachments id h) with Some a => Manager.at_RouterURL a | None => [] end.

Definition webCall {A} (wrap : bytes -> h_err) (f : G -> G * res bytes A) : Op A := fun h =>
  let '(g, r) := f (hs_web h) in (set_web g h, wrapErr wrap r).

Definition Register (id router : bytes) : Op Registration :=
  ident ← identity;
  _ ← ensure id;
  router ← gets (routerFor id router);
  _ ← lift (check (bytes_eqb router []) HNoRouter);
  cap ← webCall HRegister (fun g => rg_Register g router (cl_IdentityPrivate (dp_client ident)));
  _ ← lift (check (negb (len (ca_MailboxID cap) =? 32) || negb (isHex (ca_MailboxID cap)) || bytes_eqb (ca_ReadSecret cap) [] || bytes_eqb (ca_ShardURL cap) [])%bool HIncomplete);
  let out := mkRegistration (lower (ca_MailboxID cap)) (lower (ca_ReadSecret cap)) (ca_ShardURL cap) router in
  x ← attempt (Attach id (mkAttachParams (hr_MailboxID out) (hr_ReadSecret out) (hr_ShardURL out) router));
  match x with inl e => lift (Err (HAttachFailed e)) | inr _ => mret out end.

Definition ResolveRecipient (s : bytes) : res h_err bytes :=
  let s := trimSpace s in
  match (if len s =? 64 then hexDecode s else None) with
  | Some raw => Ok raw
  | None => wrapErr (fun _ => HRecipient) (PeerIDToEd25519Pub s)
  end.

Definition Resolve (id to router : bytes) : Op (bytes * bytes) :=
  pub ← lift (ResolveRecipient to);
  '(tr, _) ← ensure id;
  router ← gets (routerFor id router);
  _ ← lift (check (bytes_eqb router []) HNoRouter);
  match resolver tr with
  | Some f => '(mb, sh) ← netCall (fun t => f t pub router); mret (hexEncode mb, sh)
  | None => res ← webCall HResolve (fun g => rg_Resolve g router (hexEncode pub)); mret (lower (rn_MailboxID res), rn_ShardURL res)
  end.

(** *** Polling *)
Definition mine (self : bytes) (a : Manager.Attachment) : bool := (bytes_eqb (Manager.at_Owner a) [] || bytes_eqb (Manager.at_Owner a) self)%bool.

Definition selectAttachments (self mailbox : bytes) (atts : list Manager.Attachment) : res h_err (list Manager.Attachment) :=
  if negb (bytes_eqb mailbox []) then
    match List.filter (fun a => bytes_eqb (Manager.at_MailboxID a) (lower mailbox)) atts with [] => Err HNotAttached | pick => Ok pick end
  else match List.filter (mine self) atts with [] => Err HNoMailboxes | l => Ok l end.

Definition pollLimit (n : Z) : Z := if ((n <=? 0) || (32 <? n))%bool then 32 else n.

(** The callback the receive path replies with; a reply that cannot be sent ends
    the frame it belongs to. *)
Fixpoint sendReplies (tr : L) (self : bytes) (l : list reply) : Op bool :=
  match l with
  | [] => mret true
  | (recipientPub, t, payload) :: l =>
      x ← attempt (netCall (fun n => @ft_SendFrame T (frames tr) n (WrapFrame t payload) (mkRoute recipientPub self [] [])));
      match x with inl _ => mret false | inr _ => sendReplies tr self l end
  end.

Definition withSend (o : option bool) (e : dispatchEnv) : dispatchEnv :=
  mkDispatchEnv (de_save e) (de_rand e) (de_encaps e) o (de_io e) (de_mbio e) (de_nanos e) (de_millis e).

(** One frame: what is to be sent does not depend on whether it can be. *)
Definition dispatchFrame (tr : L) (self : bytes) (e : dispatchEnv) (dd : deps) (f : bytes) : Op (deps * list Event) :=
  let '(_, replies, _) := DispatchFrame (withSend (Some true) e) dd f in
  ok ← sendReplies tr self replies;
  let '(dd, _, r) := DispatchFrame (withSend (Some ok) e) dd f in
  match r with
  | Panic => lift Panic
  | Err e => mret (dd, [errorEvent (he_dpText env) e])
  | Ok None => mret (dd, [])
  | Ok (Some ev) => mret (dd, [ev])
  end.

Fixpoint dispatchFrames (tr : L) (self : bytes) (i j : nat) (dd : deps) (l : list bytes) : Op (deps * list Event) :=
  match l with
  | [] => mret (dd, [])
  | f :: l =>
      '(dd, evs) ← dispatchFrame tr self (he_frames env i j) dd f;
      '(dd, more) ← dispatchFrames tr self i (Datatypes.S j) dd l;
      mret (dd, evs ++ more)
  end.

Definition failure (text : bytes) : Event := mkEvent (str "error") [] [] [] text [] [] [] [] [].

Definition short (h : bytes) : bytes := if 12 <? len h then take 12 h else h.

(** One mailbox; what fails becomes an event. *)
Definition pollOne (tr : L) (self : bytes) (limit : Z) (i : nat) (a : Manager.Attachment) (dd : deps) : Op (deps * list Event) :=
  match decodeAttachment a with
  | Panic => lift Panic
  | Err e => mret (dd, [failure (he_text env e)])
  | Ok (mid, sec) =>
      x ← attempt (netCall (fun t => @ft_AttachMailbox T (frames tr) t mid sec (Manager.at_ShardURL a) (Manager.at_RouterURL a)));
      match x with
      | inl e => mret (dd, [failure (str "attach " ++ short (Manager.at_MailboxID a) ++ str ": " ++ he_text env e)])
      | inr _ =>
          y ← attempt (netCall (fun t => @ft_PollFrames T (frames tr) t limit mid));
          match y with
          | inl e => mret (dd, [failure (he_text env e)])
          | inr l => dispatchFrames tr self i 0 dd l
          end
      end
  end.

Fixpoint pollEach (tr : L) (self : bytes) (limit : Z) (i : nat) (atts : list Manager.Attachment) (dd : deps) : Op (deps * list Event) :=
  match atts with
  | [] => mret (dd, [])
  | a :: atts =>
      '(dd, evs) ← pollOne tr self limit i a dd;
      '(dd, more) ← pollEach tr self limit (Datatypes.S i) atts dd;
      mret (dd, evs ++ more)
  end.

Definition keepDeps (dd : deps) : Op unit := fun h => (set_ident (Some dd) h, Ok tt).

Definition Poll (id : bytes) (p : PollParams) : Op (list Event) :=
  ident ← identity;
  '(tr, _) ← ensure id;
  let cl := dp_client ident in
  atts ← gets (attachments id);
  atts ← lift (selectAttachments (cl_Id cl) (hp_Mailbox p) atts);
  '(dd, evs) ← pollEach tr (cl_IdentityPublic cl) (pollLimit (hp_Limit p)) 0 atts ident;
  _ ← keepDeps dd;
  mret evs.

(** *** Sending *)
Definition routeHint (peer selfPub : bytes) (o : SendOptions) : res h_err RouteHint :=
  if negb (bytes_eqb (so_Mailbox o) []) then
    match hexDecode (lower (so_Mailbox o)) with
    | None => Err HHintMailbox
    | Some mb =>
        if negb (len mb =? 16) then Err HHintMailbox else
        if bytes_eqb (so_Shard o) [] then Err HHintShard else Ok (mkRoute [] selfPub mb (so_Shard o))
    end
  else pub ← ResolveRecipient peer; Ok (mkRoute pub selfPub [] []).

(** A call on the identity's client, which every user of it sees. *)
Definition onClient {E A} (wrap : E -> h_err) (ident : deps) (f : Client -> Client * res E A) : Op A := fun h =>
  let '(cl, r) := f (dp_client ident) in (set_ident (Some (set_dpClient cl ident)) h, wrapErr wrap r).

Definition SendMessage (id peer msg : bytes) (o : SendOptions) : Op unit :=
  ident ← identity;
  '(tr, pkg) ← ensure id;
  _ ← lift (check (negb (Manager.HasCapability (pk_Manifest pkg) (str "message"))) HNoMessage);
  hint ← lift (routeHint peer (cl_IdentityPublic (dp_client ident)) o);
  ct ← onClient HClient ident (fun c => Client_Encrypt (he_save env) (he_rand env) c peer msg);
  let frame := WrapFrame TypeMessage ct in
  _ ← lift (check (Rpc.MaxFrameBytes <? len frame) (HFrameSize (len frame)));
  netCall (fun t => @ft_SendFrame T (frames tr) t frame hint).

(** ** export.go *)
Definition exportAtt (a : Manager.Attachment) : exportAttach :=
  mkExportAttach (Manager.at_MailboxID a) (Manager.at_ReadSecret a) (Manager.at_ShardURL a) (Manager.at_RouterURL a) (Manager.at_Owner a).

Definition exportRec (kr : bytes * record L) : exportEntry :=
  mkExportEntry kr.1 (r_pinned kr.2) (b64Encode (pk_Raw (r_pkg kr.2))) (r_enabled kr.2) (exportAtt <$> r_attach kr.2).

Definition exportOf (h : Host) : exportDoc := mkExportDoc ExportVersion (sortBy ee_ID (exportRec <$> io_range (he_range env) (hs_recs h))).

Definition Export (h : Host) : bytes := ej_Marshal (exportOf h).

Definition importAtt (a : exportAttach) : Manager.Attachment :=
  Manager.mkAttachment (ea_Mailbox a) (ea_ReadSecret a) (ea_Shard a) (ea_Router a) (ea_Owner a).

Fixpoint importAtts (l : list exportAttach) : res h_err (list Manager.Attachment) :=
  match l with
  | [] => Ok []
  | a :: l =>
      let att := importAtt a in
      _ ← wrapErr HImportAttach (decodeAttachment att);
      if bytes_eqb (Manager.at_ShardURL att) [] then Err HImportShard else
      atts ← importAtts l;
      Ok (att :: atts)
  end.

(** One entry, given the records that are there already. *)
Definition importEntry (e : exportEntry) (next : gmap bytes (record L)) (n : nat) : res h_err (record L) :=
  raw ← ofOption HBase64 (b64Decode (ee_Package e));
  pkg ← wrapErr HImportPackage (Inspect raw);
  _ ← wrapErr HImportPackage (Verify pkg (ee_Hash e));
  if negb (bytes_eqb (Manager.mf_ID (pk_Manifest pkg)) (ee_ID e)) then Err HImportID else
  if bool_decide (is_Some (next !! ee_ID e)) then Err HImportDuplicate else
  atts ← importAtts (ee_Attachments e);
  Ok (mkRec n pkg (ee_Hash e) (ee_Enabled e) atts None).

Fixpoint importAll (l : list exportEntry) (next : gmap bytes (record L)) (n : nat) : res h_err (gmap bytes (record L) * nat) :=
  match l with
  | [] => Ok (next, n)
  | e :: l => rec ← importEntry e next n; importAll l (<[ee_ID e := rec]> next) (Datatypes.S n)
  end.

Fixpoint stopAll (l : list (bytes * record L)) (t : T) : T :=
  match l with [] => t | kr :: l => stopAll l (stopLive (r_live kr.2) t) end.

Definition Import (js : bytes) : Op unit := fun h =>
  match (doc ← ofOption HImport (ej_Unmarshal js);
         _ ← check (negb (ed_Version doc =? ExportVersion)) (HVersion (ed_Version doc));
         importAll (ed_Transports doc) ∅ (hs_next h)) with
  | Panic => (h, Panic)
  | Err e => (h, Err e)
  | Ok (next, n) => (set_net (stopAll (io_range (he_range env) (hs_recs h)) (hs_net h)) (set_next n (set_recs next h)), Ok tt)
  end.

(** ** xfer.go *)
Definition xferCall {A} (wrap : tr_err -> h_err) (f : T -> T * res tr_err A) : Op A := fun h =>
  let '(t, r) := f (hs_net h) in (set_net t h, wrapErr wrap r).

Definition fileTransport (id : bytes) : Op L :=
  '(tr, pkg) ← ensure id;
  _ ← lift (check (negb (Manager.HasCapability (pk_Manifest pkg) (str "binary-transfer"))) HNoFiles);
  isFile ← gets (fun h => @ft_isFile T (files tr) (hs_net h));
  _ ← lift (check (negb isFile) HNoXfer);
  mret tr.

Fixpoint putChunks (tr : L) (tid : bytes) (chunkSize : Z) (i : Z) (chunks : list bytes) : Op unit :=
  match chunks with
  | [] => mret tt
  | c :: chunks =>
      _ ← xferCall (HPut i) (fun t => @ft_XferPut T (files tr) t (Rpc.mkXferPut tid (u32 i) c (sha256 c) (u64 (i64 (i * chunkSize)))));
      putChunks tr tid chunkSize (i + 1) chunks
  end.

Definition manifestBytes (mf : Manifest) : bytes := default [] (Manifest_Bytes mf).

Definition XferSend (id : bytes) (p : XferSendParams) : Op XferSent :=
  _ ← lift (check (len (xs_Data p) =? 0) HNoData);
  _ ← lift (check (MaxXferBytes <? len (xs_Data p)) (HDataSize (len (xs_Data p))));
  ident ← identity;
  ft ← fileTransport id;
  hint ← lift (routeHint (xs_Peer p) (cl_IdentityPublic (dp_client ident)) (mkSendOptions (xs_Mailbox p) (xs_Shard p)));
  let chunkSize := if xs_ChunkSize p <=? 0 then DefaultChunkSize else xs_ChunkSize p in
  '(cipher, chunks, mf) ← onClient HFile ident (fun c => EncryptFile (he_save env) (he_rand env) c (xs_Peer p) (cleanName (xs_Name p)) (xs_Data p) chunkSize);
  let pub := if bytes_eqb (MailboxID hint) [] then RecipientPub hint else [] in
  created ← xferCall HCreate (fun t => @ft_XferCreate T (files ft) t
    (Rpc.mkXferCreate (u64 (len cipher)) (u32 (mf_ChunkSize mf)) (u32 (mf_ChunkCount mf)) (manifestBytes mf) (MailboxID hint) pub (ShardURL hint)));
  _ ← putChunks ft (Rpc.xd_TransferID created) (mf_ChunkSize mf) 0 chunks;
  _ ← xferCall HComplete (fun t => @ft_XferComplete T (files ft) t (Rpc.xd_TransferID created) (sha256 cipher));
  raw ← lift (wrapErr HFile (MarshalTicket (mkTicket (Rpc.xd_TransferID created) (Rpc.xd_DownloadSecret created) (Rpc.xd_ShardURL created) (manifestBytes mf) (cl_Id (dp_client ident)))));
  mret (mkXferSent (EncodeTicketString raw) (hexEncode (Rpc.xd_TransferID created)) (Rpc.xd_Expires created)).

(** What a ticket says, within the limits of a tab. *)
Definition parseTicket (ticketB64 : bytes) : res h_err (Ticket * Manifest) :=
  raw ← wrapErr HFile (DecodeTicketString ticketB64);
  tk ← wrapErr HFile (ParseTicket raw);
  mf ← wrapErr HFile (ParseManifest (tk_Manifest tk));
  Ok (tk, mf).

Definition outside (mf : Manifest) : bool :=
  ((mf_PlainSize mf <? 0) || (MaxXferBytes <? mf_PlainSize mf) || (mf_CipherSize mf <? 0) || (MaxXferBytes + 1048576 <? mf_CipherSize mf)
   || (mf_ChunkCount mf <=? 0) || (maxChunkCount <? mf_ChunkCount mf))%bool.

Fixpoint getChunks (tr : L) (tk : Ticket) (n : nat) (i : Z) : Op (list bytes) :=
  match n with
  | O => mret []
  | Datatypes.S n =>
      '(payload, want) ← xferCall (HGet i) (fun t => @ft_XferGetByTicket T (files tr) t (tk_Transfer tk) (u32 i) (tk_Secret tk) (tk_Shard tk));
      if negb (bytes_eqb (hexEncode (sha256 payload)) (hexEncode want)) then lift (Err (HChunkHash i)) else
      rest ← getChunks tr tk n (i + 1);
      mret (payload :: rest)
  end.

Definition XferReceive (id : bytes) (p : XferReceiveParams) : Op (bytes * bytes) :=
  ident ← identity;
  '(tk, mf) ← lift (parseTicket (xr_Ticket p));
  _ ← lift (check (outside mf) HLimits);
  let peer := if bytes_eqb (xr_From p) [] then tk_From tk else xr_From p in
  _ ← lift (check (bytes_eqb peer []) HNoSender);
  ft ← fileTransport id;
  '(_, highest, missing) ← xferCall HResume (fun t => @ft_XferResumeByTicket T (files ft) t (tk_Transfer tk) (tk_Secret tk) (tk_Shard tk));
  _ ← lift (check (0 <? len missing) (HMissing highest (len missing)));
  chunks ← getChunks ft tk (Z.to_nat (mf_ChunkCount mf)) 0;
  plain ← onClient HFile ident (fun c => ReassembleAndDecrypt (he_save env) c peer chunks mf);
  mret (cleanName (mf_FileName mf), plain).

Definition DescribeTicket (ticketB64 : bytes) : res h_err TicketInfo :=
  '(tk, mf) ← parseTicket ticketB64;
  Ok (mkTicketInfo (hexEncode (tk_Transfer tk)) (tk_Shard tk) (cleanName (mf_FileName mf)) (mf_PlainSize mf) (tk_From tk)).

End Host.
End Host.
