(* ===== verification/HostTheorems.v ===== *)
(** * Transports in a browser tab: theorems

    What is always true of the registry, that a running module is the one whose
    hash is pinned, that an import is all or nothing and undoes an export, and what
    polling and receiving a file can do. *)
From S2P Require Import Prelude GoStd Sha256 External SecurePeer Engine Client Frame MultiMsg MultiStore MultiStoreTheorems Fanout Dispatch FileTransfer.
From S2P Require Import Rpc Manager Transport Worker Ops Host.
#[local] Open Scope Z_scope.

Import Transport Host.

(** ** Packages *)
Section Packages.
Context `{X : Ops.Surroundings}.

Lemma Inspect_Ok raw p : Inspect raw = Ok p -> pk_Raw p = raw /\ pk_Hash p = HashBytes raw.
Proof.
  unfold Inspect. destruct (len raw =? 0); [done|]. destruct (_ <? _); [done|]. intros H.
  apply bind_Ok in H as (a & _ & H). apply bind_Ok in H as (b & _ & H). apply bind_Ok in H as (c & _ & H). apply bind_Ok in H as (d & _ & H).
  apply bind_Ok in H as (mf & _ & H). destruct (negb (hasSuffix _ _)); [done|]. apply bind_Ok in H as (e & _ & H). apply bind_Ok in H as (f & _ & H).
  destruct (negb (isWasm f)); [done|]. by injection H as <-.
Qed.

Lemma Verify_pinned p : bytes_eqb (HashBytes (pk_Raw p)) [] = false -> Verify p (HashBytes (pk_Raw p)) = Ok tt.
Proof. intros H. unfold Verify. rewrite H. by rewrite (bool_decide_eq_true_2 _ eq_refl : bytes_eqb _ _ = true). Qed.

Lemma Hash_nonempty raw : bytes_eqb (HashBytes raw) [] = false.
Proof.
  apply bool_decide_eq_false_2. intros H. apply (f_equal length) in H. unfold HashBytes in H. rewrite length_hexEncode in H.
  by rewrite length_sha256 in H.
Qed.

Lemma Verify_Ok p pinned : Verify p pinned = Ok tt <-> pinned = HashBytes (pk_Raw p).
Proof.
  split.
  - unfold Verify. destruct (bytes_eqb pinned []); [done|]. unfold check. destruct (bytes_eqb (HashBytes _) _) eqn:H; [|done]. intros _. symmetry. by apply bool_decide_eq_true in H.
  - intros ->. apply Verify_pinned, Hash_nonempty.
Qed.

(** A package that was inspected, its pin, the ID it is filed under. *)
Definition sane (id : bytes) (p : Package) (pinned : bytes) : Prop :=
  Inspect (pk_Raw p) = Ok p /\ pinned = HashBytes (pk_Raw p) /\ Manager.mf_ID (pk_Manifest p) = id.

Lemma Inspect_sane raw p : Inspect raw = Ok p -> sane (Manager.mf_ID (pk_Manifest p)) p (pk_Hash p).
Proof. intros H. destruct (Inspect_Ok _ _ H) as [Hr Hh]. split; [by rewrite Hr|]. split; [by rewrite Hh, Hr|done]. Qed.

(** What is recorded can be told to a runtime. *)
Definition good (a : Manager.Attachment) : Prop := (exists ms, decodeAttachment a = Ok ms) /\ Manager.at_ShardURL a ≠ [].

End Packages.

(** ** What [encoding/json] keeps *)
Lemma graphic_utf8 s : forallb graphic s = true -> utf8Valid s = true.
Proof.
  induction s as [|b s IH]; [done|]. cbn [forallb]. intros [Hb Hs]%andb_true_iff. cbn [utf8Valid]. apply andb_true_iff in Hb as [_ Hb%Z.leb_le].
  rewrite (proj2 (Z.ltb_lt _ _)) by lia. by apply IH.
Qed.

Lemma hexval_graphic c : is_Some (hexval c) -> graphic c = true.
Proof. intros [x H]. revert H. by_bytes c. Qed.

Lemma hex_utf8 s : isHex s = true -> utf8Valid s = true.
Proof.
  intros H. apply graphic_utf8. unfold isHex in H. destruct (hexDecode s) as [r|] eqn:Hd; [|done]. clear H. revert r Hd.
  remember (length s) as n eqn:Hn. revert s Hn. induction n as [n IH] using lt_wf_ind. intros s Hn r Hd. destruct s as [|a [|b s]]; [done|done|].
  cbn [hexDecode] in Hd. destruct (hexval a) eqn:Ha; [|done]. destruct (hexval b) eqn:Hb; [|done]. destruct (hexDecode s) as [r0|] eqn:Hs; [|done].
  cbn [forallb]. rewrite !hexval_graphic by (rewrite ?Ha, ?Hb; by eexists). cbn [andb]. apply (IH (length s)) with r0; [subst; cbn; lia|done|done].
Qed.

Lemma idRe_utf8 s : Manager.idRe s = true -> utf8Valid s = true.
Proof.
  intros H. apply graphic_utf8. destruct s as [|b s]; [done|]. cbn [Manager.idRe] in H. apply andb_true_iff in H as [H _]. apply andb_true_iff in H as [Hb Hs].
  assert (forall c, (Manager.idChar c || bool_decide (c = x2d))%bool = true -> graphic c = true) as Hc by (intros c; by_bytes c).
  cbn [forallb]. rewrite (Hc b) by (by rewrite Hb). cbn [andb]. apply forallb_forall. intros c Hin. apply Hc. by apply (proj1 (forallb_forall _ _) Hs).
Qed.

Section Packages2.
Context `{X : Ops.Surroundings}.

Lemma Inspect_id raw p : Inspect raw = Ok p -> Manager.idRe (Manager.mf_ID (pk_Manifest p)) = true.
Proof.
  unfold Inspect. destruct (len raw =? 0); [done|]. destruct (_ <? _); [done|]. intros H.
  apply bind_Ok in H as (a & _ & H). apply bind_Ok in H as (b & _ & H). apply bind_Ok in H as (c & _ & H). apply bind_Ok in H as (d & _ & H).
  apply bind_Ok in H as (mf & Hm & H). apply wrapErr_Ok in Hm. destruct (negb (hasSuffix _ _)); [done|]. apply bind_Ok in H as (e & _ & H). apply bind_Ok in H as (f & _ & H).
  destruct (negb (isWasm f)); [done|]. injection H as <-. cbn [pk_Manifest]. unfold Manager.ParseManifest in Hm. apply bind_Ok in Hm as (m & _ & Hm).
  apply bind_Ok in Hm as (u & Hv & Hm). injection Hm as <-. unfold Manager.Validate in Hv. by destruct (Manager.idRe _).
Qed.
End Packages2.

Definition attValid (a : exportAttach) : bool :=
  (utf8Valid (ea_Mailbox a) && utf8Valid (ea_ReadSecret a) && utf8Valid (ea_Shard a) && utf8Valid (ea_Router a) && utf8Valid (ea_Owner a))%bool.
Definition entryValid (e : exportEntry) : bool :=
  (utf8Valid (ee_ID e) && utf8Valid (ee_Hash e) && utf8Valid (ee_Package e) && forallb attValid (ee_Attachments e))%bool.

(** A document of valid strings is read back as it was written. *)
Class ExportJSONLaws `{EJ : ExportJSON} : Prop := ej_inverse d : forallb entryValid (ed_Transports d) = true -> ej_Unmarshal (ej_Marshal d) = Some d.

(** ** The registry *)
Section Registry.
Context `{N : Nanopack} `{P : Prims} `{X : Ops.Surroundings} `{EJ : ExportJSON}.
Context {S D : Type} `{CS : ContextStore S} `{DS : DeliveryStore D} {L T G : Type}.
Context (frames : L -> FrameTransport T) (spawn : option (bytes -> Manager.Manifest -> T -> T * res h_err L)) (kill : L -> T -> T) (env : hostEnv).

Abbreviation Host := (host L T (Dispatch.Deps S D) G).

(** Everything the lock protects, and the one start that may be under way. *)
Inductive phase := Idle | Begun (id : bytes) (s : start) | Ran (id : bytes) (s : start) (l : L).

(** One step at a time, in any order.  With [strict], no package is installed while
    a runtime is being started. *)
Inductive step (strict : bool) : Host * phase -> Host * phase -> Prop :=
| s_begin h id s : ensureBegin id h = Ok (inr s) -> step strict (h, Idle) (h, Begun id s)
| s_run h id s t l : ensureRun frames spawn kill s (hs_net h) = (t, Ok l) -> step strict (h, Begun id s) (set_net t h, Ran id s l)
| s_failed h id s t r : ensureRun frames spawn kill s (hs_net h) = (t, r) -> isOk r = false -> step strict (h, Begun id s) (set_net t h, Idle)
| s_finish h id s l : step strict (h, Ran id s l) ((ensureFinish frames kill id s l h).1, Idle)
| s_install h ph raw enable : (strict = true -> ph = Idle) -> step strict (h, ph) ((Install raw enable h).1, ph)
| s_enable h ph id : step strict (h, ph) ((Enable id h).1, ph)
| s_disable h ph id : step strict (h, ph) ((Disable frames kill id h).1, ph)
| s_remove h ph id : step strict (h, ph) ((Remove frames kill id h).1, ph)
| s_detach h ph id mailbox : step strict (h, ph) ((Detach frames id mailbox h).1, ph)
| s_import h ph js : step strict (h, ph) ((Import frames kill env js h).1, ph)
| s_attach h ph id att : good att -> step strict (h, ph) ((recordAttachment id att h).1, ph)
| s_other h h' ph : hs_recs h' = hs_recs h -> hs_next h' = hs_next h -> step strict (h, ph) (h', ph).

Definition reachable (strict : bool) (hp : Host * phase) : Prop := exists t d g, rtc (step strict) (New t d g, Idle) hp.

(** The handle is that of a runtime made from the package, whose capabilities the
    manifest declares. *)
Definition runs (p : Package) (l : L) : Prop :=
  exists f t t', spawn = Some f /\ f (pk_Entry p) (pk_Manifest p) t = (t', Ok l) /\ declared (pk_Manifest p) (@ft_Capabilities T (frames l) t') = true.

Record wf_rec (strict : bool) (id : bytes) (r : record L) : Prop := {
  wr_sane : sane id (r_pkg r) (r_pinned r);
  wr_attach : Forall good (r_attach r);
  wr_enabled : r_live r ≠ None -> r_enabled r = true;
  wr_live l : r_live r = Some l -> exists p, sane id p (HashBytes (pk_Raw p)) /\ runs p l /\ (strict = true -> p = r_pkg r);
}.

Definition wf (strict : bool) (h : Host) : Prop := forall id r, hs_recs h !! id = Some r -> wf_rec strict id r /\ (r_ref r < hs_next h)%nat.

Definition wf_start (strict : bool) (h : Host) (id : bytes) (s : start) : Prop :=
  sane id (st_pkg s) (st_pinned s) /\ (st_ref s < hs_next h)%nat /\
  (strict = true -> forall r, hs_recs h !! id = Some r -> r_ref r = st_ref s -> r_pkg r = st_pkg s).

Definition wf_phase (strict : bool) (h : Host) (ph : phase) : Prop :=
  match ph with
  | Idle => True
  | Begun id s => wf_start strict h id s
  | Ran id s l => wf_start strict h id s /\ runs (st_pkg s) l
  end.

(** What an operation does to the records: each is well formed and new, or the
    same object as before, with the same package if [same]. *)
Definition evolves (strict same : bool) (h h' : Host) : Prop :=
  (hs_next h <= hs_next h')%nat /\
  forall id r', hs_recs h' !! id = Some r' -> wf_rec strict id r' /\ (r_ref r' < hs_next h')%nat /\
    ((hs_next h <= r_ref r')%nat \/ exists r, hs_recs h !! id = Some r /\ r_ref r' = r_ref r /\ (same = true -> r_pkg r' = r_pkg r)).

Lemma evolves_wf strict same h h' : evolves strict same h h' -> wf strict h'.
Proof. intros [_ H] id r' Hr. by destruct (H id r' Hr) as (? & ? & _). Qed.

Lemma evolves_start strict same h h' id s : (strict = true -> same = true) -> evolves strict same h h' -> wf_start strict h id s -> wf_start strict h' id s.
Proof.
  intros Hs [Hn He] (Hsane & Hlt & Hp). split; [done|]. split; [lia|]. intros Hstrict r' Hr' Href. destruct (He id r' Hr') as (_ & _ & [Hf|(r & Hr & Hre & Hpk)]); [lia|].
  rewrite Hpk by auto. apply Hp; [done|done|congruence].
Qed.

Lemma evolves_phase strict same h h' ph : (strict = true -> same = true \/ ph = Idle) -> evolves strict same h h' -> wf_phase strict h ph -> wf_phase strict h' ph.
Proof.
  intros Hs He Hp. destruct ph as [|id s|id s l]; [done| |]; cbn in *.
  - apply (evolves_start strict same h); [|done|done]. intros H. by destruct (Hs H).
  - destruct Hp as [Hp Hr]. split; [|done]. apply (evolves_start strict same h); [|done|done]. intros H. by destruct (Hs H).
Qed.

(** *** Each operation *)
Lemma evolves_refl strict h h' : wf strict h -> hs_recs h' = hs_recs h -> hs_next h' = hs_next h -> evolves strict true h h'.
Proof.
  intros Hw Hr Hn. split; [by rewrite Hn|]. intros id r H. rewrite Hr in H. destruct (Hw id r H) as [? ?]. rewrite Hn.
  split; [done|]. split; [done|]. right. by exists r.
Qed.

Lemma evolves_put strict same h h' id r r' : wf strict h -> hs_recs h !! id = Some r -> hs_recs h' = <[id := r']> (hs_recs h) -> (hs_next h <= hs_next h')%nat ->
  wf_rec strict id r' -> r_ref r' = r_ref r -> (same = true -> r_pkg r' = r_pkg r) -> evolves strict same h h'.
Proof.
  intros Hw Hr Hrecs Hn Hwf Href Hpk. split; [done|]. intros id0 r0 H0. rewrite Hrecs in H0. destruct (decide (id0 = id)) as [->|Hne].
  - rewrite lookup_insert_eq in H0. injection H0 as <-. split; [done|]. destruct (Hw id r Hr) as [_ Hlt]. split; [rewrite Href; lia|]. right. by exists r.
  - rewrite lookup_insert_ne in H0 by done. destruct (Hw id0 r0 H0) as [? ?]. split; [done|]. split; [lia|]. right. by exists r0.
Qed.

Lemma Enable_evolves strict id h : wf strict h -> evolves strict true h (Enable id h).1.
Proof.
  intros Hw. unfold Enable. destruct (hs_recs h !! id) as [r|] eqn:Hr; [|by apply evolves_refl]. destruct (Hw id r Hr) as [[Hs Ha He Hl] _].
  rewrite (proj2 (Verify_Ok (r_pkg r) (r_pinned r))) by apply Hs. by apply (evolves_put strict true h _ id r (set_enabled true r)).
Qed.

Lemma Disable_evolves strict id h : wf strict h -> evolves strict true h (Disable frames kill id h).1.
Proof.
  intros Hw. unfold Disable. destruct (hs_recs h !! id) as [r|] eqn:Hr; [|by apply evolves_refl]. destruct (Hw id r Hr) as [[Hs Ha He Hl] _].
  by apply (evolves_put strict true h _ id r (set_enabled false (set_live None r))).
Qed.

Lemma Remove_evolves strict id h : wf strict h -> evolves strict true h (Remove frames kill id h).1.
Proof.
  intros Hw. unfold Remove. destruct (hs_recs h !! id) as [r|] eqn:Hr; [|by apply evolves_refl]. split; [done|]. intros id0 r0 H0. cbn in H0.
  apply lookup_delete_Some in H0 as [_ H0]. destruct (Hw id0 r0 H0) as [? ?]. split; [done|]. split; [done|]. right. by exists r0.
Qed.

Lemma wf_attach strict id r l : wf_rec strict id r -> Forall good l -> wf_rec strict id (set_attach l r).
Proof. by intros [Hs Ha He Hl] Hg. Qed.

Lemma Detach_evolves strict id mailbox h : wf strict h -> evolves strict true h (Detach frames id mailbox h).1.
Proof.
  intros Hw. unfold Detach. destruct (_ || _)%bool; [by apply evolves_refl|]. destruct (hs_recs h !! id) as [r|] eqn:Hr; [|by apply evolves_refl].
  destruct (negb _); [by apply evolves_refl|]. destruct (Hw id r Hr) as [Hwr _]. set (kept := List.filter _ _).
  assert (wf_rec strict id (set_attach kept r)) as Hk by (apply wf_attach; [done|]; apply list.Forall_forall; intros a [Ha _]%list_elem_of_In%List.filter_In;
    destruct Hwr as [_ Hg _ _]; rewrite list.Forall_forall in Hg; by apply Hg, list_elem_of_In).
  destruct (r_live r); [unfold netCall; destruct (ft_DetachMailbox _ _)|]; by apply (evolves_put strict true h _ id r (set_attach kept r)).
Qed.

Lemma upsert_good att l : good att -> Forall good l -> Forall good (upsert att l).
Proof. intros Ha. induction 1 as [|a l H Hl IH]; cbn [upsert]; [by constructor|]. destruct (bytes_eqb _ _); by constructor. Qed.

Lemma record_evolves strict id att h : good att -> wf strict h -> evolves strict true h (recordAttachment id att h).1.
Proof.
  intros Hg Hw. unfold recordAttachment. destruct (hs_recs h !! id) as [r|] eqn:Hr; [|by apply evolves_refl]. destruct (Hw id r Hr) as [Hwr _].
  apply (evolves_put strict true h _ id r (set_attach (upsert att (r_attach r)) r)); try done. apply wf_attach; [done|]. apply upsert_good; [done|]. by destruct Hwr.
Qed.

Lemma installRecord_Ok strict h raw pkg r : Inspect raw = Ok pkg -> wf strict h -> installRecord h pkg = Ok r ->
  wf_rec strict (Manager.mf_ID (pk_Manifest pkg)) r /\ wf_rec strict (Manager.mf_ID (pk_Manifest pkg)) (set_enabled true r) /\
  r_pinned r = HashBytes (pk_Raw pkg) /\ r_pkg r = pkg /\ r_live r = None /\
  (r_ref r = hs_next h \/ exists r0, hs_recs h !! Manager.mf_ID (pk_Manifest pkg) = Some r0 /\ r_ref r = r_ref r0).
Proof.
  intros Hi Hw. pose proof (Inspect_sane _ _ Hi) as Hs. destruct (Inspect_Ok _ _ Hi) as [Hraw Hh]. unfold installRecord. set (id := Manager.mf_ID (pk_Manifest pkg)) in *.
  destruct (hs_recs h !! id) as [r0|] eqn:Hr0.
  - destruct (r_live r0) as [l|] eqn:Hl; [done|]. intros [= <-]. destruct (Hw id r0 Hr0) as [[_ Ha _ _] _].
    assert (r_pinned (set_package pkg r0) = HashBytes (pk_Raw pkg)) as Hpin by (cbn; by rewrite Hh, Hraw).
    destruct (negb _); (split; [split; [done|done|cbn; by rewrite Hl|cbn; by rewrite Hl]|]; split; [split; [done|done|done|cbn; by rewrite Hl]|]; split; [done|]; split; [done|]; split; [done|]; right; by exists r0).
  - intros [= <-]. split; [by split|]. split; [by split|]. split; [cbn; by rewrite Hh, Hraw|]. split; [done|]. split; [done|]. by left.
Qed.

Lemma Install_evolves strict raw enable h : wf strict h -> evolves strict false h (Install raw enable h).1.
Proof.
  intros Hw. assert (evolves strict false h h) as Hsame by (destruct (evolves_refl strict h h Hw eq_refl eq_refl) as [? H]; split; [done|]; intros id r Hr;
    destruct (H id r Hr) as (? & ? & [?|(r0 & ? & ? & _)]); [split; [done|]; split; [done|]; by left|split; [done|]; split; [done|]; right; by exists r0]).
  unfold Install. destruct (Inspect raw) as [pkg|e|] eqn:Hi; [|done|done]. destruct (installRecord h pkg) as [r|e|] eqn:Hr; [|done|done].
  destruct (installRecord_Ok _ _ _ _ _ Hi Hw Hr) as (Hwr & Hwt & Hpin & Hpk & _ & Href). set (id := Manager.mf_ID (pk_Manifest pkg)) in *.
  assert (Verify pkg (r_pinned r) = Ok tt) as -> by (by apply Verify_Ok).
  assert (forall r', wf_rec strict id r' -> r_ref r' = r_ref r -> evolves strict false h (put id r' (set_next (Datatypes.S (hs_next h)) h))) as Hput.
  { intros r' Hw' Hr'. split; [cbn; lia|]. intros id0 r0 H0. cbn in H0 |- *. destruct (decide (id0 = id)) as [->|Hne].
    - rewrite lookup_insert_eq in H0. injection H0 as <-. split; [done|]. rewrite Hr'. destruct Href as [->|(r1 & H1 & ->)]; [split; [lia|by left]|].
      destruct (Hw id r1 H1) as [_ ?]. split; [lia|]. right. by exists r1.
    - rewrite lookup_insert_ne in H0 by done. destruct (Hw id0 r0 H0) as [? ?]. split; [done|]. split; [lia|]. right. by exists r0. }
  destruct enable; cbn [fst]; by apply Hput.
Qed.

Lemma importAtts_good l : forall atts, importAtts l = Ok atts -> atts = importAtt <$> l /\ Forall good atts.
Proof.
  induction l as [|a l IH]; cbn [importAtts]; intros atts H; [injection H as <-; by split|].
  apply bind_Ok in H as (ms & Hms & H). apply wrapErr_Ok in Hms. destruct (bytes_eqb _ _) eqn:Hsh; [done|]. apply bind_Ok in H as (rest & Hr & H). injection H as <-.
  destruct (IH _ Hr) as [-> Hg]. split; [done|]. constructor; [|done]. split; [by exists ms|]. by apply bool_decide_eq_false in Hsh.
Qed.

Lemma importEntry_Ok strict e next n r : importEntry e next n = Ok r ->
  wf_rec strict (ee_ID e) r /\ r_ref r = n /\ next !! ee_ID e = None /\ r_live r = None /\ r_enabled r = ee_Enabled e /\ r_pinned r = ee_Hash e /\
  r_attach r = importAtt <$> ee_Attachments e /\ b64Decode (ee_Package e) = Some (pk_Raw (r_pkg r)).
Proof.
  unfold importEntry. intros H. apply bind_Ok in H as (raw & Hraw & H). apply ofOption_Ok in Hraw. apply bind_Ok in H as (pkg & Hi & H). apply wrapErr_Ok in Hi.
  apply bind_Ok in H as ([] & Hv & H). apply wrapErr_Ok, Verify_Ok in Hv. destruct (negb _) eqn:Hid; [done|]. apply negb_false_iff, bool_decide_eq_true in Hid.
  destruct (bool_decide _) eqn:Hd; [done|]. apply bool_decide_eq_false in Hd. apply bind_Ok in H as (atts & Ha & H). injection H as <-.
  destruct (importAtts_good _ _ Ha) as [-> Hg]. destruct (Inspect_Ok _ _ Hi) as [Hr Hh]. cbn.
  assert (sane (ee_ID e) pkg (ee_Hash e)) as Hs by (split; [by rewrite Hr|by split]). split.
  - by split.
  - split; [done|]. split; [by apply eq_None_not_Some|]. repeat (split; [done|]). by rewrite Hr.
Qed.

Lemma importAll_Ok strict l : forall next n next' n', importAll l next n = Ok (next', n') ->
  (n <= n')%nat /\ forall id r, next' !! id = Some r -> next !! id = Some r \/ (wf_rec strict id r /\ n <= r_ref r < n')%nat.
Proof.
  induction l as [|e l IH]; intros next n next' n' H; cbn [importAll] in H.
  - injection H as <- <-. split; [done|]. auto.
  - apply bind_Ok in H as (r0 & Hr0 & H). destruct (importEntry_Ok strict _ _ _ _ Hr0) as (Hw & Href & Hnew & _). destruct (IH _ _ _ _ H) as [Hn Hin].
    split; [lia|]. intros id r Hr. destruct (Hin id r Hr) as [Ho|[? ?]]; [|right; split; [done|lia]]. destruct (decide (id = ee_ID e)) as [->|Hne].
    + rewrite lookup_insert_eq in Ho. injection Ho as <-. right. split; [done|lia].
    + rewrite lookup_insert_ne in Ho by done. by left.
Qed.

Lemma Import_evolves strict js h : wf strict h -> evolves strict true h (Import frames kill env js h).1.
Proof.
  intros Hw. unfold Import. destruct (_ ≫= _) as [[next n]|e|] eqn:H; [|by apply evolves_refl|by apply evolves_refl].
  apply bind_Ok in H as (doc & _ & H). apply bind_Ok in H as ([] & _ & H). destruct (importAll_Ok strict _ _ _ _ _ H) as [Hn Hin].
  split; [done|]. intros id r Hr. destruct (Hin id r Hr) as [Ho|[? [? ?]]]; [by rewrite lookup_empty in Ho|]. split; [done|]. split; [done|]. by left.
Qed.

(** *** Starting a runtime *)
Lemma ensureBegin_start strict h id s : wf strict h -> ensureBegin id h = Ok (inr s) -> wf_start strict h id s.
Proof.
  intros Hw. unfold ensureBegin. destruct (hs_recs h !! id) as [r|] eqn:Hr; [|done]. destruct (negb _); [done|]. destruct (r_live r); [done|]. intros [= <-].
  destruct (Hw id r Hr) as [[Hs _ _ _] Hlt]. split; [done|]. split; [done|]. intros _ r' Hr' _. cbn. congruence.
Qed.

Lemma ensureRun_runs s t t' l : ensureRun frames spawn kill s t = (t', Ok l) -> runs (st_pkg s) l.
Proof.
  unfold ensureRun, runs. destruct spawn as [f|]; [|done]. destruct (Verify _ _); [|done|done]. destruct (f _ _ t) as [t1 [l1|e|]] eqn:Hf; [|done|done].
  destruct (declared _ _) eqn:Hd; cbn [negb]; [|done]. intros H. assert (l1 = l) as ->; [|by exists f, t, t1].
  revert H. destruct (ft_Start t1) as [t2 [u|e|]]; [|done|done]. by destruct (replay _ _ _ _) as [t3 [?|?|]]; intros [= _ ?].
Qed.

Lemma ensureFinish_evolves strict h id s l : wf strict h -> wf_start strict h id s -> runs (st_pkg s) l ->
  evolves strict true h (ensureFinish frames kill id s l h).1.
Proof.
  intros Hw (Hs & _ & Hp) Hl. unfold ensureFinish. destruct (hs_recs h !! id) as [r|] eqn:Hr; [|by apply evolves_refl].
  destruct (bool_decide _) eqn:Hb; cbn [andb]; [|by apply evolves_refl]. destruct (r_enabled r) eqn:He; [|by apply evolves_refl].
  apply bool_decide_eq_true in Hb. destruct (Hw id r Hr) as [[Hsr Ha _ _] _]. apply (evolves_put strict true h _ id r (set_live (Some l) r)); try done.
  split; [done|done|done|]. intros l' [= <-]. exists (st_pkg s). destruct Hs as (Hi & Hpin & Hid). split; [by split|]. split; [done|]. intros Hst. symmetry. by apply (Hp Hst r).
Qed.

Lemma step_wf strict hp hp' : step strict hp hp' -> wf strict hp.1 /\ wf_phase strict hp.1 hp.2 -> wf strict hp'.1 /\ wf_phase strict hp'.1 hp'.2.
Proof.
  assert (forall h h' ph, evolves strict true h h' -> wf strict h /\ wf_phase strict h ph -> wf strict h' /\ wf_phase strict h' ph) as Ht.
  { intros h h' ph He [Hw Hp]. split; [by apply evolves_wf in He|]. apply (evolves_phase strict true h); auto. }
  intros Hstep [Hw Hp]. destruct Hstep as [h id s Hb|h id s t l Hr|h id s t r Hr Hk|h id s l|h ph raw enable Hq|h ph id|h ph id|h ph id|h ph id mb|h ph js|h ph id att Hg|h h' ph Hr Hn]; cbn [fst snd] in *.
  - split; [done|]. by apply ensureBegin_start.
  - split; [exact Hw|]. split; [exact Hp|]. by apply ensureRun_runs in Hr.
  - split; [exact Hw|done].
  - destruct Hp as [Hs Hl]. split; [|done]. by apply (evolves_wf strict true h), ensureFinish_evolves.
  - pose proof (Install_evolves strict raw enable h Hw) as He. split; [by apply evolves_wf in He|]. apply (evolves_phase strict false h); [|done|done]. intros H. right. auto.
  - apply (Ht h); [by apply Enable_evolves|done].
  - apply (Ht h); [by apply Disable_evolves|done].
  - apply (Ht h); [by apply Remove_evolves|done].
  - apply (Ht h); [by apply Detach_evolves|done].
  - apply (Ht h); [by apply Import_evolves|done].
  - apply (Ht h); [by apply record_evolves|done].
  - apply (Ht h); [by apply evolves_refl|done].
Qed.

Lemma reachable_wf strict hp : reachable strict hp -> wf strict hp.1 /\ wf_phase strict hp.1 hp.2.
Proof.
  intros (t & d & g & Hr). remember (New t d g, Idle) as hp0 eqn:H0. assert (wf strict hp0.1 /\ wf_phase strict hp0.1 hp0.2) as Hw.
  { subst. split; [|done]. intros id r Hid. cbn in Hid. by rewrite lookup_empty in Hid. }
  clear H0. induction Hr as [hp|hp0 hp1 hp2 Hs _ IH]; [done|]. apply IH. by apply (step_wf strict hp0).
Qed.

(** C17: At every moment, in whatever order operations are interleaved with the
    start of a runtime: every package in the registry is one that was inspected,
    under its own ID and pinned by its hash, every attachment can be told to a
    runtime, and what runs is enabled and was made from an inspected package of that
    ID, declaring no capability its manifest does not.  Unless a package is
    installed in the middle of a start, it is the package the record pins. *)
Theorem registry_invariant strict (h : Host) ph id r :
  reachable strict (h, ph) -> hs_recs h !! id = Some r ->
  Inspect (pk_Raw (r_pkg r)) = Ok (r_pkg r) /\ r_pinned r = HashBytes (pk_Raw (r_pkg r)) /\ Manager.mf_ID (pk_Manifest (r_pkg r)) = id /\
  Forall good (r_attach r) /\ (r_live r ≠ None -> r_enabled r = true) /\
  forall l, r_live r = Some l ->
    exists p, Inspect (pk_Raw p) = Ok p /\ Manager.mf_ID (pk_Manifest p) = id /\ runs p l /\ (strict = true -> p = r_pkg r).
Proof.
  intros Hr Hid. destruct (reachable_wf _ _ Hr) as [Hw _]. destruct (Hw id r Hid) as [[(Hi & Hp & Hm) Ha He Hl] _].
  split; [done|]. split; [done|]. split; [done|]. split; [done|]. split; [done|]. intros l Hlive. destruct (Hl l Hlive) as (p & (? & _ & ?) & ? & ?). by exists p.
Qed.

(** ** Export and import *)

(** The record an entry of the document becomes. *)
Definition entry_rec (e : exportEntry) (r : record L) : Prop :=
  sane (ee_ID e) (r_pkg r) (ee_Hash e) /\ b64Decode (ee_Package e) = Some (pk_Raw (r_pkg r)) /\ r_pinned r = ee_Hash e /\ r_enabled r = ee_Enabled e /\
  r_attach r = importAtt <$> ee_Attachments e /\ r_live r = None.

Lemma importAll_spec l : forall next n next' n', importAll l next n = Ok (next', n') ->
  NoDup (ee_ID <$> l) /\ (forall e, e ∈ l -> next !! ee_ID e = None) /\ (forall id r, next !! id = Some r -> next' !! id = Some r) /\
  (forall e, e ∈ l -> exists r, next' !! ee_ID e = Some r /\ entry_rec e r) /\
  (forall id r, next' !! id = Some r -> next !! id = Some r \/ exists e, e ∈ l /\ ee_ID e = id).
Proof.
  induction l as [|e l IH]; intros next n next' n' H; cbn [importAll] in H.
  - injection H as <- <-. split; [apply base.NoDup_nil_2|]. split; [by intros e He%elem_of_nil|]. split; [done|]. split; [by intros e He%elem_of_nil|]. auto.
  - apply bind_Ok in H as (r0 & Hr0 & H). destruct (importEntry_Ok true _ _ _ _ Hr0) as ([Hs _ _ _] & _ & Hnew & Hlive & Hen & Hpin & Hat & Hraw).
    destruct (IH _ _ _ _ H) as (Hnd & Hfresh & Hkeep & Hin & Hout). cbn [fmap list_fmap].
    assert (forall e', e' ∈ l -> ee_ID e' ≠ ee_ID e /\ next !! ee_ID e' = None) as Hf by (intros e' He'; by apply Hfresh, lookup_insert_None in He' as [? ?]).
    split; [apply list.NoDup_cons; split; [|done]; intros (e' & Heq & He')%list_elem_of_fmap; by destruct (Hf e' He')|].
    split; [intros e' [->|He']%elem_of_cons; [done|by apply Hf]|].
    split; [intros id r Hid; apply Hkeep; rewrite lookup_insert_ne; [done|congruence]|]. split.
    + intros e' [->|He']%elem_of_cons; [|by apply Hin]. exists r0. split; [apply Hkeep, lookup_insert_eq|]. rewrite Hpin in Hs. by split.
    + intros id r Hid. destruct (Hout id r Hid) as [Ho|(e' & He' & <-)]; [|right; exists e'; split; [by apply list_elem_of_further|done]].
      destruct (decide (id = ee_ID e)) as [->|Hne]; [right; exists e; split; [apply list_elem_of_here|done]|]. rewrite lookup_insert_ne in Ho by done. by left.
Qed.

(** C24: An import changes nothing, or it replaces the registry by the entries of
    the document: one for each, whose package has the hash that stands beside it
    and the ID it is filed under, with no two of one ID; nothing runs afterwards,
    and what ran was stopped and killed. *)
Theorem import_all_or_nothing js (h h' : Host) r :
  Import frames kill env js h = (h', r) ->
  (isOk r = false /\ h' = h) \/
  (r = Ok tt /\ exists doc, ej_Unmarshal js = Some doc /\ ed_Version doc = 1 /\ NoDup (ee_ID <$> ed_Transports doc) /\
    (forall e, e ∈ ed_Transports doc -> exists rec, hs_recs h' !! ee_ID e = Some rec /\ entry_rec e rec) /\
    (forall id rec, hs_recs h' !! id = Some rec -> exists e, e ∈ ed_Transports doc /\ ee_ID e = id) /\
    hs_net h' = stopAll frames kill (io_range (he_range env) (hs_recs h)) (hs_net h) /\ hs_ident h' = hs_ident h).
Proof.
  unfold Import. destruct (_ ≫= _) as [[next n]|e|] eqn:H; intros [= <- <-]; [|by left|by left]. right. split; [done|].
  apply bind_Ok in H as (doc & Hdoc & H). apply ofOption_Ok in Hdoc. apply bind_Ok in H as ([] & Hv & H). unfold check in Hv. destruct (ed_Version doc =? ExportVersion) eqn:Hver; [|done].
  apply Z.eqb_eq in Hver. apply importAll_spec in H as (Hnd & _ & _ & Hin & Hout). exists doc. split; [done|]. split; [done|]. split; [done|]. split; [done|].
  split; [|done]. intros id rec Hid. destruct (Hout id rec Hid) as [Ho|He]; [by rewrite lookup_empty in Ho|done].
Qed.

(** *** An export is read back *)
Context `{EL : !ExportJSONLaws}.

(** What an export keeps of a record. *)
Definition portable (r : record L) : Package * bytes * bool * list Manager.Attachment := (r_pkg r, r_pinned r, r_enabled r, r_attach r).

Definition addressValid (a : Manager.Attachment) : bool := (utf8Valid (Manager.at_ShardURL a) && utf8Valid (Manager.at_RouterURL a) && utf8Valid (Manager.at_Owner a))%bool.

Lemma exportRec_valid strict id r : wf_rec strict id r -> forallb addressValid (r_attach r) = true -> entryValid (exportRec (id, r)) = true.
Proof.
  intros [(Hi & Hp & Hid) Ha _ _] Hv. unfold entryValid, exportRec. cbn [ee_ID ee_Hash ee_Package ee_Attachments fst snd].
  rewrite <- Hid, (idRe_utf8 _ (Inspect_id _ _ Hi)), Hp. unfold HashBytes. rewrite (graphic_utf8 _ (hexEncode_graphic _)), (graphic_utf8 _ (b64Encode_graphic _)). cbn [andb].
  induction Ha as [|a l [[ms Hms] _] Hl IH]; [done|]. cbn [fmap list_fmap forallb] in *. apply andb_true_iff in Hv as [Hv Hvl]. rewrite (IH Hvl), andb_true_r.
  unfold decodeAttachment in Hms. destruct (isHex (Manager.at_MailboxID a)) eqn:H1; [|by rewrite orb_true_r in Hms]. destruct (isHex (Manager.at_ReadSecret a)) eqn:H2; [|rewrite orb_true_r in Hms; by destruct (_ || _)%bool].
  unfold attValid, exportAtt. cbn [ea_Mailbox ea_ReadSecret ea_Shard ea_Router ea_Owner]. unfold addressValid in Hv. apply andb_true_iff in Hv as [Hv1 Hv3]. apply andb_true_iff in Hv1 as [Hv1 Hv2].
  by rewrite (hex_utf8 _ H1), (hex_utf8 _ H2), Hv1, Hv2, Hv3.
Qed.

Lemma importAtts_total l : Forall good l -> importAtts (exportAtt <$> l) = Ok l.
Proof.
  induction 1 as [|a l [[ms Hms] Hsh] Hl IH]; [done|]. cbn [fmap list_fmap importAtts]. assert (importAtt (exportAtt a) = a) as -> by (by destruct a). rewrite Hms. cbn.
  rewrite (bool_decide_eq_false_2 _ Hsh : bytes_eqb _ _ = false). by rewrite IH.
Qed.

(** What a well-formed record was exported to can be imported. *)
Lemma importEntry_total (strict : bool) (id : bytes) (r : record L) (next : gmap bytes (record L)) (n : nat) : wf_rec strict id r -> next !! id = None ->
  importEntry (exportRec (id, r)) next n = Ok (mkRec n (r_pkg r) (r_pinned r) (r_enabled r) (r_attach r) None).
Proof.
  intros [(Hi & Hp & Hid) Ha _ _] Hn. unfold importEntry, exportRec. cbn [ee_ID ee_Hash ee_Package ee_Enabled ee_Attachments fst snd].
  rewrite b64Decode_Encode. cbn [ofOption mbind res_bind]. rewrite Hi. cbn [wrapErr mbind res_bind]. rewrite (proj2 (Verify_Ok _ _) Hp). cbn [wrapErr mbind res_bind].
  rewrite (bool_decide_eq_true_2 _ Hid : bytes_eqb _ _ = true). cbn [negb]. rewrite Hn. rewrite bool_decide_eq_false_2 by (by intros []). by rewrite importAtts_total.
Qed.

Lemma importAll_total (strict : bool) (l : list (bytes * record L)) : forall (next : gmap bytes (record L)) (n : nat), NoDup (l.*1) -> (forall kr, kr ∈ l -> wf_rec strict kr.1 kr.2 /\ next !! kr.1 = None) ->
  exists next' n', importAll (exportRec <$> l) next n = Ok (next', n').
Proof.
  induction l as [|[id r] l IH]; intros next n Hnd Hl; cbn [fmap list_fmap importAll]; [by eexists _, _|].
  apply list.NoDup_cons in Hnd as [Hid Hnd]. destruct (Hl (id, r)) as [Hw Hn]; [apply list_elem_of_here|]. rewrite (importEntry_total strict) by done.
  cbn [mbind res_bind]. apply IH; [done|]. intros kr Hkr. destruct (Hl kr) as [? ?]; [by apply list_elem_of_further|]. split; [done|]. cbn [ee_ID exportRec fst].
  rewrite lookup_insert_ne; [done|]. intros Heq. apply Hid. apply list_elem_of_fmap. by exists kr.
Qed.

(** C23: Importing an export, into whatever tab, brings back every transport with its
    package, pin, flag and attachments, and nothing else; nothing runs yet. *)
Theorem export_import_roundtrip strict (h : Host) ph (h0 : Host) :
  range_ok (he_range env) -> reachable strict (h, ph) ->
  (forall id r, hs_recs h !! id = Some r -> forallb addressValid (r_attach r) = true) ->
  exists h', Import frames kill env (Export env h) h0 = (h', Ok tt) /\
    (forall id, portable <$> hs_recs h' !! id = portable <$> hs_recs h !! id) /\
    (forall id r, hs_recs h' !! id = Some r -> r_live r = None).
Proof.
  intros Hrange Hreach Hvalid. destruct (reachable_wf _ _ Hreach) as [Hw _]. cbn [fst] in Hw.
  set (l := exportRec <$> io_range (he_range env) (hs_recs h)). assert (sortBy ee_ID l ≡ₚ l) as Hperm by apply merge_sort_Permutation.
  assert (io_range (he_range env) (hs_recs h) ≡ₚ map_to_list (hs_recs h)) as Hmap by apply Hrange.
  destruct (Permutation_map_inv _ _ Hperm) as (l' & Hsort & Hl'). assert (forall kr, kr ∈ l' <-> hs_recs h !! kr.1 = Some kr.2) as Hin.
  { intros [id r]. rewrite <- Hl', Hmap. apply elem_of_map_to_list. }
  assert (forallb entryValid (ed_Transports (exportOf env h)) = true) as Hdoc.
  { unfold exportOf. cbn [ed_Transports]. fold l. rewrite Hsort. apply forallb_forall. intros e He%list_elem_of_In. apply (list_elem_of_fmap exportRec) in He as (kr & -> & Hkr). apply Hin in Hkr. destruct kr as [id r].
    apply (exportRec_valid strict); [by apply Hw|by apply (Hvalid id)]. }
  unfold Import, Export. rewrite (ej_inverse _ Hdoc). cbn [ofOption mbind res_bind]. unfold exportOf. cbn [ed_Version ed_Transports]. cbn [check negb Z.eqb ExportVersion mbind res_bind]. fold l. rewrite Hsort.
  destruct (importAll_total strict l' ∅ (hs_next h0)) as (next & n & Hn).
  { rewrite <- Hl', Hmap. apply NoDup_fst_map_to_list. }
  { intros kr Hkr. apply Hin in Hkr. split; [by apply Hw|apply lookup_empty]. }
  change (map exportRec l') with (exportRec <$> l'). rewrite Hn. eexists. split; [reflexivity|]. cbn [hs_recs set_net set_next set_recs].
  apply importAll_spec in Hn as (_ & _ & _ & Hto & Hfrom). split.
  - intros id. destruct (hs_recs h !! id) as [r|] eqn:Hr; cbn [fmap option_fmap option_map].
    + assert (exportRec (id, r) ∈ exportRec <$> l') as He by (apply list_elem_of_fmap; exists (id, r); split; [done|by apply Hin]).
      destruct (Hto _ He) as (r' & Hr' & (Hi' & Hp' & _) & Hraw & Hpin & Hen & Hat & _). change (next !! id = Some r') in Hr'. rewrite Hr'. cbn [fmap option_fmap option_map]. f_equal.
      cbn [exportRec ee_Package ee_Attachments ee_Enabled ee_Hash fst snd] in *. rewrite b64Decode_Encode in Hraw. injection Hraw as Hraw. destruct (Hw id r Hr) as [[(Hi & _) _ _ _] _].
      assert (r_pkg r' = r_pkg r) as Hpk by (rewrite <- Hraw in Hi'; congruence). unfold portable. rewrite Hpk, Hpin, Hen, Hat. f_equal.
      rewrite <- list_fmap_compose. rewrite <- (list_fmap_id (r_attach r)) at 2. apply list_fmap_ext. by intros i [] _.
    + destruct (next !! id) as [r'|] eqn:Hr'; [|done]. destruct (Hfrom id r' Hr') as [Ho|(e & ([id0 r0] & -> & He)%list_elem_of_fmap & Heq)]; [by rewrite lookup_empty in Ho|].
      apply Hin in He. cbn in *. congruence.
  - intros id r' Hr'. destruct (Hfrom id r' Hr') as [Ho|(e & He & <-)]; [by rewrite lookup_empty in Ho|]. destruct (Hto _ He) as (r1 & H1 & (_ & _ & _ & _ & _ & Hlive)). congruence.
Qed.

End Registry.

(** ** A small registry *)

(** A package is one byte; its module ends in it. *)
Definition demoModule (b : byte) : bytes := [x00; x61; x73; x6d; x01; x00; x00; x00; b].
Definition demoManifest : Manager.Manifest := Manager.mkManifest (str "demo") (str "Demo") (str "1.0") (str "1") (str "m.wasm") [str "message"; str "binary-transfer"] [].

#[local] Instance demoSurroundings : Ops.Surroundings := {|
  Ops.ex_unzip raw := match raw with [b] => Some [Manager.mkZip Manager.manifestName 2 (Some (str "mf")); Manager.mkZip (str "m.wasm") 9 (Some (demoModule b))] | _ => None end;
  Ops.ex_manifest _ := Some demoManifest; Ops.ex_object _ := false; Ops.ex_strings _ := None; Ops.ex_contacts _ := None; Ops.ex_threads _ := None;
  Ops.ex_contexts _ := None; Ops.ex_policies _ := None; Ops.ex_deliveries _ := None; Ops.ex_uni s := s; Ops.ex_dpText _ := str "failed"; Ops.ex_trText _ := str "failed" |}.

(** What is behind the modules: the frames of each mailbox, and how many chunks were
    asked for.  There are no files. *)
Record demoNet := mkDemoNet { dn_queues : gmap bytes (list bytes); dn_calls : Z }.

Definition demoFrames (m : bytes) : FrameTransport demoNet := {|
  ft_ID _ := str "demo"; ft_Capabilities _ := [str "message"]; ft_Start t := (t, Ok tt); ft_Stop t := (t, Ok tt); ft_SendFrame t _ _ := (t, Ok tt);
  ft_AttachMailbox t _ _ _ _ := (t, Ok tt); ft_DetachMailbox t _ := (t, Ok tt);
  ft_PollFrames t _ mid := (mkDemoNet (delete mid (dn_queues t)) (dn_calls t), Ok (default [] (dn_queues t !! mid))); ft_Status t := (t, Ok (true, [])) |}.

(** A runtime is known by its module. *)
Definition demoSpawn : option (bytes -> Manager.Manifest -> demoNet -> demoNet * res h_err bytes) := Some (fun wasm _ t => (t, Ok wasm)).
Definition demoKill (l : bytes) (t : demoNet) : demoNet := t.

Abbreviation demoDeps := (Dispatch.Deps Memory.MemoryContextStore deliveries_t).
Abbreviation demoHost := (host bytes demoNet demoDeps unit).

Definition demoEmpty : demoHost := New (mkDemoNet ∅ 0) None tt.
Definition demoInstalled : demoHost := (Install [x01] true demoEmpty).1.
Definition demoStart : start := match ensureBegin (str "demo") demoInstalled with Ok (inr s) => s | _ => mkStart 0 (mkPackage demoManifest [] [] []) [] [] end.

Lemma found {A} (Q : A -> Prop) o : match o with Some r => Q r | None => False end -> exists r, o = Some r /\ Q r.
Proof. destruct o as [r|]; [by exists r|done]. Qed.

(** A start in the course of which the package is replaced and enabled again ends
    with the old module running under the new package's pin: no step compares what
    was started with what is installed by then. *)
Theorem replaced_while_starting `{P : Prims} `{EJ : ExportJSON} env :
  exists (h : demoHost) r, reachable demoFrames demoSpawn demoKill env false (h, Idle) /\ hs_recs h !! str "demo" = Some r /\ r_enabled r = true /\
    r_live r = Some (demoModule x01) /\ pk_Entry (r_pkg r) = demoModule x02 /\ ~ runs demoFrames demoSpawn (r_pkg r) (demoModule x01).
Proof.
  set (h2 := (Install [x02] true demoInstalled).1). set (h3 := (ensureFinish demoFrames demoKill (str "demo") demoStart (demoModule x01) h2).1).
  destruct (found (fun r => r_enabled r = true /\ r_live r = Some (demoModule x01) /\ pk_Entry (r_pkg r) = demoModule x02) (hs_recs h3 !! str "demo"))
    as (r & Hh & He & Hl & Hp); [vm_compute; auto|]. exists h3, r. split.
  - exists (mkDemoNet ∅ 0), None, tt. refine (rtc_l _ _ _ _ (s_install demoFrames demoSpawn demoKill env false demoEmpty Idle [x01] true (fun _ => eq_refl)) _).
    refine (rtc_l _ _ (demoInstalled, Begun (str "demo") demoStart) _ _ _); [apply s_begin; vm_compute; reflexivity|].
    refine (rtc_l _ _ _ _ (s_run demoFrames demoSpawn demoKill env false demoInstalled (str "demo") demoStart (mkDemoNet ∅ 0) (demoModule x01) _) _); [vm_compute; reflexivity|].
    refine (rtc_l _ _ _ _ (s_install demoFrames demoSpawn demoKill env false _ _ [x02] true (fun H => False_ind _ (Bool.diff_false_true H))) _).
    apply rtc_once. exact (s_finish demoFrames demoSpawn demoKill env false h2 (str "demo") demoStart (demoModule x01)).
  - split; [done|]. split; [done|]. split; [done|]. split; [done|]. intros (f & t & t' & [= <-] & Hs & _). rewrite Hp in Hs. discriminate Hs.
Qed.

(** A serialization of documents that can be read back. *)
#[local] Instance exportAttach_eq : EqDecision exportAttach.
Proof. solve_decision. Defined.
#[local] Instance exportEntry_eq : EqDecision exportEntry.
Proof. solve_decision. Defined.
#[local] Instance exportDoc_eq : EqDecision exportDoc.
Proof. solve_decision. Defined.

#[local] Instance exportAttach_countable : Countable exportAttach.
Proof.
  refine (inj_countable' (fun a => (ea_Mailbox a, ea_ReadSecret a, ea_Shard a, ea_Router a, ea_Owner a)) (fun '(m, s, sh, r, o) => mkExportAttach m s sh r o) _).
  by intros [].
Defined.
#[local] Instance exportEntry_countable : Countable exportEntry.
Proof.
  refine (inj_countable' (fun e => (ee_ID e, ee_Hash e, ee_Package e, ee_Enabled e, ee_Attachments e)) (fun '(i, h, p, en, l) => mkExportEntry i h p en l) _).
  by intros [].
Defined.
#[local] Instance exportDoc_countable : Countable exportDoc.
Proof. refine (inj_countable' (fun d => (ed_Version d, ed_Transports d)) (fun '(v, l) => mkExportDoc v l) _). by intros []. Defined.

Fixpoint bitsOf (p : positive) : bytes := match p with xH => [] | xO p => x30 :: bitsOf p | xI p => x31 :: bitsOf p end.
Fixpoint ofBits (s : bytes) : option positive :=
  match s with [] => Some xH | x30 :: s => xO <$> ofBits s | x31 :: s => xI <$> ofBits s | _ => None end.

Lemma ofBits_bitsOf p : ofBits (bitsOf p) = Some p.
Proof. induction p as [p IH|p IH|]; cbn; by rewrite ?IH. Qed.

#[local] Instance demoJSON : ExportJSON := {| ej_Marshal d := bitsOf (encode d); ej_Unmarshal s := p ← ofBits s; decode p |}.
#[local] Instance demoJSON_laws : ExportJSONLaws.
Proof. intros d _. cbn. rewrite ofBits_bitsOf. cbn. apply decode_encode. Qed.

Definition demoHostEnv : hostEnv := mkHostEnv true [] demoIO (fun _ _ => mkDispatchEnv true (mkPeerRand [] [] []) [] None demoIO demoIO 0 0) (fun _ => []) (fun _ => []).

Definition demoPkg : Package := mkPackage demoManifest (demoModule x01) [x01] (HashBytes [x01]).

Lemma demoInstalled_reachable strict : reachable demoFrames demoSpawn demoKill demoHostEnv strict (demoInstalled, Idle).
Proof. exists (mkDemoNet ∅ 0), None, tt. apply rtc_once. exact (s_install demoFrames demoSpawn demoKill demoHostEnv strict demoEmpty Idle [x01] true (fun _ => eq_refl)). Qed.

Lemma demoPkg_inspected : Inspect [x01] = Ok demoPkg.
Proof. reflexivity. Qed.

Lemma demoInstalled_recs : hs_recs demoInstalled = {[str "demo" := mkRec 0 demoPkg (HashBytes [x01]) true [] None]}.
Proof.
  unfold demoInstalled, Install. rewrite demoPkg_inspected. unfold installRecord, demoEmpty, New. cbn [hs_recs]. rewrite lookup_empty.
  cbn [r_pinned pk_Hash demoPkg]. change (HashBytes [x01]) with (HashBytes (pk_Raw demoPkg)) at 1. rewrite Verify_pinned by apply Hash_nonempty. reflexivity.
Qed.

Lemma registry_invariant_witness :
  reachable demoFrames demoSpawn demoKill demoHostEnv true (demoInstalled, Idle) /\
  Inspect [x01] = Ok demoPkg /\ Manager.mf_ID (pk_Manifest demoPkg) = str "demo".
Proof.
  split; [exact (demoInstalled_reachable true)|].
  destruct (registry_invariant demoFrames demoSpawn demoKill demoHostEnv true demoInstalled Idle (str "demo") (mkRec 0 demoPkg (HashBytes [x01]) true [] None)) as (Hi & _ & Hid & _).
  - exact (demoInstalled_reachable true).
  - rewrite demoInstalled_recs. reflexivity.
  - split; [exact Hi|exact Hid].
Defined.

Lemma import_all_or_nothing_witness :
  exists h' r, Import demoFrames demoKill demoHostEnv [x32] demoInstalled = (h', r) /\
    ((isOk r = false /\ h' = demoInstalled) \/ (r = Ok tt /\ exists doc, ej_Unmarshal [x32] = Some doc)).
Proof.
  destruct (Import demoFrames demoKill demoHostEnv [x32] demoInstalled) as [h' r] eqn:H. exists h', r. split; [reflexivity|].
  destruct (import_all_or_nothing demoFrames demoSpawn demoKill demoHostEnv [x32] demoInstalled h' r H) as [Hn|(Hr & doc & Hd & _)]; [left; exact Hn|right; split; [exact Hr|exists doc; exact Hd]].
Defined.

Lemma export_import_roundtrip_witness :
  exists h', Import demoFrames demoKill demoHostEnv (Export demoHostEnv demoInstalled) demoEmpty = (h', Ok tt) /\
    portable <$> hs_recs h' !! str "demo" = Some (demoPkg, HashBytes [x01], true, []).
Proof.
  destruct (export_import_roundtrip demoFrames demoSpawn demoKill demoHostEnv true demoInstalled Idle demoEmpty) as (h' & Hi & Hp & _).
  - intros A m. reflexivity.
  - exact (demoInstalled_reachable true).
  - intros id r H. rewrite demoInstalled_recs in H. apply lookup_singleton_Some in H as [_ <-]. reflexivity.
  - exists h'. split; [exact Hi|]. rewrite Hp, demoInstalled_recs. reflexivity.
Defined.
