(* ===== verification/HostOps.v ===== *)
(** * Transports in a browser tab: theorems on the operations

    Every operation is a sequence of the registry's steps; a poll reads only the
    mailboxes of the identity that polls; what receiving a file can cost and
    yield; the blobs a module hands frames over in. *)
From S2P Require Import Prelude GoStd Sha256 External SecurePeer Engine Client Frame Binstore MultiMsg MultiStore MultiStoreTheorems Fanout Dispatch FileTransfer.
From S2P Require Import SessionTheorems Rpc Manager Transport Worker Ops OpsFacts OpsTheorems Host HostTheorems.
#[local] Open Scope Z_scope.

Import Transport Host.

Create HintDb host.

(** ** What a computation does to the state, whatever it returns *)
Section Along.
Context {W : Type} (rel : W -> W -> Prop) `{!PreOrder rel}.

Definition along {A} (m : Act W A) : Prop := forall w, rel w (m w).1.

Lemma along_ret {A} (a : A) : along (mret a).
Proof. by intros w. Qed.
Lemma along_lift {A} (r : res h_err A) : along (lift r).
Proof. by intros w. Qed.
Lemma along_gets {A} (f : W -> A) : along (gets f).
Proof. by intros w. Qed.
Lemma along_attempt {A} (m : Act W A) : along m -> along (attempt m).
Proof. intros Hm w. specialize (Hm w). unfold attempt. by destruct (m w) as [w1 [a|e|]]. Qed.

(** After a step that succeeded, its result is known. *)
Lemma along_bind_at {A B} (m : Act W A) (k : A -> Act W B) : along m -> (forall w w1 a, m w = (w1, Ok a) -> rel w1 (k a w1).1) -> along (m ≫= k).
Proof.
  intros Hm Hk w. specialize (Hm w). unfold mbind, Act_bind. destruct (m w) as [w1 [a|e|]] eqn:H; cbn [fst] in *; [|done|done]. etrans; [exact Hm|by apply (Hk w)].
Qed.
Lemma along_bind {A B} (m : Act W A) (k : A -> Act W B) : along m -> (forall a, along (k a)) -> along (m ≫= k).
Proof. intros Hm Hk. apply along_bind_at; [done|]. intros w w1 a _. apply Hk. Qed.
End Along.

#[export] Hint Resolve along_ret along_lift along_gets along_attempt : host.

Ltac abind := match goal with |- along ?r _ => apply (along_bind r) end.

Lemma Act_bind_Ok {W A B} (m : Act W A) (f : A -> Act W B) w w' b :
  (m ≫= f) w = (w', Ok b) <-> exists a w1, m w = (w1, Ok a) /\ f a w1 = (w', Ok b).
Proof. unfold mbind, Act_bind. destruct (m w) as [w1 [a|e|]]; naive_solver. Qed.

Lemma Act_bind_run {W A B} (m : Act W A) (f : A -> Act W B) w w1 a : m w = (w1, Ok a) -> (m ≫= f) w = f a w1.
Proof. intros H. unfold mbind, Act_bind. by rewrite H. Qed.

Lemma act_lift_Ok {W A} (r : res h_err A) (w w' : W) a : lift r w = (w', Ok a) <-> r = Ok a /\ w' = w.
Proof. unfold lift. naive_solver. Qed.

(** ** Names of files *)
Lemma strip_suffix pats fuel : forall s, strip fuel pats s `suffix_of` s.
Proof.
  induction fuel as [|f IH]; intros s; cbn [strip]; [done|]. unfold stripOne. destruct (List.find _ _) as [p|]; [|done]. etrans; [apply IH|]. apply suffix_drop.
Qed.

Lemma trimSpace_elem b s : b ∈ trimSpace s -> b ∈ s.
Proof.
  unfold trimSpace. rewrite elem_of_reverse. intros H. destruct (strip_suffix (reverse <$> spaces) (length (strip (length s) spaces s)) (reverse (strip (length s) spaces s))) as [k1 H1].
  destruct (strip_suffix spaces (length s) s) as [k2 H2]. rewrite H2. apply elem_of_app. right. apply elem_of_reverse. rewrite H1. apply elem_of_app. by right.
Qed.

Lemma afterSlash_clean s : forall pre, x2f ∉ pre -> x2f ∉ afterSlash s (pre ++ s).
Proof.
  induction s as [|b s IH]; intros pre Hp; cbn [afterSlash]; [by rewrite app_nil_r|]. destruct (bool_decide (b = x2f)) eqn:Hb.
  - apply (IH []), not_elem_of_nil.
  - apply bool_decide_eq_false in Hb. replace (pre ++ b :: s) with ((pre ++ [b]) ++ s) by by rewrite <- app_assoc. apply IH. rewrite elem_of_app, list_elem_of_singleton. naive_solver.
Qed.

Lemma afterSlash_elem b s : forall rest, b ∈ afterSlash s rest -> b ∈ s \/ b ∈ rest.
Proof.
  induction s as [|c s IH]; intros rest H; cbn [afterSlash] in H; [by right|]. apply IH in H as [H|H]; [left; by apply list_elem_of_further|].
  destruct (bool_decide _); [left; by apply list_elem_of_further|by right].
Qed.

(** A name that stands for a file in whatever directory it is put. *)
Definition plainName (n : bytes) : Prop := n ≠ [] /\ n ≠ str "." /\ n ≠ str ".." /\ x2f ∉ n /\ x5c ∉ n.

Lemma cleanName_plain n : plainName (cleanName n).
Proof.
  unfold cleanName. cbv zeta. set (m := trimSpace _).
  assert (x2f ∉ m) as H1 by (intros H%trimSpace_elem; by apply (afterSlash_clean (slashed n) []) in H; [|apply not_elem_of_nil]).
  assert (x5c ∉ m) as H2.
  { intros H%trimSpace_elem. apply afterSlash_elem in H. assert (x5c ∈ slashed n) as Hs by tauto. apply list_elem_of_fmap in Hs as (c & Hc & _). by case_bool_decide. }
  destruct (bytes_eqb m []) eqn:E1; cbn [orb]; [repeat split; try done; rewrite ?not_elem_of_cons; vm_compute; set_solver|].
  destruct (bytes_eqb m (str ".")) eqn:E2; cbn [orb]; [repeat split; try done; vm_compute; set_solver|].
  destruct (bytes_eqb m (str "..")) eqn:E3; [repeat split; try done; vm_compute; set_solver|].
  apply bool_decide_eq_false in E1, E2, E3. done.
Qed.

(** ** Frames in a blob *)
Definition entry (f : bytes) : bytes := putU32 (u32 (len f)) ++ f.
Definition fits (f : bytes) : Prop := 0 < len f <= Rpc.MaxFrameBytes.

Lemma pollBlob_encoded l : Forall fits l -> forall fuel out, (length (l ≫= entry) <= fuel)%nat -> pollBlob fuel (l ≫= entry) out = Ok (out ++ l).
Proof.
  induction 1 as [|f l Hf _ IH]; intros fuel out Hl.
  - cbn. destruct fuel; cbn; by rewrite app_nil_r.
  - assert ((f :: l) ≫= entry = putU32 (u32 (len f)) ++ f ++ (l ≫= entry)) as He by (rewrite bind_cons; unfold entry at 1; by rewrite <- app_assoc).
    rewrite He in *. clear He. unfold fits, Rpc.MaxFrameBytes in Hf. assert (length (putU32 (u32 (len f))) = 4%nat) as Hp by apply length_be.
    assert (u32 (len f) = len f) as Hu by (apply u32_small; lia). set (rest := l ≫= entry) in *. rewrite !length_app in Hl. destruct fuel as [|fuel]; [lia|]. cbn [pollBlob].
    destruct (putU32 (u32 (len f)) ++ f ++ rest) as [|b bs] eqn:Hb; [apply (f_equal length) in Hb; rewrite !length_app in Hb; cbn in Hb; lia|]. rewrite <- Hb. clear Hb b bs.
    rewrite (proj2 (Z.ltb_ge (len _) 4)) by (unfold len in *; rewrite !length_app; lia). rewrite take_app_length', drop_app_length' by done. cbv zeta.
    rewrite unbe_putU32, Hu, u32_small by lia. unfold Rpc.MaxFrameBytes.
    rewrite (proj2 (Z.leb_gt _ _)), (proj2 (Z.ltb_ge 40960 _)), (proj2 (Z.ltb_ge (len (f ++ rest)) _)) by (unfold len in *; rewrite ?length_app; lia). cbn [orb].
    unfold len. rewrite Nat2Z.id, take_app_length', drop_app_length' by done. rewrite IH by lia. by rewrite <- app_assoc.
Qed.

Lemma pollBlob_only fuel : forall blob out l, (length blob <= fuel)%nat -> pollBlob fuel blob out = Ok l -> exists k, l = out ++ k /\ Forall fits k /\ blob = k ≫= entry.
Proof.
  induction fuel as [|fuel IH]; intros blob out l Hf H; cbn [pollBlob] in H.
  - destruct blob as [|b blob]; [|cbn in Hf; lia]. injection H as <-. exists []. by rewrite app_nil_r.
  - destruct blob as [|b blob]; [injection H as <-; exists []; by rewrite app_nil_r|]. set (bl := b :: blob) in *. destruct (Z.ltb_spec (len bl) 4) as [|H4]; [done|]. cbv zeta in H.
    set (n := unbe (take 4 bl)) in *. destruct (_ || _)%bool eqn:Hb; [done|]. apply orb_false_iff in Hb as [Hb H3]. apply orb_false_iff in Hb as [H1 H2].
    apply Z.leb_gt in H1. apply Z.ltb_ge in H2, H3. unfold len in H3, H4. rewrite length_drop in H3. apply IH in H as (k & -> & Hk & Hrest); [|rewrite !length_drop; lia].
    assert (length (take (Z.to_nat n) (drop 4 bl)) = Z.to_nat n) as Hlen by (rewrite length_take, length_drop; lia).
    exists (take (Z.to_nat n) (drop 4 bl) :: k). split; [by rewrite <- app_assoc|]. split; [constructor; [unfold fits, len; rewrite Hlen; lia|done]|].
    rewrite bind_cons, <- Hrest. unfold entry. unfold len. rewrite Hlen, Z2Nat.id by lia. rewrite <- app_assoc, take_drop.
    assert (putU32 (u32 n) = take 4 bl) as ->; [|by rewrite take_drop]. unfold n, putU32. pose proof (be_unbe (take 4 bl)) as Hbe. rewrite length_take, Nat.min_l in Hbe by lia.
    pose proof (unbe_range (take 4 bl)) as Hr. unfold len in Hr. rewrite length_take, Nat.min_l in Hr by lia. by rewrite u32_small.
Qed.

(** A blob holds frames exactly if it is their concatenation, each behind its length. *)
Theorem poll_blob_exact blob l : ParsePollBlob blob = Ok l <-> Forall fits l /\ blob = l ≫= entry.
Proof.
  unfold ParsePollBlob. split.
  - intros H. apply pollBlob_only in H as (k & -> & Hk & Hb); [by split|done].
  - intros [Hl ->]. by apply (pollBlob_encoded l Hl _ []).
Qed.

(** ** The operations *)
Section Operations.
Context `{N : Nanopack} `{P : Prims} `{J : LegacyJSON} `{R : Binstore.RecordStore} `{X : Ops.Surroundings} `{EJ : ExportJSON}.
Context {S D : Type} `{CS : ContextStore S} `{DS : DeliveryStore D} {L T G : Type} `{RG : Registrar G}.
Context (frames : L -> FrameTransport T) (files : L -> FileTransport T).
Context (spawn : option (bytes -> Manager.Manifest -> T -> T * res h_err L)) (kill : L -> T -> T).
Context (resolver : L -> option (T -> bytes -> bytes -> T * res tr_err (bytes * bytes))) (env : hostEnv).

Abbreviation deps := (Dispatch.Deps S D).
Abbreviation Host := (host L T deps G).

(** *** Polling, given what the three calls it makes do *)
Section Polling.
Context (rel : Host -> Host -> Prop) `{!PreOrder rel} (tr : L) (reads : bytes -> Prop).
Context (Hsend : forall f h, along rel (netCall (L := L) (S := S) (D := D) (G := G) (fun t => @ft_SendFrame T (frames tr) t f h))).
Context (Hattach : forall m s sh ro, along rel (netCall (L := L) (S := S) (D := D) (G := G) (fun t => @ft_AttachMailbox T (frames tr) t m s sh ro))).
Context (Hpoll : forall n m, reads m -> along rel (netCall (L := L) (S := S) (D := D) (G := G) (fun t => @ft_PollFrames T (frames tr) t n m))).

Lemma along_sendReplies self l : along rel (sendReplies frames (L := L) (T := T) (S := S) (D := D) (G := G) tr self l).
Proof.
  induction l as [|[[pub t] payload] l IH]; cbn [sendReplies]; [auto with host|]. abind; [by apply along_attempt|]. intros [e|u]; auto with host.
Qed.

Lemma along_dispatchFrame self e dd f : along rel (dispatchFrame frames (G := G) env tr self e dd f).
Proof.
  unfold dispatchFrame. case_match. case_match. abind; [apply along_sendReplies|]. intros ok. case_match. case_match. case_match; [case_match|..]; auto with host.
Qed.

Lemma along_dispatchFrames self i l : forall j dd, along rel (dispatchFrames frames (G := G) env tr self i j dd l).
Proof.
  induction l as [|f l IH]; intros j dd; cbn [dispatchFrames]; [auto with host|]. abind; [apply along_dispatchFrame|]. intros [dd1 evs].
  abind; [apply IH|]. intros [dd2 more]. auto with host.
Qed.

(** Whether an attachment names a mailbox that may be read. *)
Definition readable (a : Manager.Attachment) : Prop := forall mid sec, decodeAttachment a = Ok (mid, sec) -> reads mid.

Lemma along_pollEach self limit atts : Forall readable atts -> forall i dd, along rel (pollEach frames (G := G) env tr self limit i atts dd).
Proof.
  induction 1 as [|a atts Ha _ IH]; intros i dd; cbn [pollEach]; [auto with host|]. abind.
  - unfold pollOne. destruct (decodeAttachment a) as [[mid sec]|e|] eqn:Hdec; [|auto with host..]. abind; [by apply along_attempt|]. intros [e|u]; [auto with host|].
    abind; [apply along_attempt, Hpoll; by apply (Ha mid sec)|]. intros [e|l]; [auto with host|apply along_dispatchFrames].
  - intros [dd1 evs]. abind; [apply IH|]. intros [dd2 more]. auto with host.
Qed.
End Polling.

Section Rel.
Context (rel : Host -> Host -> Prop) `{!PreOrder rel}.
(** Calls to runtimes and routers, and what becomes of the identity. *)
Context (Hnet : forall h t, rel h (set_net t h)) (Hweb : forall h g, rel h (set_web g h)) (Hident : forall h d, rel h (set_ident d h)).

Lemma along_netCall {A} (f : T -> T * res tr_err A) : along rel (netCall (L := L) (S := S) (D := D) (G := G) f).
Proof. intros h. unfold netCall. destruct (f _). apply Hnet. Qed.
Lemma along_xferCall {A} wrap (f : T -> T * res tr_err A) : along rel (xferCall (L := L) (S := S) (D := D) (G := G) wrap f).
Proof. intros h. unfold xferCall. destruct (f _). apply Hnet. Qed.
Lemma along_webCall {A} wrap (f : G -> G * res bytes A) : along rel (webCall (L := L) (S := S) (D := D) (T := T) wrap f).
Proof. intros h. unfold webCall. destruct (f _). apply Hweb. Qed.
Lemma along_onClient {E A} (wrap : E -> h_err) ident (f : Client -> Client * res E A) : along rel (onClient (L := L) (T := T) (G := G) wrap ident f).
Proof. intros h. unfold onClient. destruct (f _). apply Hident. Qed.
Lemma along_identity : along rel (identity (L := L) (T := T) (S := S) (D := D) (G := G)).
Proof. by intros h. Qed.
Lemma along_keepDeps dd : along rel (keepDeps (L := L) (T := T) (G := G) dd).
Proof. intros h. apply Hident. Qed.

#[local] Hint Resolve along_netCall along_xferCall along_webCall along_onClient along_identity along_keepDeps : host.
Ltac walk := repeat first [ progress auto with host | abind; [|intros ?] | case_match ].

Lemma along_putChunks tr tid size chunks : forall i, along rel (putChunks files (L := L) (T := T) (S := S) (D := D) (G := G) tr tid size i chunks).
Proof. induction chunks as [|c chunks IH]; intros i; cbn [putChunks]; walk. Qed.

Lemma along_getChunks tr tk n : forall i, along rel (getChunks files (L := L) (T := T) (S := S) (D := D) (G := G) tr tk n i).
Proof. induction n as [|n IH]; intros i; cbn [getChunks]; walk. Qed.

(** *** Through [ensure] *)
Context (Hensure : forall id, along rel (ensure frames spawn kill (S := S) (D := D) (G := G) id)).

Lemma along_fileTransport id : along rel (fileTransport frames files spawn kill (S := S) (D := D) (G := G) id).
Proof. unfold fileTransport. abind; [apply Hensure|]. intros [tr pkg]. walk. Qed.

Lemma along_Resolve id to router : along rel (Resolve frames spawn kill resolver (S := S) (D := D) id to router).
Proof.
  unfold Resolve. abind; [auto with host|]. intros pub. abind; [apply Hensure|]. intros [tr pkg]. walk.
Qed.

Lemma along_Poll id p : along rel (Poll frames spawn kill (G := G) env id p).
Proof.
  unfold Poll. abind; [auto with host|]. intros ident. abind; [apply Hensure|]. intros [tr pkg]. cbv zeta. abind; [auto with host|]. intros atts.
  abind; [auto with host|]. intros atts'. abind; [apply (along_pollEach rel tr (fun _ => True)); auto with host; by apply list.Forall_forall|]. intros [dd evs]. walk.
Qed.

Lemma along_SendMessage id peer msg o : along rel (SendMessage frames spawn kill (S := S) (D := D) (G := G) env id peer msg o).
Proof.
  unfold SendMessage. abind; [auto with host|]. intros ident. abind; [apply Hensure|]. intros [tr pkg]. walk.
Qed.

Lemma along_XferSend id p : along rel (XferSend frames files spawn kill (S := S) (D := D) (G := G) env id p).
Proof.
  unfold XferSend. do 3 (abind; [auto with host|]; intros ?). abind; [apply along_fileTransport|]. intros ft. abind; [auto with host|]. intros hint. cbv zeta.
  abind; [auto with host|]. intros [[cipher chunks] mf]. abind; [auto with host|]. intros created. abind; [apply along_putChunks|]. intros _. walk.
Qed.

Lemma along_XferReceive id p : along rel (XferReceive frames files spawn kill (S := S) (D := D) (G := G) env id p).
Proof.
  unfold XferReceive. abind; [auto with host|]. intros ident. abind; [auto with host|]. intros [tk mf]. do 2 (abind; [auto with host|]; intros ?).
  abind; [apply along_fileTransport|]. intros ft. abind; [auto with host|]. intros [[count highest] missing]. abind; [auto with host|]. intros _.
  abind; [apply along_getChunks|]. intros chunks. walk.
Qed.
End Rel.

(** ** Every operation is a sequence of steps of the registry *)
Definition steps (strict : bool) (h h' : Host) : Prop := rtc (step frames spawn kill env strict) (h, Idle) (h', Idle).

#[local] Instance steps_preorder strict : PreOrder (steps strict).
Proof. split; [intros h; apply rtc_refl|]. intros h1 h2 h3 H12 H23. unfold steps in *. by etrans. Qed.

Lemma steps_other strict (h h' : Host) : hs_recs h' = hs_recs h -> hs_next h' = hs_next h -> steps strict h h'.
Proof. intros. by apply rtc_once, s_other. Qed.

Lemma ensure_steps strict id : along (steps strict) (ensure frames spawn kill (S := S) (D := D) (G := G) id).
Proof.
  intros h. unfold ensure. destruct (ensureBegin id h) as [[lp|s]|e|] eqn:Hb; [done| |done|done].
  apply (rtc_l _ _ _ _ (s_begin _ _ _ _ _ _ _ _ Hb)). destruct (ensureRun frames spawn kill s (hs_net h)) as [t r] eqn:Hr. destruct r as [l|e|].
  - apply (rtc_l _ _ _ _ (s_run _ _ _ _ _ _ _ _ _ _ Hr)). apply rtc_once, s_finish.
  - apply rtc_once. by apply (s_failed _ _ _ _ _ _ _ _ _ _ Hr).
  - apply rtc_once. by apply (s_failed _ _ _ _ _ _ _ _ _ _ Hr).
Qed.

Lemma Attach_steps strict id p : along (steps strict) (Attach frames spawn kill (S := S) (D := D) (G := G) id p).
Proof.
  assert (forall h t, steps strict h (set_net t h)) as Hnet by (intros; by apply steps_other).
  unfold Attach. cbv zeta. apply (along_bind_at (steps strict)); [by apply (along_lift (steps strict))|]. intros h1 h1' [mbox sec] Hd. apply act_lift_Ok in Hd as [Hd ->]. apply wrapErr_Ok in Hd.
  set (k := fun _ => _). enough (along (steps strict) (lift (check (bytes_eqb (ha_Shard p) []) HNoShard) ≫= k)) as He by apply He. subst k.
  apply (along_bind_at (steps strict)); [by apply (along_lift (steps strict))|]. intros h2 h2' u Hs. apply act_lift_Ok in Hs as [Hs ->]. apply check_Ok in Hs. set (k := fun _ => _).
  enough (along (steps strict) (identity ≫= k)) as He by apply He. subst k. abind; [by intros h|]. intros ident. abind; [apply ensure_steps|]. intros [tr pkg].
  abind; [by apply (along_netCall (steps strict))|]. intros u'. intros h. apply rtc_once, s_attach. split; [|by apply bool_decide_eq_false in Hs]. by exists (mbox, sec).
Qed.

Lemma Register_steps strict id router : along (steps strict) (Register frames spawn kill (S := S) (D := D) id router).
Proof.
  unfold Register. abind; [by intros h|]. intros ident. abind; [apply ensure_steps|]. intros lp. abind; [by apply (along_gets (steps strict))|]. intros r. abind; [by apply (along_lift (steps strict))|]. intros _.
  abind; [apply along_webCall; intros; by apply steps_other|]. intros cap. abind; [by apply (along_lift (steps strict))|]. intros _. cbv zeta. abind; [apply along_attempt, Attach_steps|].
  intros [e|u]; [by apply (along_lift (steps strict))|by apply (along_ret (steps strict))].
Qed.

Lemma operations_are_steps strict id router to p o peer msg ps pr :
  along (steps strict) (Register frames spawn kill (S := S) (D := D) id router) /\
  along (steps strict) (Resolve frames spawn kill resolver (S := S) (D := D) id to router) /\
  along (steps strict) (Poll frames spawn kill (G := G) env id p) /\
  along (steps strict) (SendMessage frames spawn kill (S := S) (D := D) (G := G) env id peer msg o) /\
  along (steps strict) (XferSend frames files spawn kill (S := S) (D := D) (G := G) env id ps) /\
  along (steps strict) (XferReceive frames files spawn kill (S := S) (D := D) (G := G) env id pr).
Proof.
  assert (forall h t, steps strict h (set_net t h)) as Hnet by (intros; by apply steps_other).
  assert (forall h g, steps strict h (set_web g h)) as Hweb by (intros; by apply steps_other).
  assert (forall h d, steps strict h (set_ident d h)) as Hident by (intros; by apply steps_other).
  pose proof (ensure_steps strict) as He. split; [apply Register_steps|].
  split; [by apply (along_Resolve (steps strict))|]. split; [by apply (along_Poll (steps strict))|]. split; [by apply (along_SendMessage (steps strict))|]. split; [by apply (along_XferSend (steps strict))|by apply (along_XferReceive (steps strict))].
Qed.

(** ** Polling *)
Lemma ensure_live id (h : Host) rec l : hs_recs h !! id = Some rec -> r_enabled rec = true -> r_live rec = Some l ->
  ensure frames spawn kill id h = (h, Ok (l, r_pkg rec)).
Proof. intros Hr He Hl. unfold ensure, ensureBegin. by rewrite Hr, He, Hl. Qed.

Lemma decodeAttachment_mailbox a mid sec : decodeAttachment a = Ok (mid, sec) -> hexDecode (Manager.at_MailboxID a) = Some mid.
Proof.
  unfold decodeAttachment, isHex. destruct (hexDecode (Manager.at_MailboxID a)) as [m|]; [|by rewrite orb_true_r]. destruct (_ || _)%bool; [done|]. destruct (_ || _)%bool; [done|].
  by intros [= <- _].
Qed.

(** Something about what is behind the transports that only reading the mailbox [m]
    can change. *)
Record undisturbed (m : bytes) (kept : T -> Prop) : Prop := {
  ud_spawn run code mf t : spawn = Some run -> kept t -> kept (run code mf t).1;
  ud_start l t : kept t -> kept (@ft_Start T (frames l) t).1;
  ud_stop l t : kept t -> kept (stopLive frames kill (Some l) t);
  ud_send l t f hint : kept t -> kept (@ft_SendFrame T (frames l) t f hint).1;
  ud_attach l t mid sec shard router : kept t -> kept (@ft_AttachMailbox T (frames l) t mid sec shard router).1;
  ud_poll l t n mid : mid ≠ m -> kept t -> kept (@ft_PollFrames T (frames l) t n mid).1;
}.

Lemma replay_kept m kept l atts : undisturbed m kept -> forall t, kept t -> kept (replay frames l atts t).1.
Proof.
  intros Hu. induction atts as [|a atts IH]; intros t Ht; cbn [replay]; [done|]. destruct (decodeAttachment a) as [[mbox sec]|e|]; [|done|done].
  pose proof (ud_attach _ _ Hu l t mbox sec (Manager.at_ShardURL a) (Manager.at_RouterURL a) Ht) as Ha.
  destruct (ft_AttachMailbox _ _ _ _ _) as [t1 [u|e|]]; [by apply IH|done|done].
Qed.

Lemma ensureRun_kept m kept s t : undisturbed m kept -> kept t -> kept (ensureRun frames spawn kill s t).1.
Proof.
  intros Hu Ht. unfold ensureRun. destruct spawn as [run|] eqn:Hsp; [|done]. destruct (Verify _ _) as [u|e|]; [|done|done].
  pose proof (ud_spawn _ _ Hu run (pk_Entry (st_pkg s)) (pk_Manifest (st_pkg s)) t Hsp Ht) as H1.
  destruct (run _ _ t) as [t1 [l|e|]]; [|done|done]. destruct (negb _); [by apply (ud_stop _ _ Hu)|].
  pose proof (ud_start _ _ Hu l t1 H1) as H2. destruct (ft_Start t1) as [t2 [u'|e|]]; [|by apply (ud_stop _ _ Hu)|done].
  pose proof (replay_kept m kept l (st_atts s) Hu t2 H2) as H3. destruct (replay _ _ _ _) as [t3 [u''|e|]]; [done|by apply (ud_stop _ _ Hu)|done].
Qed.

(** Starting a transport leaves the list of its mailboxes as it is. *)
Lemma ensure_kept m kept id (h : Host) : undisturbed m kept -> kept (hs_net h) ->
  kept (hs_net (ensure frames spawn kill id h).1) /\ attachments id (ensure frames spawn kill id h).1 = attachments id h.
Proof.
  intros Hu Hk. unfold ensure. destruct (ensureBegin id h) as [[lp|s]|e|]; [done| |done|done].
  pose proof (ensureRun_kept m kept s (hs_net h) Hu Hk) as H1. destruct (ensureRun _ _ _ _ _) as [t [l|e|]]; [|done|done].
  unfold ensureFinish. cbn [hs_recs set_net]. destruct (hs_recs h !! id) as [rec|] eqn:Hr; [|split; [by apply (ud_stop _ _ Hu)|done]].
  destruct (_ && _)%bool; [|split; [by apply (ud_stop _ _ Hu)|done]]. split; [done|]. unfold attachments. cbn. by rewrite lookup_insert_eq, Hr.
Qed.

(** C19: A poll that names no mailbox reads the mailboxes that the identity attached,
    or nobody, and no other: whatever holds of what is behind the transports and is
    not disturbed by starting, stopping and sending, by attaching and by reading
    mailboxes other than [m], still holds afterwards, if [m] is nobody's or somebody
    else's.  When there is none of one's own the poll fails, and all it has done is
    to start the transport if it was not running. *)
Theorem poll_reads_only_own (h h' : Host) id p dd (r : res h_err (list Event)) (kept : T -> Prop) m :
  hs_ident h = Some dd -> cl_Id (dp_client dd) ≠ [] -> hp_Mailbox p = [] -> undisturbed m kept ->
  (forall a, a ∈ attachments id h -> mine (cl_Id (dp_client dd)) a = true -> hexDecode (Manager.at_MailboxID a) ≠ Some m) ->
  Poll frames spawn kill env id p h = (h', r) -> kept (hs_net h) ->
  kept (hs_net h') /\
  (List.filter (mine (cl_Id (dp_client dd))) (attachments id h) = [] ->
     isOk r = false /\ h' = (ensure frames spawn kill id h).1 /\
     forall rec, hs_recs h !! id = Some rec -> r_enabled rec = true -> r_live rec ≠ None -> h' = h /\ r = Err HNoMailboxes).
Proof.
  intros Hd Hid Hp Hu Hm H Hk. unfold Poll in H.
  erewrite Act_bind_run in H by (unfold identity; rewrite Hd, (bool_decide_eq_false_2 _ Hid : bytes_eqb _ _ = false); reflexivity).
  destruct (ensure_kept m kept id h Hu Hk) as [Hk1 Hatt]. unfold mbind at 1, Act_bind at 1 in H.
  assert (forall rec, hs_recs h !! id = Some rec -> r_enabled rec = true -> r_live rec ≠ None -> exists l, ensure frames spawn kill id h = (h, Ok (l, r_pkg rec))) as Hlive.
  { intros rec Hr He Hl. destruct (r_live rec) as [l|] eqn:E; [|done]. exists l. by apply ensure_live. }
  destruct (ensure frames spawn kill id h) as [h1 [[l pkg]|e|]] eqn:Hens; cbn [fst] in Hk1, Hatt.
  2-3: injection H as <- <-; split; [done|]; intros _; split; [done|]; split; [done|]; intros rec Hr He Hl; by destruct (Hlive rec Hr He Hl).
  cbv beta iota zeta in H. erewrite Act_bind_run in H by reflexivity. rewrite Hatt in H. unfold selectAttachments in H. rewrite Hp in H.
  change (negb (bytes_eqb [] [])) with false in H. cbv iota in H.
  remember (List.filter (mine (cl_Id (dp_client dd))) (attachments id h)) as own eqn:Hown. destruct own as [|a0 atts0].
  { unfold lift, mbind, Act_bind in H. injection H as <- <-. split; [done|]. intros _. split; [done|]. split; [done|]. intros rec Hr He Hl.
    destruct (Hlive rec Hr He Hl) as [l' [= -> _ _]]. done. }
  split; [|done]. erewrite Act_bind_run in H by reflexivity. set (own := a0 :: atts0) in *.
  set (rel := fun h1 h2 : Host => kept (hs_net h1) -> kept (hs_net h2)). assert (PreOrder rel) as Hpre by (split; [by intros ? ?|intros ? ? ? H1 H2 H3; by apply H2, H1]).
  set (self := cl_IdentityPublic (dp_client dd)) in H.
  assert (along rel (pollEach frames env l self (pollLimit (hp_Limit p)) 0 own dd ≫= λ '(dd, evs), keepDeps dd ≫= λ _, mret evs)) as Halong; [|specialize (Halong h1 Hk1); by rewrite H in Halong].
  abind.
  - apply (along_pollEach rel l (fun mid => mid ≠ m)).
    + intros f hint h2 Hk2. unfold netCall. pose proof (ud_send _ _ Hu l (hs_net h2) f hint Hk2) as Hs. by destruct (ft_SendFrame _ _ _).
    + intros mid sec sh ro h2 Hk2. unfold netCall. pose proof (ud_attach _ _ Hu l (hs_net h2) mid sec sh ro Hk2) as Hs. by destruct (ft_AttachMailbox _ _ _ _ _).
    + intros n mid Hne h2 Hk2. unfold netCall. pose proof (ud_poll _ _ Hu l (hs_net h2) n mid Hne Hk2) as Hs. by destruct (ft_PollFrames _ _ _).
    + apply list.Forall_forall. intros a Ha mid sec Hdec%decodeAttachment_mailbox ->. rewrite Hown in Ha. apply list_elem_of_In, List.filter_In in Ha as [Ha Hmine]. by apply (Hm a); [apply list_elem_of_In| |].
  - intros [dd' evs]. abind; [intros h2 Hk2; exact Hk2|]. intros _. by apply (along_ret rel).
Qed.

(** ** Receiving a file *)
Section Receiving.
Context (calls : T -> Z) (l : L).
Context (Hget : forall t tid i tk sh, calls (@ft_XferGetByTicket T (files l) t tid i tk sh).1 <= calls t + 1).
Context (Hresume : forall t tid tk sh, calls (@ft_XferResumeByTicket T (files l) t tid tk sh).1 <= calls t).

Lemma getChunks_calls tk n : forall i (h : Host), calls (hs_net (getChunks files l tk n i h).1) <= calls (hs_net h) + Z.of_nat n.
Proof.
  induction n as [|n IH]; intros i h; cbn [getChunks]; [cbn; lia|]. unfold mbind at 1, Act_bind at 1, xferCall. specialize (Hget (hs_net h) (tk_Transfer tk) (u32 i) (tk_Secret tk) (tk_Shard tk)).
  destruct (ft_XferGetByTicket _ _ _ _ _) as [t r]. cbn [fst] in Hget. destruct r as [[payload want]|e|]; cbn [wrapErr]; [|cbn; lia..].
  destruct (negb _); [cbn; lia|]. specialize (IH (i + 1) (set_net t h)). cbn [hs_net set_net] in IH. unfold mbind, Act_bind. destruct (getChunks _ _ _ _ _ _) as [h1 [rest|e|]]; cbn [fst mret Act_ret] in *; lia.
Qed.

(** C28: Whatever the ticket says and whatever comes back: receiving a file asks for
    at most 16384 chunks, and what it yields has at most 8 MiB, the length and the
    SHA-256 of the ticket's manifest, was decrypted from a frame of the expected
    sender, and goes by a name without path separators. *)
Theorem received_within_limits (h h' : Host) id p rec r :
  hs_recs h !! id = Some rec -> r_enabled rec = true -> r_live rec = Some l ->
  XferReceive frames files spawn kill env id p h = (h', r) ->
  calls (hs_net h') <= calls (hs_net h) + 16384 /\
  forall name data, r = Ok (name, data) ->
    exists dd tk mf cl' cipher, hs_ident h = Some dd /\ parseTicket (xr_Ticket p) = Ok (tk, mf) /\
      let peer := if bytes_eqb (xr_From p) [] then tk_From tk else xr_From p in
      name = cleanName (mf_FileName mf) /\ plainName name /\ len data <= 8388608 /\ len data = mf_PlainSize mf /\ sha256 data = mf_FileHash mf /\
      Client_Decrypt (he_save env) (dp_client dd) cipher = (cl', Ok (peer, data)) /\ sha256 cipher = mf_CipherHash mf.
Proof.
  intros Hrec Hen Hl. assert (forall t, calls t <= calls t + 16384) as Hle by (intros; lia).
  unfold XferReceive. unfold mbind at 1, Act_bind at 1, identity. destruct (hs_ident h) as [dd|] eqn:Hd; [|intros [= <- <-]; by split].
  destruct (bytes_eqb _ _); [intros [= <- <-]; by split|]. unfold mbind at 1, Act_bind at 1, lift at 1. destruct (parseTicket (xr_Ticket p)) as [[tk mf]|e|] eqn:Ht; [|intros [= <- <-]; by split..].
  unfold mbind at 1, Act_bind at 1, lift at 1. destruct (outside mf) eqn:Hout; cbn [check]; [intros [= <- <-]; by split|].
  set (peer := if bytes_eqb _ _ then _ else _). unfold mbind at 1, Act_bind at 1, lift at 1. destruct (bytes_eqb peer []) eqn:Hpeer; cbn [check]; [intros [= <- <-]; by split|].
  unfold mbind at 1, Act_bind at 1. destruct (fileTransport _ _ _ _ id h) as [h1 rf] eqn:Hf. assert (h1 = h /\ (rf = Ok l \/ isOk rf = false)) as [-> Hrf].
  { revert Hf. unfold fileTransport. erewrite Act_bind_run by (by apply ensure_live). cbv beta iota. unfold mbind, Act_bind, lift, gets, mret, Act_ret.
    destruct (check _ HNoFiles) as [u|e|]; [destruct (check _ HNoXfer) as [u1|e|]|..]; intros [= <- <-]; auto. }
  destruct Hrf as [->|Hrf]; [|destruct rf; [done|intros [= <- <-]; by split..]].
  unfold outside in Hout. repeat (apply orb_false_iff in Hout as [Hout ?]). repeat match goal with Hz : (_ <? _) = false |- _ => apply Z.ltb_ge in Hz | Hz : (_ <=? _) = false |- _ => apply Z.leb_gt in Hz end.
  unfold MaxXferBytes, maxChunkCount in *. unfold mbind at 1, Act_bind at 1, xferCall. specialize (Hresume (hs_net h) (tk_Transfer tk) (tk_Secret tk) (tk_Shard tk)).
  destruct (ft_XferResumeByTicket _ _ _ _) as [t rr]. cbn [fst] in Hresume. destruct rr as [[[cnt highest] missing]|e|]; cbn [wrapErr]; [|intros [= <- <-]; cbn; split; [lia|done]..].
  unfold mbind at 1, Act_bind at 1, lift at 1. destruct (check _ _) as [u|e|]; [|intros [= <- <-]; cbn; split; [lia|done]..].
  unfold mbind at 1, Act_bind at 1. pose proof (getChunks_calls tk (Z.to_nat (mf_ChunkCount mf)) 0 (set_net t h)) as Hc. cbn [hs_net set_net] in Hc.
  destruct (getChunks _ _ _ _ _ _) as [h2 rc]. cbn [fst] in Hc. rewrite Z2Nat.id in Hc by lia. destruct rc as [chunks|e|]; [|intros [= <- <-]; cbn; split; [lia|done]..].
  unfold mbind, Act_bind, onClient, mret, Act_ret. destruct (ReassembleAndDecrypt _ _ _ _ _) as [cl' rp] eqn:Hre. destruct rp as [plain|e|]; cbn [wrapErr]; intros [= <- <-]; cbn [hs_net set_ident]; (split; [lia|]); [|done|done].
  intros name data [= <- <-]. apply reassembled in Hre as (cipher & Hdec & Hc1 & _ & Hp1 & Hp2); [|by apply bool_decide_eq_false in Hpeer].
  exists dd, tk, mf, cl', cipher. split; [done|]. split; [done|]. split; [done|]. split; [apply cleanName_plain|]. split; [lia|done].
Qed.
End Receiving.

End Operations.

(** ** A tab with two identities' mailboxes, and one that receives a file *)
#[local] Existing Instance demoSurroundings.
#[local] Existing Instance noJSON.

#[local] Instance noRegistrar : Registrar unit := {| rg_Register g _ _ := (g, Err []); rg_Resolve g _ _ := (g, Err []) |}.

Definition tabIdentity (id peer : bytes) (sp : SecurePeer.SecurePeer) : demoDeps :=
  Dispatch.mkDeps (NewFanout (profileOf id peer sp true) (Memory.NewMemoryContextStore) noDeliveries DefaultFanoutConfig) true None.

Definition tabMailbox (b : byte) (owner : bytes) : Manager.Attachment :=
  Manager.mkAttachment (hexEncode (replicate 16 b)) (hexEncode (replicate 32 b)) (str "https://shard") [] owner.

Definition tabRecord (atts : list Manager.Attachment) : record bytes := mkRec 0 demoPkg (HashBytes [x01]) true atts (Some (demoModule x01)).
Definition tab : demoHost :=
  mkHost {[str "demo" := tabRecord [tabMailbox x0a (str "bo"); tabMailbox x0b (str "al")]]} 1
    (mkDemoNet {[replicate 16 x0a := [[x99; x01]]; replicate 16 x0b := [[x01]]]} 0) (Some (tabIdentity (str "bo") demoCreator demoB)) tt.

Definition spared (t : demoNet) : Prop := dn_queues t !! replicate 16 x0b = Some [[x01]].

Lemma poll_reads_only_own_witness :
  exists h' r, Poll demoFrames demoSpawn demoKill demoHostEnv (str "demo") (mkPollParams [] 0) tab = (h', r) /\ isOk r = true /\ spared (hs_net h').
Proof.
  assert (isOk (Poll demoFrames demoSpawn demoKill demoHostEnv (str "demo") (mkPollParams [] 0) tab).2 = true) as Hok by (vm_compute; reflexivity).
  destruct (Poll demoFrames demoSpawn demoKill demoHostEnv (str "demo") (mkPollParams [] 0) tab) as [h' r] eqn:H. exists h', r. split; [reflexivity|]. split; [exact Hok|].
  refine (proj1 (poll_reads_only_own demoFrames demoSpawn demoKill demoHostEnv tab h' (str "demo") (mkPollParams [] 0)
    (tabIdentity (str "bo") demoCreator demoB) r spared (replicate 16 x0b) eq_refl _ eq_refl _ _ H _)).
  - discriminate.
  - split.
    + intros run code mf t [= <-] Hk. exact Hk.
    + intros l t Hk. exact Hk.
    + intros l t Hk. exact Hk.
    + intros l t f hint Hk. exact Hk.
    + intros l t mid sec sh ro Hk. exact Hk.
    + intros l t n mid Hne Hk. unfold spared. cbn. rewrite lookup_delete_ne by (intros E; by apply Hne). exact Hk.
  - intros a [->|[->|[]%elem_of_nil]%elem_of_cons]%elem_of_cons; [discriminate|discriminate].
  - reflexivity.
Defined.

(** A file goes from one tab to another over a relay in memory. *)
Definition relayFrames (m : bytes) : FrameTransport relay_t := {|
  ft_ID _ := str "demo"; ft_Capabilities _ := [str "message"]; ft_Start t := (t, Ok tt); ft_Stop t := (t, Ok tt); ft_SendFrame t _ _ := (t, Ok tt);
  ft_AttachMailbox t _ _ _ _ := (t, Ok tt); ft_DetachMailbox t _ := (t, Ok tt); ft_PollFrames t _ mid := (t, Ok []); ft_Status t := (t, Ok (true, [])) |}.
Definition relaySpawn : option (bytes -> Manager.Manifest -> relay_t -> relay_t * res h_err bytes) := None.
Definition relayKill (l : bytes) (t : relay_t) : relay_t := t.
Definition relayFiles (l : bytes) : FileTransport relay_t := memoryRelay.
Definition relayEnv : hostEnv := mkHostEnv true (demoBytes 32 x22) demoIO (he_frames demoHostEnv) (fun _ => []) (fun _ => []).

Definition relayTab (d : demoDeps) (t : relay_t) : host bytes relay_t demoDeps unit := mkHost {[str "demo" := tabRecord []]} 1 t (Some d) tt.

Definition tabSent := XferSend relayFrames relayFiles relaySpawn relayKill relayEnv (str "demo") (mkXferSend xferPeer (str "../a.txt") demoFile [] [] 100)
  (relayTab (tabIdentity demoCreator xferPeer demoA) ∅).
Definition tabTicket : bytes := match tabSent.2 with Ok s => xt_Ticket s | _ => [] end.
Definition tabReceiver := relayTab (tabIdentity (str "bo") demoCreator demoB) (hs_net tabSent.1).

Lemma received_within_limits_witness :
  exists h' data, XferReceive relayFrames relayFiles relaySpawn relayKill relayEnv (str "demo") (mkXferReceive tabTicket []) tabReceiver = (h', Ok (str "a.txt", data)) /\
    data = demoFile /\ len data <= 8388608.
Proof.
  assert ((XferReceive relayFrames relayFiles relaySpawn relayKill relayEnv (str "demo") (mkXferReceive tabTicket []) tabReceiver).2 = Ok (str "a.txt", demoFile)) as Hok
    by (vm_compute; reflexivity).
  destruct (XferReceive relayFrames relayFiles relaySpawn relayKill relayEnv (str "demo") (mkXferReceive tabTicket []) tabReceiver) as [h' r] eqn:H. cbn [snd] in Hok. subst r.
  exists h', demoFile. split; [reflexivity|]. split; [reflexivity|].
  refine (_ (received_within_limits relayFrames relayFiles relaySpawn relayKill relayEnv (fun _ => 0) (demoModule x01) _ _ tabReceiver h' (str "demo")
    (mkXferReceive tabTicket []) (tabRecord []) (Ok (str "a.txt", demoFile)) eq_refl eq_refl eq_refl H)).
  - intros [_ Hr]. destruct (Hr (str "a.txt") demoFile eq_refl) as (dd & tk & mf & cl' & cipher & _ & _ & _ & _ & Hl & _). exact Hl.
  - intros. discriminate.
  - intros. discriminate.
Defined.
