(* ===== verification/WasmTheorems.v ===== *)
(** * The host of WebAssembly modules: theorems

    What a module is called with, what the host writes to its memory, and what is
    read out of it, with and without an allocator exported by the module; a queue
    module in memory for the concrete runs. *)
From S2P Require Import Prelude Steps GoStd Sha256 External Rpc Manager Transport Ops OpsFrames Host HostOps OpsMessages Wasm.
#[local] Open Scope Z_scope.
Import Steps Transport Wasm.

(** ** Alignment *)
Lemma align8_spec n : 0 <= n < 2 ^ 32 - 7 -> n <= align8 n <= n + 7 /\ (8 | align8 n).
Proof.
  intros Hn. unfold align8. rewrite u32_small by lia. assert (Z.ldiff (n + 7) 7 = (n + 7) / 8 * 8) as ->.
  { change 7 with (Z.ones 3) at 2. by rewrite Z.ldiff_ones_r, Z.shiftl_mul_pow2, Z.shiftr_div_pow2 by lia. }
  pose proof (Z.div_mod (n + 7) 8 ltac:(lia)). pose proof (Z.mod_pos_bound (n + 7) 8 ltac:(lia)). split; [lia|]. by exists ((n + 7) / 8).
Qed.

Section Memory.
Context {M : Type} `{WL : WasmMemoryLaws M}.
Implicit Types (m : M) (t : WASMTransport M).

(** [m'] comes from [m] by writing between [a] and [b] and by growing. *)
Definition only (a b : Z) m m' : Prop :=
  wm_exports m' = wm_exports m /\ wm_hasMemory m' = wm_hasMemory m /\
  forall q n x, wm_read m q n = Some x -> q + n <= a \/ b <= q -> wm_read m' q n = Some x.

Lemma only_refl a b m : only a b m m.
Proof. done. Qed.

Lemma only_trans a b m1 m2 m3 : only a b m1 m2 -> only a b m2 m3 -> only a b m1 m3.
Proof. intros (H1 & H2 & H3) (H4 & H5 & H6). split; [congruence|]. split; [congruence|]. intros q n x Hr Hq. by apply H6; [apply H3|]. Qed.

Lemma only_weaken a b a' b' m m' : a' <= a -> b <= b' -> only a b m m' -> only a' b' m m'.
Proof. intros Ha Hb (H1 & H2 & H3). split; [done|]. split; [done|]. intros q n x Hr Hq. apply H3; [done|lia]. Qed.

Lemma only_write m p d m' : wm_write m p d = Some m' -> only p (p + len d) m m'.
Proof.
  intros Hw. destruct (wl_write_exports _ _ _ _ Hw) as [H1 H2]. split; [done|]. split; [done|]. intros q n x Hr Hq. by rewrite (wl_write_other _ _ _ _ _ _ Hw).
Qed.

Lemma only_grow m k m' a b : wm_grow m k = Some m' -> only a b m m'.
Proof. intros Hg. destruct (wl_grow_exports _ _ _ Hg) as [H1 H2]. split; [done|]. split; [done|]. intros q n x Hr _. by eapply wl_grow_read. Qed.

(** The rest of the transport. *)
Definition sameRest t t' : Prop :=
  wt_manifest t' = wt_manifest t /\ wt_started t' = wt_started t /\ wt_caps t' = wt_caps t /\ wt_version t' = wt_version t /\ wt_logs t' = wt_logs t.

Lemma sameRest_trans t1 t2 t3 : sameRest t1 t2 -> sameRest t2 t3 -> sameRest t1 t3.
Proof. unfold sameRest. intuition congruence. Qed.

(** Where the next argument goes. *)
Definition aligned t : Prop := 0 <= wt_scratchOff t <= span /\ (8 | wt_scratchOff t).

(** Writing with at most one growth. *)
Definition pokeGrown (at_ : Z) (d : bytes) : Step (WASMTransport M) wasm_err unit :=
  first ← attempt (poke WaWriteBounds at_ d);
  match first with inr _ => mret tt | inl _ => _ ← grow 16; poke WaWriteBounds at_ d end.

Lemma pokeGrown_cases at_ d t : exists m', only at_ (at_ + len d) (wt_mod t) m' /\
  ((pokeGrown at_ d t = (set_mod m' t, Ok tt) /\ wm_read m' at_ (len d) = Some d) \/
   exists e, e ∈ [WaGrow; WaWriteBounds] /\ pokeGrown at_ d t = (set_mod m' t, Err e)).
Proof.
  unfold pokeGrown, attempt, poke, grow, mbind, Step_bind, mret, Step_ret. destruct (wm_write (wt_mod t) at_ d) as [m'|] eqn:Hw.
  - exists m'. split; [by apply only_write|]. left. split; [done|]. by eapply wl_write_read.
  - destruct (wm_grow (wt_mod t) 16) as [m1|] eqn:Hg.
    + cbn [wt_mod set_mod]. destruct (wm_write m1 at_ d) as [m2|] eqn:Hw2.
      * exists m2. split; [eapply only_trans; [by eapply only_grow|by apply only_write]|]. left. split; [by destruct t|]. by eapply wl_write_read.
      * exists m1. split; [by eapply only_grow|]. right. exists WaWriteBounds. split; [set_solver|by destruct t].
    + exists (wt_mod t). split; [apply only_refl|]. right. exists WaGrow. split; [set_solver|by destruct t].
Qed.

Lemma writeScratch_eq d t :
  writeScratch d t =
  (let off := wt_scratchOff t in
   if ((span <? len d) || (span <? off + len d))%bool then (t, Err WaScratch) else
   match pokeGrown (u32 (scratch + off)) d t with
   | (t, Ok _) => (set_scratchOff (u32 (off + align8 (u32 (len d)))) t, Ok (u32 (scratch + off)))
   | (t, Err e) => (t, Err e)
   | (t, Panic) => (t, Panic)
   end).
Proof.
  unfold writeScratch, pokeGrown, gets, failIf, lift, check, modify, mbind, Step_bind, mret, Step_ret. cbv zeta. destruct (_ || _)%bool; [done|].
  destruct (attempt _ t) as [t1 [[e|[]]|e|]]; [|done..]. destruct (grow 16 t1) as [t2 [[]|e'|]]; [|done..]. by destruct (poke _ _ _ t2) as [t3 [[]|e'|]].
Qed.

(** One argument in the scratch region: written behind the others, which stay. *)
Lemma writeScratch_spec d t : aligned t ->
  let at_ := scratch + wt_scratchOff t in
  exists t', only at_ (at_ + len d) (wt_mod t) (wt_mod t') /\ sameRest t t' /\
  ((writeScratch d t = (t', Ok at_) /\ at_ + len d <= scratch + span /\ wm_read (wt_mod t') at_ (len d) = Some d /\
    aligned t' /\ at_ + len d <= scratch + wt_scratchOff t') \/
   exists e, e ∈ [WaScratch; WaGrow; WaWriteBounds] /\ writeScratch d t = (t', Err e)).
Proof.
  intros [Ho Hd] at_. rewrite writeScratch_eq. cbv zeta. unfold scratch, span in *. assert (0 <= len d) by (unfold len; lia).
  destruct (_ || _)%bool eqn:Hb.
  { exists t. split; [apply only_refl|]. split; [done|]. right. exists WaScratch. split; [set_solver|done]. }
  apply orb_false_iff in Hb as [H1 H2]. apply Z.ltb_ge in H1, H2. assert (u32 (1048576 + wt_scratchOff t) = at_) as -> by (apply u32_small; unfold at_; lia).
  destruct (pokeGrown_cases at_ d t) as (m' & Hm & [[-> Hr]|(e & He & ->)]).
  - exists (set_scratchOff (u32 (wt_scratchOff t + align8 (u32 (len d)))) (set_mod m' t)). split; [exact Hm|]. split; [done|]. left. destruct (align8_spec (len d)) as [Ha Ha8]; [lia|].
    assert (align8 (len d) + wt_scratchOff t <= 1048576) as Hle.
    { destruct Hd as [k Hk], Ha8 as [j Hj]. rewrite Hj, Hk in *. lia. }
    assert (u32 (wt_scratchOff t + align8 (u32 (len d))) = wt_scratchOff t + align8 (len d)) as Hu.
    { assert (u32 (len d) = len d) as -> by (apply u32_small; lia). apply u32_small. lia. }
    split; [done|]. split; [unfold at_; lia|]. split; [done|]. cbn [wt_scratchOff set_scratchOff]. rewrite Hu. unfold aligned. cbn [wt_scratchOff set_scratchOff].
    split; [split; [unfold span; lia|by apply Z.divide_add_r]|unfold at_; lia].
  - exists (set_mod m' t). split; [exact Hm|]. split; [done|]. right. exists e. split; [set_solver|done].
Qed.

Lemma writeMem_scratch d t : wm_exports (wt_mod t) (str "ntx_alloc") = false -> wm_hasMemory (wt_mod t) = true -> writeMem d t = writeScratch d t.
Proof. intros Ha Hm. unfold writeMem, gets, failIf, lift, mbind, Step_bind. by rewrite Hm, Ha. Qed.

(** Two arguments of one call. *)
Definition writeTwo (x y : bytes) : Step (WASMTransport M) wasm_err (Z * Z) := p ← writeMem x; q ← writeMem y; mret (p, q).

Lemma writeTwo_spec x y t : wm_exports (wt_mod t) (str "ntx_alloc") = false -> wm_hasMemory (wt_mod t) = true -> wt_scratchOff t = 0 ->
  exists t', only scratch (scratch + span) (wt_mod t) (wt_mod t') /\ sameRest t t' /\
  ((exists p q, writeTwo x y t = (t', Ok (p, q)) /\ scratch <= p /\ p + len x <= q /\ q + len y <= scratch + span /\
      wm_read (wt_mod t') p (len x) = Some x /\ wm_read (wt_mod t') q (len y) = Some y) \/
   exists e, e ∈ [WaScratch; WaGrow; WaWriteBounds] /\ writeTwo x y t = (t', Err e)).
Proof.
  intros Ha Hm H0. assert (aligned t) as Hal by (unfold aligned, span; rewrite H0; split; [lia|by exists 0]).
  unfold writeTwo. destruct (writeScratch_spec x t Hal) as (t1 & Ho1 & Hr1 & Hc1). pose proof Ho1 as (He1 & Hm1 & Hk1).
  assert (0 <= len x /\ 0 <= len y) as [Hx Hy] by (unfold len; lia).
  assert (only scratch (scratch + span) (wt_mod t) (wt_mod t1) \/ scratch + span < scratch + wt_scratchOff t + len x) as Hw1.
  { destruct (Z.le_gt_cases (wt_scratchOff t + len x) span); [left|right; lia]. eapply only_weaken; [| |exact Ho1]; unfold scratch in *; lia. }
  destruct Hc1 as [(E1 & Hb1 & Hrd1 & Hal1 & Hn1)|(e & He & E1)].
  2: { exists t1. split; [|split; [done|right; exists e; split; [done|]; eapply bind_fails; by rewrite writeMem_scratch]].
       rewrite writeScratch_eq in E1. cbv zeta in E1. destruct Hw1 as [Hw1|Hbad]; [done|].
       rewrite (proj2 (Z.ltb_lt span (wt_scratchOff t + len x))), orb_true_r in E1 by lia. injection E1 as <- _. apply only_refl. }
  destruct Hw1 as [Hw1|Hbad]; [|lia].
  rewrite (bind_run _ _ _ t1 (scratch + wt_scratchOff t)) by (by rewrite writeMem_scratch).
  destruct (writeScratch_spec y t1 Hal1) as (t2 & Ho2 & Hr2 & Hc2).
  destruct Hc2 as [(E2 & Hb2 & Hrd2 & Hal2 & Hn2)|(e & He & E2)].
  - exists t2. split; [|split; [by eapply sameRest_trans|]].
    { eapply only_trans; [exact Hw1|]. destruct Hal1. eapply only_weaken; [| |exact Ho2]; lia. }
    left. exists (scratch + wt_scratchOff t), (scratch + wt_scratchOff t1).
    rewrite (bind_run _ _ _ t2 (scratch + wt_scratchOff t1)) by (rewrite writeMem_scratch by congruence; done).
    split; [done|]. split; [lia|]. split; [done|]. split; [done|]. split; [|done]. apply Ho2; [done|left; lia].
  - exists t2. split; [|split; [by eapply sameRest_trans|]].
    { rewrite writeScratch_eq in E2. cbv zeta in E2. destruct (_ || _)%bool eqn:Hb2; [injection E2 as <- _; done|].
      apply orb_false_iff in Hb2 as [_ Hb2]. apply Z.ltb_ge in Hb2. destruct Hal1.
      eapply only_trans; [exact Hw1|]. eapply only_weaken; [| |exact Ho2]; lia. }
    right. exists e. split; [done|]. eapply bind_fails. by rewrite writeMem_scratch by congruence.
Qed.

(** An argument in memory the module allocates. *)
Lemma writeMem_alloc d t m1 l r : wm_exports (wt_mod t) (str "ntx_alloc") = true -> wm_hasMemory (wt_mod t) = true ->
  wm_call (wt_mod t) (str "ntx_alloc") [len d] = (m1, l, r) ->
  (exists x m2, r = Some [x] /\ wm_write m1 (u32 x) d = Some m2 /\ writeMem d t = (set_mod m2 (add_logs l (set_mod m1 t)), Ok (u32 x))) \/
  exists e, writeMem d t = (add_logs l (set_mod m1 t), Err e).
Proof.
  intros Ha Hm Hc. unfold writeMem, writeAlloc, invoke, poke, gets, failIf, lift, check, mbind, Step_bind, mret, Step_ret, fail. rewrite Hm, Ha. cbn [negb].
  rewrite Hc. destruct r as [[|x [|y r]]|]; cbn; [by right; eexists| |by right; eexists..].
  destruct (wm_write m1 (u32 x) d) as [m2|] eqn:Hw; cbn; [|by right; eexists]. left. by exists x, m2.
Qed.

(** What the host does to a memory: it writes in the scratch megabyte of a module
    that does not allocate, and where the module has just said otherwise. *)
Inductive touched : M -> M -> Prop :=
| touched_refl m : touched m m
| touched_scratch m m1 m2 : wm_exports m (str "ntx_alloc") = false -> only scratch (scratch + span) m m1 -> touched m1 m2 -> touched m m2
| touched_alloc m n m1 l r m2 m3 : wm_exports m (str "ntx_alloc") = true -> wm_call m (str "ntx_alloc") [n] = (m1, l, r) ->
    (m2 = m1 \/ exists x, r = Some [x] /\ only (u32 x) (u32 x + n) m1 m2) -> touched m2 m3 -> touched m m3.

Lemma writeTwo_touched x y t `{AL : !WasmAllocLaws M} : wm_hasMemory (wt_mod t) = true -> wt_scratchOff t = 0 -> len y <= 64 ->
  exists t', touched (wt_mod t) (wt_mod t') /\ wt_started t' = wt_started t /\
  ((exists p q, writeTwo x y t = (t', Ok (p, q)) /\ (p + len x <= q \/ q + len y <= p) /\
      wm_read (wt_mod t') p (len x) = Some x /\ wm_read (wt_mod t') q (len y) = Some y) \/
   exists e, writeTwo x y t = (t', Err e)).
Proof.
  intros Hm H0 Hy. destruct (wm_exports (wt_mod t) (str "ntx_alloc")) eqn:Ha.
  - destruct (wm_call (wt_mod t) (str "ntx_alloc") [len x]) as [[m1 l] r] eqn:Hc. destruct (wl_call_exports _ _ _ _ _ _ Hc) as [He1 Hm1].
    unfold writeTwo. destruct (writeMem_alloc x t m1 l r Ha Hm Hc) as [(v & m2 & -> & Hw & E)|(e & E)].
    2: { exists (add_logs l (set_mod m1 t)). split; [eapply touched_alloc; [done|exact Hc|by left|constructor]|]. split; [done|]. right. exists e. by apply (bind_fails _ _ _ _ _ E). }
    rewrite (bind_run _ _ _ _ _ E). destruct (wl_write_exports _ _ _ _ Hw) as [He2 Hm2]. set (t2 := set_mod m2 _) in *. change m2 with (wt_mod t2) in He2, Hm2.
    destruct (wm_call m2 (str "ntx_alloc") [len y]) as [[m3 l'] r'] eqn:Hc'.
    assert (touched (wt_mod t) m3) as Ht3.
    { eapply touched_alloc; [done|exact Hc|right; exists v; split; [done|by apply only_write]|]. eapply touched_alloc; [change m2 with (wt_mod t2); congruence|exact Hc'|by left|constructor]. }
    destruct (writeMem_alloc y t2 m3 l' r') as [(u & m4 & -> & Hw' & E')|(e & E')]; [congruence|congruence|exact Hc'| |].
    2: { exists (add_logs l' (set_mod m3 t2)). split; [exact Ht3|]. split; [done|]. right. exists e. by apply (bind_fails _ _ _ _ _ E'). }
    rewrite (bind_run _ _ _ _ _ E'). exists (set_mod m4 (add_logs l' (set_mod m3 t2))). split; [|split; [done|left; exists (u32 v), (u32 u); split; [done|]]].
    + eapply touched_alloc; [done|exact Hc|right; exists v; split; [done|by apply only_write]|].
      eapply touched_alloc; [change m2 with (wt_mod t2); congruence|exact Hc'|right; exists u; split; [done|by apply only_write]|constructor].
    + destruct (wl_alloc_kept _ _ _ _ _ x _ (len y) _ _ _ Ha ltac:(unfold len in *; lia) eq_refl Hc Hw Hc') as [Hk Hd].
      split; [lia|]. cbn [wt_mod set_mod]. split; [|by eapply wl_write_read]. rewrite (wl_write_other _ _ _ _ _ _ Hw'); [done|lia].
  - destruct (writeTwo_spec x y t Ha Hm H0) as (t' & Ho & (_ & Hs & _) & Hcase). exists t'. split; [eapply touched_scratch; [done|exact Ho|constructor]|]. split; [done|].
    destruct Hcase as [(p & q & E & H1 & H2 & H3 & H4 & H5)|(e & _ & E)]; [left; exists p, q; auto|by right; exists e].
Qed.

End Memory.

(** ** What a module is called with *)
Section Calls.
Context {M : Type} `{WL : WasmMemoryLaws M} `{AL : !WasmAllocLaws M}.
Implicit Types (m : M) (t : WASMTransport M).

Definition sendable t (frame : bytes) (to : RouteHint) : bool :=
  (wt_started t && negb ((len frame =? 0) || (Rpc.MaxFrameBytes <? len frame) || (64 <? len (RecipientPub to)) || (64 <? len (SenderHint to))))%bool.

(** What remains of [SendFrame] once the arguments are in memory. *)
Definition sendCall (frame : bytes) (to : RouteHint) (p q : Z) : Step (WASMTransport M) wasm_err unit :=
  rc ← callU32 (str "ntx_send") [p; len frame; q; len (RecipientPub to)]; lift (sendResult rc).

Lemma SendFrame_eq frame to t : SendFrame frame to t =
  (let t0 := set_scratchOff 0 t in
   if sendable t frame to then (pq ← writeTwo frame (RecipientPub to); sendCall frame to pq.1 pq.2) t0
   else (t0, Err (if wt_started t then WaInvalid (str "frame out of bounds") else WaNotReady))).
Proof.
  unfold SendFrame, sendable, writeTwo, sendCall, requireStarted, gets, failIf, check, lift, modify, mbind, Step_bind, mret, Step_ret. cbv zeta. cbn [wt_started set_scratchOff].
  destruct (wt_started t); [|done]. cbn [negb andb]. destruct (_ || _)%bool; [done|]. cbn [negb].
  destruct (writeMem frame _) as [t1 [p|e|]]; [|done..]. by destruct (writeMem (RecipientPub to) t1) as [t2 [q|e|]].
Qed.

(** C20: What a module is told to send is what was to be sent: when [ntx_send] is
    called, the first region it is given holds the frame and the second the
    recipient, which do not overlap, whether the module hands out the memory for
    them or leaves the host its scratch megabyte.  The host has written nowhere but
    there, also when it gives up; what cannot be sent does not reach the module. *)
Theorem wasm_send_args_intact t frame to :
  wm_hasMemory (wt_mod t) = true ->
  if sendable t frame to then
    exists t1, touched (wt_mod t) (wt_mod t1) /\
    ((exists p q, SendFrame frame to t = sendCall frame to p q t1 /\
        (p + len frame <= q \/ q + len (RecipientPub to) <= p) /\
        wm_read (wt_mod t1) p (len frame) = Some frame /\ wm_read (wt_mod t1) q (len (RecipientPub to)) = Some (RecipientPub to)) \/
     exists e, SendFrame frame to t = (t1, Err e))
  else exists e, SendFrame frame to t = (set_scratchOff 0 t, Err e).
Proof.
  intros Hm. rewrite SendFrame_eq. cbv zeta. destruct (sendable t frame to) eqn:Hs; [|by eexists].
  assert (len (RecipientPub to) <= 64) as Hl by (unfold sendable in Hs; bool_prop; lia).
  destruct (writeTwo_touched frame (RecipientPub to) (set_scratchOff 0 t) Hm eq_refl Hl) as (t1 & Ho & _ & [(p & q & E & H1 & H2 & H3)|(e & E)]); exists t1; (split; [exact Ho|]).
  - left. exists p, q. split; [exact (bind_run _ _ _ _ _ E)|]. by repeat split.
  - right. exists e. exact (bind_fails _ _ _ _ _ E).
Qed.

End Calls.

(** ** What is read out of a module *)

(** The errors of the two hosts. *)
Definition pollErr (e : Host.h_err) : wasm_err :=
  match e with Host.HBlobTruncated => WaTransport (str "poll blob truncated") | _ => WaTransport (str "poll frame out of bounds") end.

Lemma splitPoll_pollBlob fuel : forall blob pos out fuel', 0 <= pos -> (length blob - Z.to_nat pos <= fuel')%nat -> (length blob - Z.to_nat pos < fuel)%nat ->
  splitPoll fuel blob pos out = wrapErr pollErr (Host.pollBlob fuel' (drop (Z.to_nat pos) blob) out).
Proof.
  induction fuel as [|fuel IH]; intros blob pos out fuel' Hp Hf' Hf; [lia|]. cbn [splitPoll].
  destruct (Z.leb_spec (len blob) pos) as [Hle|Hgt]; unfold len in *.
  { rewrite drop_ge by lia. by destruct fuel'. }
  set (rest := drop (Z.to_nat pos) blob). assert (length rest = (length blob - Z.to_nat pos)%nat) as Hr by apply length_drop.
  destruct fuel' as [|fuel']; [lia|]. cbn [Host.pollBlob]. destruct rest as [|b bs] eqn:Hb; [cbn in Hr; lia|]. rewrite <- Hb in *. clear Hb b bs. unfold len in *.
  rewrite (Z.ltb_compare _ (pos + 4)), (Z.ltb_compare _ 4).
  destruct (Z.compare_spec (Z.of_nat (length blob)) (pos + 4)), (Z.compare_spec (Z.of_nat (length rest)) 4); try lia; try done.
  all: cbv zeta; set (n := unbe (take 4 rest));
    assert ((Z.of_nat (length blob) <? pos + 4 + n) = (Z.of_nat (length (drop 4 rest)) <? n)) as -> by
      (rewrite length_drop; destruct (Z.ltb_spec (Z.of_nat (length blob)) (pos + 4 + n)), (Z.ltb_spec (Z.of_nat (length rest - 4)%nat) n); lia);
    destruct (_ || _)%bool eqn:Hb; [done|]; apply orb_false_iff in Hb as [Hb _]; apply orb_false_iff in Hb as [H1 H2]; apply Z.leb_gt in H1;
    assert (drop (Z.to_nat (pos + 4)) blob = drop 4 rest) as -> by (unfold rest; rewrite drop_drop; f_equal; lia);
    (rewrite (IH _ _ _ fuel') by lia); assert (drop (Z.to_nat (pos + 4 + n)) blob = drop (Z.to_nat n) (drop 4 rest)) as -> by (unfold rest; rewrite !drop_drop; f_equal; lia); done.
Qed.

(** Both hosts read a blob the same way. *)
Lemma splitPollBlob_eq blob : splitPollBlob blob = wrapErr pollErr (Host.ParsePollBlob blob).
Proof. unfold splitPollBlob, Host.ParsePollBlob. by rewrite (splitPoll_pollBlob _ _ _ _ (length blob)) by lia. Qed.

Section Poll.
Context {M : Type} `{WL : WasmMemoryLaws M}.
Implicit Types (t : WASMTransport M).

Lemma callBlob_size name args t t' blob : callBlob name args t = (t', Ok blob) -> len blob <= Rpc.MaxFrameBytes * 33 + 16.
Proof.
  unfold callBlob. intros Hc. run_inv. bool_prop. destruct (negb _) in Hc; [by apply step_lift_Ok in Hc as [? _]|].
  apply step_lift_Ok in Hc as [Hc _]. apply ofOption_Ok in Hc. apply wl_read_len in Hc. lia.
Qed.

(** C26: The two hosts of a module read the same frames: what [PollFrames] makes of
    the blob a module returned is what the browser's [ParsePollBlob] makes of it,
    errors included.  Whatever the module returned, at most 1351696 bytes are taken
    from it, every frame has between one byte and the maximum, and the frames, each
    behind its length, are the blob: none of it is dropped. *)
Theorem wasm_poll_agrees limit mbox t :
  PollFrames limit mbox t = (blob ← pollBlob limit mbox; lift (wrapErr pollErr (Host.ParsePollBlob blob))) t /\
  forall t' l, PollFrames limit mbox t = (t', Ok l) -> pollBlob limit mbox t = (t', Ok (l ≫= entry)) /\ Forall fits l /\ len (l ≫= entry) <= Host.MaxPollBlob.
Proof.
  assert (PollFrames limit mbox t = (blob ← pollBlob limit mbox; lift (wrapErr pollErr (Host.ParsePollBlob blob))) t) as He.
  { unfold PollFrames, mbind, Step_bind. destruct (pollBlob limit mbox t) as [t1 [b|e|]]; [|done..]. by rewrite splitPollBlob_eq. }
  split; [exact He|]. intros t' l Hl. rewrite He in Hl. apply step_bind_Ok in Hl as (t1 & blob & Hp & Hl).
  apply step_lift_Ok in Hl as [Hl ->]. apply wrapErr_Ok, poll_blob_exact in Hl as [Hl ->].
  split; [done|]. split; [done|]. unfold pollBlob in Hp. run_inv. by apply callBlob_size in Hp.
Qed.

End Poll.

(** ** A queue module

    What the ABI asks of a module that keeps frames in memory: a view of its
    mailboxes, and the effect of every call on it.  [qm_route] is the module's own
    choice of a mailbox for a key.  A module that exports [ntx_alloc] finds room for
    a key or a secret, and what it hands out is not where its mail is; one that does
    not export it has reserved the scratch region. *)
Class QueueModule (M : Type) := {
  qm_queue : M -> bytes -> list bytes;
  qm_route : bytes -> bytes;
  qm_attached : M -> bytes -> Prop;
  qm_accepts : M -> bytes -> bytes -> Prop;
}.

Section Queue.
Context {M : Type} `{WM : !WasmModule M} `{QM : !QueueModule M}.

(** Neither the mailboxes nor who has attached them has changed. *)
Definition sameMail (m m' : M) : Prop := qm_queue m' = qm_queue m /\ qm_attached m' = qm_attached m /\ qm_accepts m' = qm_accepts m.

Class QueueABI : Prop := {
  qa_exports (m : M) name : name ∈ [str "ntx_start"; str "ntx_send"; str "ntx_attach"; str "ntx_poll"] -> wm_exports m name = true;
  qa_memory (m : M) : wm_hasMemory m = true;
  qa_scratch (m : M) p d : wm_exports m (str "ntx_alloc") = false -> scratch <= p -> p + len d <= scratch + span ->
    exists m' : M, wm_write m p d = Some m' /\ sameMail m m';
  qa_alloc (m m' : M) n l r : wm_exports m (str "ntx_alloc") = true -> wm_call m (str "ntx_alloc") [n] = (m', l, r) -> sameMail m m';
  qa_alloc_write (m m' m2 : M) l x d : wm_exports m (str "ntx_alloc") = true -> wm_call m (str "ntx_alloc") [len d] = (m', l, Some [x]) ->
    wm_write m' (u32 x) d = Some m2 -> sameMail m' m2;
  qa_alloc_room (m : M) d : wm_exports m (str "ntx_alloc") = true -> len d <= 64 ->
    exists (m' m2 : M) l x, wm_call m (str "ntx_alloc") [len d] = (m', l, Some [x]) /\ wm_write m' (u32 x) d = Some m2;
  qa_start (m : M) : exists (m' : M) l, wm_call m (str "ntx_start") [] = (m', l, Some [0]) /\ sameMail m m';
  qa_send (m : M) f rp p q : wm_read m p (len f) = Some f -> wm_read m q (len rp) = Some rp ->
    exists (m' : M) l rc, wm_call m (str "ntx_send") [p; len f; q; len rp] = (m', l, Some [rc]) /\ qm_attached m' = qm_attached m /\ qm_accepts m' = qm_accepts m /\
      ((forall mid, qm_queue m' mid = qm_queue m mid) \/ forall mid, qm_queue m' mid = if bool_decide (mid = qm_route rp) then qm_queue m mid ++ [f] else qm_queue m mid) /\
      (u32 rc = 0 -> qm_queue m' (qm_route rp) = qm_queue m (qm_route rp) ++ [f]);
  qa_attach (m : M) mbox sec p q : wm_read m p (len mbox) = Some mbox -> wm_read m q (len sec) = Some sec -> qm_accepts m mbox sec ->
    exists (m' : M) l, wm_call m (str "ntx_attach") [p; q; 0; 0; 0; 0] = (m', l, Some [0]) /\ qm_queue m' = qm_queue m /\ qm_attached m' mbox;
  qa_poll (m : M) limit mbox p : 0 < limit <= 32 -> wm_read m p (len mbox) = Some mbox -> qm_attached m mbox -> Forall fits (qm_queue m mbox) ->
    exists (m' : M) l ptr n, wm_call m (str "ntx_poll") [limit; p; 1] = (m', l, Some [Z.shiftl ptr 32 + n]) /\ 0 <= ptr < 2 ^ 32 /\
      let got := take (Z.to_nat limit) (qm_queue m mbox) in
      n = len (got ≫= entry) /\ wm_read m' ptr n = Some (got ≫= entry) /\
      forall mid, qm_queue m' mid = if bool_decide (mid = mbox) then drop (Z.to_nat limit) (qm_queue m mid) else qm_queue m mid;
}.
End Queue.
Arguments QueueABI M {_ _}.

(** Such a module behind the host, as a relay: addresses given in full are ignored,
    the recipient's key is the address. *)
Definition wasmView {M} `{QM : QueueModule M} : MailView (WASMTransport M) := {|
  queue t := qm_queue (wt_mod t);
  dest h := qm_route (RecipientPub h);
  attached t mid := qm_attached (wt_mod t) mid /\ len mid = 16;
  opens t att := qm_accepts (wt_mod t) (mailboxOf att) (Frames.hexPrefix (Manager.at_ReadSecret att)) /\
    len (mailboxOf att) = 16 /\ len (Frames.hexPrefix (Manager.at_ReadSecret att)) = 32;
  sound t := wt_started t = true /\ forall mid, Forall fits (qm_queue (wt_mod t) mid);
|}.

(** What the manager does with a new transport. *)
Definition wasmBoot {M} `{WasmModule M} (_ : Manager.Live) (t : WASMTransport M) : WASMTransport M := (Start t).1.

Section Honest.
Context {M : Type} `{WM : !WasmModule M} `{QM : !QueueModule M} `{WL : !WasmMemoryLaws M} `{AL : !WasmAllocLaws M} `{QA : !QueueABI M}.
Implicit Types (m : M) (t : WASMTransport M).

Lemma sameMail_trans m1 m2 m3 : sameMail m1 m2 -> sameMail m2 m3 -> sameMail m1 m3.
Proof. unfold sameMail. intuition congruence. Qed.

Lemma sameMail_refl m : sameMail m m.
Proof. done. Qed.

(** Writing an argument leaves the mail alone. *)
Lemma writeMem_queue d t t' p : aligned t -> writeMem d t = (t', Ok p) ->
  sameMail (wt_mod t) (wt_mod t') /\ wt_started t' = wt_started t /\ wm_read (wt_mod t') p (len d) = Some d /\ aligned t'.
Proof.
  intros Hal H. destruct (wm_exports (wt_mod t) (str "ntx_alloc")) eqn:Ha.
  - destruct (wm_call (wt_mod t) (str "ntx_alloc") [len d]) as [[m1 l] r] eqn:Hc.
    destruct (writeMem_alloc d t m1 l r Ha (qa_memory _) Hc) as [(x & m2 & -> & Hw & E)|(e & E)]; rewrite E in H; [|done]. injection H as <- <-.
    split; [eapply sameMail_trans; [by eapply qa_alloc|by eapply qa_alloc_write]|]. split; [done|]. split; [by eapply wl_write_read|exact Hal].
  - rewrite writeMem_scratch in H by (done || apply qa_memory). destruct (writeScratch_spec d t Hal) as (t1 & _ & (_ & Hs & _) & [(E & Hb & Hr & Hal' & _)|(e & _ & E)]); rewrite E in H; [|done].
    injection H as -> <-. split; [|by split]. rewrite writeScratch_eq in E. cbv zeta in E. destruct (_ || _)%bool; [done|].
    destruct Hal as [Ho _]. rewrite u32_small in E by (unfold scratch, span in *; lia).
    destruct (qa_scratch (wt_mod t) (scratch + wt_scratchOff t) d Ha) as (m' & Hw & Hsm); [lia|lia|].
    unfold pokeGrown, attempt, poke, mbind, Step_bind, mret, Step_ret in E. rewrite Hw in E. by injection E as <-.
Qed.

(** For a key or a secret there is room. *)
Lemma writeMem_room d t : aligned t -> len d <= 64 -> wt_scratchOff t <= 4096 -> exists t' p, writeMem d t = (t', Ok p) /\ wt_scratchOff t' <= wt_scratchOff t + 71.
Proof.
  intros Hal Hd Ho. destruct (wm_exports (wt_mod t) (str "ntx_alloc")) eqn:Ha.
  - destruct (qa_alloc_room (wt_mod t) d Ha Hd) as (m1 & m2 & l & x & Hc & Hw).
    destruct (writeMem_alloc d t m1 l (Some [x]) Ha (qa_memory _) Hc) as [(x' & m2' & [= <-] & Hw' & E)|(e & E)].
    + eexists _, _. split; [exact E|]. cbn. lia.
    + exfalso. unfold writeMem, writeAlloc, invoke, poke, gets, failIf, lift, check, mbind, Step_bind, mret, Step_ret in E. rewrite qa_memory, Ha in E. cbn [negb] in E.
      rewrite Hc in E. cbn in E. by rewrite Hw in E.
  - rewrite writeMem_scratch by (done || apply qa_memory). rewrite writeScratch_eq. cbv zeta. destruct Hal as [H1 _]. assert (0 <= len d) by (unfold len; lia). unfold scratch, span in *.
    rewrite (proj2 (Z.ltb_ge _ (len d))), (proj2 (Z.ltb_ge _ (_ + len d))) by lia. cbn [orb]. rewrite u32_small by lia.
    destruct (qa_scratch (wt_mod t) (1048576 + wt_scratchOff t) d Ha) as (m' & Hw & Hs); [unfold scratch; lia|unfold scratch, span; lia|].
    unfold pokeGrown, attempt, poke, mbind, Step_bind, mret, Step_ret. rewrite Hw. eexists _, _. split; [reflexivity|]. cbn [wt_scratchOff set_scratchOff].
    rewrite (u32_small (len d)) by lia. destruct (align8_spec (len d)) as [Hb _]; [lia|]. rewrite u32_small; lia.
Qed.

Lemma start_aligned t : wt_scratchOff t = 0 -> aligned t.
Proof. intros H0. unfold aligned, span. rewrite H0. split; [lia|by exists 0]. Qed.

(** Two arguments, the second of them short. *)
Lemma writeTwo_queue x y t t' p q : wt_scratchOff t = 0 -> len y <= 64 -> writeTwo x y t = (t', Ok (p, q)) ->
  sameMail (wt_mod t) (wt_mod t') /\ wt_started t' = wt_started t /\
    wm_read (wt_mod t') p (len x) = Some x /\ wm_read (wt_mod t') q (len y) = Some y.
Proof.
  intros H0 Hy E. destruct (writeTwo_touched x y t (qa_memory _) H0 Hy) as (t3 & _ & _ & [(p' & q' & E3 & _ & Hp & Hq)|(e & E3)]); rewrite E in E3; [|done].
  injection E3 as <- <- <-. unfold writeTwo in E. apply step_bind_Ok in E as (t1 & p1 & E1 & E). apply step_bind_Ok in E as (t2 & q1 & E2 & E). injection E as <- <- <-.
  destruct (writeMem_queue x t t1 p1 (start_aligned t H0) E1) as (S1 & St1 & _ & Hal1). destruct (writeMem_queue y t1 t2 q1 Hal1 E2) as (S2 & St2 & _).
  split; [by eapply sameMail_trans|]. split; [congruence|]. done.
Qed.

Lemma writeTwo_room x y t : wt_scratchOff t = 0 -> len x <= 64 -> len y <= 64 -> exists t' p q, writeTwo x y t = (t', Ok (p, q)).
Proof.
  intros H0 Hx Hy. pose proof (start_aligned t H0) as Hal. destruct (writeMem_room x t Hal Hx) as (t1 & p & E1 & Ho1); [lia|].
  destruct (writeMem_queue x t t1 p Hal E1) as (_ & _ & _ & Hal1). destruct (writeMem_room y t1 Hal1 Hy) as (t2 & q & E2 & _); [lia|].
  exists t2, p, q. unfold writeTwo. rewrite (bind_run _ _ _ _ _ E1). by rewrite (bind_run _ _ _ _ _ E2).
Qed.

(** A call with one result. *)
Lemma callU32x2_run name args t m' l x : wm_exports (wt_mod t) name = true -> wm_call (wt_mod t) name args = (m', l, Some [x]) ->
  callU32x2 name args t = (add_logs l (set_mod m' t), Ok x).
Proof. intros He Hc. unfold callU32x2, gets, failIf, lift, check, invoke, mbind, Step_bind, mret, Step_ret. rewrite He, Hc. done. Qed.

Lemma callU32_run name args t m' l x : wm_exports (wt_mod t) name = true -> wm_call (wt_mod t) name args = (m', l, Some [x]) ->
  callU32 name args t = (add_logs l (set_mod m' t), Ok (u32 x)).
Proof. intros He Hc. unfold callU32. by rewrite (bind_run _ _ _ _ _ (callU32x2_run _ _ _ _ _ _ He Hc)). Qed.

(** Started, [SendFrame] comes to its call with the arguments in place. *)
Lemma SendFrame_queue frame to t t' : sound (MailView := wasmView) t -> SendFrame frame to t = (t', Ok tt) ->
  fits frame /\ qm_attached (wt_mod t') = qm_attached (wt_mod t) /\ wt_started t' = true /\
  qm_queue (wt_mod t') (qm_route (RecipientPub to)) = qm_queue (wt_mod t) (qm_route (RecipientPub to)) ++ [frame] /\
  forall mid, Forall fits (qm_queue (wt_mod t') mid).
Proof.
  intros [Hst Hq] H. rewrite SendFrame_eq in H. cbv zeta in H. destruct (sendable t frame to) eqn:Hs; [|done].
  unfold sendable in Hs. bool_prop.
  assert (fits frame) as Hf by (unfold fits, len in *; lia). unfold Rpc.MaxFrameBytes in *.
  apply step_bind_Ok in H as (t1 & [p q] & E & H).
  destruct (writeTwo_queue frame (RecipientPub to) (set_scratchOff 0 t) t1 p q eq_refl ltac:(lia) E) as ((S1 & S2 & S3) & St & Hp & Hr).
  unfold sendCall in H. cbn [fst snd] in H.
  destruct (qa_send (wt_mod t1) frame (RecipientPub to) p q Hp Hr) as (m' & l & rc & Hc & A1 & A2 & A3 & A4).
  rewrite (bind_run _ _ _ _ _ (callU32_run _ _ _ _ _ _ (qa_exports _ (str "ntx_send") ltac:(set_solver)) Hc)) in H.
  apply step_lift_Ok in H as [H ->]. assert (u32 rc = 0) as Hrc.
  { unfold sendResult in H. destruct (Z.eqb_spec (u32 rc) 0); [done|]. by repeat case_match. }
  cbn [wt_mod add_logs set_mod wt_started set_scratchOff] in *. split; [done|]. split; [congruence|]. split; [congruence|]. split; [rewrite (A4 Hrc); congruence|].
  intros mid. destruct A3 as [A3|A3]; rewrite A3, S1; [apply Hq|]. case_bool_decide; [|apply Hq]. apply Forall_app. split; [apply Hq|]. by constructor.
Qed.

Lemma AttachMailbox_queue mbox sec t : sound (MailView := wasmView) t -> qm_accepts (wt_mod t) mbox sec -> len mbox = 16 -> len sec = 32 ->
  exists t', AttachMailbox mbox sec t = (t', Ok tt) /\ wt_started t' = true /\ qm_queue (wt_mod t') = qm_queue (wt_mod t) /\ qm_attached (wt_mod t') mbox.
Proof.
  intros [Hst Hq] Ha Hm Hs.
  destruct (writeTwo_room mbox sec (set_scratchOff 0 t)) as (t1 & p & q & E); [done|lia..|].
  destruct (writeTwo_queue mbox sec (set_scratchOff 0 t) t1 p q eq_refl ltac:(lia) E) as ((S1 & S2 & S3) & St & Hp & Hr).
  destruct (qa_attach (wt_mod t1) mbox sec p q Hp Hr) as (m' & l & Hc & A1 & A2); [by rewrite S3|].
  exists (add_logs l (set_mod m' t1)). split; [|cbn in *; split; [congruence|split; [congruence|done]]].
  transitivity ((pq ← writeTwo mbox sec; rc ← callU32 (str "ntx_attach") [pq.1; pq.2; 0; 0; 0; 0]; refused (str "attach") rc) (set_scratchOff 0 t)).
  { unfold AttachMailbox, writeTwo, requireStarted, gets, failIf, check, lift, modify, mbind, Step_bind, mret, Step_ret. cbn [wt_started set_scratchOff]. rewrite Hst, Hm, Hs.
    cbn [negb orb Z.eqb Pos.eqb]. destruct (writeMem mbox _) as [u [x|e|]]; [|done..]. by destruct (writeMem sec u) as [u' [y|e|]]. }
  rewrite (bind_run _ _ _ _ _ E). cbn [fst snd].
  rewrite (bind_run _ _ _ _ _ (callU32_run _ _ _ _ _ _ (qa_exports _ (str "ntx_attach") ltac:(set_solver)) Hc)). done.
Qed.

Lemma entries_size k l : (length l <= k)%nat -> Forall fits l -> 0 <= len (l ≫= entry) <= 40964 * Z.of_nat k.
Proof.
  revert k. induction l as [|f l IH]; intros k Hk Hl; [unfold len; cbn [mbind list_bind length]; lia|]. apply List.Forall_cons_iff in Hl as [Hf Hl]. destruct k as [|k]; [cbn in Hk; lia|].
  specialize (IH k ltac:(cbn in Hk; lia) Hl). rewrite bind_cons. unfold len in *. rewrite length_app. unfold fits, Rpc.MaxFrameBytes, len in Hf.
  assert (length (entry f) = (4 + length f)%nat) as -> by (unfold entry; rewrite length_app; f_equal; apply length_be). lia.
Qed.

Lemma PollFrames_queue limit mid t : sound (MailView := wasmView) t -> qm_attached (wt_mod t) mid -> len mid = 16 -> 0 < limit <= 32 ->
  exists t', PollFrames limit mid t = (t', Ok (take (Z.to_nat limit) (qm_queue (wt_mod t) mid))) /\ wt_started t' = true /\
    forall k, qm_queue (wt_mod t') k = if bool_decide (k = mid) then drop (Z.to_nat limit) (qm_queue (wt_mod t) k) else qm_queue (wt_mod t) k.
Proof.
  intros [Hst Hq] Ha Hm Hl. pose proof (start_aligned (set_scratchOff 0 t) eq_refl) as Hal.
  destruct (writeMem_room mid (set_scratchOff 0 t) Hal) as (t1 & p & E & _); [lia|cbn; lia|].
  destruct (writeMem_queue _ _ _ _ Hal E) as ((S1 & S2 & S3) & St & Hr & _).
  cbn [wt_scratchOff set_scratchOff wt_mod wt_started] in *.
  destruct (qa_poll (wt_mod t1) limit mid p Hl Hr) as (m' & l & ptr & n & Hc & Hptr & Hn & Hrd & Hq'); [by rewrite S2|rewrite S1; apply Hq|]. rewrite S1 in *.
  set (got := take (Z.to_nat limit) (qm_queue (wt_mod t) mid)) in *.
  assert (Forall fits got) as Hg by (by apply Forall_take).
  assert (0 <= n <= 40964 * Z.of_nat 32) as Hsz by (rewrite Hn; apply entries_size; [unfold got; rewrite length_take; lia|done]).
  exists (add_logs l (set_mod m' t1)). cbn [wt_mod add_logs set_mod wt_started]. split; [|split; [congruence|exact Hq']].
  assert (pollBlob limit mid t = (add_logs l (set_mod m' t1), Ok (got ≫= entry))) as Hb.
  { assert (requireStarted (set_scratchOff 0 t) = (set_scratchOff 0 t, Ok tt)) as Hrs by
      (unfold requireStarted; rewrite (bind_run _ _ _ (set_scratchOff 0 t) true) by (unfold gets; cbn; by rewrite Hst); done).
    unfold pollBlob. rewrite (bind_run _ _ t (set_scratchOff 0 t) tt) by done. rewrite (bind_run _ _ _ _ _ Hrs), Hm. cbn [Z.eqb Pos.eqb].
    assert (pollLimit limit = limit) as -> by (unfold pollLimit; rewrite (proj2 (Z.leb_gt _ _)), (proj2 (Z.ltb_ge _ _)) by lia; done).
    assert ((p ← writeMem mid; mret [p; 1]) (set_scratchOff 0 t) = (t1, @Ok wasm_err _ [p; 1])) as Hw
      by (by rewrite (bind_run _ _ _ _ _ E)).
    rewrite (bind_run _ _ _ _ _ Hw). unfold callBlob.
    rewrite (bind_run _ _ _ _ _ (callU32x2_run _ _ _ _ _ _ (qa_exports _ (str "ntx_poll") ltac:(set_solver)) Hc)).
    assert (u32 (Z.shiftr (Z.shiftl ptr 32 + n) 32) = ptr) as ->.
    { rewrite Z.shiftl_mul_pow2, Z.shiftr_div_pow2 by lia. rewrite Z.div_add_l by lia. rewrite (Z.div_small n) by lia. rewrite Z.add_0_r. by apply u32_small. }
    assert (u32 (Z.shiftl ptr 32 + n) = n) as ->.
    { unfold u32. rewrite Z.shiftl_mul_pow2 by lia. rewrite Z.add_comm, Z.mod_add by lia. apply Z.mod_small. lia. }
    unfold failIf, check, lift, gets, mbind, Step_bind. rewrite (proj2 (Z.ltb_ge _ n)) by (unfold Rpc.MaxFrameBytes; lia).
    cbn [wt_mod add_logs set_mod]. rewrite qa_memory. cbn [negb]. by rewrite Hrd. }
  unfold PollFrames. rewrite (bind_run _ _ _ _ _ Hb), splitPollBlob_eq. unfold lift. by rewrite (proj2 (poll_blob_exact _ got)).
Qed.

(** C12: A queue module that keeps the ABI, with or without an allocator of its own,
    run by this host, is an honest relay: what is accepted waits in the mailbox the recipient's key leads to, who attaches a
    mailbox gets what waits there, as much as is asked for, and nothing is lost or
    repeated. *)
Theorem wasm_queue_is_honest (text : wasm_err -> bytes) : @HonestMail _ wasmView (fun _ => as_frames text) wasmBoot.
Proof.
  split.
  - intros tr t mid Hs. destruct (qa_start (wt_mod t)) as (m' & l & Hc & S1 & _ & _).
    assert (Start t = (set_started true (add_logs l (set_mod m' t)), Ok tt)) as E.
    { unfold Start. by rewrite (bind_run _ _ _ _ _ (callU32_run _ _ _ _ _ _ (qa_exports _ (str "ntx_start") ltac:(set_solver)) Hc)). }
    unfold wasmBoot. rewrite E. cbn. rewrite S1. split; [split; [done|apply Hs]|done].
  - intros tr t f h t' Hs H. cbn [ft_SendFrame as_frames] in H. unfold wrap in H. destruct (SendFrame f h t) as [t1 r] eqn:E. injection H as <- H. apply wrapErr_Ok in H as ->.
    destruct (SendFrame_queue _ _ _ _ Hs E) as (_ & _ & Hst & Hqu & Hfit). cbn. split; [by split|]. by rewrite Hqu.
  - intros tr t att Hs (Ha & H16 & H32). destruct (AttachMailbox_queue _ _ _ Hs Ha H16 H32) as (t' & E & Hst & Hqu & Hat). exists t'.
    cbn [ft_AttachMailbox as_frames]. unfold wrap. rewrite E. cbn. split; [done|]. split; [split; [done|rewrite Hqu; apply Hs]|]. split; [by split|by rewrite Hqu].
  - intros tr t limit mid Hs [Hat H16] Hl. destruct (PollFrames_queue limit mid t Hs Hat H16 Hl) as (t' & E & Hst & Hqu). eexists t', _.
    cbn [ft_PollFrames as_frames]. unfold wrap. rewrite E. cbn. split; [done|]. split.
    + split; [done|]. intros k. rewrite Hqu. case_bool_decide; [apply Forall_drop|]; apply Hs.
    + rewrite Hqu, length_take, bool_decide_eq_true_2, take_drop by done. done.
Qed.

End Honest.

(** ** A module for the concrete runs

    Its memory has eight megabytes, of which the host's scratch region is reserved;
    results are put at four.  A greedy one hands out everything it has; one with an
    allocator hands out the sixth and the seventh megabyte by turns. *)
Record qmod := mkQ { q_mem : gmap Z byte; q_queues : gmap bytes (list bytes); q_attached : gset bytes; q_turn : bool }.

Definition q_size : Z := 8388608.
Definition q_out : Z := 4194304.
Definition q_at (mem : gmap Z byte) (i : Z) : byte := default x00 (mem !! i).

Definition q_read (m : qmod) (p n : Z) : option bytes :=
  if ((0 <=? p) && (0 <=? n) && (p + n <=? q_size))%bool then Some (q_at (q_mem m) <$> seqZ p n) else None.
Definition q_write (m : qmod) (p : Z) (d : bytes) : option qmod :=
  if ((0 <=? p) && (p + len d <=? q_size))%bool then Some (mkQ (map_seqZ p d ∪ q_mem m) (q_queues m) (q_attached m) (q_turn m)) else None.
Definition q_queue (m : qmod) (mid : bytes) : list bytes := default [] (q_queues m !! mid).
Definition q_route (rp : bytes) : bytes := take 16 (sha256 rp).

(** A blob as the result of a call. *)
Definition q_return (m : qmod) (blob : bytes) : qmod * list bytes * option (list Z) :=
  match q_write m q_out blob with Some m => (m, [], Some [Z.shiftl q_out 32 + len blob]) | None => (m, [], None) end.

Definition q_poll (greedy : bool) (m : qmod) (limit : Z) (mbox : bytes) : qmod * list bytes * option (list Z) :=
  let n := if greedy then length (q_queue m mbox) else Z.to_nat limit in
  q_return (mkQ (q_mem m) (<[mbox := drop n (q_queue m mbox)]> (q_queues m)) (q_attached m) (q_turn m)) (take n (q_queue m mbox) ≫= entry).

(** At most a megabyte at a time. *)
Definition q_alloc (m : qmod) (n : Z) : qmod * list bytes * option (list Z) :=
  if 1048576 <? n then (m, [], None) else (mkQ (q_mem m) (q_queues m) (q_attached m) (negb (q_turn m)), [], Some [if q_turn m then 6291456 else 5242880]).

Definition q_names : list bytes := 
  [str "ntx_init"; str "ntx_caps"; str "ntx_start"; str "ntx_stop"; str "ntx_send"; str "ntx_attach"; str "ntx_detach"; str "ntx_poll"; str "ntx_status"].

Definition q_call (greedy : bool) (m : qmod) (name : bytes) (args : list Z) : qmod * list bytes * option (list Z) :=
  match args with
  | [n] => if bytes_eqb name (str "ntx_alloc") then q_alloc m n else (m, [], Some [0])
  | [p; n; q; k] =>
      match q_read m p n, q_read m q k with
      | Some f, Some rp => (mkQ (q_mem m) (<[q_route rp := q_queue m (q_route rp) ++ [f]]> (q_queues m)) (q_attached m) (q_turn m), [str "sent"], Some [0])
      | _, _ => (m, [], Some [2])
      end
  | [p; _; _; _; _; _] =>
      match q_read m p 16 with
      | Some mbox => (mkQ (q_mem m) (q_queues m) ({[mbox]} ∪ q_attached m) (q_turn m), [], Some [0])
      | None => (m, [], Some [2])
      end
  | [limit; p; _] => match q_read m p 16 with Some mbox => q_poll greedy m limit mbox | None => (m, [], None) end
  | _ => if bytes_eqb name (str "ntx_caps") then q_return m (str "message, p2p") else (m, [], Some [if bytes_eqb name (str "ntx_status") then 1 else 0])
  end.

Definition q_inst (alloc greedy : bool) : WasmModule qmod := {|
  wm_exports _ name := bool_decide (name ∈ (if alloc then str "ntx_alloc" :: q_names else q_names)); wm_call := q_call greedy; wm_hasMemory _ := true;
  wm_read := q_read; wm_write := q_write; wm_grow m _ := Some m; wm_close m := m |}.

Section Allocator.
Context (alloc : bool).
#[local] Instance q_module : WasmModule qmod := q_inst alloc false.

Lemma q_read_Some m p n b : q_read m p n = Some b <-> 0 <= p /\ 0 <= n /\ p + n <= q_size /\ b = q_at (q_mem m) <$> seqZ p n.
Proof.
  unfold q_read. destruct (_ && _)%bool eqn:H; bool_prop; [naive_solver|]. split; [done|]. intros (H1 & H2 & H3 & _).
  by rewrite (proj2 (Z.leb_le _ _) H1), (proj2 (Z.leb_le _ _) H2), (proj2 (Z.leb_le _ _) H3) in H.
Qed.

Lemma q_write_Some m p d m' : q_write m p d = Some m' <-> 0 <= p /\ p + len d <= q_size /\ m' = mkQ (map_seqZ p d ∪ q_mem m) (q_queues m) (q_attached m) (q_turn m).
Proof.
  unfold q_write. destruct (_ && _)%bool eqn:H; bool_prop; [naive_solver|]. split; [done|]. intros (H1 & H2 & _).
  by rewrite (proj2 (Z.leb_le _ _) H1), (proj2 (Z.leb_le _ _) H2) in H.
Qed.

Lemma q_written m p d m' : q_write m p d = Some m' -> q_read m' p (len d) = Some d.
Proof.
  rewrite q_write_Some. intros (H1 & H2 & ->). apply q_read_Some. unfold len in *. split; [done|]. split; [lia|]. split; [done|]. cbn [q_mem].
  apply list_eq. intros i. rewrite list_lookup_fmap. destruct (decide (i < length d)%nat) as [Hi|Hi].
  - rewrite lookup_seqZ_lt by lia. cbn [fmap option_fmap option_map]. destruct (lookup_lt_is_Some_2 d i Hi) as [x Hx]. rewrite Hx. unfold q_at. f_equal.
    rewrite (lookup_union_Some_l _ _ _ x); [done|]. apply lookup_map_seqZ_Some. split; [lia|]. by replace (Z.to_nat (p + Z.of_nat i - p)) with i by lia.
  - rewrite lookup_seqZ_ge, lookup_ge_None_2 by lia. done.
Qed.

Lemma q_elsewhere m p d m' q n : q_write m p d = Some m' -> q + n <= p \/ p + len d <= q -> q_read m' q n = q_read m q n.
Proof.
  rewrite q_write_Some. intros (H1 & H2 & ->) Hq. unfold q_read. destruct (_ && _)%bool; [|done]. f_equal. cbn [q_mem]. apply list_fmap_ext. intros i x Hx.
  apply lookup_seqZ in Hx as [-> Hx]. unfold q_at. rewrite lookup_union_r; [done|]. apply lookup_map_seqZ_None. unfold len in *. lia.
Qed.

Lemma q_call_alloc m n : q_call false m (str "ntx_alloc") [n] = q_alloc m n.
Proof. reflexivity. Qed.

#[local] Instance q_laws : WasmMemoryLaws qmod.
Proof.
  split; cbn.
  - intros m p n b (_ & Hn & _ & ->)%q_read_Some. unfold len. rewrite length_fmap, length_seqZ. lia.
  - intros m p d m'. apply q_written.
  - intros m p d m' q n. apply q_elsewhere.
  - done.
  - by intros m k m' q n b [= <-].
  - done.
  - done.
Qed.

#[local] Instance q_allocs : WasmAllocLaws qmod.
Proof.
  split. intros m n m1 l x d m2 k m3 l' y _ Hk <- H1 Hw H2. cbn -[q_alloc] in H1, H2. unfold q_alloc in H1, H2. destruct (Z.ltb_spec 1048576 (len d)); [done|]. injection H1 as <- _ <-.
  assert (q_turn m2 = negb (q_turn m)) as Ht by (by apply q_write_Some in Hw as (_ & _ & ->)).
  destruct (_ <? k); [done|]. injection H2 as <- _ <-. rewrite Ht. apply q_written in Hw. split; [exact Hw|]. destruct (q_turn m); cbn [negb]; rewrite !u32_small; lia.
Qed.

#[local] Instance q_view : QueueModule qmod := {|
  qm_queue := q_queue; qm_route := q_route; qm_attached m mbox := mbox ∈ q_attached m /\ len mbox = 16; qm_accepts m mbox sec := len mbox = 16 |}.

#[local] Instance q_abi : QueueABI qmod.
Proof.
  split.
  - intros m name Hn. cbn. apply bool_decide_eq_true. unfold q_names. destruct alloc; set_solver.
  - done.
  - intros m p d _ Hp Hd. eexists. split; [apply q_write_Some; unfold scratch, span, q_size in *; split; [lia|]; split; [lia|reflexivity]|done].
  - intros m m' n l r _ H. cbn -[q_alloc] in H. unfold q_alloc in H. by destruct (_ <? n); injection H as <- _ _.
  - intros m m' m2 l x d _ _ Hw. by apply q_write_Some in Hw as (_ & _ & ->).
  - intros m d _ Hd. cbn -[q_alloc]. unfold q_alloc. rewrite (proj2 (Z.ltb_ge _ _)) by lia.
    assert (0 <= len d) by (unfold len; lia). eexists _, (mkQ _ _ _ _), _, _. split; [reflexivity|].
    apply q_write_Some. unfold q_size. split; [destruct (q_turn m); rewrite u32_small; lia|]. split; [destruct (q_turn m); rewrite u32_small; lia|reflexivity].
  - intros m. by eexists _, _.
  - intros m f rp p q Hp Hq. cbn in Hp, Hq |- *. rewrite Hp, Hq. eexists _, _, _. split; [done|]. split; [done|]. split; [done|].
    unfold q_queue. cbn. split; [|by rewrite lookup_insert_eq]. right. intros mid. case_bool_decide as Hm; [subst; by rewrite lookup_insert_eq|by rewrite lookup_insert_ne].
  - intros m mbox sec p q Hp _ H16. cbn in Hp, H16 |- *. rewrite H16 in Hp. rewrite Hp. eexists _, _. split; [done|]. split; [done|]. split; [set_solver|done].
  - intros m limit mbox p Hl Hp [_ H16] Hf. cbn in Hp, Hf |- *. rewrite H16 in Hp. rewrite Hp. unfold q_poll, q_return.
    set (got := take (Z.to_nat limit) (q_queue m mbox)). assert (0 <= len (got ≫= entry) <= 40964 * Z.of_nat 32) as Hsz
      by (apply entries_size; [unfold got; rewrite length_take; lia|by apply Forall_take]).
    set (m1 := mkQ _ _ _ _). destruct (q_write m1 q_out (got ≫= entry)) as [m'|] eqn:Hw.
    2: { exfalso. unfold q_write in Hw. rewrite (proj2 (Z.leb_le _ _)), (proj2 (Z.leb_le _ _)) in Hw; [done|unfold q_out, q_size; lia|unfold q_out; lia]. }
    eexists _, _, q_out, _. split; [done|]. split; [unfold q_out; lia|]. split; [done|]. split; [by apply q_written in Hw|].
    apply q_write_Some in Hw as (_ & _ & ->). intros mid. unfold q_queue. cbn. case_bool_decide as Hm; [subst; by rewrite lookup_insert_eq|by rewrite lookup_insert_ne].
Qed.

End Allocator.

(** ** Concrete runs *)
Definition q_start : qmod := mkQ ∅ ∅ ∅ false.
Definition q_manifest : Manager.Manifest := Manager.mkManifest (str "queue") [] [] [x01] (str "queue.wasm") [str "message"] [].

Section Runs.
Context `{WM : !WasmModule qmod}.

Definition q_transport : option (WASMTransport qmod) :=
  match NewWASMTransport true Some (fun _ _ => Some q_start) (str "module") q_manifest (str "cfg") with Ok t => Some (Start t).1 | _ => None end.

Definition q_key : bytes := replicate 32 x41.

(** Two frames are sent to a key and one is polled by its mailbox. *)
Definition q_run : option (list bytes * res wasm_err (list bytes) * list bytes * list bytes) :=
  t ← q_transport;
  let t := (SendFrame (str "one") (mkRoute q_key [] [] []) t).1 in
  let t := (SendFrame (str "two") (mkRoute q_key [] [] []) t).1 in
  let t := (AttachMailbox (q_route q_key) (replicate 32 x01) t).1 in
  let '(t, r) := PollFrames 1 (q_route q_key) t in
  Some (wt_caps t, r, q_queue (wt_mod t) (q_route q_key), wt_logs t).
End Runs.

Example queue_runs : q_run (WM := q_inst false false) = Some ([str "message"; str "p2p"], Ok [str "one"], [str "two"], [str "sent"; str "sent"]).
Proof. vm_compute. reflexivity. Qed.

Example queue_runs_alloc : q_run (WM := q_inst true false) = q_run (WM := q_inst false false).
Proof. vm_compute. reflexivity. Qed.

#[local] Instance q_allocating : WasmModule qmod := q_inst true false.
#[local] Existing Instance q_view.
#[local] Instance q_laws_a : @WasmMemoryLaws qmod q_allocating := q_laws true.
#[local] Instance q_allocs_a : @WasmAllocLaws qmod q_allocating := q_allocs true.
#[local] Instance q_abi_a : @QueueABI qmod q_allocating q_view := q_abi true.

Definition q_running : WASMTransport qmod := mkWT q_manifest q_start 0 true [str "message"] [] [].
Definition q_to : RouteHint := mkRoute q_key [] [] [].

Lemma wasm_send_args_intact_witness : exists t1 p q,
  SendFrame (str "one") q_to q_running = sendCall (str "one") q_to p q t1 /\ touched q_start (wt_mod t1) /\ (p + 3 <= q \/ q + 32 <= p) /\
  wm_read (wt_mod t1) p 3 = Some (str "one") /\ wm_read (wt_mod t1) q 32 = Some q_key.
Proof.
  assert (isOk (SendFrame (str "one") q_to q_running).2 = true) as Hok by (vm_compute; reflexivity).
  assert (wm_hasMemory (wt_mod q_running) = true) as Hm by reflexivity.
  destruct (wasm_send_args_intact q_running (str "one") q_to Hm) as (t1 & Ht & [(p & q & E & Hd & Hp & Hq)|(e & E)]).
  - exists t1, p, q. split; [exact E|]. split; [exact Ht|]. split; [exact Hd|]. split; [exact Hp|exact Hq].
  - rewrite E in Hok. discriminate.
Defined.

Definition q_two : WASMTransport qmod := mkWT q_manifest (mkQ ∅ {[q_route q_key := [str "one"; str "two"]]} ∅ false) 0 true [str "message"] [] [].

Lemma wasm_poll_agrees_witness :
  PollFrames 2 (q_route q_key) q_two = (blob ← pollBlob 2 (q_route q_key); lift (wrapErr pollErr (Host.ParsePollBlob blob))) q_two /\
  (PollFrames 2 (q_route q_key) q_two).2 = Ok [str "one"; str "two"].
Proof. split; [exact (proj1 (wasm_poll_agrees 2 (q_route q_key) q_two))|vm_compute; reflexivity]. Defined.

Lemma wasm_queue_is_honest_witness :
  @HonestMail _ wasmView (fun _ => as_frames (fun _ => [])) wasmBoot /\ @sound _ wasmView q_running.
Proof. split; [exact (wasm_queue_is_honest (fun _ => []))|]. split; [reflexivity|]. intros mid. apply List.Forall_nil. Defined.

(** The number of frames asked for is passed on to the module and not checked: one
    that hands out everything is believed. *)
Lemma poll_limit_not_enforced :
  (@PollFrames _ (q_inst false true) 1 (q_route q_key) q_two).2 = Ok [str "one"; str "two"].
Proof. vm_compute. reflexivity. Qed.

(** What a new transport says it can, it knows. *)
Lemma addCaps_known id words : forall caps caps', addCaps id words caps = Ok caps' -> Forall (fun c => c ∈ Manager.KnownCapabilities) caps -> Forall (fun c => c ∈ Manager.KnownCapabilities) caps'.
Proof.
  induction words as [|c words IH]; intros caps caps' H Hc; cbn [addCaps] in H; [by injection H as <-|]. cbv zeta in H.
  destruct (bytes_eqb _ []); [by eapply IH|]. case_bool_decide; [|done]. eapply IH; [exact H|]. apply Forall_app. split; [done|]. by constructor.
Qed.

Theorem wasm_capabilities_known {M} `{WM : WasmModule M} {C} hostModule compile (inst : C -> bytes -> option M) code mf config t :
  NewWASMTransport hostModule compile inst code mf config = Ok t ->
  Capabilities t ≠ [] /\ Forall (fun c => c ∈ Manager.KnownCapabilities) (Capabilities t).
Proof.
  unfold NewWASMTransport. intros Hn. apply Prelude.bind_Ok in Hn as (? & _ & Hn). apply Prelude.bind_Ok in Hn as (? & _ & Hn). apply Prelude.bind_Ok in Hn as (m & _ & Hn).
  destruct (initModule _ _ _) as [t' r] eqn:Hi. apply Prelude.bind_Ok in Hn as (u & -> & Hn). injection Hn as ->. unfold initModule in Hi. run_inv.
  injection Hi as <- _. bool_prop. split; [done|]. by eapply addCaps_known.
Qed.
