(* ===== verification/Front.v ===== *)
(** * What the command-line front ends share ([internal/registry/state.go])

    A front end works on objects behind pointers: clients, mailboxes, fan-outs.
    Two variables can hold the same one and keep doing so when one of them is
    reassigned, so the [World] keeps the objects apart from what refers to them
    ([loc]).  Around them are the profiles and the files, the lines typed, what was
    printed, and the [State] of an interactive shell.  Printed text is kept
    without its colours; an error is kept as the error that was formatted. *)
From S2P Require Import Prelude Steps GoStd Sha256 External SecurePeer Session Engine Client Codec Frame Binstore Records MultiMsg MultiStore Fanout Mailbox Contacts Dispatch.
From S2P Require Import Registry Transport Ops OpsFrames.
#[local] Open Scope Z_scope.

Module Front.
Import Ops Frames Steps.

(** ** Errors and output *)
Inductive front_err :=
| NotFrame | NoStores | GroupErr (e : fo_err) | ClientErr (e : client_err) | MailboxErr (e : Mailbox.mailbox_err) | HandshakeFrame (name : bytes)
| UsageErr (usage : bytes) | NoContext (ref : bytes) | InvalidPeer (id : bytes) | UnknownAction (sub : bytes) | UnknownSub (sub : bytes)
| PeerErr (e : Registry.reg_err) | NoMailbox | NoMatch (arg : bytes) | LoadErr (id : bytes) | StoresErr (e : ms_err) | StoreErr (e : ms_err)
| NoRecipients (name : bytes) | RelayErr | StatErr | ReadErr | NoInput | DecodeErr (enc : bytes) | ContainerErr (e : frame_error)
| DirErr | WriteErr (path : bytes) | FormatErr (f : bytes) | EncodingErr (enc : bytes) | EnvelopeErr | NothingPasted | BadBase64 | BinaryOut (n : Z)
| StdoutErr | UnknownCommand.

(** The documents of [--format json], as the values given to [json.Marshal]. *)
Inductive document :=
| DocError (e : front_err)
| DocResult (r : FanoutResult)
| DocContexts (l : list (bytes * bytes * Z * bytes))
| DocInit (id : bytes)
| DocOffer (remotePeer envelope encoding : bytes)
| DocAccept (envelope encoding : bytes)
| DocFinish (peerID : bytes)
| DocDecrypt (sender encoding message : bytes).

Inductive line :=
| Plain (text : bytes)         (* [fmt.Print...] *)
| Success (text : bytes) | Info (text : bytes) | Mail (text : bytes)     (* [ui.Successf], [ui.Infof], [ui.Mailf] *)
| Problem (e : front_err)      (* [ui.Errorf], [ui.Warnf], a printed error *)
| Stderr (text : bytes)
| Raw (data : bytes)           (* [os.Stdout.Write] *)
| Doc (d : document).

(** ** The world *)
Record Fan := mkFan { fn_client : loc; fn_relay : bool; fn_fanout : Fanout contexts deliveries }.

(** [registry.State]; [Worker] tells whether a relay is attached.  Its two stores
    are those of its fan-out. *)
Record State := mkState {
  KnownPeers : Registry.set;
  ActiveClient : option loc;
  MailboxStore : option loc;
  FanoutAt : option loc;
  Worker : bool;
}.

Record World := mkWorld {
  w_clients : gmap loc Client;
  w_mailboxes : gmap loc Mailbox.Store;
  w_fans : gmap loc Fan;
  w_next : loc;                      (* every object is below *)
  w_profiles : gmap bytes Client;    (* [<id>.json] *)
  w_disk : fs;                       (* the stores and the user's files *)
  w_typed : list bytes;              (* the lines a scanner will read *)
  w_out : list line;
  w_sent : list sending;             (* handed to the relay *)
  w_state : State;
}.

Abbreviation M A := (Step World front_err A).

Definition set_clients (m : gmap loc Client) (n : loc) (w : World) : World :=
  mkWorld m (w_mailboxes w) (w_fans w) n (w_profiles w) (w_disk w) (w_typed w) (w_out w) (w_sent w) (w_state w).
Definition set_mailboxes (m : gmap loc Mailbox.Store) (n : loc) (w : World) : World :=
  mkWorld (w_clients w) m (w_fans w) n (w_profiles w) (w_disk w) (w_typed w) (w_out w) (w_sent w) (w_state w).
Definition set_fans (m : gmap loc Fan) (n : loc) (w : World) : World :=
  mkWorld (w_clients w) (w_mailboxes w) m n (w_profiles w) (w_disk w) (w_typed w) (w_out w) (w_sent w) (w_state w).
Definition set_profiles (m : gmap bytes Client) (w : World) : World :=
  mkWorld (w_clients w) (w_mailboxes w) (w_fans w) (w_next w) m (w_disk w) (w_typed w) (w_out w) (w_sent w) (w_state w).
Definition set_disk (d : fs) (w : World) : World :=
  mkWorld (w_clients w) (w_mailboxes w) (w_fans w) (w_next w) (w_profiles w) d (w_typed w) (w_out w) (w_sent w) (w_state w).
Definition set_typed (l : list bytes) (w : World) : World :=
  mkWorld (w_clients w) (w_mailboxes w) (w_fans w) (w_next w) (w_profiles w) (w_disk w) l (w_out w) (w_sent w) (w_state w).
Definition set_out (l : list line) (w : World) : World :=
  mkWorld (w_clients w) (w_mailboxes w) (w_fans w) (w_next w) (w_profiles w) (w_disk w) (w_typed w) l (w_sent w) (w_state w).
Definition set_sent (l : list sending) (w : World) : World :=
  mkWorld (w_clients w) (w_mailboxes w) (w_fans w) (w_next w) (w_profiles w) (w_disk w) (w_typed w) (w_out w) l (w_state w).
Definition set_state (s : State) (w : World) : World :=
  mkWorld (w_clients w) (w_mailboxes w) (w_fans w) (w_next w) (w_profiles w) (w_disk w) (w_typed w) (w_out w) (w_sent w) s.

Definition set_KnownPeers (m : Registry.set) (s : State) : State := mkState m (ActiveClient s) (MailboxStore s) (FanoutAt s) (Worker s).
Definition set_ActiveClient (l : loc) (s : State) : State := mkState (KnownPeers s) (Some l) (MailboxStore s) (FanoutAt s) (Worker s).
Definition set_MailboxStore (l : option loc) (s : State) : State := mkState (KnownPeers s) (ActiveClient s) l (FanoutAt s) (Worker s).
Definition set_FanoutAt (l : loc) (s : State) : State := mkState (KnownPeers s) (ActiveClient s) (MailboxStore s) (Some l) (Worker s).

(** [NewState] *)
Definition NewState : State := mkState ∅ None None None false.

(** ** What a command gets from outside *)
Record input := mkInput { in_stat : bool; in_terminal : bool; in_data : option bytes }.

Record frontEnv := mkFrontEnv {
  fe_io : nat -> storeIO;                  (* the stores and maps, by use *)
  fe_save : bool;                          (* writing a profile succeeds *)
  fe_context : bytes;                      (* a new group's ID *)
  fe_send : sendEnv; fe_relay : nat -> bool;   (* a fan-out, and its relay if it has one *)
  fe_ed : bytes; fe_dil : bytes;           (* a new identity's keys *)
  fe_peer : PeerRand; fe_offer : bytes;    (* an offer's keys and ID *)
  fe_encaps : bytes; fe_rand : bytes;      (* an answer's, and those of [Encrypt] *)
  fe_now : Z; fe_nanos : Z; fe_millis : Z;
  fe_contacts : faults; fe_order : Contacts.Store -> list (bytes * Contact);
  fe_stdin : input;
  fe_tty : bool;                           (* the standard output is a terminal *)
  fe_stdout : bool;                        (* writing to it succeeds *)
  fe_mkdir : bool; fe_write : bytes -> written;
  fe_connect : option bool;                (* a relay provider fails, or gives no relay or one *)
  fe_readdir : bool;                       (* listing the working directory succeeds *)
}.

(** Texts and times the sources leave to the standard library. *)
Class FrontText := {
  ft_fold : bytes -> bytes -> bool;        (* [strings.EqualFold] outside ASCII *)
  ft_sendError : DeliveryResult -> bytes;  (* [Error.Error()] of a failed delivery *)
  ft_day : Z -> bytes; ft_clock : Z -> bytes; ft_when : Z -> bytes;   (* a time in three formats *)
}.

Section Front.
Context `{N : Nanopack} `{P : Prims} `{J : LegacyJSON} `{R : RecordStore} `{X : Surroundings} `{FT : FrontText}.
Context (env : frontEnv).

Definition print (l : line) : M unit := modify (fun w => set_out (w_out w ++ [l]) w).

Fixpoint prints (l : list line) : M unit :=
  match l with [] => mret tt | x :: l => _ ← print x; prints l end.

(** ** Objects *)
Definition newClient (c : Client) : M loc := fun w => (set_clients (<[w_next w := c]> (w_clients w)) (S (w_next w)) w, Ok (w_next w)).
Definition newMailbox (s : Mailbox.Store) : M loc := fun w => (set_mailboxes (<[w_next w := s]> (w_mailboxes w)) (S (w_next w)) w, Ok (w_next w)).
Definition newFan (f : Fan) : M loc := fun w => (set_fans (<[w_next w := f]> (w_fans w)) (S (w_next w)) w, Ok (w_next w)).

(** Following a pointer. *)
Definition clientAt (l : loc) : M Client := c ← gets (fun w => w_clients w !! l); match c with Some c => mret c | None => lift Panic end.
Definition mailboxAt (l : loc) : M Mailbox.Store := s ← gets (fun w => w_mailboxes w !! l); match s with Some s => mret s | None => lift Panic end.
Definition fanAt (l : loc) : M Fan := f ← gets (fun w => w_fans w !! l); match f with Some f => mret f | None => lift Panic end.

(** The file of a client is the profile, whichever object wrote it. *)
Definition refresh (w : World) (c : Client) : Client := Client.set_disk (p ← w_profiles w !! cl_Id c; cl_disk p) c.

Definition putClient (l : loc) (c : Client) (w : World) : World :=
  let w := set_clients (<[l := c]> (w_clients w)) (w_next w) w in
  match cl_disk c with Some _ => set_profiles (<[cl_Id c := c]> (w_profiles w)) w | None => w end.

(** A method on a client. *)
Definition onClient {E A} (err : E -> front_err) (l : loc) (f : Client -> Client * res E A) : M A := fun w =>
  match w_clients w !! l with
  | None => (w, Panic)
  | Some c => let '(c, r) := f (refresh w c) in (putClient l c w, wrapErr err r)
  end.

(** A method on a mailbox: the store writes to the common disk. *)
Definition onMailbox {A} (l : loc) (f : Mailbox.Store -> Mailbox.Store * res Mailbox.mailbox_err A) : M A := fun w =>
  match w_mailboxes w !! l with
  | None => (w, Panic)
  | Some s =>
      let '(s, r) := f (set_storeDisk (w_disk w) s) in
      (set_disk (Mailbox.disk s) (set_mailboxes (<[l := s]> (w_mailboxes w)) (w_next w) w), wrapErr MailboxErr r)
  end.

(** The stores of a fan-out over a disk, and the disk they leave. *)
Definition withDisk (d : fs) (f : Fanout contexts deliveries) : Fanout contexts deliveries :=
  set_deliveries (match fo_deliveryStore f with inr s => inr (set_deliveriesDisk d s) | s => s end)
    (set_CtxStore (match CtxStore f with inr s => inr (File.set_disk d s) | s => s end) f).

Definition diskOf (base : fs) (f : Fanout contexts deliveries) : fs :=
  let cur := match CtxStore f with inr s => patch base (File.disk s) base | inl _ => base end in
  match fo_deliveryStore f with inr s => patch base (fd_disk s) cur | inl _ => cur end.

Definition putFan (l : loc) (fn : Fan) (f : Fanout contexts deliveries) (w : World) : World :=
  let d := diskOf (w_disk w) f in
  set_disk d (putClient (fn_client fn) (fo_client f) (set_fans (<[l := mkFan (fn_client fn) (fn_relay fn) f]> (w_fans w)) (w_next w) w)).

(** A method on a fan-out, with the client it points to; what it hands to the relay
    is kept. *)
Definition onFanSend {A} (l : loc) (f : Fanout contexts deliveries -> Fanout contexts deliveries * list sending * res fo_err A) : M A := fun w =>
  match fn ← w_fans w !! l; c ← w_clients w !! fn_client fn; Some (fn, c) with
  | None => (w, Panic)
  | Some (fn, c) =>
      let '(f, sent, r) := f (withDisk (w_disk w) (set_client (refresh w c) (fn_fanout fn))) in
      (set_sent (w_sent w ++ sent) (putFan l fn f w), wrapErr GroupErr r)
  end.

Definition onFan {A} (l : loc) (f : Fanout contexts deliveries -> Fanout contexts deliveries * res fo_err A) : M A :=
  onFanSend l (fun fo => let '(fo, r) := f fo in (fo, [], r)).

(** A look at a fan-out's groups. *)
Definition ctxStore (l : loc) : M contexts := fn ← fanAt l; mret (CtxStore (fn_fanout fn)).

(** ** client: [NewClient], [LoadClient] *)
Definition NewClient_ : M loc := fun w =>
  let c := NewClient (fe_save env) (fe_ed env) (fe_dil env) in
  let '(w, r) := newClient c w in
  match r with Ok l => (putClient l c w, Ok l) | _ => (w, r) end.

Definition LoadClient_ (id : bytes) : M loc :=
  p ← gets (fun w => w_profiles w !! id);
  c ← lift (ofOption (LoadErr id) (p ≫= LoadClient));
  newClient c.

(** ** The stores of an identity *)
Definition OpenStores (i : nat) (id : bytes) : M (File.FileContextStore * FileDeliveryStore) := fun w =>
  match OpenIdentityStores ex_contexts ex_policies ex_deliveries (fe_io env i) (fe_io env (S i)) id (w_disk w) with
  | Ok (cs, ds) => (set_disk (fd_disk ds) w, Ok (cs, ds))
  | Err e => (w, Err (StoresErr e))
  | Panic => (w, Panic)
  end.

Definition LoadMailbox (i : nat) (id : bytes) : M loc :=
  s ← (fun w => match Mailbox.Load ex_threads (fe_io env i) id (w_disk w) with
                | Ok s => (set_disk (Mailbox.disk s) w, Ok s)
                | Err e => (w, Err (MailboxErr e))
                | Panic => (w, Panic)
                end);
  newMailbox s.

(** A fan-out over the stores of an identity. *)
Definition newFanFor (cl : loc) (relay : bool) (cs : contexts) (ds : deliveries) : M loc :=
  c ← clientAt cl; newFan (mkFan cl relay (NewFanout c cs ds DefaultFanoutConfig)).

(** ** state.go *)
Definition InitMailbox : M unit :=
  s ← gets w_state;
  match ActiveClient s with
  | None => modify (fun w => set_state (set_MailboxStore None (w_state w)) w)
  | Some cl =>
      c ← clientAt cl;
      x ← attempt (LoadMailbox 0 (cl_Id c));
      modify (fun w => set_state (set_MailboxStore (match x with inr l => Some l | inl _ => None end) (w_state w)) w)
  end.

Definition InitFanout : M unit :=
  s ← gets w_state;
  match ActiveClient s with
  | None => mret tt
  | Some cl =>
      c ← clientAt cl;
      x ← attempt (OpenStores 1 (cl_Id c));
      l ← (match x with
           | inr (cs, ds) => newFanFor cl (Worker s) (inr cs) (inr ds)
           | inl _ => newFanFor cl (Worker s) (inl Memory.NewMemoryContextStore) (inl noDeliveries)
           end);
      modify (fun w => set_state (set_FanoutAt l (w_state w)) w)
  end.

(** ** peers.go over the state of a shell *)
Definition peersView (w : World) : Registry.State :=
  let s := w_state w in
  Registry.mkState (KnownPeers s) (l ← MailboxStore s; w_mailboxes w !! l) (l ← ActiveClient s; w_clients w !! l).

Definition onPeers (f : Registry.State -> Registry.State) : M unit :=
  modify (fun w => set_state (set_KnownPeers (Registry.KnownPeers (f (peersView w))) (w_state w)) w).

Definition RememberPeer (id : bytes) : M unit := onPeers (fun s => Registry.RememberPeer s id).
Definition SyncPeersFromClient : M unit := onPeers (Registry.SyncPeersFromClient (fe_io env 3)).

(** [contacts.Load] *)
Definition contactBook : M (option Contacts.Store) := fun w =>
  let '(d, r) := Contacts.Load ex_contacts (fe_contacts env) (fe_order env) (w_disk w) in
  let w := set_disk d w in
  match r with Ok b => (w, Ok (Some b)) | Err _ => (w, Ok None) | Panic => (w, Panic) end.

Definition ResolvePeer (arg : bytes) : M bytes :=
  book ← (if bytes_eqb (trimSpace arg) [] then mret None else contactBook);
  w ← gets id;
  lift (wrapErr PeerErr (Registry.ResolvePeer (fe_io env 4) book (peersView w) arg)).

(** [ContextCandidates]: the groups as completion offers them. *)
Definition addContext (m : Registry.set) (c : MessageContext) : Registry.set :=
  let m := <[mc_ContextID c := true]> m in
  if negb (bytes_eqb (mc_DisplayName c) []) then <[mc_DisplayName c := true]> m else m.

Definition ContextCandidates : M (list bytes) :=
  s ← gets w_state;
  match FanoutAt s with
  | None => mret []
  | Some l =>
      st ← ctxStore l;
      mret (Registry.sortedKeys (fe_io env 5) (fold_left addContext (ListContexts (fe_io env 5) st) ∅))
  end.

(** ** Typed and piped input *)

(** [scanner.Scan(); scanner.Text()] *)
Definition scan : M bytes := fun w =>
  match w_typed w with [] => (w, Ok []) | l :: rest => (set_typed rest w, Ok l) end.

(** [os.ReadFile], [io.ReadAll(os.Stdin)] *)
Definition readFile (p : bytes) : M bytes := d ← gets (fun w => w_disk w !! p); lift (ofOption ReadErr d).
Definition readStdin : M bytes := lift (ofOption ReadErr (in_data (fe_stdin env))).

(** [os.WriteFile] *)
Definition writeFile (p data : bytes) : M unit :=
  match fe_write env p with
  | Written => modify (fun w => set_disk (<[p := data]> (w_disk w)) w)
  | NotOpened => fail (WriteErr p)
  | Truncated rest => _ ← modify (fun w => set_disk (<[p := rest]> (w_disk w)) w); fail (WriteErr p)
  end.

(** [os.Stdout.Write] *)
Definition stdout (l : line) : M unit := if fe_stdout env then print l else fail StdoutErr.

(** [strings.EqualFold] *)
Definition EqualFold (a b : bytes) : bool :=
  if (forallb isASCII a && forallb isASCII b)%bool then bytes_eqb (lowerByte <$> a) (lowerByte <$> b) else ft_fold a b.

End Front.
End Front.
