(* ===== verification/FrontFacts.v ===== *)
(** * Facts about the front ends' world

    What a method on an object leaves behind, and that a store of either kind keeps
    the laws of a group store when both kinds do. *)
From S2P Require Import Prelude Steps GoStd Sha256 External SecurePeer Session Engine Client Codec Frame Binstore Records MultiMsg MultiStore MultiStoreTheorems Fanout Mailbox Contacts Dispatch.
From S2P Require Import Registry Transport Ops OpsFrames Front.
#[local] Open Scope Z_scope.

(** ** A store of either kind *)
#[export] Instance sum_store_laws {A B : Type} `{!ContextStore A} `{!ContextStore B} `{!ContextStoreLaws A} `{!ContextStoreLaws B} : ContextStoreLaws (A + B).
Proof.
  refine {| cs_contexts s := match s with inl a => cs_contexts a | inr b => cs_contexts b end;
            cs_policies s := match s with inl a => cs_policies a | inr b => cs_policies b end |};
    cbn [SaveContext LoadContext SavePolicy LoadPolicy DeletePolicy DeleteContext ListPolicies sum_contexts].
  - intros [a|b] id; apply cs_load.
  - intros [a|b] c r; apply cs_loadPolicy.
  - intros io [a|b] c; apply cs_listPolicies.
  - intros io [a|b] c s' r; [destruct (SaveContext io a c) eqn:E|destruct (SaveContext io b c) eqn:E]; intros [= <- <-]; by apply cs_save in E.
  - intros io [a|b] c s'; [destruct (SaveContext io a c) eqn:E|destruct (SaveContext io b c) eqn:E]; intros [= <- ->]; by apply cs_save_no_panic in E.
  - intros io [a|b] c s' r; [destruct (SaveContext io a c) eqn:E|destruct (SaveContext io b c) eqn:E]; intros [= <- <-] Hn; by eapply cs_save_newer in E.
  - intros io [a|b] p s' r; [destruct (SavePolicy io a p) eqn:E|destruct (SavePolicy io b p) eqn:E]; intros [= <- <-]; by apply cs_savePolicy in E.
  - intros io [a|b] c q s' r; [destruct (DeletePolicy io a c q) eqn:E|destruct (DeletePolicy io b c q) eqn:E]; intros [= <- <-]; by apply cs_deletePolicy in E.
  - intros io [a|b] c s' r; [destruct (DeleteContext io a c) eqn:E|destruct (DeleteContext io b c) eqn:E]; intros [= <- <-]; by apply cs_deleteContext in E.
Defined.

Module FrontFacts.
Import Ops Frames Front Steps.

Section Facts.
Context `{N : Nanopack} `{P : Prims} `{J : LegacyJSON} `{R : RecordStore} `{X : Surroundings} `{FT : FrontText}.
Implicit Types w : World.

(** ** Where things are after a write *)
Lemma putClient_eq l c w :
  w_clients (putClient l c w) = <[l := c]> (w_clients w) /\ w_mailboxes (putClient l c w) = w_mailboxes w /\
  w_fans (putClient l c w) = w_fans w /\ w_disk (putClient l c w) = w_disk w /\ w_out (putClient l c w) = w_out w /\
  w_state (putClient l c w) = w_state w /\ w_sent (putClient l c w) = w_sent w /\ w_typed (putClient l c w) = w_typed w /\
  w_next (putClient l c w) = w_next w.
Proof. unfold putClient. by destruct (cl_disk c). Qed.

Lemma putFan_eq l fn f w :
  w_clients (putFan l fn f w) = <[fn_client fn := fo_client f]> (w_clients w) /\
  w_fans (putFan l fn f w) = <[l := mkFan (fn_client fn) (fn_relay fn) f]> (w_fans w) /\
  w_mailboxes (putFan l fn f w) = w_mailboxes w /\ w_out (putFan l fn f w) = w_out w /\ w_state (putFan l fn f w) = w_state w.
Proof.
  unfold putFan. cbn [set_disk w_clients w_fans w_mailboxes w_out w_state].
  destruct (putClient_eq (fn_client fn) (fo_client f) (set_fans (<[l := mkFan (fn_client fn) (fn_relay fn) f]> (w_fans w)) (w_next w) w))
    as (-> & -> & -> & _ & -> & -> & _). done.
Qed.

(** ** Runs of methods *)
Lemma onFanSend_run {A} l fn c (f : Fanout contexts deliveries -> Fanout contexts deliveries * list sending * res fo_err A) w fo sent r :
  w_fans w !! l = Some fn -> w_clients w !! fn_client fn = Some c ->
  f (withDisk (w_disk w) (set_client (refresh w c) (fn_fanout fn))) = (fo, sent, r) ->
  onFanSend l f w = (set_sent (w_sent w ++ sent) (putFan l fn fo w), wrapErr GroupErr r).
Proof. intros Hf Hc Hr. unfold onFanSend. rewrite Hf. cbn [mbind option_bind]. rewrite Hc. cbn [mbind option_bind]. by rewrite Hr. Qed.

Lemma onFan_run {A} l fn c (f : Fanout contexts deliveries -> Fanout contexts deliveries * res fo_err A) w fo r :
  w_fans w !! l = Some fn -> w_clients w !! fn_client fn = Some c ->
  f (withDisk (w_disk w) (set_client (refresh w c) (fn_fanout fn))) = (fo, r) ->
  onFan l f w = (set_sent (w_sent w ++ []) (putFan l fn fo w), wrapErr GroupErr r).
Proof. intros Hf Hc Hr. eapply onFanSend_run; [done|done|]. by rewrite Hr. Qed.

Lemma onClient_run {E A} (err : E -> front_err) l c (f : Client -> Client * res E A) w c' r :
  w_clients w !! l = Some c -> f (refresh w c) = (c', r) -> onClient err l f w = (putClient l c' w, wrapErr err r).
Proof. intros Hc Hr. unfold onClient. by rewrite Hc, Hr. Qed.

Lemma onMailbox_run {A} l s (f : Mailbox.Store -> Mailbox.Store * res Mailbox.mailbox_err A) w s' r :
  w_mailboxes w !! l = Some s -> f (set_storeDisk (w_disk w) s) = (s', r) ->
  onMailbox l f w = (set_disk (Mailbox.disk s') (set_mailboxes (<[l := s']> (w_mailboxes w)) (w_next w) w), wrapErr MailboxErr r).
Proof. intros Hs Hr. unfold onMailbox. by rewrite Hs, Hr. Qed.

Lemma clientAt_run l c w : w_clients w !! l = Some c -> clientAt l w = (w, Ok c).
Proof. intros H. unfold clientAt, gets, mbind, Step_bind. by rewrite H. Qed.

Lemma mailboxAt_run l s w : w_mailboxes w !! l = Some s -> mailboxAt l w = (w, Ok s).
Proof. intros H. unfold mailboxAt, gets, mbind, Step_bind. by rewrite H. Qed.

Lemma fanAt_run l f w : w_fans w !! l = Some f -> fanAt l w = (w, Ok f).
Proof. intros H. unfold fanAt, gets, mbind, Step_bind. by rewrite H. Qed.

Lemma ctxStore_run l f w : w_fans w !! l = Some f -> ctxStore l w = (w, Ok (CtxStore (fn_fanout f))).
Proof. intros H. unfold ctxStore. by rewrite (bind_run _ _ _ _ _ (fanAt_run _ _ _ H)). Qed.

Lemma prints_run l : forall w, prints l w = (set_out (w_out w ++ l) w, Ok tt).
Proof.
  induction l as [|x l IH]; intros w.
  - cbn [prints]. unfold mret, Step_ret. rewrite app_nil_r. by destruct w.
  - cbn [prints]. erewrite bind_run by reflexivity. rewrite IH. cbn [set_out w_out]. by rewrite <- app_assoc.
Qed.

(** ** The client and the stores a method sees *)
Lemma refresh_same w c : cl_Id (refresh w c) = cl_Id c /\ cl_Sessions (refresh w c) = cl_Sessions c /\ cl_heap (refresh w c) = cl_heap c /\
  cl_IdentityPrivate (refresh w c) = cl_IdentityPrivate c.
Proof. done. Qed.

Lemma withDisk_client d f : fo_client (withDisk d f) = fo_client f.
Proof. done. Qed.

Lemma withDisk_load d f id : LoadContext (CtxStore (withDisk d f)) id = LoadContext (CtxStore f) id.
Proof. unfold withDisk. cbn [CtxStore set_deliveries set_CtxStore]. by destruct (CtxStore f). Qed.

Lemma withDisk_policies d f io id : ListPolicies io (CtxStore (withDisk d f)) id = ListPolicies io (CtxStore f) id.
Proof. unfold withDisk. cbn [CtxStore set_deliveries set_CtxStore]. by destruct (CtxStore f). Qed.

End Facts.
End FrontFacts.
