(* ===== verification/GroupChat.v ===== *)
(** * internal/groupchat: the group commands of every transport
    ([ingest.go], [gui.go], [view.go], [cli.go])

    The commands [context], [send-multi], [contexts] and [mailbox] of the shells and
    their command-line forms, and [Ingest], which takes in what a user pasted.  The
    command-line library, which parses flags and calls these functions, is left
    out. *)
From S2P Require Import Prelude Steps GoStd Sha256 External SecurePeer Session Engine Client Codec Frame Binstore Records MultiMsg MultiStore Fanout Mailbox Contacts Dispatch.
From S2P Require Import Registry Transport Ops OpsFrames Front.
#[local] Open Scope Z_scope.

Module GroupChat.
Import Ops Frames Front Steps.

(** [IngestEvent] *)
Record IngestEvent := mkIngest { ie_Kind : bytes; ie_Sender : bytes; ie_Context : bytes; ie_ContextID : bytes; ie_Message : bytes }.

(** ** Texts *)
Definition contextSubcommands : list bytes :=
  [str "create"; str "list"; str "show"; str "rename"; str "add"; str "exclude"; str "remove"; str "include"; str "mute"; str "block"; str "members"].

Definition contextPeerSubcommands : list bytes := [str "add"; str "exclude"; str "remove"; str "include"; str "mute"; str "block"].

Definition oneOf (s : bytes) (l : list bytes) : bool := bool_decide (s ∈ l).

Definition Handles (cmd : bytes) : bool := oneOf cmd [str "context"; str "send-multi"; str "contexts"; str "mailbox"].

Definition policyForSub (sub : bytes) : option RecipientPolicy :=
  if oneOf sub [str "add"; str "include"] then Some PolicyEnabled else
  if oneOf sub [str "exclude"; str "remove"] then Some PolicyExcluded else
  if bytes_eqb sub (str "mute") then Some PolicyMuted else
  if bytes_eqb sub (str "block") then Some PolicyBlocked else None.

Definition verbForSub (sub : bytes) : bytes :=
  if bytes_eqb sub (str "add") then str "Added" else
  if bytes_eqb sub (str "include") then str "Re-enabled" else
  if oneOf sub [str "exclude"; str "remove"] then str "Excluded" else
  if bytes_eqb sub (str "mute") then str "Muted" else
  if bytes_eqb sub (str "block") then str "Blocked" else sub.

Definition plural (n : Z) : bytes := if n =? 1 then [] else str "s".

Definition PolicyIcon (p : RecipientPolicy) : bytes :=
  if p =? PolicyEnabled then str "✓" else if p =? PolicyMuted then str "~" else
  if p =? PolicyBlocked then str "✗" else if p =? PolicyExcluded then str "⊘" else str "?".

Definition joinWords (l : list bytes) : bytes := joinWith (str " ") l.

(** [strings.TrimRight(s, newline)], [strings.ReplaceAll(s, newline, by)] *)
Fixpoint dropNewlines (s : bytes) : bytes := match s with x0a :: s => dropNewlines s | _ => s end.
Definition trimNewlines (s : bytes) : bytes := rev (dropNewlines (rev s)).
Definition replaceNewlines (by_ s : bytes) : bytes := s ≫= (fun b => if bool_decide (b = x0a) then by_ else [b]).

Definition decodeText (pt : bytes) : bytes := if utf8Valid pt then pt else b64Encode pt.

Definition shortDisplay (id : bytes) : bytes := if 12 <? len id then take 9 id ++ str "..." else id.

Definition plausiblyPeerID (arg : bytes) : bool :=
  ((32 <=? len arg) && negb (List.existsb (fun b => bool_decide (b = x20) || bool_decide (b = x09))%bool arg))%bool.

Definition hint : line := Plain (str "  Please 'init' or 'load' an identity first.").

Definition contextUsage : bytes := str "context <create|list|show|rename|add|exclude|remove|include|mute|block|members> ...".

Section GroupChat.
Context `{N : Nanopack} `{P : Prims} `{J : LegacyJSON} `{R : RecordStore} `{X : Surroundings} `{FT : FrontText} `{CJ : ContainerJSON}.
Context (env : frontEnv).

(** ** ingest.go *)
Definition recordIncoming (mb : option loc) (f : Mailbox.Store -> Mailbox.Store * res Mailbox.mailbox_err unit) : M unit :=
  match mb with None => mret tt | Some l => onMailbox l f end.

Definition duplicate : IngestEvent := mkIngest (str "duplicate") [] [] [] [].

Definition ingestGroup (cl : loc) (mb fan : option loc) (payload : bytes) : M IngestEvent :=
  match fan with
  | None => fail NoStores
  | Some f =>
      c ← clientAt cl;
      x ← attempt (onFan f (fun fo => ProcessDelivery (fe_save env) (fe_io env 6) fo (cl_Id c) payload));
      match x with
      | inl (GroupErr (FoDuplicate | FoReplay _)) => mret duplicate
      | inl e => fail e
      | inr inbound =>
          let body := decodeText (im_Plaintext inbound) in
          let ctxID := InboundMessage_ContextID inbound in
          let name := InboundMessage_DisplayName inbound in
          _ ← recordIncoming mb (fun s => Mailbox.AppendGroupIncoming (fe_io env 7) (fe_nanos env) (fe_millis env) s ctxID name (im_Sender inbound) body);
          mret (mkIngest (str "group_message") (im_Sender inbound) name ctxID body)
      end
  end.

Definition ingestMessage (cl : loc) (mb : option loc) (payload : bytes) : M IngestEvent :=
  '(senderID, plain) ← onClient ClientErr cl (fun c => Client_Decrypt (fe_save env) c payload);
  let body := decodeText plain in
  _ ← recordIncoming mb (fun s => Mailbox.AppendIncoming (fe_io env 7) (fe_nanos env) (fe_millis env) s senderID body);
  mret (mkIngest (str "message") senderID [] [] body).

Definition Ingest (cl : loc) (mb fan : option loc) (raw : bytes) : M IngestEvent :=
  match DecodeContainer ex_uni raw with
  | Panic => lift Panic
  | Err _ => fail NotFrame
  | Ok (t, payload) =>
      match t with
      | x04 => ingestGroup cl mb fan payload
      | x03 => ingestMessage cl mb payload
      | _ => fail (HandshakeFrame (default [] (Names t)))
      end
  end.

(** ** gui.go: groups *)

(** [if err != nil { ui.Errorf(...); return }] *)
Definition orProblem {A} (m : M A) (k : A -> M unit) : M unit :=
  x ← attempt m; match x with inl e => print (Problem e) | inr a => k a end.

(** [state.ActiveClient.IdentityPrivate] *)
Definition activePrivate : M bytes :=
  s ← gets w_state;
  match ActiveClient s with None => lift Panic | Some l => c ← clientAt l; mret (cl_IdentityPrivate c) end.

Definition createContext (fan : loc) (name priv : bytes) : M MessageContext :=
  onFan fan (fun fo => CreateContext (fe_context env) (fe_io env 6) fo name priv).

Definition updateContext (fan : loc) (id : ContextID) (name priv : bytes) : M MessageContext :=
  onFan fan (fun fo => UpdateContext (fe_io env 6) fo id name priv).

Definition contextLine (st : contexts) (c : MessageContext) : line :=
  let n := len (ListPolicies (fe_io env 5) st (mc_ContextID c)) in
  Plain (concat [str "  "; mc_ContextID c; str "  v"; dec (mc_MetadataVersion c); str "  "; mc_DisplayName c; str "  (";
                 dec n; str " member"; plural n; str ")"]).

Definition listContexts (fan : loc) : M unit :=
  st ← ctxStore fan;
  match ListContexts (fe_io env 5) st with
  | [] => print (Info (str "No contexts."))
  | ctxs => _ ← print (Plain (str "❖ Contexts ❖")); prints (contextLine st <$> ctxs)
  end.

Definition ValidatePeerID (id : bytes) : res front_err unit := wrapErr (fun _ => InvalidPeer id) (_ ← PeerIDToEd25519Pub id; Ok tt).

Definition loadContext (st : contexts) (id : ContextID) : res front_err MessageContext := wrapErr (fun _ => NoContext id) (LoadContext st id).

Definition policyLine (opening closing : bytes) (p : LocalRecipientPolicy) : line :=
  Plain (concat [str "    "; PolicyIcon (lp_Policy p); str " "; Registry.ShortID (lp_Recipient p); str "  "; opening; policyString (lp_Policy p); closing]).

Definition orNone (policies : list LocalRecipientPolicy) : list line :=
  match policies with [] => [Plain (str "    (none configured)")] | _ => [] end.

Definition printContextDetail (meta : MessageContext) (policies : list LocalRecipientPolicy) : M unit :=
  prints ([Plain (concat [str "❖ Context: "; mc_DisplayName meta; str " ❖"]); Plain (str "  ID:      " ++ mc_ContextID meta);
           Plain (str "  Version: " ++ dec (mc_MetadataVersion meta)); Plain (str "  Creator: " ++ mc_CreatorID meta); Plain (str "  Members:")]
          ++ orNone policies ++ (policyLine (str "(") (str ")") <$> policies)).

Definition showContext (fan : loc) (id : ContextID) : M unit :=
  st ← ctxStore fan;
  orProblem (lift (loadContext st id)) (fun meta => printContextDetail meta (ListPolicies (fe_io env 5) st id)).

Definition printMembers (fan : loc) (id : ContextID) : M unit :=
  st ← ctxStore fan;
  orProblem (lift (loadContext st id)) (fun meta =>
    let policies := ListPolicies (fe_io env 5) st id in
    prints (Plain (concat [str "❖ Members of "; mc_DisplayName meta; str " ❖"]) :: orNone policies ++ (policyLine (str "[") (str "]") <$> policies))).

Definition setPolicy (fan : loc) (id : ContextID) (peer : bytes) (policy : RecipientPolicy) : M unit :=
  onFan fan (fun fo => SetRecipientPolicy (fe_now env) (fe_io env 6) fo id peer policy).

(** [context add|exclude|remove|include|mute|block] *)
Definition execPolicy (fan : loc) (sub id arg : bytes) : M unit :=
  st ← ctxStore fan;
  orProblem (lift (loadContext st id)) (fun _ =>
  orProblem (ResolvePeer env arg) (fun peerID =>
  orProblem (lift (ValidatePeerID peerID)) (fun _ =>
  orProblem (lift (ofOption (UnknownAction sub) (policyForSub sub))) (fun policy =>
  orProblem (setPolicy fan id peerID policy) (fun _ =>
    let done_ := concat [verbForSub sub; str " "; Registry.ShortID peerID; str " in context "; id] in
    print (Success (if policy =? PolicyEnabled then done_ else concat [done_; str " ("; policyString policy; str ")"]))))))).

Definition execContext (args : list bytes) : M unit :=
  s ← gets w_state;
  match FanoutAt s, args with
  | None, _ => print hint
  | _, [] => print (Plain (str "  Usage: " ++ contextUsage))
  | Some fan, sub :: rest =>
      if bytes_eqb sub (str "create") then
        match rest with
        | [] => print (Plain (str "  Usage: context create <name>"))
        | _ =>
            priv ← activePrivate;
            orProblem (createContext fan (joinWords rest) priv)
              (fun ctx => print (Success (concat [str "Context created: "; mc_DisplayName ctx; str " (ID: "; mc_ContextID ctx; str ")"])))
        end
      else if oneOf sub [str "list"; str "ls"] then listContexts fan
      else if bytes_eqb sub (str "show") then
        match rest with
        | [] => print (Plain (str "  Usage: context show <context_id>"))
        | id :: _ => showContext fan id
        end
      else if bytes_eqb sub (str "rename") then
        match rest with
        | id :: (_ :: _) as name =>
            priv ← activePrivate;
            orProblem (updateContext fan id (joinWords name) priv)
              (fun ctx => print (Success (concat [str "Context renamed: "; mc_DisplayName ctx; str " (v"; dec (mc_MetadataVersion ctx); str ")"])))
        | _ => print (Plain (str "  Usage: context rename <context_id> <new_name>"))
        end
      else if oneOf sub contextPeerSubcommands then
        match rest with
        | id :: arg :: _ => execPolicy fan sub id arg
        | _ => print (Plain (concat [str "  Usage: context "; sub; str " <context_id> <peer_id>"]))
        end
      else if bytes_eqb sub (str "members") then
        match rest with
        | [] => print (Plain (str "  Usage: context members <context_id>"))
        | id :: _ => printMembers fan id
        end
      else print (Problem (UnknownSub sub))
  end.

Definition execContextsList : M unit :=
  s ← gets w_state; match FanoutAt s with None => print hint | Some fan => listContexts fan end.

(** ** gui.go: sending *)
Definition ResolveContextRef (st : contexts) (ref : bytes) : res front_err (MessageContext * list LocalRecipientPolicy) :=
  let found meta := Ok (meta, ListPolicies (fe_io env 5) st (mc_ContextID meta)) in
  match LoadContext st ref with
  | Ok meta => found meta
  | Panic => Panic
  | Err _ =>
      match List.find (fun c => EqualFold (mc_DisplayName c) ref) (ListContexts (fe_io env 5) st) with
      | Some meta => found meta
      | None => Err (NoContext ref)
      end
  end.

(** The members a message goes to. *)
Definition reachable (policies : list LocalRecipientPolicy) : list bytes :=
  lp_Recipient <$> List.filter (fun p => negb (lp_Policy p =? PolicyBlocked) && negb (lp_Policy p =? PolicyExcluded))%bool policies.

Definition withRelay (b : bool) (e : sendEnv) : sendEnv :=
  mkSendEnv (se_io e) (se_msg e) (se_now e) (se_recip e) (se_save e) (if b then Some (fe_relay env) else None) (se_mark e).

Definition sendMulti (fan : loc) (id : ContextID) (plaintext : bytes) (recipients : list bytes) : M FanoutResult :=
  fn ← fanAt fan;
  onFanSend fan (fun fo => SendMultiMessage (withRelay (fn_relay fn) (fe_send env)) fo id plaintext recipients).

(** A delivery, with how its recipient is shown; [relayed] tells whether there is a
    relay. *)
Definition deliveryLine (relayed : bool) (show : bytes -> bytes) (d : DeliveryResult) : line :=
  let '(icon, status) :=
    match dr_Status d with
    | DeliverySent => (str "✓", if relayed then statusString DeliverySent else str "encrypted (export below)")
    | DeliveryPending => (str "~", statusString DeliveryPending ++ str " (no session)")
    | DeliveryFailed => (str "✗", if dr_Error d then statusString DeliveryFailed ++ str ": " ++ ft_sendError d else statusString DeliveryFailed)
    end in
  Plain (concat [str "    "; icon; str " "; show (dr_Recipient d); str "  "; status]).

Definition summaryLine (word : bytes) (r : FanoutResult) : line :=
  Plain (concat [str "  Summary: "; dec (SuccessCount r); str " "; word; str ", "; dec (PendingCount r); str " pending, "; dec (FailedCount r); str " failed"]).

(** The copies to hand over. *)
Definition exportable (r : FanoutResult) : list (bytes * bytes) :=
  omap (fun d => match dr_Status d, dr_Ciphertext d with
                 | DeliverySent, Some ((_ :: _) as ct) => Some (dr_Recipient d, ct)
                 | _, _ => None
                 end) (fr_Deliveries r).

Fixpoint exportCopies (n : Z) (l : list (bytes * bytes)) : M Z :=
  match l with
  | [] => mret n
  | (recipient, ct) :: l =>
      match EncodeContainer TypeMultiMsg ct with
      | Ok container =>
          _ ← print (Plain (concat [str "  ▸ DELIVER TO "; Registry.ShortID recipient; str " ◂"]));
          _ ← print (Plain container);
          exportCopies (n + 1) l
      | Err e => _ ← print (Problem (ContainerErr e)); exportCopies n l
      | Panic => lift Panic
      end
  end.

Definition recordOutgoing (mb : option loc) (meta : MessageContext) (message : bytes) : M unit :=
  match mb with
  | None => mret tt
  | Some l =>
      orProblem (onMailbox l (fun s => Mailbox.AppendGroupOutgoing (fe_io env 7) (fe_nanos env) (fe_millis env) s (mc_ContextID meta) (mc_DisplayName meta) message))
        (fun _ => mret tt)
  end.

Definition reportSend (relayed : bool) (meta : MessageContext) (result : FanoutResult) : M unit :=
  _ ← prints ([Plain (concat [str "❖ Multi-message: "; fr_MessageID result; str " ❖"]);
               Plain (concat [str "  Context: "; mc_DisplayName meta; str " ("; mc_ContextID meta; str ")"]); Plain (str "  Deliveries:")]
              ++ (deliveryLine relayed Registry.ShortID <$> fr_Deliveries result)
              ++ [summaryLine (if relayed then str "sent" else str "encrypted") result]);
  if relayed then mret tt else
  n ← exportCopies 0 (exportable result);
  if 0 <? n then print (Info (dec n ++ str " container(s) above — hand each to its recipient (paste, file, QR).")) else mret tt.

Definition execSendMulti (args : list bytes) : M unit :=
  s ← gets w_state;
  match FanoutAt s, ActiveClient s with
  | Some fan, Some _ =>
      match args with
      | ctxRef :: ((_ :: _) as words) =>
          let message := joinWords words in
          st ← ctxStore fan;
          orProblem (lift (ResolveContextRef st ctxRef)) (fun '(meta, policies) =>
            match reachable policies with
            | [] => print (Problem (NoRecipients (mc_DisplayName meta)))
            | recipients =>
                orProblem (sendMulti fan (mc_ContextID meta) message recipients) (fun result =>
                  _ ← reportSend (Worker s) meta result;
                  recordOutgoing (MailboxStore s) meta message)
            end)
      | _ => print (Plain (str "  Usage: send-multi <context_id> <message>"))
      end
  | _, _ => print hint
  end.

(** ** view.go *)
Definition threadTitle (t : Mailbox.Thread) : bytes := if bytes_eqb (Mailbox.t_Title t) [] then Registry.ShortID (Mailbox.t_Key t) else Mailbox.t_Title t.

Definition preview (body : bytes) : bytes := replaceNewlines (str " ") (if 40 <? len body then take 37 body ++ str "..." else body).

(** A thread without messages has no last one: the index is out of range. *)
Definition printThreadLine (t : Mailbox.Thread) : M unit :=
  match list.last (Mailbox.t_Messages t) with
  | None => lift Panic
  | Some m =>
      let unread := Mailbox.unread t in
      print (Plain (concat [str "  "; threadTitle t; if 0 <? unread then concat [str "  ["; dec unread; str " unread]"] else []; str "  ";
                            preview (Mailbox.m_Body m); str " "; ft_when (Mailbox.m_Timestamp m)]))
  end.

(** The senders of a group, in the order they first wrote. *)
Fixpoint senders (seen : list bytes) (l : list Mailbox.Message) : list bytes :=
  match l with
  | [] => []
  | m :: l =>
      let s := Mailbox.m_Sender m in
      if (bytes_eqb (Mailbox.m_Kind m) Mailbox.Group && negb (bytes_eqb s []) && negb (bytes_eqb s (str "Me")) && negb (bool_decide (s ∈ seen)))%bool
      then s :: senders (s :: seen) l else senders seen l
  end.

Definition membersPreview (t : Mailbox.Thread) : list bytes :=
  let members := Registry.ShortID <$> senders [] (Mailbox.t_Messages t) in
  if 4 <? len members then take 4 members ++ [concat [str "+"; dec (len members - 4); str " more"]] else members.

Definition printMembersPreview (t : Mailbox.Thread) : M unit :=
  match membersPreview t with
  | [] => mret tt
  | members => print (Plain (str "    with: " ++ joinWith (str ", ") members))
  end.

Fixpoint printThreads (group : bool) (l : list Mailbox.Thread) : M unit :=
  match l with
  | [] => mret tt
  | t :: l => _ ← printThreadLine t; _ ← (if group then printMembersPreview t else mret tt); printThreads group l
  end.

Definition printSection (group : bool) (title : bytes) (l : list Mailbox.Thread) : M unit :=
  match l with [] => mret tt | _ => _ ← print (Plain title); printThreads group l end.

Definition isGroup (t : Mailbox.Thread) : bool := Mailbox.IsGroupKey (Mailbox.t_Key t).

Definition RenderMailboxList (store : Mailbox.Store) : M unit :=
  match Mailbox.List_ (fe_io env 5) store with
  | [] => print (Info (str "Mailbox is empty."))
  | threads =>
      _ ← printSection false (str "❖ Direct messages ❖") (List.filter (fun t => negb (isGroup t)) threads);
      _ ← printSection true (str "❖ Groups ❖") (List.filter isGroup threads);
      print (Plain (str "Type 'mailbox <peer>' or 'mailbox <group>' to read (Tab completes)."))
  end.

Definition shortAuthor (sender : bytes) : bytes :=
  if (bytes_eqb sender [] || bytes_eqb sender (str "Me"))%bool then str "Me" else Registry.ShortID sender.

Definition author (m : Mailbox.Message) : bytes :=
  if bytes_eqb (Mailbox.m_Direction m) Mailbox.Incoming then
    if (bytes_eqb (Mailbox.m_Kind m) Mailbox.Group && negb (bytes_eqb (Mailbox.m_ContextName m) []))%bool
    then concat [shortAuthor (Mailbox.m_Sender m); str " @ "; Mailbox.m_ContextName m] else shortAuthor (Mailbox.m_Sender m)
  else str "Me".

Definition messageLine (m : Mailbox.Message) : line :=
  Plain (concat [if bytes_eqb (Mailbox.m_Direction m) Mailbox.Incoming then [] else str "  "; str " "; author m; str "  "; ft_clock (Mailbox.m_Timestamp m); str " ";
                 replaceNewlines (x0a :: str "        ") (trimNewlines (Mailbox.m_Body m))]).

(** A line with the day where it changes. *)
Fixpoint messageLines (day : bytes) (l : list Mailbox.Message) : list line :=
  match l with
  | [] => []
  | m :: l =>
      let d := ft_day (Mailbox.m_Timestamp m) in
      (if bytes_eqb d day then [] else [Plain (str "  " ++ d)]) ++ messageLine m :: messageLines d l
  end.

Definition RenderThread (key : bytes) (msgs : list Mailbox.Message) : M unit :=
  let title := match msgs with m :: _ => if bytes_eqb (Mailbox.m_ContextName m) [] then key else Mailbox.m_ContextName m | [] => key end in
  prints (Plain (concat [str "❖ "; title; str " ❖"]) ::
          match msgs with [] => [Plain (str "  (no messages)")] | _ => messageLines [] msgs end).

Definition resolveIn (st : Mailbox.Store) (arg : bytes) : res front_err bytes := wrapErr MailboxErr (Mailbox.ResolveThread (fe_io env 5) st arg).

Definition ResolveThreadKey (arg : bytes) : M bytes :=
  s ← gets w_state;
  let store := MailboxStore s in
  if (hasPrefix (str "ctx:") arg || hasPrefix (str "group:") arg)%bool then
    match store with None => fail NoMailbox | Some m => st ← mailboxAt m; lift (resolveIn st arg) end
  else
    peer ← attempt (ResolvePeer env arg);
    match peer, store with
    | inl (PeerErr (Registry.AmbiguousPeerError i ms)), _ => fail (PeerErr (Registry.AmbiguousPeerError i ms))
    | inl _, None => fail (NoMatch arg)
    | inr p, None => mret p
    | _, Some m =>
        st ← mailboxAt m;
        let byThread := match resolveIn st arg with
                        | Ok key => mret key
                        | Panic => lift Panic
                        | Err _ => match peer with inr p => mret p | inl _ => fail (NoMatch arg) end
                        end in
        match peer with
        | inr p => match Mailbox.Get st p with Some _ => mret p | None => byThread end
        | inl _ => byThread
        end
    end.

(** [store.Read] *)
Definition readThread (mb : loc) (key : bytes) : M (list Mailbox.Message) :=
  onMailbox mb (fun s => let '(s, out, r) := Mailbox.Read (fe_io env 7) s key in (s, _ ← r; Ok (default [] out))).

Definition execMailbox (args : list bytes) : M unit :=
  s ← gets w_state;
  match MailboxStore s with
  | None => print (Problem NoMailbox)
  | Some mb =>
      match args with
      | [] => st ← mailboxAt mb; RenderMailboxList st
      | arg :: _ => orProblem (ResolveThreadKey arg) (fun key => orProblem (readThread mb key) (fun msgs => RenderThread key msgs))
      end
  end.

(** ** gui.go: [Execute] and completion *)
Definition Execute (cmd : bytes) (args : list bytes) : M bool :=
  if bytes_eqb cmd (str "context") then _ ← execContext args; mret true else
  if bytes_eqb cmd (str "send-multi") then _ ← execSendMulti args; mret true else
  if bytes_eqb cmd (str "contexts") then _ ← execContextsList; mret true else
  if bytes_eqb cmd (str "mailbox") then _ ← execMailbox args; mret true else mret false.

Definition FilterByPrefix (candidates : list bytes) (fragment : bytes) : list bytes := List.filter (hasPrefix fragment) candidates.
Definition suffixCandidates (candidates : list bytes) (fragment : bytes) : list bytes := FilterByPrefix candidates fragment.

(** The subcommands whose first argument is a group. *)
Definition takesContext (sub : bytes) : bool :=
  oneOf sub ([str "show"; str "rename"; str "members"] ++ contextPeerSubcommands).

Definition PeerCandidates_ : M (list bytes) :=
  book ← contactBook env; w ← gets id; mret (Registry.PeerCandidates (fe_io env 4) book (peersView w)).

Definition CompleteContextArgs (typed : list bytes) (argIndex : Z) (fragment : bytes) : M (list bytes) :=
  if argIndex <=? 0 then mret (suffixCandidates contextSubcommands fragment) else
  let sub := default [] (typed !! Z.to_nat (argIndex - 1)) in
  if takesContext sub then
    if argIndex =? 1 then l ← ContextCandidates env; mret (suffixCandidates l fragment) else
    if ((argIndex =? 2) && oneOf sub contextPeerSubcommands)%bool then l ← PeerCandidates_; mret (suffixCandidates l fragment) else mret []
  else mret [].

(** ** cli.go *)
Definition formatHuman : bytes := str "human".
Definition formatJSON : bytes := str "json".

Definition validateFormatStr (format : bytes) : res front_err unit := check (negb (oneOf format [formatHuman; formatJSON])) (FormatErr format).

(** [json.Marshal] and two writes to the standard output. *)
Definition writeJSONValue (d : document) : M unit := stdout env (Doc d).

Definition reportExit (format : bytes) (m : M unit) : M unit :=
  x ← attempt m;
  match x with
  | inr _ => mret tt
  | inl e =>
      _ ← (if negb (bytes_eqb format formatJSON) then print (Problem e) else
           y ← attempt (writeJSONValue (DocError e)); match y with inr _ => mret tt | inl _ => print (Problem e) end);
      fail e
  end.

Definition readPayloadStdin (inline inputFile inputEncoding : bytes) : M bytes :=
  raw ← (if negb (bytes_eqb inputFile []) then readFile inputFile else
         if negb (bytes_eqb inline []) then mret inline else
         _ ← failIf (negb (in_stat (fe_stdin env))) StatErr;
         _ ← failIf (in_terminal (fe_stdin env)) NoInput;
         data ← readStdin env;
         _ ← failIf (bytes_eqb data []) NoInput;
         mret data);
  lift (wrapErr (fun _ => DecodeErr inputEncoding) (Input.DecodeInput inputEncoding raw)).

(** The client of a command and a fan-out over its groups: the store is the
    fan-out's. *)
Definition openContexts (localPeer : bytes) : M (loc * loc) :=
  cl ← LoadClient_ localPeer;
  '(cs, _) ← OpenStores env 1 localPeer;
  fan ← newFanFor cl false (inr cs) (inl noDeliveries);
  mret (cl, fan).

(** [newContextFor] *)
Definition newContextFor (fan cl : loc) (name : bytes) : M MessageContext :=
  c ← clientAt cl; createContext fan name (cl_IdentityPrivate c).

Definition savePolicy (fan : loc) (lp : LocalRecipientPolicy) : M unit :=
  wrap (fun e => match e with GroupErr (FoSave e) => StoreErr e | _ => e end)
    (onFan fan (fun fo => let '(s, r) := SavePolicy (fe_io env 6) (CtxStore fo) lp in (set_CtxStore s fo, wrapErr FoSave r))).

Definition rowLine (indent : bytes) (m : MessageContext) : line :=
  Plain (concat [indent; mc_ContextID m; str "  v"; dec (mc_MetadataVersion m); str "  "; mc_DisplayName m]).

Definition memberLine (p : LocalRecipientPolicy) : line :=
  Plain (concat [str "    ["; PolicyIcon (lp_Policy p); str "] "; lp_Recipient p; str " ("; policyString (lp_Policy p); str ")"]).

Definition cliPolicy (fan : loc) (sub id arg : bytes) : M unit :=
  st ← ctxStore fan;
  _ ← lift (loadContext st id);
  _ ← lift (ValidatePeerID arg);
  policy ← lift (ofOption (UnknownAction sub) (policyForSub sub));
  _ ← savePolicy fan (mkPolicy id arg policy 0);
  print (Plain (concat [str "[✓] "; shortDisplay arg; str " is now "; policyString policy; str " in "; shortDisplay id])).

Definition runContextCLI (localPeer : bytes) (args : list bytes) : M unit :=
  match args with
  | [] => lift Panic
  | sub :: rest =>
      '(cl, fan) ← openContexts localPeer;
      st ← ctxStore fan;
      if bytes_eqb sub (str "create") then
        match rest with
        | [] => fail (UsageErr (str "usage: context create <name>"))
        | _ => meta ← newContextFor fan cl (joinWords rest); print (rowLine [] meta)
        end
      else if oneOf sub [str "list"; str "ls"] then
        match ListContexts (fe_io env 5) st with
        | [] => print (Plain (str "[i] No contexts."))
        | ctxs => prints (rowLine [] <$> ctxs)
        end
      else if bytes_eqb sub (str "show") then
        match rest with
        | [] => fail (UsageErr (str "usage: context show <context_id>"))
        | ref :: _ =>
            '(meta, policies) ← lift (ResolveContextRef st ref);
            prints ([Plain (concat [str "❖ Context: "; mc_DisplayName meta; str " ❖"]); Plain (str "  ID:      " ++ mc_ContextID meta);
                     Plain (str "  Version: " ++ dec (mc_MetadataVersion meta)); Plain (str "  Creator: " ++ mc_CreatorID meta); Plain (str "  Members:")]
                    ++ orNone policies ++ (memberLine <$> policies))
        end
      else if bytes_eqb sub (str "rename") then
        match rest with
        | id :: (_ :: _) as name =>
            c ← clientAt cl;
            meta ← updateContext fan id (joinWords name) (cl_IdentityPrivate c);
            print (Plain (concat [str "[✓] Renamed to "; mc_DisplayName meta; str " (v"; dec (mc_MetadataVersion meta); str ")"]))
        | _ => fail (UsageErr (str "usage: context rename <context_id> <new_name>"))
        end
      else if oneOf sub contextPeerSubcommands then
        match rest with
        | id :: arg :: _ => cliPolicy fan sub id arg
        | _ => fail (UsageErr (concat [str "usage: context "; sub; str " <context_id> <peer_id>"]))
        end
      else if bytes_eqb sub (str "members") then
        match rest with
        | [] => fail (UsageErr (str "usage: context members <context_id>"))
        | ref :: _ =>
            '(_, policies) ← lift (ResolveContextRef st ref);
            match policies with [] => print (Plain (str "    (no members configured)")) | _ => prints (memberLine <$> policies) end
        end
      else fail (UnknownSub sub)
  end.

(** ** cli.go: sending *)
Record SendMultiRequest := mkSendMulti {
  sm_LocalPeer : bytes; sm_CtxRef : bytes; sm_Message : bytes; sm_InputFile : bytes; sm_InputEncoding : bytes; sm_OutputDir : bytes; sm_Format : bytes;
  sm_Relay : bool;    (* a relay provider is given *)
}.

(** Whether there is a relay. *)
Definition connectRelay (req : SendMultiRequest) : M bool :=
  if sm_Relay req then lift (ofOption RelayErr (fe_connect env)) else mret false.

(** The file a copy is written to. *)
Definition containerPath (dir messageID recipient : bytes) : bytes :=
  concat [dir; str "/"; shortDisplay messageID; str "."; shortDisplay recipient; str ".container.json"].

Definition cliExportOne (dir messageID recipient ct : bytes) : M unit :=
  container ← lift (wrapErr ContainerErr (EncodeContainer TypeMultiMsg ct));
  if negb (bytes_eqb dir []) then
    _ ← failIf (negb (fe_mkdir env)) DirErr;
    let path := containerPath dir messageID recipient in
    _ ← writeFile env path container;
    print (Plain (concat [str "  ▸ "; Registry.ShortID recipient; str " → "; path]))
  else
    _ ← print (Plain (concat [str "  ▸ DELIVER TO "; Registry.ShortID recipient; str " ◂"]));
    print (Plain container).

Fixpoint cliExport (dir messageID : bytes) (l : list (bytes * bytes)) : M unit :=
  match l with
  | [] => mret tt
  | (recipient, ct) :: l => _ ← cliExportOne dir messageID recipient ct; cliExport dir messageID l
  end.

(** Loading the mailbox may fail silently, storing the message with a word. *)
Definition cliRecord (localPeer : bytes) (meta : MessageContext) (body : bytes) : M unit :=
  x ← attempt (LoadMailbox env 0 localPeer);
  match x with
  | inr l => recordOutgoing (Some l) meta body
  | inl _ => mret tt
  end.

(** What is printed of a send, and the copies to hand over. *)
Definition cliReport (relayed : bool) (dir : bytes) (meta : MessageContext) (result : FanoutResult) : M unit :=
  _ ← prints ([Plain (concat [str "❖ Multi-message: "; fr_MessageID result; str " ❖"]);
               Plain (concat [str "  Context: "; mc_DisplayName meta; str " ("; mc_ContextID meta; str ")"]); Plain (str "  Deliveries:")]
              ++ (deliveryLine relayed id <$> fr_Deliveries result) ++ [summaryLine (str "encrypted") result]);
  if relayed then mret tt else
  let copies := exportable result in
  _ ← cliExport dir (fr_MessageID result) copies;
  if 0 <? len copies then print (Plain (concat [str "[i] "; dec (len copies); str " container(s) — hand each to its recipient."])) else mret tt.

Definition runSendMultiCLI (req : SendMultiRequest) : M unit :=
  let format := if bytes_eqb (sm_Format req) [] then formatHuman else sm_Format req in
  _ ← lift (validateFormatStr format);
  cl ← LoadClient_ (sm_LocalPeer req);
  relayed ← connectRelay req;
  '(cs, ds) ← OpenStores env 1 (sm_LocalPeer req);
  fan ← newFanFor cl relayed (inr cs) (inr ds);
  st ← ctxStore fan;
  '(meta, policies) ← lift (ResolveContextRef st (sm_CtxRef req));
  let recipients := reachable policies in
  _ ← failIf (bool_decide (recipients = [])) (NoRecipients (mc_DisplayName meta));
  plaintext ← readPayloadStdin (sm_Message req) (sm_InputFile req) (sm_InputEncoding req);
  result ← sendMulti fan (mc_ContextID meta) plaintext recipients;
  _ ← cliRecord (sm_LocalPeer req) meta (trimNewlines plaintext);
  if bytes_eqb format formatJSON then writeJSONValue (DocResult result) else cliReport relayed (sm_OutputDir req) meta result.

(** ** cli.go: listings *)
Definition runContexts (localPeer format : bytes) : M unit :=
  '(cs, _) ← OpenStores env 1 localPeer;
  let ctxs := ListContexts (fe_io env 5) cs in
  if bytes_eqb format formatJSON then
    writeJSONValue (DocContexts ((fun m => (mc_ContextID m, mc_DisplayName m, mc_MetadataVersion m, mc_CreatorID m)) <$> ctxs))
  else match ctxs with
       | [] => print (Plain (str "[i] No contexts."))
       | _ => prints (Plain (str "❖ Contexts ❖") :: (rowLine (str "  ") <$> ctxs))
       end.

(** [ContextsCLI] *)
Definition ContextsCLI (localPeer format : bytes) : M unit := reportExit format (runContexts localPeer format).

Definition RunMailbox (localPeer : bytes) (args : list bytes) : M unit :=
  mb ← LoadMailbox env 0 localPeer;
  st ← mailboxAt mb;
  match args with
  | [] => RenderMailboxList st
  | arg :: _ =>
      key ← (match resolveIn st arg with
             | Ok key => mret key
             | Panic => lift Panic
             | Err _ => _ ← failIf (negb (plausiblyPeerID arg)) (NoMatch arg); mret arg
             end);
      msgs ← readThread mb key;
      RenderThread key msgs
  end.

(** [ContextCLI], [SendMultiCLI], [MailboxCLI] *)
Definition ContextCLI (localPeer format : bytes) (args : list bytes) : M unit := reportExit format (runContextCLI localPeer args).
Definition SendMultiCLI (req : SendMultiRequest) : M unit := reportExit (sm_Format req) (runSendMultiCLI req).
Definition MailboxCLI (localPeer format : bytes) (args : list bytes) : M unit := reportExit format (RunMailbox localPeer args).

(** ** cli.go: completion *)
Definition quietly (m : M (list bytes)) : M (list bytes) := x ← attempt m; match x with inr l => mret l | inl _ => mret [] end.

Definition ContextCandidates (localPeer : bytes) : M (list bytes) :=
  if bytes_eqb localPeer [] then mret [] else
  quietly ('(cs, _) ← OpenStores env 1 localPeer;
           mret (Registry.sortedKeys (fe_io env 5) (fold_left addContext (ListContexts (fe_io env 5) cs) ∅))).

Definition addSession (m : Registry.set) (id : bytes) : Registry.set := if hasPrefix Registry.pendingPrefix id then m else <[id := true]> m.

Definition PeerCandidates (localPeer : bytes) : M (list bytes) :=
  sessions ← (if bytes_eqb localPeer [] then mret [] else
              quietly (cl ← LoadClient_ localPeer; c ← clientAt cl; mret (io_range (fe_io env 4) (cl_Sessions c)).*1));
  book ← contactBook env;
  let m := fold_left addSession sessions ∅ in
  let m := match book with Some b => fold_left Registry.addContact (io_range (fe_io env 4) b) m | None => m end in
  mret (Registry.sortedKeys (fe_io env 4) m).

Definition completeContextArgsCLI (localPeer : bytes) (args : list bytes) (toComplete : bytes) : M (list bytes) :=
  match args with
  | [] => mret (FilterByPrefix contextSubcommands toComplete)
  | [sub] => if takesContext sub then l ← ContextCandidates localPeer; mret (FilterByPrefix l toComplete) else mret []
  | [sub; _] => if oneOf sub contextPeerSubcommands then l ← PeerCandidates localPeer; mret (FilterByPrefix l toComplete) else mret []
  | _ => mret []
  end.

Definition completeSendMulti (localPeer : bytes) (args : list bytes) (toComplete : bytes) : M (list bytes) :=
  match args with [] => l ← ContextCandidates localPeer; mret (FilterByPrefix l toComplete) | _ => mret [] end.

Definition completeMailbox (localPeer toComplete : bytes) : M (list bytes) :=
  peers ← PeerCandidates localPeer; groups ← ContextCandidates localPeer; mret (FilterByPrefix (peers ++ groups) toComplete).

End GroupChat.
End GroupChat.
