(* ===== verification/GroupChatTheorems.v ===== *)
(** * internal/groupchat: theorems

    What a user pastes takes the path of what a relay delivers; what a fan-out
    without a relay prints can be pasted by its recipient; the policies of a group
    decide whom a message reaches; what the user typed is not guessed at. *)
From S2P Require Import Prelude Steps GoStd Sha256 External SecurePeer SecurePeerFacts Session Engine EngineFacts SessionTheorems Client Codec Frame Binstore Records.
From S2P Require Import MultiMsg MultiStore MultiStoreTheorems Fanout FanoutTheorems GroupDelivery Mailbox MailboxTheorems MailboxSaved Contacts Dispatch DispatchTheorems.
From S2P Require Import Registry Transport Ops OpsFrames OpsTheorems Front FrontFacts GroupChat.
#[local] Open Scope Z_scope.

Import Ops Frames Front FrontFacts GroupChat Steps.

Section Theorems.
Context `{N : Nanopack} `{P : Prims} `{J : LegacyJSON} `{R : RecordStore} `{X : Surroundings} `{FT : FrontText} `{CJ : ContainerJSON}.
Implicit Types w : World.

(** ** Pasting and receiving *)
Definition dispatchOf (e : frontEnv) : dispatchEnv :=
  mkDispatchEnv (fe_save e) (fe_peer e) (fe_encaps e) None (fe_io e 6) (fe_io e 7) (fe_nanos e) (fe_millis e).

(** The objects of a world as the receive path holds them, the mailbox over [b]. *)
Definition depsAt (b : fs) w (c : Client) (f : Fanout contexts deliveries) (s : Mailbox.Store) : deps :=
  Dispatch.mkDeps (withDisk (w_disk w) (set_client (refresh w c) f)) true (Some (set_storeDisk b s)).

(** Fan-outs that differ in the client and the disk they carry at most. *)
Definition sameFan (f g : Fanout contexts deliveries) : Prop := forall d c, withDisk d (set_client c f) = withDisk d (set_client c g).

(** What a paste reports of what a dispatch returns. *)
Definition sameOutcome (r : res dp_err (option Event)) (r' : res front_err IngestEvent) : Prop :=
  match r, r' with
  | Ok None, Ok ie | Err (DpGroup (FoReplay _)), Ok ie => ie = duplicate
  | Ok (Some ev), Ok ie => ie = mkIngest (ev_Type ev) (ev_Sender ev) (ev_Context ev) (ev_ContextID ev) (ev_Message ev)
  | Err (DpGroup (FoReplay _)), Err _ => False
  | Err (DpGroup e), Err (GroupErr e') => e = e'
  | Err (DpDecrypt e), Err (ClientErr e') => e = e' /\ isReplay e = false
  | Err DpReplay, Err (ClientErr e') => isReplay e' = true
  | Err (DpStore e), Err (MailboxErr e') => e = e'
  | Panic, Panic => True
  | _, _ => False
  end.

Lemma sameFan_refl f d c : sameFan f (withDisk d (set_client c f)).
Proof. intros d' c'. destruct f as [c0 s ds cf sd sm]. unfold withDisk. cbn. by destruct s, ds. Qed.

Lemma decodeText_shown pt : decodeText pt = (shown pt).1.
Proof. unfold decodeText, shown. by destruct (utf8Valid pt). Qed.

(** Keeping what came in the mailbox, or not. *)
Lemma record_run w lm s f s' r : w_mailboxes w !! lm = Some s -> f (set_storeDisk (w_disk w) s) = (s', r) ->
  recordIncoming (Some lm) f w = (set_disk (Mailbox.disk s') (set_mailboxes (<[lm := s']> (w_mailboxes w)) (w_next w) w), wrapErr MailboxErr r).
Proof. intros Hs Hf. unfold recordIncoming. by apply onMailbox_run with s. Qed.

Lemma ingestMessage_is env w lc c lm s f payload :
  w_clients w !! lc = Some c -> w_mailboxes w !! lm = Some s ->
  let '(d', sent, r) := handleMessage (dispatchOf env) (depsAt (w_disk w) w c f s) payload in
  let '(w', r') := ingestMessage env lc (Some lm) payload w in
  sent = [] /\ sameOutcome r r' /\ w_clients w' !! lc = Some (dp_client d') /\ w_fans w' = w_fans w /\
  sameFan f (dp_fanout d') /\ Mailbox.threads <$> w_mailboxes w' !! lm = Mailbox.threads <$> dp_mailbox d'.
Proof.
  intros Hc Hs. unfold handleMessage, ingestMessage.
  assert (forall b, dp_client (depsAt b w c f s) = refresh w c) as -> by done. cbn [de_save dispatchOf].
  destruct (Client_Decrypt (fe_save env) (refresh w c) payload) as [c' r] eqn:Hd.
  pose proof (onClient_run ClientErr lc c (fun c => Client_Decrypt (fe_save env) c payload) w c' r Hc Hd) as Hrun.
  destruct (putClient_eq lc c' w) as (Hcl & Hmb & Hfa & Hdi & _).
  unfold mbind, Step_bind. rewrite Hrun.
  assert (sameFan f (set_client c' (withDisk (w_disk w) (set_client (refresh w c) f)))) as Hsf by exact (sameFan_refl f _ _).
  destruct r as [[sender pt]|e|]; cbn [wrapErr].
  - destruct (shown pt) as [text enc] eqn:Hsh. cbn [dp_mailbox set_dpClient Dispatch.dp_mailbox depsAt dispatchOf de_mbio de_nanos de_millis].
    rewrite decodeText_shown, Hsh. cbn [fst].
    destruct (Mailbox.AppendIncoming (fe_io env 7) (fe_nanos env) (fe_millis env) (set_storeDisk (w_disk w) s) sender text) as [s' r] eqn:Ha. rewrite ?Ha.
    rewrite (record_run (putClient lc c' w) lm s _ s' r) by (try rewrite Hmb; try rewrite Hdi; done).
    assert (<[lm := s']> (w_mailboxes (putClient lc c' w)) !! lm = Some s') as Hl by apply lookup_insert_eq.
    destruct r as [u|e|]; cbn [wrapErr mbind res_bind mret Step_ret]; (split; [done|]; split; [done|]);
      cbn [set_disk set_mailboxes w_clients w_fans w_mailboxes]; rewrite Hcl, Hfa, Hl, lookup_insert_eq; (split; [done|]; split; [done|]; split; [exact Hsf|done]).
  - split; [done|]. split; [destruct (isReplay e) eqn:He; cbn; [done|done]|].
    rewrite Hcl, lookup_insert_eq, Hfa, Hmb, Hs. done.
  - split; [done|]. split; [done|]. rewrite Hcl, lookup_insert_eq, Hfa, Hmb, Hs. done.
Qed.

Lemma sameFan_disk f d : sameFan f (withDisk d f).
Proof. intros d' c'. destruct f as [c0 s ds cf sd sm]. unfold withDisk. cbn. by destruct s, ds. Qed.

Lemma ingestGroup_is env w lc c lm s lf fn payload :
  w_clients w !! lc = Some c -> w_mailboxes w !! lm = Some s -> w_fans w !! lf = Some fn -> fn_client fn = lc ->
  exists b,
  let '(d', sent, r) := handleMultiMessage (dispatchOf env) (depsAt b w c (fn_fanout fn) s) payload in
  let '(w', r') := ingestGroup env lc (Some lm) (Some lf) payload w in
  sent = [] /\ sameOutcome r r' /\ w_clients w' !! lc = Some (dp_client d') /\
  w_fans w' !! lf = Some (mkFan lc (fn_relay fn) (dp_fanout d')) /\
  Mailbox.threads <$> w_mailboxes w' !! lm = Mailbox.threads <$> dp_mailbox d'.
Proof.
  intros Hc Hs Hf Hl. unfold handleMultiMessage, ingestGroup. cbn [depsAt dp_hasFanout negb dp_fanout de_save de_io dispatchOf].
  set (fo := withDisk (w_disk w) (set_client (refresh w c) (fn_fanout fn))).
  assert (forall b, cl_Id (dp_client (depsAt b w c (fn_fanout fn) s)) = cl_Id c) as Hid by done.
  destruct (ProcessDelivery (fe_save env) (fe_io env 6) fo (cl_Id c) payload) as [fo' r] eqn:Hp.
  rewrite <- Hl in Hc. pose proof (onFan_run lf fn c (fun f => ProcessDelivery (fe_save env) (fe_io env 6) f (cl_Id c) payload) w fo' r Hf Hc Hp) as Hrun.
  destruct (putFan_eq lf fn fo' w) as (Hcl & Hfa & Hmb & _). set (w1 := set_sent _ _) in Hrun.
  assert (w_clients w1 = <[fn_client fn := fo_client fo']> (w_clients w) /\ w_fans w1 = <[lf := mkFan (fn_client fn) (fn_relay fn) fo']> (w_fans w) /\ w_mailboxes w1 = w_mailboxes w)
    as (Hcl1 & Hfa1 & Hmb1) by done. clearbody w1. clear Hcl Hfa Hmb.
  exists (w_disk w1). rewrite Hid. fold fo. rewrite Hp. rewrite Hl in *.
  unfold mbind, Step_bind. rewrite (clientAt_run _ _ _ Hc). unfold attempt. rewrite Hrun.
  assert (w_clients w1 !! lc = Some (fo_client fo') /\ w_fans w1 !! lf = Some (mkFan lc (fn_relay fn) fo')) as [Hc1 Hf1]
    by (by rewrite Hcl1, Hfa1, !lookup_insert_eq).
  destruct r as [inbound|e|]; cbn [wrapErr].
  - destruct (shown (im_Plaintext inbound)) as [body enc] eqn:Hsh. rewrite decodeText_shown, Hsh. cbn [fst dp_mailbox Dispatch.dp_mailbox depsAt de_mbio de_nanos de_millis dispatchOf].
    destruct (Mailbox.AppendGroupIncoming (fe_io env 7) (fe_nanos env) (fe_millis env) (set_storeDisk (w_disk w1) s) (InboundMessage_ContextID inbound)
      (InboundMessage_DisplayName inbound) (im_Sender inbound) body) as [s' r] eqn:Ha.
    rewrite (record_run w1 lm s _ s' r) by (try rewrite Hmb1; done). rewrite <- Hmb1 in Hs. 
    destruct r as [u|e|]; cbn [wrapErr mbind res_bind mret Step_ret set_disk set_mailboxes w_clients w_fans w_mailboxes];
      rewrite lookup_insert_eq, Hc1, Hf1; done.
  - rewrite <- Hmb1 in Hs. destruct e; cbn; rewrite ?Hc1, ?Hf1, ?Hs; done.
  - rewrite <- Hmb1 in Hs. cbn. by rewrite Hc1, Hf1, Hs.
Qed.

(** C27: What a user pastes is handled like what a relay delivers.  When the pasted
    text is a container or a frame with a message, direct or for a group, the
    client, the fan-out and the mailbox afterwards are those of dispatching the
    framed message, and the result is the same: the same event, the same error,
    except that a replayed group delivery is reported as a duplicate.  (The disk the
    mailbox is written to is the one the fan-out leaves; nothing is sent.) *)
Theorem ingest_is_dispatch env w lc c lm s lf fn raw t payload :
  w_clients w !! lc = Some c -> w_mailboxes w !! lm = Some s -> w_fans w !! lf = Some fn -> fn_client fn = lc ->
  DecodeContainer ex_uni raw = Ok (t, payload) -> payload ≠ [] -> t = TypeMessage \/ t = TypeMultiMsg ->
  exists b,
  let '(d', sent, r) := DispatchFrame (dispatchOf env) (depsAt b w c (fn_fanout fn) s) (Wrap t payload) in
  let '(w', r') := Ingest env lc (Some lm) (Some lf) raw w in
  sent = [] /\ sameOutcome r r' /\ w_clients w' !! lc = Some (dp_client d') /\
  (exists fn', w_fans w' !! lf = Some fn' /\ fn_client fn' = lc /\ sameFan (fn_fanout fn') (dp_fanout d')) /\
  Mailbox.threads <$> w_mailboxes w' !! lm = Mailbox.threads <$> dp_mailbox d'.
Proof.
  intros Hc Hs Hf Hl Hdec Hne Ht. unfold DispatchFrame, Ingest. rewrite Hdec, Unwrap_Wrap by (destruct Ht as [->| ->]; done).
  destruct Ht as [->| ->]; cbn [TypeMessage TypeMultiMsg].
  - exists (w_disk w). pose proof (ingestMessage_is env w lc c lm s (fn_fanout fn) payload Hc Hs) as H.
    destruct (handleMessage _ _ _) as [[d' sent] r], (ingestMessage _ _ _ _ _) as [w' r'].
    destruct H as (? & ? & ? & Hfa & ? & ?). conjs; try done. exists fn. by rewrite Hfa.
  - destruct (ingestGroup_is env w lc c lm s lf fn payload Hc Hs Hf Hl) as [b H]. exists b.
    destruct (handleMultiMessage _ _ _) as [[d' sent] r], (ingestGroup _ _ _ _ _ _) as [w' r'].
    destruct H as (? & ? & ? & Hfa & ?). conjs; try done. by eexists.
Qed.

(** ** Following a command *)
Lemma orProblem_Ok {A} (m : M A) (k : A -> M unit) w w' : orProblem m k w = (w', Ok tt) ->
  (exists w1 e, m w = (w1, Err e) /\ w' = set_out (w_out w1 ++ [Problem e]) w1) \/ (exists w1 a, m w = (w1, Ok a) /\ k a w1 = (w', Ok tt)).
Proof.
  unfold orProblem, attempt, mbind, Step_bind. destruct (m w) as [w1 [a|e|]]; [|intros [= <-]|done]; [right; by eexists _, _|left; by eexists _, _].
Qed.

Lemma orProblem_success {A} (m : M A) (k : A -> M unit) w w' t : orProblem m k w = (w', Ok tt) -> list.last (w_out w') = Some (Success t) ->
  exists w1 a, m w = (w1, Ok a) /\ k a w1 = (w', Ok tt).
Proof. intros [(w1 & e & _ & ->)|H]%orProblem_Ok Hl; [|done]. cbn [set_out w_out] in Hl. by rewrite last_snoc in Hl. Qed.

Lemma ResolvePeer_disk env arg w w' r : ResolvePeer env arg w = (w', r) -> exists d, w' = set_disk d w.
Proof.
  unfold ResolvePeer, mbind, Step_bind. destruct (bytes_eqb (trimSpace arg) []); cbn [mret Step_ret].
  - unfold gets, lift. intros [= <- _]. exists (w_disk w). by destruct w.
  - unfold contactBook. destruct (Contacts.Load _ _ _ _) as [d [b|e|]]; unfold gets, lift; intros [= <- _]; by exists d.
Qed.

(** ** Who a group message goes to *)
Definition audience (io : storeIO) (st : contexts) (id : ContextID) : list bytes := reachable (ListPolicies io st id).

(** The policies under which a member still gets messages. *)
Definition hears (p : RecipientPolicy) : bool := (negb (p =? PolicyBlocked) && negb (p =? PolicyExcluded))%bool.

Context `{NL : !NanopackLaws} `{NS : !NanopackSize} `{RL : !RecordStoreLaws} `{PL : !PrimLaws}.

Lemma audience_spec io (st : contexts) id q : range_ok io -> pol_keyed (cs_policies st) ->
  q ∈ audience io st id <-> exists p, polAt (cs_policies st) id q = Some p /\ hears (lp_Policy p) = true.
Proof.
  intros Hio Hk. unfold audience, reachable. rewrite cs_listPolicies, list_elem_of_fmap.
  setoid_rewrite list_elem_of_In. setoid_rewrite filter_In. setoid_rewrite <- list_elem_of_In. setoid_rewrite elem_of_listPolicies; [|done]. split.
  - intros (p & -> & [r Hr] & Hh). exists p. destruct (Hk _ _ _ Hr) as [_ ->]. done.
  - intros (p & Hp & Hh). exists p. destruct (Hk _ _ _ Hp) as [_ <-]. conjs; [done| |done]. by eexists.
Qed.

(** Asking for the policies again leaves nobody out. *)
Lemma audience_effective io io' (f : Fanout contexts deliveries) id : range_ok io -> range_ok io' -> pol_keyed (cs_policies (CtxStore f)) ->
  GetEffectiveRecipients io f id (audience io' (CtxStore f) id) = audience io' (CtxStore f) id.
Proof.
  intros Hio Hio' Hk. rewrite effective_recipients_spec by done.
  enough (forall l, (forall q, q ∈ l -> q ∈ audience io' (CtxStore f) id) ->
    List.filter (fun r => negb (bool_decide (GetRecipientPolicy f id r ∈ [PolicyBlocked; PolicyExcluded]))) l = l) as H by (apply H; by intros q).
  induction l as [|q l IH]; intros Hl; [done|]. cbn [List.filter].
  assert (q ∈ audience io' (CtxStore f) id) as Hq by (apply Hl; by left).
  apply audience_spec in Hq as (p & Hp & Hh); [|done..]. assert (GetRecipientPolicy f id q = lp_Policy p) as ->.
  { pose proof (cs_loadPolicy (CtxStore f) id q) as Hlp. unfold GetRecipientPolicy. by rewrite Hlp, findPolicy_polAt, Hp. }
  unfold hears in Hh. rewrite bool_decide_eq_false_2; [|by intros [Hb|Hb%list_elem_of_singleton]%elem_of_cons; rewrite Hb in Hh].
  cbn [negb]. f_equal. apply IH. intros r Hr. apply Hl. by right.
Qed.

(** What a send of the shell or the command line reports. *)
Lemma sendMulti_reports env lf id msg rs w w2 fn c fr : w_fans w !! lf = Some fn -> w_clients w !! fn_client fn = Some c ->
  sendMulti env lf id msg rs w = (w2, Ok fr) ->
  dr_Recipient <$> fr_Deliveries fr = GetEffectiveRecipients (se_io (fe_send env)) (withDisk (w_disk w) (set_client (refresh w c) (fn_fanout fn))) id rs.
Proof.
  intros Hf Hc. unfold sendMulti. rewrite (bind_run _ _ _ _ _ (fanAt_run _ _ _ Hf)). intros H.
  destruct (SendMultiMessage (withRelay env (fn_relay fn) (fe_send env)) (withDisk (w_disk w) (set_client (refresh w c) (fn_fanout fn))) id msg rs) as [[f' sent] r] eqn:Hs.
  rewrite (onFanSend_run lf fn c _ w f' sent r) in H by done. injection H as _ Hr. apply wrapErr_Ok in Hr as ->.
  by apply send_reports in Hs as (_ & Hd & _).
Qed.

(** What a policy command that reported success did. *)
Lemma execPolicy_success env lf sub id arg w w1 fn c t :
  w_fans w !! lf = Some fn -> w_clients w !! fn_client fn = Some c ->
  execPolicy env lf sub id arg w = (w1, Ok tt) -> list.last (w_out w1) = Some (Success t) ->
  exists peer policy fn1, (ResolvePeer env arg w).2 = Ok peer /\ policyForSub sub = Some policy /\
    w_fans w1 !! lf = Some fn1 /\ fn_client fn1 = fn_client fn /\ is_Some (w_clients w1 !! fn_client fn) /\
    cs_contexts (CtxStore (fn_fanout fn1)) = cs_contexts (CtxStore (fn_fanout fn)) /\
    cs_policies (CtxStore (fn_fanout fn1)) = insertPolicy (cs_policies (CtxStore (fn_fanout fn))) (mkPolicy id peer policy (fe_now env)).
Proof.
  intros Hf Hc H Hl. unfold execPolicy in H. rewrite (bind_run _ _ _ _ _ (ctxStore_run _ _ _ Hf)) in H.
  eapply orProblem_success in H as (wa & meta & Ha & H); [|done]. apply step_lift_Ok in Ha as [_ ->].
  eapply orProblem_success in H as (wb & peer & Hpeer & H); [|done].
  pose proof (ResolvePeer_disk _ _ _ _ _ Hpeer) as [d ->].
  eapply orProblem_success in H as (wc & u & Hb & H); [|done]. apply step_lift_Ok in Hb as [_ ->].
  eapply orProblem_success in H as (wd & policy & Hpol & H); [|done]. apply step_lift_Ok in Hpol as [Hpol%ofOption_Ok ->].
  eapply orProblem_success in H as (we & u' & Hset & H); [|done].
  exists peer, policy. rewrite Hpeer. cbn [snd]. unfold setPolicy in Hset.
  set (w0 := set_disk d w) in *.
  destruct (SetRecipientPolicy (fe_now env) (fe_io env 6) (withDisk (w_disk w0) (set_client (refresh w0 c) (fn_fanout fn))) id peer policy) as [f' r] eqn:Hs.
  rewrite (onFan_run lf fn c _ w0 f' r) in Hset by done. injection Hset as <- Hr.
  destruct (putFan_eq lf fn f' w0) as (Hcl & Hfa & _). unfold print, modify in H. injection H as <-.
  exists (mkFan (fn_client fn) (fn_relay fn) f'). cbn [set_out set_sent w_fans w_clients]. rewrite Hcl, Hfa, !lookup_insert_eq.
  unfold SetRecipientPolicy in Hs. destruct (SavePolicy _ _ _) as [s' r'] eqn:Hsp. injection Hs as <- <-.
  apply cs_savePolicy in Hsp as [Hc1 Hp1]. cbn [fn_fanout fn_client CtxStore set_CtxStore]. rewrite Hc1, Hp1.
  assert (forall d' f, cs_contexts (CtxStore (withDisk d' f)) = cs_contexts (CtxStore f) /\ cs_policies (CtxStore (withDisk d' f)) = cs_policies (CtxStore f)) as Hwd
    by (intros d' f; unfold withDisk; cbn [CtxStore set_deliveries set_CtxStore]; by destruct (CtxStore f)).
  destruct (Hwd (w_disk w0) (set_client (refresh w0 c) (fn_fanout fn))) as [-> ->]. conjs; try done.
Qed.

(** C29: The policy commands decide who gets a group's messages.  After [context
    add], [include], [exclude], [remove], [mute] or [block] has reported success, a
    message sent to the group reports on the peer the argument meant exactly when
    the command was [add], [include] or [mute], and on every other peer exactly
    when it would have been sent to before. *)
Theorem policy_decides_delivery env env' w w1 w2 lf fn c sub id arg t msg meta policies result :
  w_fans w !! lf = Some fn -> w_clients w !! fn_client fn = Some c ->
  pol_keyed (cs_policies (CtxStore (fn_fanout fn))) -> keyed mc_ContextID (cs_contexts (CtxStore (fn_fanout fn))) ->
  range_ok (fe_io env' 5) -> range_ok (se_io (fe_send env')) ->
  execPolicy env lf sub id arg w = (w1, Ok tt) -> list.last (w_out w1) = Some (Success t) ->
  (exists fn1, w_fans w1 !! lf = Some fn1 /\ ResolveContextRef env' (CtxStore (fn_fanout fn1)) id = Ok (meta, policies)) ->
  sendMulti env' lf (mc_ContextID meta) msg (reachable policies) w1 = (w2, Ok result) ->
  exists peer, (ResolvePeer env arg w).2 = Ok peer /\
    (peer ∈ dr_Recipient <$> fr_Deliveries result <-> sub ∈ [str "add"; str "include"; str "mute"]) /\
    forall q, q ≠ peer -> q ∈ dr_Recipient <$> fr_Deliveries result <-> q ∈ audience (fe_io env' 5) (CtxStore (fn_fanout fn)) id.
Proof.
  intros Hf Hc Hk Hkc Hio Hio' He Hl (fn1 & Hf1 & Href) Hs.
  destruct (execPolicy_success _ _ _ _ _ _ _ _ _ _ Hf Hc He Hl) as (peer & policy & fn1' & Hpeer & Hpol & Hf1' & Hfc & [c1 Hc1] & Hctx & Hpols).
  rewrite Hf1 in Hf1'. injection Hf1' as <-. rewrite <- Hfc in Hc1.
  rewrite (sendMulti_reports _ _ _ _ _ _ _ _ _ _ Hf1 Hc1 Hs). clear Hs.
  assert (pol_keyed (cs_policies (CtxStore (fn_fanout fn1)))) as Hk1 by (rewrite Hpols; by apply pol_keyed_insert).
  exists peer. split; [done|].
  set (f1 := withDisk (w_disk w1) (set_client (refresh w1 c1) (fn_fanout fn1))).
  assert (forall io i, ListPolicies io (CtxStore f1) i = ListPolicies io (CtxStore (fn_fanout fn1)) i) as Hlp by (intros; unfold f1; by rewrite withDisk_policies).
  assert (cs_policies (CtxStore f1) = cs_policies (CtxStore (fn_fanout fn1))) as Hp1.
  { unfold f1, withDisk. cbn [CtxStore set_deliveries set_CtxStore set_client]. by destruct (CtxStore (fn_fanout fn1)). }
  assert (mc_ContextID meta = id /\ policies = ListPolicies (fe_io env' 5) (CtxStore (fn_fanout fn1)) (mc_ContextID meta)) as [Hid ->].
  { unfold ResolveContextRef in Href. rewrite cs_load in Href. rewrite Hctx in Href. destruct (cs_contexts (CtxStore (fn_fanout fn)) !! id) as [m|] eqn:Hm; cbn [ofOption] in Href.
    - injection Href as <- <-. split; [by apply (Hkc id m)|done].
    - exfalso. unfold execPolicy in He. rewrite (bind_run _ _ _ _ _ (ctxStore_run _ _ _ Hf)) in He.
      eapply orProblem_success in He as (wa & m & Ha & _); [|done]. apply step_lift_Ok in Ha as [Ha _]. unfold loadContext in Ha. rewrite cs_load, Hm in Ha. done. }
  rewrite Hid in *. rewrite <- Hlp. fold (audience (fe_io env' 5) (CtxStore f1) id).
  rewrite audience_effective by (try done; by rewrite Hp1).
  assert (forall q, q ∈ audience (fe_io env' 5) (CtxStore f1) id <-> exists p, polAt (cs_policies (CtxStore (fn_fanout fn1))) id q = Some p /\ hears (lp_Policy p) = true) as Ha.
  { intros q. rewrite audience_spec by (try done; by rewrite Hp1). by rewrite Hp1. }
  split.
  - rewrite Ha, Hpols. setoid_rewrite polAt_insert. cbn [lp_ContextID lp_Recipient]. rewrite bool_decide_eq_true_2 by done.
    transitivity (hears policy = true); [split; [by intros (p & [= <-] & Hh)|intros Hh; eexists; split; [reflexivity|done]]|].
    unfold policyForSub, oneOf in Hpol. repeat case_bool_decide; [..|];
      repeat match type of Hpol with context [if bytes_eqb ?a ?b then _ else _] => destruct (bytes_eqb a b) eqn:?; bool_prop end; simplify_eq; cbn; set_solver.
  - intros q Hq. rewrite Ha, Hpols, audience_spec by done. setoid_rewrite polAt_insert. cbn [lp_ContextID lp_Recipient].
    rewrite bool_decide_eq_false_2 by (by intros [_ ?]). done.
Qed.

(** ** Handing copies over *)
Context `{CJL : !ContainerJSONLaws}.

Definition deliverLine (bob : bytes) : line := Plain (concat [str "  ▸ DELIVER TO "; Registry.ShortID bob; str " ◂"]).

(** The text of a copy. *)
Definition containerOf (ct : bytes) : bytes := marshalContainer (mkContainer (str "multimsg") (b64Encode (Wrap TypeMultiMsg ct))).

Definition copyLines (e : bytes * bytes) : list line := [deliverLine e.1; Plain (containerOf e.2)].

Lemma exportCopies_run l : forall n w, exportCopies n l w = (set_out (w_out w ++ (l ≫= copyLines)) w, Ok (n + len l)).
Proof.
  induction l as [|[bob ct] l IH]; intros n w; cbn [exportCopies].
  - unfold mret, Step_ret. rewrite Z.add_0_r. cbn. rewrite app_nil_r. by destruct w.
  - change (EncodeContainer TypeMultiMsg ct) with (@Ok frame_error bytes (containerOf ct)). cbv iota.
    erewrite bind_run by reflexivity. erewrite bind_run by reflexivity. rewrite IH. cbn [set_out w_out]. f_equal.
    + assert (forall a b, set_out a (set_out b (set_out ((w_out w ++ [deliverLine bob])) w)) = set_out a w) as -> by done. f_equal.
      cbn. by rewrite <- !app_assoc.
    + f_equal. unfold len. cbn [length]. lia.
Qed.

Lemma reportSend_out meta result w : exists pre post,
  reportSend false meta result w = (set_out (w_out w ++ pre ++ (exportable result ≫= copyLines) ++ post) w, Ok tt).
Proof.
  unfold reportSend. set (head := _ ++ _ ++ [_]). rewrite (bind_run _ _ _ _ _ (prints_run head w)). cbv iota.
  rewrite (bind_run _ _ _ _ _ (exportCopies_run _ _ _)). cbn [set_out w_out]. rewrite <- app_assoc.
  destruct (0 <? _).
  - eexists head, [_]. unfold print, modify. cbn [set_out w_out]. rewrite <- app_assoc, <- app_assoc. reflexivity.
  - exists head, []. rewrite app_nil_r. reflexivity.
Qed.

Lemma recordOutgoing_out env mb meta msg w : match mb with Some l => is_Some (w_mailboxes w !! l) | None => True end ->
  exists w' post, recordOutgoing env mb meta msg w = (w', Ok tt) /\ w_out w' = w_out w ++ post /\ w_clients w' = w_clients w.
Proof.
  destruct mb as [l|]; cbn [recordOutgoing]; [|intros _; exists w, []; by rewrite app_nil_r].
  intros [s Hs]. unfold orProblem, attempt, mbind, Step_bind. unfold Mailbox.AppendGroupOutgoing.
  destruct (mailbox_append (fe_io env 7) (fe_nanos env) (fe_millis env) (set_storeDisk (w_disk w) s) (Mailbox.groupKey (mc_ContextID meta)) (mc_DisplayName meta)
    (Mailbox.mkMessage [] Mailbox.Outgoing Mailbox.Group msg 0 false (str "Me") (mc_ContextID meta) (mc_DisplayName meta))) as (s' & r & Ha & Hnp & _).
  rewrite (onMailbox_run l s _ w s' r) by done. destruct r as [u|e|]; cbn [wrapErr]; [| |done].
  - eexists _, []. split; [reflexivity|]. cbn. by rewrite app_nil_r.
  - eexists _, [_]. split; [reflexivity|]. done.
Qed.

(** What [send-multi] prints: among the rest, one after the other, the copies. *)
Lemma execSendMulti_out env lf fn w w1 ctxRef words meta policies result :
  FanoutAt (w_state w) = Some lf -> is_Some (ActiveClient (w_state w)) -> Worker (w_state w) = false -> w_fans w !! lf = Some fn ->
  words ≠ [] -> ResolveContextRef env (CtxStore (fn_fanout fn)) ctxRef = Ok (meta, policies) -> reachable policies ≠ [] ->
  sendMulti env lf (mc_ContextID meta) (joinWords words) (reachable policies) w = (w1, Ok result) ->
  match MailboxStore (w_state w) with Some l => is_Some (w_mailboxes w1 !! l) | None => True end ->
  exists w' pre post, execSendMulti env (ctxRef :: words) w = (w', Ok tt) /\ w_out w' = w_out w1 ++ pre ++ (exportable result ≫= copyLines) ++ post /\
    w_clients w' = w_clients w1.
Proof.
  intros Hfa [la Hac] Hwk Hf Hw Href Hrs Hs Hmb. unfold execSendMulti. erewrite bind_run by reflexivity. rewrite Hfa, Hac.
  destruct words as [|x words]; [done|]. rewrite (bind_run _ _ _ _ _ (ctxStore_run _ _ _ Hf)). rewrite Href.
  unfold orProblem at 1, attempt, lift. unfold mbind at 1, Step_bind at 1.
  destruct (reachable policies) as [|r rs] eqn:Hr; [done|]. unfold orProblem at 1, attempt. unfold mbind at 1, Step_bind at 1. rewrite Hs, Hwk.
  destruct (reportSend_out meta result w1) as (pre & post & Hrep). rewrite (bind_run _ _ _ _ _ Hrep).
  destruct (recordOutgoing_out env (MailboxStore (w_state w)) meta (joinWords (x :: words)) (set_out (w_out w1 ++ pre ++ (exportable result ≫= copyLines) ++ post) w1))
    as (w' & post' & Hrec & Hout & Hcl); [done|].
  exists w', pre, (post ++ post'). rewrite Hrec, Hout. split; [done|]. cbn [set_out w_out]. split; [|done]. by rewrite <- !app_assoc.
Qed.

Lemma filtered_sublist {A} (f : A -> bool) l : List.filter f l `sublist_of` l.
Proof. induction l as [|x l IH]; [constructor|]. cbn [List.filter]. destruct (f x); by constructor. Qed.

(** Nobody is addressed twice. *)
Lemma audience_NoDup io (st : contexts) id : range_ok io -> pol_keyed (cs_policies st) -> NoDup (audience io st id).
Proof.
  intros Hio Hk. unfold audience, reachable. rewrite cs_listPolicies. unfold listPolicies. destruct (cs_policies st !! id) as [ps|] eqn:Hp; [|constructor].
  eapply sublist_NoDup; [|apply fmap_sublist, filtered_sublist].
  unfold sortPolicies, sortBy. rewrite merge_sort_Permutation, (Hio _ ps).
  assert (lp_Recipient <$> (map_to_list ps).*2 = (map_to_list ps).*1) as ->; [|apply NoDup_fst_map_to_list].
  rewrite <- list_fmap_compose. apply list_fmap_ext. intros i [k v] Hi. cbn. apply list_elem_of_lookup_2, elem_of_map_to_list in Hi.
  destruct (Hk id k v) as [_ Hr]; [|done]. unfold polAt. by rewrite Hp.
Qed.

(** A shell without a relay whose user types [send-multi] with [ref] and [words];
    [bob]'s session [sp] belongs to him alone. *)
Record sender_ready env w lf fn c lm (ref : bytes) (words : list bytes) meta policies (bob : bytes) la sp : Prop := {
  sr_fanout : FanoutAt (w_state w) = Some lf;
  sr_active : is_Some (ActiveClient (w_state w));
  sr_worker : Worker (w_state w) = false;
  sr_fan : w_fans w !! lf = Some fn;
  sr_client : w_clients w !! fn_client fn = Some c;
  sr_mailbox : MailboxStore (w_state w) = Some lm;
  sr_store : is_Some (w_mailboxes w !! lm);
  sr_words : words ≠ [];
  sr_ref : ResolveContextRef env (CtxStore (fn_fanout fn)) ref = Ok (meta, policies);
  sr_group : LoadContext (CtxStore (fn_fanout fn)) (mc_ContextID meta) = Ok meta;
  sr_keyed : pol_keyed (cs_policies (CtxStore (fn_fanout fn)));
  sr_range : range_ok (fe_io env 5) /\ range_ok (se_io (fe_send env));
  sr_version : 0 <= mc_MetadataVersion meta < 2 ^ 64;
  sr_fits : fits (mc_ContextID meta) /\ fits (cl_Id c) /\ fits bob;
  sr_id : length (se_msg (fe_send env)) = 16%nat;
  sr_session : cl_Sessions c !! bob = Some la /\ cl_heap c !! la = Some sp;
  sr_alone : forall q, cl_Sessions c !! q = Some la -> q = bob;
}.

(** What a paste needs: the client, its fan-out, its mailbox, and a session with the sender. *)
Record receiver_ready w lc c lf fn lm s (alice : bytes) lb sp : Prop := {
  rr_client : w_clients w !! lc = Some c;
  rr_fan : w_fans w !! lf = Some fn /\ fn_client fn = lc;
  rr_mailbox : w_mailboxes w !! lm = Some s;
  rr_keyed : keyed mc_ContextID (cs_contexts (CtxStore (fn_fanout fn)));
  rr_session : sessionFor c alice = Some lb /\ cl_heap c !! lb = Some sp;
}.

Lemma sendMulti_run env lf id msg rs w w1 fn c fr : w_fans w !! lf = Some fn -> w_clients w !! fn_client fn = Some c ->
  sendMulti env lf id msg rs w = (w1, Ok fr) -> exists f' sent,
    SendMultiMessage (withRelay env (fn_relay fn) (fe_send env)) (withDisk (w_disk w) (set_client (refresh w c) (fn_fanout fn))) id msg rs = (f', sent, Ok fr) /\
    w_clients w1 !! fn_client fn = Some (fo_client f') /\ w_mailboxes w1 = w_mailboxes w.
Proof.
  intros Hf Hc. unfold sendMulti. rewrite (bind_run _ _ _ _ _ (fanAt_run _ _ _ Hf)). intros H.
  destruct (SendMultiMessage (withRelay env (fn_relay fn) (fe_send env)) (withDisk (w_disk w) (set_client (refresh w c) (fn_fanout fn))) id msg rs) as [[f' sent] r] eqn:Hs.
  rewrite (onFanSend_run lf fn c _ w f' sent r) in H by done. injection H as <- Hr. apply wrapErr_Ok in Hr as ->.
  exists f', sent. destruct (putFan_eq lf fn f' w) as (Hcl & _ & Hmb & _). cbn [set_sent w_clients w_mailboxes]. by rewrite Hcl, Hmb, lookup_insert_eq.
Qed.

(** The message as the group's conversation shows it. *)
Definition groupIncoming env (alice ctxID name body : bytes) : Mailbox.Message :=
  Mailbox.mkMessage (dec (fe_nanos env)) Mailbox.Incoming Mailbox.Group body (fe_millis env) false alice ctxID name.

Lemma sendLoop_nonempty {S D} `{ContextStore S} `{DeliveryStore D} envs config m ctx c pt t eff : forall i cl (ds : D) st dl rs,
  sendLoop envs i config m ctx c pt t (cl, ds) eff = (st, Ok (dl, rs)) -> Forall (fun r => dr_Ciphertext r ≠ Some []) rs.
Proof.
  induction eff as [|q eff IH]; intros i cl ds st dl rs H2; cbn [sendLoop] in H2; [by injection H2 as _ _ <-; constructor|].
  destruct (sendOne _ _ _ _ _ _ _ _ _) as [[cl1 ds1] o1] eqn:H1. destruct o1 as [[d res]|e|]; [|done|done].
  destruct (sendLoop _ _ _ _ _ _ _ _ _ _) as [st2 o2] eqn:H3. destruct o2 as [[ds2 rs2]|e|]; [|done|done].
  injection H2 as _ _ <-. constructor; [|by eapply IH]. clear IH H3. unfold sendOne in H1.
  destruct (cl_Sessions cl !! q) as [l|]; [|destruct (SkipOffline config); by injection H1 as _ _ _ <-].
  destruct (cl_heap cl !! l) as [sp|]; [|done]. unfold encryptWithAAD in H1. destruct (wrapPayloadV2 _ _ _) as [w|e|]; [|by injection H1 as _ _ _ <-|done].
  destruct (Encrypt _ _ _ _) as [sp' [ct|e|]] eqn:He; cbn [wrapErr] in H1; [|by injection H1 as _ _ _ <-|done].
  injection H1 as _ _ _ <-. intros [= ->]. by apply Encrypt_nonempty in He.
Qed.

(** The member of the group behind a result, and the ciphertext made for it. *)
Lemma send_member env io (f f' : Fanout contexts deliveries) id msg sent fr n did bob ct :
  SendMultiMessage env f id msg (audience io (CtxStore f) id) = (f', sent, Ok fr) ->
  range_ok io -> range_ok (se_io env) -> pol_keyed (cs_policies (CtxStore f)) ->
  fr_Deliveries fr !! n = Some (mkResult did bob DeliverySent false (Some ct)) ->
  ct ≠ [] /\ exists pre post, length pre = n /\ bob ∉ pre ++ post /\
    GetEffectiveRecipients (se_io env) f id (audience io (CtxStore f) id) = pre ++ bob :: post.
Proof.
  intros Hs Hio Hio' Hk Hn. pose proof (audience_NoDup io (CtxStore f) id Hio Hk) as Hnd.
  pose proof Hs as Hs'. apply send_reports in Hs' as (_ & Hd & _).
  rewrite audience_effective in Hd |- * by done. split.
  - apply send_inv in Hs as (msgCtx & cl & ds & dl & results & _ & _ & _ & _ & Hl & Hdi). apply sendLoop_nonempty in Hl.
    apply dispatch_keeps in Hdi as [Hr _]. rewrite Hr in Hn. eapply (Forall_lookup_1 _ _ _ _ Hl) in Hn. cbn in Hn. congruence.
  - assert (audience io (CtxStore f) id !! n = Some bob) as Hb by (rewrite <- Hd, list_lookup_fmap, Hn; done).
    exists (take n (audience io (CtxStore f) id)), (drop (S n) (audience io (CtxStore f) id)).
    pose proof (take_drop_middle _ _ _ Hb) as Hsplit. rewrite Hsplit. split; [apply length_take_le; apply lookup_lt_Some in Hb; lia|]. split; [|done].
    rewrite <- Hsplit in Hnd. apply list.NoDup_app in Hnd as (_ & H1 & H2). apply list.NoDup_cons in H2 as [H2 _]. rewrite elem_of_app. intros [H|H]; [|done].
    apply (H1 _ H). by left.
Qed.

(** The group's name as the recipient shows it, by a description of the group. *)
Definition shownName (id : bytes) (c : option MessageContext) : bytes :=
  match c with
  | Some c => if bool_decide (mc_DisplayName c = []) then str "group:" ++ shortPeer id else mc_DisplayName c
  | None => str "group:" ++ shortPeer id
  end.

(** The sender's description of the group, or the recipient's own. *)
Definition describes (fn : Fan) (meta : MessageContext) (c : option MessageContext) : Prop :=
  c = Some meta \/ c = cs_contexts (CtxStore (fn_fanout fn)) !! mc_ContextID meta.

(** What comes of taking a message in: it is reported, and in the mailbox file; or
    a write of that file failed. *)
Definition taken (id : bytes) (io : storeIO) (d : fs) (ts : Mailbox.threads_t) (ie : IngestEvent) (r : res front_err IngestEvent) : Prop :=
  match r with
  | Ok ie' => ie' = ie /\ stored id d ts
  | Err e => io_first io ≠ noFaults /\ exists e', e = MailboxErr (Mailbox.MbStore e')
  | Panic => False
  end.

(** C13: A group message gets to its members without a relay.  When a user of a
    shell that has none sends to a group and the copy for a member is reported as
    encrypted, the shell prints the text of that copy after a line that says whom
    it is for; pasted by the member, over a session in step, it is taken in as a
    message of the group from the sender with the text that was typed, and is the
    newest unread message of the group's conversation, in the mailbox and in the
    mailbox that is loaded from the file afterwards.  Only if a write of the mailbox
    file fails is that error reported instead.  The sessions are in step again. *)
Theorem exported_copy_is_received envA envB wA w1 wB lfA fnA cA lmA ref words meta policies n did bob ct la spA
    lcB cB lfB fnB lmB sB lb spB result :
  let alice := cl_Id cA in
  let msg := joinWords words in
  let key := Mailbox.groupKey (mc_ContextID meta) in
  sender_ready envA wA lfA fnA cA lmA ref words meta policies bob la spA ->
  receiver_ready wB lcB cB lfB fnB lmB sB alice lb spB -> cl_Id cB = bob ->
  (forall c, describes fnB meta c ->
     can_store bob (fe_io envB 7) sB key (groupIncoming envB alice (mc_ContextID meta) (shownName (mc_ContextID meta) c) (decodeText msg))) ->
  sendMulti envA lfA (mc_ContextID meta) msg (reachable policies) wA = (w1, Ok result) ->
  fr_Deliveries result !! n = Some (mkResult did bob DeliverySent false (Some ct)) ->
  synced (Net spA spB [] []) -> send_ok (re_ratchet (se_recip (fe_send envA) n)) spA ->
  (alice, GenerateID (se_msg (fe_send envA))) ∉ seenMessages (fn_fanout fnB) ->
  exists wA' pre post wB' r cA' cB' c sB' spA' spB',
    let name := shownName (mc_ContextID meta) c in
    execSendMulti envA (ref :: words) wA = (wA', Ok tt) /\
    w_out wA' = pre ++ [deliverLine bob; Plain (containerOf ct)] ++ post /\
    Ingest envB lcB (Some lmB) (Some lfB) (containerOf ct) wB = (wB', r) /\ describes fnB meta c /\
    taken bob (fe_io envB 7) (w_disk wB') (Mailbox.threads sB') (mkIngest (str "group_message") alice name (mc_ContextID meta) (decodeText msg)) r /\
    w_mailboxes wB' !! lmB = Some sB' /\
    msgsAt (Mailbox.threads sB') key = msgsAt (Mailbox.threads sB) key ++ [groupIncoming envB alice (mc_ContextID meta) name (decodeText msg)] /\
    w_clients wA' !! fn_client fnA = Some cA' /\ w_clients wB' !! lcB = Some cB' /\
    cl_heap cA' !! la = Some spA' /\ cl_heap cB' !! lb = Some spB' /\ synced (Net spA' spB' [] []).
Proof.
  intros alice msg key HA HB Hbob Hcan Hsend Hres Hsync Hok Hnew. destruct HA, HB. destruct sr_range0 as [? ?], sr_fits0 as (? & ? & ?), sr_session0, rr_fan0 as [? Hfc], rr_session0.
  destruct (sendMulti_run _ _ _ _ _ _ _ _ _ _ sr_fan0 sr_client0 Hsend) as (fA' & sent & Hsm & HclA & HmbA).
  set (fA := withDisk (w_disk wA) (set_client (refresh wA cA) (fn_fanout fnA))) in *.
  assert (policies = ListPolicies (fe_io envA 5) (CtxStore fA) (mc_ContextID meta)) as Hpol.
  { unfold fA. rewrite withDisk_policies. cbn [CtxStore set_client]. revert sr_ref0. unfold ResolveContextRef. cbv zeta.
    destruct (LoadContext _ ref); [|destruct (find _ _); [|done]|done]; by intros [= <- <-]. }
  assert (pol_keyed (cs_policies (CtxStore fA))) as HkA.
  { unfold fA, withDisk. cbn [CtxStore set_deliveries set_CtxStore set_client]. by destruct (CtxStore (fn_fanout fnA)). }
  rewrite Hpol in Hsm. fold (audience (fe_io envA 5) (CtxStore fA) (mc_ContextID meta)) in Hsm.
  assert (se_io (withRelay envA (fn_relay fnA) (fe_send envA)) = se_io (fe_send envA)) as Hio by done.
  destruct (send_member _ _ _ _ _ _ _ _ _ _ _ _ Hsm H ltac:(by rewrite Hio) HkA Hres) as (Hct & pre & post & Hn & Halone & Heff).
  set (fB := withDisk (w_disk wB) (set_client (refresh wB cB) (fn_fanout fnB))).
  assert (Forall (fun r => cl_Sessions (fo_client fA) !! r ≠ Some la) (pre ++ post)) as Hothers.
  { apply list.Forall_forall. intros q Hq Hqs. apply sr_alone0 in Hqs as ->. done. }
  destruct (group_delivery_core (withRelay envA (fn_relay fnA) (fe_send envA)) fA fA' fB (mc_ContextID meta) msg _ sent result pre bob post la lb spA spB meta did ct
    (fe_save envB) (fe_io envB 6) Hsm Heff) as (fB' & ctx & spA' & spB' & Hp & HhA & HhB & Hsync' & Hctx); try done.
  { by rewrite Hn. }
  { unfold fA. by rewrite withDisk_load. }
  { unfold send_ok in *. cbn [se_recip withRelay]. by rewrite Hn. }
  destruct (execSendMulti_out envA lfA fnA wA w1 ref words meta policies result) as (wA' & pre' & post' & Hexec & Hout & HclA'); try done.
  { intros Hr. rewrite Hpol in Hr. unfold audience in Heff. rewrite Hr in Heff. by destruct pre. }
  { by rewrite sr_mailbox0, HmbA. }
  assert (exists pre2 post2, exportable result = pre2 ++ (bob, ct) :: post2) as (pre2 & post2 & Hexp).
  { unfold exportable. rewrite <- (take_drop_middle _ _ _ Hres), omap_app. cbn [omap list_omap dr_Status dr_Ciphertext dr_Recipient].
    destruct ct as [|x ct]; [done|]. by eexists _, _. }
  set (body := decodeText msg). set (alice' := cl_Id (fo_client fA)) in Hp.
  set (inbound := mkInbound alice' _ ctx msg) in Hp.
  assert (InboundMessage_ContextID inbound = mc_ContextID meta) as HctxID.
  { unfold InboundMessage_ContextID. cbn [im_Context inbound im_Meta dm_ContextID]. destruct Hctx as [->|Hctx]; [by case_bool_decide|].
    destruct ctx as [c0|]; [|done]. symmetry in Hctx. assert (mc_ContextID c0 = mc_ContextID meta) as ->; [|by case_bool_decide].
    apply rr_keyed0. revert Hctx. unfold fB, withDisk. cbn [CtxStore set_deliveries set_CtxStore set_client]. by destruct (CtxStore (fn_fanout fnB)). }
  assert (describes fnB meta ctx) as Hdesc.
  { destruct Hctx as [->| ->]; [by left|right]. unfold fB, withDisk. cbn [CtxStore set_deliveries set_CtxStore set_client]. by destruct (CtxStore (fn_fanout fnB)). }
  assert (InboundMessage_DisplayName inbound = shownName (mc_ContextID meta) ctx) as Hname by done.
  set (name := shownName (mc_ContextID meta) ctx) in *.
  assert (w_clients wB !! fn_client fnB = Some cB) as HcB by (by rewrite Hfc).
  pose proof (onFan_run lfB fnB cB (fun f => ProcessDelivery (fe_save envB) (fe_io envB 6) f (cl_Id cB) ct) wB fB' (Ok inbound)) as Hrun.
  rewrite Hbob in Hrun. specialize (Hrun ltac:(done) HcB Hp). cbn [wrapErr] in Hrun. set (wB1 := set_sent _ _) in Hrun.
  assert (w_clients wB1 = <[fn_client fnB := fo_client fB']> (w_clients wB) /\ w_mailboxes wB1 = w_mailboxes wB) as [HclB HmbB]
    by (destruct (putFan_eq lfB fnB fB' wB) as (? & _ & ? & _); done).
  clearbody wB1.
  destruct (Mailbox.append (fe_io envB 7) (fe_nanos envB) (fe_millis envB) (set_storeDisk (w_disk wB1) sB) key name
    (Mailbox.mkMessage [] Mailbox.Incoming Mailbox.Group body 0 false alice (mc_ContextID meta) name)) as [sB' r] eqn:Happ.
  assert (can_store bob (fe_io envB 7) (set_storeDisk (w_disk wB1) sB) key (groupIncoming envB alice (mc_ContextID meta) name body)) as Hcan' by (by destruct (Hcan ctx Hdesc); split).
  apply (append_written _ _ _ bob) in Happ as Haw; [|exact Hcan']. destruct Haw as (_ & _ & Hwr & Hmsgs). specialize (Hmsgs key). rewrite bool_decide_eq_true_2 in Hmsgs by done.
  assert (exists wB', Ingest envB lcB (Some lmB) (Some lfB) (containerOf ct) wB
      = (wB', match r with Ok _ => Ok (mkIngest (str "group_message") alice name (mc_ContextID meta) body) | Err e => Err (MailboxErr e) | Panic => Panic end) /\
    w_clients wB' = w_clients wB1 /\ w_mailboxes wB' = <[lmB := sB']> (w_mailboxes wB1) /\ w_disk wB' = Mailbox.disk sB') as (wB' & Hing & HclB' & HmbB' & HdB').
  { unfold Ingest. destruct (frame_roundtrip ex_uni TypeMultiMsg ct eq_refl) as (_ & text & Henc & Hdec). injection Henc as <-.
    change (marshalContainer _) with (containerOf ct) in Hdec. rewrite Hdec. cbn [TypeMultiMsg]. unfold ingestGroup, mbind, Step_bind.
    rewrite (clientAt_run _ _ _ rr_client0), Hbob. unfold attempt. rewrite Hrun. rewrite HctxID, Hname.
    change (im_Sender inbound) with alice. change (decodeText (im_Plaintext inbound)) with body.
    unfold Mailbox.AppendGroupIncoming. fold key. rewrite (record_run wB1 lmB sB _ sB' r) by (by rewrite ?HmbB).
    destruct r as [u|e|]; cbn [wrapErr mret Step_ret]; (eexists; split; [reflexivity|]; done). }
  exists wA', (w_out w1 ++ pre' ++ (pre2 ≫= copyLines)), ((post2 ≫= copyLines) ++ post'), wB',
    (match r with Ok _ => Ok (mkIngest (str "group_message") alice name (mc_ContextID meta) body) | Err e => Err (MailboxErr e) | Panic => Panic end),
    (fo_client fA'), (fo_client fB'), ctx, sB', spA', spB'. cbv zeta. fold name body.
  rewrite HclA', HclA, HclB', HclB, Hfc, HmbB', !lookup_insert_eq. conjs; try done.
  - rewrite Hout, Hexp, bind_app, bind_cons. unfold copyLines at 2. cbn [fst snd]. by rewrite <- !app_assoc.
  - rewrite HdB'. destruct r as [u|e|]; cbn [MailboxSaved.written taken] in *; [done| |done]. destruct Hwr as (Hf & (e' & ->) & _). split; [done|by eexists].
Qed.

(** ** What the user typed *)

(** A reference means the group with that ID; else a group with that name, in any
    case; else it is an error. *)
Theorem context_ref_spec env (st : contexts) ref :
  match ResolveContextRef env st ref with
  | Ok (meta, policies) =>
      policies = ListPolicies (fe_io env 5) st (mc_ContextID meta) /\
      (cs_contexts st !! ref = Some meta \/
       (cs_contexts st !! ref = None /\ meta ∈ ListContexts (fe_io env 5) st /\ EqualFold (mc_DisplayName meta) ref = true))
  | Err e => e = NoContext ref /\ cs_contexts st !! ref = None /\ forall c, c ∈ ListContexts (fe_io env 5) st -> EqualFold (mc_DisplayName c) ref = false
  | Panic => False
  end.
Proof.
  unfold ResolveContextRef. cbv zeta. rewrite cs_load. destruct (cs_contexts st !! ref) as [m|]; cbn [ofOption]; [by split; [|left]|].
  destruct (List.find _ _) as [m|] eqn:Hf.
  - apply find_some in Hf as [Hin Hm]. split; [done|]. right. by rewrite list_elem_of_In.
  - conjs; [done..|]. intros c Hc. by apply (find_none _ _ Hf), list_elem_of_In.
Qed.

(** What was typed is never resolved between two peers: when several known peers
    start with it, the mailbox command reports that, also if a group has the name. *)
Theorem thread_key_not_between_peers env arg i ms w w1 :
  ResolvePeer env arg w = (w1, Err (PeerErr (Registry.AmbiguousPeerError i ms))) -> hasPrefix (str "ctx:") arg = false -> hasPrefix (str "group:") arg = false ->
  ResolveThreadKey env arg w = (w1, Err (PeerErr (Registry.AmbiguousPeerError i ms))).
Proof.
  intros H H1 H2. unfold ResolveThreadKey. erewrite bind_run by reflexivity. rewrite H1, H2. cbn [orb].
  assert (attempt (ResolvePeer env arg) w = (w1, Ok (inl (PeerErr (Registry.AmbiguousPeerError i ms))))) as Ha by (unfold attempt; by rewrite H).
  by rewrite (bind_run _ _ _ _ _ Ha).
Qed.

(** A conversation without messages cannot be listed: the command panics. *)
Theorem render_empty_thread_panics t (ts1 ts2 : list Mailbox.Thread) group : Mailbox.t_Messages t = [] ->
  forall w, (printThreads group (ts1 ++ t :: ts2) w).2 = Panic.
Proof.
  intros Ht. induction ts1 as [|x ts1 IH]; intros w; cbn [app printThreads].
  - unfold printThreadLine. by rewrite Ht.
  - unfold printThreadLine at 1. destruct (list.last (Mailbox.t_Messages x)) as [m|]; [|done].
    erewrite bind_run by reflexivity.
    destruct group; [unfold printMembersPreview; destruct (membersPreview x)|]; erewrite bind_run by reflexivity; apply IH.
Qed.

End Theorems.

(** ** Concrete runs

    Two shells over the sessions of [SessionTheorems]; the group has a member who
    can be reached and one who is blocked. *)
#[local] Existing Instance noSurroundings.

#[local] Instance plainText : FrontText := {| ft_fold a b := bytes_eqb a b; ft_sendError _ := []; ft_day _ := []; ft_clock _ := []; ft_when _ := [] |}.

Definition chatEnv : frontEnv :=
  mkFrontEnv (fun _ => demoIO) true (demoBytes 16 x51) demoSend (fun _ => true) [] [] (demoRand x03 x04) [] [x09] (demoBytes 32 x22) 77 5 9
    noFaults (fun s => map_to_list s) (mkInput true false None) false true true (fun _ => Written) None true.

Definition chatStore : Memory.MemoryContextStore :=
  Memory.mkStore {[str "g1" := demoContext]}
    {[str "g1" := {[str "bo" := mkPolicy (str "g1") (str "bo") PolicyEnabled 1; str "eve" := mkPolicy (str "g1") (str "eve") PolicyBlocked 1]}]}.

Definition chatFan (c : Client) (st : Memory.MemoryContextStore) : Fan :=
  mkFan 0%nat false (NewFanout c (inl st : contexts) (inl noDeliveries : deliveries) DefaultFanoutConfig).

(** A shell whose objects are the client, the mailbox and the fan-out. *)
Definition chatWorld (c : Client) (st : Memory.MemoryContextStore) : World :=
  mkWorld {[0%nat := c]} {[1%nat := Mailbox.mkStore (Mailbox.fileFor (cl_Id c)) ∅ ∅]} {[2%nat := chatFan c st]} 3%nat ∅ ∅ [] [] []
    (mkState ∅ (Some 0%nat) (Some 1%nat) (Some 2%nat) false).

Definition chatA : Client := clientOf demoCreator (str "bo") demoA.
Definition chatB : Client := clientOf (str "bo") demoCreator demoB.
Definition chatWA : World := chatWorld chatA chatStore.
(** The recipient knows the group, too. *)
Definition chatStoreB : Memory.MemoryContextStore := Memory.mkStore {[str "g1" := demoContext]} ∅.
Definition chatWB : World := chatWorld chatB chatStoreB.

Lemma chatStore_keyed : pol_keyed (Memory.policies chatStore).
Proof.
  intros c r p H. unfold polAt, chatStore in H. cbn [Memory.policies] in H. destruct (decide (c = str "g1")) as [->|Hc]; [|by rewrite lookup_singleton_ne in H].
  rewrite lookup_singleton_eq in H. cbn [mbind option_bind] in H.
  destruct (decide (r = str "bo")) as [->|Hr]; [rewrite lookup_insert_eq in H; by injection H as <-|]. rewrite lookup_insert_ne in H by done.
  destruct (decide (r = str "eve")) as [->|Hr']; [|by rewrite lookup_singleton_ne in H]. rewrite lookup_singleton_eq in H. by injection H as <-.
Qed.

Definition chatSent := sendMulti chatEnv 2%nat (str "g1") (str "hi all") [str "bo"] chatWA.

Definition chatResult : FanoutResult := Eval vm_compute in
  match chatSent.2 with Ok r => r | _ => mkFanoutResult [] [] zeroContext [] 0 end.

Definition chatCt : bytes := Eval vm_compute in
  match fr_Deliveries chatResult with [mkResult _ _ _ _ (Some ct)] => ct | _ => [] end.

Lemma run_result {A B} (x : A * B) b : x.2 = b -> x = (x.1, b).
Proof. by intros <-; destruct x. Qed.

Lemma chatSent_eq : chatSent = (chatSent.1, Ok chatResult).
Proof. apply run_result. vm_compute. reflexivity. Qed.

Lemma chat_described c : describes (chatFan chatB chatStoreB) demoContext c -> shownName (mc_ContextID demoContext) c = mc_DisplayName demoContext.
Proof. intros [->| ->]; vm_compute; reflexivity. Qed.

Lemma chat_can_store c : describes (chatFan chatB chatStoreB) demoContext c ->
  can_store (str "bo") (fe_io chatEnv 7) (Mailbox.mkStore (Mailbox.fileFor (cl_Id chatB)) ∅ ∅) (Mailbox.groupKey (mc_ContextID demoContext))
    (groupIncoming chatEnv demoCreator (mc_ContextID demoContext) (shownName (mc_ContextID demoContext) c) (decodeText (joinWords [str "hi"; str "all"]))).
Proof.
  intros Hc. rewrite (chat_described c Hc). apply empty_can_store; [exact demoIO_range|discriminate|unfold msg_ok; cbn; auto with lia|vm_compute; reflexivity].
Qed.

Lemma exported_copy_is_received_witness :
  exists wA' pre post wB' sB',
    execSendMulti chatEnv [str "g1"; str "hi"; str "all"] chatWA = (wA', Ok tt) /\
    w_out wA' = pre ++ [deliverLine (str "bo"); Plain (containerOf chatCt)] ++ post /\
    Ingest chatEnv 0%nat (Some 1%nat) (Some 2%nat) (containerOf chatCt) chatWB
      = (wB', Ok (mkIngest (str "group_message") demoCreator (mc_DisplayName demoContext) (str "g1") (str "hi all"))) /\
    w_mailboxes wB' !! 1%nat = Some sB' /\ stored (str "bo") (w_disk wB') (Mailbox.threads sB') /\
    msgsAt (Mailbox.threads sB') (Mailbox.groupKey (str "g1")) = [groupIncoming chatEnv demoCreator (str "g1") (mc_DisplayName demoContext) (str "hi all")].
Proof.
  destruct (exported_copy_is_received chatEnv chatEnv chatWA chatSent.1 chatWB 2%nat (chatFan chatA chatStore) chatA 1%nat (str "g1") [str "hi"; str "all"] demoContext
    (ListPolicies demoIO (inl chatStore : contexts) (str "g1")) 0%nat (GenerateID [byteZ 0]) (str "bo") chatCt 0%nat demoA
    0%nat chatB 2%nat (chatFan chatB chatStoreB) 1%nat (Mailbox.mkStore (Mailbox.fileFor (cl_Id chatB)) ∅ ∅) 0%nat demoB chatResult)
    as (wA' & pre & post & wB' & r & cA' & cB' & c & sB' & spA' & spB' & H1 & H2 & H3 & Hd & H4 & H5 & H6 & _).
  - split.
    + reflexivity.
    + by eexists.
    + reflexivity.
    + reflexivity.
    + reflexivity.
    + reflexivity.
    + by eexists.
    + discriminate.
    + vm_compute. reflexivity.
    + vm_compute. reflexivity.
    + exact chatStore_keyed.
    + split; exact demoIO_range.
    + split; vm_compute; [discriminate|reflexivity].
    + repeat split; vm_compute; discriminate.
    + reflexivity.
    + split; vm_compute; reflexivity.
    + intros q Hq. unfold chatA, clientOf in Hq. cbn [cl_Sessions] in Hq. by apply lookup_singleton_Some in Hq as [<- _].
  - split.
    + reflexivity.
    + by split.
    + reflexivity.
    + by apply map_Forall_singleton.
    + split; vm_compute; reflexivity.
  - reflexivity.
  - exact chat_can_store.
  - exact chatSent_eq.
  - vm_compute. reflexivity.
  - exact demo_synced.
  - split; [reflexivity|]. split; [vm_compute; discriminate|vm_compute; reflexivity].
  - apply not_elem_of_empty.
  - exists wA', pre, post, wB', sB'. rewrite (chat_described c Hd) in H4, H6. split; [exact H1|]. split; [exact H2|].
    destruct r as [ie|e|]; cbn [taken] in H4; [|destruct H4 as [H4 _]; exfalso; apply H4; reflexivity|contradiction].
    destruct H4 as [-> H4]. split; [exact H3|]. split; [exact H5|]. split; [exact H4|exact H6].
Defined.

Lemma ingest_is_dispatch_witness :
  let json := noJSON in exists b,
  let '(d', sent, r) := DispatchFrame (dispatchOf chatEnv) (depsAt b chatWB chatB (fn_fanout (chatFan chatB chatStoreB)) (Mailbox.mkStore (Mailbox.fileFor (cl_Id chatB)) ∅ ∅))
    (Wrap TypeMultiMsg chatCt) in
  let '(w', r') := Ingest chatEnv 0%nat (Some 1%nat) (Some 2%nat) (containerOf chatCt) chatWB in
  sent = [] /\ sameOutcome r r' /\ w_clients w' !! 0%nat = Some (dp_client d').
Proof.
  intros json. destruct (ingest_is_dispatch chatEnv chatWB 0%nat chatB 1%nat (Mailbox.mkStore (Mailbox.fileFor (cl_Id chatB)) ∅ ∅) 2%nat
    (chatFan chatB chatStoreB) (containerOf chatCt) TypeMultiMsg chatCt) as [b H].
  - reflexivity.
  - reflexivity.
  - reflexivity.
  - reflexivity.
  - vm_compute. reflexivity.
  - vm_compute. discriminate.
  - by right.
  - exists b. destruct (DispatchFrame _ _ _) as [[d' sent] r]. destruct (Ingest _ _ _ _ _ _) as [w' r']. destruct H as (H1 & H2 & H3 & _).
    split; [exact H1|]. split; [exact H2|exact H3].
Defined.

(** [context block g1 <id>], and a message after it. *)
Definition chatBlocked := execPolicy chatEnv 2%nat (str "block") (str "g1") demoCreator chatWA.
Definition chatAfter := sendMulti chatEnv 2%nat (str "g1") (str "hi") [str "bo"] chatBlocked.1.

Lemma chatBlocked_ok : chatBlocked.2 = Ok tt /\ match list.last (w_out chatBlocked.1) with Some (Success _) => True | _ => False end.
Proof. split; vm_compute; [reflexivity|exact I]. Qed.

Lemma chatAfter_ok : match chatAfter.2 with Ok r => dr_Recipient <$> fr_Deliveries r = [str "bo"] | _ => False end.
Proof. vm_compute. reflexivity. Qed.

Definition chatPolicies : list LocalRecipientPolicy :=
  [mkPolicy (str "g1") demoCreator PolicyBlocked 77; mkPolicy (str "g1") (str "bo") PolicyEnabled 1; mkPolicy (str "g1") (str "eve") PolicyBlocked 1].

Lemma chatBlocked_ref : match w_fans chatBlocked.1 !! 2%nat with
  | Some fn1 => ResolveContextRef chatEnv (CtxStore (fn_fanout fn1)) (str "g1") = Ok (demoContext, chatPolicies) | None => False end.
Proof. vm_compute. reflexivity. Qed.

Lemma policy_decides_delivery_witness : exists w1 w2 result peer,
  execPolicy chatEnv 2%nat (str "block") (str "g1") demoCreator chatWA = (w1, Ok tt) /\
  sendMulti chatEnv 2%nat (str "g1") (str "hi") [str "bo"] w1 = (w2, Ok result) /\
  (ResolvePeer chatEnv demoCreator chatWA).2 = Ok peer /\ ~ peer ∈ dr_Recipient <$> fr_Deliveries result.
Proof.
  pose proof chatBlocked_ok as [Hb Hl]. unfold chatBlocked in *. destruct (execPolicy chatEnv 2%nat (str "block") (str "g1") demoCreator chatWA) as [w1 o] eqn:He.
  cbn [fst snd] in Hb, Hl. subst o. destruct (list.last (w_out w1)) as [[]|] eqn:Hlast; try contradiction.
  pose proof chatAfter_ok as Ha. unfold chatAfter, chatBlocked in Ha. rewrite He in Ha. cbn [fst] in Ha.
  destruct (sendMulti chatEnv 2%nat (str "g1") (str "hi") [str "bo"] w1) as [w2 [result|e|]] eqn:Hs; [|contradiction|contradiction].
  pose proof chatBlocked_ref as Href. unfold chatBlocked in Href. rewrite He in Href. cbn [fst] in Href.
  destruct (w_fans w1 !! 2%nat) as [fn1|] eqn:Hf1; [|contradiction].
  destruct (policy_decides_delivery chatEnv chatEnv chatWA w1 w2 2%nat (chatFan chatA chatStore) chatA (str "block") (str "g1") demoCreator text (str "hi")
    demoContext chatPolicies result)
    as (peer & Hp & Hi & _).
  - reflexivity.
  - reflexivity.
  - exact chatStore_keyed.
  - intros k m Hm. cbn in Hm. by apply lookup_singleton_Some in Hm as [<- <-].
  - exact demoIO_range.
  - exact demoIO_range.
  - exact He.
  - exact Hlast.
  - exists fn1. split; [exact Hf1|exact Href].
  - exact Hs.
  - exists w1, w2, result, peer. split; [reflexivity|]. split; [exact Hs|]. split; [exact Hp|]. rewrite Hi. apply (bool_decide_unpack (~ _)). vm_compute. exact I.
Defined.

(** Two groups with one name: which is meant depends on the order the runtime ranges
    over its maps in. *)
Definition twoGroups : contexts := inr (File.mkStore [] []
  {[str "g1" := mkContext (str "g1") (str "club") 1 [] []; str "g2" := mkContext (str "g2") (str "club") 1 [] []]} ∅ ∅).

Definition withIO (io : storeIO) (e : frontEnv) : frontEnv :=
  mkFrontEnv (fun _ => io) (fe_save e) (fe_context e) (fe_send e) (fe_relay e) (fe_ed e) (fe_dil e) (fe_peer e) (fe_offer e) (fe_encaps e) (fe_rand e) (fe_now e)
    (fe_nanos e) (fe_millis e) (fe_contacts e) (fe_order e) (fe_stdin e) (fe_tty e) (fe_stdout e) (fe_mkdir e) (fe_write e) (fe_connect e) (fe_readdir e).

Definition otherOrder : storeIO := mkIO noFaults noFaults (fun A m => rev (map_to_list m)).

Lemma otherOrder_range : range_ok otherOrder.
Proof. intros A m. cbn. symmetry. apply Permutation_rev. Qed.

Example group_name_ambiguous :
  (fun r => match r with Ok (m, _) => mc_ContextID m | _ => [] end) <$>
    [ResolveContextRef chatEnv twoGroups (str "Club"); ResolveContextRef (withIO otherOrder chatEnv) twoGroups (str "Club")] = [str "g1"; str "g2"] \/
  (fun r => match r with Ok (m, _) => mc_ContextID m | _ => [] end) <$>
    [ResolveContextRef chatEnv twoGroups (str "Club"); ResolveContextRef (withIO otherOrder chatEnv) twoGroups (str "Club")] = [str "g2"; str "g1"].
Proof. first [left; vm_compute; reflexivity | right; vm_compute; reflexivity]. Qed.
