(* ===== verification/Completion.v ===== *)
(** * What the sub-shells tell of their commands, and completion
    ([internal/registry/completion.go], [cmd/shell/completer.go])

    A command describes its arguments by the kind of each slot, or brings a
    completer of its own; help and completion are computed from the descriptions.
    [Do] is called by the line editor with the line and the cursor, both in runes. *)
From S2P Require Import Prelude Steps GoStd Sha256 External SecurePeer Session Engine Client Codec Frame Binstore Records MultiMsg MultiStore Fanout Mailbox Contacts Dispatch.
From S2P Require Import Registry Shell Transport Ops OpsFrames Front GroupChat.
#[local] Open Scope Z_scope.

Module Completion.
Import Ops Frames Front GroupChat Steps.

Inductive ArgKind := ArgText | ArgPeer | ArgIdentity | ArgContext | ArgThread.

#[export] Instance ArgKind_dec : EqDecision ArgKind.
Proof. solve_decision. Defined.

Record CommandSpec := mkSpec {
  sp_Name : bytes;
  sp_Aliases : list bytes;
  sp_Args : list ArgKind;
  sp_Variadic : ArgKind;
  sp_Usage : bytes;
  sp_Help : bytes;
  sp_Complete : option (list bytes -> Z -> bytes -> M (list bytes));
}.

(** ** Descriptions *)
Definition ArgKindAt (c : CommandSpec) (i : nat) : ArgKind := default (sp_Variadic c) (sp_Args c !! i).

Definition Names (c : CommandSpec) : list bytes := sp_Name c :: sp_Aliases c.

Definition usage (c : CommandSpec) : bytes := if negb (bytes_eqb (sp_Usage c) []) then sp_Usage c else sp_Name c.

Definition BaseCommands : list CommandSpec :=
  [mkSpec (str "help") [] [] ArgText [] (str "Show this command list") None;
   mkSpec (str "switch") [str "exit"] [] ArgText (str "switch / exit") (str "Return to the main menu") None].

Definition IdentityCommand (help : bytes) : CommandSpec := mkSpec (str "load") [] [ArgIdentity] ArgText (str "load <id>") help None.

Definition PeersCommand : CommandSpec := mkSpec (str "peers") [] [] ArgText [] (str "List every peer ID this shell can complete") None.

Definition MessageCommand (name : bytes) (aliases : list bytes) : CommandSpec :=
  mkSpec name aliases [ArgPeer] ArgText (name ++ str " <peer> <msg>") [] None.

Definition FindCommand (specs : list CommandSpec) (name : bytes) : option CommandSpec :=
  List.find (fun s => List.existsb (fun n => bytes_eqb n name) (Names s)) specs.

(** The words of all commands as a set; [order] is how the set is ranged over. *)
Definition addName (m : Registry.set) (n : bytes) : Registry.set := if negb (bytes_eqb n []) then <[n := true]> m else m.
Definition CommandNames (io : storeIO) (specs : list CommandSpec) : list bytes :=
  Registry.sortedKeys io (fold_left (fun m s => fold_left addName (Names s) m) specs ∅).

(** [%-*s] *)
Definition padTo (width : Z) (s : bytes) : bytes := s ++ repeat x20 (Z.to_nat (width - len (toRunes s))).

Definition RenderHelp (specs : list CommandSpec) : M unit :=
  let width := fold_left (fun w s => Z.max w (len (usage s))) specs 0 in
  prints ([Plain []; Plain (str "Commands:")]
          ++ ((fun s => Plain (concat [str "  "; padTo width (usage s); str "  - "; sp_Help s])) <$> specs)
          ++ [Plain []; Plain (str "Tip: press Tab to complete commands, peer IDs, contact aliases");
              Plain (str "     and local identities. Press Tab twice to list all candidates.")]).

Section Completion.
Context `{N : Nanopack} `{P : Prims} `{J : LegacyJSON} `{R : RecordStore} `{X : Surroundings} `{FT : FrontText}.
Context (env : frontEnv).

(** ** internal/groupchat: the commands for groups *)
Definition ContextCommandSpec : CommandSpec :=
  mkSpec (str "context") [] [] ArgText (str "context <create|list|show|rename|add|exclude|remove|include|mute|block|members> ...")
    (str "Manage multi-message contexts (groups)") (Some (CompleteContextArgs env)).

Definition Specs : list CommandSpec :=
  [ContextCommandSpec;
   mkSpec (str "send-multi") [] [ArgContext; ArgText] ArgText (str "send-multi <context_id> <message>")
     (str "Encrypt one copy per member; relay or export containers") None;
   mkSpec (str "contexts") [] [] ArgText [] (str "List all multi-message contexts") None;
   mkSpec (str "mailbox") [] [ArgThread] ArgText (str "mailbox [peer|group]")
     (str "List chats & groups, or read one thread (marks read)") None].

(** ** peers.go: candidates over the state of a shell *)
Definition ThreadCandidates : M (list bytes) :=
  book ← contactBook env; w ← gets id; mret (Registry.ThreadCandidates (fe_io env 4) book (peersView w)).

(** The files of the working directory: the profiles, and those of the disk whose
    path has no directory. *)
Definition fileNames (w : World) : list bytes :=
  ((fun p => p.1 ++ str ".json") <$> map_to_list (w_profiles w))
  ++ List.filter (fun p => negb (bool_decide (x2f ∈ p))) (map_to_list (w_disk w)).*1.

Definition addIdentity (m : Registry.set) (name : bytes) : Registry.set :=
  if negb (hasSuffix (str ".json") name) then m else
  let id := trimSuffix (str ".json") name in
  if (negb (bytes_eqb id []) && negb (bytes_eqb id (str "contacts")))%bool then <[id := true]> m else m.

Definition IdentityCandidates : M (list bytes) :=
  w ← gets id;
  mret (if fe_readdir env then Registry.sortedKeys (fe_io env 4) (fold_left addIdentity (fileNames w) ∅) else []).

Definition PrintPeers (hint : bytes) : M unit :=
  candidates ← PeerCandidates_ env;
  match candidates with
  | [] => print (Plain (concat [str "  [i] No known peers yet — "; hint; str " first."]))
  | _ => prints ([Plain []; Plain (str "❖ Completable peers ❖")] ++ ((fun p => Plain (str "  " ++ p)) <$> candidates)
                 ++ [Plain []; Plain (str "Any of these completes with Tab in a <peer> slot.")])
  end.

(** ** cmd/shell/completer.go *)
Definition isWordBreak (r : Z) : bool := ((r =? 32) || (r =? 9))%bool.

(** The loop back to the start of the word. *)
Fixpoint wordStart (before : list Z) (start : nat) : nat :=
  match start with
  | O => O
  | S p => if isWordBreak (nth p before 0) then start else wordStart before p
  end.

Definition suffixes (candidates : list bytes) (fragment : bytes) : list (list Z) :=
  omap (fun cand => if negb (hasPrefix fragment cand) then None
                    else Some (toRunes (drop (length fragment) cand ++ str " "))) candidates.

(** What the four tables hold; all are computed, whichever is used. *)
Definition slotCandidates (k : ArgKind) : M (option (list bytes)) :=
  peers ← PeerCandidates_ env;
  identities ← IdentityCandidates;
  contexts ← Front.ContextCandidates env;
  threads ← ThreadCandidates;
  mret (match k with
        | ArgPeer => Some peers | ArgIdentity => Some identities | ArgContext => Some contexts | ArgThread => Some threads
        | ArgText => None
        end).

(** What is offered for the word under the cursor, [typed] being the words before
    it; [None] where nothing can be. *)
Definition candidatesFor (specs : list CommandSpec) (typed : list bytes) (fragment : bytes) : M (option (list bytes)) :=
  match typed with
  | [] => mret (Some (CommandNames (fe_io env 4) specs))
  | cmd :: args =>
      match FindCommand specs cmd with
      | None => mret None
      | Some spec =>
          match sp_Complete spec with
          | Some complete => l ← complete args (len args) fragment; mret (Some l)
          | None => slotCandidates (ArgKindAt spec (length args))
          end
      end
  end.

Definition Do (specs : list CommandSpec) (line : list Z) (pos : nat) : M (list (list Z) * Z) :=
  let before := take pos line in
  let start := wordStart before (length before) in
  let fragment := Shell.fromRunes (drop start before) in
  let typed := Shell.Fields (Shell.fromRunes (take start before)) in
  candidates ← candidatesFor specs typed fragment;
  mret (match candidates with
        | None => ([], 0)
        | Some l => (suffixes l fragment, len (toRunes fragment))
        end).

End Completion.
End Completion.
