(* ===== verification/CompletionTheorems.v ===== *)
(** * What completion inserts

    UTF-8 is undone by decoding ([Utf8.v]), so the suffixes that completion offers, which are
    computed on bytes, complete the word the user sees, which is in runes. *)
From S2P Require Import Prelude Steps GoStd Sha256 External SecurePeer Session Engine EngineFacts SessionTheorems Client Codec Frame Binstore Records MultiMsg MultiStore Fanout Mailbox Contacts Dispatch.
From S2P Require Import Registry Shell Utf8 Transport Ops OpsFrames OpsTheorems Front FrontFacts GroupChat GroupChatTheorems Completion.
#[local] Open Scope Z_scope.
Import Ops Frames Front FrontFacts GroupChat Completion Steps.

(** ** The word under the cursor *)
Lemma wordStart_spec before : forall start, (start <= length before)%nat ->
  (wordStart before start <= start)%nat /\
  (forall i, (wordStart before start <= i < start)%nat -> isWordBreak (nth i before 0) = false) /\
  (wordStart before start = 0%nat \/ isWordBreak (nth (wordStart before start - 1) before 0) = true).
Proof.
  induction start as [|p IH]; intros Hl; cbn [wordStart]; [split; [lia|split; [lia|by left]]|].
  destruct (isWordBreak (nth p before 0)) eqn:Hb.
  - split; [lia|]. split; [lia|]. right. by replace (S p - 1)%nat with p by lia.
  - destruct IH as (H1 & H2 & H3); [lia|]. split; [lia|]. split; [|done]. intros i Hi. destruct (decide (i = p)) as [->|Hne]; [done|]. apply H2. lia.
Qed.

Section Completion.
Context `{N : Nanopack} `{P : Prims} `{J : LegacyJSON} `{R : RecordStore} `{X : Surroundings} `{FT : FrontText}.

(** C35: Completion inserts what it offers.  The number returned is that of the runes
    of the word the cursor is in; whichever suffix is chosen, that word with the
    suffix behind it reads as one of the candidates and a space, in any alphabet,
    the candidates being those for the words before. *)
Theorem completion_inserts_candidate (env : frontEnv) specs line pos w w' offered n s :
  Forall validRune line -> Do env specs line pos w = (w', Ok (offered, n)) -> s ∈ offered ->
  let before := take pos line in
  let start := (length before - Z.to_nat n)%nat in
  exists candidates cand,
    candidatesFor env specs (Shell.Fields (Shell.fromRunes (take start before))) (Shell.fromRunes (drop start before)) w = (w', Ok (Some candidates)) /\
    cand ∈ candidates /\ drop start before ++ s = toRunes (cand ++ str " ") /\
    Forall (fun r => isWordBreak r = false) (drop start before) /\
    (start = 0%nat \/ isWordBreak (nth (start - 1) before 0) = true).
Proof.
  intros Hv Hdo Hs before. unfold Do in Hdo. fold before in Hdo. cbv zeta in Hdo.
  destruct (wordStart_spec before (length before) (Nat.le_refl _)) as (Hle & Hin & Hat). set (at_ := wordStart before (length before)) in *.
  apply step_bind_Ok in Hdo as (w1 & o & Hc & Ho). injection Ho as -> Hres. destruct o as [candidates|]; [|injection Hres as <- _; by apply elem_of_nil in Hs].
  injection Hres as <- <-.
  assert (Forall validRune (drop at_ before)) as Hvw by (by apply Forall_drop, Forall_take).
  rewrite toRunes_fromRunes by done.
  assert ((length before - Z.to_nat (len (drop at_ before)))%nat = at_) as -> by (unfold len; rewrite length_drop; lia).
  unfold suffixes in Hs. apply list_elem_of_omap in Hs as (cand & Hin' & Hs). destruct (hasPrefix (Shell.fromRunes (drop at_ before)) cand) eqn:Hp; [|done].
  cbn [negb] in Hs. injection Hs as <-. apply bool_decide_eq_true in Hp as [rest ->]. rewrite drop_app_length in *.
  exists candidates, (Shell.fromRunes (drop at_ before) ++ rest). split; [exact Hc|]. split; [done|]. split; [by rewrite <- app_assoc, toRunes_word|].
  split; [|done]. apply Forall_lookup_2. intros i r Hr. rewrite lookup_drop in Hr. pose proof (lookup_lt_Some _ _ _ Hr).
  rewrite <- (nth_lookup_Some before (at_ + i) 0 r Hr). apply Hin. lia.
Qed.

Lemma addNames_mem ns : forall m, Registry.all_true m -> Registry.all_true (fold_left addName ns m) /\
  forall x, Registry.mem (fold_left addName ns m) x <-> Registry.mem m x \/ (x ≠ [] /\ x ∈ ns).
Proof.
  induction ns as [|a ns IH]; intros m Hm; cbn [fold_left]; [split; [done|]; intros x; rewrite elem_of_nil; tauto|].
  assert (Registry.all_true (addName m a) /\ forall x, Registry.mem (addName m a) x <-> Registry.mem m x \/ (x ≠ [] /\ x = a)) as [H1 H2].
  { unfold addName, Registry.mem. destruct (bytes_eqb a []) eqn:Ha; cbn [negb].
    - apply bytes_eqb_eq in Ha as ->. split; [done|]. intros x. naive_solver.
    - apply bytes_eqb_neq in Ha. split; [intros i v [[<- <-]|[_ H]]%lookup_insert_Some; [done|by apply (Hm i)]|].
        intros x. rewrite lookup_insert_Some. destruct (decide (a = x)) as [->|]; naive_solver. }
  destruct (IH (addName m a) H1) as [H3 H4]. split; [done|]. intros x. rewrite H4, H2, elem_of_cons. tauto.
Qed.

Lemma specNames_mem ss : forall m, Registry.all_true m -> let m' := fold_left (fun m s => fold_left addName (Names s) m) ss m in
  Registry.all_true m' /\ forall x, Registry.mem m' x <-> Registry.mem m x \/ (x ≠ [] /\ exists c, c ∈ ss /\ x ∈ Names c).
Proof.
  induction ss as [|c ss IH]; intros m Hm; cbn [fold_left].
  - split; [done|]. intros x. split; [by left|intros [?|(_ & c & Hc & _)]; [done|by apply elem_of_nil in Hc]].
  - destruct (addNames_mem (Names c) m Hm) as [H1 H2]. destruct (IH _ H1) as [H3 H4]. split; [done|]. intros x. rewrite H4, H2.
      setoid_rewrite elem_of_cons. naive_solver.
Qed.

(** The words completion offers for a command are those [FindCommand] knows. *)
Theorem command_names_found (io : storeIO) specs n : range_ok io ->
  n ∈ CommandNames io specs <-> n ≠ [] /\ is_Some (FindCommand specs n).
Proof.
  intros Hio. unfold CommandNames.
  destruct (specNames_mem specs ∅) as [Ht Hm]; [intros ? ? H; by rewrite lookup_empty in H|]. rewrite Registry.sortedKeys_mem by done. rewrite Hm.
  unfold Registry.mem at 1. rewrite lookup_empty. split; [intros [?|[Hne (c & Hc & Hn)]]; [done|]|intros [Hne [c Hc]]; right; split; [done|]].
  - split; [done|]. unfold FindCommand. destruct (List.find _ specs) eqn:Hf; [by eexists|]. exfalso.
    apply list_elem_of_In in Hc. pose proof (List.find_none _ _ Hf c Hc) as Hc'. cbv beta in Hc'.
    assert (List.existsb (fun n' => bytes_eqb n' n) (Names c) = true) as Ht' by (apply List.existsb_exists; exists n; split; [by apply list_elem_of_In|apply bytes_eqb_refl]).
    congruence.
  - apply List.find_some in Hc as [Hi He]. exists c. split; [by apply list_elem_of_In|]. apply List.existsb_exists in He as (x & Hx & He).
    apply bytes_eqb_eq in He as ->. by apply list_elem_of_In.
Qed.

End Completion.

(** ** At a concrete line *)
#[local] Existing Instance noJSON.
#[local] Existing Instance OpsTheorems.noSurroundings.
#[local] Existing Instance GroupChatTheorems.plainText.

Definition typedHe : list Z := [104; 101; 32].

(** Behind [he] the command [help] is offered. *)
Lemma typedHe_offered w : Do chatEnv BaseCommands typedHe 2 w = (w, Ok ([toRunes (str "lp ")], 2)).
Proof. unfold Do. vm_compute. reflexivity. Qed.

Lemma completion_inserts_candidate_witness : exists candidates cand,
  candidatesFor chatEnv BaseCommands [] (str "he") chatWA = (chatWA, Ok (Some candidates)) /\
  cand ∈ candidates /\ take 2 typedHe ++ toRunes (str "lp ") = toRunes (cand ++ str " ").
Proof.
  destruct (completion_inserts_candidate chatEnv BaseCommands typedHe 2 chatWA chatWA [toRunes (str "lp ")] 2 (toRunes (str "lp ")))
    as (candidates & cand & Hc & Hin & Heq & _).
  - repeat constructor; unfold validRune; lia.
  - apply typedHe_offered.
  - by apply list_elem_of_singleton.
  - exists candidates, cand. exact (conj Hc (conj Hin Heq)).
Defined.
