(* ===== verification/Offline.v ===== *)
(** * cmd/offline: handshakes and messages handed over by hand

    The commands of the command line ([init.go], [offer.go], [accept.go],
    [finish.go], [encrypt.go], [decrypt.go], [cli_ingest.go]) with what reports
    their errors ([internal/errors.go]), the offline shell ([register.go],
    [ingest.go]) and the older read-eval-print loop ([offline.go]). *)
From S2P Require Import Prelude Steps GoStd Sha256 External SecurePeer Session Engine Client Codec Frame Binstore Records MultiMsg MultiStore Fanout Mailbox Contacts Dispatch.
From S2P Require Import Registry Shell Transport Ops OpsFrames Front GroupChat Completion.
#[local] Open Scope Z_scope.

Module Offline.
Import Ops Frames Front GroupChat Completion Steps.

(** ** Envelopes *)

(** [json.Marshal] of a struct of a type, which needs no escaping, and data. *)
Definition marshalEnvelope (typeKey dataKey t data : bytes) : bytes :=
  str "{" ++ [x22] ++ typeKey ++ [x22] ++ str ":" ++ [x22] ++ t ++ [x22] ++ str "," ++
  [x22] ++ dataKey ++ [x22] ++ str ":" ++ [x22] ++ b64Encode data ++ [x22] ++ str "}".

(** [Envelope] has no tags, [PayloadEnvelope] has. *)
Definition marshalCLI (t data : bytes) : bytes := marshalEnvelope (str "Type") (str "Data") t data.
Definition wrapEnvelope (t data : bytes) : bytes := marshalEnvelope (str "type") (str "data") t data.

(** [json.Unmarshal] into either, whose keys match in any case: the data, which may
    be nil.  The type is never looked at. *)
Class EnvelopeJSON := { json_envelope : bytes -> option (option bytes) }.

Class EnvelopeJSONLaws `{EnvelopeJSON} : Prop := {
  json_envelope_cli t data : forallb plainJSON t = true -> json_envelope (marshalCLI t data) = Some (Some data);
  json_envelope_shell t data : forallb plainJSON t = true -> json_envelope (wrapEnvelope t data) = Some (Some data);
}.

(** ** internal/errors.go *)
Definition ValidateEncoding (enc : bytes) : res front_err unit := check (negb (oneOf enc [str "raw"; str "b64"; str "hex"])) (EncodingErr enc).
Definition ValidateFormat (format : bytes) : res front_err unit := check (negb (oneOf format [formatHuman; formatJSON])) (FormatErr format).

(** ** models.go: the flags of the commands *)
Record OfferOptions := mkOffer { oo_LocalPeer : bytes; oo_RemotePeer : bytes; oo_OutputFile : bytes; oo_OutputEncoding : bytes; oo_Format : bytes }.

Record AcceptOptions := mkAccept {
  ao_LocalPeer : bytes; ao_OfferEnvelope : bytes; ao_InputFile : bytes; ao_OutputFile : bytes; ao_InputEncoding : bytes; ao_OutputEncoding : bytes;
  ao_Format : bytes }.

Record FinishOptions := mkFinish {
  fi_LocalPeer : bytes; fi_AnswerEnvelope : bytes; fi_InputFile : bytes; fi_InputEncoding : bytes; fi_Format : bytes }.

Record EncryptOptions := mkEncrypt {
  eo_LocalPeer : bytes; eo_RemotePeer : bytes; eo_Message : bytes; eo_InputFile : bytes; eo_OutputFile : bytes; eo_InputEncoding : bytes;
  eo_OutputEncoding : bytes; eo_Format : bytes }.

Record DecryptOptions := mkDecrypt {
  do_LocalPeer : bytes; do_CipherText : bytes; do_InputFile : bytes; do_OutputFile : bytes; do_InputEncoding : bytes; do_OutputEncoding : bytes;
  do_Format : bytes }.

Definition nl : bytes := [x0a].

(** No NUL, and fewer than one control character in a hundred bytes: the quotient of
    the code's floats is below 0.01 exactly when a hundred times the count is below
    the length (of anything a computer holds). *)
Definition isControl (b : byte) : bool := ((Zb b <? 0x09) || ((0x0D <? Zb b) && (Zb b <? 0x20)))%bool.
Definition looksLikeText (data : bytes) : bool :=
  match data with
  | [] => true
  | _ => (negb (List.existsb (fun b => bool_decide (b = x00)) data) && (100 * len (List.filter isControl data) <? len data))%bool
  end.

Definition sourceLabel (inputFile : bytes) : bytes := if negb (bytes_eqb inputFile []) then inputFile else str "stdin".

(** What [DecodeString] leaves when it fails: the groups before the one that could
    not be read. *)
Fixpoint b64Salvage_go (l : bytes) : bytes :=
  match l with
  | a :: b :: c :: d :: t =>
      match b64val a, b64val b with
      | Some va, Some vb =>
          if bool_decide (c = x3d) then
            if bool_decide (d = x3d) then [byteZ ((va * 262144 + vb * 4096) / 65536)] else []
          else
            match b64val c with
            | None => []
            | Some vc =>
                let n := va * 262144 + vb * 4096 + vc * 64 in
                if bool_decide (d = x3d) then [byteZ (n / 65536); byteZ (n / 256)]
                else match b64val d with
                     | None => []
                     | Some vd => byteZ ((n + vd) / 65536) :: byteZ ((n + vd) / 256) :: byteZ (n + vd) :: b64Salvage_go t
                     end
            end
      | _, _ => []
      end
  | _ => []
  end.
Definition b64Salvage (l : bytes) : bytes := b64Salvage_go (List.filter notNewline l).

(** Base64 of something that starts with a frame's type. *)
Definition isPlausibleFrameB64 (token : bytes) : bool :=
  match b64Decode token with
  | Some (t :: _) => Valid t
  | _ => false
  end.

Section Offline.
Context `{N : Nanopack} `{P : Prims} `{J : LegacyJSON} `{R : RecordStore} `{X : Surroundings} `{FT : FrontText} `{CJ : ContainerJSON} `{EJ : EnvelopeJSON}.
Context (env : frontEnv).

(** What reports the error of a command; it is handed on for the exit code. *)
Definition ReportAndExit (m : M unit) (format : bytes) : M unit :=
  x ← attempt m;
  match x with
  | inr _ => mret tt
  | inl e =>
      _ ← (if bytes_eqb format formatJSON then _ ← attempt (stdout env (Doc (DocError e))); mret tt else print (Problem e));
      fail e
  end.

Definition WriteJSONResponse (d : document) : M unit := stdout env (Doc d).

(** ** The client's methods *)
Definition createOffer (cl : loc) (peer : bytes) : M bytes :=
  onClient ClientErr cl (fun c => Client_CreateOffer (fe_save env) (fe_peer env) (fe_offer env) c peer).
Definition acceptOffer (cl : loc) (offer : bytes) : M bytes :=
  onClient ClientErr cl (fun c => Client_AcceptOffer (fe_save env) (fe_peer env) (fe_encaps env) c offer).
Definition finishHandshake (cl : loc) (answer : bytes) : M bytes :=
  onClient ClientErr cl (fun c => Client_FinishHandshake (fe_save env) c answer).
Definition encryptTo (cl : loc) (peer plaintext : bytes) : M bytes :=
  onClient ClientErr cl (fun c => Client_Encrypt (fe_save env) (fe_rand env) c peer plaintext).
Definition decryptFrom (cl : loc) (frame : bytes) : M (bytes * bytes) :=
  onClient ClientErr cl (fun c => Client_Decrypt (fe_save env) c frame).

(** ** Input and output of the commands *)

(** [readInput], [readPlaintext]: they differ in the words of their errors. *)
Definition readInput (inline inputFile : bytes) : M bytes :=
  if negb (bytes_eqb inputFile []) then readFile inputFile
  else if negb (bytes_eqb inline []) then mret inline
  else data ← readStdin env; _ ← failIf (bytes_eqb data []) NoInput; mret data.
Definition readPlaintext (message inputFile : bytes) : M bytes := readInput message inputFile.

Definition decodeAs (enc data : bytes) : M bytes := lift (wrapErr (fun _ => DecodeErr enc) (Input.DecodeInput enc data)).
Definition encodeAs (enc data : bytes) : M bytes := lift (wrapErr (fun _ => EncodingErr enc) (Input.EncodeOutput enc data)).

(** The end of a command that prints encoded bytes: an error of the last write is
    dropped. *)
Definition printEncoded (enc encoded : bytes) : M unit :=
  _ ← stdout env (Raw encoded);
  if negb (bytes_eqb enc Input.EncodingRaw) then _ ← attempt (stdout env (Raw nl)); mret tt else mret tt.

(** Handing an envelope over: to a file as it is, or encoded to the standard
    output.  [doc] is the document of the JSON format, given where the envelope is
    and its encoding, [saved] the words about a file. *)
Definition emitEnvelope (outputFile enc format : bytes) (doc : bytes -> bytes -> document) (saved envelope : bytes) : M unit :=
  if negb (bytes_eqb outputFile []) then
    _ ← writeFile env outputFile envelope;
    if bytes_eqb format formatJSON then WriteJSONResponse (doc outputFile (str "file")) else print (Stderr saved)
  else
    encoded ← encodeAs enc envelope;
    if bytes_eqb format formatJSON then WriteJSONResponse (doc encoded enc) else printEncoded enc encoded.

(** ** init, offer, accept, finish *)
Definition RunInit (format : bytes) : M unit :=
  _ ← lift (ValidateFormat format);
  cl ← NewClient_ env;
  c ← clientAt cl;
  if bytes_eqb format formatJSON then WriteJSONResponse (DocInit (cl_Id c))
  else print (Plain (concat [str "[✓] Identity created"; nl; nl; str "ID:"; nl; cl_Id c])).

Definition RunOffer (opts : OfferOptions) : M unit :=
  _ ← lift (ValidateEncoding (oo_OutputEncoding opts));
  _ ← lift (ValidateFormat (oo_Format opts));
  cl ← LoadClient_ (oo_LocalPeer opts);
  offerBytes ← createOffer cl (oo_RemotePeer opts);
  emitEnvelope (oo_OutputFile opts) (oo_OutputEncoding opts) (oo_Format opts) (DocOffer (oo_RemotePeer opts))
    (concat [str "[✓] Offer created for "; oo_RemotePeer opts; nl; nl; str "Saved to:"; nl; oo_OutputFile opts]) (marshalCLI (str "offer") offerBytes).

(** The data of the envelope that is given. *)
Definition readEnvelope (inline inputFile enc : bytes) : M bytes :=
  raw ← readInput inline inputFile;
  data ← decodeAs enc raw;
  d ← lift (ofOption EnvelopeErr (json_envelope data));
  mret (default [] d).

Definition RunAccept (opts : AcceptOptions) : M unit :=
  _ ← lift (ValidateEncoding (ao_InputEncoding opts));
  _ ← lift (ValidateEncoding (ao_OutputEncoding opts));
  _ ← lift (ValidateFormat (ao_Format opts));
  cl ← LoadClient_ (ao_LocalPeer opts);
  data ← readEnvelope (ao_OfferEnvelope opts) (ao_InputFile opts) (ao_InputEncoding opts);
  answerBytes ← acceptOffer cl data;
  emitEnvelope (ao_OutputFile opts) (ao_OutputEncoding opts) (ao_Format opts) DocAccept
    (concat [str "[✓] Answer generated"; nl; nl; str "Saved to:"; nl; ao_OutputFile opts]) (marshalCLI (str "answer") answerBytes).

Definition RunFinish (opts : FinishOptions) : M unit :=
  _ ← lift (ValidateEncoding (fi_InputEncoding opts));
  _ ← lift (ValidateFormat (fi_Format opts));
  cl ← LoadClient_ (fi_LocalPeer opts);
  data ← readEnvelope (fi_AnswerEnvelope opts) (fi_InputFile opts) (fi_InputEncoding opts);
  peerID ← finishHandshake cl data;
  if bytes_eqb (fi_Format opts) formatJSON then WriteJSONResponse (DocFinish peerID)
  else print (Stderr (concat [str "[✓] Session established"; nl; nl; str "Peer:"; nl; peerID])).

(** ** encrypt *)
Definition RunEncrypt (opts : EncryptOptions) : M unit :=
  _ ← lift (ValidateEncoding (eo_InputEncoding opts));
  _ ← lift (ValidateEncoding (eo_OutputEncoding opts));
  _ ← lift (ValidateFormat (eo_Format opts));
  cl ← LoadClient_ (eo_LocalPeer opts);
  raw ← readPlaintext (eo_Message opts) (eo_InputFile opts);
  plaintext ← decodeAs (eo_InputEncoding opts) raw;
  output ← encryptTo cl (eo_RemotePeer opts) plaintext;
  let enc := eo_OutputEncoding opts in
  if negb (bytes_eqb (eo_OutputFile opts) []) then
    _ ← writeFile env (eo_OutputFile opts) output;
    if bytes_eqb (eo_Format opts) formatJSON then WriteJSONResponse (DocDecrypt (eo_RemotePeer opts) (str "file") (eo_OutputFile opts))
    else print (Stderr (concat [str "[✓] Encrypted "; dec (len plaintext); str " bytes for "; eo_RemotePeer opts; nl; nl; str "Saved to:"; nl; eo_OutputFile opts]))
  else if bytes_eqb (eo_Format opts) formatJSON then
    encoded ← encodeAs enc output;
    WriteJSONResponse (DocDecrypt (eo_RemotePeer opts) enc encoded)
  else
    _ ← failIf (bytes_eqb enc Input.EncodingRaw && fe_tty env)%bool (BinaryOut (len output));
    encoded ← encodeAs enc output;
    printEncoded enc encoded.

(** ** cli_ingest.go *)
Definition ingestStandardBytes (localPeer raw : bytes) : M IngestEvent :=
  let trimmed := trimSpace raw in
  _ ← failIf (bytes_eqb trimmed []) NotFrame;
  _ ← failIf (negb (hasPrefix (str "{") trimmed) && negb (isPlausibleFrameB64 trimmed))%bool NotFrame;
  cl ← LoadClient_ localPeer;
  '(cs, ds) ← OpenStores env 1 localPeer;
  mb ← LoadMailbox env 0 localPeer;
  fan ← newFanFor cl false (inr cs) (inr ds);
  Ingest env cl (Some mb) (Some fan) trimmed.

(** ** decrypt *)

(** What is printed of something that was taken in. *)
Definition reportIngested (format : bytes) (ev : IngestEvent) : M unit :=
  let json := bytes_eqb format formatJSON in
  if bytes_eqb (ie_Kind ev) (str "duplicate") then
    if json then WriteJSONResponse (DocDecrypt [] (str "utf-8") (str "duplicate ignored"))
    else print (Plain (str "[i] Already ingested — ignoring duplicate."))
  else if json then WriteJSONResponse (DocDecrypt (ie_Sender ev) (str "utf-8") (ie_Message ev))
  else
    _ ← print (Stderr (if bytes_eqb (ie_Kind ev) (str "group_message")
                       then concat [str "[✓] Group message in ["; ie_Context ev; str "] from "; ie_Sender ev; str " — stored in mailbox"]
                       else concat [str "[✓] Decrypted message from "; ie_Sender ev; str " — stored in mailbox"]));
    print (Plain (ie_Message ev)).

(** What is done with a plaintext. *)
Definition emitPlain (opts : DecryptOptions) (senderID plain : bytes) : M unit :=
  let isText := (utf8Valid plain && looksLikeText plain)%bool in
  let json := bytes_eqb (do_Format opts) formatJSON in
  let enc := do_OutputEncoding opts in
  if negb (bytes_eqb (do_OutputFile opts) []) then
    _ ← writeFile env (do_OutputFile opts) plain;
    if json then WriteJSONResponse (DocDecrypt senderID (str "file") (do_OutputFile opts))
    else print (Stderr (concat [str "[✓] Decrypted "; dec (len plain); str " bytes from "; sourceLabel (do_InputFile opts); nl; nl; str "From:"; nl; senderID;
                                nl; nl; str "Saved to:"; nl; do_OutputFile opts]))
  else if json then
    WriteJSONResponse (if isText then DocDecrypt senderID (str "utf-8") plain else DocDecrypt senderID (str "base64") (b64Encode plain))
  else if isText then
    _ ← print (Stderr (concat [str "[✓] Message decrypted"; nl; nl; str "From:"; nl; senderID; nl]));
    print (Plain plain)
  else
    _ ← failIf (bytes_eqb enc Input.EncodingRaw && fe_tty env)%bool (BinaryOut (len plain));
    encoded ← encodeAs enc plain;
    printEncoded enc encoded.

(** The path for frames that are in no container. *)
Definition decryptLegacy (opts : DecryptOptions) (cl : loc) (input : bytes) : M unit :=
  frame ← decodeAs (do_InputEncoding opts) input;
  '(senderID, plain) ← decryptFrom cl frame;
  emitPlain opts senderID plain.

Definition RunDecrypt (opts : DecryptOptions) : M unit :=
  _ ← lift (ValidateEncoding (do_InputEncoding opts));
  _ ← lift (ValidateEncoding (do_OutputEncoding opts));
  _ ← lift (ValidateFormat (do_Format opts));
  cl ← LoadClient_ (do_LocalPeer opts);
  input ← readInput (do_CipherText opts) (do_InputFile opts);
  x ← attempt (ingestStandardBytes (do_LocalPeer opts) input);
  match x with
  | inr ev => reportIngested (do_Format opts) ev
  | inl NotFrame => decryptLegacy opts cl input
  | inl e => fail e
  end.

(** ** The commands: their flags on top of the defaults, and the report *)
Definition InitCommand (format : bytes) : M unit := ReportAndExit (RunInit format) format.

Definition OfferCommand (flags : OfferOptions -> OfferOptions) : M unit :=
  let o := flags (mkOffer [] [] [] (str "raw") (str "human")) in ReportAndExit (RunOffer o) (oo_Format o).

Definition AcceptCommand (flags : AcceptOptions -> AcceptOptions) : M unit :=
  let o := flags (mkAccept [] [] [] [] (str "raw") (str "raw") (str "human")) in ReportAndExit (RunAccept o) (ao_Format o).

Definition FinishCommand (flags : FinishOptions -> FinishOptions) : M unit :=
  let o := flags (mkFinish [] [] [] (str "raw") (str "human")) in ReportAndExit (RunFinish o) (fi_Format o).

Definition EncryptCommand (flags : EncryptOptions -> EncryptOptions) : M unit :=
  let o := flags (mkEncrypt [] [] [] [] [] (str "raw") (str "raw") (str "human")) in ReportAndExit (RunEncrypt o) (eo_Format o).

Definition DecryptCommand (flags : DecryptOptions -> DecryptOptions) : M unit :=
  let o := flags (mkDecrypt [] [] [] [] (str "b64") (str "raw") (str "human")) in ReportAndExit (RunDecrypt o) (do_Format o).

(** ** The offline shell: [ingest.go] *)
Definition say (text : bytes) : M unit := print (Plain text).

(** [state.ActiveClient] of a command that needs one, the hint if there is none. *)
Definition withClient (k : loc -> M unit) : M unit :=
  s ← gets w_state; match ActiveClient s with None => print hint | Some cl => k cl end.

Definition ingestStandard (input : bytes) : M IngestEvent :=
  let raw := trimSpace input in
  _ ← failIf (negb (bytes_eqb raw []) && negb (hasPrefix (str "{") raw) && negb (isPlausibleFrameB64 raw))%bool NotFrame;
  s ← gets w_state;
  fan ← (match FanoutAt s, ActiveClient s with
         | None, Some _ => _ ← InitFanout env; t ← gets w_state; mret (FanoutAt t)
         | fan, _ => mret fan
         end);
  match ActiveClient s with
  | Some cl => Ingest env cl (MailboxStore s) fan raw
  | None => lift Panic
  end.

(** [parsePastedPayload] *)
Definition parsePastedPayload (pasted : bytes) : res front_err bytes :=
  let trimmed := trimSpace pasted in
  match trimmed with
  | [] => Err NothingPasted
  | _ =>
      if hasPrefix (str "{") trimmed then
        match json_envelope trimmed with
        | Some (Some data) => Ok data
        | _ => Ok trimmed
        end
      else Ok trimmed
  end.

(** ** register.go *)
Definition Commands : list CommandSpec :=
  [mkSpec (str "init") [] [] ArgText [] (str "Generate a new identity") None;
   IdentityCommand (str "Load an existing local identity (Tab lists ./<id>.json files)");
   mkSpec (str "offer") [] [ArgPeer] ArgText (str "offer <peer>") (str "Generate a handshake offer for a peer (JSON)") None;
   mkSpec (str "accept") [] [] ArgText [] (str "Accept a peer's offer (prompts for the offer JSON)") None;
   mkSpec (str "finish") [] [] ArgText [] (str "Finalise a handshake (prompts for the answer JSON)") None;
   (let s := MessageCommand (str "encrypt") [str "send"] in
    mkSpec (sp_Name s) (sp_Aliases s) (sp_Args s) (sp_Variadic s) (sp_Usage s) (str "Encrypt a message for an established peer") (sp_Complete s));
   mkSpec (str "decrypt") [] [ArgText] ArgText (str "decrypt <b64>") (str "Decrypt a base64 ciphertext frame") None;
   PeersCommand]
  ++ Specs env ++ BaseCommands.

Definition Init : M unit :=
  _ ← prints [Plain []; Plain (str "  ❖ Offline Mode — no network required ❖"); Plain []];
  InitFanout env.

Definition execInit : M unit :=
  cl ← NewClient_ env;
  _ ← modify (fun w => set_state (set_ActiveClient cl (w_state w)) w);
  c ← clientAt cl;
  print (Success (str "Identity: " ++ cl_Id c)).

Definition execLoad (args : list bytes) : M unit :=
  match args with
  | [] => say (str "  Usage: load <id>")
  | id :: _ =>
      orProblem (LoadClient_ id) (fun cl =>
        _ ← modify (fun w => set_state (set_ActiveClient cl (w_state w)) w);
        c ← clientAt cl;
        _ ← print (Success (str "Loaded: " ++ cl_Id c));
        _ ← SyncPeersFromClient env;
        InitFanout env)
  end.

Definition execOffer (args : list bytes) : M unit :=
  match args with
  | [] => say (str "  Usage: offer <peer>")
  | arg :: _ =>
      withClient (fun cl =>
        orProblem (ResolvePeer env arg) (fun peerID =>
        orProblem (createOffer cl peerID) (fun offer =>
          _ ← RememberPeer peerID;
          print (Info (str "OFFER ENVELOPE:" ++ nl ++ wrapEnvelope (str "offer") offer)))))
  end.

(** A prompt and the line it reads, trimmed. *)
Definition ask (prompt : bytes) : M bytes := _ ← print (Plain prompt); l ← scan; mret (trimSpace l).

Definition execAccept : M unit :=
  withClient (fun cl =>
    pasted ← ask (str "  Paste offer envelope: ");
    orProblem (lift (parsePastedPayload pasted)) (fun payload =>
    orProblem (acceptOffer cl payload) (fun answer =>
      _ ← SyncPeersFromClient env;
      print (Success (str "ANSWER ENVELOPE:" ++ nl ++ wrapEnvelope (str "answer") answer))))).

Definition execFinish : M unit :=
  withClient (fun cl =>
    pasted ← ask (str "  Paste answer envelope: ");
    orProblem (lift (parsePastedPayload pasted)) (fun payload =>
    orProblem (finishHandshake cl payload) (fun peerID =>
      _ ← RememberPeer peerID;
      print (Success (str "Session established: " ++ peerID))))).

(** The text of a message; an empty one is read from the standard input, whose
    errors are only printed. *)
Definition messageText (words : list bytes) : M bytes :=
  let message := joinWords words in
  if negb (bytes_eqb message []) then mret message else
  _ ← (match in_data (fe_stdin env) with None => say (str "failed to read stdin: %w") | Some _ => mret tt end);
  let data := default [] (in_data (fe_stdin env)) in
  _ ← (if bytes_eqb data [] then say (str "no codec provided") else mret tt);
  mret data.

Definition execEncrypt (args : list bytes) : M unit :=
  match args with
  | arg :: (_ :: _) as words =>
      withClient (fun cl =>
        orProblem (ResolvePeer env arg) (fun peer =>
          plaintext ← messageText words;
          orProblem (encryptTo cl peer plaintext) (fun cipher =>
            _ ← RememberPeer peer;
            print (Success (str "CIPHERTEXT JSON:" ++ nl ++ cipher)))))
  | _ => say (str "  Usage: encrypt <peer> <msg>")
  end.

Definition showIngested (ev : IngestEvent) : M unit :=
  if bytes_eqb (ie_Kind ev) (str "duplicate") then print (Info (str "Already ingested — ignoring duplicate."))
  else
    _ ← RememberPeer (ie_Sender ev);
    if bytes_eqb (ie_Kind ev) (str "group_message") then
      print (Mail (concat [str "Group message in ["; ie_Context ev; str "] from "; Registry.ShortID (ie_Sender ev); str " — type 'mailbox "; ie_Context ev; str "'."]))
    else print (Success (concat [str "From "; ie_Sender ev; str ": "; ie_Message ev])).

(** Storing what was decrypted; an error is dropped. *)
Definition keepIncoming (senderID plain : bytes) : M unit :=
  s ← gets w_state;
  match MailboxStore s with
  | None => mret tt
  | Some mb => _ ← attempt (onMailbox mb (fun st => Mailbox.AppendIncoming (fe_io env 7) (fe_nanos env) (fe_millis env) st senderID plain)); mret tt
  end.

Definition execLegacy (cl : loc) (arg : bytes) : M unit :=
  orProblem (lift (ofOption BadBase64 (b64Decode arg))) (fun ciphertext =>
  orProblem (decryptFrom cl ciphertext) (fun '(senderID, plain) =>
    _ ← keepIncoming senderID plain;
    _ ← RememberPeer senderID;
    print (Success (concat [str "From "; senderID; str ": "; plain])))).

Definition execDecrypt (args : list bytes) : M unit :=
  match args with
  | [] => say (str "  Usage: decrypt <container-or-frame-or-b64>")
  | arg :: _ =>
      withClient (fun cl =>
        x ← attempt (ingestStandard arg);
        match x with
        | inr ev => showIngested ev
        | inl NotFrame => execLegacy cl arg
        | inl e => print (Problem e)
        end)
  end.

Definition Help : M unit := RenderHelp Commands.

(** Whether the shell goes on. *)
Definition Execute (cmd : bytes) (args : list bytes) : M bool :=
  let stay (m : M unit) : M bool := _ ← m; mret true in
  let named c := bytes_eqb cmd c in
  if Handles cmd then
    s ← gets w_state;
    if (negb (named (str "mailbox")) && (bool_decide (ActiveClient s = None) || bool_decide (FanoutAt s = None)))%bool then stay (print hint)
    else GroupChat.Execute env cmd args
  else if named (str "init") then stay execInit
  else if named (str "load") then stay (execLoad args)
  else if named (str "offer") then stay (execOffer args)
  else if named (str "accept") then stay execAccept
  else if named (str "finish") then stay execFinish
  else if (named (str "encrypt") || named (str "send"))%bool then stay (execEncrypt args)
  else if named (str "decrypt") then stay (execDecrypt args)
  else if named (str "peers") then stay (PrintPeers env (str "'offer <id>' or 'accept'"))
  else if named (str "help") then stay Help
  else if (named (str "switch") || named (str "exit"))%bool then mret false
  else stay (print (Problem UnknownCommand)).

(** ** cmd/shell/shell.go: [runSubShell]

    A line is read, split and executed, until the input ends or a command leaves;
    every round takes a line. *)
Definition readLine : M (option bytes) := fun w =>
  match w_typed w with [] => (w, Ok None) | l :: rest => (set_typed rest w, Ok (Some l)) end.

Fixpoint subShellLoop (exec : bytes -> list bytes -> M bool) (fuel : nat) : M unit :=
  match fuel with
  | O => mret tt
  | S f =>
      input ← readLine;
      match input with
      | None => mret tt
      | Some l =>
          match Shell.Fields l with
          | [] => subShellLoop exec f
          | cmd :: args => goOn ← exec cmd args; if (goOn : bool) then subShellLoop exec f else mret tt
          end
      end
  end.

Definition runSubShell (name : bytes) (exec : bytes -> list bytes -> M bool) : M unit :=
  _ ← prints [Plain []; Plain (concat [str "╭─[nextalk:"; name; str "] — classic shell · `exit` goes back · `help` lists commands"])];
  w ← gets id;
  subShellLoop exec (S (length (w_typed w))).

(** [runSwitch] into the offline shell, for the identity of the session. *)
Definition enterOffline (identity : bytes) : M unit :=
  _ ← modify (set_state NewState);
  _ ← (if negb (bytes_eqb identity []) then
         x ← attempt (LoadClient_ identity);
         match x with
         | inl _ => mret tt
         | inr cl => _ ← modify (fun w => set_state (set_ActiveClient cl (w_state w)) w); _ ← InitMailbox env; InitFanout env
         end
       else mret tt);
  _ ← Init;
  runSubShell (str "offline") Execute.

(** ** offline.go: the loop *)
Definition banner : list line :=
  [Plain (str "=== NexTalk (Offline Transport) ===");
   Plain (str "init | load | offer | accept | finish | encrypt | decrypt | help | clear | exit")].

Definition helpLines : list line :=
  Plain <$> [str "=== NexTalk (Offline Transport) ==="; str "Commands:";
    str "  init                    Create a new identity";
    str "  load <id>               Load an existing identity";
    str "  offer                   Generate a handshake offer";
    str "  accept                  Accept a handshake offer";
    str "  finish                  Complete a handshake";
    str "  encrypt <peer> <msg>    Encrypt a message";
    str "  decrypt                 Decrypt a container / message package";
    str "  context create|list|show|rename|add|remove|include|mute|block|members";
    str "  send-multi <ctx> <msg>  Fan out a group message (exports containers)";
    str "  contexts                List contexts";
    str "  mailbox [peer|group]    Read stored conversations";
    str "  clear                   Clear the screen";
    str "  exit                    Quit"].

Definition loopClient (active : option loc) (k : loc -> M unit) : M unit :=
  match active with None => say (str "[-] Please 'init' or 'load' an identity first.") | Some cl => k cl end.

(** [replState] *)
Definition replState (cl : loc) : M unit :=
  _ ← modify (set_state (set_ActiveClient cl NewState));
  _ ← InitMailbox env;
  InitFanout env.

(** A pasted envelope: the base64 is read as far as it goes. *)
Definition pastedEnvelope (invalid : bytes) (k : bytes -> M unit) : M unit :=
  l ← scan;
  match json_envelope (b64Salvage l) with
  | None => say invalid
  | Some d => k (default [] d)
  end.

Definition loopOffer (active : option loc) (args : list bytes) : M unit :=
  match args with
  | [] => say (str "usage: offer <client_id>")
  | peer :: _ =>
      loopClient active (fun cl =>
        orProblem (createOffer cl peer) (fun offer => say (str "[+] OFFER:" ++ nl ++ str " " ++ b64Encode (wrapEnvelope (str "offer") offer))))
  end.

Definition loopAccept (active : option loc) : M unit :=
  pastedEnvelope (str "[-] invalid offer envelope") (fun data =>
    loopClient active (fun cl =>
      orProblem (acceptOffer cl data) (fun answer => say (str "[+] ANSWER:" ++ nl ++ str " " ++ b64Encode (wrapEnvelope (str "answer") answer))))).

Definition loopFinish (active : option loc) : M unit :=
  _ ← say (str "answer: ");
  pastedEnvelope (str "[-] invalid answer envelope") (fun data =>
    loopClient active (fun cl =>
      orProblem (finishHandshake cl data) (fun peerID => say (str "[+] session established: " ++ peerID)))).

Definition loopEncrypt (active : option loc) (args : list bytes) : M unit :=
  match args with
  | peer :: (_ :: _) as words =>
      plaintext ← messageText words;
      loopClient active (fun cl =>
        orProblem (encryptTo cl peer plaintext) (fun cipher => say (str "[+] PACKAGE:" ++ nl ++ str " " ++ b64Encode cipher)))
  | _ => say (str "usage: encrypt <peer> <msg>")
  end.

Definition loopShow (sender message : bytes) : M unit := prints [Plain (str "[+] sender: " ++ sender); Plain (str "[+] message: " ++ message)].

(** Whatever keeps a paste from being taken in, it is then tried as a bare frame. *)
Definition loopDecrypt (active : option loc) : M unit :=
  _ ← say (str "package: ");
  l ← scan;
  let pasted := trimSpace l in
  loopClient active (fun cl =>
    _ ← replState cl;
    st ← gets w_state;
    x ← attempt (Ingest env cl (MailboxStore st) (FanoutAt st) pasted);
    match x with
    | inr ev =>
        if bytes_eqb (ie_Kind ev) (str "duplicate") then say (str "[+] already ingested — ignoring duplicate")
        else if bytes_eqb (ie_Kind ev) (str "group_message") then
          prints [Plain (concat [str "[+] group ["; ie_Context ev; str "] from "; ie_Sender ev]); Plain (str "[+] message: " ++ ie_Message ev)]
        else loopShow (ie_Sender ev) (ie_Message ev)
    | inl _ =>
        orProblem (lift (ofOption BadBase64 (b64Decode pasted))) (fun frame =>
        orProblem (decryptFrom cl frame) (fun '(senderID, plain) => loopShow senderID plain))
    end).

Definition loopGroup (active : option loc) (cmd : bytes) (args : list bytes) : M unit :=
  loopClient active (fun cl =>
    _ ← replState cl;
    handled ← GroupChat.Execute env (if bytes_eqb cmd (str "multisend") then str "send-multi" else cmd) args;
    if (handled : bool) then mret tt else say (str "[-] unknown command: " ++ cmd)).

(** The identity after a command. *)
Definition loopInit : M (option loc) := cl ← NewClient_ env; c ← clientAt cl; _ ← say (str "[+] Init: " ++ cl_Id c); mret (Some cl).

Definition loopLoad (active : option loc) (args : list bytes) : M (option loc) :=
  match args with
  | [] => _ ← say (str "usage: load <client_id>"); mret active
  | id :: _ =>
      x ← attempt (LoadClient_ id);
      match x with
      | inl e => _ ← print (Problem e); mret active
      | inr cl => c ← clientAt cl; _ ← say (str "[+] loaded: " ++ cl_Id c); mret (Some cl)
      end
  end.

(** One command: the identity it leaves, or [None] to end. *)
Definition loopCommand (active : option loc) (cmd : bytes) (args : list bytes) : M (option (option loc)) :=
  let stay (m : M unit) : M (option (option loc)) := _ ← m; mret (Some active) in
  let named c := bytes_eqb cmd c in
  if named (str "init") then x ← loopInit; mret (Some x)
  else if named (str "load") then x ← loopLoad active args; mret (Some x)
  else if named (str "offer") then stay (loopOffer active args)
  else if named (str "accept") then stay (loopAccept active)
  else if named (str "finish") then stay (loopFinish active)
  else if named (str "encrypt") then stay (loopEncrypt active args)
  else if named (str "decrypt") then stay (loopDecrypt active)
  else if named (str "help") then stay (prints helpLines)
  else if oneOf cmd [str "context"; str "send-multi"; str "multisend"; str "contexts"; str "mailbox"] then stay (loopGroup active cmd args)
  else if named (str "clear") then stay (prints (Plain ([x1b] ++ str "[H" ++ [x1b] ++ str "[2J") :: banner))
  else if named (str "exit") then _ ← say (str "[+] bye."); mret None
  else stay (say (str "[-] unknown command")).

Fixpoint loop (fuel : nat) (active : option loc) : M unit :=
  match fuel with
  | O => mret tt
  | S f =>
      _ ← say (nl ++ str "> ");
      input ← readLine;
      match input with
      | None => mret tt
      | Some l =>
          match Shell.Fields (trimSpace l) with
          | [] => loop f active
          | cmd :: args =>
              next ← loopCommand active (toLower ex_uni cmd) args;
              match next with Some active => loop f active | None => mret tt end
          end
      end
  end.

Definition RunOffline : M unit := _ ← prints banner; w ← gets id; loop (S (length (w_typed w))) None.

End Offline.
End Offline.
