(* ===== verification/OfflineTheorems.v ===== *)
(** * What the offline commands guarantee

    The commands of [cmd/offline] compose the client, the text encodings and the
    profiles on disk: every command loads the profile, works and saves it, and what
    one command prints another reads. *)
From S2P Require Import Prelude Steps GoStd Sha256 External SecurePeer SecurePeerFacts Session Engine EngineFacts SessionTheorems Client ClientFacts ClientTheorems Codec Frame Binstore Records MultiMsg MultiStore MultiStoreTheorems.
From S2P Require Import Fanout FanoutTheorems GroupDelivery Mailbox MailboxTheorems Contacts Dispatch DispatchTheorems Registry Shell Transport Ops OpsFrames Front FrontFacts GroupChat GroupChatTheorems Completion Offline.
#[local] Open Scope Z_scope.
Import Ops Frames Front FrontFacts GroupChat Completion Offline Steps.

(** ** Profiles *)

(** The client a command that names the profile works on. *)
Definition profile (w : World) (id : bytes) : option Client := p ← w_profiles w !! id; LoadClient p.

(** The file holds what the sessions are. *)
Definition saved (c : Client) : Prop := cl_disk c = Some (snapshot c).

Lemma SaveClient_saved c : cl_ephemeral c = false -> saved (SaveClient true c).
Proof. intros He. unfold saved, SaveClient. by rewrite He. Qed.

Lemma loadSessions_same l c : cl_Id (loadSessions l c) = cl_Id c /\ cl_disk (loadSessions l c) = cl_disk c /\ cl_ephemeral (loadSessions l c) = cl_ephemeral c.
Proof. induction l as [|[? ?] l IH]; done. Qed.

Lemma LoadClient_same c c' : LoadClient c = Some c' -> cl_Id c' = cl_Id c /\ cl_disk c' = cl_disk c /\ cl_ephemeral c' = false.
Proof.
  unfold LoadClient. destruct (cl_disk c) as [d|] eqn:Hd; [|done]. cbn [mbind option_bind]. intros [= <-].
  destruct (loadSessions_same (map_to_list d) (mkClient (cl_Id c) (cl_IdentityPrivate c) (cl_IdentityPublic c) (cl_DilithiumPrivate c)
       (cl_DilithiumPublic c) ∅ false ∅ O (Some d))) as (-> & -> & ->). done.
Qed.

(** Loading what was saved gives the sessions as a reload leaves them. *)
Lemma saved_loads c : client_wf c -> cl_ephemeral c = false -> saved c ->
  exists c', LoadClient c = Some c' /\ cl_Id c' = cl_Id c /\ forall n, session c' n = reload <$> session c n.
Proof.
  intros Hwf He Hs. destruct (save_load c Hwf He) as (c' & Hl & _ & Hid & Hse). exists c'. split; [|done].
  rewrite <- Hl. unfold SaveClient. rewrite He. unfold saved in Hs. destruct c. cbn in Hs. by rewrite Hs.
Qed.

Section Clients.
Context `{N : Nanopack} `{P : Prims} `{J : LegacyJSON}.

Ltac saved_op := intros He; repeat case_match; try done; intros Hr; injection Hr as <- _; (split; [by apply SaveClient_saved|unfold SaveClient; by repeat case_match]).

Lemma create_saved r oid c peer c' o : cl_ephemeral c = false -> Client_CreateOffer true r oid c peer = (c', Ok o) -> saved c' /\ cl_ephemeral c' = false.
Proof. unfold Client_CreateOffer. cbn [alloc]. saved_op. Qed.

Lemma accept_saved r e c offer c' a : cl_ephemeral c = false -> Client_AcceptOffer true r e c offer = (c', Ok a) -> saved c' /\ cl_ephemeral c' = false.
Proof. unfold Client_AcceptOffer. cbn [alloc]. saved_op. Qed.

Lemma finish_saved c answer c' p : cl_ephemeral c = false -> Client_FinishHandshake true c answer = (c', Ok p) -> saved c' /\ cl_ephemeral c' = false.
Proof. unfold Client_FinishHandshake. saved_op. Qed.

Lemma encrypt_saved rnd c peer m c' ct : cl_ephemeral c = false -> Client_Encrypt true rnd c peer m = (c', Ok ct) -> saved c' /\ cl_ephemeral c' = false.
Proof. unfold Client_Encrypt. saved_op. Qed.

Lemma decrypt_saved c frame c' m : cl_ephemeral c = false -> Client_Decrypt true c frame = (c', Ok m) -> saved c' /\ cl_ephemeral c' = false.
Proof. unfold Client_Decrypt. saved_op. Qed.

End Clients.

(** What was written to the standard output, and in the run from one world to
    another. *)
Definition stdoutOf (l : list line) : bytes := concat (omap (fun x => match x with Raw d => Some d | _ => None end) l).
Definition writtenSince (w w' : World) : bytes := stdoutOf (drop (length (w_out w)) (w_out w')).

(** Profiles can be written, and the standard output. *)
Definition works (env : frontEnv) : Prop := fe_save env = true /\ fe_stdout env = true.

Lemma valid_encoding enc : Input.Valid enc = true -> ValidateEncoding enc = Ok tt.
Proof.
  unfold Input.Valid, ValidateEncoding, oneOf. intros H. assert (enc ∈ [str "raw"; str "b64"; str "hex"]) as Hin.
  { rewrite !orb_true_iff, !bool_decide_eq_true in H. rewrite !elem_of_cons. destruct H as [[-> | ->] | ->]; auto. }
  by rewrite bool_decide_eq_true_2 by done.
Qed.

(** The end of the line after encoded text does not disturb its reading. *)
Definition lineEnd (enc : bytes) : bytes := if negb (bytes_eqb enc Input.EncodingRaw) then nl else [].

Lemma decode_printed enc data : Input.Valid enc = true ->
  exists t, Input.EncodeOutput enc data = Ok t /\ Input.DecodeInput enc (t ++ lineEnd enc) = Ok data /\
    (enc ≠ Input.EncodingRaw -> forallb graphic t = true /\ hasPrefix (str "{") t = false).
Proof.
  unfold Input.EncodeOutput, Input.DecodeInput, Input.Encode, Input.Decode, lineEnd. intros Hv. rewrite Hv. cbn [negb].
  destruct (decide (enc = Input.EncodingRaw)) as [->|Hraw].
  { rewrite bytes_eqb_refl, bool_decide_eq_true_2 by done. exists data. by rewrite app_nil_r. }
  rewrite (proj2 (bytes_eqb_neq _ _) Hraw), (bool_decide_eq_false_2 _ Hraw). cbn [negb]. unfold nl.
  unfold Input.Valid in Hv. rewrite (bool_decide_eq_false_2 _ Hraw) in Hv. cbn [orb] in Hv.
  destruct (bool_decide (enc = Input.EncodingBase)).
  - exists (b64Encode data). rewrite trimSpace_line, b64Decode_Encode by apply b64Encode_graphic. conjs; try done.
    intros _. split; [apply b64Encode_graphic|]. apply bool_decide_eq_false. intros [t Ht].
    pose proof (b64Decode_Encode data) as Hd. rewrite Ht in Hd. unfold b64Decode in Hd.
    change (List.filter notNewline (str "{" ++ t)) with (x7b :: List.filter notNewline t) in Hd. by destruct (List.filter notNewline t) as [|? [|? [|? ?]]].
  - cbn [orb] in Hv. rewrite Hv. exists (hexEncode data). rewrite trimSpace_line, hexDecode_Encode by apply hexEncode_graphic. conjs; try done.
    intros _. split; [apply hexEncode_graphic|]. apply bool_decide_eq_false. intros [t Ht].
    pose proof (hexDecode_Encode data) as Hd. rewrite Ht in Hd. cbn in Hd. by repeat case_match.
Qed.

Section Commands.
Context `{N : Nanopack} `{NL : !NanopackLaws} `{P : Prims} `{PL : !PrimLaws} `{J : LegacyJSON} `{R : RecordStore} `{X : Surroundings} `{FT : FrontText}.
Context `{CJ : ContainerJSON} `{EJ : EnvelopeJSON} `{EL : !EnvelopeJSONLaws}.
Implicit Types w : World.

(** ** A command on a profile *)
Lemma LoadClient_run id w c : profile w id = Some c ->
  LoadClient_ id w = (set_clients (<[w_next w := c]> (w_clients w)) (S (w_next w)) w, Ok (w_next w)).
Proof.
  unfold profile, LoadClient_. intros (p & Hp & Hl)%bind_Some. erewrite bind_run by reflexivity. rewrite Hp. cbn [mbind option_bind]. by rewrite Hl.
Qed.

Lemma refresh_profile w w' id c : profile w id = Some c -> cl_Id c = id -> w_profiles w' = w_profiles w -> refresh w' c = c.
Proof.
  unfold profile, refresh. intros (p & Hp & Hl)%bind_Some Hid Hw.
  apply LoadClient_same in Hl as (_ & Hd & _). rewrite Hw, Hid, Hp. cbn [mbind option_bind]. rewrite <- Hd. by destruct c.
Qed.

Lemma profile_loaded w id c : profile w id = Some c -> client_wf c /\ cl_ephemeral c = false.
Proof.
  unfold profile. intros (p & Hp & Hl)%bind_Some.
  split; [by eapply LoadClient_wf|by apply LoadClient_same in Hl as (_ & _ & ?)].
Qed.

Lemma method_saves {A} w w1 id l c c' (f : Client -> Client * res client_err A) a :
  profile w id = Some c -> cl_Id c = id -> w_profiles w1 = w_profiles w -> w_clients w1 !! l = Some c -> f c = (c', Ok a) ->
  client_wf c' -> saved c' /\ cl_ephemeral c' = false -> cl_Id c' = id ->
  onClient ClientErr l f w1 = (putClient l c' w1, Ok a) /\
  exists c'', profile (putClient l c' w1) id = Some c'' /\ cl_Id c'' = id /\ forall n, session c'' n = reload <$> session c' n.
Proof.
  intros Hp Hid Hw Hl Hf Hwf [Hs He] Hid'. split.
  - rewrite (onClient_run ClientErr l c f w1 c' (Ok a) Hl); [done|]. by rewrite (refresh_profile w w1 id).
  - destruct (saved_loads c' Hwf He Hs) as (c'' & Hload & Hid'' & Hse). exists c''. rewrite Hid''. split; [|done].
    unfold profile, putClient. unfold saved in Hs. rewrite Hs. cbn [set_profiles w_profiles]. rewrite Hid', lookup_insert_eq. exact Hload.
Qed.

(** ** Handing over *)
Lemma emit_run env enc doc saved envelope w : works env -> Input.Valid enc = true ->
  exists out, emitEnvelope env [] enc formatHuman doc saved envelope w = (set_out (w_out w ++ out) w, Ok tt) /\
    decodeAs enc (stdoutOf out) = @lift World front_err _ (Ok envelope).
Proof.
  intros [_ Hout] Hv. destruct (decode_printed enc envelope Hv) as (t & He & Hd & _).
  unfold emitEnvelope. rewrite bytes_eqb_refl. change (bytes_eqb formatHuman formatJSON) with false. cbn [negb].
  unfold encodeAs. rewrite He. cbn [wrapErr]. erewrite bind_run by reflexivity. unfold printEncoded, stdout. rewrite Hout.
  erewrite bind_run by reflexivity. unfold lineEnd in Hd. unfold decodeAs. destruct (negb (bytes_eqb enc Input.EncodingRaw)).
  - exists [Raw t; Raw nl]. split.
    + unfold attempt, mbind, Step_bind, print, modify, mret, Step_ret. cbn [set_out w_out]. by rewrite <- app_assoc.
    + unfold stdoutOf. cbn [omap list_omap concat]. rewrite app_nil_r, Hd. done.
  - exists [Raw t]. split; [done|]. unfold stdoutOf. cbn [omap list_omap concat]. rewrite Hd. done.
Qed.

(** Reading depends on the files and the standard input only. *)
Lemma readInput_at env inline file w w' t : readInput env inline file w = (w, Ok t) -> w_disk w' = w_disk w -> readInput env inline file w' = (w', Ok t).
Proof.
  unfold readInput. intros H Hd. destruct (negb (bytes_eqb file [])).
  { unfold readFile in *. erewrite bind_run in H by reflexivity. erewrite bind_run by reflexivity. cbv beta in *. rewrite Hd.
    apply step_lift_Ok in H as [-> _]. done. }
  destruct (negb (bytes_eqb inline [])); [by injection H as ->|]. unfold readStdin in *. run_inv.
  match goal with E : ofOption _ _ = Ok _ |- _ => rewrite E end. erewrite bind_run by reflexivity.
  cbv beta. match goal with E : bytes_eqb _ _ = false |- _ => rewrite E end. by injection H as ->.
Qed.

Lemma readInput_stdin env w t : in_data (fe_stdin env) = Some t -> t ≠ [] -> readInput env [] [] w = (w, Ok t).
Proof.
  intros Hd Ht. unfold readInput, readStdin. rewrite bytes_eqb_refl, Hd. cbn [negb]. erewrite bind_run by reflexivity.
  by rewrite (proj2 (bytes_eqb_neq _ _) Ht).
Qed.

Lemma readInput_inline env w t : t ≠ [] -> readInput env t [] w = (w, Ok t).
Proof. intros Ht. unfold readInput. by rewrite bytes_eqb_refl, (proj2 (bytes_eqb_neq _ _) Ht). Qed.

Lemma readEnvelope_run env inline file enc w w' data d : readInput env inline file w = (w, Ok data) -> w_disk w' = w_disk w ->
  (exists envelope, decodeAs enc data = lift (Ok envelope) /\ json_envelope envelope = Some (Some d)) ->
  readEnvelope env inline file enc w' = (w', Ok d).
Proof.
  intros Hr Hw (e & Hd & Hj). unfold readEnvelope. rewrite (bind_run _ _ _ _ _ (readInput_at _ _ _ _ _ _ Hr Hw)).
  rewrite Hd. erewrite bind_run by reflexivity. rewrite Hj. erewrite bind_run by reflexivity. done.
Qed.

Lemma written_app w w' out : w_out w' = w_out w ++ out -> writtenSince w w' = stdoutOf out.
Proof. intros H. unfold writtenSince. by rewrite H, drop_app_length. Qed.

(** ** The handshake *)

(** Two conversing profiles: the sessions the two clients load for each other are in
    step. *)
Definition inStep (wA wB : World) (alice bob : bytes) : Prop :=
  exists cA cB spA spB, profile wA alice = Some cA /\ profile wB bob = Some cB /\ cl_Id cA = alice /\ cl_Id cB = bob /\
    session cA bob = Some spA /\ session cB alice = Some spB /\ synced (Net spA spB [] []).

Lemma reload_fresh sp : pendingDhRatchet sp = false -> reload sp = sp.
Proof. destruct sp. cbn. by intros ->. Qed.

Lemma CreateOffer_fresh r i oid peer pid sp offer : honest i -> good_rand r -> len oid = 16 -> base58_decode peer = Some pid -> len pid = 64 ->
  CreateOffer r oid (idOf i) (i_priv i) (i_pub i) (i_dpriv i) (i_dpub i) peer = Ok (sp, offer) -> reload sp = sp.
Proof.
  intros Hi Hr Ho Hp Hl Hc. destruct (CreateOffer_honest r i oid peer pid Hi Hr Ho Hp Hl) as (sp' & o & w & Hc' & M & _).
  rewrite Hc in Hc'. injection Hc' as -> _. apply reload_fresh, (fp_pending _ (mk_fresh _ _ _ M)).
Qed.

(** What each command of the handshake does to the profile and prints. *)
Lemma RunOffer_run env w id c c' peer enc offer : works env -> Input.Valid enc = true -> profile w id = Some c -> cl_Id c = id ->
  Client_CreateOffer true (fe_peer env) (fe_offer env) c peer = (c', Ok offer) -> cl_Id c' = id ->
  exists w', RunOffer env (mkOffer id peer [] enc formatHuman) w = (w', Ok tt) /\
    decodeAs enc (writtenSince w w') = @lift World front_err _ (Ok (marshalCLI (str "offer") offer)) /\
    exists c'', profile w' id = Some c'' /\ cl_Id c'' = id /\ forall n, session c'' n = reload <$> session c' n.
Proof.
  intros Hw Hv Hp Hid Hc Hid'. destruct (profile_loaded _ _ _ Hp) as [Hwf He]. unfold RunOffer.
  cbn [oo_LocalPeer oo_RemotePeer oo_OutputFile oo_OutputEncoding oo_Format]. rewrite (valid_encoding _ Hv).
  erewrite bind_run by reflexivity. erewrite bind_run by reflexivity. rewrite (bind_run _ _ _ _ _ (LoadClient_run _ _ _ Hp)).
  set (w1 := set_clients _ _ w). unfold createOffer. rewrite (proj1 Hw).
  pose proof (CreateOffer_wf true (fe_peer env) (fe_offer env) c peer Hwf) as Hwf'. rewrite Hc in Hwf'.
  destruct (method_saves w w1 id (w_next w) c c' (fun c => Client_CreateOffer true (fe_peer env) (fe_offer env) c peer) offer Hp Hid eq_refl
    (lookup_insert_eq _ _ _) Hc Hwf' (create_saved _ _ _ _ _ _ He Hc) Hid') as [Hrun (c'' & Hp'' & Hid'' & Hse)].
  rewrite (bind_run _ _ _ _ _ Hrun).
  destruct (emit_run env enc (DocOffer peer) (concat [str "[✓] Offer created for "; peer; nl; nl; str "Saved to:"; nl; []])
    (marshalCLI (str "offer") offer) (putClient (w_next w) c' w1) Hw Hv) as (out & Hemit & Hdec).
  rewrite Hemit. eexists. split; [reflexivity|].
  destruct (putClient_eq (w_next w) c' w1) as (_ & _ & _ & _ & Ho & _).
  rewrite (written_app w _ out) by (cbn [set_out w_out]; by rewrite Ho). split; [done|]. by exists c''.
Qed.

Lemma RunAccept_run env w id c c' inline file data enc offer answer : works env -> Input.Valid enc = true -> profile w id = Some c -> cl_Id c = id ->
  forall encIn, Input.Valid encIn = true -> readInput env inline file w = (w, Ok data) ->
  decodeAs encIn data = lift (Ok (marshalCLI (str "offer") offer)) ->
  Client_AcceptOffer true (fe_peer env) (fe_encaps env) c offer = (c', Ok answer) -> cl_Id c' = id ->
  exists w', RunAccept env (mkAccept id inline file [] encIn enc formatHuman) w = (w', Ok tt) /\
    decodeAs enc (writtenSince w w') = @lift World front_err _ (Ok (marshalCLI (str "answer") answer)) /\
    exists c'', profile w' id = Some c'' /\ cl_Id c'' = id /\ forall n, session c'' n = reload <$> session c' n.
Proof.
  intros Hw Hv Hp Hid encIn Hvi Hin Hdecode Hc Hid'. destruct (profile_loaded _ _ _ Hp) as [Hwf He]. unfold RunAccept.
  cbn [ao_LocalPeer ao_OfferEnvelope ao_InputFile ao_OutputFile ao_InputEncoding ao_OutputEncoding ao_Format].
  rewrite (valid_encoding _ Hv), (valid_encoding _ Hvi).
  erewrite bind_run by reflexivity. erewrite bind_run by reflexivity. erewrite bind_run by reflexivity.
  rewrite (bind_run _ _ _ _ _ (LoadClient_run _ _ _ Hp)). set (w1 := set_clients _ _ w).
  assert (readEnvelope env inline file encIn w1 = (w1, Ok offer)) as Hread.
  { eapply readEnvelope_run; [done|done|]. eexists. split; [done|]. by apply json_envelope_cli. }
  rewrite (bind_run _ _ _ _ _ Hread). unfold acceptOffer. rewrite (proj1 Hw).
  pose proof (AcceptOffer_wf true (fe_peer env) (fe_encaps env) c offer Hwf) as Hwf'. rewrite Hc in Hwf'.
  destruct (method_saves w w1 id (w_next w) c c' (fun c => Client_AcceptOffer true (fe_peer env) (fe_encaps env) c offer) answer Hp Hid eq_refl
    (lookup_insert_eq _ _ _) Hc Hwf' (accept_saved _ _ _ _ _ _ He Hc) Hid') as [Hrun (c'' & Hp'' & Hid'' & Hse)].
  rewrite (bind_run _ _ _ _ _ Hrun).
  destruct (emit_run env enc DocAccept (concat [str "[✓] Answer generated"; nl; nl; str "Saved to:"; nl; []])
    (marshalCLI (str "answer") answer) (putClient (w_next w) c' w1) Hw Hv) as (out & Hemit & Hdec).
  rewrite Hemit. eexists. split; [reflexivity|].
  destruct (putClient_eq (w_next w) c' w1) as (_ & _ & _ & _ & Ho & _).
  rewrite (written_app w _ out) by (cbn [set_out w_out]; by rewrite Ho). split; [done|]. by exists c''.
Qed.

Lemma RunFinish_run env w id c c' inline file data enc answer peer : works env -> Input.Valid enc = true -> profile w id = Some c -> cl_Id c = id ->
  readInput env inline file w = (w, Ok data) -> decodeAs enc data = lift (Ok (marshalCLI (str "answer") answer)) ->
  Client_FinishHandshake true c answer = (c', Ok peer) -> cl_Id c' = id ->
  exists w', RunFinish env (mkFinish id inline file enc formatHuman) w = (w', Ok tt) /\
    exists c'', profile w' id = Some c'' /\ cl_Id c'' = id /\ forall n, session c'' n = reload <$> session c' n.
Proof.
  intros Hw Hv Hp Hid Hin Hdecode Hc Hid'. destruct (profile_loaded _ _ _ Hp) as [Hwf He]. unfold RunFinish.
  cbn [fi_LocalPeer fi_AnswerEnvelope fi_InputFile fi_InputEncoding fi_Format].
  rewrite (valid_encoding _ Hv). erewrite bind_run by reflexivity. erewrite bind_run by reflexivity.
  rewrite (bind_run _ _ _ _ _ (LoadClient_run _ _ _ Hp)). set (w1 := set_clients _ _ w).
  assert (readEnvelope env inline file enc w1 = (w1, Ok answer)) as Hread.
  { eapply readEnvelope_run; [done|done|]. eexists. split; [done|]. by apply json_envelope_cli. }
  rewrite (bind_run _ _ _ _ _ Hread). unfold finishHandshake. rewrite (proj1 Hw).
  pose proof (FinishHandshake_wf true c answer Hwf) as Hwf'. rewrite Hc in Hwf'.
  destruct (method_saves w w1 id (w_next w) c c' (fun c => Client_FinishHandshake true c answer) peer Hp Hid eq_refl
    (lookup_insert_eq _ _ _) Hc Hwf' (finish_saved _ _ _ _ He Hc) Hid') as [Hrun (c'' & Hp'' & Hid'' & Hse)].
  rewrite (bind_run _ _ _ _ _ Hrun). eexists. split; [reflexivity|]. by exists c''.
Qed.

Lemma create_pending io r oid c i peer sp offer :
  client_of c i -> peer ≠ [] -> CreateOffer r oid (idOf i) (i_priv i) (i_pub i) (i_dpriv i) (i_dpub i) peer = Ok (sp, offer) ->
  exists c', Client_CreateOffer io r oid c peer = (c', Ok offer) /\ session c' (pendingFor peer) = Some sp.
Proof.
  intros (H1 & H2 & H3 & H4 & H5) Hp Hc. unfold Client_CreateOffer. rewrite H1, H2, H3, H4, H5, Hc. cbn [alloc].
  rewrite bool_decide_eq_false_2 by done. eexists. split; [reflexivity|]. rewrite SaveClient_session. unfold session.
  cbn [cl_Sessions set_Sessions cl_heap set_heap]. pose proof (pendingFor_ne peer).
  rewrite lookup_insert_ne, lookup_insert_eq by done. cbn [mbind option_bind]. apply lookup_insert_eq.
Qed.

Lemma synced_reloaded a b : synced (Net a b [] []) -> synced (Net (reload a) (reload b) [] []).
Proof.
  intros H. apply reload_synced. pose proof (synced_swap _ H) as H'. apply reload_synced in H'. by apply synced_swap in H'.
Qed.

(** C6: A handshake over the command line, with whatever carries the texts.  One
    user runs [offer], the other gives what it printed to [accept], and the first
    gives what that printed to [finish]: in whichever encodings, inline, from a file
    or through a pipe, all three commands succeed, and afterwards the two profiles
    on disk hold sessions that are in step. *)
Theorem offline_handshake_establishes envA envA' envB wA wA1 wA2 wB wB1 iA iB cA cB enc1 enc2 inlineB fileB inlineA fileA r1 r2 r3 :
  honest iA -> honest iB -> sha256 (i_pub iA) ≠ sha256 (i_pub iB) ->
  profile wA (idOf iA) = Some cA -> client_of cA iA -> profile wB (idOf iB) = Some cB -> client_of cB iB ->
  good_rand (fe_peer envA) -> good_rand (fe_peer envB) -> len (fe_offer envA) = 16 ->
  seen (seenBy (session cB (idOf iA))) (base58_encode (fe_offer envA)) = false ->
  works envA -> works envA' -> works envB -> Input.Valid enc1 = true -> Input.Valid enc2 = true ->
  RunOffer envA (mkOffer (idOf iA) (idOf iB) [] enc1 formatHuman) wA = (wA1, r1) ->
  readInput envB inlineB fileB wB = (wB, Ok (writtenSince wA wA1)) ->
  RunAccept envB (mkAccept (idOf iB) inlineB fileB [] enc1 enc2 formatHuman) wB = (wB1, r2) ->
  readInput envA' inlineA fileA wA1 = (wA1, Ok (writtenSince wB wB1)) ->
  RunFinish envA' (mkFinish (idOf iA) inlineA fileA enc2 formatHuman) wA1 = (wA2, r3) ->
  r1 = Ok tt /\ r2 = Ok tt /\ r3 = Ok tt /\ inStep wA2 wB1 (idOf iA) (idOf iB).
Proof.
  intros HA HB Hne HpA HcA HpB HcB RA RB Ho Hseen WA WA' WB V1 V2 R1 I1 R2 I2 R3.
  destruct (honest_handshake (fe_peer envA) (fe_peer envB) iA iB (fe_encaps envB) (fe_offer envA) (session cB) HA HB Hne RA RB Ho Hseen)
    as (pa & offer & o & a & pb & answer & _ & _ & _ & Hpeek & Hc & Ha & Hf & Hsync & _).
  assert (reload pa = pa) as Hfresh by (eapply CreateOffer_fresh; [..|exact Hc]; [done|done|done|apply idOf_bytes|by apply honest_idbytes_len]).
  destruct (create_pending true _ _ _ _ _ _ _ HcA (idOf_nonempty _ HB) Hc) as (ca & Hca & Hpend).
  assert (cl_Id ca = idOf iA) as HidA.
  { rewrite <- (proj1 HcA). pose proof (perform_Id true (OpCreateOffer (fe_peer envA) (fe_offer envA) (idOf iB)) cA) as H. cbn [perform] in H. by rewrite Hca in H. }
  destruct (RunOffer_run envA wA (idOf iA) cA ca (idOf iB) enc1 offer WA V1 HpA (proj1 HcA) Hca HidA) as (w1 & E1 & D1 & ca1 & HpA1 & HidA1 & HsA1).
  rewrite E1 in R1. injection R1 as <- <-. split; [done|].
  destruct (client_accept true _ _ _ _ _ _ _ _ HcB Ha) as (cb & Hcb & HsB).
  assert (cl_Id cb = idOf iB) as HidB.
  { rewrite <- (proj1 HcB). pose proof (perform_Id true (OpAcceptOffer (fe_peer envB) (fe_encaps envB) offer) cB) as H. cbn [perform] in H. by rewrite Hcb in H. }
  destruct (RunAccept_run envB wB (idOf iB) cB cb inlineB fileB _ enc2 offer answer WB V2 HpB (proj1 HcB) enc1 V1 I1 D1 Hcb HidB) as (w2 & E2 & D2 & cb1 & HpB1 & HidB1 & HsB1).
  rewrite E2 in R2. injection R2 as <- <-. split; [done|].
  assert (session ca1 (pendingFor (idOf iB)) = Some pa) as Hpend1 by (by rewrite HsA1, Hpend; cbn; rewrite Hfresh).
  unfold session in Hpend1. apply bind_Some in Hpend1 as (p & Hp1 & Hp2).
  assert (pendingLoc ca1 (idOf iB) = Some p) as Hloc by (unfold pendingLoc; by rewrite Hp1).
  rewrite <- HidA1 in Hf. destruct (client_finish true ca1 _ _ _ _ _ Hpeek Hloc Hp2 Hf) as (ca2 & Hca2 & HsA2).
  assert (cl_Id ca2 = idOf iA) as HidA2.
  { rewrite <- HidA1. pose proof (perform_Id true (OpFinishHandshake answer) ca1) as H. cbn [perform] in H. by rewrite Hca2 in H. }
  destruct (RunFinish_run envA' w1 (idOf iA) ca1 ca2 inlineA fileA _ enc2 answer (idOf iB) WA' V2 HpA1 HidA1 I2 D2 Hca2 HidA2) as (w3 & E3 & ca3 & HpA3 & HidA3 & HsA3).
  rewrite E3 in R3. injection R3 as <- <-. split; [done|].
  exists ca3, cb1, (reload a), (reload pb). rewrite HsA3, HsA2, HsB1, HsB. conjs; try done. by apply synced_reloaded.
Qed.

(** ** Messages *)

(** The stores and the mailbox of an identity can be opened. *)
Definition storesOpen (env : frontEnv) (id : bytes) (d : fs) : Prop :=
  exists cs ds s, OpenIdentityStores ex_contexts ex_policies ex_deliveries (fe_io env 1%nat) (fe_io env 2%nat) id d = Ok (cs, ds) /\
    Mailbox.Load ex_threads (fe_io env 0%nat) id (fd_disk ds) = Ok s.

(** Text that can be read as base64 starts with no frame type. *)
Lemma b64_not_frame b s d : b64Decode (b :: s) = Some d -> Valid b = false.
Proof.
  intros H. destruct (Valid b) eqn:Hv; [|done]. exfalso. unfold Valid in Hv. apply bool_decide_eq_true in Hv as [n Hn]. unfold Names in Hn.
  revert H. unfold b64Decode. destruct b; try done; cbn [List.filter notNewline];
    match goal with |- context [notNewline ?b] => change (notNewline b) with true end; cbn iota;
    destruct (List.filter notNewline s) as [|? [|? [|? ?]]]; done.
Qed.

(** Encoded text is not taken for a frame, whatever it decodes to. *)
Lemma ingest_text env id t w c : profile w id = Some c -> storesOpen env id (w_disk w) ->
  trimSpace (trimSpace t) = trimSpace t -> hasPrefix (str "{") (trimSpace t) = false ->
  exists w', ingestStandardBytes env id t w = (w', Err NotFrame) /\ w_profiles w' = w_profiles w /\ w_out w' = w_out w /\
    forall l, (l < w_next w)%nat -> w_clients w' !! l = w_clients w !! l.
Proof.
  intros Hp (cs & ds & s & Ho & Hm) Htt Hj. unfold ingestStandardBytes. cbv zeta. destruct (trimSpace t) as [|b rest] eqn:Ht; [by exists w|].
  rewrite (bind_run _ _ w w tt) by done. rewrite Hj. destruct (isPlausibleFrameB64 (b :: rest)) eqn:Hb; [|by exists w].
  rewrite (bind_run _ _ w w tt) by done. rewrite (bind_run _ _ _ _ _ (LoadClient_run _ _ _ Hp)). set (w1 := set_clients _ _ w).
  assert (OpenStores env 1 id w1 = (set_disk (fd_disk ds) w1, Ok (cs, ds))) as H2 by (unfold OpenStores; cbn [w_disk w1 set_clients]; by rewrite Ho).
  rewrite (bind_run _ _ _ _ _ H2). set (w2 := set_disk _ w1).
  assert (LoadMailbox env 0 id w2 = newMailbox s (set_disk (Mailbox.disk s) w2)) as H3.
  { unfold LoadMailbox. erewrite bind_run; [reflexivity|]. cbn [w_disk w2 set_disk]. by rewrite Hm. }
  unfold newMailbox in H3. rewrite (bind_run _ _ _ _ _ H3). set (w3 := set_mailboxes _ _ _).
  assert (w_clients w3 !! w_next w = Some c) as Hc by (cbn; apply lookup_insert_eq).
  assert (exists w4 fan, newFanFor (w_next w) false (inr cs) (inr ds) w3 = (w4, Ok fan) /\ w_profiles w4 = w_profiles w /\ w_out w4 = w_out w /\
    w_clients w4 = <[w_next w := c]> (w_clients w)) as (w4 & fan & H4 & Hp4 & Ho4 & Hc4).
  { unfold newFanFor. rewrite (bind_run _ _ _ _ _ (clientAt_run _ _ _ Hc)). unfold newFan. do 2 eexists. split; [reflexivity|done]. }
  rewrite (bind_run _ _ _ _ _ H4). exists w4. split; [|conjs; try done; intros l Hl; rewrite Hc4; apply lookup_insert_ne; lia].
  unfold Ingest, DecodeContainer. cbv zeta. rewrite Htt, Hj. unfold isPlausibleFrameB64 in Hb.
  destruct (b64Decode (b :: rest)) as [d|] eqn:Hd; [|done]. by rewrite (b64_not_frame _ _ _ Hd).
Qed.

(** A frame from [Encrypt] starts with its number of fields, which no text does. *)
Lemma Encrypt_head rnd sp name pt sp' ct : Encrypt rnd sp name pt = (sp', Ok ct) -> exists rest, ct = x05 :: rest.
Proof.
  rewrite Encrypt_eq. cbv zeta. destruct (secureMessageHmacPayload _); [|done]. destruct (np_encode _) as [w'|] eqn:Hw; [|done].
  intros [= _ <-]. apply np_encode_head in Hw. destruct w' as [|b rest]; [done|]. injection Hw as ->. by exists rest.
Qed.

Lemma Client_Encrypt_head io rnd c peer pt c' ct : Client_Encrypt io rnd c peer pt = (c', Ok ct) -> exists rest, ct = x05 :: rest.
Proof.
  unfold Client_Encrypt. destruct (cl_Sessions c !! peer) as [l|]; [|done]. destruct (cl_heap c !! l) as [sp|]; [|done].
  destruct (Encrypt rnd sp (cl_Id c) pt) as [sp' [x|e|]] eqn:H; [|done|done]. intros [= _ <-]. by eapply Encrypt_head.
Qed.

Lemma strip_keeps b pats : Forall (fun p => b ∉ p) pats -> forall fuel u, exists u', strip fuel pats (u ++ [b]) = u' ++ [b].
Proof.
  intros Hb. induction fuel as [|fuel IH]; intros u; cbn [strip]; [by exists u|]. unfold stripOne.
  destruct (List.find _ pats) as [p|] eqn:Hf; [|by exists u]. apply find_some in Hf as [Hin Hp]. apply bool_decide_eq_true in Hp as [k Hk].
  rewrite Hk, drop_app_length. rewrite list.Forall_forall in Hb. specialize (Hb p ltac:(by apply list_elem_of_In)).
  destruct k as [|x k _] using rev_ind.
  - exfalso. apply Hb. rewrite app_nil_r in Hk. rewrite <- Hk. apply elem_of_app. right. by apply list_elem_of_singleton.
  - rewrite app_assoc in Hk. apply app_inj_tail in Hk as [_ <-]. apply IH.
Qed.

Lemma trimSpace_frame rest : exists r, trimSpace (x05 :: rest) = x05 :: r.
Proof.
  unfold trimSpace. cbv zeta. assert (strip (length (x05 :: rest)) spaces (x05 :: rest) = x05 :: rest) as -> by reflexivity. rewrite reverse_cons.
  destruct (strip_keeps x05 (reverse <$> spaces)) with (fuel := length (x05 :: rest)) (u := reverse rest) as [u Hu].
  - apply list.Forall_forall. intros p Hp. assert (forallb (fun p => negb (bool_decide (x05 ∈ p))) (reverse <$> spaces) = true) as Hall by (vm_compute; reflexivity).
    rewrite forallb_forall in Hall. apply list_elem_of_In, Hall in Hp. by apply negb_true_iff, bool_decide_eq_false in Hp.
  - rewrite Hu, reverse_app. by exists (reverse u).
Qed.

Lemma ingest_frame env id rest w : ingestStandardBytes env id (x05 :: rest) w = (w, Err NotFrame).
Proof.
  unfold ingestStandardBytes. cbv zeta. destruct (trimSpace_frame rest) as [r ->]. rewrite (bind_run _ _ w w tt) by done.
  assert (isPlausibleFrameB64 (x05 :: r) = false) as ->; [|done].
  unfold isPlausibleFrameB64, b64Decode. change (List.filter notNewline (x05 :: r)) with (x05 :: List.filter notNewline r).
  by destruct (List.filter notNewline r) as [|? [|? [|? ?]]].
Qed.

Lemma RunEncrypt_run env w id c c' peer message file inEnc enc raw pt ct : works env -> Input.Valid inEnc = true -> Input.Valid enc = true ->
  (enc = Input.EncodingRaw -> fe_tty env = false) -> profile w id = Some c -> cl_Id c = id ->
  readInput env message file w = (w, Ok raw) -> Input.DecodeInput inEnc raw = Ok pt ->
  Client_Encrypt true (fe_rand env) c peer pt = (c', Ok ct) -> cl_Id c' = id ->
  exists w' t, RunEncrypt env (mkEncrypt id peer message file [] inEnc enc formatHuman) w = (w', Ok tt) /\
    writtenSince w w' = t ++ lineEnd enc /\ Input.DecodeInput enc (t ++ lineEnd enc) = Ok ct /\
    (enc ≠ Input.EncodingRaw -> forallb graphic t = true /\ hasPrefix (str "{") t = false) /\
    exists c'', profile w' id = Some c'' /\ cl_Id c'' = id /\ forall n, session c'' n = reload <$> session c' n.
Proof.
  intros Hw Hvi Hv Hraw Hp Hid Hin Hdec Hc Hid'. destruct (profile_loaded _ _ _ Hp) as [Hwf He]. unfold RunEncrypt.
  cbn [eo_LocalPeer eo_RemotePeer eo_Message eo_InputFile eo_OutputFile eo_InputEncoding eo_OutputEncoding eo_Format].
  rewrite (valid_encoding _ Hv), (valid_encoding _ Hvi).
  erewrite bind_run by reflexivity. erewrite bind_run by reflexivity. erewrite bind_run by reflexivity.
  rewrite (bind_run _ _ _ _ _ (LoadClient_run _ _ _ Hp)). set (w1 := set_clients _ _ w). unfold readPlaintext.
  assert (readInput env message file w1 = (w1, Ok raw)) as Hin1 by by eapply readInput_at. rewrite (bind_run _ _ _ _ _ Hin1).
  unfold decodeAs at 1. rewrite Hdec. erewrite bind_run by reflexivity. unfold encryptTo. rewrite (proj1 Hw).
  pose proof (Encrypt_wf true (fe_rand env) c peer pt Hwf) as Hwf'. rewrite Hc in Hwf'.
  destruct (method_saves w w1 id (w_next w) c c' (fun c => Client_Encrypt true (fe_rand env) c peer pt) ct Hp Hid eq_refl
    (lookup_insert_eq _ _ _) Hc Hwf' (encrypt_saved _ _ _ _ _ _ He Hc) Hid') as [Hrun (c'' & Hp'' & Hid'' & Hse)].
  rewrite (bind_run _ _ _ _ _ Hrun). cbv zeta. rewrite bytes_eqb_refl. change (bytes_eqb formatHuman formatJSON) with false. cbn [negb].
  assert ((bytes_eqb enc Input.EncodingRaw && fe_tty env)%bool = false) as ->
    by (destruct (bytes_eqb enc Input.EncodingRaw) eqn:He'; [apply bool_decide_eq_true in He'; by rewrite Hraw|done]).
  erewrite bind_run by reflexivity.
  destruct (decode_printed enc ct Hv) as (t & Henc & Hd & Hg). unfold encodeAs. rewrite Henc. cbn [wrapErr].
  erewrite bind_run by reflexivity. unfold printEncoded, stdout. rewrite (proj2 Hw).
  destruct (putClient_eq (w_next w) c' w1) as (_ & _ & _ & _ & Ho & _).
  assert (forall out, stdoutOf out = t ++ lineEnd enc -> forall w2, w_out w2 = w_out w ++ out -> writtenSince w w2 = t ++ lineEnd enc) as Hwr
    by (intros out <- w2 Hw2; by apply written_app).
  unfold lineEnd in Hwr. destruct (bytes_eqb enc Input.EncodingRaw) eqn:Her; cbn [negb] in *.
  - eexists _, t. split; [reflexivity|]. split; [|conjs; try done; by exists c'']. unfold lineEnd. rewrite Her. cbn [negb].
    apply (Hwr [Raw t]); [done|]. cbn [set_out w_out print modify fst]. by rewrite Ho.
  - eexists _, t. split; [reflexivity|]. split; [|conjs; try done; by exists c'']. unfold lineEnd. rewrite Her. cbn [negb].
    apply (Hwr [Raw t; Raw nl]); [reflexivity|]. cbn [set_out w_out]. rewrite Ho. by rewrite <- app_assoc.
Qed.

(** What is done with a plaintext changes no profile. *)
Definition sameProfiles (w w' : World) : Prop := w_profiles w' = w_profiles w.

#[local] Instance sameProfiles_pre : PreOrder sameProfiles.
Proof. split; [done|]. unfold sameProfiles. intros ??? ??. congruence. Qed.

Lemma emitPlain_profiles env opts sender plain : leads sameProfiles (emitPlain env opts sender plain).
Proof. unfold emitPlain, writeFile, WriteJSONResponse, printEncoded, stdout, encodeAs, print. follow. Qed.

(** What [decrypt] says about the sender of a text. *)
Definition fromNote (sender : bytes) : bytes := concat [str "[✓] Message decrypted"; nl; nl; str "From:"; nl; sender; nl].

Lemma emitPlain_text env opts sender plain w : do_OutputFile opts = [] -> do_Format opts = formatHuman ->
  utf8Valid plain = true -> looksLikeText plain = true ->
  emitPlain env opts sender plain w = (set_out (w_out w ++ [Stderr (fromNote sender); Plain plain]) w, Ok tt).
Proof.
  intros Ho Hf Hu Ht. unfold emitPlain. rewrite Ho, Hf, Hu, Ht, bytes_eqb_refl. change (bytes_eqb formatHuman formatJSON) with false. cbn [negb andb].
  unfold print, modify, mbind, Step_bind. cbn [set_out w_out]. by rewrite <- app_assoc.
Qed.

(** A frame from a session in step, to the client that is loaded. *)
Lemma client_message rnd cA cB bob pt spA spB : session cA bob = Some spA -> session cB (cl_Id cA) = Some spB -> synced (Net spA spB [] []) ->
  send_ok rnd spA -> len (cl_Id cA) < 2 ^ 30 -> len pt < 2 ^ 30 ->
  exists cA' cB' ct spA' spB', Client_Encrypt true rnd cA bob pt = (cA', Ok ct) /\ Client_Decrypt true cB ct = (cB', Ok (cl_Id cA, pt)) /\
    session cA' bob = Some spA' /\ session cB' (cl_Id cA) = Some spB' /\ synced (Net spA' spB' [] []) /\ cl_Id cA' = cl_Id cA /\ cl_Id cB' = cl_Id cB.
Proof.
  intros Ha Hb Hsync Hok Hn Hp. unfold session in Ha, Hb. apply bind_Some in Ha as (la & Hla & Hha), Hb as (lb & Hlb & Hhb).
  assert (wf_peer (sendRatchet rnd spA)) as Hwf by (destruct Hok, Hsync; by apply wf_sendRatchet).
  destruct (Encrypt_total rnd spA (cl_Id cA) pt Hn Hp) as [ct Henc].
  { rewrite (wf_pub _ Hwf). apply length_x25519_base, (wf_priv _ Hwf). }
  pose proof (send_a _ _ _ _ _ _ _ _ _ Hok Henc Hsync) as Hsync1. cbn [app] in Hsync1.
  destruct (Decrypt spB ct) as [spB' rB] eqn:Hdec.
  destruct (recv_b (Flight ct (cl_Id cA) pt) rB _ spB spB' [] [] Hdec Hsync1) as [-> Hsync2]. cbn [fl_name fl_text] in Hdec.
  eexists _, _, ct, _, _.
  unfold Client_Encrypt, Client_Decrypt, sessionFor. rewrite Hla, Hha, Henc, (Decrypt_sender _ _ _ _ _ Hdec), Hlb, Hhb, Hdec.
  split; [reflexivity|]. split; [reflexivity|]. rewrite !SaveClient_session. unfold session.
  cbn [cl_Sessions store set_heap cl_heap]. rewrite Hla, Hlb. cbn [mbind option_bind]. rewrite !lookup_insert_eq.
  destruct (SaveClient_same true (store la (afterSend (sendRatchet rnd spA)) cA)) as [_ ->], (SaveClient_same true (store lb spB' cB)) as [_ ->]. done.
Qed.

(** C14: A message over the command line, with whatever carries the text.  What
    [encrypt] prints for a peer, as base64, as hex or, unless it is a terminal that
    it prints to, as it is, [decrypt] of the peer turns back into the sender and the
    plaintext, whatever it then does with it: a text that goes to the terminal is
    printed as it was given, after a note that names the sender.  Encrypting
    succeeds, and the sessions in the profiles are in step again, so the next
    message follows. *)
Theorem offline_message_received envA envB wA wA1 wB wB1 alice bob message file inEnc raw pt enc inline fileB out encOut fmt r1 r2 :
  inStep wA wB alice bob -> works envA -> works envB -> storesOpen envB bob (w_disk wB) ->
  (forall c sp, profile wA alice = Some c -> session c bob = Some sp -> send_ok (fe_rand envA) sp) ->
  Input.Valid inEnc = true -> Input.Valid enc = true -> (enc = Input.EncodingRaw -> fe_tty envA = false) -> Input.Valid encOut = true -> fmt = formatHuman \/ fmt = formatJSON ->
  readInput envA message file wA = (wA, Ok raw) -> Input.DecodeInput inEnc raw = Ok pt -> len alice < 2 ^ 30 -> len pt < 2 ^ 30 ->
  let opts := mkDecrypt bob inline fileB out enc encOut fmt in
  RunEncrypt envA (mkEncrypt alice bob message file [] inEnc enc formatHuman) wA = (wA1, r1) ->
  readInput envB inline fileB wB = (wB, Ok (writtenSince wA wA1)) ->
  RunDecrypt envB opts wB = (wB1, r2) ->
  r1 = Ok tt /\ inStep wA1 wB1 alice bob /\
  (exists w, w_out w = w_out wB /\ emitPlain envB opts alice pt w = (wB1, r2)) /\
  (out = [] -> fmt = formatHuman -> utf8Valid pt = true -> looksLikeText pt = true ->
     r2 = Ok tt /\ w_out wB1 = w_out wB ++ [Stderr (fromNote alice); Plain pt]).
Proof.
  intros (cA & cB & spA & spB & HpA & HpB & HidA & HidB & HsA & HsB & Hsync) WA WB Hopen Hok Vi Ve Hraw Vo Hfmt Hin Hpt Hla Hlp opts R1 I1 R2.
  rewrite <- HidA in HsB, Hla.
  destruct (client_message (fe_rand envA) cA cB bob pt spA spB HsA HsB Hsync (Hok _ _ HpA HsA) Hla Hlp)
    as (cA' & cB' & ct & spA' & spB' & Henc & Hdec & HsA' & HsB' & Hsync' & HidA' & HidB'). rewrite HidA in *. rewrite HidB in HidB'.
  destruct (RunEncrypt_run envA wA alice cA cA' bob message file inEnc enc raw pt ct WA Vi Ve Hraw HpA HidA Hin Hpt Henc HidA')
    as (w1 & t & E1 & Hw & Hd & Hg & cA1 & HpA1 & HidA1 & HsA1).
  rewrite E1 in R1. injection R1 as <- <-. split; [done|]. rewrite Hw in I1.
  destruct (profile_loaded _ _ _ HpB) as [Hwf He]. unfold RunDecrypt in R2.
  cbn [opts do_LocalPeer do_CipherText do_InputFile do_InputEncoding do_OutputEncoding do_Format] in R2.
  rewrite (valid_encoding _ Ve), (valid_encoding _ Vo) in R2.
  assert (ValidateFormat fmt = Ok tt) as Hf by (by destruct Hfmt as [-> | ->]). rewrite Hf in R2.
  do 3 erewrite bind_run in R2 by reflexivity. rewrite (bind_run _ _ _ _ _ (LoadClient_run _ _ _ HpB)) in R2. set (w2 := set_clients _ _ wB) in *.
  rewrite (bind_run _ _ _ _ _ (readInput_at _ _ _ _ w2 _ I1 eq_refl)) in R2.
  assert (exists w3, ingestStandardBytes envB bob (t ++ lineEnd enc) w2 = (w3, Err NotFrame) /\ w_profiles w3 = w_profiles w2 /\ w_out w3 = w_out w2 /\
    forall l, (l < w_next w2)%nat -> w_clients w3 !! l = w_clients w2 !! l) as (w3 & Hing & Hp3 & Ho3 & Hc3).
  { destruct (decide (enc = Input.EncodingRaw)) as [->|Hne].
    - destruct (Client_Encrypt_head _ _ _ _ _ _ _ Henc) as [rest Hct]. change (Input.DecodeInput Input.EncodingRaw ?x) with (@Ok Input.codec_err _ x) in Hd. injection Hd as ->.
      rewrite Hct, ingest_frame. by exists w2.
    - assert (trimSpace (t ++ lineEnd enc) = t) as Htrim by (unfold lineEnd; rewrite (proj2 (bytes_eqb_neq _ _) Hne); by apply trimSpace_line, Hg).
      destruct (Hg Hne) as [Hgr Hj]. apply (ingest_text envB bob (t ++ lineEnd enc) w2 cB); [done|done|by rewrite Htrim, trimSpace_graphic|by rewrite Htrim]. }
  assert (attempt (ingestStandardBytes envB bob (t ++ lineEnd enc)) w2 = (w3, Ok (inl NotFrame))) as Hatt by (unfold attempt; by rewrite Hing).
  rewrite (bind_run _ _ _ _ _ Hatt) in R2. cbv iota in R2. unfold decryptLegacy, decodeAs in R2. cbn [opts do_InputEncoding] in R2. rewrite Hd in R2.
  erewrite bind_run in R2 by reflexivity. unfold decryptFrom in R2. rewrite (proj1 WB) in R2.
  pose proof (Decrypt_wf true cB ct Hwf) as Hwf'. rewrite Hdec in Hwf'.
  assert (w_clients w3 !! w_next wB = Some cB) as Hc by (rewrite Hc3 by (cbn; lia); apply lookup_insert_eq).
  destruct (method_saves wB w3 bob (w_next wB) cB cB' (fun c => Client_Decrypt true c ct) (alice, pt) HpB HidB Hp3 Hc Hdec Hwf'
    (decrypt_saved _ _ _ _ He Hdec) HidB') as [Hrun (cB1 & HpB1 & HidB1 & HsB1)].
  rewrite (bind_run _ _ _ _ _ Hrun) in R2. set (w4 := putClient _ _ w3) in *.
  assert (w_out w4 = w_out wB) as Ho4 by (unfold w4; destruct (putClient_eq (w_next wB) cB' w3) as (_ & _ & _ & _ & -> & _); by rewrite Ho3).
  split; [|split; [by exists w4|]].
  - pose proof (emitPlain_profiles envB opts alice pt w4) as Hpr. unfold sameProfiles in Hpr. rewrite R2 in Hpr. cbn [fst] in Hpr.
    exists cA1, cB1, (reload spA'), (reload spB'). rewrite HsA1, HsA', HsB1, HsB'. unfold profile at 2. rewrite Hpr. conjs; try done.
    by apply synced_reloaded.
  - intros -> -> Hu Ht. rewrite (emitPlain_text envB opts alice pt w4 eq_refl eq_refl Hu Ht) in R2.
    injection R2 as <- <-. split; [done|]. cbn [set_out w_out]. by rewrite Ho4.
Qed.

(** ** What the commands do against their intention *)

(** The shell's [load] binds the groups of the new identity and not its mailbox: a
    message pasted afterwards is kept in the conversations of the identity before. *)
Theorem load_keeps_mailbox env w w' id c args r : profile w id = Some c -> execLoad env (id :: args) w = (w', Ok r) ->
  ActiveClient (w_state w') = Some (w_next w) /\ MailboxStore (w_state w') = MailboxStore (w_state w).
Proof.
  intros Hp. unfold execLoad, orProblem, attempt. unfold mbind at 1, Step_bind at 1. rewrite (LoadClient_run _ _ _ Hp). cbn [ActiveClient].
  erewrite bind_run by reflexivity. set (w1 := set_state _ _).
  rewrite (bind_run _ _ w1 w1 c) by (apply clientAt_run; cbn; apply lookup_insert_eq). erewrite bind_run by reflexivity. erewrite bind_run by reflexivity.
  unfold InitFanout. erewrite bind_run by reflexivity. cbn [ActiveClient set_state w_state set_KnownPeers set_ActiveClient w1 w_out set_out].
  match goal with |- (clientAt _ ≫= _) ?w0 = _ -> _ => set (w2 := w0) end.
  rewrite (bind_run _ _ w2 w2 c) by (apply clientAt_run; cbn; apply lookup_insert_eq). intros H.
  assert (forall {A} (m : M A) wa wb a, leads (fun w w' => w_state w' = w_state w) m -> m wa = (wb, a) -> w_state wb = w_state wa) as Hk.
  { intros A m wa wb a Hm Heq. specialize (Hm wa). by rewrite Heq in Hm. }
  apply step_bind_Ok in H as (w3 & x & H3 & H). apply step_bind_Ok in H as (w4 & l & H4 & H).
  assert (w_state w3 = w_state w2) as E3.
  { eapply Hk; [|exact H3]. intros w0. unfold attempt, OpenStores. by repeat case_match; simplify_eq. }
  assert (w_state w4 = w_state w3) as E4.
  { eapply Hk; [|exact H4]. intros w0. unfold newFanFor, clientAt, newFan, gets, lift, mbind, Step_bind, mret, Step_ret. by repeat case_match; simplify_eq. }
  unfold modify in H. injection H as <-. cbn [set_state w_state]. by rewrite E4, E3.
Qed.

(** [init] binds neither: groups made afterwards are those of the identity before. *)
Theorem init_keeps_stores env w w' : execInit env w = (w', Ok tt) ->
  FanoutAt (w_state w') = FanoutAt (w_state w) /\ MailboxStore (w_state w') = MailboxStore (w_state w).
Proof.
  unfold execInit, NewClient_. cbn [newClient]. unfold clientAt, print, gets, modify, mbind, Step_bind, lift, mret, Step_ret.
  repeat case_match; simplify_eq; intros; simplify_eq; cbn [set_state set_out w_state FanoutAt MailboxStore set_ActiveClient];
    match goal with |- context [putClient ?l ?c ?w] => destruct (putClient_eq l c w) as (_ & _ & _ & _ & _ & -> & _) end; done.
Qed.

(** A frame in base64 is never taken in as one: what is looked at next is the text
    itself, whose first byte is no frame type. *)
Theorem base64_frame_not_ingested env id w c data : profile w id = Some c -> storesOpen env id (w_disk w) ->
  exists w', ingestStandardBytes env id (b64Encode data) w = (w', Err NotFrame).
Proof.
  intros Hp Ho. destruct (decode_printed Input.EncodingBase data eq_refl) as (t & Ht & _ & Hg).
  assert (t = b64Encode data) as -> by (change (Input.EncodeOutput Input.EncodingBase data) with (Ok (E := Input.codec_err) (b64Encode data)) in Ht; by injection Ht).
  destruct Hg as [Hgr Hj]; [by intros [=]%(inj str)|].
  destruct (ingest_text env id (b64Encode data) w c Hp Ho) as (w' & H & _); [by rewrite !(trimSpace_graphic _ Hgr)|by rewrite (trimSpace_graphic _ Hgr)|by exists w'].
Qed.

(** [--output] is ignored for what is taken in from a container. *)
Theorem container_output_ignored env w id inline file out out' enc encOut fmt c input ev w1 :
  profile w id = Some c -> Input.Valid enc = true -> Input.Valid encOut = true -> ValidateFormat fmt = Ok tt -> readInput env inline file w = (w, Ok input) ->
  ingestStandardBytes env id input (set_clients (<[w_next w := c]> (w_clients w)) (S (w_next w)) w) = (w1, Ok ev) ->
  RunDecrypt env (mkDecrypt id inline file out enc encOut fmt) w = RunDecrypt env (mkDecrypt id inline file out' enc encOut fmt) w.
Proof.
  intros Hp Ve Vo Vf Hin Hing. unfold RunDecrypt. cbn [do_LocalPeer do_CipherText do_InputFile do_InputEncoding do_OutputEncoding do_Format].
  rewrite (valid_encoding _ Ve), (valid_encoding _ Vo), Vf. set (w0 := set_clients _ _ w) in *.
  assert (readInput env inline file w0 = (w0, Ok input)) as Hin0 by by eapply readInput_at.
  assert (attempt (ingestStandardBytes env id input) w0 = (w1, Ok (inr ev))) as Hatt by (unfold attempt; by rewrite Hing).
  unfold mbind, Step_bind, lift. rewrite (LoadClient_run _ _ _ Hp). fold w0. rewrite Hin0, Hatt. done.
Qed.

(** Setting up the stores reports no error: what cannot be opened is left out. *)
Definition unfailing {A} (m : M A) : Prop := forall w e, (m w).2 ≠ Err e.

Lemma unfailing_bind {A B} (m : M A) (f : A -> M B) : unfailing m -> (forall a, unfailing (f a)) -> unfailing (m ≫= f).
Proof.
  intros Hm Hf w e. specialize (Hm w e). unfold mbind, Step_bind. destruct (m w) as [w1 [a|e'|]]; cbn in *; [apply Hf|congruence|done].
Qed.

Lemma unfailing_attempt {A} (m : M A) : unfailing (attempt m).
Proof. intros w e. unfold attempt. by destruct (m w) as [w1 [a|e'|]]. Qed.

Lemma unfailing_clientAt l : unfailing (clientAt l).
Proof. unfold clientAt. apply unfailing_bind; [done|]. intros [c|]; done. Qed.

Lemma replState_unfailing env cl : unfailing (replState env cl).
Proof.
  unfold replState, InitMailbox, InitFanout, newFanFor, newFan.
  repeat first [apply unfailing_bind; [|intros] | apply unfailing_attempt | apply unfailing_clientAt
    | match goal with |- unfailing (match ?x with _ => _ end) => destruct x end | (intros w e; cbn; done)].
Qed.

(** A blank line given to the loop's [decrypt], or the end of its input, crashes it. *)
Theorem blank_package_panics env cl w : trimSpace (default [] (head (w_typed w))) = [] -> (loopDecrypt env (Some cl) w).2 = Panic.
Proof.
  intros Hb. unfold loopDecrypt, say. erewrite bind_run by reflexivity. set (w1 := set_out _ w).
  assert (exists w2 l, scan w1 = (w2, Ok l) /\ trimSpace l = []) as (w2 & l & Hs & Hl).
  { unfold scan. cbn [w1 w_typed set_out]. destruct (w_typed w) as [|l rest]; do 2 eexists; split; [reflexivity|done|reflexivity|done]. }
  rewrite (bind_run _ _ _ _ _ Hs). cbn [loopClient]. rewrite Hl.
  pose proof (replState_unfailing env cl w2) as Hne.
  unfold mbind at 1, Step_bind at 1. destruct (replState env cl w2) as [w3 [u|e|]]; [|by destruct (Hne e)|done].
  erewrite bind_run by reflexivity. unfold Ingest, DecodeContainer. reflexivity.
Qed.

End Commands.

(** ** Concrete runs *)
#[local] Existing Instance noJSON.
#[local] Existing Instance OpsTheorems.noSurroundings.
#[local] Existing Instance plainText.

(** An envelope reader that knows exactly the texts that are written. *)
Definition ref_envelope (b : bytes) : option (option bytes) :=
  match splitOn x22 b with
  | [_; _; _; _; _; _; _; d; _] => Some <$> b64Decode d
  | _ => None
  end.

#[export] Instance ref_envelope_json : EnvelopeJSON := {| json_envelope := ref_envelope |}.

Lemma ref_envelope_reads typeKey dataKey t data : x22 ∉ typeKey -> x22 ∉ dataKey -> forallb plainJSON t = true ->
  ref_envelope (marshalEnvelope typeKey dataKey t data) = Some (Some data).
Proof.
  intros Hk Hd Ht%plain_no_quote. pose proof (plain_no_quote _ (b64Encode_plain data)) as Hb. unfold ref_envelope, marshalEnvelope.
  assert (forall w s, x22 ∉ w -> splitOn x22 (w ++ [x22] ++ s) = w :: splitOn x22 s) as H by (intros w s Hw; by apply splitOn_app).
  rewrite (H (str "{")), (H typeKey), (H (str ":")), (H t), (H (str ",")), (H dataKey), (H (str ":")), (H (b64Encode data)),
    splitOn_word by (try done; by apply (bool_decide_unpack _)). by rewrite b64Decode_Encode.
Qed.

#[export] Instance ref_envelope_laws : EnvelopeJSONLaws.
Proof. split; intros t data Ht; apply ref_envelope_reads; try done; by apply (bool_decide_unpack _). Qed.

(** A command with its own randomness and input. *)
Definition offEnv (r : PeerRand) (oid : bytes) (stdin : bytes) : frontEnv :=
  mkFrontEnv (fun _ => demoIO) true [] demoSend (fun _ => true) [] [] r oid [x09] (demoBytes 32 x22) 77 5 9
    noFaults (fun s => map_to_list s) (mkInput true false (Some stdin)) false true true (fun _ => Written) None true.

Definition offWorld (c : Client) : World := mkWorld ∅ ∅ ∅ 0%nat {[cl_Id c := SaveClient true c]} ∅ [] [] [] NewState.

Lemma offWorld_profile c : client_wf c -> cl_ephemeral c = false ->
  exists c', profile (offWorld c) (cl_Id c) = Some c' /\ cl_Id c' = cl_Id c /\ forall n, session c' n = reload <$> session c n.
Proof.
  intros Hwf He. destruct (save_load c Hwf He) as (c' & Hl & _ & Hid & Hs). exists c'. split; [|done].
  unfold profile, offWorld. cbn [w_profiles]. by rewrite lookup_singleton_eq.
Qed.

Definition alice_ : Identity := demoId x41.
Definition bob_ : Identity := demoId x42.
Definition offOffer := RunOffer (offEnv (demoRand x01 x02) (demoBytes 16 x05) []) (mkOffer (idOf alice_) (idOf bob_) [] (str "b64") formatHuman) (offWorld (demoClient alice_)).
Definition offOfferText : bytes := Eval vm_compute in writtenSince (offWorld (demoClient alice_)) offOffer.1.

Definition offAnswer := RunAccept (offEnv (demoRand x03 x04) [] offOfferText) (mkAccept (idOf bob_) [] [] [] (str "b64") (str "hex") formatHuman) (offWorld (demoClient bob_)).
Definition offAnswerText : bytes := Eval vm_compute in writtenSince (offWorld (demoClient bob_)) offAnswer.1.
Definition offFinish := RunFinish (offEnv (demoRand x01 x02) [] []) (mkFinish (idOf alice_) offAnswerText [] (str "hex") formatHuman) offOffer.1.

Lemma offTexts : writtenSince (offWorld (demoClient alice_)) offOffer.1 = offOfferText /\ writtenSince (offWorld (demoClient bob_)) offAnswer.1 = offAnswerText.
Proof. split; vm_compute; reflexivity. Qed.

Lemma demoClient_of i c : LoadClient (SaveClient true (demoClient i)) = Some c -> client_of c i.
Proof. unfold LoadClient. cbn. rewrite omap_empty, map_to_list_empty. by intros [= <-]. Qed.

Lemma offline_handshake_establishes_witness :
  offOffer.2 = Ok tt /\ offAnswer.2 = Ok tt /\ offFinish.2 = Ok tt /\ inStep offFinish.1 offAnswer.1 (idOf alice_) (idOf bob_).
Proof.
  destruct offTexts as [T1 T2].
  destruct (offWorld_profile (demoClient alice_)) as (cA & HA & _ & SA); [apply demoClient_wf|done|].
  destruct (offWorld_profile (demoClient bob_)) as (cB & HB & _ & SB); [apply demoClient_wf|done|].
  assert (forall i c, profile (offWorld (demoClient i)) (idOf i) = Some c -> (forall n, session c n = reload <$> session (demoClient i) n) -> client_of c i /\ session c (idOf alice_) = None) as H.
  { intros i c Hp Hs. split; [|by rewrite Hs].
    unfold profile, offWorld in Hp. cbn [w_profiles] in Hp. change (cl_Id (demoClient i)) with (idOf i) in Hp. rewrite lookup_singleton_eq in Hp.
    cbn [mbind option_bind] in Hp. by apply demoClient_of. }
  apply (offline_handshake_establishes (offEnv (demoRand x01 x02) (demoBytes 16 x05) []) (offEnv (demoRand x01 x02) [] []) (offEnv (demoRand x03 x04) [] offOfferText)
    (offWorld (demoClient alice_)) offOffer.1 offFinish.1 (offWorld (demoClient bob_)) offAnswer.1 alice_ bob_ cA cB (str "b64") (str "hex") [] [] offAnswerText []).
  - apply demoId_honest.
  - apply demoId_honest.
  - exact demoId_distinct.
  - exact HA.
  - by apply H.
  - exact HB.
  - by apply H.
  - apply demoRand_good.
  - apply demoRand_good.
  - reflexivity.
  - by rewrite (proj2 (H _ _ HB SB)).
  - by split.
  - by split.
  - by split.
  - reflexivity.
  - reflexivity.
  - apply surjective_pairing.
  - rewrite T1. by apply readInput_stdin.
  - apply surjective_pairing.
  - rewrite T2. by apply readInput_inline.
  - apply surjective_pairing.
Defined.

(** Two profiles with a session each. *)
Definition talker (id peer : bytes) (sp : SecurePeer) : Client :=
  mkClient id (demoBytes 64 x41) [] [] [] {[peer := 0%nat]} false {[0%nat := sp]} 1%nat None.

Lemma talker_wf id peer sp : client_wf (talker id peer sp).
Proof.
  split; cbn.
  - intros name l [_ <-]%lookup_singleton_Some. by rewrite lookup_singleton_eq.
  - intros l [x [<- _]%lookup_singleton_Some]. lia.
Qed.

Lemma talker_profile id peer sp : exists c, profile (offWorld (talker id peer sp)) id = Some c /\ cl_Id c = id /\ session c peer = Some (reload sp).
Proof.
  destruct (offWorld_profile (talker id peer sp) (talker_wf _ _ _) eq_refl) as (c & Hp & Hid & Hs). exists c. split; [exact Hp|]. split; [exact Hid|].
  rewrite Hs. unfold session, talker. cbn [cl_Sessions cl_heap]. rewrite lookup_singleton_eq. cbn [mbind option_bind]. by rewrite lookup_singleton_eq.
Qed.

Definition offSend := RunEncrypt (offEnv (demoRand x01 x02) [] []) (mkEncrypt demoCreator (str "bo") (str "hi there") [] [] (str "raw") (str "b64") formatHuman) (offWorld (talker demoCreator (str "bo") demoA)).
Definition offPackage : bytes := Eval vm_compute in writtenSince (offWorld (talker demoCreator (str "bo") demoA)) offSend.1.
Definition offRecv := RunDecrypt (offEnv (demoRand x03 x04) [] offPackage) (mkDecrypt (str "bo") [] [] [] (str "b64") (str "raw") formatHuman) (offWorld (talker (str "bo") demoCreator demoB)).

Lemma storesOpen_check env id d :
  match OpenIdentityStores ex_contexts ex_policies ex_deliveries (fe_io env 1%nat) (fe_io env 2%nat) id d with
  | Ok (_, ds) => match Mailbox.Load ex_threads (fe_io env 0%nat) id (fd_disk ds) with Ok _ => true | _ => false end
  | _ => false
  end = true -> storesOpen env id d.
Proof.
  unfold storesOpen. destruct (OpenIdentityStores _ _ _ _ _ _ _) as [[cs ds]|e|]; [|done..]. destruct (Mailbox.Load _ _ _ _) as [s|e|] eqn:Hl; [|done..].
  intros _. by exists cs, ds, s.
Qed.

Lemma offPackage_eq : writtenSince (offWorld (talker demoCreator (str "bo") demoA)) offSend.1 = offPackage.
Proof. vm_compute. reflexivity. Qed.

Lemma offline_message_received_witness :
  offSend.2 = Ok tt /\ inStep offSend.1 offRecv.1 demoCreator (str "bo") /\
  offRecv.2 = Ok tt /\ w_out offRecv.1 = [Stderr (fromNote demoCreator); Plain (str "hi there")].
Proof.
  destruct (talker_profile demoCreator (str "bo") demoA) as (cA & HA & IA & SA), (talker_profile (str "bo") demoCreator demoB) as (cB & HB & IB & SB).
  destruct (offline_message_received (offEnv (demoRand x01 x02) [] []) (offEnv (demoRand x03 x04) [] offPackage)
    (offWorld (talker demoCreator (str "bo") demoA)) offSend.1 (offWorld (talker (str "bo") demoCreator demoB)) offRecv.1 demoCreator (str "bo") (str "hi there") [] (str "raw")
    (str "hi there") (str "hi there") (str "b64") [] [] [] (str "raw") formatHuman offSend.2 offRecv.2) as (H1 & H2 & _ & H3).
  - exists cA, cB, (reload demoA), (reload demoB). split; [exact HA|]. split; [exact HB|]. split; [exact IA|]. split; [exact IB|]. split; [exact SA|].
    split; [exact SB|]. apply synced_reloaded, demo_synced.
  - by split.
  - by split.
  - apply storesOpen_check. vm_compute. reflexivity.
  - intros c sp Hc Hs. rewrite HA in Hc. injection Hc as <-. rewrite SA in Hs. injection Hs as <-. apply demo_send_ok; vm_compute; reflexivity.
  - reflexivity.
  - reflexivity.
  - discriminate.
  - reflexivity.
  - by left.
  - by apply readInput_inline.
  - reflexivity.
  - reflexivity.
  - reflexivity.
  - apply surjective_pairing.
  - rewrite offPackage_eq. by apply readInput_stdin.
  - apply surjective_pairing.
  - destruct (H3 eq_refl eq_refl eq_refl eq_refl) as [H4 H5]. split; [exact H1|]. split; [exact H2|]. split; [exact H4|exact H5].
Defined.
