(* ===== verification/OfflineLoop.v ===== *)
(** * The offline shells end

    Every command takes lines from the input and adds none, so the loops of
    [cmd/offline] and [cmd/shell] need no more rounds than there are lines. *)
From S2P Require Import Prelude Steps GoStd Sha256 External SecurePeer Session Engine Client Codec Frame Binstore Records MultiMsg MultiStore Fanout Mailbox Contacts Dispatch.
From S2P Require Import Registry Shell Transport Ops OpsFrames Front FrontFacts GroupChat GroupChatTheorems Completion Offline OfflineTheorems SessionTheorems EngineFacts OpsTheorems.
#[local] Open Scope Z_scope.
Import Ops Frames Front FrontFacts GroupChat Completion Offline Steps.

(** What is left to read. *)
Definition reads (w w' : World) : Prop := w_typed w' `suffix_of` w_typed w.

#[local] Instance reads_pre : PreOrder reads.
Proof. unfold reads. split; [by intros w; exists []|]. intros ??? H1 H2. by etransitivity. Qed.

Section Loop.
Context `{N : Nanopack} `{P : Prims} `{J : LegacyJSON} `{R : RecordStore} `{X : Surroundings} `{FT : FrontText} `{CJ : ContainerJSON} `{EJ : EnvelopeJSON}.
Context (env : frontEnv).
Implicit Types w : World.

Lemma reads_same {A} (m : M A) : (forall w, w_typed (m w).1 = w_typed w) -> leads reads m.
Proof. intros H w. unfold reads. rewrite H. by exists []. Qed.

Lemma reads_modify f : (forall w, w_typed (f w) = w_typed w) -> leads reads (modify f : M unit).
Proof. intros H. by apply reads_same. Qed.

#[local] Hint Extern 1 (leads reads (modify _)) => apply reads_modify; done : leads.

(** ** Front.v *)
Lemma reads_print l : leads reads (print l).
Proof. unfold print. follow. Qed.

Lemma reads_prints l : leads reads (prints l).
Proof. apply reads_same. intros w. by rewrite prints_run. Qed.

Lemma reads_newClient c : leads reads (newClient c).
Proof. by apply reads_same. Qed.
Lemma reads_newMailbox s : leads reads (newMailbox s).
Proof. by apply reads_same. Qed.
Lemma reads_newFan f : leads reads (newFan f).
Proof. by apply reads_same. Qed.

#[local] Hint Resolve reads_print reads_prints reads_newClient reads_newMailbox reads_newFan : leads.

Lemma reads_clientAt l : leads reads (clientAt l).
Proof. unfold clientAt. follow. Qed.
Lemma reads_mailboxAt l : leads reads (mailboxAt l).
Proof. unfold mailboxAt. follow. Qed.
Lemma reads_fanAt l : leads reads (fanAt l).
Proof. unfold fanAt. follow. Qed.

Lemma typed_putClient l c w : w_typed (putClient l c w) = w_typed w.
Proof. unfold putClient. by destruct (cl_disk c). Qed.

Lemma reads_onClient {E A} (err : E -> front_err) l (f : Client -> Client * res E A) : leads reads (onClient err l f).
Proof. apply reads_same. intros w. unfold onClient. repeat case_match; try done. apply typed_putClient. Qed.

Lemma reads_onMailbox {A} l (f : Mailbox.Store -> Mailbox.Store * res Mailbox.mailbox_err A) : leads reads (onMailbox l f).
Proof. apply reads_same. intros w. unfold onMailbox. by repeat case_match. Qed.

Lemma reads_onFanSend {A} l (f : Fanout contexts deliveries -> Fanout contexts deliveries * list sending * res fo_err A) : leads reads (onFanSend l f).
Proof. apply reads_same. intros w. unfold onFanSend, putFan. repeat case_match; try done. cbn. by rewrite typed_putClient. Qed.

Lemma reads_onFan {A} l (f : Fanout contexts deliveries -> Fanout contexts deliveries * res fo_err A) : leads reads (onFan l f).
Proof. apply reads_onFanSend. Qed.

#[local] Hint Resolve reads_clientAt reads_mailboxAt reads_fanAt reads_onClient reads_onMailbox reads_onFanSend reads_onFan : leads.

Lemma reads_ctxStore l : leads reads (ctxStore l).
Proof. unfold ctxStore. follow. Qed.

Lemma reads_NewClient_ : leads reads (NewClient_ env).
Proof. apply reads_same. intros w. unfold NewClient_. cbn. by rewrite typed_putClient. Qed.

Lemma reads_LoadClient_ id : leads reads (LoadClient_ id).
Proof. unfold LoadClient_. follow. Qed.

Lemma reads_OpenStores i id : leads reads (OpenStores env i id).
Proof. apply reads_same. intros w. unfold OpenStores. by repeat case_match. Qed.

Lemma reads_LoadMailbox i id : leads reads (LoadMailbox env i id).
Proof. unfold LoadMailbox. follow. apply reads_same. intros w. by repeat case_match. Qed.

Lemma reads_newFanFor cl relay cs ds : leads reads (newFanFor cl relay cs ds).
Proof. unfold newFanFor. follow. Qed.

#[local] Hint Resolve reads_ctxStore reads_NewClient_ reads_LoadClient_ reads_OpenStores reads_LoadMailbox reads_newFanFor : leads.

Lemma reads_InitMailbox : leads reads (InitMailbox env).
Proof. unfold InitMailbox. follow. Qed.
Lemma reads_InitFanout : leads reads (InitFanout env).
Proof. unfold InitFanout. follow. Qed.
Lemma reads_RememberPeer id : leads reads (RememberPeer id).
Proof. unfold RememberPeer, onPeers. follow. Qed.
Lemma reads_SyncPeers : leads reads (SyncPeersFromClient env).
Proof. unfold SyncPeersFromClient, onPeers. follow. Qed.
Lemma reads_contactBook : leads reads (contactBook env).
Proof. apply reads_same. intros w. unfold contactBook. by repeat case_match. Qed.

#[local] Hint Resolve reads_InitMailbox reads_InitFanout reads_RememberPeer reads_SyncPeers reads_contactBook : leads.

Lemma reads_ResolvePeer arg : leads reads (ResolvePeer env arg).
Proof. unfold ResolvePeer. follow. Qed.
Lemma reads_PeerCandidates : leads reads (PeerCandidates_ env).
Proof. unfold PeerCandidates_. follow. Qed.

Lemma reads_scan : leads reads scan.
Proof. intros w. unfold reads, scan. destruct (w_typed w) as [|l rest] eqn:Ht; cbn; [by rewrite Ht|by exists [l]]. Qed.

#[local] Hint Resolve reads_ResolvePeer reads_PeerCandidates reads_scan : leads.

(** ** The group commands *)
Lemma reads_orProblem {A} (m : M A) (k : A -> M unit) : leads reads m -> (forall a, leads reads (k a)) -> leads reads (orProblem m k).
Proof. intros Hm Hk. unfold orProblem. follow; eauto with leads. Qed.

Lemma reads_Ingest cl mb fan raw : leads reads (Ingest env cl mb fan raw).
Proof. unfold Ingest, ingestGroup, ingestMessage, recordIncoming. follow. Qed.

#[local] Hint Resolve reads_orProblem reads_Ingest : leads.

(** Follow a command through the steps that report a problem and go on. *)
Ltac follow_problems := repeat (follow; try (apply reads_orProblem; [follow|intros])).

Lemma reads_execContext args : leads reads (execContext env args).
Proof.
  unfold execContext, activePrivate, createContext, updateContext, listContexts, showContext, printMembers, printContextDetail, execPolicy, setPolicy.
  follow_problems.
Qed.

Lemma reads_exportCopies l : forall n, leads reads (exportCopies n l).
Proof. induction l as [|[recipient ct] l IH]; intros n; cbn [exportCopies]; follow. Qed.

#[local] Hint Resolve reads_exportCopies : leads.

Lemma reads_execSendMulti args : leads reads (execSendMulti env args).
Proof. unfold execSendMulti, sendMulti, reportSend, recordOutgoing. follow_problems. Qed.

Lemma reads_printThreads group l : leads reads (printThreads group l).
Proof. induction l as [|t l IH]; cbn [printThreads]; unfold printThreadLine, printMembersPreview; follow. Qed.

#[local] Hint Resolve reads_printThreads : leads.

Lemma reads_execMailbox args : leads reads (execMailbox env args).
Proof. unfold execMailbox, RenderMailboxList, printSection, ResolveThreadKey, readThread, RenderThread. follow_problems. Qed.

#[local] Hint Resolve reads_execContext reads_execSendMulti reads_execMailbox : leads.

Lemma reads_group cmd args : leads reads (GroupChat.Execute env cmd args).
Proof. unfold GroupChat.Execute, execContextsList, listContexts. follow_problems. Qed.

(** ** The offline commands *)
Lemma reads_RenderHelp specs : leads reads (RenderHelp specs).
Proof. unfold RenderHelp. follow. Qed.
Lemma reads_PrintPeers hint : leads reads (PrintPeers env hint).
Proof. unfold PrintPeers. follow. Qed.

Lemma reads_withClient k : (forall cl, leads reads (k cl)) -> leads reads (withClient k).
Proof. intros H. unfold withClient. follow. Qed.

Lemma reads_messageText words : leads reads (messageText env words).
Proof. unfold messageText, say. follow. Qed.

#[local] Hint Resolve reads_group reads_RenderHelp reads_PrintPeers reads_messageText : leads.

Lemma reads_ask prompt : leads reads (ask prompt).
Proof. unfold ask. follow. Qed.

#[local] Hint Resolve reads_ask : leads.

Ltac follow_command := repeat (follow_problems; try (apply reads_withClient; intros)).

Lemma reads_Execute cmd args : leads reads (Offline.Execute env cmd args).
Proof.
  unfold Offline.Execute, execInit, execLoad, execOffer, execAccept, execFinish, execEncrypt, execDecrypt, Help, say, createOffer, acceptOffer, finishHandshake,
    encryptTo, decryptFrom, ingestStandard, showIngested, execLegacy, keepIncoming. follow_command.
Qed.

(** ** The loop *)
Lemma reads_loopClient active k : (forall cl, leads reads (k cl)) -> leads reads (loopClient active k).
Proof. intros H. unfold loopClient, say. destruct active; [apply H|follow]. Qed.

Lemma reads_pastedEnvelope invalid k : (forall d, leads reads (k d)) -> leads reads (pastedEnvelope invalid k).
Proof. intros H. unfold pastedEnvelope, say. follow. Qed.

Ltac follow_loop := repeat (follow_problems; try (apply reads_loopClient; intros); try (apply reads_pastedEnvelope; intros)).

Lemma reads_loopCommand active cmd args : leads reads (loopCommand env active cmd args).
Proof.
  unfold loopCommand, loopInit, loopLoad, loopOffer, loopAccept, loopFinish, loopEncrypt, loopDecrypt, loopShow, loopGroup, replState, say, createOffer, acceptOffer,
    finishHandshake, encryptTo, decryptFrom. follow_loop.
Qed.

Lemma readLine_end w : w_typed w = [] -> readLine w = (w, Ok None).
Proof. unfold readLine. by intros ->. Qed.
Lemma readLine_line w l rest : w_typed w = l :: rest -> readLine w = (set_typed rest w, Ok (Some l)).
Proof. unfold readLine. by intros ->. Qed.

Lemma loop_done fuel : forall active w w', (length (w_typed w) < fuel)%nat -> loop env fuel active w = (w', Ok tt) ->
  w_typed w' = [] \/ list.last (w_out w') = Some (Plain (str "[+] bye.")).
Proof.
  induction fuel as [|f IH]; intros active w w' Hf; [lia|]. cbn [loop]. unfold say. erewrite bind_run by reflexivity. set (w1 := set_out _ w).
  change (w_typed w) with (w_typed w1) in Hf. destruct (w_typed w1) as [|l rest] eqn:Ht.
  { rewrite (bind_run _ _ _ _ _ (readLine_end _ Ht)). intros [= <-]. by left. }
  rewrite (bind_run _ _ _ _ _ (readLine_line _ _ _ Ht)). cbn [length] in Hf.
  destruct (Shell.Fields (trimSpace l)) as [|cmd args]; [apply IH; cbn; lia|]. intros (w2 & next & Hc & H)%step_bind_Ok.
  pose proof (reads_loopCommand active (toLower ex_uni cmd) args (set_typed rest w1)) as Hr. rewrite Hc in Hr. cbn [fst] in Hr.
  destruct next as [active'|].
  - apply (IH active' w2 w'); [|done]. apply suffix_length in Hr. cbn in Hr. lia.
  - injection H as <-. right. clear -Hc. unfold loopCommand in Hc.
    repeat (case_match; [apply step_bind_Ok in Hc as (? & ? & ? & Hc); try by injection Hc as ?|]); [|by apply step_bind_Ok in Hc as (? & ? & ? & Hc); injection Hc as ?].
    unfold say, print, modify in *. simplify_eq. injection Hc as <-. cbn [set_out w_out]. apply last_snoc.
Qed.

Lemma loop_fuel f1 : forall f2 active w, (length (w_typed w) < f1)%nat -> (length (w_typed w) < f2)%nat -> loop env f1 active w = loop env f2 active w.
Proof.
  induction f1 as [|f1 IH]; intros [|f2] active w H1 H2; [lia..|]. cbn [loop]. unfold say. set (w1 := set_out (w_out w ++ [Plain (nl ++ str "> ")]) w).
  assert (print (Plain (nl ++ str "> ")) w = (w1, Ok tt)) as Hp by done. rewrite 2!(bind_run _ _ _ _ _ Hp). clear Hp.
  change (w_typed w) with (w_typed w1) in H1, H2. destruct (w_typed w1) as [|l rest] eqn:Ht; [by rewrite 2!(bind_run _ _ _ _ _ (readLine_end _ Ht))|].
  rewrite 2!(bind_run _ _ _ _ _ (readLine_line _ _ _ Ht)). cbn [length] in *.
  destruct (Shell.Fields (trimSpace l)) as [|cmd args]; [apply IH; cbn; lia|].
  pose proof (reads_loopCommand active (toLower ex_uni cmd) args (set_typed rest w1)) as Hr. unfold mbind, Step_bind.
  destruct (loopCommand _ _ _ _ _) as [w2 [[active'|]|e|]]; [|done..]. cbn [fst] in Hr. apply suffix_length in Hr. cbn in Hr. apply IH; lia.
Qed.

(** C34: The offline loop ends.  It runs as long as there is input: one round per
    line is enough, more change nothing, and when it returns normally the input has
    been read to its end or a command has asked to leave. *)
Theorem offline_loop_ends active w :
  (forall fuel, (length (w_typed w) < fuel)%nat -> loop env fuel active w = loop env (S (length (w_typed w))) active w) /\
  forall w', loop env (S (length (w_typed w))) active w = (w', Ok tt) -> w_typed w' = [] \/ list.last (w_out w') = Some (Plain (str "[+] bye.")).
Proof. split; [intros fuel Hf; apply loop_fuel; lia|]. intros w'. apply loop_done. lia. Qed.

Lemma subShell_fuel (exec : bytes -> list bytes -> M bool) : (forall cmd args, leads reads (exec cmd args)) ->
  forall f1 f2 w, (length (w_typed w) < f1)%nat -> (length (w_typed w) < f2)%nat -> subShellLoop exec f1 w = subShellLoop exec f2 w.
Proof.
  intros Hexec. induction f1 as [|f1 IH]; intros [|f2] w H1 H2; [lia..|]. cbn [subShellLoop].
  destruct (w_typed w) as [|l rest] eqn:Ht; [by rewrite 2!(bind_run _ _ _ _ _ (readLine_end _ Ht))|].
  rewrite 2!(bind_run _ _ _ _ _ (readLine_line _ _ _ Ht)). cbn [length] in *.
  destruct (Shell.Fields l) as [|cmd args]; [apply IH; cbn; lia|].
  pose proof (Hexec cmd args (set_typed rest w)) as Hr. unfold mbind, Step_bind.
  destruct (exec cmd args _) as [w2 [[]|e|]]; [|done..]. cbn [fst] in Hr. apply suffix_length in Hr. cbn in Hr. apply IH; lia.
Qed.

(** The offline sub-shell ends: one round per line is enough. *)
Theorem offline_shell_ends w fuel : (length (w_typed w) < fuel)%nat ->
  subShellLoop (Offline.Execute env) fuel w = subShellLoop (Offline.Execute env) (S (length (w_typed w))) w.
Proof. intros Hf. apply subShell_fuel; [apply reads_Execute|lia..]. Qed.

End Loop.

(** ** A run *)
#[local] Existing Instance noJSON.
#[local] Existing Instance OpsTheorems.noSurroundings.
#[local] Existing Instance GroupChatTheorems.plainText.

Definition typedWorld : World := mkWorld ∅ ∅ ∅ 0%nat ∅ ∅ [str "help"; str "exit"; str "more"] [] [] NewState.

Lemma offline_loop_ends_witness :
  loop (offEnv (demoRand x01 x02) [] []) 9 None typedWorld = loop (offEnv (demoRand x01 x02) [] []) 4 None typedWorld /\
  list.last (w_out (loop (offEnv (demoRand x01 x02) [] []) 4 None typedWorld).1) = Some (Plain (str "[+] bye.")).
Proof.
  destruct (offline_loop_ends (offEnv (demoRand x01 x02) [] []) None typedWorld) as [H1 H2]. split; [apply H1; cbn; lia|].
  destruct (H2 (loop (offEnv (demoRand x01 x02) [] []) 4 None typedWorld).1) as [H|H]; [|by exfalso; revert H; vm_compute|exact H].
  apply run_result. vm_compute. reflexivity.
Defined.
